(* ===== verification/_CoqProject ===== *)
-Q . S2P
Prelude.v
Llist.v
Misc.v
Hashmap.v
Sync.v
Sbuf.v
Lpm.v
Dijkstra.v
Segpath.v
Graph.v
Rules.v
Srdb.v
Netstate.v
Flows.v
Segrefs.v
Workers.v
Netlink.v
Arraylist.v
Routed.v
Rtnl.v
Client.v
Transport.v
Shutdown.v
Jsontext.v
Request.v
Queue.v
Dns.v
Dnsproxy.v
Config.v
Connect.v
Startup.v
Interrupt.v
System.v
