(* ===== verification/Prelude.v ===== *)
(** * Software Resolved Networks: verification library

    The program is a controller for IPv6 segment routing networks with its
    daemons.  Routers and links are rows of an OVSDB database.  An application
    asks the DNS proxy [sr-dnsproxy] for a name, with the bandwidth and delay
    it wants; the proxy resolves the name and inserts a request row; the
    controller [sr-ctrl] answers with a flow row whose segments steer the
    packets; the daemon [sr-routed] of the edge router turns the flow into a
    kernel route and sets it running; the proxy then sends the application
    the DNS answer with the binding segment of the flow, which the client
    library [srdns] puts on its socket.

    ** Files

    Every function is modelled by a definition of the same name.  C pointers
    are keys of finite maps where sharing matters and values where it does
    not; [None] (in an [option] result) is undefined behaviour: an access out
    of bounds, to freed or uninitialised memory, or through NULL.  Integers
    wrap at their width.

    - Prelude.v: machine integers, tactics, hints, list lemmas.
    - Llist.v (lib/llist.h, llist.c): the intrusive doubly linked list over
      a heap of next, prev and data fields.
    - Misc.v (lib/misc.h, misc.c): string and time helpers, C strings,
      [in6_addr].
    - Hashmap.v (lib/hashmap.h, hashmap.c): the chained hash table with its
      entry list; class [KeyOps] for the hash and comparison callbacks.
    - Sync.v: mutexes and semaphores, shared by Sbuf.v and Queue.v.
    - Sbuf.v (lib/sbuf.h, sbuf.c): the shared bounded buffer, threads as step
      machines over its mutex and semaphores, calls of sem_wait that a signal
      interrupts included; class [Buffer] for what the threads that share one
      use of it, with the ring of slots and mask of sbuf.c ([ring]) and the
      queue it is meant to be ([fifo]) as instances, which agree when the
      capacity is a power of two.
    - Lpm.v (lib/lpm.h, lpm.c): the longest-prefix-match tree.
    - Dijkstra.v (sr-ctrl/graph.c: graph_dijkstra, compute_paths): all
      shortest paths over a finalised graph, with the cost callbacks.
    - Segpath.v (sr-ctrl/graph.c: graph_minseg, build_segpath, caches):
      segment lists, and how the network forwards along them.
    - Graph.v (sr-ctrl/graph.h, graph.c): nodes and edges with reference
      counts, cloning, pruning, finalisation.
    - Rules.v (sr-ctrl/rules.h, rules.c): the policy file, with the parts of
      stdio and strtok it uses.
    - Srdb.v (lib/srdb.h, srdb.c): table descriptors, rows to C structs and
      back, dispatch of notifications; classes [Jansson], [JanssonText] for
      the JSON library with their laws and a concrete instance.
    - Netstate.v (sr-ctrl.c: nodestate_read, linkstate_read, linkstate_update,
      linkstate_delete, netstate_graph_sync): staging and published graph.
    - Flows.v (sr-ctrl.h, sr-ctrl.c: process_request, gc_flows,
      recompute_flows, thread_netmon and what they call).
    - Segrefs.v (graph.c: copy_segments, free_segments, nodes_to_edges, the
      references build_segpath takes and leaves; sr-ctrl.h: flow_release): the
      references a flow holds in Graph.v, and those of the pruned clone it
      was computed on.
    - Workers.v (sr-ctrl.c: flowreq_read, thread_worker, the end of main): the
      threads between the request rows and process_request.
    - Netlink.v (sr-routed/libnetlink.c): netlink attributes in a buffer of
      bytes, building and reading.
    - Arraylist.v (lib/arraylist.h, arraylist.c): the growable array over the
      bytes of its block.
    - Routed.v (sr-routed/sr-routed.c, seg6_netlink.c): from a flow row to the
      bytes of the route request; class [InetLaws] for the address texts.
    - Rtnl.v (sr-routed/libnetlink.c: rtnl_open, rtnl_talk and what they
      call): the conversation with the kernel about a request.
    - Client.v (sr-client/argc.c, util.c, client.c): options, directories and
      measures of the command-line client.
    - Transport.v (lib/srdb.c: transaction_worker, wakeup_tr_workers,
      ovsdb_monitor): the threads that talk to the database server.
    - Shutdown.v (lib/srdb.c: srdb_new, srdb_destroy): the end of these
      threads, and the resources of the library.
    - Jsontext.v: JSON texts; class [JanssonWire] for what the JSON library
      reads and prints, with a printer and parser that have its laws.
    - Request.v (lib/srdb.c: ovsdb_insert, ovsdb_update, ovsdb_delete,
      send_transaction and their callers): from an entry to the bytes the
      server is sent.
    - Queue.v (lib/linked_list.h, linked_list.c): intrusive queues on the heap
      of Llist.v, and the thread-safe queue as interleaved steps.
    - Dns.v (lib/srdns.h, srdns.c): the DNS client library; classes [AresDns],
      [AresLaws] for the macros and functions of c-ares.
    - Dnsproxy.v (sr-dnsproxy/server.c, client.c, monitor.c): a query from its
      bytes to the answer, on buffers of the size the code allocates.
    - Config.v (load_config and config_set_defaults of sr-ctrl.c, sr-routed.c
      and sr-dnsproxy/args.c): the configuration files.
    - Connect.v (lib/srdb.c: ovsdb_socket, the start of ovsdb_monitor,
      srdb_monitor): connections and monitors with the results of the system
      calls.
    - Startup.v (main, load_args, init_ and close_ functions of the three
      daemons): what is acquired, released, started and joined, as traces.
    - Interrupt.v (sr-dnsproxy/proxy.c: inthand; the thread functions of
      server.c and client.c): how the threads of the proxy end.
    - System.v: the components put together through rows of the database.

    ** What the theorems show

    - Composition.  [query_steers_traffic]: a query, through the proxy, the
      controller and the daemon, each of which reads from a row what the one
      before has written, ends in kernel routes along a shortest path and an
      answer that carries their binding segment.  [request_reaches_kernel]:
      the part of it from the request to the bytes for the kernel.
      [route_acknowledged]: what the kernel says to these bytes is what the
      daemon reports.  [process_request_routes],
      [process_request_constrained], [process_request_rollback]: the answers
      of the controller on every branch.  [recompute_flow_reroutes],
      [recompute_flows_affected], [gc_flows_expires], [netmon_publishes]: what
      happens to accepted flows.  [proxy_answers_requester], [proxy_rejects]:
      which client is sent what; [srdns_query_understood]: the proxy reads what
      the client library writes; [sr_socket_connects]: the segment the client
      library chooses.
    - Refinement.  [netstate_refines_topology]: the graphs with their shared,
      counted nodes and edges implement an abstract topology.
      [graph_finalize_correct]: the view Dijkstra works on.
      [hashmap_refines_assoc]: the table is an association list.
      [alist_refines_list]: the array list is a list.
      [mqueue_linearizable]: the thread-safe queue, whose list operations are
      two steps each, is a bounded FIFO with mutual exclusion;
      [unlocked_append_loses]: without the mutex an element is lost.
    - Algorithms.  [dijkstra_shortest_distances],
      [dijkstra_all_shortest_paths], [dijkstra_any_ops] (termination whatever
      the callbacks), [delay_min_least] (the path found for a delay
      is of least delay), [build_segpath_forwards];
      [lpm_lookup_longest], [lpm_insert_spec], [lpm_delete_spec];
      [mkpath_spec], [launch_first], [probe_schedule];
      [generate_unique_bsid_spec].
    - Memory.  [graph_ops_safe], [fill_srdb_entry_safe],
      [fill_srdb_entry_typed], [srdb_new_releases]; [flow_references]: what
      a flow holds over its life, and what it and the clones made for it do
      not give back;
      [ctrl_main_exits]: every exit of the controller; [edns_name_overflows] and
      [answer_overflows]: the two places where a client or a flow makes the
      proxy write behind a buffer.
    - Concurrency.  [sbuf_fifo], [sbuf_no_deadlock]: the buffer under any
      interleaving, as long as no sem_wait fails ([interrupted_pop_reads_unwritten]
      is what happens when one does); [mqueue_close_unblocks]: closing a queue releases every
      waiting thread; [transactions_complete]: no lost wake-up and no lost
      transaction between clients, workers and server, when the number of
      workers is a power of two ([three_workers_lose] is a run where it is not);
      [srdb_destroy_returns]: the workers end;
      [requests_all_processed]: every request row is processed exactly once
      before the controller frees its state, when the size of the buffer is a
      power of two ([ten_slots_lose] is a run with the size of the README);
      [proxy_stops]: the proxy ends after SIGINT, if the database answers the
      request it waits for ([silent_database_hangs]).
    - Round trips.  [srdb_insert_read_roundtrip], [load_rules_print],
      [load_config_settings], [parse_args_options], [route_message_decodes];
      [request_reaches_server]: the server reads from the bytes it is sent the
      request that was made; [request_refused]: which requests are not made;
      [ovsdb_socket_connects], [monitor_start_spec]: the connections;
      [monitor_delivers]: the byte stream of the server becomes its messages
      again.
    - What goes wrong.  [providers_overcounted], [lpm_insert_misplaces],
      [transaction_reply_lost], [monitor_loses_byte],
      [destroy_waits_for_server], [generate_unique_bsid_livelock],
      [segs_buffer_bounds], [walk_reads_freed], [sr_socket_hides_failure],
      [srdns_ignores_last], [rtnl_talk_reads_freed],
      [rtnl_talk_takes_previous], [alist_append_drops],
      [accepted_request_overreads], [server_without_brackets],
      [null_segments_crash], [fifo_failure_hidden], [producer_failure_destroys],
      [fifo_waits_for_ever], [reply_slot_uninitialised],
      [launch_stuck], [port_cast], [delay_misses_parallel_link],
      [lpm_long_plen_breaks], [routed_readme_rejected], and lemmas beside the
      component they are about (capacity of the buffer, overflow of metrics,
      source prefixes, ...).

    ** Bounds and fuel

    Loops that are not structural take fuel: list walks the number of nodes
    of the list, [dijkstra_loop] and [compute_paths_] one more than the
    number of nodes, [optimize_virtual] the size of the tree, [hmap_flush]
    the number of keys, [load_loop] and [config_loop] the length of the file,
    [drain], [rta_foreach], [talk_msgs] and [edns_loop] the number of bytes,
    [talk_loop] the number of results of recvmsg, [flush_loop] the number of
    elements, [launch_loop] one more than the number of files; the parser of Jsontext.v twice the length of the text and two
    more.  Each of these is proved enough where the loop is used, so the
    results are totality statements.  [generate_unique_bsid] runs over the
    random draws given to it.  Hypotheses on metrics ([metrics_ok],
    [topo_bounded]) bound the cost of a path below 2^32, without which the
    32-bit sums wrap; [alist_refines_list] takes fewer than 2^29 operations,
    so that the size of the block does not wrap.  The reference counts of
    Graph.v are of type int32_t and the sizes of Hashmap.v of type size_t; they
    are unbounded here, so that what is shown of them is meant for fewer than
    2^31 references and 2^64 keys.  [reply_capacity], the room of a reply, is
    computed from the members of the struct for a 64-bit machine: 616 bytes.
    Transport.v and Workers.v run on the ring with its capacity, and theorems
    that need a power of two say so; those of Request.v hold for any buffer.

    ** Not modelled

    Of the start-up code the arguments of system calls and logging;
    of the client the sleep time and the log file; the DNS cache and the timing code of
    the proxy (switched off in proxy.h), the sockets behind the results of
    system calls, the dump and listen routines
    of libnetlink (not called); lib/net.c (in no Makefile), sr-testdns (a test
    program), lib/libredblack-1.3 (third party).
    What other parts of the system do is a parameter: whether the library
    takes an update ([accepts] in Flows.v), whether the server answers
    ([db_answers] in Interrupt.v), what a freed request reads as ([seq_read_back] in Rtnl.v).
    Memory allocation is modelled as succeeding except in Llist.v, Queue.v,
    Dns.v, Dnsproxy.v, Rtnl.v, Arraylist.v, Request.v, Segrefs.v, Startup.v and for [srdb_new].  Locks are
    modelled in Sbuf.v and Queue.v; elsewhere an operation under a lock is one
    step. *)

From stdpp Require Export base tactics numbers list gmap strings.
From Stdlib Require Export Lia.
#[global] Set Default Goal Selector "!".

(** ** Machine integers

    A C integer is a [Z]; the width at which the code computes is written
    out with [wrap32] (uint32_t, unsigned int) and [wrap64] (size_t,
    unsigned long, uintptr_t on the 64-bit targets of the project). *)

Declare Scope srn_scope.
Delimit Scope srn_scope with srn.
Open Scope Z_scope.

Definition wrap32 (x : Z) : Z := x mod 2 ^ 32.
Definition wrap64 (x : Z) : Z := x mod 2 ^ 64.
Definition UINT32_MAX : Z := 2 ^ 32 - 1.
Definition b2z (b : bool) : Z := if b then 1 else 0.

Notation "x +32 y" := (wrap32 (x + y)) (at level 50, left associativity) : srn_scope.
Notation "x *32 y" := (wrap32 (x * y)) (at level 40, left associativity) : srn_scope.

Lemma wrap32_range x : 0 <= wrap32 x < 2 ^ 32.
Proof. apply Z.mod_pos_bound; lia. Qed.

Lemma wrap64_range x : 0 <= wrap64 x < 2 ^ 64.
Proof. apply Z.mod_pos_bound; lia. Qed.

Lemma wrap32_small x : 0 <= x < 2 ^ 32 -> wrap32 x = x.
Proof. apply Z.mod_small. Qed.

Lemma wrap64_small x : 0 <= x < 2 ^ 64 -> wrap64 x = x.
Proof. apply Z.mod_small. Qed.

Lemma wrap64_add_l x y : wrap64 (wrap64 x + y) = wrap64 (x + y).
Proof. apply Zplus_mod_idemp_l. Qed.

Lemma wrap64_sub_l x y : wrap64 (wrap64 x - y) = wrap64 (x - y).
Proof. apply Zminus_mod_idemp_l. Qed.

(** Masking with [2^k - 1] is the remainder modulo [2^k]. *)
Lemma land_pow2_mask x k : 0 <= k -> Z.land x (2 ^ k - 1) = x mod 2 ^ k.
Proof. intros Hk. rewrite <- Z.land_ones by done. f_equal. rewrite Z.ones_equiv. lia. Qed.

(** ** Pointers

    A non-null C pointer is a [positive]; [NULL] is [None] where a pointer
    may be null. *)

Abbreviation ptr := positive.

(** ** Tactics *)

(** Case analysis on every [match] and [if] of the goal, keeping equations. *)
Ltac case_match_eq :=
  match goal with
  | |- context [match ?x with _ => _ end] => destruct x eqn:?
  end.

(** Turn boolean comparisons of hypotheses into propositions. *)
Ltac bool_prop :=
  repeat match goal with
  | H : andb _ _ = true |- _ => apply andb_true_iff in H; destruct H
  | H : orb _ _ = false |- _ => apply orb_false_iff in H; destruct H
  | H : negb _ = true |- _ => apply negb_true_iff in H
  | H : negb _ = false |- _ => apply negb_false_iff in H
  | H : Z.eqb _ _ = true |- _ => apply Z.eqb_eq in H
  | H : Z.eqb _ _ = false |- _ => apply Z.eqb_neq in H
  | H : Z.ltb _ _ = true |- _ => apply Z.ltb_lt in H
  | H : Z.ltb _ _ = false |- _ => apply Z.ltb_ge in H
  | H : Z.leb _ _ = true |- _ => apply Z.leb_le in H
  | H : Z.leb _ _ = false |- _ => apply Z.leb_gt in H
  end.

(** ** Lists *)

Lemma NoDup_mid {A} (l1 l2 : list A) x :
  NoDup (l1 ++ x :: l2) <-> (x ∉ l1) /\ (x ∉ l2) /\ NoDup (l1 ++ l2).
Proof.
  rewrite <- Permutation_middle, NoDup_cons, not_elem_of_app. tauto.
Qed.

Lemma Forall2_impl_l {A B} (P Q : A -> B -> Prop) l k :
  Forall2 P l k -> (forall x y, x ∈ l -> P x y -> Q x y) -> Forall2 Q l k.
Proof. induction 1; intros HQ; constructor; [apply HQ|]; set_solver. Qed.

Create HintDb srn.
#[export] Hint Resolve wrap32_range wrap64_range : srn.
Create Rewrite HintDb srn_rw.
#[export] Hint Rewrite wrap64_add_l wrap64_sub_l : srn_rw.
