(* ===== verification/Llist.v ===== *)
(** * Intrusive doubly linked lists (lib/llist.h, lib/llist.c)

    The link structures of the project at the level of the heap: the macros
    of llist.h as sequences of loads and stores through pointers, the
    [llist_node] functions of llist.c above them, and the refinement to
    mathematical lists that the rest of the library builds on. *)

From S2P Require Import Prelude.

(** ** The heap of list heads

    A [struct llist_head] has two fields; the heap of all heads is one map
    per field. [None] is an access through an invalid pointer. *)

Record heads := Heads {
  h_next : gmap ptr ptr;
  h_prev : gmap ptr ptr;
}.

Definition load_next (h : heads) (p : ptr) : option ptr := h_next h !! p.
Definition load_prev (h : heads) (p : ptr) : option ptr := h_prev h !! p.

Definition store_next (h : heads) (p v : ptr) : option heads :=
  match h_next h !! p with
  | Some _ => Some (Heads (<[p := v]> (h_next h)) (h_prev h))
  | None => None
  end.

Definition store_prev (h : heads) (p v : ptr) : option heads :=
  match h_prev h !! p with
  | Some _ => Some (Heads (h_next h) (<[p := v]> (h_prev h)))
  | None => None
  end.

(** llist_init(head) *)
Definition llist_init (h : heads) (head : ptr) : option heads :=
  h ← store_next h head head;
  store_prev h head head.

(** llist_insert_tail(head, elem) *)
Definition llist_insert_tail (h : heads) (head elem : ptr) : option heads :=
  h ← store_next h elem head;
  p ← load_prev h head;
  h ← store_prev h elem p;
  p ← load_prev h head;
  h ← store_next h p elem;
  store_prev h head elem.

(** llist_insert_head(head, elem) *)
Definition llist_insert_head (h : heads) (head elem : ptr) : option heads :=
  n ← load_next h head;
  h ← store_next h elem n;
  h ← store_prev h elem head;
  n ← load_next h head;
  h ← store_prev h n elem;
  store_next h head elem.

(** llist_remove(elem) *)
Definition llist_remove (h : heads) (elem : ptr) : option heads :=
  n ← load_next h elem;
  p ← load_prev h elem;
  h ← store_prev h n p;
  p ← load_prev h elem;
  n ← load_next h elem;
  h ← store_next h p n;
  h ← store_next h elem elem;
  store_prev h elem elem.

(** llist_empty(head) *)
Definition llist_empty (h : heads) (head : ptr) : option bool :=
  n ← load_next h head;
  Some (bool_decide (n = head)).

(** llist_foreach(head, elem, member), as the sequence of the elements it
    visits when its body leaves the links alone. *)
Fixpoint llist_walk (fuel : nat) (h : heads) (head elem : ptr) : option (list ptr) :=
  if bool_decide (elem = head) then Some []
  else match fuel with
       | O => None
       | S fuel =>
           n ← load_next h elem;
           rest ← llist_walk fuel h head n;
           Some (elem :: rest)
       end.

Definition llist_foreach (fuel : nat) (h : heads) (head : ptr) : option (list ptr) :=
  first ← load_next h head;
  llist_walk fuel h head first.

(** ** The shape of a list

    [links h p xs q]: following [next] from [p] visits [xs] and reaches [q],
    and every [prev] goes back. *)

Fixpoint links (h : heads) (p : ptr) (xs : list ptr) (q : ptr) : Prop :=
  match xs with
  | [] => h_next h !! p = Some q /\ h_prev h !! q = Some p
  | x :: xs => h_next h !! p = Some x /\ h_prev h !! x = Some p /\ links h x xs q
  end.

(** A circular list headed by [head] with elements [xs]. *)
Definition dlist (h : heads) (head : ptr) (xs : list ptr) : Prop :=
  NoDup (head :: xs) /\ links h head xs head.

Lemma links_app h p xs y ys q :
  links h p (xs ++ y :: ys) q <-> links h p xs y /\ links h y ys q.
Proof. revert p. induction xs as [|x xs IH]; intros p; simpl; [|rewrite IH]; tauto. Qed.

Lemma links_frame h h' p xs q :
  (forall x, x ∈ p :: xs -> h_next h' !! x = h_next h !! x) ->
  (forall x, x ∈ q :: xs -> h_prev h' !! x = h_prev h !! x) ->
  links h p xs q -> links h' p xs q.
Proof.
  revert p. induction xs as [|x xs IH]; simpl; intros p Hn Hp.
  - intros [? ?]. rewrite Hn, Hp by set_solver. done.
  - intros (? & ? & ?). rewrite Hn, Hp by set_solver. repeat split; try done.
    apply IH; [intros y Hy; apply Hn; set_solver|intros y Hy; apply Hp; set_solver|done].
Qed.

(** Linking [p] to [q] directly, the two stores every list operation ends with. *)
Definition join (h : heads) (p q : ptr) : heads :=
  Heads (<[p := q]> (h_next h)) (<[q := p]> (h_prev h)).

Lemma links_join_frame h p xs q a b :
  a ∉ p :: xs -> b ∉ q :: xs -> links h p xs q -> links (join h a b) p xs q.
Proof.
  intros Ha Hb. apply links_frame; intros x Hx; simpl;
    rewrite lookup_insert_ne; set_solver.
Qed.

Lemma links_join_nil h p q : links (join h p q) p [] q.
Proof. simpl. by rewrite !lookup_insert_eq. Qed.

(** The cell before [q] in a chain, and the chain up to it. *)
Lemma links_last h p xs q :
  links h p xs q ->
  exists l : ptr, h_prev h !! q = Some l /\ h_next h !! l = Some q /\
    (xs = [] /\ l = p \/ exists ys, xs = ys ++ [l] /\ links h p ys l).
Proof.
  destruct xs as [|l ys _] using rev_ind.
  - intros [? ?]. exists p. naive_solver.
  - rewrite links_app. intros [H [? ?]]. exists l. naive_solver.
Qed.

(** The cell after [p] in a chain, and the chain from it. *)
Lemma links_first h p xs q :
  links h p xs q ->
  exists f : ptr, h_next h !! p = Some f /\ h_prev h !! f = Some p /\
    (xs = [] /\ f = q \/ exists ys, xs = f :: ys /\ links h f ys q).
Proof. destruct xs as [|x xs]; simpl; naive_solver. Qed.

(** The chain [p .. q] after its last cell [l] is linked to a new cell. *)
Lemma links_relink_last h p xs q l e :
  h_prev h !! q = Some l -> links h p xs q ->
  NoDup (p :: xs) -> e ∉ xs ->
  links (join h l e) p xs e.
Proof.
  intros Hl Hlk Hnd He. destruct (links_last _ _ _ _ Hlk) as (l' & Hl' & _ & Hc).
  simplify_eq. destruct Hc as [[-> ->]|(ys & -> & Hys)]; [apply links_join_nil|].
  apply links_app. split; [|apply links_join_nil].
  rewrite app_comm_cons, NoDup_mid in Hnd. destruct Hnd as (? & _ & _).
  apply links_join_frame; set_solver.
Qed.

(** The chain [p .. q] after its first cell [f] is linked from a new cell. *)
Lemma links_relink_first h p xs q f e :
  h_next h !! p = Some f -> links h p xs q ->
  NoDup (q :: xs) -> e ∉ xs ->
  links (join h e f) e xs q.
Proof.
  intros Hf Hlk Hnd He. destruct (links_first _ _ _ _ Hlk) as (f' & Hf' & _ & Hc).
  simplify_eq. destruct Hc as [[-> ->]|(ys & -> & Hys)]; [apply links_join_nil|].
  apply (links_app _ _ []). split; [apply links_join_nil|].
  apply (NoDup_mid [q]) in Hnd as (? & ? & _).
  apply links_join_frame; set_solver.
Qed.

(** Dropping the cell [e] of a circular list. *)
Lemma links_bypass h hd xs e ys a b :
  links h hd xs e -> links h e ys hd -> h_prev h !! e = Some a -> h_next h !! e = Some b ->
  NoDup (hd :: xs ++ ys) ->
  links (join h a b) hd (xs ++ ys) hd.
Proof.
  intros H1 H2 Ha Hb Hnd.
  assert (a ∈ hd :: xs) as Hain.
  { destruct (links_last _ _ _ _ H1) as (a' & Ha' & _ & Hc1). simplify_eq.
    destruct Hc1 as [[-> ->]|(? & -> & _)]; set_solver. }
  rewrite app_comm_cons in Hnd.
  destruct ys as [|b' ys]; simpl in H2; destruct_and!; simplify_eq.
  - rewrite app_nil_r in *. apply NoDup_cons in Hnd as Hnd'. eapply links_relink_last; naive_solver.
  - pose proof Hnd as Hnd'. apply NoDup_mid in Hnd' as (Hb1 & Hb2 & _).
    apply NoDup_app in Hnd as (Hx & Hdisj & _).
    apply links_app. split; [eapply links_relink_last; set_solver|].
    apply links_join_frame; [by apply Hdisj|set_solver|done].
Qed.

(** ** The operations on circular lists

    Each macro keeps the shape and does to the list what its name says. *)

Definition allocated (h : heads) (p : ptr) : Prop :=
  is_Some (h_next h !! p) /\ is_Some (h_prev h !! p).

(** The heads other than those of [X] are as before. *)
Definition same_outside (X : list ptr) (h h' : heads) : Prop :=
  forall p, p ∉ X -> h_next h' !! p = h_next h !! p /\ h_prev h' !! p = h_prev h !! p.

Lemma dlist_frame X h h' head xs :
  same_outside X h h' -> (forall p, p ∈ head :: xs -> p ∉ X) ->
  dlist h head xs -> dlist h' head xs.
Proof.
  intros Hs Hd [Hnd Hl]. split; [done|].
  revert Hl. apply links_frame; intros p Hp; apply Hs, Hd, Hp.
Qed.

Lemma dlist_allocated h head xs p : dlist h head xs -> p ∈ head :: xs -> allocated h p.
Proof.
  intros [_ Hl] Hp. unfold allocated.
  assert (forall q, links h q xs head -> (p = q \/ p ∈ xs -> is_Some (h_next h !! p)) /\
            (p = head \/ p ∈ xs -> is_Some (h_prev h !! p))) as H; [|set_solver].
  clear Hl Hp. induction xs as [|x xs IH]; simpl; intros q Hl.
  - destruct Hl as [? ?]. split; intros [->|?]; [eauto|set_solver|eauto|set_solver].
  - destruct Hl as (? & ? & Hl). apply IH in Hl as [IH1 IH2].
    split; intros [->|Hin]; [eauto|apply IH1; set_solver|eauto|].
    apply elem_of_cons in Hin as [->|?]; eauto.
Qed.

Lemma llist_init_dlist h head :
  allocated h head -> exists h', llist_init h head = Some h' /\ dlist h' head [] /\
    same_outside [head] h h'.
Proof.
  intros [[n Hn] [p Hp]]. unfold llist_init, store_next, store_prev. rewrite Hn. simpl.
  rewrite Hp. eexists. split; [done|]. split.
  - split; [apply NoDup_singleton|]. simpl. by rewrite !lookup_insert_eq.
  - intros q Hq. simpl. rewrite !lookup_insert_ne; set_solver.
Qed.

(** Unfolding of the loads and stores of an operation on known cells. *)
Ltac run_heads :=
  unfold llist_insert_tail, llist_insert_head, llist_remove, llist_init, llist_empty,
    store_next, store_prev, load_next, load_prev;
  repeat (simpl; match goal with
    | |- context [<[?p := _]> _ !! ?p] => rewrite lookup_insert_eq
    | |- context [<[?p := _]> _ !! ?q] => rewrite lookup_insert_ne by congruence
    | H : ?m !! ?p = Some _ |- context [?m !! ?p] => rewrite H
    end); simpl.

(** A list operation that ends in two joins touches only their cells. *)
Lemma same_outside_join2 h a b c d X :
  a ∈ X -> b ∈ X -> c ∈ X -> d ∈ X -> same_outside X h (join (join h a b) c d).
Proof. intros ???? p Hp. simpl. rewrite !lookup_insert_ne; set_solver. Qed.

Lemma NoDup_snoc_1 {A} (x : A) l e : NoDup (x :: l) -> e ∉ x :: l -> NoDup (x :: l ++ [e]).
Proof.
  intros Hnd He. rewrite app_comm_cons, NoDup_mid, app_nil_r. split_and!; [done|set_solver|done].
Qed.

Lemma llist_insert_tail_dlist h head elem xs :
  dlist h head xs -> allocated h elem -> elem ∉ head :: xs ->
  exists h', llist_insert_tail h head elem = Some h' /\ dlist h' head (xs ++ [elem]) /\
    same_outside (elem :: head :: xs) h h'.
Proof.
  intros [Hnd Hl] [[en Hen] [ep Hep]] Hin.
  destruct (links_last _ _ _ _ Hl) as (l & Hl1 & Hl2 & Hc).
  assert (l ∈ head :: xs) as Hlin by (destruct Hc as [[-> ->]|(? & -> & _)]; set_solver).
  assert (elem <> head /\ elem <> l) as [Hne Hnl] by set_solver.
  exists (join (join h l elem) elem head). split_and!.
  - run_heads. unfold join. simpl. by rewrite (insert_insert_ne _ l elem).
  - split; [by apply NoDup_snoc_1|]. apply links_app. split; [|apply links_join_nil].
    apply NoDup_cons in Hnd as Hnd'. apply links_join_frame; [done|set_solver|].
    eapply links_relink_last; set_solver.
  - apply same_outside_join2; set_solver.
Qed.

Lemma llist_insert_head_dlist h head elem xs :
  dlist h head xs -> allocated h elem -> elem ∉ head :: xs ->
  exists h', llist_insert_head h head elem = Some h' /\ dlist h' head (elem :: xs) /\
    same_outside (elem :: head :: xs) h h'.
Proof.
  intros [Hnd Hl] [[en Hen] [ep Hep]] Hin.
  destruct (links_first _ _ _ _ Hl) as (f & Hf1 & Hf2 & Hc).
  assert (f ∈ head :: xs) as Hfin by (destruct Hc as [[-> ->]|(? & -> & _)]; set_solver).
  assert (elem <> head /\ elem <> f) as [Hne Hnf] by set_solver.
  exists (join (join h elem f) head elem). split_and!.
  - run_heads. unfold join. simpl. by rewrite (insert_insert_ne _ f elem).
  - split. { apply NoDup_cons in Hnd as [??]. apply NoDup_cons_2; [set_solver|]. apply NoDup_cons; set_solver. }
    apply (links_app _ _ []). split; [apply links_join_nil|].
    apply NoDup_cons in Hnd as Hnd'. apply links_join_frame; [set_solver..|].
    eapply links_relink_first; set_solver.
  - apply same_outside_join2; set_solver.
Qed.

Lemma llist_remove_dlist h head xs elem ys :
  dlist h head (xs ++ elem :: ys) ->
  exists h', llist_remove h elem = Some h' /\ dlist h' head (xs ++ ys) /\ dlist h' elem [] /\
    same_outside (head :: xs ++ elem :: ys) h h'.
Proof.
  intros [Hnd Hl]. apply links_app in Hl as [Hx Hy].
  destruct (links_last _ _ _ _ Hx) as (a & Ha1 & Ha2 & Hca).
  destruct (links_first _ _ _ _ Hy) as (b & Hb1 & Hb2 & Hcb).
  assert (a ∈ head :: xs) as Ha by (destruct Hca as [[-> ->]|(? & -> & _)]; set_solver).
  assert (b ∈ head :: ys) as Hb by (destruct Hcb as [[-> ->]|(? & -> & _)]; set_solver).
  rewrite app_comm_cons in Hnd. apply NoDup_mid in Hnd as (He1 & He2 & Hnd).
  assert (elem <> a /\ elem <> b) as [Hea Heb] by set_solver.
  exists (join (join h a b) elem elem). split_and!.
  - run_heads. done.
  - split; [done|]. apply links_join_frame; [set_solver..|]. eapply links_bypass; eauto.
  - split; [apply NoDup_singleton|apply links_join_nil].
  - apply same_outside_join2; set_solver.
Qed.

Lemma llist_empty_dlist h head xs :
  dlist h head xs -> llist_empty h head = Some (bool_decide (xs = [])).
Proof.
  intros [Hnd Hl]. destruct (links_first _ _ _ _ Hl) as (f & Hf & _ & Hc). run_heads.
  f_equal. apply bool_decide_ext. apply NoDup_cons in Hnd as [Hnd _].
  destruct Hc as [[-> ->]|(ys & -> & _)]; [done|]. set_solver.
Qed.

(** llist_foreach visits the elements in order, and terminates. *)
Lemma llist_foreach_dlist h head xs fuel :
  dlist h head xs -> (length xs <= fuel)%nat -> llist_foreach fuel h head = Some xs.
Proof.
  intros [Hnd Hl] Hf. apply NoDup_cons in Hnd as [Hnd _].
  assert (forall p n, links h p xs head -> load_next h p = Some n ->
            llist_walk fuel h head n = Some xs) as Hw.
  { clear Hl. revert fuel Hf. induction xs as [|x xs IH]; simpl; intros fuel Hf p n Hl Hn.
    - destruct Hl as [Hl _]. unfold load_next in Hn. simplify_eq.
      destruct fuel; simpl; by rewrite bool_decide_eq_true_2.
    - destruct Hl as (Hl & _ & Hl'). unfold load_next in Hn. simplify_eq.
      destruct fuel as [|fuel]; [simpl in Hf; lia|]. simpl.
      rewrite bool_decide_eq_false_2 by set_solver.
      destruct (links_first _ _ _ _ Hl') as (f & Hf' & _ & _).
      unfold load_next at 1. rewrite Hf'. simpl.
      by rewrite (IH ltac:(set_solver) fuel ltac:(lia) x f Hl' Hf'). }
  destruct (links_first _ _ _ _ Hl) as (f & Hf' & _ & _).
  unfold llist_foreach, load_next. rewrite Hf'. simpl. by eapply Hw.
Qed.

(** ** List nodes (lib/llist.c)

    A [struct llist_node] is a data word and a head. The node and the head
    inside it are named by the same pointer ([llist_entry] is the inverse of
    taking the address of the head). The [data] word of a list's own head is
    its size, as in the code. [oom] decides when [malloc] fails. *)

Record lheap := LHeap {
  l_heads : heads;
  l_data : gmap ptr Z;
}.

Definition load_data (L : lheap) (p : ptr) : option Z := l_data L !! p.

Definition fresh_ptr (L : lheap) : ptr :=
  fresh (dom (l_data L) ∪ dom (h_next (l_heads L)) ∪ dom (h_prev (l_heads L)) : gset ptr).

(** The cell [malloc] returns, its links not yet initialised. *)
Definition alloc_heads (h : heads) (p : ptr) : heads :=
  Heads (<[p := p]> (h_next h)) (<[p := p]> (h_prev h)).

Definition free_node (L : lheap) (p : ptr) : option lheap :=
  match l_data L !! p with
  | Some _ =>
      Some (LHeap (Heads (delete p (h_next (l_heads L))) (delete p (h_prev (l_heads L))))
              (delete p (l_data L)))
  | None => None
  end.

Section nodes.
Context (oom : lheap -> bool).

(** A result [Some (None, L)] is a NULL returned to the caller; [None] is an
    invalid access. *)

Definition llist_new_node (L : lheap) (data : Z) : option (option ptr * lheap) :=
  if oom L then Some (None, L)
  else
    let node := fresh_ptr L in
    h ← llist_init (alloc_heads (l_heads L) node) node;
    Some (Some node, LHeap h (<[node := data]> (l_data L))).

Definition llist_node_alloc (L : lheap) : option (option ptr * lheap) := llist_new_node L 0.

Definition llist_node_size (L : lheap) (nhead : ptr) : option Z := load_data L nhead.

Definition inc_size (L : lheap) (nhead : ptr) : option lheap :=
  n ← llist_node_size L nhead;
  Some (LHeap (l_heads L) (<[nhead := wrap64 (n + 1)]> (l_data L))).

Definition dec_size (L : lheap) (nhead : ptr) : option lheap :=
  n ← llist_node_size L nhead;
  Some (LHeap (l_heads L) (<[nhead := wrap64 (n - 1)]> (l_data L))).

Definition llist_node_insert_tail (L : lheap) (nhead : ptr) (data : Z)
    : option (option ptr * lheap) :=
  '(node, L) ← llist_new_node L data;
  match node with
  | None => Some (None, L)
  | Some node =>
      h ← llist_insert_tail (l_heads L) nhead node;
      L ← inc_size (LHeap h (l_data L)) nhead;
      Some (Some node, L)
  end.

Definition llist_node_insert_head (L : lheap) (nhead : ptr) (data : Z)
    : option (option ptr * lheap) :=
  '(node, L) ← llist_new_node L data;
  match node with
  | None => Some (None, L)
  | Some node =>
      h ← llist_insert_head (l_heads L) nhead node;
      L ← inc_size (LHeap h (l_data L)) nhead;
      Some (Some node, L)
  end.

Definition llist_node_remove (L : lheap) (nhead node : ptr) : option lheap :=
  h ← llist_remove (l_heads L) node;
  L ← free_node (LHeap h (l_data L)) node;
  dec_size L nhead.

Fixpoint get_iter_walk (fuel : nat) (L : lheap) (nhead iter : ptr) (data : Z)
    : option (option ptr) :=
  if bool_decide (iter = nhead) then Some None
  else match fuel with
       | O => None
       | S fuel =>
           d ← load_data L iter;
           if bool_decide (d = data) then Some (Some iter)
           else
             n ← load_next (l_heads L) iter;
             get_iter_walk fuel L nhead n data
       end.

Definition llist_node_get_iter (fuel : nat) (L : lheap) (nhead : ptr) (data : Z)
    : option (option ptr) :=
  first ← load_next (l_heads L) nhead;
  get_iter_walk fuel L nhead first data.

Definition llist_node_exist (fuel : nat) (L : lheap) (nhead : ptr) (data : Z) : option bool :=
  r ← llist_node_get_iter fuel L nhead data;
  Some (bool_decide (is_Some r)).

Definition llist_node_empty (L : lheap) (nhead : ptr) : option bool :=
  llist_empty (l_heads L) nhead.

Fixpoint llist_node_flush (fuel : nat) (L : lheap) (nhead : ptr) : option lheap :=
  e ← llist_node_empty L nhead;
  if (e : bool) then Some L
  else match fuel with
       | O => None
       | S fuel =>
           iter ← load_next (l_heads L) nhead;
           L ← llist_node_remove L nhead iter;
           llist_node_flush fuel L nhead
       end.

Definition llist_node_destroy (fuel : nat) (L : lheap) (nhead : ptr) : option lheap :=
  L ← llist_node_flush fuel L nhead;
  free_node L nhead.

(** llist_node_foreach(src, iter) ins(dst, iter->data): the loop of
    [__llist_node_copy] and of [llist_node_append]. A failed insertion is
    ignored, as in the code. *)
Fixpoint insert_walk (ins : lheap -> ptr -> Z -> option (option ptr * lheap)) (fuel : nat)
    (L : lheap) (dst src iter : ptr) : option lheap :=
  if bool_decide (iter = src) then Some L
  else match fuel with
       | O => None
       | S fuel =>
           d ← load_data L iter;
           '(_, L) ← ins L dst d;
           n ← load_next (l_heads L) iter;
           insert_walk ins fuel L dst src n
       end.

Definition llist_node_copy_aux (fuel : nat) (L : lheap) (nhead : ptr) (rev : bool)
    : option (option ptr * lheap) :=
  '(new_nhead, L) ← llist_node_alloc L;
  match new_nhead with
  | None => Some (None, L)
  | Some new_nhead =>
      first ← load_next (l_heads L) nhead;
      L ← insert_walk (if rev then llist_node_insert_head else llist_node_insert_tail)
            fuel L new_nhead nhead first;
      Some (Some new_nhead, L)
  end.

Definition llist_node_copy (fuel : nat) (L : lheap) (nhead : ptr) :=
  llist_node_copy_aux fuel L nhead false.

Definition llist_node_copy_reverse (fuel : nat) (L : lheap) (nhead : ptr) :=
  llist_node_copy_aux fuel L nhead true.

Definition llist_node_append (fuel : nat) (L : lheap) (dst src : ptr) : option (ptr * lheap) :=
  first ← load_next (l_heads L) src;
  L ← insert_walk llist_node_insert_tail fuel L dst src first;
  Some (dst, L).

(** llist_node_foreach_safe(nhead, iter, tmp) with a body that removes the
    elements whose data satisfies [prune], the loop of [graph_prune]. The
    count of removed elements is returned too. *)
Fixpoint foreach_safe_walk (prune : Z -> bool) (fuel : nat) (L : lheap) (nhead iter tmp : ptr)
    (rm : Z) : option (Z * lheap) :=
  if bool_decide (iter = nhead) then Some (rm, L)
  else match fuel with
       | O => None
       | S fuel =>
           d ← load_data L iter;
           '(rm, L) ← (if prune d
                       then L ← llist_node_remove L nhead iter; Some (wrap32 (rm + 1), L)
                       else Some (rm, L));
           n ← load_next (l_heads L) tmp;
           foreach_safe_walk prune fuel L nhead tmp n rm
       end.

Definition llist_node_foreach_safe_prune (prune : Z -> bool) (fuel : nat) (L : lheap)
    (nhead : ptr) : option (Z * lheap) :=
  iter ← load_next (l_heads L) nhead;
  tmp ← load_next (l_heads L) iter;
  foreach_safe_walk prune fuel L nhead iter tmp 0.

End nodes.

(** ** Representation of a list of data words *)

(** The list headed by [nhead] has the cells [ps] holding [ds], and its size
    field is the length modulo the word size. *)
Definition llist (L : lheap) (nhead : ptr) (ps : list ptr) (ds : list Z) : Prop :=
  dlist (l_heads L) nhead ps /\
  Forall2 (fun p d => l_data L !! p = Some d) ps ds /\
  l_data L !! nhead = Some (wrap64 (Z.of_nat (length ds))).

Definition lsame_outside (X : list ptr) (L L' : lheap) : Prop :=
  same_outside X (l_heads L) (l_heads L') /\
  (forall p, p ∉ X -> l_data L' !! p = l_data L !! p).

(** [p] is no cell of the heap. *)
Definition unallocated (L : lheap) (p : ptr) : Prop :=
  l_data L !! p = None /\ h_next (l_heads L) !! p = None /\ h_prev (l_heads L) !! p = None.

Lemma fresh_ptr_unallocated L : unallocated L (fresh_ptr L).
Proof.
  pose proof (is_fresh (dom (l_data L) ∪ dom (h_next (l_heads L)) ∪ dom (h_prev (l_heads L)) : gset ptr)) as H.
  fold (fresh_ptr L) in H. unfold unallocated. rewrite <- !not_elem_of_dom. set_solver.
Qed.

Lemma same_outside_trans X h1 h2 h3 :
  same_outside X h1 h2 -> same_outside X h2 h3 -> same_outside X h1 h3.
Proof. intros H1 H2 p Hp. destruct (H1 p Hp), (H2 p Hp). split; congruence. Qed.

Lemma lsame_outside_trans X L1 L2 L3 :
  lsame_outside X L1 L2 -> lsame_outside X L2 L3 -> lsame_outside X L1 L3.
Proof.
  intros [H1 D1] [H2 D2]. split; [by eapply same_outside_trans|].
  intros p Hp. by rewrite D2, D1.
Qed.

Lemma lsame_outside_weaken X Y L L' :
  (forall p, p ∈ X -> p ∈ Y) -> lsame_outside X L L' -> lsame_outside Y L L'.
Proof. intros Hs [H D]. split; [intros p Hp; apply H; auto|intros p Hp; apply D; auto]. Qed.

Lemma llist_frame X L L' nh ps ds :
  lsame_outside X L L' -> (forall p, p ∈ nh :: ps -> p ∉ X) ->
  llist L nh ps ds -> llist L' nh ps ds.
Proof.
  intros [Hs Hd] Hdisj (Hl & Hf & Hz). split_and!.
  - by eapply dlist_frame.
  - eapply Forall2_impl_l; [done|]. simpl. intros p d Hp ?. rewrite Hd; set_solver.
  - rewrite Hd; set_solver.
Qed.

Lemma llist_allocated L nh ps ds p :
  llist L nh ps ds -> p ∈ nh :: ps -> allocated (l_heads L) p.
Proof. intros [Hl _]. by eapply dlist_allocated. Qed.

Lemma llist_unallocated L nh ps ds q :
  llist L nh ps ds -> unallocated L q -> q ∉ nh :: ps.
Proof.
  intros Hl (_ & Hq & _) Hin. destruct (llist_allocated _ _ _ _ _ Hl Hin) as [[? ?] _]. congruence.
Qed.

Section node_specs.
Context (oom : lheap -> bool).

Lemma llist_new_node_spec L d :
  oom L = false ->
  exists node L', llist_new_node oom L d = Some (Some node, L') /\ unallocated L node /\
    dlist (l_heads L') node [] /\ l_data L' !! node = Some d /\ lsame_outside [node] L L'.
Proof.
  intros Hoom. unfold llist_new_node. rewrite Hoom.
  destruct (llist_init_dlist (alloc_heads (l_heads L) (fresh_ptr L)) (fresh_ptr L))
    as (h & -> & Hd & Hs).
  { split; simpl; rewrite lookup_insert_eq; eauto. }
  simpl. do 2 eexists. split_and!; [done|apply fresh_ptr_unallocated|done|by simpl; rewrite lookup_insert_eq|].
  split; simpl; intros p Hp.
  - destruct (Hs p Hp) as [-> ->]. simpl. rewrite !lookup_insert_ne; set_solver.
  - rewrite lookup_insert_ne; set_solver.
Qed.

(** Changing the size field of the list. *)
Lemma inc_size_spec L nh n :
  l_data L !! nh = Some (wrap64 n) ->
  inc_size L nh = Some (LHeap (l_heads L) (<[nh := wrap64 (n + 1)]> (l_data L))).
Proof. intros H. unfold inc_size, llist_node_size, load_data. rewrite H. simpl. by rewrite wrap64_add_l. Qed.

Lemma dec_size_spec L nh n :
  l_data L !! nh = Some (wrap64 n) ->
  dec_size L nh = Some (LHeap (l_heads L) (<[nh := wrap64 (n - 1)]> (l_data L))).
Proof. intros H. unfold dec_size, llist_node_size, load_data. rewrite H. simpl. by rewrite wrap64_sub_l. Qed.

(** An insertion at either end, from the corresponding fact on heads. *)
Lemma insert_spec (op : heads -> ptr -> ptr -> option heads) (f : list ptr -> ptr -> list ptr)
    (g : list Z -> Z -> list Z) L nh ps ds d :
  (forall h e xs, dlist h nh xs -> allocated h e -> e ∉ nh :: xs ->
     exists h', op h nh e = Some h' /\ dlist h' nh (f xs e) /\ same_outside (e :: nh :: xs) h h') ->
  (forall (R : ptr -> Z -> Prop) e, Forall2 R ps ds -> R e d -> Forall2 R (f ps e) (g ds d)) ->
  length (g ds d) = S (length ds) ->
  oom L = false -> llist L nh ps ds ->
  exists node L',
    ('(node, L) ← llist_new_node oom L d;
     match node with
     | None => Some (None, L)
     | Some node => h ← op (l_heads L) nh node; L ← inc_size (LHeap h (l_data L)) nh; Some (Some node, L)
     end) = Some (Some node, L') /\
    unallocated L node /\ llist L' nh (f ps node) (g ds d) /\ lsame_outside (node :: nh :: ps) L L'.
Proof.
  intros Hop Hg Hlen Hoom Hl.
  destruct (llist_new_node_spec L d Hoom) as (node & L1 & -> & Hun & Hdn & Hd1 & Hs1). simpl.
  pose proof (llist_unallocated _ _ _ _ _ Hl Hun) as Hnin.
  assert (llist L1 nh ps ds) as (Hdl & Hfa & Hz) by (eapply llist_frame; [done|set_solver|done]).
  destruct (Hop (l_heads L1) node ps Hdl) as (h & Hh & Hdl' & Hsh);
    [apply (dlist_allocated _ node []); [done|set_solver]|done|].
  rewrite Hh. simpl. erewrite inc_size_spec by done. simpl.
  exists node. eexists. split_and!; [done|done| |].
  - destruct Hdl as [Hnd _]. apply NoDup_cons in Hnd as [Hnh _]. split_and!; [done| |].
    + apply Hg; simpl; [|rewrite lookup_insert_ne; set_solver].
      eapply Forall2_impl_l; [done|]. simpl. intros p x Hp ?. rewrite lookup_insert_ne; [done|set_solver].
    + simpl. rewrite lookup_insert_eq, Hlen. do 2 f_equal. lia.
  - apply lsame_outside_trans with L1; [by eapply lsame_outside_weaken; [|done]; set_solver|].
    split; [done|]. simpl. intros p Hp. rewrite lookup_insert_ne; set_solver.
Qed.

Lemma llist_node_insert_tail_llist L nh ps ds d :
  oom L = false -> llist L nh ps ds ->
  exists node L', llist_node_insert_tail oom L nh d = Some (Some node, L') /\ unallocated L node /\
    llist L' nh (ps ++ [node]) (ds ++ [d]) /\ lsame_outside (node :: nh :: ps) L L'.
Proof.
  intros Ho Hl. eapply (insert_spec llist_insert_tail (fun xs e => xs ++ [e]) (fun xs e => xs ++ [e]));
    [intros; by apply llist_insert_tail_dlist| |rewrite length_app; simpl; lia|done..].
  intros R e HF HR. apply Forall2_app; [done|by repeat constructor].
Qed.

Lemma llist_node_insert_head_llist L nh ps ds d :
  oom L = false -> llist L nh ps ds ->
  exists node L', llist_node_insert_head oom L nh d = Some (Some node, L') /\ unallocated L node /\
    llist L' nh (node :: ps) (d :: ds) /\ lsame_outside (node :: nh :: ps) L L'.
Proof.
  intros Ho Hl. eapply (insert_spec llist_insert_head (fun xs e => e :: xs) (fun xs e => e :: xs));
    [intros; by apply llist_insert_head_dlist|by constructor|done..].
Qed.

End node_specs.

Lemma llist_node_remove_llist L nh ps node ps' ds d ds' :
  llist L nh (ps ++ node :: ps') (ds ++ d :: ds') -> length ps = length ds ->
  exists L', llist_node_remove L nh node = Some L' /\ unallocated L' node /\
    llist L' nh (ps ++ ps') (ds ++ ds') /\ lsame_outside (nh :: ps ++ node :: ps') L L'.
Proof.
  intros (Hd & Hf & Hz) Hlen. apply Forall2_app_inv in Hf as [Hf1 Hf2]; [|done].
  inversion_clear Hf2 as [|???? Hnode Hf2'].
  destruct (llist_remove_dlist _ _ _ _ _ Hd) as (h & Hh & Hd1 & _ & Hs).
  unfold llist_node_remove. rewrite Hh. unfold free_node. simpl. rewrite Hnode. simpl.
  destruct Hd as [Hnd _]. rewrite app_comm_cons in Hnd. apply NoDup_mid in Hnd as (Hn1 & Hn2 & Hnd).
  apply NoDup_cons in Hnd as [Hnh _].
  erewrite dec_size_spec by (simpl; rewrite lookup_delete_ne; [done|set_solver]).
  eexists. split_and!; [done| | |].
  - split_and!; simpl; rewrite ?lookup_insert_ne, ?lookup_delete_eq by set_solver; done.
  - split_and!.
    + eapply (dlist_frame [node]); [|set_solver|exact Hd1]. intros p Hp. simpl.
      rewrite !lookup_delete_ne; set_solver.
    + eapply Forall2_impl_l; [by apply Forall2_app|]. simpl. intros p x Hp ?.
      rewrite lookup_insert_ne, lookup_delete_ne; set_solver.
    + simpl. rewrite lookup_insert_eq. do 2 f_equal. rewrite !length_app. simpl. lia.
  - split; simpl.
    + intros p Hp. simpl. rewrite !lookup_delete_ne by set_solver. by apply Hs.
    + intros p Hp. rewrite lookup_insert_ne, lookup_delete_ne; set_solver.
Qed.

Lemma llist_node_empty_llist L nh ps ds :
  llist L nh ps ds -> llist_node_empty L nh = Some (bool_decide (ds = [])).
Proof.
  intros (Hd & Hf & _). unfold llist_node_empty. rewrite (llist_empty_dlist _ _ _ Hd).
  f_equal. apply bool_decide_ext. destruct Hf; naive_solver.
Qed.

(** The cell a traversal is at when the elements [suf] remain. *)
Definition at_suffix (nh : ptr) (suf : list ptr) : ptr :=
  match suf with [] => nh | x :: _ => x end.

Lemma dlist_next h nh pre x suf :
  dlist h nh (pre ++ x :: suf) -> h_next h !! x = Some (at_suffix nh suf).
Proof. intros [_ Hl]. apply links_app in Hl as [_ Hl]. destruct suf; simpl in *; naive_solver. Qed.

Lemma dlist_first h nh ps : dlist h nh ps -> h_next h !! nh = Some (at_suffix nh ps).
Proof. intros [_ Hl]. destruct ps; simpl in *; naive_solver. Qed.

Lemma dlist_not_head h nh pre x suf : dlist h nh (pre ++ x :: suf) -> x <> nh.
Proof. intros [Hnd _]. apply NoDup_cons in Hnd as [Hnd _]. set_solver. Qed.

Lemma llist_data L nh pre x suf ds :
  llist L nh (pre ++ x :: suf) ds -> exists dpre d dsuf, ds = dpre ++ d :: dsuf /\
    length pre = length dpre /\ l_data L !! x = Some d.
Proof.
  intros (_ & Hf & _). apply Forall2_app_inv_l in Hf as (dpre & ds' & Hpre & Hf & ->).
  inversion Hf as [|? y ? l Hy ?]; subst. exists dpre, y, l.
  split_and!; [done|by eapply Forall2_length|done].
Qed.

Lemma get_iter_walk_llist L nh d : forall suf fuel pre dpre dsuf,
  llist L nh (pre ++ suf) (dpre ++ dsuf) -> length pre = length dpre -> d ∉ dpre ->
  (length suf <= fuel)%nat ->
  exists r, get_iter_walk fuel L nh (at_suffix nh suf) d = Some r /\
    match r with
    | Some p => exists ps1 ps2 ds1 ds2, pre ++ suf = ps1 ++ p :: ps2 /\
        dpre ++ dsuf = ds1 ++ d :: ds2 /\ length ps1 = length ds1 /\ d ∉ ds1
    | None => d ∉ dpre ++ dsuf
    end.
Proof.
  induction suf as [|x suf IH]; intros fuel pre dpre dsuf Hl Hlen Hnin Hfuel.
  - exists None. destruct Hl as (_ & Hf & _). apply Forall2_length in Hf.
    rewrite !length_app in Hf. simpl in Hf. destruct dsuf; [|simpl in Hf; lia].
    rewrite app_nil_r. split; [|done]. destruct fuel; simpl; by rewrite bool_decide_eq_true_2.
  - destruct fuel as [|fuel]; [simpl in Hfuel; lia|]. pose proof Hl as (Hd & Hf & _). simpl.
    rewrite bool_decide_eq_false_2 by (by eapply dlist_not_head).
    apply Forall2_app_inv in Hf as [_ Hf]; [|done].
    inversion Hf as [|?? ? ? Hx Hf']; subst. unfold load_data. rewrite Hx. simpl.
    case_bool_decide as Heq; simplify_eq.
    + exists (Some x). split; [done|]. naive_solver.
    + unfold load_next. rewrite (dlist_next _ _ _ _ _ Hd). simpl.
      match goal with |- context [_ ++ ?y :: ?l] =>
        edestruct (IH fuel (pre ++ [x]) (dpre ++ [y]) l) as (r & -> & Hr) end.
      * by rewrite <- !app_assoc.
      * rewrite !length_app; simpl; lia.
      * set_solver.
      * simpl in Hfuel; lia.
      * exists r. split; [done|]. rewrite <- !app_assoc in Hr. exact Hr.
Qed.

Lemma llist_node_get_iter_llist L nh ps ds d fuel :
  llist L nh ps ds -> (length ps <= fuel)%nat ->
  exists r, llist_node_get_iter fuel L nh d = Some r /\
    match r with
    | Some p => exists ps1 ps2 ds1 ds2, ps = ps1 ++ p :: ps2 /\ ds = ds1 ++ d :: ds2 /\
        length ps1 = length ds1 /\ d ∉ ds1
    | None => d ∉ ds
    end.
Proof.
  intros Hl Hf. unfold llist_node_get_iter, load_next. rewrite (dlist_first _ _ _ (proj1 Hl)). simpl.
  eapply (get_iter_walk_llist L nh d ps fuel [] [] ds); [done..|set_solver|done].
Qed.

Lemma llist_node_flush_llist nh : forall ps fuel L ds,
  llist L nh ps ds -> (length ps <= fuel)%nat ->
  exists L', llist_node_flush fuel L nh = Some L' /\ llist L' nh [] [] /\
    (forall p, p ∈ ps -> unallocated L' p) /\ lsame_outside (nh :: ps) L L'.
Proof.
  induction ps as [|p ps IH]; intros fuel L ds Hl Hf.
  - exists L. pose proof Hl as (Hd & HF & Hz). inversion HF; subst. split_and!; [|done|set_solver|].
    + destruct fuel; simpl; by rewrite (llist_node_empty_llist _ _ _ _ Hl).
    + by split.
  - destruct fuel as [|fuel]; [simpl in Hf; lia|]. simpl.
    destruct (llist_data L nh [] p ps ds Hl) as (dpre & d & dsuf & -> & Hlen & _).
    destruct dpre; [|done]. simpl in *.
    rewrite (llist_node_empty_llist _ _ _ _ Hl). simpl.
    unfold load_next. rewrite (dlist_first _ _ _ (proj1 Hl)). simpl.
    destruct (llist_node_remove_llist L nh [] p ps [] d dsuf Hl eq_refl)
      as (L1 & -> & Hun & Hl1 & Hs1). simpl in *.
    destruct (IH fuel L1 dsuf Hl1 ltac:(lia)) as (L2 & -> & Hl2 & Hun2 & Hs2).
    destruct Hl as [[Hnd _] _]. apply NoDup_cons in Hnd as [Hnh Hnd]. apply NoDup_cons in Hnd as [Hp _].
    exists L2. split_and!; [done..| |].
    + intros q [->|Hq]%elem_of_cons; [|by apply Hun2].
      destruct Hs2 as [Hs2 Hd2], Hun as (? & ? & ?). unfold unallocated.
      destruct (Hs2 p) as [-> ->]; [set_solver|]. rewrite Hd2; set_solver.
    + eapply lsame_outside_trans; [exact Hs1|]. eapply lsame_outside_weaken; [|exact Hs2]. set_solver.
Qed.

(** What [insert_walk] needs of an insertion: it succeeds on the list it is
    given, at a new cell, and leaves the other lists alone. *)
Definition inserts (ins : lheap -> ptr -> Z -> option (option ptr * lheap))
    (f : list ptr -> ptr -> list ptr) (g : list Z -> Z -> list Z) : Prop :=
  (forall qs n x, x ∈ f qs n -> x ∈ n :: qs) /\
  forall L nh qs es d, llist L nh qs es ->
    exists node L', ins L nh d = Some (Some node, L') /\ unallocated L node /\
      llist L' nh (f qs node) (g es d) /\ lsame_outside (node :: nh :: qs) L L'.

Lemma insert_walk_llist ins f g src dst : inserts ins f g ->
  forall suf fuel pre dpre dsuf L qs es,
  llist L src (pre ++ suf) (dpre ++ dsuf) -> length pre = length dpre ->
  llist L dst qs es -> (forall p, p ∈ src :: pre ++ suf -> p ∉ dst :: qs) ->
  (length suf <= fuel)%nat ->
  exists L' qs', insert_walk ins fuel L dst src (at_suffix src suf) = Some L' /\
    llist L' dst qs' (foldl g es dsuf) /\ llist L' src (pre ++ suf) (dpre ++ dsuf).
Proof.
  intros [Hsub Hins]. induction suf as [|x suf IH]; intros fuel pre dpre dsuf L qs es Hs Hlen Hd Hdisj Hf.
  - exists L, qs. pose proof Hs as (_ & HF & _). apply Forall2_length in HF. rewrite !length_app in HF.
    simpl in HF. destruct dsuf; [|simpl in HF; lia]. split_and!; [|done..].
    destruct fuel; simpl; by rewrite bool_decide_eq_true_2.
  - destruct fuel as [|fuel]; [simpl in Hf; lia|]. pose proof Hs as (Hdl & HF & _). simpl.
    rewrite bool_decide_eq_false_2 by (by eapply dlist_not_head).
    apply Forall2_app_inv in HF as [_ HF]; [|done].
    inversion HF as [|? dx ? dsuf' Hx HF']; subst. unfold load_data. rewrite Hx. simpl.
    destruct (Hins L dst qs es dx Hd) as (node & L1 & -> & Hun & Hd1 & Hs1). simpl.
    pose proof (llist_unallocated _ _ _ _ _ Hs Hun) as Hnode.
    assert (forall p, p ∈ src :: pre ++ x :: suf -> p ∉ node :: dst :: qs) as Hdisj1.
    { intros p Hp. specialize (Hdisj p Hp). set_solver. }
    assert (llist L1 src (pre ++ x :: suf) (dpre ++ dx :: dsuf')) as Hs1' by (by eapply llist_frame).
    unfold load_next. rewrite (dlist_next _ _ _ _ _ (proj1 Hs1')). simpl.
    edestruct (IH fuel (pre ++ [x]) (dpre ++ [dx]) dsuf' L1 (f qs node) (g es dx)) as (L2 & qs2 & -> & Hq2 & Hs2).
    + by rewrite <- !app_assoc.
    + rewrite !length_app; simpl; lia.
    + done.
    + rewrite <- app_assoc. simpl. intros p Hp [->|Hin]%elem_of_cons.
      * eapply (Hdisj1 dst); set_solver.
      * apply Hsub in Hin. apply (Hdisj1 p Hp). set_solver.
    + simpl in Hf; lia.
    + exists L2, qs2. rewrite <- !app_assoc in Hs2. done.
Qed.

Section copy_specs.
Context (oom : lheap -> bool) (mem : forall L, oom L = false).

Lemma insert_tail_inserts : inserts (llist_node_insert_tail oom) (fun qs n => qs ++ [n]) (fun es d => es ++ [d]).
Proof. split; [set_solver|]. intros. by apply llist_node_insert_tail_llist. Qed.

Lemma insert_head_inserts : inserts (llist_node_insert_head oom) (fun qs n => n :: qs) (fun es d => d :: es).
Proof. split; [done|]. intros. by apply llist_node_insert_head_llist. Qed.

Lemma foldl_snoc (ds es : list Z) : foldl (fun es d => es ++ [d]) es ds = es ++ ds.
Proof. revert es. induction ds as [|d ds IH]; intros es; simpl; [by rewrite app_nil_r|]. by rewrite IH, <- app_assoc. Qed.

Lemma foldl_cons (ds es : list Z) : foldl (fun es d => d :: es) es ds = reverse ds ++ es.
Proof. revert es. induction ds as [|d ds IH]; intros es; simpl; [done|]. by rewrite IH, reverse_cons, <- app_assoc. Qed.

Lemma llist_node_copy_aux_llist L nh ps ds fuel rev :
  llist L nh ps ds -> (length ps <= fuel)%nat ->
  exists new L' qs, llist_node_copy_aux oom fuel L nh rev = Some (Some new, L') /\
    llist L' new qs (if rev then reverse ds else ds) /\ llist L' nh ps ds.
Proof.
  intros Hl Hf. unfold llist_node_copy_aux, llist_node_alloc.
  destruct (llist_new_node_spec oom L 0 (mem L)) as (new & L1 & -> & Hun & Hdn & Hd1 & Hs1). simpl.
  pose proof (llist_unallocated _ _ _ _ _ Hl Hun) as Hnin.
  assert (llist L1 nh ps ds) as Hl1 by (eapply llist_frame; [done|set_solver|done]).
  unfold load_next. rewrite (dlist_first _ _ _ (proj1 Hl1)). simpl.
  assert (llist L1 new [] []) as Hn1 by (by split_and!).
  destruct rev; simpl.
  - destruct (insert_walk_llist _ _ _ nh new insert_head_inserts ps fuel [] [] ds L1 [] [])
      as (L2 & qs & -> & Hq & Hs2); [done..|set_solver|done|].
    rewrite foldl_cons, app_nil_r in Hq. simpl. naive_solver.
  - destruct (insert_walk_llist _ _ _ nh new insert_tail_inserts ps fuel [] [] ds L1 [] [])
      as (L2 & qs & -> & Hq & Hs2); [done..|set_solver|done|].
    rewrite foldl_snoc in Hq. simpl. naive_solver.
Qed.

Lemma llist_node_append_llist L dst qs es src ps ds fuel :
  llist L dst qs es -> llist L src ps ds -> (forall p, p ∈ src :: ps -> p ∉ dst :: qs) ->
  (length ps <= fuel)%nat ->
  exists L' qs', llist_node_append oom fuel L dst src = Some (dst, L') /\
    llist L' dst qs' (es ++ ds) /\ llist L' src ps ds.
Proof.
  intros Hd Hs Hdisj Hf. unfold llist_node_append, load_next. rewrite (dlist_first _ _ _ (proj1 Hs)). simpl.
  destruct (insert_walk_llist _ _ _ src dst insert_tail_inserts ps fuel [] [] ds L qs es)
    as (L2 & qs' & -> & Hq & Hs2); [done..|]. rewrite foldl_snoc in Hq. simpl. naive_solver.
Qed.
End copy_specs.

(** The loop that removes elements while it walks, on a suffix. *)
Lemma foreach_safe_walk_llist prune nh : forall suf fuel pre dpre dsuf L rm,
  llist L nh (pre ++ suf) (dpre ++ dsuf) -> length pre = length dpre ->
  (length suf <= fuel)%nat -> forall tmp, h_next (l_heads L) !! at_suffix nh suf = Some tmp ->
  exists L' ps', foreach_safe_walk prune fuel L nh (at_suffix nh suf) tmp (wrap32 rm) =
      Some (wrap32 (rm + Z.of_nat (length (filter (fun d => prune d = true) dsuf))), L') /\
    llist L' nh ps' (dpre ++ filter (fun d => prune d = false) dsuf).
Proof.
  induction suf as [|x suf IH]; intros fuel pre dpre dsuf L rm Hl Hlen Hf tmp Htmp.
  - pose proof Hl as (_ & HF & _). apply Forall2_length in HF. rewrite !length_app in HF.
    simpl in HF. destruct dsuf; [|simpl in HF; lia]. exists L, pre. rewrite !filter_nil, !app_nil_r in *. split; [|done].
    simpl. rewrite Z.add_0_r. destruct fuel; simpl; by rewrite bool_decide_eq_true_2.
  - destruct fuel as [|fuel]; [simpl in Hf; lia|]. pose proof Hl as (Hdl & HF & _). simpl.
    rewrite bool_decide_eq_false_2 by (by eapply dlist_not_head).
    apply Forall2_app_inv in HF as [_ HF]; [|done].
    inversion HF as [|? dx ? dsuf' Hx HF']; subst. unfold load_data. rewrite Hx. simpl.
    simpl in Htmp. rewrite (dlist_next _ _ _ _ _ Hdl) in Htmp. simplify_eq.
    simpl in Hf.
    destruct (prune dx) eqn:Hp.
    + destruct (llist_node_remove_llist L nh pre x suf dpre dx dsuf' Hl Hlen) as (L1 & -> & _ & Hl1 & _). simpl.
      assert (is_Some (h_next (l_heads L1) !! at_suffix nh suf)) as [n Hn].
      { eapply dlist_allocated; [apply Hl1|]. destruct suf; set_solver. }
      unfold load_next. rewrite Hn. simpl.
      assert (wrap32 (wrap32 rm + 1) = wrap32 (rm + 1)) as -> by apply Zplus_mod_idemp_l.
      destruct (IH fuel pre dpre dsuf' L1 (rm + 1) Hl1 Hlen ltac:(lia) n Hn) as (L2 & ps' & -> & Hl2).
      exists L2, ps'. rewrite !filter_cons, Hp. rewrite decide_True, decide_False by done.
      simpl. split; [|done]. do 3 f_equal. lia.
    + simpl. assert (is_Some (h_next (l_heads L) !! at_suffix nh suf)) as [n Hn].
      { eapply dlist_allocated; [apply Hl|]. destruct suf; set_solver. }
      unfold load_next. rewrite Hn. simpl.
      destruct (IH fuel (pre ++ [x]) (dpre ++ [dx]) dsuf' L rm) with (tmp := n) as (L2 & ps' & -> & Hl2);
        [by rewrite <- !app_assoc|rewrite !length_app; simpl; lia|lia|done|].
      exists L2, ps'. rewrite !filter_cons, Hp. rewrite decide_False, decide_True by done.
      rewrite <- app_assoc in Hl2. done.
Qed.

(** ** Main results *)

(** A heap with one list, headed by cell 1, of the words 5, 6, 7. *)
Definition demo : lheap :=
  LHeap (Heads (list_to_map [(1, 2); (2, 3); (3, 4); (4, 1)]%positive)
           (list_to_map [(1, 4); (2, 1); (3, 2); (4, 3)]%positive))
    (list_to_map [(1%positive, 3); (2%positive, 5); (3%positive, 6); (4%positive, 7)]).

Lemma demo_llist : llist demo 1%positive [2; 3; 4]%positive [5; 6; 7].
Proof.
  split_and!; [split; [by apply (bool_decide_unpack _)|by repeat split]|by repeat constructor|done].
Qed.

(** [llist_node_insert_tail] on a well-formed list appends the data word
    at a newly allocated cell: the list is well formed again with the word at
    its end and its size field counted up, and every cell that does not
    belong to the list keeps its links and data. *)
Theorem llist_node_insert_tail_spec (oom : lheap -> bool) (L : lheap) (nhead : ptr)
    (ps : list ptr) (ds : list Z) (data : Z) :
  oom L = false -> llist L nhead ps ds ->
  exists node L', llist_node_insert_tail oom L nhead data = Some (Some node, L') /\
    unallocated L node /\ llist L' nhead (ps ++ [node]) (ds ++ [data]) /\
    lsame_outside (node :: nhead :: ps) L L'.
Proof. apply llist_node_insert_tail_llist. Qed.

Lemma llist_node_insert_tail_witness :
  exists node L', llist_node_insert_tail (fun _ => false) demo 1 9 = Some (Some node, L') /\
    unallocated demo node /\ llist L' 1 ([2; 3; 4]%positive ++ [node]) ([5; 6; 7] ++ [9]) /\
    lsame_outside (node :: 1%positive :: [2; 3; 4]%positive) demo L'.
Proof. apply llist_node_insert_tail_spec; [reflexivity|apply demo_llist]. Defined.

(** [llist_node_remove] of a cell of a well-formed list unlinks and frees
    exactly that cell: the others stay, in order, the size is counted down,
    and the cells outside the list are untouched. *)
Theorem llist_node_remove_spec (L : lheap) (nhead node : ptr) (ps ps' : list ptr)
    (ds ds' : list Z) (d : Z) :
  llist L nhead (ps ++ node :: ps') (ds ++ d :: ds') -> length ps = length ds ->
  exists L', llist_node_remove L nhead node = Some L' /\ unallocated L' node /\
    llist L' nhead (ps ++ ps') (ds ++ ds') /\ lsame_outside (nhead :: ps ++ node :: ps') L L'.
Proof. apply llist_node_remove_llist. Qed.

Lemma llist_node_remove_witness :
  exists L', llist_node_remove demo 1 3 = Some L' /\ unallocated L' 3 /\
    llist L' 1 ([2]%positive ++ [4]%positive) ([5] ++ [7]) /\
    lsame_outside (1%positive :: [2]%positive ++ 3%positive :: [4]%positive) demo L'.
Proof. apply (llist_node_remove_spec demo 1 3 [2%positive] [4%positive] [5] [7] 6); [apply demo_llist|reflexivity]. Defined.

(** [llist_node_copy] and [llist_node_copy_reverse] build, when memory
    suffices, a second well-formed list with the same words in the same,
    respectively the opposite, order, and leave the original as it was; the
    loop needs as many turns as the list has elements. *)
Theorem llist_node_copy_spec (oom : lheap -> bool) (L : lheap) (nhead : ptr)
    (ps : list ptr) (ds : list Z) (fuel : nat) :
  (forall L, oom L = false) -> llist L nhead ps ds -> (length ps <= fuel)%nat ->
  (exists new L' qs, llist_node_copy oom fuel L nhead = Some (Some new, L') /\
     llist L' new qs ds /\ llist L' nhead ps ds) /\
  (exists new L' qs, llist_node_copy_reverse oom fuel L nhead = Some (Some new, L') /\
     llist L' new qs (reverse ds) /\ llist L' nhead ps ds).
Proof.
  intros Hm Hl Hf. split.
  - by apply (llist_node_copy_aux_llist oom Hm L nhead ps ds fuel false).
  - by apply (llist_node_copy_aux_llist oom Hm L nhead ps ds fuel true).
Qed.

Lemma llist_node_copy_witness :
  (exists new L' qs, llist_node_copy (fun _ => false) 3 demo 1 = Some (Some new, L') /\
     llist L' new qs [5; 6; 7] /\ llist L' 1 [2; 3; 4]%positive [5; 6; 7]) /\
  (exists new L' qs, llist_node_copy_reverse (fun _ => false) 3 demo 1 = Some (Some new, L') /\
     llist L' new qs (reverse [5; 6; 7]) /\ llist L' 1 [2; 3; 4]%positive [5; 6; 7]).
Proof. apply llist_node_copy_spec; [reflexivity|apply demo_llist|simpl; lia]. Defined.

(** The walk of [llist_node_foreach_safe] may remove the element it is
    at: the loop of [graph_prune] visits every element once, ends after as
    many turns as there are elements, removes exactly those that satisfy the
    predicate, keeps the order of the others, and counts the removals. *)
Theorem foreach_safe_prune_spec (prune : Z -> bool) (L : lheap) (nhead : ptr)
    (ps : list ptr) (ds : list Z) (fuel : nat) :
  llist L nhead ps ds -> (length ps <= fuel)%nat ->
  exists L' ps', llist_node_foreach_safe_prune prune fuel L nhead =
      Some (wrap32 (Z.of_nat (length (filter (fun d => prune d = true) ds))), L') /\
    llist L' nhead ps' (filter (fun d => prune d = false) ds).
Proof.
  intros Hl Hf. unfold llist_node_foreach_safe_prune, load_next.
  rewrite (dlist_first _ _ _ (proj1 Hl)). simpl.
  assert (is_Some (h_next (l_heads L) !! at_suffix nhead ps)) as [tmp Ht].
  { eapply dlist_allocated; [apply Hl|]. destruct ps; set_solver. }
  rewrite Ht. simpl.
  by apply (foreach_safe_walk_llist prune nhead ps fuel [] [] ds L 0).
Qed.

Lemma foreach_safe_prune_witness :
  exists L' ps', llist_node_foreach_safe_prune (fun d => d =? 6) 3 demo 1 =
      Some (wrap32 (Z.of_nat (length (filter (fun d => (d =? 6) = true) [5; 6; 7]))), L') /\
    llist L' 1 ps' (filter (fun d => (d =? 6) = false) [5; 6; 7]).
Proof. apply (foreach_safe_prune_spec _ _ _ [2; 3; 4]%positive); [apply demo_llist|simpl; lia]. Defined.
