(* ===== verification/Misc.v ===== *)
(** * Helpers of lib/misc.c and lib/misc.h

    C strings are [string]s (the bytes before the terminating NUL). [None] is
    an access outside the buffer. *)

From S2P Require Import Prelude.
From Stdlib Require Import Ascii.

Definition LF : ascii := "010".
Definition CR : ascii := "013".
Definition SP : ascii := " ".

(** *s = 0 at the first occurrence of [c] (strchr followed by the store). *)
Fixpoint cut_at (c : ascii) (s : string) : string :=
  match s with
  | EmptyString => EmptyString
  | String a s => if Ascii.eqb a c then EmptyString else String a (cut_at c s)
  end.

Definition strip_crlf (line : string) : string := cut_at CR (cut_at LF line).

(** The backward loop of remove_trail on the reversed bytes: [None] when it
    runs past the first byte of the line. *)
Fixpoint trail_loop (rline : list ascii) : option (list ascii) :=
  match rline with
  | [] => None
  | a :: rest => if Ascii.eqb a SP then trail_loop rest else Some rline
  end.

Definition remove_trail (line : string) : option string :=
  match line with
  | EmptyString => Some EmptyString
  | _ =>
      r ← trail_loop (reverse (String.list_ascii_of_string line));
      Some (String.string_of_list_ascii (reverse r))
  end.

Fixpoint count_char (c : ascii) (s : string) : nat :=
  match s with
  | EmptyString => 0
  | String a s => if Ascii.eqb a c then S (count_char c s) else count_char c s
  end.

(** The text before the first [c], and the text after it when there is one. *)
Fixpoint split_first (c : ascii) (s : string) : string * option string :=
  match s with
  | EmptyString => (EmptyString, None)
  | String a s =>
      if Ascii.eqb a c then (EmptyString, Some s)
      else let '(tok, rest) := split_first c s in (String a tok, rest)
  end.

(** for (i = 0; i < n; i++) { vargs[i] = s; s = strchr(s, splitc); ... };
    [None] when strchr would be given NULL. *)
Fixpoint split_loop (n : nat) (c : ascii) (s : option string) : option (list string) :=
  match n with
  | O => Some []
  | S n =>
      s ← s;
      let '(tok, rest) := split_first c s in
      toks ← split_loop n c rest;
      Some (tok :: toks)
  end.

Definition strsplit (line : string) (splitc : ascii) : option (list string) :=
  line ← remove_trail line;
  split_loop (S (count_char splitc line)) splitc (Some line).

Fixpoint strreplace (line : string) (from to : ascii) : string :=
  match line with
  | EmptyString => EmptyString
  | String a s => String (if Ascii.eqb a from then to else a) (strreplace s from to)
  end.

(** hashint: a 32-bit mixing function. *)
Definition hashint (x : Z) : Z :=
  let x := wrap32 (Z.lxor (Z.shiftr x 16) x * 0x45d9f3b) in
  let x := wrap32 (Z.lxor (Z.shiftr x 16) x * 0x45d9f3b) in
  Z.lxor (Z.shiftr x 16) x.

Record timeval := Timeval { tv_sec : Z; tv_usec : Z }.

(** timersub of <sys/time.h> *)
Definition timersub (a b : timeval) : timeval :=
  let sec := tv_sec a - tv_sec b in
  let usec := tv_usec a - tv_usec b in
  if usec <? 0 then Timeval (sec - 1) (usec + 1000000) else Timeval sec usec.

Definition getmsdiff (t1 t2 : timeval) : Z :=
  let tmp := timersub t1 t2 in
  wrap32 (tv_sec tmp * 1000 + tv_usec tmp `quot` 1000).

(** ** Functions of the C library the sources compare keys with *)

Definition NUL : ascii := "000".
Definition byte_of (a : ascii) : Z := Z.of_nat (nat_of_ascii a).

(** strcmp: the difference of the first bytes that differ, up to the NUL. *)
Fixpoint strcmp (s1 s2 : string) : Z :=
  match s1, s2 with
  | EmptyString, EmptyString => 0
  | EmptyString, String b _ => - byte_of b
  | String a _, EmptyString => byte_of a
  | String a s1, String b s2 =>
      if Ascii.eqb a b then if Ascii.eqb a NUL then 0 else strcmp s1 s2
      else byte_of a - byte_of b
  end.

(** memcmp of the first [n] bytes of two buffers. *)
Fixpoint memcmp (n : nat) (a b : list Z) : Z :=
  match n with
  | O => 0
  | S n =>
      let x := default 0 (head a) in
      let y := default 0 (head b) in
      if x =? y then memcmp n (tail a) (tail b) else x - y
  end.

(** struct in6_addr: the 16 bytes of an IPv6 address. *)
Definition in6_addr := list Z.
Definition byte_at (a : in6_addr) (i : nat) : Z := default 0 (a !! i).

(** s6_addr32[i] on a little-endian host. *)
Definition s6_addr32 (a : in6_addr) (i : nat) : Z :=
  byte_at a (4 * i) + 2 ^ 8 * byte_at a (4 * i + 1) + 2 ^ 16 * byte_at a (4 * i + 2)
  + 2 ^ 24 * byte_at a (4 * i + 3).

Lemma byte_of_inj a b : byte_of a = byte_of b -> a = b.
Proof.
  unfold byte_of. intros Hab. rewrite <- (ascii_nat_embedding a), <- (ascii_nat_embedding b).
  f_equal. lia.
Qed.

(** Two strings compare equal when they agree up to the first NUL. *)
Lemma strcmp_0 s1 s2 : strcmp s1 s2 = 0 <-> cut_at NUL s1 = cut_at NUL s2.
Proof.
  assert (forall a, byte_of a = 0 <-> a = NUL) as Hz.
  { intros a. split; [intros Ha; by apply byte_of_inj|by intros ->]. }
  revert s2. induction s1 as [|a s1 IH]; intros [|b s2]; cbn [strcmp cut_at].
  - done.
  - destruct (Ascii.eqb_spec b NUL) as [->|Hb]; [done|]. split; [|done].
    intros Hb'. exfalso. apply Hb, Hz. lia.
  - destruct (Ascii.eqb_spec a NUL) as [->|Ha]; [done|]. split; [|done]. intros ?%Hz. done.
  - destruct (Ascii.eqb_spec a b) as [<-|Hab].
    + destruct (Ascii.eqb_spec a NUL); [done|]. rewrite IH. split; [by intros ->|by intros [= ->]].
    + split.
      * intros Hd. exfalso. apply Hab, byte_of_inj. lia.
      * destruct (Ascii.eqb_spec a NUL), (Ascii.eqb_spec b NUL); intros; congruence.
Qed.

Lemma memcmp_0 n a b :
  memcmp n a b = 0 <-> forall i, (i < n)%nat -> byte_at a i = byte_at b i.
Proof.
  revert a b. induction n as [|n IH]; intros a b; cbn [memcmp]; [split; [lia|done]|].
  assert (forall (l : list Z) i, byte_at (tail l) i = byte_at l (S i)) as Ht by (by intros []).
  assert (forall l : list Z, default 0 (head l) = byte_at l 0) as Hh by (by intros []).
  rewrite !Hh. destruct (Z.eqb_spec (byte_at a 0) (byte_at b 0)) as [E|E].
  - rewrite IH. split.
    + intros Hi [|i] Hlt; [done|]. rewrite <- !Ht. apply Hi. lia.
    + intros Hi i Hlt. rewrite !Ht. apply Hi. lia.
  - split; [intros; exfalso; apply E; lia|]. intros Hi. exfalso. apply E, Hi. lia.
Qed.

(** ** Splitting *)

(** The tokens with the separator between them. *)
Fixpoint join_with (c : ascii) (toks : list string) : string :=
  match toks with
  | [] => EmptyString
  | [tok] => tok
  | tok :: toks => tok ++ String c (join_with c toks)
  end.

Lemma split_first_none c s tok :
  split_first c s = (tok, None) -> tok = s /\ count_char c s = O.
Proof.
  revert tok. induction s as [|a s IH]; simpl; intros tok H; simplify_eq; [done|].
  destruct (Ascii.eqb a c); [done|]. destruct (split_first c s) as [t r] eqn:E. simplify_eq.
  destruct (IH t eq_refl) as [-> ?]. done.
Qed.

Lemma split_first_some c s tok rest :
  split_first c s = (tok, Some rest) ->
  s = (tok ++ String c rest)%string /\ count_char c tok = O /\
  count_char c s = S (count_char c rest).
Proof.
  revert tok. induction s as [|a s IH]; simpl; intros tok H; simplify_eq.
  destruct (Ascii.eqb_spec a c) as [->|Hne]; simplify_eq; [done|].
  destruct (split_first c s) as [t r] eqn:E. simplify_eq.
  destruct (IH t eq_refl) as (-> & Ht & Hc). simpl.
  apply Ascii.eqb_neq in Hne. rewrite Hne. done.
Qed.

Lemma split_loop_S n c s :
  split_loop (S n) c (Some s) =
  let '(tok, rest) := split_first c s in
  toks ← split_loop n c rest; Some (tok :: toks).
Proof. done. Qed.

Lemma split_loop_spec c s :
  exists toks, split_loop (S (count_char c s)) c (Some s) = Some toks /\
    join_with c toks = s /\ length toks = S (count_char c s) /\
    Forall (fun t => count_char c t = O) toks.
Proof.
  remember (count_char c s) as n eqn:Hn. revert s Hn.
  induction n as [|n IH]; intros s Hn; rewrite split_loop_S;
    destruct (split_first c s) as [tok [rest|]] eqn:E.
  - apply split_first_some in E as (_ & _ & E). lia.
  - apply split_first_none in E as [-> E]. exists [s]. by repeat constructor.
  - apply split_first_some in E as (Hs & Ht & Hc).
    destruct (IH rest ltac:(lia)) as (toks & Hl & Hj & Hlen & Hall).
    rewrite Hl. exists (tok :: toks). split_and!; [done| |simpl; lia|by constructor].
    destruct toks as [|t toks]; [done|]. cbn [join_with]. cbn [join_with] in Hj. rewrite Hj. done.
  - apply split_first_none in E as [-> E]. lia.
Qed.

(** A line of spaces only: the loop of remove_trail leaves the buffer. *)
Definition blank (line : string) : Prop := Forall (fun a => a = SP) (String.list_ascii_of_string line).

Lemma trail_loop_None r : trail_loop r = None <-> Forall (fun a => a = SP) r.
Proof.
  induction r as [|a r IH]; simpl; [by split|]. rewrite Forall_cons.
  destruct (Ascii.eqb_spec a SP); naive_solver.
Qed.

Lemma trail_loop_Some r r' :
  trail_loop r = Some r' ->
  exists sp a rest, r = sp ++ r' /\ Forall (fun a => a = SP) sp /\ r' = a :: rest /\ a <> SP.
Proof.
  induction r as [|a r IH]; simpl; intros H; [done|].
  destruct (Ascii.eqb_spec a SP) as [->|]; simplify_eq.
  - destruct (IH H) as (sp & b & rest & -> & ? & -> & ?). exists (SP :: sp), b, rest.
    split_and!; [done|by constructor|done..].
  - exists [], a, r. naive_solver.
Qed.

Lemma remove_trail_ne line :
  line <> EmptyString ->
  remove_trail line =
    (r ← trail_loop (reverse (String.list_ascii_of_string line));
     Some (String.string_of_list_ascii (reverse r))).
Proof. by destruct line. Qed.

Lemma remove_trail_None line : remove_trail line = None <-> line <> EmptyString /\ blank line.
Proof.
  destruct (decide (line = EmptyString)) as [->|Hne]; [naive_solver|].
  rewrite remove_trail_ne by done. unfold blank.
  rewrite <- (Forall_reverse _ (String.list_ascii_of_string line)), <- trail_loop_None.
  destruct (trail_loop _); simpl; naive_solver.
Qed.

(** remove_trail drops the trailing spaces and nothing else. *)
Lemma remove_trail_Some line line' :
  remove_trail line = Some line' ->
  exists sp, String.list_ascii_of_string line = String.list_ascii_of_string line' ++ sp /\
    Forall (fun a => a = SP) sp /\ last (String.list_ascii_of_string line') <> Some SP.
Proof.
  destruct (decide (line = EmptyString)) as [->|Hne]; [intros [= <-]; by exists []|].
  rewrite remove_trail_ne by done. intros H.
  destruct (trail_loop _) as [r|] eqn:E; simplify_eq/=.
  apply trail_loop_Some in E as (sp & b & rest & E & Hsp & -> & Hb).
  apply (f_equal reverse) in E. rewrite reverse_involutive, reverse_app in E. rewrite E.
  rewrite String.list_ascii_of_string_of_list_ascii.
  exists (reverse sp). split_and!; [done|by rewrite Forall_reverse|].
  rewrite reverse_cons, last_snoc. congruence.
Qed.

(** ** Main results *)

(** [strsplit] on a line that is empty or has a character other than a
    space returns the fields of the line without its trailing spaces: joined
    with the separator they give that text back, none contains the separator,
    and there is one more field than separators. *)
Theorem strsplit_spec (line : string) (splitc : ascii) :
  (line = EmptyString \/ ~ blank line) ->
  exists toks line' sp, strsplit line splitc = Some toks /\
    String.list_ascii_of_string line = String.list_ascii_of_string line' ++ sp /\
    Forall (fun a => a = SP) sp /\ last (String.list_ascii_of_string line') <> Some SP /\
    join_with splitc toks = line' /\ length toks = S (count_char splitc line') /\
    Forall (fun t => count_char splitc t = O) toks.
Proof.
  intros Hline. unfold strsplit.
  destruct (remove_trail line) as [line'|] eqn:E; [|apply remove_trail_None in E; naive_solver].
  cbn [mbind option_bind].
  destruct (split_loop_spec splitc line') as (toks & Hl & Hj & Hlen & Hall).
  destruct (remove_trail_Some _ _ E) as (sp & H1 & H2 & H3).
  exists toks, line', sp. done.
Qed.

Lemma strsplit_witness :
  exists toks line' sp, strsplit "allow from a  " SP = Some toks /\
    String.list_ascii_of_string "allow from a  " = String.list_ascii_of_string line' ++ sp /\
    Forall (fun a => a = SP) sp /\ last (String.list_ascii_of_string line') <> Some SP /\
    join_with SP toks = line' /\ length toks = S (count_char SP line') /\
    Forall (fun t => count_char SP t = O) toks.
Proof. apply strsplit_spec. right. intros H. inversion H. discriminate. Defined.

(** On a non-empty line of spaces only, the backward loop of
    [remove_trail] runs past the first byte of the buffer, and so does every
    caller of [strsplit]. *)
Theorem strsplit_blank_underruns (line : string) (splitc : ascii) :
  line <> EmptyString -> blank line -> remove_trail line = None /\ strsplit line splitc = None.
Proof.
  intros H1 H2. assert (remove_trail line = None) as E by (by apply remove_trail_None).
  unfold strsplit. by rewrite E.
Qed.

Lemma strsplit_blank_witness : remove_trail "  " = None /\ strsplit "  " SP = None.
Proof. apply strsplit_blank_underruns; [discriminate|by repeat constructor]. Defined.

(** [getmsdiff] of two instants less than 2^32 milliseconds apart, the
    first not before the second, is the elapsed time in whole milliseconds. *)
Theorem getmsdiff_spec (t1 t2 : timeval) :
  0 <= tv_usec t1 < 1000000 -> 0 <= tv_usec t2 < 1000000 ->
  let us := (tv_sec t1 * 1000000 + tv_usec t1) - (tv_sec t2 * 1000000 + tv_usec t2) in
  0 <= us -> us / 1000 < 2 ^ 32 -> getmsdiff t1 t2 = us / 1000.
Proof.
  intros H1 H2 us Hpos Hlt. unfold getmsdiff, timersub.
  assert (forall s u, 0 <= u < 1000000 -> us = s * 1000000 + u ->
            wrap32 (s * 1000 + u `quot` 1000) = us / 1000) as H.
  { intros s u Hu Heq. rewrite Z.quot_div_nonneg by lia.
    assert (us / 1000 = s * 1000 + u / 1000) as Hms.
    { rewrite Heq, <- (Z.div_add_l (s * 1000)) by lia. f_equal. lia. }
    rewrite Hms in *. apply wrap32_small. split; [|done].
    pose proof (Z.div_pos us 1000). lia. }
  destruct (Z.ltb_spec (tv_usec t1 - tv_usec t2) 0); simpl; apply H; unfold us; lia.
Qed.

Lemma getmsdiff_witness : getmsdiff (Timeval 12 1500) (Timeval 10 999000) = 1002500 / 1000.
Proof. apply (getmsdiff_spec (Timeval 12 1500) (Timeval 10 999000)); simpl; [lia|lia|lia|reflexivity]. Defined.
