(* ===== verification/Hashmap.v ===== *)
(** * Chained hash tables (lib/hashmap.h, lib/hashmap.c)

    Entries are heap cells that are on two lists at once: the list of their
    bucket ([map_head]) and the list of all entries in insertion order
    ([key_head]). Both are lists of entry pointers here, by the refinement of
    [Llist]; an entry's key and value live in the heap, shared by both lists.
    The reader-writer lock of the structure has no effect on the data and is
    left out.  [hm_size] and [hm_elems] are size_t in the source: every entry
    is an allocation of more than one byte, so that a table has fewer than 2^64
    of them and the counts do not wrap. *)

From S2P Require Import Prelude Misc.

(** ** Keys

    What the table is given about its keys: the two function pointers of
    [struct hashmap] ([compare] is 0 on equal keys), and what the table needs
    of them to work. *)

Class KeyOps (K : Type) := {
  hash : K -> Z;
  compare : K -> K -> Z;
}.

Class KeyLaws (K : Type) `{KeyOps K} : Prop := {
  compare_refl : forall k, compare k k = 0;
  compare_sym : forall k1 k2, compare k1 k2 = 0 -> compare k2 k1 = 0;
  compare_trans : forall k1 k2 k3, compare k1 k2 = 0 -> compare k2 k3 = 0 -> compare k1 k3 = 0;
  hash_compat : forall k1 k2, compare k1 k2 = 0 -> hash k1 = hash k2;
}.

Definition HASHMAP_DEFAULT_SIZE : Z := 16.

Record hmap_entry (K V : Type) := Entry { key : K; elem : V }.
Arguments Entry {K V}.
Arguments key {K V}.
Arguments elem {K V}.

Record hashmap (K V : Type) := Hashmap {
  hm_size : Z;
  hm_elems : Z;
  hm_map : list (list ptr);
  hm_keys : list ptr;
  hm_heap : gmap ptr (hmap_entry K V);
}.
Arguments Hashmap {K V}.
Arguments hm_size {K V}.
Arguments hm_elems {K V}.
Arguments hm_map {K V}.
Arguments hm_keys {K V}.
Arguments hm_heap {K V}.

(** llist_remove of a cell from the list it is on. *)
Definition unlink (p : ptr) (l : list ptr) : list ptr := filter (fun q => q <> p) l.

(** llist_insert_tail(&map[idx], p); [None] when [idx] is no bucket. *)
Definition bucket_push (m : list (list ptr)) (idx : Z) (p : ptr) : option (list (list ptr)) :=
  b ← m !! Z.to_nat idx;
  Some (<[Z.to_nat idx := b ++ [p]]> m).

Section ops.
Context {K V : Type} `{KeyOps K}.
Implicit Types (hm : hashmap K V) (k : K) (v : V).

(** [ok] is whether the calls of malloc succeed. *)
Definition hmap_new (ok_hm ok_map : bool) : option (hashmap K V) :=
  if negb ok_hm then None
  else if negb ok_map then None
  else Some (Hashmap HASHMAP_DEFAULT_SIZE 0
               (replicate (Z.to_nat HASHMAP_DEFAULT_SIZE) []) [] ∅).

Definition hmap_hash hm k : Z := Z.land (hash k) (hm_size hm - 1).

Definition hmap_must_grow hm : bool := hm_size hm / 4 * 3 <? hm_elems hm.

(** The loop of hmap_grow over the entries in insertion order. *)
Fixpoint rehash hm (keys : list ptr) (new_map : list (list ptr)) : option (list (list ptr)) :=
  match keys with
  | [] => Some new_map
  | he :: keys =>
      e ← hm_heap hm !! he;
      new_map ← bucket_push new_map (hmap_hash hm (key e)) he;
      rehash hm keys new_map
  end.

(** Outer [None] is an invalid access; the result is the code's return value. *)
Definition hmap_grow (ok : bool) hm (nsize : Z) : option (Z * hashmap K V) :=
  if negb ok then Some (-1, hm)
  else
    let new_map := replicate (Z.to_nat nsize) [] in
    let hm := Hashmap nsize (hm_elems hm) (hm_map hm) (hm_keys hm) (hm_heap hm) in
    new_map ← rehash hm (hm_keys hm) new_map;
    Some (0, Hashmap nsize (hm_elems hm) new_map (hm_keys hm) (hm_heap hm)).

(** llist_foreach over a bucket up to the first entry with an equal key. *)
Fixpoint bucket_find hm (b : list ptr) k : option (option (ptr * hmap_entry K V)) :=
  match b with
  | [] => Some None
  | he :: b =>
      e ← hm_heap hm !! he;
      if compare (key e) k =? 0 then Some (Some (he, e)) else bucket_find hm b k
  end.

Definition hmap_set (ok_grow ok_entry : bool) hm k v : option (Z * hashmap K V) :=
  b ← hm_map hm !! Z.to_nat (hmap_hash hm k);
  found ← bucket_find hm b k;
  match found with
  | Some (he, e) =>
      Some (0, Hashmap (hm_size hm) (hm_elems hm) (hm_map hm) (hm_keys hm)
                 (<[he := Entry (key e) v]> (hm_heap hm)))
  | None =>
      '(r, hm) ← (if hmap_must_grow hm then hmap_grow ok_grow hm (hm_size hm * 2)
                  else Some (0, hm));
      if r <? 0 then Some (-1, hm)
      else if negb ok_entry then Some (-1, hm)
      else
        let he := fresh (dom (hm_heap hm)) in
        m ← bucket_push (hm_map hm) (hmap_hash hm k) he;
        Some (0, Hashmap (hm_size hm) (hm_elems hm + 1) m (hm_keys hm ++ [he])
                   (<[he := Entry k v]> (hm_heap hm)))
  end.

Definition hmap_get hm k : option (option V) :=
  b ← hm_map hm !! Z.to_nat (hmap_hash hm k);
  found ← bucket_find hm b k;
  Some (match found with Some (_, e) => Some (elem e) | None => None end).

(** llist_remove of both heads of an entry, and free. *)
Definition drop_entry hm (he : ptr) : hashmap K V :=
  Hashmap (hm_size hm) (hm_elems hm - 1) (unlink he <$> hm_map hm) (unlink he (hm_keys hm))
    (delete he (hm_heap hm)).

Definition hmap_delete hm k : option (hashmap K V) :=
  b ← hm_map hm !! Z.to_nat (hmap_hash hm k);
  found ← bucket_find hm b k;
  Some (match found with Some (he, _) => drop_entry hm he | None => hm end).

Fixpoint hmap_flush (fuel : nat) hm : option (hashmap K V) :=
  match hm_keys hm with
  | [] => Some hm
  | he :: _ => match fuel with O => None | S fuel => hmap_flush fuel (drop_entry hm he) end
  end.

(** hmap_foreach: the entries in the order it visits them. *)
Definition hmap_entries hm : list (K * V) :=
  omap (fun p => e ← hm_heap hm !! p; Some (key e, elem e)) (hm_keys hm).

(** ** What the table promises: an association list in insertion order *)

Fixpoint aget (l : list (K * V)) k : option V :=
  match l with
  | [] => None
  | (k', v) :: l => if compare k' k =? 0 then Some v else aget l k
  end.

(** Setting an existing key keeps its place and the key first given. *)
Fixpoint aset (l : list (K * V)) k v : list (K * V) :=
  match l with
  | [] => [(k, v)]
  | (k', v') :: l => if compare k' k =? 0 then (k', v) :: l else (k', v') :: aset l k v
  end.

Fixpoint adel (l : list (K * V)) k : list (K * V) :=
  match l with
  | [] => []
  | (k', v') :: l => if compare k' k =? 0 then l else (k', v') :: adel l k
  end.

(** ** The invariant of the table *)

Record wf hm : Prop := {
  wf_size : exists j, 0 <= j /\ hm_size hm = 2 ^ j;
  wf_len : Z.of_nat (length (hm_map hm)) = hm_size hm;
  wf_elems : hm_elems hm = Z.of_nat (length (hm_keys hm));
  wf_nodup : NoDup (hm_keys hm);
  wf_keys : forall p, p ∈ hm_keys hm <-> is_Some (hm_heap hm !! p);
  wf_bucket_nodup : forall i b, hm_map hm !! i = Some b -> NoDup b;
  wf_bucket : forall i b p, hm_map hm !! i = Some b ->
    (p ∈ b <-> exists e, hm_heap hm !! p = Some e /\ Z.to_nat (hmap_hash hm (key e)) = i);
  wf_inj : forall p q e f, hm_heap hm !! p = Some e -> hm_heap hm !! q = Some f ->
    compare (key e) (key f) = 0 -> p = q;
}.

End ops.

(** ** Proofs *)

Lemma elem_of_unlink p q l : q ∈ unlink p l <-> q <> p /\ q ∈ l.
Proof. unfold unlink. rewrite list_elem_of_filter. done. Qed.

Lemma unlink_notin p l : p ∉ l -> unlink p l = l.
Proof.
  unfold unlink. induction l as [|q l IH]; intros Hp; [done|].
  rewrite filter_cons_True by set_solver. f_equal. apply IH. set_solver.
Qed.

Lemma unlink_head p l : NoDup (p :: l) -> unlink p (p :: l) = l.
Proof.
  intros [Hp _]%NoDup_cons. unfold unlink. rewrite filter_cons_False by naive_solver.
  by apply unlink_notin.
Qed.

Lemma unlink_length p l : NoDup l -> p ∈ l -> length l = S (length (unlink p l)).
Proof.
  induction l as [|q l IH]; intros Hnd Hp; [set_solver|].
  destruct (decide (q = p)) as [->|Hne]; [by rewrite unlink_head|].
  apply NoDup_cons in Hnd as [_ Hnd]. unfold unlink in *. rewrite filter_cons_True by done.
  simpl. rewrite IH by set_solver. done.
Qed.

Section proofs.
Context {K V : Type} `{KeyLaws K}.
Implicit Types (hm : hashmap K V) (k : K) (v : V).

Lemma hash_in_range hm k j :
  0 <= j -> hm_size hm = 2 ^ j -> 0 <= hmap_hash hm k < hm_size hm.
Proof. intros Hj Hs. unfold hmap_hash. rewrite Hs, land_pow2_mask by done. apply Z.mod_pos_bound. lia. Qed.

Lemma bucket_exists hm k : wf hm -> exists b, hm_map hm !! Z.to_nat (hmap_hash hm k) = Some b.
Proof.
  intros W. destruct (wf_size _ W) as (j & Hj & Hs).
  pose proof (hash_in_range hm k j Hj Hs). apply lookup_lt_is_Some.
  pose proof (wf_len _ W). lia.
Qed.

Lemma bucket_find_spec hm b k :
  (forall p, p ∈ b -> is_Some (hm_heap hm !! p)) ->
  exists r, bucket_find hm b k = Some r /\
    match r with
    | Some (p, e) => p ∈ b /\ hm_heap hm !! p = Some e /\ compare (key e) k = 0
    | None => forall p e, p ∈ b -> hm_heap hm !! p = Some e -> compare (key e) k <> 0
    end.
Proof.
  induction b as [|p b IH]; intros Hb; simpl; [exists None; set_solver|].
  destruct (Hb p) as [e He]; [set_solver|]. rewrite He. simpl.
  destruct (Z.eqb_spec (compare (key e) k) 0).
  - exists (Some (p, e)). set_solver.
  - destruct IH as (r & -> & Hr); [set_solver|]. exists r. split; [done|].
    destruct r as [[q f]|]; [set_solver|]. intros q f [->|Hq]%elem_of_cons Hf; [congruence|eauto].
Qed.

(** Looking a key up in its bucket finds the entry with that key, if any. *)
Lemma find_in_bucket hm k b :
  wf hm -> hm_map hm !! Z.to_nat (hmap_hash hm k) = Some b ->
  exists r, bucket_find hm b k = Some r /\
    match r with
    | Some (p, e) => hm_heap hm !! p = Some e /\ compare (key e) k = 0
    | None => forall p e, hm_heap hm !! p = Some e -> compare (key e) k <> 0
    end.
Proof.
  intros W Hb. destruct (bucket_find_spec hm b k) as (r & Hr & Hspec).
  { intros p Hp. apply (wf_bucket _ W _ _ _ Hb) in Hp as (e & He & _). eauto. }
  exists r. split; [done|]. destruct r as [[p e]|]; [naive_solver|].
  intros p e He Hc. apply (Hspec p e); [|done..]. apply (wf_bucket _ W _ _ _ Hb).
  exists e. split; [done|]. unfold hmap_hash. by rewrite (hash_compat _ _ Hc).
Qed.

(** *** Association lists read off a list of cells *)

Definition read (h : gmap ptr (hmap_entry K V)) (ks : list ptr) : list (K * V) :=
  omap (fun p => e ← h !! p; Some (key e, elem e)) ks.

#[local] Arguments read : simpl never.

Definition inj_keys (h : gmap ptr (hmap_entry K V)) : Prop :=
  forall p q e f, h !! p = Some e -> h !! q = Some f -> compare (key e) (key f) = 0 -> p = q.

Lemma read_step h p ks :
  read h (p :: ks) = match h !! p with Some e => [(key e, elem e)] | None => [] end ++ read h ks.
Proof. unfold read. simpl. by destruct (h !! p). Qed.

Lemma read_cons h p e ks :
  h !! p = Some e -> read h (p :: ks) = (key e, elem e) :: read h ks.
Proof. intros He. by rewrite read_step, He. Qed.

Lemma read_ext h h' ks : (forall p, p ∈ ks -> h' !! p = h !! p) -> read h' ks = read h ks.
Proof.
  induction ks as [|p ks IH]; intros Hs; [done|].
  rewrite !read_step, Hs, IH by set_solver. done.
Qed.

Lemma aget_none (l : list (K * V)) k :
  (forall k' v', (k', v') ∈ l -> compare k' k <> 0) ->
  aget l k = None /\ (forall v, aset l k v = l ++ [(k, v)]) /\ adel l k = l.
Proof.
  induction l as [|[k' v'] l IH]; intros Hn; simpl; [done|].
  destruct (Z.eqb_spec (compare k' k) 0); [exfalso; by apply (Hn k' v'); [apply list_elem_of_here|]|].
  destruct IH as (-> & Hs & ->); [set_solver|]. split_and!; [done| |done].
  intros v. by rewrite Hs.
Qed.

Lemma read_elem h ks k v : (k, v) ∈ read h ks -> exists p e, h !! p = Some e /\ k = key e.
Proof.
  unfold read. rewrite list_elem_of_omap. intros (p & _ & He).
  destruct (h !! p) as [e|] eqn:E; simplify_eq/=. eauto.
Qed.

(** When the cell [p] has the key: what reading, setting and deleting do. *)
Lemma read_found h ks p e k :
  inj_keys h -> NoDup ks -> (forall q, q ∈ ks -> is_Some (h !! q)) ->
  p ∈ ks -> h !! p = Some e -> compare (key e) k = 0 ->
  aget (read h ks) k = Some (elem e) /\
  (forall v, aset (read h ks) k v = read (<[p := Entry (key e) v]> h) ks) /\
  adel (read h ks) k = read (delete p h) (unlink p ks).
Proof.
  intros Hinj Hnd Hall Hp He Hc. induction ks as [|q ks IH]; [set_solver|].
  apply NoDup_cons in Hnd as [Hq Hnd].
  destruct (Hall q) as [f Hf]; [set_solver|]. rewrite (read_cons _ _ f) by done. simpl.
  destruct (decide (q = p)) as [->|Hne].
  - simplify_eq. rewrite Hc. simpl. split_and!; [done| |].
    + intros v. rewrite (read_cons _ _ (Entry (key e) v)) by apply lookup_insert_eq. simpl. f_equal.
      symmetry. apply read_ext. intros q Hq'. rewrite lookup_insert_ne; set_solver.
    + rewrite unlink_head by (by apply NoDup_cons).
      symmetry. apply read_ext. intros q Hq'. rewrite lookup_delete_ne; set_solver.
  - destruct (Z.eqb_spec (compare (key f) k) 0) as [Hcf|_].
    { exfalso. apply Hne. apply (Hinj q p f e); [done..|].
      eapply compare_trans; [done|]. by apply compare_sym. }
    destruct IH as (-> & Hset & Hdel); [set_solver..|]. split_and!; [done| |].
    + intros v. rewrite Hset, (read_cons _ _ f) by (by rewrite lookup_insert_ne). done.
    + rewrite Hdel. unfold unlink. rewrite filter_cons_True by done.
      rewrite (read_cons _ _ f) by (by rewrite lookup_delete_ne). done.
Qed.

Lemma entries_read hm : hmap_entries hm = read (hm_heap hm) (hm_keys hm).
Proof. done. Qed.

Lemma wf_inj_keys hm : wf hm -> inj_keys (hm_heap hm).
Proof. intros W. exact (wf_inj _ W). Qed.

Lemma read_found_wf hm p e k :
  wf hm -> hm_heap hm !! p = Some e -> compare (key e) k = 0 ->
  aget (hmap_entries hm) k = Some (elem e) /\
  (forall v, aset (hmap_entries hm) k v = read (<[p := Entry (key e) v]> (hm_heap hm)) (hm_keys hm)) /\
  adel (hmap_entries hm) k = read (delete p (hm_heap hm)) (unlink p (hm_keys hm)).
Proof.
  intros W He Hc. apply read_found; try done.
  - by apply wf_inj_keys.
  - apply (wf_nodup _ W).
  - intros q. apply (wf_keys _ W).
  - apply (wf_keys _ W). eauto.
Qed.

Lemma read_missing_wf hm k :
  (forall p e, hm_heap hm !! p = Some e -> compare (key e) k <> 0) ->
  aget (hmap_entries hm) k = None /\
  (forall v, aset (hmap_entries hm) k v = hmap_entries hm ++ [(k, v)]) /\
  adel (hmap_entries hm) k = hmap_entries hm.
Proof.
  intros Hn. apply aget_none. intros k' v' Hin.
  rewrite entries_read in Hin. apply read_elem in Hin as (p & e & He & ->). eauto.
Qed.

(** *** The operations keep the invariant and implement the association list *)

Lemma hmap_new_wf hm : hmap_new true true = Some hm -> wf hm /\ hmap_entries hm = [].
Proof.
  intros [= <-]. split; [|done].
  assert (forall i b, replicate (Z.to_nat HASHMAP_DEFAULT_SIZE) [] !! i = Some b -> b = [] :> list ptr) as He.
  { intros i b Hb. by apply lookup_replicate in Hb as [-> _]. }
  split; simpl in *.
  - exists 4. done.
  - done.
  - done.
  - apply NoDup_nil_2.
  - intros p. rewrite lookup_empty, is_Some_alt. set_solver.
  - intros i b ->%He. apply NoDup_nil_2.
  - intros i b p ->%He. split; [set_solver|]. intros (e & Hp & _). by rewrite lookup_empty in Hp.
  - intros p q e f Hp. by rewrite lookup_empty in Hp.
Qed.

Lemma hmap_get_wf hm k : wf hm -> hmap_get hm k = Some (aget (hmap_entries hm) k).
Proof.
  intros W. destruct (bucket_exists hm k W) as [b Hb]. unfold hmap_get. rewrite Hb. simpl.
  destruct (find_in_bucket hm k b W Hb) as (r & -> & Hr). simpl. f_equal.
  destruct r as [[p e]|].
  - destruct Hr as [He Hc]. by destruct (read_found_wf hm p e k W He Hc) as (-> & _).
  - by destruct (read_missing_wf hm k Hr) as (-> & _).
Qed.

(** Overwriting the value of an entry. *)
Lemma overwrite_wf hm p e v :
  wf hm -> hm_heap hm !! p = Some e ->
  wf (Hashmap (hm_size hm) (hm_elems hm) (hm_map hm) (hm_keys hm)
        (<[p := Entry (key e) v]> (hm_heap hm))).
Proof.
  intros W He. set (h' := <[p := Entry (key e) v]> (hm_heap hm)).
  assert (forall q f, h' !! q = Some f -> exists f', hm_heap hm !! q = Some f' /\ key f' = key f) as H1.
  { intros q f. unfold h'. rewrite lookup_insert. case_decide; intros; simplify_eq; eauto. }
  assert (forall q f, hm_heap hm !! q = Some f -> exists f', h' !! q = Some f' /\ key f' = key f) as H2.
  { intros q f Hf. unfold h'. rewrite lookup_insert. case_decide; simplify_eq; eauto. }
  split; simpl; try apply W.
  - intros q. rewrite (wf_keys _ W). split; intros [f Hf];
      [destruct (H2 _ _ Hf) as (? & ? & _)|destruct (H1 _ _ Hf) as (? & ? & _)]; eauto.
  - intros i b q Hb. rewrite (wf_bucket _ W _ _ _ Hb). split; intros (f & Hf & <-);
      [destruct (H2 _ _ Hf) as (f' & ? & Hk)|destruct (H1 _ _ Hf) as (f' & ? & Hk)];
      exists f'; split; try done; unfold hmap_hash; simpl; by rewrite Hk.
  - intros q r f g Hf Hg. destruct (H1 _ _ Hf) as (f' & Hf' & <-), (H1 _ _ Hg) as (g' & Hg' & <-).
    by apply (wf_inj _ W).
Qed.

(** Unlinking and freeing an entry. *)
Lemma drop_entry_wf hm p e : wf hm -> hm_heap hm !! p = Some e -> wf (drop_entry hm p).
Proof.
  intros W He. assert (p ∈ hm_keys hm) as Hp by (apply (wf_keys _ W); eauto).
  split; simpl.
  - apply W.
  - rewrite length_fmap. apply W.
  - rewrite (wf_elems _ W), (unlink_length p) by (done || apply W). lia.
  - apply NoDup_filter, W.
  - intros q. rewrite elem_of_unlink, (wf_keys _ W), lookup_delete.
    case_decide; [|naive_solver]. split; [naive_solver|by intros []].
  - intros i b Hb. rewrite list_lookup_fmap in Hb.
    destruct (hm_map hm !! i) as [b'|] eqn:Hb'; simplify_eq/=. apply NoDup_filter. by apply (wf_bucket_nodup _ W i).
  - intros i b q Hb. rewrite list_lookup_fmap in Hb.
    destruct (hm_map hm !! i) as [b'|] eqn:Hb'; simplify_eq/=.
    rewrite elem_of_unlink, (wf_bucket _ W _ _ _ Hb'), lookup_delete.
    case_decide; [|naive_solver]. split; [naive_solver|]. by intros (? & ? & _).
  - intros q r f g Hf Hg. apply lookup_delete_Some in Hf as [_ Hf], Hg as [_ Hg]. by apply (wf_inj _ W).
Qed.

Lemma hmap_delete_wf hm k :
  wf hm -> exists hm', hmap_delete hm k = Some hm' /\ wf hm' /\
    hmap_entries hm' = adel (hmap_entries hm) k.
Proof.
  intros W. destruct (bucket_exists hm k W) as [b Hb]. unfold hmap_delete. rewrite Hb. simpl.
  destruct (find_in_bucket hm k b W Hb) as (r & -> & Hr). simpl. eexists. split; [done|].
  destruct r as [[p e]|].
  - destruct Hr as [He Hc]. split; [by eapply drop_entry_wf|].
    by destruct (read_found_wf hm p e k W He Hc) as (_ & _ & ->).
  - split; [done|]. by destruct (read_missing_wf hm k Hr) as (_ & _ & ->).
Qed.

Lemma hmap_flush_wf : forall ks fuel hm, hm_keys hm = ks -> wf hm -> (length ks <= fuel)%nat ->
  exists hm', hmap_flush fuel hm = Some hm' /\ wf hm' /\ hmap_entries hm' = [] /\
    hm_heap hm' = ∅ /\ hm_size hm' = hm_size hm.
Proof.
  induction ks as [|p ks IH]; intros fuel hm Hks W Hf.
  - exists hm. assert (hm_heap hm = ∅) as Hemp.
    { apply map_empty. intros p. destruct (hm_heap hm !! p) eqn:E; [|done].
      assert (p ∈ hm_keys hm) as Hp by (apply (wf_keys _ W); eauto). rewrite Hks in Hp. set_solver. }
    unfold hmap_entries. rewrite Hks. destruct fuel; simpl; by rewrite Hks.
  - destruct fuel as [|fuel]; [simpl in Hf; lia|]. simpl. rewrite Hks.
    destruct (proj1 (wf_keys _ W p)) as [e He]; [rewrite Hks; set_solver|].
    destruct (IH fuel (drop_entry hm p)) as (hm' & Hfl & W' & Hent & Hh & Hsz).
    + simpl. rewrite Hks. apply unlink_head. rewrite <- Hks. apply W.
    + by eapply drop_entry_wf.
    + simpl in Hf; lia.
    + exists hm'. done.
Qed.

(** A new cell at the end of a bucket. *)
Lemma bucket_push_spec (m : list (list ptr)) idx p :
  0 <= idx < Z.of_nat (length m) ->
  exists m', bucket_push m idx p = Some m' /\ length m' = length m /\
    forall i b', m' !! i = Some b' -> exists b, m !! i = Some b /\
      b' = if decide (i = Z.to_nat idx) then b ++ [p] else b.
Proof.
  intros Hi. destruct (lookup_lt_is_Some_2 m (Z.to_nat idx)) as [b Hb]; [lia|].
  unfold bucket_push. rewrite Hb. eexists. split; [done|]. rewrite length_insert. split; [done|].
  intros i b' Hb'. apply list_lookup_insert_Some in Hb' as [(<- & <- & _)|[Hne Hb']].
  - exists b. by rewrite decide_True.
  - exists b'. by rewrite decide_False.
Qed.

(** The rehash loop distributes the cells over the buckets of their keys. *)
Lemma rehash_spec hm j : 0 <= j -> hm_size hm = 2 ^ j ->
  forall ks m, Z.of_nat (length m) = hm_size hm -> NoDup ks ->
  (forall p, p ∈ ks -> is_Some (hm_heap hm !! p)) ->
  (forall i b, m !! i = Some b -> NoDup b /\ forall p, p ∈ b -> p ∉ ks) ->
  exists m', rehash hm ks m = Some m' /\ length m' = length m /\
    forall i b', m' !! i = Some b' -> NoDup b' /\ exists b, m !! i = Some b /\
      forall p, p ∈ b' <-> p ∈ b \/
        (p ∈ ks /\ exists e, hm_heap hm !! p = Some e /\ Z.to_nat (hmap_hash hm (key e)) = i).
Proof.
  intros Hj Hsize. induction ks as [|p ks IH]; intros m Hlen Hnd Hall Hm.
  - exists m. split_and!; [done..|]. intros i b Hb. split; [by apply (Hm i)|]. exists b. set_solver.
  - apply NoDup_cons in Hnd as [Hp Hnd]. simpl. destruct (Hall p) as [e He]; [set_solver|].
    rewrite He. simpl.
    destruct (bucket_push_spec m (hmap_hash hm (key e)) p) as (m1 & -> & Hlen1 & Hm1).
    { rewrite Hlen. by apply (hash_in_range _ _ j). }
    simpl. destruct (IH m1) as (m2 & -> & Hlen2 & Hm2); [lia|done|set_solver| |].
    + intros i b' (b & Hb & ->)%Hm1. destruct (Hm i b Hb) as [Hndb Hdis].
      case_decide; [|split; [done|set_solver]]. rewrite NoDup_mid, app_nil_r.
      split; [|set_solver]. split_and!; [intros Hin; eapply Hdis; [exact Hin|set_solver]|set_solver|done].
    + exists m2. split_and!; [done|lia|]. intros i b2 Hb2.
      destruct (Hm2 i b2 Hb2) as (Hndb & b1 & Hb1 & Hmem). split; [done|].
      destruct (Hm1 i b1 Hb1) as (b & Hb & ->). exists b. split; [done|]. intros q. rewrite Hmem.
      case_decide; set_solver.
Qed.

Lemma hmap_grow_wf hm :
  wf hm -> exists hm', hmap_grow true hm (hm_size hm * 2) = Some (0, hm') /\ wf hm' /\
    hm_keys hm' = hm_keys hm /\ hm_heap hm' = hm_heap hm.
Proof.
  intros W. destruct (wf_size _ W) as (j & Hj & Hs). unfold hmap_grow. cbn [negb].
  set (hm1 := Hashmap (hm_size hm * 2) (hm_elems hm) (hm_map hm) (hm_keys hm) (hm_heap hm)).
  assert (hm_size hm1 = 2 ^ (j + 1)) as Hs1 by (simpl; rewrite Hs, Z.pow_add_r; lia).
  assert (forall i b, replicate (Z.to_nat (hm_size hm * 2)) [] !! i = Some b -> b = [] :> list ptr) as Hr.
  { intros i b Hb. by apply lookup_replicate in Hb as [-> _]. }
  destruct (rehash_spec hm1 (j + 1) ltac:(lia) Hs1 (hm_keys hm) (replicate (Z.to_nat (hm_size hm * 2)) []))
    as (m' & Hm' & Hlen & Hb).
  - rewrite length_replicate. simpl. lia.
  - apply W.
  - intros p. apply (wf_keys _ W).
  - intros i b ->%Hr. split; [apply NoDup_nil_2|set_solver].
  - change (hm_keys hm1) with (hm_keys hm). rewrite Hm'. eexists. split; [done|]. split; [|done].
    split; simpl; try apply W.
    + exists (j + 1). simpl in Hs1. split; [lia|done].
    + rewrite Hlen, length_replicate. lia.
    + intros i b Hbi. by apply (Hb i).
    + intros i b p Hbi. destruct (Hb i b Hbi) as (_ & b0 & ->%Hr & Hmem). rewrite Hmem.
      split; [intros [?|(_ & ?)]; [set_solver|done]|]. intros (e & He & Hi). right.
      split; [apply (wf_keys _ W)|]; eauto.
Qed.

(** Linking a new entry whose key is not in the table. *)
Lemma insert_entry_wf hm k v :
  wf hm -> (forall p e, hm_heap hm !! p = Some e -> compare (key e) k <> 0) ->
  let he := fresh (dom (hm_heap hm)) in
  exists m, bucket_push (hm_map hm) (hmap_hash hm k) he = Some m /\
    wf (Hashmap (hm_size hm) (hm_elems hm + 1) m (hm_keys hm ++ [he])
          (<[he := Entry k v]> (hm_heap hm))) /\
    read (<[he := Entry k v]> (hm_heap hm)) (hm_keys hm ++ [he]) = hmap_entries hm ++ [(k, v)].
Proof.
  intros W Hn he.
  assert (hm_heap hm !! he = None) as Hfr by (apply not_elem_of_dom, is_fresh).
  assert (he ∉ hm_keys hm) as Hk by (intros [e He]%(wf_keys _ W); congruence).
  destruct (wf_size _ W) as (j & Hj & Hs).
  destruct (bucket_push_spec (hm_map hm) (hmap_hash hm k) he) as (m & -> & Hlen & Hm).
  { rewrite (wf_len _ W). by apply (hash_in_range _ _ j). }
  exists m. split; [done|]. split.
  - split; simpl.
    + apply W.
    + rewrite Hlen. apply W.
    + rewrite (wf_elems _ W), length_app. simpl. lia.
    + rewrite NoDup_mid, app_nil_r. split_and!; [done|set_solver|apply W].
    + intros p. rewrite elem_of_app, list_elem_of_singleton, (wf_keys _ W), lookup_insert.
      case_decide; naive_solver.
    + intros i b' (b & Hb & ->)%Hm. pose proof (wf_bucket_nodup _ W i b Hb) as Hnd. case_decide; [|done].
      rewrite NoDup_mid, app_nil_r. split_and!; [|set_solver|done].
      intros (e & He & _)%(wf_bucket _ W _ _ _ Hb). congruence.
    + intros i b' p (b & Hb & ->)%Hm. rewrite lookup_insert.
      assert (p ∈ (if decide (i = Z.to_nat (hmap_hash hm k)) then b ++ [he] else b) <->
                p ∈ b \/ (p = he /\ i = Z.to_nat (hmap_hash hm k))) as -> by (case_decide; set_solver).
      rewrite (wf_bucket _ W _ _ _ Hb). unfold hmap_hash in *. simpl. case_decide; naive_solver.
    + intros p q e f. rewrite !lookup_insert. case_decide; case_decide; intros; simplify_eq; [done|..].
      * exfalso. eapply Hn; [done|]. by apply compare_sym.
      * exfalso. by eapply Hn.
      * by eapply (wf_inj _ W).
  - unfold read. rewrite omap_app. simpl. rewrite lookup_insert_eq. simpl. f_equal.
    apply read_ext. intros p Hp. rewrite lookup_insert_ne; set_solver.
Qed.

Lemma hmap_set_wf hm k v :
  wf hm -> exists hm', hmap_set true true hm k v = Some (0, hm') /\ wf hm' /\
    hmap_entries hm' = aset (hmap_entries hm) k v.
Proof.
  intros W. destruct (bucket_exists hm k W) as [b Hb]. unfold hmap_set. rewrite Hb. simpl.
  destruct (find_in_bucket hm k b W Hb) as (r & -> & Hr). simpl.
  destruct r as [[p e]|].
  - destruct Hr as [He Hc]. eexists. split; [done|]. split; [by apply overwrite_wf|].
    by destruct (read_found_wf hm p e k W He Hc) as (_ & -> & _).
  - destruct (read_missing_wf hm k Hr) as (_ & -> & _).
    assert (exists hm1, (if hmap_must_grow hm then hmap_grow true hm (hm_size hm * 2) else Some (0, hm))
              = Some (0, hm1) /\ wf hm1 /\ hm_keys hm1 = hm_keys hm /\ hm_heap hm1 = hm_heap hm)
      as (hm1 & -> & W1 & Hk & Hh).
    { destruct (hmap_must_grow hm); [by apply hmap_grow_wf|by exists hm]. }
    simpl. rewrite <- Hh in Hr. destruct (insert_entry_wf hm1 k v W1 Hr) as (m & -> & W' & Hread).
    simpl. eexists. split; [done|]. split; [done|].
    etrans; [exact Hread|]. unfold hmap_entries. by rewrite Hk, Hh.
Qed.
End proofs.

(** ** The keys of the project *)

(** Strings: compare_str, hash_str *)
Fixpoint hash_str_loop (s : string) (h : Z) : Z :=
  match s with
  | EmptyString => h
  | String a s =>
      if Ascii.eqb a NUL then h
      else hash_str_loop s (wrap32 (wrap32 (wrap32 (Z.shiftl h 5) + h) + byte_of a))
  end.
Definition hash_str (s : string) : Z := hash_str_loop s 5381.
Definition compare_str (k1 k2 : string) : Z := strcmp k1 k2.

#[export] Instance str_key : KeyOps string := {| hash := hash_str; compare := compare_str |}.

Lemma hash_str_loop_cut s h : hash_str_loop (cut_at NUL s) h = hash_str_loop s h.
Proof.
  revert h. induction s as [|a s IH]; intros h; [done|]. cbn [cut_at hash_str_loop].
  destruct (Ascii.eqb a NUL) eqn:E; [done|]. cbn [hash_str_loop]. by rewrite E, IH.
Qed.

#[export] Instance str_laws : KeyLaws string.
Proof.
  split; cbn [compare hash str_key]; unfold compare_str.
  - intros k. by apply strcmp_0.
  - intros k1 k2. rewrite !strcmp_0. done.
  - intros k1 k2 k3. rewrite !strcmp_0. congruence.
  - intros k1 k2 Hc%strcmp_0. unfold hash_str. by rewrite <- hash_str_loop_cut, Hc, hash_str_loop_cut.
Qed.

(** IPv6 addresses: compare_in6, hash_in6 *)
Definition compare_in6 (k1 k2 : in6_addr) : Z := memcmp 16 k1 k2.
Definition hash_in6 (k : in6_addr) : Z :=
  hashint (Z.lxor (Z.lxor (Z.lxor (hashint (s6_addr32 k 0)) (hashint (s6_addr32 k 1)))
             (hashint (s6_addr32 k 2))) (hashint (s6_addr32 k 3))).

#[export] Instance in6_key : KeyOps in6_addr := {| hash := hash_in6; compare := compare_in6 |}.

#[export] Instance in6_laws : KeyLaws in6_addr.
Proof.
  split; cbn [compare hash in6_key]; unfold compare_in6.
  - intros k. by apply memcmp_0.
  - intros k1 k2. rewrite !memcmp_0. intros Hi i Hlt. symmetry. auto.
  - intros k1 k2 k3. rewrite !memcmp_0. intros H1 H2 i Hlt. rewrite H1, H2; done.
  - intros k1 k2 Hc. rewrite memcmp_0 in Hc. unfold hash_in6, s6_addr32. rewrite !Hc by lia. done.
Qed.

(** Integers cast to pointers: compare_int, hash_int *)
Definition compare_int (k1 k2 : Z) : Z := if k1 =? k2 then 0 else 1.
Definition hash_int (k : Z) : Z := hashint (wrap32 k).

Definition int_key : KeyOps Z := {| hash := hash_int; compare := compare_int |}.

Lemma int_laws : @KeyLaws Z int_key.
Proof.
  assert (forall a b, compare_int a b = 0 <-> a = b) as He.
  { intros a b. unfold compare_int. destruct (Z.eqb_spec a b); naive_solver. }
  split; cbn [compare hash int_key]; intros *; rewrite ?He; congruence.
Qed.

(** ** Sequences of operations *)

Section refinement.
Context {K V : Type} `{KeyLaws K}.

Inductive hop := HSet (k : K) (v : V) | HDelete (k : K) | HFlush.

(** One operation on the table (memory suffices), and on the association list. *)
Definition hstep (hm : hashmap K V) (op : hop) : option (hashmap K V) :=
  match op with
  | HSet k v => '(_, hm) ← hmap_set true true hm k v; Some hm
  | HDelete k => hmap_delete hm k
  | HFlush => hmap_flush (length (hm_keys hm)) hm
  end.

Definition astep (l : list (K * V)) (op : hop) : list (K * V) :=
  match op with
  | HSet k v => aset l k v
  | HDelete k => adel l k
  | HFlush => []
  end.

Fixpoint hrun (hm : hashmap K V) (ops : list hop) : option (hashmap K V) :=
  match ops with
  | [] => Some hm
  | op :: ops => hm ← hstep hm op; hrun hm ops
  end.

Lemma hstep_refines hm op :
  wf hm -> exists hm', hstep hm op = Some hm' /\ wf hm' /\ hmap_entries hm' = astep (hmap_entries hm) op.
Proof.
  intros W. destruct op as [k v|k|]; simpl.
  - destruct (hmap_set_wf hm k v W) as (hm' & -> & ? & ?). simpl. eauto.
  - by apply hmap_delete_wf.
  - destruct (hmap_flush_wf _ (length (hm_keys hm)) hm eq_refl W) as (hm' & ? & ? & ? & _); eauto.
Qed.

Lemma hrun_refines ops : forall hm, wf hm ->
  exists hm', hrun hm ops = Some hm' /\ wf hm' /\ hmap_entries hm' = foldl astep (hmap_entries hm) ops.
Proof.
  induction ops as [|op ops IH]; intros hm W; simpl; [eauto|].
  destruct (hstep_refines hm op W) as (hm1 & -> & W1 & <-). simpl. by apply IH.
Qed.

(** The law of the association list. *)
Lemma aget_aset (l : list (K * V)) k k' v :
  aget (aset l k v) k' = if compare k k' =? 0 then Some v else aget l k'.
Proof.
  induction l as [|[k0 v0] l IH]; cbn [aset aget]; [done|].
  destruct (Z.eqb_spec (compare k0 k) 0) as [E|E]; cbn [aget].
  - destruct (Z.eqb_spec (compare k0 k') 0) as [E'|E'], (Z.eqb_spec (compare k k') 0) as [E''|E''];
      try done; exfalso; [apply E''|apply E'].
    + eapply compare_trans; [by apply compare_sym|done].
    + by eapply compare_trans.
  - rewrite IH. destruct (Z.eqb_spec (compare k0 k') 0) as [E'|E'], (Z.eqb_spec (compare k k') 0) as [E''|E'']; try done.
    exfalso. apply E. eapply compare_trans; [done|]. by apply compare_sym.
Qed.

Lemma aset_fresh (l : list (K * V)) k v : aget l k = None -> aset l k v = l ++ [(k, v)].
Proof. induction l as [|[k' v'] l IH]; cbn [aget aset app]; [done|]. destruct (compare k' k =? 0); [done|]. intros Hn. by rewrite IH. Qed.

Lemma adel_fresh (l : list (K * V)) k : aget l k = None -> adel l k = l.
Proof. induction l as [|[k' v'] l IH]; cbn [aget adel]; [done|]. destruct (compare k' k =? 0); [done|]. intros Hn. by rewrite IH. Qed.

Lemma adel_mid (l1 l2 : list (K * V)) k v : aget l1 k = None -> adel (l1 ++ (k, v) :: l2) k = l1 ++ l2.
Proof.
  induction l1 as [|[k' v'] l1 IH]; cbn [aget adel app].
  - rewrite (proj2 (Z.eqb_eq _ _) (compare_refl k)). done.
  - destruct (compare k' k =? 0); [done|]. intros Hn. by rewrite IH.
Qed.
End refinement.
Arguments hop : clear implicits.

(** ** Main results *)

(** C29. Every sequence of insertions, deletions and flushes on a new table
    runs without invalid access, keeps the table's invariant (power-of-two
    size, each entry once in the bucket of its key and once in the list of
    all entries, no two entries with equal keys, exact element count), and
    leaves the table with the entries, in the order [hmap_foreach] visits
    them, of the same sequence run on an association list; [hmap_get] then
    answers as a lookup in that list, growing of the table included. *)
Theorem hashmap_refines_assoc {K V : Type} `{KeyLaws K} (ops : list (hop K V)) :
  exists hm0 hm, hmap_new true true = Some hm0 /\ hrun hm0 ops = Some hm /\ wf hm /\
    hmap_entries hm = foldl astep [] ops /\
    forall k, hmap_get hm k = Some (aget (foldl astep [] ops) k).
Proof.
  eexists. destruct (hmap_new_wf (K := K) (V := V) _ eq_refl) as [W0 E0].
  destruct (hrun_refines ops _ W0) as (hm & Hrun & W & E). rewrite E0 in E.
  exists hm. split_and!; [done..|]. intros k. by rewrite hmap_get_wf, E.
Qed.

Lemma hashmap_refines_assoc_witness :
  exists (hm0 hm : hashmap string Z),
    hmap_new true true = Some hm0 /\ hrun hm0 [HSet "a" 1; HSet "b" 2; HDelete "a"] = Some hm /\ wf hm /\
    hmap_entries hm = foldl astep [] [HSet "a" 1; HSet "b" 2; HDelete "a"] /\
    forall k, hmap_get hm k = Some (aget (foldl astep [] [HSet "a" 1; HSet "b" 2; HDelete "a"]) k).
Proof. apply (hashmap_refines_assoc (K := string) [HSet "a" 1; HSet "b" 2; HDelete "a"]). Defined.

(** After a successful [hmap_set] of a key, [hmap_get] finds the new value
    under every equal key and the old answers under all other keys. *)
Theorem hmap_get_after_set {K V : Type} `{KeyLaws K} (hm : hashmap K V) (k k' : K) (v : V) :
  wf hm -> exists hm', hmap_set true true hm k v = Some (0, hm') /\ wf hm' /\
    hmap_get hm' k' = if compare k k' =? 0 then Some (Some v) else hmap_get hm k'.
Proof.
  intros W. destruct (hmap_set_wf hm k v W) as (hm' & Hs & W' & E).
  exists hm'. split_and!; [done..|]. rewrite !hmap_get_wf, E, aget_aset by done.
  by destruct (compare k k' =? 0).
Qed.

Lemma hmap_get_after_set_witness :
  exists hm', hmap_set true true (Hashmap 16 0 (replicate 16 []) [] ∅ : hashmap string Z) "a" 7 = Some (0, hm') /\
    wf hm' /\ hmap_get hm' "a" =
      if compare "a" "a" =? 0 then Some (Some 7)
      else hmap_get (Hashmap 16 0 (replicate 16 []) [] ∅ : hashmap string Z) "a".
Proof. apply hmap_get_after_set. exact (proj1 (hmap_new_wf _ eq_refl)). Defined.
