(* ===== verification/Sync.v ===== *)
(** * Semaphores, mutexes and threads

    The POSIX semaphores and mutexes that lib/sbuf.c, lib/linked_list.c use,
    and what the invariants of the thread systems of Sbuf.v and Queue.v share:
    threads are a list of program points, counted and checked against the
    holder of the mutex. *)

From S2P Require Import Prelude.

Definition SEM_VALUE_MAX : Z := 2 ^ 31 - 1.

(** POSIX semaphores: a post beyond [SEM_VALUE_MAX] fails and is ignored by
    the callers; [sem_init] takes an [unsigned int]. *)
Definition sem_init (v : Z) : Z := wrap32 v.
Definition sem_post (s : Z) : Z := if s =? SEM_VALUE_MAX then s else s + 1.
Definition sem_try (s : Z) : option Z := if 0 <? s then Some (s - 1) else None.

Lemma sem_post_small s : s < SEM_VALUE_MAX -> sem_post s = s + 1.
Proof. intros Hs. unfold sem_post. destruct (Z.eqb_spec s SEM_VALUE_MAX); lia. Qed.

Lemma sem_try_Some s s' : sem_try s = Some s' -> 0 < s /\ s' = s - 1.
Proof. unfold sem_try. destruct (Z.ltb_spec 0 s); naive_solver. Qed.

Section threads.
Context {pc : Type}.
Implicit Types (l ps : list pc) (p : pc).

(** The number of threads at the program points [P]. *)
Definition cnt (P : pc -> bool) (l : list pc) : Z := foldr (fun p n => b2z (P p) + n) 0 l.

Lemma cnt_nonneg P l : 0 <= cnt P l.
Proof. induction l as [|p l IH]; simpl; [lia|]. destruct (P p); simpl; lia. Qed.

Lemma cnt_insert P l t p p' :
  l !! t = Some p -> cnt P (<[t := p']> l) = cnt P l - b2z (P p) + b2z (P p').
Proof.
  revert t. induction l as [|x l IH]; intros [|t]; simpl; intros Hl; simplify_eq; [lia|].
  rewrite (IH t) by done. lia.
Qed.

Lemma cnt_pos P l t p : l !! t = Some p -> P p = true -> 1 <= cnt P l.
Proof.
  revert t. induction l as [|x l IH]; intros [|t]; simpl; intros Hl HP; simplify_eq.
  - rewrite HP. simpl. pose proof (cnt_nonneg P l). lia.
  - specialize (IH t Hl HP). destruct (P x); simpl; lia.
Qed.

Lemma cnt_replicate P n p : P p = false -> cnt P (replicate n p) = 0.
Proof. intros HP. induction n as [|n IH]; simpl; [done|]. rewrite HP, IH. done. Qed.

Lemma cnt_zero P l : (forall t p, l !! t = Some p -> P p = false) -> cnt P l = 0.
Proof.
  induction l as [|x l IH]; simpl; intros H; [done|]. rewrite (H 0%nat x eq_refl), IH; [done|].
  intros t p Hp. by apply (H (S t)).
Qed.

Lemma cnt_mono P Q l : (forall p, P p = true -> Q p = true) -> cnt P l <= cnt Q l.
Proof. intros H. induction l as [|p l IH]; simpl; [lia|]. specialize (H p). destruct (P p), (Q p); simpl; try lia; by specialize (H eq_refl). Qed.

Lemma cnt_app P l1 l2 : cnt P (l1 ++ l2) = cnt P l1 + cnt P l2.
Proof. induction l1 as [|p l IH]; simpl; [done|]. rewrite IH. lia. Qed.

(** The threads in the critical section are the holder of the mutex. *)
Definition lock_ok (in_cs : pc -> bool) (lock : option nat) (ps : list pc) : Prop :=
  forall t p, ps !! t = Some p -> in_cs p = true <-> lock = Some t.

Lemma lock_ok_same in_cs lock ps t p p' :
  lock_ok in_cs lock ps -> ps !! t = Some p -> in_cs p' = in_cs p -> lock_ok in_cs lock (<[t := p']> ps).
Proof.
  intros Hok Hp Hc t' x Hx. destruct (decide (t = t')) as [<-|Hne].
  - rewrite list_lookup_insert_eq in Hx by (by eapply lookup_lt_Some). simplify_eq. rewrite Hc. by apply Hok.
  - rewrite list_lookup_insert_ne in Hx by done. by apply Hok.
Qed.

Lemma lock_ok_take in_cs ps t p p' :
  lock_ok in_cs None ps -> ps !! t = Some p -> in_cs p' = true -> lock_ok in_cs (Some t) (<[t := p']> ps).
Proof.
  intros Hok Hp Hc t' x Hx. destruct (decide (t = t')) as [<-|Hne].
  - rewrite list_lookup_insert_eq in Hx by (by eapply lookup_lt_Some). simplify_eq. by rewrite Hc.
  - rewrite list_lookup_insert_ne in Hx by done. rewrite (Hok t' x Hx). by split; intros; simplify_eq.
Qed.

Lemma lock_ok_release in_cs lock ps t p p' :
  lock_ok in_cs lock ps -> ps !! t = Some p -> in_cs p = true -> in_cs p' = false ->
  lock_ok in_cs None (<[t := p']> ps).
Proof.
  intros Hok Hp Hc Hc' t' x Hx. pose proof (proj1 (Hok t p Hp) Hc) as Hl.
  destruct (decide (t = t')) as [<-|Hne].
  - rewrite list_lookup_insert_eq in Hx by (by eapply lookup_lt_Some). simplify_eq. by rewrite Hc'.
  - rewrite list_lookup_insert_ne in Hx by done. rewrite (Hok t' x Hx), Hl. by split; intros; simplify_eq.
Qed.

(** A mutex held by a thread that exists. *)
Definition holder_exists (lock : option nat) (ps : list pc) : Prop := forall t, lock = Some t -> is_Some (ps !! t).

Lemma holder_insert lock ps t p p' : ps !! t = Some p -> holder_exists lock ps -> holder_exists lock (<[t := p']> ps).
Proof. intros Hp H t' Ht. apply lookup_lt_is_Some_2. rewrite length_insert. by apply lookup_lt_is_Some_1, H. Qed.

Lemma holder_take ps t p p' : ps !! t = Some p -> holder_exists (Some t) (<[t := p']> ps).
Proof. intros Hp t' [= <-]. apply lookup_lt_is_Some_2. rewrite length_insert. by eapply lookup_lt_Some. Qed.
End threads.
