(* ===== verification/Sbuf.v ===== *)
(** * Shared bounded buffer (lib/sbuf.h, lib/sbuf.c)

    A ring of [capacity] slots indexed with two free-running 64-bit counters,
    a mutex and two counting semaphores.  The threads that use it are step
    machines: a program point per synchronisation or memory operation of
    [sbuf_push], [sbuf_trypush], [sbuf_pop] and [sbuf_trypop], interleaved in
    any order.  A [sem_wait] that would block may be interrupted by a signal
    handler; the code ignores its result and goes on.  [sys] also records the
    values written to and read from the ring so far ([pushed], [popped]),
    against which the queue is specified.

    The last part is the interface [Buffer] for the components that use the
    buffer: a whole call as one step, the ring as its implementation, a list of
    bounded length as its specification, and the refinement between the two for
    a capacity that is a power of two. *)

From S2P Require Import Prelude Sync.

Section sbuf.
Context {V : Type}.

Record sbuf := Sbuf {
  lock : option nat;          (* the thread that holds the mutex *)
  empty : Z;
  full : Z;
  data : list (option V);     (* [None]: not initialised *)
  capacity : Z;
  read : Z;
  write : Z
}.

Definition sbuf_new (bufsize : Z) : sbuf :=
  Sbuf None (sem_init bufsize) (sem_init 0) (replicate (Z.to_nat bufsize) None) bufsize 0 0.

(** ** The macros of sbuf.h; [None] is an access outside [data] or a read of
    a slot never written *)

Definition sbuf_mask (q : sbuf) (v : Z) : Z := Z.land v (wrap64 (capacity q - 1)).

Definition sbuf_push_ (q : sbuf) (v : V) : option sbuf :=
  let i := Z.to_nat (sbuf_mask q (write q)) in
  if decide (i < length (data q))%nat then
    Some (Sbuf (lock q) (empty q) (full q) (<[i := Some v]> (data q)) (capacity q)
            (read q) (wrap64 (write q + 1)))
  else None.

Definition sbuf_pop_ (q : sbuf) : option (V * sbuf) :=
  match data q !! Z.to_nat (sbuf_mask q (read q)) with
  | Some (Some v) =>
      Some (v, Sbuf (lock q) (empty q) (full q) (data q) (capacity q)
                 (wrap64 (read q + 1)) (write q))
  | _ => None
  end.

Definition sbuf_size (q : sbuf) : Z := wrap64 (write q - read q).
Definition sbuf_empty (q : sbuf) : bool := read q =? write q.
Definition sbuf_full (q : sbuf) : bool := sbuf_size q =? capacity q.

(** ** Threads *)

Definition set_lock (q : sbuf) (l : option nat) : sbuf :=
  Sbuf l (empty q) (full q) (data q) (capacity q) (read q) (write q).
Definition set_empty (q : sbuf) (e : Z) : sbuf :=
  Sbuf (lock q) e (full q) (data q) (capacity q) (read q) (write q).
Definition set_full (q : sbuf) (f : Z) : sbuf :=
  Sbuf (lock q) (empty q) f (data q) (capacity q) (read q) (write q).

(** Program points: before [sem_wait] (or [sem_trywait], [try = true]), before
    [pthread_mutex_lock], before the ring access, before
    [pthread_mutex_unlock], before [sem_post]; [Ret r v] has returned. *)
Inductive pc :=
| Idle
| PushWait (try : bool) (v : V) | PushLock (v : V) | PushWrite (v : V) | PushUnlock (v : V) | PushPost (v : V)
| PopWait (try : bool) | PopLock | PopRead | PopUnlock (v : V) | PopPost (v : V)
| Ret (r : Z) (v : option V).

Inductive event := Silent | Pushed (v : V) | Popped (v : V).

Inductive outcome :=
| Blocked
| Undefined
| Next (q : sbuf) (p : pc) (e : event).

Definition mutex_lock (t : nat) (q : sbuf) (p : pc) : outcome :=
  match lock q with None => Next (set_lock q (Some t)) p Silent | Some _ => Blocked end.

(** [sbuf_push], and [sbuf_trypush] when [try = true].  [eintr]: a signal
    handler runs while [sem_wait] waits, which then fails; the result is not
    tested. *)
Definition push_step (eintr : bool) (t : nat) (q : sbuf) (p : pc) : outcome :=
  match p with
  | PushWait try v =>
      match sem_try (empty q) with
      | Some e => Next (set_empty q e) (PushLock v) Silent
      | None => if try then Next q (Ret (-1) None) Silent else if eintr then Next q (PushLock v) Silent else Blocked
      end
  | PushLock v => mutex_lock t q (PushWrite v)
  | PushWrite v =>
      match sbuf_push_ q v with
      | Some q => Next q (PushUnlock v) (Pushed v)
      | None => Undefined
      end
  | PushUnlock v => Next (set_lock q None) (PushPost v) Silent
  | PushPost v => Next (set_full q (sem_post (full q))) (Ret 0 None) Silent
  | _ => Blocked
  end.

(** [sbuf_pop], and [sbuf_trypop] when [try = true] *)
Definition pop_step (eintr : bool) (t : nat) (q : sbuf) (p : pc) : outcome :=
  match p with
  | PopWait try =>
      match sem_try (full q) with
      | Some f => Next (set_full q f) PopLock Silent
      | None => if try then Next q (Ret (-1) None) Silent else if eintr then Next q PopLock Silent else Blocked
      end
  | PopLock => mutex_lock t q PopRead
  | PopRead =>
      match sbuf_pop_ q with
      | Some (v, q) => Next q (PopUnlock v) (Popped v)
      | None => Undefined
      end
  | PopUnlock v => Next (set_lock q None) (PopPost v) Silent
  | PopPost v => Next (set_empty q (sem_post (empty q))) (Ret 0 (Some v)) Silent
  | _ => Blocked
  end.

Definition thread_step (eintr : bool) (t : nat) (q : sbuf) (p : pc) : outcome :=
  match p with
  | Idle => Blocked
  | Ret _ _ => Next q Idle Silent
  | PushWait _ _ | PushLock _ | PushWrite _ | PushUnlock _ | PushPost _ => push_step eintr t q p
  | PopWait _ | PopLock | PopRead | PopUnlock _ | PopPost _ => pop_step eintr t q p
  end.

(** The entry points a thread may call. *)
Definition call (p : pc) : bool :=
  match p with PushWait _ _ | PopWait _ => true | _ => false end.

Record sys := Sys { buf : sbuf; pcs : list pc; pushed : list V; popped : list V }.

Definition log (e : event) (s : sys) (q : sbuf) (ps : list pc) : sys :=
  Sys q ps (match e with Pushed v => pushed s ++ [v] | _ => pushed s end)
           (match e with Popped v => popped s ++ [v] | _ => popped s end).

(** [signals]: whether handlers run in the threads. *)
Inductive step (signals : bool) (s : sys) : sys -> Prop :=
| step_call t p :
    pcs s !! t = Some Idle -> call p = true ->
    step signals s (Sys (buf s) (<[t := p]> (pcs s)) (pushed s) (popped s))
| step_run eintr t p q p' e :
    (eintr = true -> signals = true) -> pcs s !! t = Some p -> thread_step eintr t (buf s) p = Next q p' e ->
    step signals s (log e s q (<[t := p']> (pcs s))).

Definition init (bufsize : Z) (nthreads : nat) : sys :=
  Sys (sbuf_new bufsize) (replicate nthreads Idle) [] [].

Definition reachable (signals : bool) (bufsize : Z) (nthreads : nat) (s : sys) : Prop :=
  rtc (step signals) (init bufsize nthreads) s.

(** ** Invariant *)

Definition push_reserved (p : pc) : bool :=
  match p with PushLock _ | PushWrite _ => true | _ => false end.
Definition push_done (p : pc) : bool :=
  match p with PushUnlock _ | PushPost _ => true | _ => false end.
Definition pop_reserved (p : pc) : bool :=
  match p with PopLock | PopRead => true | _ => false end.
Definition pop_done (p : pc) : bool :=
  match p with PopUnlock _ | PopPost _ => true | _ => false end.
Definition in_cs (p : pc) : bool :=
  match p with PushWrite _ | PushUnlock _ | PopRead | PopUnlock _ => true | _ => false end.

Record inv (k : Z) (s : sys) : Prop := {
  inv_k : 0 <= k <= 30;
  inv_cap : capacity (buf s) = 2 ^ k;
  inv_data : Z.of_nat (length (data (buf s))) = 2 ^ k;
  inv_write : write (buf s) = wrap64 (Z.of_nat (length (pushed s)));
  inv_read : read (buf s) = wrap64 (Z.of_nat (length (popped s)));
  inv_fifo : popped s `prefix_of` pushed s;
  inv_slots : forall i v, (length (popped s) <= i)%nat -> pushed s !! i = Some v ->
    data (buf s) !! Z.to_nat (Z.of_nat i mod 2 ^ k) = Some (Some v);
  inv_empty : 0 <= empty (buf s) /\
    empty (buf s) + cnt push_reserved (pcs s)
    + (Z.of_nat (length (pushed s)) - Z.of_nat (length (popped s))) + cnt pop_done (pcs s) = 2 ^ k;
  inv_full : 0 <= full (buf s) /\
    full (buf s) + cnt pop_reserved (pcs s) + cnt push_done (pcs s)
    = Z.of_nat (length (pushed s)) - Z.of_nat (length (popped s));
  inv_lock : lock_ok in_cs (lock (buf s)) (pcs s)
}.

Lemma pow2_cap k : 0 <= k <= 30 -> 1 <= 2 ^ k <= 2 ^ 30.
Proof. intros. split; [change 1 with (2 ^ 0)|]; apply Z.pow_le_mono_r; lia. Qed.

Lemma mask_eq (q : sbuf) k n :
  0 <= k <= 30 -> capacity q = 2 ^ k -> sbuf_mask q (wrap64 n) = n mod 2 ^ k.
Proof.
  intros Hk Hc. unfold sbuf_mask. pose proof (pow2_cap k Hk).
  rewrite Hc, (wrap64_small (2 ^ k - 1)), land_pow2_mask by lia.
  unfold wrap64. apply Z.mod_mod_divide. exists (2 ^ (64 - k)).
  rewrite <- Z.pow_add_r by lia. f_equal. lia.
Qed.

(** The ring accesses, under the invariant. *)

Lemma mod_slots_inj k i j :
  0 <= k -> i mod 2 ^ k = j mod 2 ^ k -> i <= j -> j - i < 2 ^ k -> i = j.
Proof.
  intros Hk He Hij Hd. pose proof (Z.pow_pos_nonneg 2 k ltac:(lia) Hk).
  pose proof (Z.div_mod i (2 ^ k) ltac:(lia)). pose proof (Z.div_mod j (2 ^ k) ltac:(lia)).
  assert (2 ^ k * (j / 2 ^ k - i / 2 ^ k) = j - i) by lia.
  assert (j / 2 ^ k - i / 2 ^ k = 0) by nia. nia.
Qed.

Lemma push_ok k s t v :
  inv k s -> pcs s !! t = Some (PushWrite v) ->
  exists q, sbuf_push_ (buf s) v = Some q /\
    inv k (log (Pushed v) s q (<[t := PushUnlock v]> (pcs s))).
Proof.
  intros [Hk Hc Hd Hw Hr Hf Hs He Hfu Hl] Hp.
  pose proof (pow2_cap k Hk) as Hcap.
  pose proof (cnt_pos push_reserved _ _ _ Hp eq_refl).
  pose proof (cnt_nonneg pop_done (pcs s)). pose proof (prefix_length _ _ Hf).
  unfold sbuf_push_. rewrite Hw, (mask_eq _ k) by done.
  set (n := Z.of_nat (length (pushed s))) in *.
  pose proof (Z.mod_pos_bound n (2 ^ k) ltac:(lia)).
  rewrite decide_True by lia. eexists. split; [done|].
  split; simpl; try done; rewrite ?length_app, ?length_insert, ?(cnt_insert _ _ _ _ _ Hp); simpl; try lia.
  - unfold wrap64. rewrite Zplus_mod_idemp_l. f_equal. lia.
  - by apply prefix_app_r.
  - intros i x Hi Hx. destruct (decide (i < length (pushed s))%nat) as [Hlt|Hge].
    + rewrite lookup_app_l in Hx by done. rewrite list_lookup_insert_ne; [by apply Hs|].
      intros Heq. assert (Z.of_nat i = n); [|lia]. pose proof (Z.mod_pos_bound (Z.of_nat i) (2 ^ k) ltac:(lia)).
      apply (mod_slots_inj k); lia.
    + rewrite lookup_app_r in Hx by lia. destruct (i - length (pushed s))%nat eqn:E; simpl in Hx; simplify_eq.
      replace (Z.of_nat i) with n by lia. apply list_lookup_insert_eq. lia.
  - eapply lock_ok_same; [exact Hl|exact Hp|]; done.
Qed.

Lemma pop_ok k s t :
  inv k s -> pcs s !! t = Some PopRead ->
  exists v q, sbuf_pop_ (buf s) = Some (v, q) /\
    inv k (log (Popped v) s q (<[t := PopUnlock v]> (pcs s))).
Proof.
  intros [Hk Hc Hd Hw Hr Hf Hs He Hfu Hl] Hp.
  pose proof (pow2_cap k Hk) as Hcap.
  pose proof (cnt_pos pop_reserved _ _ _ Hp eq_refl).
  pose proof (cnt_nonneg push_done (pcs s)).
  assert (length (popped s) < length (pushed s))%nat as Hlt by lia.
  destruct (lookup_lt_is_Some_2 _ _ Hlt) as [v Hv].
  unfold sbuf_pop_. rewrite Hr, (mask_eq _ k), (Hs _ v) by done.
  eexists _, _. split; [done|].
  split; simpl; try done; rewrite ?length_app, ?(cnt_insert _ _ _ _ _ Hp); simpl; try lia.
  - unfold wrap64. rewrite Zplus_mod_idemp_l. f_equal. lia.
  - destruct Hf as [r Hf]. rewrite Hf in Hv |- *. rewrite lookup_app_r, Nat.sub_diag in Hv by lia.
    destruct r; simplify_eq/=. apply prefix_app, prefix_cons, prefix_nil.
  - intros i x Hi Hx. apply Hs; [lia|done].
  - eapply lock_ok_same; [exact Hl|exact Hp|]; done.
Qed.

(** The other steps change a semaphore or the mutex. *)
Ltac sem_case Hp Hl :=
  split; simpl; try done; rewrite ?(cnt_insert _ _ _ _ _ Hp); simpl; try lia;
  first [ eapply lock_ok_same; [exact Hl|exact Hp|]; done
        | eapply lock_ok_take; [exact Hl|exact Hp|]; done
        | eapply lock_ok_release; [exact Hl|exact Hp| |]; done ].

Lemma push_step_inv k s t p q p' e :
  inv k s -> pcs s !! t = Some p -> push_step false t (buf s) p = Next q p' e ->
  inv k (log e s q (<[t := p']> (pcs s))).
Proof.
  intros Hi Hp Hstep. pose proof Hi as [Hk Hc Hd Hw Hr Hf Hs He Hfu Hl]. pose proof (pow2_cap k Hk).
  destruct p as [|try v|v|v|v|v|try| | |v|v|r v]; simpl in Hstep; try done.
  - destruct (sem_try (empty (buf s))) as [e'|] eqn:E.
    + apply sem_try_Some in E. simplify_eq. sem_case Hp Hl.
    + destruct try; simplify_eq. sem_case Hp Hl.
  - unfold mutex_lock in Hstep. destruct (lock (buf s)) eqn:?; simplify_eq. sem_case Hp Hl.
  - destruct (push_ok k s t v Hi Hp) as (q' & Hq & ?). rewrite Hq in Hstep. by simplify_eq.
  - simplify_eq. sem_case Hp Hl.
  - simplify_eq. pose proof (cnt_nonneg pop_reserved (pcs s)). pose proof (cnt_nonneg push_reserved (pcs s)).
    pose proof (cnt_pos push_done _ _ _ Hp eq_refl). pose proof (cnt_nonneg pop_done (pcs s)).
    rewrite sem_post_small by (unfold SEM_VALUE_MAX; lia). sem_case Hp Hl.
Qed.

Lemma pop_step_inv k s t p q p' e :
  inv k s -> pcs s !! t = Some p -> pop_step false t (buf s) p = Next q p' e ->
  inv k (log e s q (<[t := p']> (pcs s))).
Proof.
  intros Hi Hp Hstep. pose proof Hi as [Hk Hc Hd Hw Hr Hf Hs He Hfu Hl]. pose proof (pow2_cap k Hk).
  destruct p as [|try v|v|v|v|v|try| | |v|v|r v]; simpl in Hstep; try done.
  - destruct (sem_try (full (buf s))) as [e'|] eqn:E.
    + apply sem_try_Some in E. simplify_eq. sem_case Hp Hl.
    + destruct try; simplify_eq. sem_case Hp Hl.
  - unfold mutex_lock in Hstep. destruct (lock (buf s)) eqn:?; simplify_eq. sem_case Hp Hl.
  - destruct (pop_ok k s t Hi Hp) as (v & q' & Hq & ?). rewrite Hq in Hstep. by simplify_eq.
  - simplify_eq. sem_case Hp Hl.
  - simplify_eq. pose proof (cnt_nonneg push_reserved (pcs s)). pose proof (prefix_length _ _ Hf).
    pose proof (cnt_pos pop_done _ _ _ Hp eq_refl).
    rewrite sem_post_small by (unfold SEM_VALUE_MAX; lia). sem_case Hp Hl.
Qed.

Lemma step_inv k s s' : inv k s -> step false s s' -> inv k s'.
Proof.
  intros Hi [t p Hp Hcall|eintr t p q p' e Hsig Hp Hstep].
  - pose proof Hi as [Hk Hc Hd Hw Hr Hf Hs He Hfu Hl].
    destruct p; try done; sem_case Hp Hl.
  - destruct eintr; [by specialize (Hsig eq_refl)|]. destruct p; try (by eapply push_step_inv); try (by eapply pop_step_inv).
    pose proof Hi as [Hk Hc Hd Hw Hr Hf Hs He Hfu Hl]. simpl in Hstep. simplify_eq. sem_case Hp Hl.
Qed.

Lemma init_inv k n : 0 <= k <= 30 -> inv k (init (2 ^ k) n).
Proof.
  intros Hk. pose proof (pow2_cap k Hk).
  split; simpl; try done; rewrite ?length_replicate, ?cnt_replicate by done; unfold sem_init; rewrite ?wrap32_small by lia; try lia.
  intros t p Hp. apply lookup_replicate in Hp as [-> _]. naive_solver.
Qed.

Lemma reachable_inv k n s : 0 <= k <= 30 -> reachable false (2 ^ k) n s -> inv k s.
Proof.
  intros Hk Hr. pose proof (init_inv k n Hk) as Hi. unfold reachable in Hr.
  induction Hr; eauto using step_inv.
Qed.
End sbuf.
Arguments sbuf : clear implicits.
Arguments pc : clear implicits.
Arguments sys : clear implicits.

(** ** Progress *)

(** A thread that can only continue when another one runs. *)
Definition waits_for_room {V} (p : pc V) : Prop := exists v, p = PushWait false v.
Definition waits_for_data {V} (p : pc V) : Prop := p = PopWait false.

Section progress.
Context {V : Type}.
Implicit Types (s : sys V).

(** No thread of [s] can take a step of its own. *)
Definition stuck s : Prop :=
  forall t p, pcs s !! t = Some p -> forall q p' e, thread_step false t (buf s) p <> Next q p' e.

Lemma cs_can_step k s t p :
  inv k s -> pcs s !! t = Some p -> in_cs p = true -> exists q p' e, thread_step false t (buf s) p = Next q p' e.
Proof.
  intros Hi Hp Hc. destruct p; try done; simpl; eauto.
  - destruct (push_ok k s t v Hi Hp) as (q & -> & _). eauto.
  - destruct (pop_ok k s t Hi Hp) as (v & q & -> & _). eauto.
Qed.

(** A held mutex is held by a thread that exists. *)
Definition held s : Prop :=
  forall t, lock (buf s) = Some t -> exists p, pcs s !! t = Some p.

Lemma held_step signals s s' : held s -> step signals s s' -> held s'.
Proof.
  intros Hh [t p Hp Hcall|eintr t p q p' e Hsig Hp Hstep] t0 Hl; simpl in *.
  - destruct (Hh t0 Hl) as [p0 Hp0].
    apply lookup_lt_is_Some_2. rewrite length_insert. by eapply lookup_lt_Some.
  - apply lookup_lt_is_Some_2. rewrite length_insert.
    assert (t0 = t \/ lock (buf s) = Some t0) as [->|Hl0].
    { destruct p; simpl in Hstep; unfold mutex_lock, sem_try, sbuf_push_, sbuf_pop_ in Hstep;
        repeat case_match; simplify_eq/=; auto. }
    + by eapply lookup_lt_Some.
    + destruct (Hh t0 Hl0). by eapply lookup_lt_Some.
Qed.

Lemma reachable_held signals b n s : reachable signals b n s -> held s.
Proof.
  unfold reachable. intros Hr.
  assert (held (init b n : sys V)) as Hh by done.
  induction Hr; eauto using held_step.
Qed.

Lemma stuck_unlocked k s : inv k s -> held s -> stuck s -> lock (buf s) = None.
Proof.
  intros Hi Hh Hst. destruct (lock (buf s)) as [t|] eqn:Hl; [|done]. exfalso.
  destruct (Hh t Hl) as [p Hp]. pose proof (proj2 (inv_lock _ _ Hi t p Hp) Hl) as Hc.
  destruct (cs_can_step k s t p Hi Hp Hc) as (q & p' & e & Hn). by eapply Hst.
Qed.

(** In a stuck state every thread is idle or waits on one of the semaphores. *)
Lemma stuck_threads k s t p :
  inv k s -> held s -> stuck s -> pcs s !! t = Some p ->
  p = Idle \/ (waits_for_room p /\ empty (buf s) <= 0) \/ (waits_for_data p /\ full (buf s) <= 0).
Proof.
  intros Hi Hh Hst Hp. pose proof (stuck_unlocked k s Hi Hh Hst) as Hl. specialize (Hst t p Hp).
  destruct p; simpl in Hst; unfold mutex_lock, sem_try in Hst; rewrite ?Hl in Hst;
    try (by exfalso; eapply Hst); auto.
  - destruct (Z.ltb_spec 0 (empty (buf s))); [by exfalso; eapply Hst|].
    destruct try; [by exfalso; eapply Hst|]. right. left. split; [by eexists|done].
  - exfalso. destruct (cs_can_step k s t _ Hi Hp eq_refl) as (? & ? & ? & Hn). by eapply Hst.
  - destruct (Z.ltb_spec 0 (full (buf s))); [by exfalso; eapply Hst|].
    destruct try; [by exfalso; eapply Hst|]. by right; right.
  - exfalso. destruct (cs_can_step k s t _ Hi Hp eq_refl) as (? & ? & ? & Hn). by eapply Hst.
Qed.

Lemma stuck_counts k s :
  inv k s -> held s -> stuck s ->
  empty (buf s) = 2 ^ k - (Z.of_nat (length (pushed s)) - Z.of_nat (length (popped s))) /\
  full (buf s) = Z.of_nat (length (pushed s)) - Z.of_nat (length (popped s)).
Proof.
  intros Hi Hh Hst. pose proof (stuck_threads k s) as Hth.
  destruct (inv_empty _ _ Hi) as [_ He]. destruct (inv_full _ _ Hi) as [_ Hf].
  assert (forall P : pc V -> bool, P Idle = false -> (forall v, P (PushWait false v) = false) ->
    P (PopWait false) = false -> cnt P (pcs s) = 0) as Hz.
  { intros P H1 H2 H3. apply cnt_zero. intros t p Hp.
    destruct (Hth t p Hi Hh Hst Hp) as [->|[[[v ->] _]|[-> _]]]; auto. }
  rewrite !Hz in He, Hf by done. lia.
Qed.
End progress.

(** ** Schedules: executions given as lists of actions *)

Section schedules.
Context {V : Type}.

Inductive act := Call (t : nat) (p : pc V) | Run (t : nat) | Signal (t : nat).

Definition perform (s : sys V) (a : act) : option (sys V) :=
  match a with
  | Call t p =>
      match pcs s !! t with
      | Some Idle => if call p then Some (Sys (buf s) (<[t := p]> (pcs s)) (pushed s) (popped s)) else None
      | _ => None
      end
  | Run t =>
      p ← pcs s !! t;
      match thread_step false t (buf s) p with
      | Next q p' e => Some (log e s q (<[t := p']> (pcs s)))
      | _ => None
      end
  | Signal t =>
      p ← pcs s !! t;
      match thread_step true t (buf s) p with
      | Next q p' e => Some (log e s q (<[t := p']> (pcs s)))
      | _ => None
      end
  end.

Definition is_signal (a : act) : bool := match a with Signal _ => true | _ => false end.

Definition schedule (s : sys V) (l : list act) : option (sys V) :=
  foldl (fun o a => s ← o; perform s a) (Some s) l.

Lemma perform_step (s : sys V) a s' : perform s a = Some s' -> step (is_signal a) s s'.
Proof.
  destruct a as [t p|t|t]; simpl.
  - destruct (pcs s !! t) as [[]|] eqn:Hp; try done. destruct (call p) eqn:Hc; intros; simplify_eq.
    by apply step_call.
  - destruct (pcs s !! t) as [p|] eqn:Hp; simpl; [|done].
    destruct (thread_step false t (buf s) p) eqn:Hn; intros; simplify_eq. by eapply (step_run _ _ false).
  - destruct (pcs s !! t) as [p|] eqn:Hp; simpl; [|done].
    destruct (thread_step true t (buf s) p) eqn:Hn; intros; simplify_eq. by eapply (step_run _ _ true).
Qed.

Lemma step_signals b b' (s s' : sys V) : (b = true -> b' = true) -> step b s s' -> step b' s s'.
Proof. intros Hb [t p Hp Hc|eintr t p q p' e Hs Hp Hn]; [by apply step_call|eapply (step_run _ _ eintr); eauto]. Qed.

Lemma schedule_reachable b n l s : schedule (init b n) l = Some s -> reachable (existsb is_signal l) b n s.
Proof.
  unfold reachable, schedule. revert s. induction l as [|a l IH] using rev_ind; intros s.
  - intros [= <-]. done.
  - rewrite foldl_app, existsb_app. simpl. destruct (foldl _ _ l) as [s1|]; simpl; [|done].
    intros Hp%perform_step. eapply rtc_r.
    + eapply (rtc_subrel (step (existsb is_signal l))); [|by apply IH]. intros x y. apply step_signals. by intros ->.
    + eapply step_signals; [|exact Hp]. intros ->. by rewrite orb_true_r.
Qed.
End schedules.
Arguments act : clear implicits.

(** One call of thread [t] run to its return and acknowledged. *)
Definition whole_call {V} (t : nat) (p : pc V) : list (act V) := Call t p :: replicate 6 (Run t).

(** ** Main results *)

(** C28. The buffer is a FIFO queue under any interleaving of any number of
    threads when its capacity is a power of two (at most 2^30) and no signal
    handler interrupts a waiting thread: the values
    popped so far are, in order, the first values pushed; at most [capacity]
    values are pending; no thread accesses a slot out of range or a slot that
    was never written; and at most one thread is between lock and unlock. *)
Theorem sbuf_fifo {V} (k : Z) (n : nat) (s : sys V) :
  0 <= k <= 30 -> reachable false (2 ^ k) n s ->
  popped s `prefix_of` pushed s /\
  0 <= Z.of_nat (length (pushed s)) - Z.of_nat (length (popped s)) <= 2 ^ k /\
  (forall t p, pcs s !! t = Some p -> thread_step false t (buf s) p <> Undefined) /\
  (forall t1 t2 p1 p2, pcs s !! t1 = Some p1 -> pcs s !! t2 = Some p2 ->
     in_cs p1 = true -> in_cs p2 = true -> t1 = t2).
Proof.
  intros Hk Hr. pose proof (reachable_inv k n s Hk Hr) as Hi.
  split_and!; [by apply (inv_fifo k)| | | |].
  - pose proof (prefix_length _ _ (inv_fifo _ _ Hi)). lia.
  - destruct (inv_empty _ _ Hi). pose proof (cnt_nonneg push_reserved (pcs s)).
    pose proof (cnt_nonneg pop_done (pcs s)). lia.
  - intros t p Hp Hu. destruct p; simpl in Hu; unfold mutex_lock in Hu; repeat case_match; try done.
    + destruct (push_ok k s t v Hi Hp) as (? & ? & _). congruence.
    + destruct (pop_ok k s t Hi Hp) as (? & ? & ? & _). congruence.
  - intros t1 t2 p1 p2 H1 H2 C1 C2. apply (inv_lock _ _ Hi _ _ H1) in C1.
    apply (inv_lock _ _ Hi _ _ H2) in C2. congruence.
Qed.

Lemma sbuf_fifo_witness :
  exists s : sys Z, pushed s = [7; 8] /\ popped s = [7] /\
    popped s `prefix_of` pushed s /\
    0 <= Z.of_nat (length (pushed s)) - Z.of_nat (length (popped s)) <= 2 ^ 1 /\
    (forall t p, pcs s !! t = Some p -> thread_step false t (buf s) p <> Undefined) /\
    (forall t1 t2 p1 p2, pcs s !! t1 = Some p1 -> pcs s !! t2 = Some p2 ->
       in_cs p1 = true -> in_cs p2 = true -> t1 = t2).
Proof.
  eexists. split; [|split; [|apply (sbuf_fifo 1 2); [lia|]]].
  3: { eapply (schedule_reachable _ _ (whole_call 0%nat (PushWait false 7) ++
         whole_call 1%nat (PopWait false) ++ whole_call 1%nat (PushWait true 8))).
       vm_compute. reflexivity. }
  all: reflexivity.
Defined.

(** No deadlock: when no thread can move, a thread inside a call is a
    pusher waiting while [capacity] values are pending, or a popper waiting
    while nothing is pending; in particular pushers and poppers never wait at
    the same time. *)
Theorem sbuf_no_deadlock {V} (k : Z) (n : nat) (s : sys V) (t : nat) (p : pc V) :
  0 <= k <= 30 -> reachable false (2 ^ k) n s -> stuck s -> pcs s !! t = Some p -> p <> Idle ->
  (waits_for_room p /\ Z.of_nat (length (pushed s)) - Z.of_nat (length (popped s)) = 2 ^ k) \/
  (waits_for_data p /\ length (pushed s) = length (popped s)).
Proof.
  intros Hk Hr Hst Hp Hne. pose proof (reachable_inv k n s Hk Hr) as Hi.
  pose proof (reachable_held _ _ _ s Hr) as Hh.
  destruct (stuck_counts k s Hi Hh Hst). destruct (inv_empty _ _ Hi), (inv_full _ _ Hi).
  destruct (stuck_threads k s t p Hi Hh Hst Hp) as [?|[[? ?]|[? ?]]]; [done|left|right]; split; auto; lia.
Qed.

(** A buffer of one slot, full, with a pusher waiting. *)
Definition demo_full : sys Z :=
  Sys (Sbuf None 0 1 [Some 7] 1 0 1) [PushWait false 8; Idle] [7] [].

Lemma sbuf_no_deadlock_witness :
  (waits_for_room (PushWait false 8) /\
     Z.of_nat (length (pushed demo_full)) - Z.of_nat (length (popped demo_full)) = 2 ^ 0) \/
  (waits_for_data (PushWait false 8) /\ length (pushed demo_full) = length (popped demo_full)).
Proof.
  apply (sbuf_no_deadlock 0 2 _ 0%nat); [lia| | |reflexivity|discriminate].
  { apply (schedule_reachable _ _ (whole_call 0%nat (PushWait false 7) ++ [Call 0%nat (PushWait false 8)])).
    vm_compute. reflexivity. }
  intros [|[|t]] p Hp q p' e; simplify_eq/=; done.
Defined.

(** With a capacity that is not a power of two the mask maps different
    counters to the same slot: for the capacity 10 of the sample
    configuration, three pushes followed by a pop deliver the third value
    first, and the first value is lost. *)
Theorem sbuf_capacity_10_loses :
  exists s : sys Z, reachable false 10 1 s /\ pushed s = [1; 2; 3] /\ popped s = [3].
Proof.
  eexists. split; [|split].
  1: { eapply (schedule_reachable _ _ (whole_call 0%nat (PushWait false 1) ++ whole_call 0%nat (PushWait false 2) ++
         whole_call 0%nat (PushWait false 3) ++ whole_call 0%nat (PopWait false))).
       vm_compute. reflexivity. }
  all: reflexivity.
Qed.

(** A signal handler in a thread that waits in [sbuf_pop] makes it read a slot
    that was never written. *)
Theorem interrupted_pop_reads_unwritten :
  exists s : sys Z, reachable true 1 1 s /\ pushed s = [] /\ pcs s !! 0%nat = Some PopRead /\ thread_step false 0 (buf s) PopRead = Undefined.
Proof.
  eexists. split; [apply (schedule_reachable _ _ [Call 0%nat (PopWait false); Signal 0%nat; Run 0%nat]); vm_compute; reflexivity|].
  split_and!; reflexivity.
Qed.

(** ** The buffer as its users see it *)

(** Whole calls, one after the other; [None]: the call waits (or would access
    memory it should not, which [implements] excludes). *)
Class Buffer (Q V : Type) := { b_push : Q -> V -> option Q; b_pop : Q -> option (V * Q) }.

(** [sbuf_push], [sbuf_pop] and [sbuf_trypop] from their first to their last
    statement. *)
#[global] Instance ring {V} : Buffer (sbuf V) V := {|
  b_push q v := e ← sem_try (empty q); q ← sbuf_push_ (set_empty q e) v; Some (set_full q (sem_post (full q)));
  b_pop q := f ← sem_try (full q); '(v, q) ← sbuf_pop_ (set_full q f); Some (v, set_empty q (sem_post (empty q)))
|}.

(** The specification: a queue of at most [cap] elements. *)
Definition fifo {V} (cap : nat) : Buffer (list V) V := {|
  b_push q v := if (length q <? cap)%nat then Some (q ++ [v]) else None;
  b_pop q := match q with [] => None | v :: q => Some (v, q) end
|}.

(** [q] holds the values [xs], after [n] have been taken out. *)
Record holds {V} (k n : Z) (q : sbuf V) (xs : list V) : Prop := {
  ho_k : 0 <= k <= 30;
  ho_n : 0 <= n;
  ho_cap : capacity q = 2 ^ k;
  ho_data : Z.of_nat (length (data q)) = 2 ^ k;
  ho_read : read q = wrap64 n;
  ho_write : write q = wrap64 (n + Z.of_nat (length xs));
  ho_empty : empty q = 2 ^ k - Z.of_nat (length xs);
  ho_full : full q = Z.of_nat (length xs);
  ho_room : Z.of_nat (length xs) <= 2 ^ k;
  ho_slots : forall i v, xs !! i = Some v -> data q !! Z.to_nat ((n + Z.of_nat i) mod 2 ^ k) = Some (Some v)
}.

Lemma holds_new {V} k : 0 <= k <= 30 -> holds k 0 (sbuf_new (2 ^ k) : sbuf V) [].
Proof.
  intros Hk. pose proof (pow2_cap k Hk). split; simpl; try done; try lia; rewrite ?length_replicate; unfold sem_init; rewrite ?wrap32_small by lia; lia.
Qed.

Lemma push_holds {V} k n (q : sbuf V) xs v : holds k n q xs ->
  if (length xs <? Z.to_nat (2 ^ k))%nat then exists q', b_push q v = Some q' /\ holds k n q' (xs ++ [v]) else b_push q v = None.
Proof.
  intros [Hk Hn Hc Hd Hr Hw He Hf Hm Hs]. pose proof (pow2_cap k Hk) as Hcap. cbn [b_push ring]. unfold sem_try.
  destruct (Nat.ltb_spec (length xs) (Z.to_nat (2 ^ k))) as [Hlt|Hge]; [|by replace (0 <? empty q) with false by lia].
  replace (0 <? empty q) with true by lia. cbn [mbind option_bind]. unfold sbuf_push_. cbn [set_empty write data].
  assert (sbuf_mask (set_empty q (empty q - 1)) (write q) = (n + Z.of_nat (length xs)) mod 2 ^ k) as -> by (rewrite Hw; by apply mask_eq).
  pose proof (Z.mod_pos_bound (n + Z.of_nat (length xs)) (2 ^ k) ltac:(lia)) as Hi. rewrite decide_True by lia. cbn [mbind option_bind].
  eexists. split; [done|]. cbn [set_full]. rewrite sem_post_small by (cbn; unfold SEM_VALUE_MAX; lia).
  split; cbn; rewrite ?length_app, ?length_insert; cbn [length]; try done; try lia.
  - rewrite Hw. unfold wrap64. rewrite Zplus_mod_idemp_l. f_equal. lia.
  - intros i x Hx. destruct (decide (i < length xs)%nat) as [Hlt'|Hge].
    + rewrite lookup_app_l in Hx by done. rewrite list_lookup_insert_ne; [by apply Hs|]. intros Heq.
      pose proof (Z.mod_pos_bound (n + Z.of_nat i) (2 ^ k) ltac:(lia)). pose proof (mod_slots_inj k (n + Z.of_nat i) (n + Z.of_nat (length xs))). lia.
    + rewrite lookup_app_r in Hx by lia. destruct (i - length xs)%nat eqn:E; simpl in Hx; simplify_eq.
      replace (Z.of_nat i) with (Z.of_nat (length xs)) by lia. apply list_lookup_insert_eq. lia.
Qed.

Lemma pop_holds {V} k n (q : sbuf V) xs : holds k n q xs ->
  match xs with [] => b_pop q = None | v :: xs => exists q', b_pop q = Some (v, q') /\ holds k (n + 1) q' xs end.
Proof.
  intros [Hk Hn Hc Hd Hr Hw He Hf Hm Hs]. pose proof (pow2_cap k Hk) as Hcap. cbn [b_pop ring]. unfold sem_try.
  destruct xs as [|v xs]; cbn [length] in *; [by replace (0 <? full q) with false by lia|]. replace (0 <? full q) with true by lia. cbn [mbind option_bind].
  unfold sbuf_pop_. cbn [set_full data read].
  assert (sbuf_mask (set_full q (full q - 1)) (read q) = (n + Z.of_nat 0) mod 2 ^ k) as -> by (rewrite Hr, Z.add_0_r; by apply mask_eq).
  rewrite (Hs O v) by done. cbn [mbind option_bind]. eexists. split; [done|]. cbn [set_empty]. rewrite sem_post_small by (cbn; unfold SEM_VALUE_MAX; lia).
  split; cbn; try done; try lia.
  - rewrite Hr. unfold wrap64. rewrite Zplus_mod_idemp_l. f_equal.
  - rewrite Hw. f_equal. lia.
  - intros i x Hx. replace (n + 1 + Z.of_nat i) with (n + Z.of_nat (S i)) by lia. by apply (Hs (S i)).
Qed.

(** The ring implements the queue: after the same calls each holds the same
    values and answers the same way, waiting included. *)
Definition implements {V} (cap : nat) (q : sbuf V) (xs : list V) : Prop := exists k n, cap = Z.to_nat (2 ^ k) /\ holds k n q xs.

Lemma implements_new {V} k : 0 <= k <= 30 -> implements (Z.to_nat (2 ^ k)) (sbuf_new (2 ^ k) : sbuf V) [].
Proof. intros Hk. exists k, 0. split; [done|by apply holds_new]. Qed.

Lemma implements_push {V} cap (q : sbuf V) xs v : implements cap q xs ->
  match b_push (Buffer := fifo cap) xs v with
  | Some xs' => exists q', b_push q v = Some q' /\ implements cap q' xs'
  | None => b_push q v = None
  end.
Proof.
  intros (k & n & -> & H). pose proof (push_holds k n q xs v H) as Hp. cbn [b_push fifo]. destruct (_ <? _)%nat; [|done].
  destruct Hp as (q' & Hq & H'). exists q'. split; [done|]. by exists k, n.
Qed.

Lemma implements_pop {V} cap (q : sbuf V) xs : implements cap q xs ->
  match b_pop (Buffer := fifo cap) xs with
  | Some (v, xs') => exists q', b_pop q = Some (v, q') /\ implements cap q' xs'
  | None => b_pop q = None
  end.
Proof.
  intros (k & n & -> & H). pose proof (pop_holds k n q xs H) as Hp. cbn [b_pop fifo]. destruct xs as [|v xs]; [done|].
  destruct Hp as (q' & Hq & H'). exists q'. split; [done|]. by exists k, (n + 1).
Qed.
