(* ===== verification/Lpm.v ===== *)
(** * Longest-prefix-match tree (lib/lpm.h, lib/lpm.c)

    A path-compressed binary trie.  A [struct lpm_node] is a constructor of
    [tree] ([Nil] is a null child); the parent pointers, which always mirror
    the children, are the paths from the head, and a [struct lpm_node *] into
    the tree is such a path.  Virtual nodes carry the data -1, as in the code.
    [None] is undefined behaviour (null dereference, access outside a buffer)
    or a failed assert.  [lpm_create_node] is taken to succeed: the code
    dereferences its result unchecked. *)

From S2P Require Import Prelude Misc.

Inductive tree :=
| Nil
| Node (data : Z) (prefix : in6_addr) (plen : nat) (c0 c1 : tree).

Abbreviation path := (list bool).

Definition VIRTUAL : Z := -1.

Definition is_nil (t : tree) : bool := match t with Nil => true | _ => false end.

Definition child (t : tree) (b : bool) : option tree :=
  match t with Nil => None | Node _ _ _ c0 c1 => Some (if b then c1 else c0) end.

Fixpoint node_at (t : tree) (p : path) : option tree :=
  match p with
  | [] => match t with Nil => None | _ => Some t end
  | b :: p => c ← child t b; node_at c p
  end.

Definition set_child (t : tree) (b : bool) (c : tree) : tree :=
  match t with
  | Nil => Nil
  | Node d p l c0 c1 => if b then Node d p l c0 c else Node d p l c c1
  end.

(** Overwrite the node a pointer designates. *)
Fixpoint set_at (t : tree) (p : path) (n : tree) : tree :=
  match p with
  | [] => n
  | b :: p => match child t b with Some c => set_child t b (set_at c p n) | None => t end
  end.

Fixpoint size (t : tree) : nat :=
  match t with Nil => 0 | Node _ _ _ c0 c1 => S (size c0 + size c1) end.

Definition lpm_new : tree := Node 0 (replicate 16 0) 0 Nil Nil.

(** The 128 digits; [true] is the character '1'. *)
Definition addr_to_binary (addr : in6_addr) : list bool :=
  flat_map (fun i => map (fun j => Z.testbit (byte_at addr i) (7 - Z.of_nat j)) (seq 0 8)) (seq 0 16).

(** [prefix_bin[i] == '0' ? 0 : 1]; index 128 is the terminator. *)
Definition bin_bit (bin : list bool) (i : nat) : option bool :=
  if decide (i < 128)%nat then bin !! i else if decide (i = 128)%nat then Some true else None.

Definition match_node (node : tree) (addr : in6_addr) (cur_plen : nat) : option bool :=
  match node with
  | Nil => None
  | Node _ prefix plen _ _ =>
      if decide (plen = 0)%nat then Some true
      else if decide (cur_plen <= plen <= 128)%nat then
        Some (bool_decide (take (plen - cur_plen) (drop cur_plen (addr_to_binary prefix))
                           = take (plen - cur_plen) (drop cur_plen (addr_to_binary addr))))
      else None
  end.

(** [cur_node->children[b] && match_node(cur_node->children[b], ...)] *)
Definition child_match (c : tree) (addr : in6_addr) (cur_plen : nat) : option bool :=
  match c with Nil => Some false | _ => match_node c addr cur_plen end.

(** The loop of [__lpm_lookup]; the result is the data of [last_match]. *)
Fixpoint lookup_loop (cur : tree) (addr : in6_addr) (last_match : Z) : option Z :=
  match cur with
  | Nil => None
  | Node d _ plen c0 c1 =>
      let last_match := if d =? VIRTUAL then last_match else d in
      m0 ← child_match c0 addr plen;
      if (m0 : bool) then lookup_loop c0 addr last_match
      else
        m1 ← child_match c1 addr plen;
        if (m1 : bool) then lookup_loop c1 addr last_match
        else Some last_match
  end.

(** NULL is 0. *)
Definition lpm_lookup (t : tree) (addr : in6_addr) : option Z :=
  match t with
  | Nil => None
  | Node d _ _ _ _ => r ← lookup_loop t addr d; Some (if r =? VIRTUAL then 0 else r)
  end.

Definition plen_of (t : tree) : nat := match t with Nil => 0 | Node _ _ l _ _ => l end.

(** [cur_node->children[b] && cur_node->children[b]->plen <= plen && match_node(...)] *)
Definition child_match_le (c : tree) (prefix : in6_addr) (plen cur_plen : nat) : option bool :=
  match c with
  | Nil => Some false
  | Node _ _ l _ _ => if decide (l <= plen)%nat then match_node c prefix cur_plen else Some false
  end.

(** [__lpm_lookup_exact]: whether an entry matched, and the saved node (the
    entry itself on a match). *)
Fixpoint lookup_exact (cur : tree) (prefix : in6_addr) (plen : nat) : option (bool * path) :=
  match cur with
  | Nil => None
  | Node d _ l c0 c1 =>
      m ← match_node cur prefix 0;
      if (m : bool) && bool_decide (l = plen) && negb (d =? VIRTUAL) then Some (true, [])
      else
        m0 ← child_match_le c0 prefix plen l;
        if (m0 : bool) then '(r, p) ← lookup_exact c0 prefix plen; Some (r, false :: p)
        else
          m1 ← child_match_le c1 prefix plen l;
          if (m1 : bool) then '(r, p) ← lookup_exact c1 prefix plen; Some (r, true :: p)
          else Some (false, [])
  end.

Fixpoint cpl (b1 b2 : list bool) (maxplen : nat) : nat :=
  match maxplen, b1, b2 with
  | S n, x1 :: b1, x2 :: b2 => if Bool.eqb x1 x2 then S (cpl b1 b2 n) else O
  | _, _, _ => O
  end.

(** The texts have 128 digits and a terminator, where they agree; [None] is a
    read behind it. *)
Definition common_prefix_len (p1 p2 : in6_addr) (maxplen : nat) : option nat :=
  let i := cpl (addr_to_binary p1) (addr_to_binary p2) maxplen in
  if decide (i < 128 \/ maxplen <= 128)%nat then Some i else if decide (maxplen = 129)%nat then Some 129%nat else None.

Lemma common_prefix_len_ok p1 p2 m : (m <= 128)%nat -> common_prefix_len p1 p2 m = Some (cpl (addr_to_binary p1) (addr_to_binary p2) m).
Proof. intros H. unfold common_prefix_len. by rewrite decide_True by (by right). Qed.

Definition set_data (t : tree) (d : Z) : tree :=
  match t with Nil => Nil | Node _ p l c0 c1 => Node d p l c0 c1 end.

Definition assert (b : bool) : option unit := if b then Some tt else None.

(** The second half of [lpm_insert]: the node that replaces [child_node] as a
    child of the saved node (a new leaf, the new node above the child, or a
    virtual node above both). *)
Definition graft (prefix : in6_addr) (plen : nat) (data : Z) (child_node : tree) : option tree :=
  let new_node := Node data prefix plen Nil Nil in
  match child_node with
  | Nil => Some new_node
  | Node _ cprefix _ _ _ =>
      cplen ← common_prefix_len cprefix prefix plen;
      _ ← assert (bool_decide (0 < cplen)%nat);
      child2 ← bin_bit (addr_to_binary prefix) cplen;
      if decide (cplen = plen) then Some (set_child new_node child2 child_node)
      else
        _ ← assert (bool_decide (cplen < plen)%nat);
        Some (set_child (set_child (Node VIRTUAL prefix cplen Nil Nil) child2 new_node) (negb child2) child_node)
  end.

(** The saved node after the insertion below or at it. *)
Definition insert_at (save : tree) (prefix : in6_addr) (plen : nat) (data : Z) : option tree :=
  match save with
  | Nil => None
  | Node d _ l _ _ =>
      if decide (l = plen) then
        _ ← assert (d =? VIRTUAL); Some (set_data save data)
      else
        b ← bin_bit (addr_to_binary prefix) l;
        child_node ← child save b;
        c ← graft prefix plen data child_node; Some (set_child save b c)
  end.

Definition lpm_insert (t : tree) (prefix : in6_addr) (plen : nat) (data : Z) : option tree :=
  '(found, save) ← lookup_exact t prefix plen;
  node ← node_at t save;
  if (found : bool) then Some (set_at t save (set_data node data))
  else n ← insert_at node prefix plen data; Some (set_at t save n).

Definition optimize_virtual_plen (node : tree) : option tree :=
  match node with
  | Node d p l ((Node _ p0 l0 _ _) as c0) ((Node _ p1 l1 _ _) as c1) =>
      cplen ← common_prefix_len p0 p1 (l0 `min` l1)%nat;
      _ ← assert (bool_decide (l <= cplen)%nat);
      if decide (cplen = l) then Some node else Some (Node d p0 cplen c0 c1)
  | _ => Some node
  end.

Definition merge_child (node : tree) : tree :=
  match node with
  | Node _ _ _ (Node d p l c0 c1) Nil | Node _ _ _ Nil (Node d p l c0 c1) => Node d p l c0 c1
  | _ => node
  end.

(** [optimize_virtual_empty]: the node leaves its parent's children. *)
Definition optimize_virtual_empty (t : tree) (p : path) : option (tree * path) :=
  match rev p with
  | [] => None                          (* the head has no parent *)
  | b :: rp =>
      let parent := rev rp in
      n ← node_at t parent; Some (set_at t parent (set_child n b Nil), parent)
  end.

Fixpoint optimize_virtual (fuel : nat) (t : tree) (p : path) : option tree :=
  match fuel with
  | O => None
  | S fuel =>
      node ← node_at t p;
      match node with
      | Nil => None
      | Node d _ _ c0 c1 =>
          if negb (d =? VIRTUAL) then Some t
          else
            match is_nil c0, is_nil c1 with
            | false, false => n ← optimize_virtual_plen node; Some (set_at t p n)
            | true, true =>
                '(t, parent) ← optimize_virtual_empty t p; optimize_virtual fuel t parent
            | _, _ => optimize_virtual fuel (set_at t p (merge_child node)) p
            end
      end
  end.

(** [lpm_delete_node]: the removed data and the new tree. *)
Definition lpm_delete_node (t : tree) (p : path) : option (Z * tree) :=
  node ← node_at t p;
  match node with
  | Nil => None
  | Node d _ _ _ _ =>
      t' ← optimize_virtual (S (size t)) (set_at t p (set_data node VIRTUAL)) p; Some (d, t')
  end.

Definition lpm_delete (t : tree) (prefix : in6_addr) (plen : nat) : option (Z * tree) :=
  '(found, p) ← lookup_exact t prefix plen;
  if (found : bool) then lpm_delete_node t p else Some (0, t).

(** [lpm_destroy_node] empties both children before it frees the node; the
    list is the order of the frees. *)
Fixpoint lpm_destroy_node (t : tree) : list (in6_addr * nat) :=
  match t with
  | Nil => []
  | Node _ p l c0 c1 => lpm_destroy_node c0 ++ lpm_destroy_node c1 ++ [(p, l)]
  end.

Definition lpm_destroy (t : tree) : list (in6_addr * nat) :=
  match t with
  | Nil => []
  | Node _ _ _ c0 c1 => lpm_destroy_node c0 ++ lpm_destroy_node c1
  end.

(** ** The table a tree represents, and its invariant *)

Definition pfx (p : in6_addr) (l : nat) : list bool := take l (addr_to_binary p).

Definition pfx_of (t : tree) : list bool :=
  match t with Nil => [] | Node _ p l _ _ => pfx p l end.

Definition data_of (t : tree) : Z := match t with Nil => VIRTUAL | Node d _ _ _ _ => d end.

Definition own (d : Z) (k : list bool) : gmap (list bool) Z :=
  if d =? VIRTUAL then ∅ else {[k := d]}.

(** The entries: prefix bits to data, real nodes only. *)
Fixpoint routes (t : tree) : gmap (list bool) Z :=
  match t with
  | Nil => ∅
  | Node d p l c0 c1 => own d (pfx p l) ∪ (routes c0 ∪ routes c1)
  end.

(** Every node extends [q]; a child on side [b] extends its parent's prefix
    followed by [b]; a virtual node has two children. *)
Fixpoint placed (q : list bool) (t : tree) : Prop :=
  match t with
  | Nil => True
  | Node d p l c0 c1 =>
      (l <= 128)%nat /\ q `prefix_of` pfx p l /\
      (d = VIRTUAL -> is_nil c0 = false /\ is_nil c1 = false) /\
      placed (pfx p l ++ [false]) c0 /\ placed (pfx p l ++ [true]) c1
  end.

(** The head is a real node of length 0 (data NULL when there is no default). *)
Definition wf (t : tree) : Prop :=
  placed [] t /\ t <> Nil /\ plen_of t = 0%nat /\ data_of t <> VIRTUAL.

#[global] Instance placed_dec q t : Decision (placed q t).
Proof. revert q. induction t; intros q; simpl; apply _. Defined.

#[global] Instance tree_eq_dec : EqDecision tree.
Proof. solve_decision. Defined.

#[global] Instance wf_dec t : Decision (wf t).
Proof. unfold wf. apply _. Defined.

(** ** Bit lists *)

Lemma length_binary a : length (addr_to_binary a) = 128%nat.
Proof. reflexivity. Qed.

Lemma length_pfx p l : (l <= 128)%nat -> length (pfx p l) = l.
Proof. intros. unfold pfx. rewrite length_take, length_binary. lia. Qed.

Lemma prefix_take_iff (k a : list bool) : k `prefix_of` a <-> k = take (length k) a.
Proof.
  split; [|intros ->; apply prefix_take].
  intros [r ->]. by rewrite take_app_length.
Qed.

Lemma pfx_prefix p l a : (l <= 128)%nat -> pfx p l `prefix_of` addr_to_binary a <-> pfx p l = pfx a l.
Proof. intros. rewrite prefix_take_iff, length_pfx by done. done. Qed.

Lemma prefix_take_le (k : list bool) n m : (n <= m)%nat -> take n k `prefix_of` take m k.
Proof. intros. rewrite <- (Nat.min_l n m), <- take_take by done. apply prefix_take. Qed.

Lemma prefix_of_take (k a : list bool) m : k `prefix_of` a -> (length k <= m)%nat -> k `prefix_of` take m a.
Proof. intros Hk ?. rewrite prefix_take_iff in Hk. rewrite Hk. by apply prefix_take_le. Qed.

Lemma snoc_prefix (k a : list bool) b :
  k ++ [b] `prefix_of` a <-> k `prefix_of` a /\ a !! length k = Some b.
Proof.
  split.
  - intros [r ->]. rewrite <- app_assoc. split; [by apply prefix_app_r|]. by apply list_lookup_middle.
  - intros [[r ->] Hl]. rewrite lookup_app_r, Nat.sub_diag in Hl by done.
    destruct r; simplify_eq/=. apply prefix_app, prefix_cons, prefix_nil.
Qed.

Lemma prefix_cases (k a : list bool) :
  k `prefix_of` a -> a = k \/ exists b, k ++ [b] `prefix_of` a.
Proof.
  intros [[|b r] ->]; [left; by rewrite app_nil_r|right].
  exists b. apply prefix_app, prefix_cons, prefix_nil.
Qed.

Lemma prefix_len_eq (k a : list bool) : k `prefix_of` a -> (length a <= length k)%nat -> a = k.
Proof. intros [r ->]. rewrite length_app. destruct r; simpl; [by rewrite app_nil_r|lia]. Qed.

(** Comparing the bits between two lengths. *)
Lemma slice_match (x y : list bool) l l' :
  take l x = take l y -> (l <= l')%nat ->
  take (l' - l) (drop l x) = take (l' - l) (drop l y) <-> take l' x = take l' y.
Proof.
  intros Ht Hl. replace (take l' x) with (take l x ++ take (l' - l) (drop l x)).
  2: { rewrite take_take_drop. f_equal. lia. }
  replace (take l' y) with (take l y ++ take (l' - l) (drop l y)).
  2: { rewrite take_take_drop. f_equal. lia. }
  rewrite Ht. split; [by intros ->|by apply app_inv_head].
Qed.

(** ** Entries and placement *)

Lemma own_lookup d k k' :
  own d k !! k' = if decide (k = k') then (if d =? VIRTUAL then None else Some d) else None.
Proof.
  unfold own. destruct (d =? VIRTUAL); [by rewrite lookup_empty; case_decide|].
  case_decide; simplify_eq; [apply lookup_singleton_eq|by apply lookup_singleton_ne].
Qed.

Lemma routes_keys t q k d :
  placed q t -> routes t !! k = Some d -> q `prefix_of` k /\ pfx_of t `prefix_of` k /\ d <> VIRTUAL.
Proof.
  revert q k d. induction t as [|d0 p l c0 IH0 c1 IH1]; intros q k d; simpl; [by rewrite lookup_empty|].
  intros (Hl & Hq & _ & H0 & H1) Hk.
  assert (pfx p l `prefix_of` k /\ d <> VIRTUAL) as [? ?]; [|split_and!; [by etrans|done..]].
  apply lookup_union_Some_raw in Hk as [Hk|[_ [Hk|[_ Hk]]%lookup_union_Some_raw]].
  - rewrite own_lookup in Hk. case_decide; simplify_eq.
    destruct (Z.eqb_spec d0 VIRTUAL); by simplify_eq.
  - destruct (IH0 _ _ _ H0 Hk) as (?%snoc_prefix & _ & ?). tauto.
  - destruct (IH1 _ _ _ H1 Hk) as (?%snoc_prefix & _ & ?). tauto.
Qed.

Lemma routes_outside t q k : placed q t -> ~ q `prefix_of` k -> routes t !! k = None.
Proof.
  intros Hp Hq. destruct (routes t !! k) eqn:E; [|done].
  by destruct (routes_keys t q k _ Hp E).
Qed.

Definition sub (b : bool) (c0 c1 : tree) : tree := if b then c1 else c0.

Lemma placed_sub q d p l c0 c1 b : placed q (Node d p l c0 c1) -> placed (pfx p l ++ [b]) (sub b c0 c1).
Proof. simpl. destruct b; tauto. Qed.

Lemma snoc_prefix_inj (k a : list bool) b b' : k ++ [b] `prefix_of` a -> k ++ [b'] `prefix_of` a -> b = b'.
Proof. rewrite !snoc_prefix. intros [_ H1] [_ H2]. congruence. Qed.

(** Lookup in the entries of a node: its own prefix, one of its sides, or
    nothing. *)
Lemma routes_own q d p l c0 c1 :
  placed q (Node d p l c0 c1) ->
  routes (Node d p l c0 c1) !! pfx p l = if d =? VIRTUAL then None else Some d.
Proof.
  intros Hp. cbn [routes]. rewrite !lookup_union, own_lookup, decide_True by done.
  rewrite (routes_outside c0 _ _ (placed_sub _ _ _ _ _ _ false Hp) (prefix_snoc_not _ _)).
  rewrite (routes_outside c1 _ _ (placed_sub _ _ _ _ _ _ true Hp) (prefix_snoc_not _ _)).
  by destruct (d =? VIRTUAL).
Qed.

Lemma routes_sub q d p l c0 c1 b k :
  placed q (Node d p l c0 c1) -> pfx p l ++ [b] `prefix_of` k ->
  routes (Node d p l c0 c1) !! k = routes (sub b c0 c1) !! k.
Proof.
  intros Hp Hk. cbn [routes]. rewrite !lookup_union, own_lookup, decide_False.
  2: { intros <-. by eapply prefix_snoc_not. }
  pose proof (routes_outside (sub (negb b) c0 c1) _ k (placed_sub _ _ _ _ _ _ (negb b) Hp)) as Ho.
  assert (~ pfx p l ++ [negb b] `prefix_of` k) as Hn.
  { intros Hk'. pose proof (snoc_prefix_inj _ _ _ _ Hk Hk'). by destruct b. }
  specialize (Ho Hn). destruct b; simpl in *; rewrite Ho.
  - by destruct (routes c1 !! k).
  - by destruct (routes c0 !! k).
Qed.

Lemma routes_none q t k : placed q t -> ~ pfx_of t `prefix_of` k -> routes t !! k = None.
Proof.
  intros Hp Hq. destruct (routes t !! k) eqn:E; [|done].
  by destruct (routes_keys t q k _ Hp E) as (_ & ? & _).
Qed.

(** A subtree that is not empty holds an entry. *)
Lemma routes_inhabited t q : placed q t -> t <> Nil -> exists k d, routes t !! k = Some d.
Proof.
  revert q. induction t as [|d p l c0 IH0 c1 IH1]; intros q Hp Hne; [done|].
  destruct (Z.eqb_spec d VIRTUAL) as [->|Hd].
  - pose proof Hp as (_ & _ & Hv & H0 & _). destruct (Hv eq_refl) as [Hc _].
    destruct (IH0 _ H0) as (k & d & Hk); [by destruct c0|]. exists k, d.
    rewrite (routes_sub q _ _ _ _ _ false); [done|done|].
    by destruct (routes_keys _ _ _ _ H0 Hk).
  - exists (pfx p l), d. rewrite (routes_own q) by done. destruct (Z.eqb_spec d VIRTUAL); done.
Qed.

(** ** Replacing a node *)

Lemma placed_weaken q q' t : q' `prefix_of` q -> placed q t -> placed q' t.
Proof. destruct t; simpl; [done|]. intros ? (? & ? & ? & ? & ?). split_and!; try done. by etrans. Qed.

Lemma node_at_placed t q sv n :
  placed q t -> node_at t sv = Some n -> exists q', placed q' n.
Proof.
  revert t q. induction sv as [|b sv IH]; intros t q Hp Hn.
  - destruct t; simplify_eq/=. by exists q.
  - destruct t as [|d p l c0 c1]; [done|]. simpl in Hn. by apply (IH _ _ (placed_sub _ _ _ _ _ _ b Hp)).
Qed.

(** The tree with another node [n'] in the place of [n]. *)
Lemma placed_set_child q d p l c0 c1 b c :
  placed q (Node d p l c0 c1) -> placed (pfx p l ++ [b]) c -> is_nil c = false ->
  placed q (set_child (Node d p l c0 c1) b c).
Proof.
  simpl. intros (? & ? & Hv & ? & ?) Hc Hn. destruct b; simpl; split_and!; try done; naive_solver.
Qed.

Lemma is_nil_set_at t sv n : is_nil n = false -> node_at t sv <> None -> is_nil (set_at t sv n) = false.
Proof. destruct sv as [|[] sv], t; simpl; done. Qed.

Lemma set_at_placed t sv n n' q :
  placed q t -> node_at t sv = Some n -> is_nil n' = false ->
  (forall q', placed q' n -> placed q' n') -> placed q (set_at t sv n').
Proof.
  intros Hp Hn Hn' Hw. revert t q Hp Hn. induction sv as [|b sv IH]; intros t q Hp Hn.
  - destruct t; simplify_eq/=; auto.
  - destruct t as [|d p l c0 c1]; [done|]. change (node_at (sub b c0 c1) sv = Some n) in Hn.
    change (placed q (set_child (Node d p l c0 c1) b (set_at (sub b c0 c1) sv n'))).
    apply placed_set_child; [done| |].
    + apply IH; [by apply (placed_sub q d)|done].
    + apply is_nil_set_at; [done|congruence].
Qed.

(** Entries after a change confined to the key [k]. *)
Lemma routes_set_child q d p l c0 c1 b c k g :
  placed q (Node d p l c0 c1) -> placed (pfx p l ++ [b]) c -> pfx p l ++ [b] `prefix_of` k ->
  routes c = partial_alter g k (routes (sub b c0 c1)) ->
  routes (set_child (Node d p l c0 c1) b c) = partial_alter g k (routes (Node d p l c0 c1)).
Proof.
  intros Hp Hc Hk Hr.
  assert (own d (pfx p l) !! k = None) as Ho.
  { rewrite own_lookup, decide_False; [done|]. intros <-. by eapply prefix_snoc_not. }
  assert (routes (sub (negb b) c0 c1) !! k = None) as Hs.
  { apply (routes_outside _ _ _ (placed_sub _ _ _ _ _ _ (negb b) Hp)).
    intros Hk'. pose proof (snoc_prefix_inj (pfx p l) k _ _ Hk Hk'). by destruct b. }
  apply map_eq. intros i. destruct (decide (i = k)) as [->|Hi].
  - rewrite lookup_partial_alter_eq.
    destruct b; simpl in *; rewrite !lookup_union, Hr, lookup_partial_alter_eq, Ho.
    + rewrite Hs. by rewrite !(left_id_L None (∪)).
    + rewrite Hs. by rewrite !(left_id_L None (∪)), !(right_id_L None (∪)).
  - rewrite lookup_partial_alter_ne by done.
    destruct b; simpl in *; rewrite !lookup_union, Hr, lookup_partial_alter_ne by done; done.
Qed.

Lemma node_at_prefix t q sv n : placed q t -> node_at t sv = Some n -> sv <> [] ->
  pfx_of t `prefix_of` pfx_of n.
Proof.
  revert t q. induction sv as [|b sv IH]; intros t q Hp Hn Hne; [done|].
  destruct t as [|d p l c0 c1]; [done|]. change (node_at (sub b c0 c1) sv = Some n) in Hn.
  pose proof (placed_sub _ _ _ _ _ _ b Hp) as Hb.
  assert (pfx p l ++ [b] `prefix_of` pfx_of (sub b c0 c1)) as Hpre.
  { destruct (sub b c0 c1); [by destruct sv|]. by destruct Hb as (_ & ? & _). }
  etrans; [by eapply prefix_app_l|]. destruct sv as [|b' sv].
  - destruct (sub b c0 c1); by simplify_eq/=.
  - by eapply IH.
Qed.

Lemma set_at_routes t sv n n' q k g :
  placed q t -> node_at t sv = Some n -> is_nil n' = false ->
  (forall q', placed q' n -> placed q' n') -> pfx_of n `prefix_of` k ->
  routes n' = partial_alter g k (routes n) ->
  routes (set_at t sv n') = partial_alter g k (routes t).
Proof.
  intros Hp Hn Hn' Hw Hk Hr. revert t q Hp Hn. induction sv as [|b sv IH]; intros t q Hp Hn.
  - destruct t; by simplify_eq/=.
  - destruct t as [|d p l c0 c1]; [done|]. change (node_at (sub b c0 c1) sv = Some n) in Hn.
    change (routes (set_child (Node d p l c0 c1) b (set_at (sub b c0 c1) sv n')) = partial_alter g k (routes (Node d p l c0 c1))).
    pose proof (placed_sub _ _ _ _ _ _ b Hp) as Hb.
    apply (routes_set_child q); [done| | |by eapply IH].
    + by eapply set_at_placed.
    + trans (pfx_of n); [|done]. trans (pfx_of (sub b c0 c1)).
      * destruct (sub b c0 c1); [by destruct sv|]. by destruct Hb as (_ & ? & _).
      * destruct sv as [|b' sv]; [destruct (sub b c0 c1); by simplify_eq/=|by eapply node_at_prefix].
Qed.

(** ** Lookup *)

Lemma child_match_spec c p l b addr :
  (l <= 128)%nat -> placed (pfx p l ++ [b]) c -> pfx p l `prefix_of` addr_to_binary addr -> c <> Nil ->
  child_match c addr l = Some (bool_decide (pfx_of c `prefix_of` addr_to_binary addr)) /\ (l < plen_of c <= 128)%nat.
Proof.
  intros Hl Hc Ha Hne. destruct c as [|d p' l' c0 c1]; [done|]. simpl in *.
  destruct Hc as (Hl' & Hpre & _).
  pose proof (prefix_length _ _ Hpre) as Hlen. rewrite length_app, !length_pfx in Hlen by done. simpl in Hlen.
  apply prefix_app_l in Hpre. rewrite pfx_prefix in Ha by done.
  rewrite prefix_take_iff, length_pfx in Hpre by done. split; [|lia].
  rewrite decide_False, decide_True by lia. f_equal. apply bool_decide_ext.
  rewrite pfx_prefix by done. apply slice_match; [|lia]. unfold pfx in *. rewrite <- Ha, Hpre, take_take. f_equal. lia.
Qed.

(** What a walk of a subtree finds: the longest entry matching [a], else
    what was found before. *)
Definition longest (R : gmap (list bool) Z) (a : list bool) (last d : Z) : Prop :=
  (exists n, (n <= 128)%nat /\ R !! take n a = Some d /\
     forall m, (n < m <= 128)%nat -> R !! take m a = None) \/
  (d = last /\ forall m, (m <= 128)%nat -> R !! take m a = None).

Lemma longest_node q d p l c0 c1 b addr last r :
  placed q (Node d p l c0 c1) -> pfx p l ++ [b] `prefix_of` addr_to_binary addr ->
  longest (routes (sub b c0 c1)) (addr_to_binary addr) (if d =? VIRTUAL then last else d) r ->
  longest (routes (Node d p l c0 c1)) (addr_to_binary addr) last r.
Proof.
  intros Hp Hb Hl. pose proof Hp as (Hlen & _).
  set (a := addr_to_binary addr) in *.
  assert (forall m, (l < m <= 128)%nat -> routes (Node d p l c0 c1) !! take m a = routes (sub b c0 c1) !! take m a) as Hgt.
  { intros m Hm. apply (routes_sub q); [done|]. apply prefix_of_take; [done|].
    rewrite length_app, length_pfx by done. simpl. lia. }
  assert (forall m, (m <= l)%nat -> routes (sub b c0 c1) !! take m a = None) as Hle.
  { intros m Hm. apply (routes_outside _ _ _ (placed_sub _ _ _ _ _ _ b Hp)).
    intros Hx%prefix_length. rewrite length_app, length_take, length_pfx in Hx by done. simpl in Hx. lia. }
  assert (take l a = pfx p l) as Htl.
  { symmetry. apply (pfx_prefix p l addr); [done|]. by eapply prefix_app_l. }
  destruct Hl as [(n & Hn & Hr & Hmax)|[-> Hnone]].
  - left. exists n. split; [done|]. assert (l < n)%nat.
    { destruct (decide (l < n)%nat); [done|]. rewrite Hle in Hr by lia. done. }
    split; [by rewrite Hgt|]. intros m Hm. rewrite Hgt by lia. by apply Hmax.
  - pose proof (routes_own q d p l c0 c1 Hp) as Ho.
    destruct (d =? VIRTUAL) eqn:Ed.
    + right. split; [done|]. intros m Hm. destruct (decide (l < m)%nat); [rewrite Hgt by lia; by apply Hnone|].
      destruct (decide (m = l)) as [->|]; [by rewrite Htl|].
      apply (routes_none q); [done|]. intros Hx%prefix_length. simpl in Hx.
      rewrite length_take, length_pfx in Hx by done. lia.
    + left. exists l. split; [done|]. rewrite Htl. split; [done|]. intros m Hm. rewrite Hgt by lia. apply Hnone. lia.
Qed.

Lemma sub_no_match q d p l c0 c1 b addr :
  placed q (Node d p l c0 c1) -> ~ (sub b c0 c1 <> Nil /\ pfx_of (sub b c0 c1) `prefix_of` addr_to_binary addr) ->
  forall m, routes (sub b c0 c1) !! take m (addr_to_binary addr) = None.
Proof.
  intros Hp Hn m. destruct (decide (sub b c0 c1 = Nil)) as [->|Hne]; [apply lookup_empty|].
  apply (routes_none _ _ _ (placed_sub _ _ _ _ _ _ b Hp)). intros Hx. apply Hn. split; [done|].
  etrans; [exact Hx|apply prefix_take].
Qed.

Lemma longest_leaf d p l c0 c1 addr last :
  (l <= 128)%nat -> pfx p l `prefix_of` addr_to_binary addr ->
  (forall b m, routes (sub b c0 c1) !! take m (addr_to_binary addr) = None) ->
  longest (routes (Node d p l c0 c1)) (addr_to_binary addr) last (if d =? VIRTUAL then last else d).
Proof.
  intros Hl Ha Hn. rewrite pfx_prefix in Ha by done.
  assert (forall m, routes (Node d p l c0 c1) !! take m (addr_to_binary addr)
            = own d (pfx p l) !! take m (addr_to_binary addr)) as Hr.
  { intros m. cbn [routes]. pose proof (Hn false m) as H0. pose proof (Hn true m) as H1. simpl in H0, H1.
    rewrite !lookup_union, H0, H1. by destruct (own d (pfx p l) !! _). }
  destruct (d =? VIRTUAL) eqn:Ed.
  - right. split; [done|]. intros m _. rewrite Hr, own_lookup, Ed. by case_decide.
  - left. exists l. split; [done|]. rewrite Hr, own_lookup, Ha, Ed, decide_True by done. split; [done|].
    intros m Hm. rewrite Hr, own_lookup, decide_False; [done|].
    intros Hx. apply (f_equal length) in Hx. rewrite length_pfx, length_take, length_binary in Hx by done. lia.
Qed.

Definition side_matches (c : tree) (addr : in6_addr) : Prop :=
  c <> Nil /\ pfx_of c `prefix_of` addr_to_binary addr.

#[global] Instance side_matches_dec c addr : Decision (side_matches c addr) := and_dec _ _.

Lemma child_match_side q d p l c0 c1 b addr :
  placed q (Node d p l c0 c1) -> pfx p l `prefix_of` addr_to_binary addr ->
  child_match (sub b c0 c1) addr l = Some (bool_decide (side_matches (sub b c0 c1) addr)).
Proof.
  intros Hp Ha. pose proof (placed_sub _ _ _ _ _ _ b Hp) as Hb. destruct Hp as (Hl & _).
  destruct (decide (sub b c0 c1 = Nil)) as [E|E]; [rewrite E; symmetry; f_equal; by apply bool_decide_false; intros []|].
  rewrite (proj1 (child_match_spec _ p l b addr Hl Hb Ha E)). f_equal.
  apply bool_decide_ext. unfold side_matches. tauto.
Qed.

Lemma side_snoc q d p l c0 c1 b addr :
  placed q (Node d p l c0 c1) -> side_matches (sub b c0 c1) addr -> pfx p l ++ [b] `prefix_of` addr_to_binary addr.
Proof.
  intros Hp [Hne Hm]. etrans; [|exact Hm]. pose proof (placed_sub _ _ _ _ _ _ b Hp) as Hb.
  destruct (sub b c0 c1); [done|]. by destruct Hb as (_ & ? & _).
Qed.

Lemma lookup_loop_spec t : forall q addr last,
  placed q t -> t <> Nil -> pfx_of t `prefix_of` addr_to_binary addr ->
  exists r, lookup_loop t addr last = Some r /\ longest (routes t) (addr_to_binary addr) last r.
Proof.
  induction t as [|d p l c0 IH0 c1 IH1]; intros q addr last Hp Hne Ha; [done|].
  pose proof (child_match_side q d p l c0 c1 false addr Hp Ha) as M0.
  pose proof (child_match_side q d p l c0 c1 true addr Hp Ha) as M1.
  cbn [lookup_loop]. simpl sub in M0, M1. rewrite M0, M1. cbn [mbind option_bind].
  pose proof (placed_sub _ _ _ _ _ _ false Hp) as P0. pose proof (placed_sub _ _ _ _ _ _ true Hp) as P1.
  destruct (decide (side_matches c0 addr)) as [S0|S0];
    [rewrite (bool_decide_true _ S0)|rewrite (bool_decide_false _ S0);
      destruct (decide (side_matches c1 addr)) as [S1|S1];
      [rewrite (bool_decide_true _ S1)|rewrite (bool_decide_false _ S1)]].
  - destruct (IH0 _ addr (if d =? VIRTUAL then last else d) P0 (proj1 S0) (proj2 S0)) as (r & Hr & Hl).
    exists r. split; [done|]. apply (longest_node q _ _ _ _ _ false); [done|by eapply (side_snoc q d p l c0 c1 false)|done].
  - destruct (IH1 _ addr (if d =? VIRTUAL then last else d) P1 (proj1 S1) (proj2 S1)) as (r & Hr & Hl).
    exists r. split; [done|]. apply (longest_node q _ _ _ _ _ true); [done|by eapply (side_snoc q d p l c0 c1 true)|done].
  - eexists. split; [done|]. apply longest_leaf; [by destruct Hp|done|].
    intros b. apply (sub_no_match q d p l c0 c1 b addr Hp). by destruct b.
Qed.

(** ** Exact lookup: where an entry is, or where it belongs *)

Lemma match_node_0 q t prefix :
  placed q t -> t <> Nil -> match_node t prefix 0 = Some (bool_decide (pfx_of t = pfx prefix (plen_of t))).
Proof.
  destruct t as [|d p l c0 c1]; [done|]. intros (Hl & _) _. simpl.
  destruct (decide (l = 0)%nat) as [->|]; [done|].
  rewrite decide_True by lia. f_equal. apply bool_decide_ext. unfold pfx. by rewrite Nat.sub_0_r.
Qed.

Lemma child_match_le_side q d p l c0 c1 b prefix plen :
  placed q (Node d p l c0 c1) -> pfx p l `prefix_of` addr_to_binary prefix ->
  child_match_le (sub b c0 c1) prefix plen l =
    Some (bool_decide (side_matches (sub b c0 c1) prefix /\ (plen_of (sub b c0 c1) <= plen)%nat)).
Proof.
  intros Hp Ha. pose proof (child_match_side q d p l c0 c1 b prefix Hp Ha) as Hc.
  destruct (sub b c0 c1) as [|d' p' l' ? ?] eqn:E; [done|].
  cbn [child_match child_match_le plen_of] in *. case_decide.
  - rewrite Hc. f_equal. apply bool_decide_ext. tauto.
  - symmetry. f_equal. apply bool_decide_false. tauto.
Qed.

(** No child of [n] lies on the way to [prefix/plen]. *)
Definition last_on_path (n : tree) (prefix : in6_addr) (plen : nat) : Prop :=
  match n with
  | Nil => False
  | Node _ _ _ c0 c1 =>
      forall b, ~ (side_matches (sub b c0 c1) prefix /\ (plen_of (sub b c0 c1) <= plen)%nat)
  end.

Lemma node_at_cons d p l c0 c1 b sv n :
  node_at (sub b c0 c1) sv = Some n -> node_at (Node d p l c0 c1) (b :: sv) = Some n.
Proof. done. Qed.

Lemma lookup_exact_spec t : forall q prefix plen,
  placed q t -> t <> Nil -> pfx_of t `prefix_of` addr_to_binary prefix -> (plen_of t <= plen <= 128)%nat ->
  exists found sv n, lookup_exact t prefix plen = Some (found, sv) /\ node_at t sv = Some n /\
    pfx_of n `prefix_of` addr_to_binary prefix /\ (plen_of n <= plen)%nat /\
    found = bool_decide (plen_of n = plen /\ data_of n <> VIRTUAL) /\
    (found = false -> last_on_path n prefix plen).
Proof.
  induction t as [|d p l c0 IH0 c1 IH1]; intros q prefix plen Hp Hne Ha Hle; [done|].
  cbn [lookup_exact]. rewrite (match_node_0 q) by done. cbn [mbind option_bind].
  simpl in Ha, Hle. pose proof Hp as (Hl & _).
  rewrite bool_decide_true by (by apply (pfx_prefix p l prefix)). cbn [andb].
  destruct (decide (l = plen /\ d <> VIRTUAL)) as [[-> Hd]|Hno].
  { rewrite bool_decide_true, (proj2 (Z.eqb_neq _ _) Hd) by done. simpl.
    exists true, [], (Node d p plen c0 c1). split_and!; try done. by rewrite bool_decide_true. }
  replace (bool_decide (l = plen) && negb (d =? VIRTUAL)) with false.
  2: { symmetry. apply andb_false_iff. rewrite bool_decide_eq_false, negb_false_iff, Z.eqb_eq.
       destruct (decide (l = plen)), (decide (d = VIRTUAL)); tauto. }
  pose proof (child_match_le_side q d p l c0 c1 false prefix plen Hp Ha) as M0.
  pose proof (child_match_le_side q d p l c0 c1 true prefix plen Hp Ha) as M1.
  simpl sub in M0, M1. rewrite M0, M1. cbn [mbind option_bind].
  pose proof (placed_sub _ _ _ _ _ _ false Hp) as P0. pose proof (placed_sub _ _ _ _ _ _ true Hp) as P1.
  destruct (decide (side_matches c0 prefix /\ (plen_of c0 <= plen)%nat)) as [S0|S0];
    [rewrite (bool_decide_true _ S0)|rewrite (bool_decide_false _ S0);
      destruct (decide (side_matches c1 prefix /\ (plen_of c1 <= plen)%nat)) as [S1|S1];
      [rewrite (bool_decide_true _ S1)|rewrite (bool_decide_false _ S1)]].
  - destruct S0 as [[? ?] ?]. destruct (IH0 _ prefix plen P0) as (f & sv & n & -> & ? & ?); [done..|lia|].
    by exists f, (false :: sv), n.
  - destruct S1 as [[? ?] ?]. destruct (IH1 _ prefix plen P1) as (f & sv & n & -> & ? & ?); [done..|lia|].
    by exists f, (true :: sv), n.
  - exists false, [], (Node d p l c0 c1). split_and!; [done|done|done|simpl; lia|by rewrite bool_decide_false|].
    intros _ b. by destruct b.
Qed.

(** ** Insertion *)

Lemma cpl_spec x y m :
  (m <= length x)%nat -> (m <= length y)%nat ->
  (cpl x y m <= m)%nat /\ take (cpl x y m) x = take (cpl x y m) y /\
  ((cpl x y m < m)%nat -> x !! cpl x y m <> y !! cpl x y m).
Proof.
  revert x y. induction m as [|m IH]; intros x y Hx Hy.
  { destruct x, y; simpl; split_and!; done || lia. }
  destruct x as [|a x], y as [|b y]; simpl in *; try lia.
  destruct (Bool.eqb a b) eqn:E.
  - apply eqb_prop in E as ->. destruct (IH x y) as (? & Ht & Hn); [lia..|].
    split_and!; [lia|by simpl; rewrite Ht|]. intros. apply Hn. lia.
  - split_and!; [lia|done|]. intros _ [= ->]. by rewrite eqb_reflx in E.
Qed.

Lemma cpl_max x y m j : (j <= m)%nat -> (j <= length x)%nat -> take j x = take j y -> (j <= cpl x y m)%nat.
Proof.
  revert x y j. induction m as [|m IH]; intros x y [|j] Hj Hx Ht; try lia.
  destruct x as [|a x], y as [|b y]; simpl in *; simplify_eq; try lia.
  rewrite eqb_reflx. apply le_n_S, IH; [lia|lia|done].
Qed.

Lemma bin_bit_lookup a i : (i < 128)%nat -> exists b, bin_bit (addr_to_binary a) i = Some b /\ addr_to_binary a !! i = Some b.
Proof.
  intros Hi. unfold bin_bit. rewrite decide_True by done.
  destruct (lookup_lt_is_Some_2 (addr_to_binary a) i) as [b Hb]; [by rewrite length_binary|]. eauto.
Qed.

Lemma pfx_snoc a l l' b : (l < l' <= 128)%nat -> addr_to_binary a !! l = Some b -> pfx a l ++ [b] `prefix_of` pfx a l'.
Proof.
  intros Hl Hb. apply snoc_prefix. rewrite length_pfx by lia. split; [apply prefix_take_le; lia|].
  unfold pfx. rewrite lookup_take. by rewrite decide_True by lia.
Qed.

Lemma insert_partial_alter {A} (m : gmap (list bool) A) k d : <[k := d]> m = partial_alter (fun _ => Some d) k m.
Proof. done. Qed.

(** The routes under [prefix/plen] continue with the bit of [prefix] that
    follows the prefix: the side on which [lpm_insert] hangs them. *)
Definition in_line (R : gmap (list bool) Z) (prefix : in6_addr) (plen : nat) : Prop :=
  forall k d, R !! k = Some d -> pfx prefix plen `prefix_of` k -> (plen < length k)%nat ->
    k !! plen = addr_to_binary prefix !! plen.


Lemma graft_above q d' p' l' c0 c1 prefix plen data b :
  let cn := Node d' p' l' c0 c1 in
  placed q cn -> q `prefix_of` pfx prefix plen -> (plen < l')%nat -> data <> VIRTUAL ->
  pfx p' plen = pfx prefix plen -> addr_to_binary prefix !! plen = Some b -> in_line (routes cn) prefix plen ->
  placed q (set_child (Node data prefix plen Nil Nil) b cn) /\
  routes (set_child (Node data prefix plen Nil Nil) b cn) = <[pfx prefix plen := data]> (routes cn).
Proof.
  intros cn Hp Hq Hl Hd He Hb Hline. pose proof Hp as (Hl' & ? & ? & ? & ?).
  assert (pfx prefix plen ++ [b] `prefix_of` pfx p' l') as Hpre.
  { destruct (routes_inhabited cn q Hp) as (k & d & Hk); [done|].
    destruct (routes_keys cn q k d Hp Hk) as (_ & Hpk & _). simpl in Hpk.
    pose proof (prefix_length _ _ Hpk) as Hlen. rewrite length_pfx in Hlen by done.
    assert (pfx prefix plen `prefix_of` k) as Hk' by (rewrite <- He; etrans; [apply prefix_take_le|exact Hpk]; lia).
    apply snoc_prefix. rewrite length_pfx by lia. split; [rewrite <- He; apply prefix_take_le; lia|].
    assert (k !! plen = Some b) as Hkb by (rewrite (Hline k d Hk Hk'); [done|lia]).
    rewrite prefix_take_iff in Hpk. rewrite Hpk, length_pfx, lookup_take, decide_True by lia. done. }
  assert (placed (pfx prefix plen ++ [b]) cn) as Hpc.
  { destruct Hp as (? & ? & ? & ? & ?). split_and!; done. }
  split.
  - destruct b; simpl; split_and!; done || lia.
  - assert (own data (pfx prefix plen) = {[pfx prefix plen := data]}) as Ho.
    { unfold own. by destruct (Z.eqb_spec data VIRTUAL). }
    rewrite insert_union_singleton_l.
    destruct b; cbn [set_child routes]; rewrite Ho; fold (routes cn).
    + by rewrite (left_id_L ∅ (∪)).
    + by rewrite (right_id_L ∅ (∪)).
Qed.

Lemma graft_fork q d' p' l' c0 c1 prefix plen data n b :
  let cn := Node d' p' l' c0 c1 in
  placed q cn -> q `prefix_of` pfx prefix n -> (n < plen <= 128)%nat -> (n < l')%nat -> data <> VIRTUAL ->
  pfx p' n = pfx prefix n -> addr_to_binary prefix !! n = Some b -> addr_to_binary p' !! n = Some (negb b) ->
  let new := set_child (set_child (Node VIRTUAL prefix n Nil Nil) b (Node data prefix plen Nil Nil)) (negb b) cn in
  placed q new /\ routes new = <[pfx prefix plen := data]> (routes cn).
Proof.
  intros cn Hp Hq Hn Hl Hd He Hb Hb' new. pose proof Hp as (Hl' & ? & ? & ? & ?).
  assert (pfx prefix n ++ [negb b] `prefix_of` pfx p' l') as Hpre.
  { rewrite <- He. apply pfx_snoc; [lia|done]. }
  assert (placed (pfx prefix n ++ [negb b]) cn) as Hpc.
  { destruct Hp as (? & ? & ? & ? & ?). split_and!; done. }
  assert (placed (pfx prefix n ++ [b]) (Node data prefix plen Nil Nil)) as Hpn.
  { simpl. split_and!; try done; [lia|]. apply pfx_snoc; [lia|done]. }
  assert (own data (pfx prefix plen) = {[pfx prefix plen := data]}) as Ho.
  { unfold own. by destruct (Z.eqb_spec data VIRTUAL). }
  assert (routes cn !! pfx prefix plen = None) as Hnone.
  { apply (routes_outside _ _ _ Hpc). rewrite snoc_prefix, length_pfx by lia. intros [_ Hx].
    unfold pfx in Hx. rewrite lookup_take, decide_True in Hx by lia. rewrite Hx in Hb. by destruct b. }
  unfold new. split.
  - destruct b; cbn [set_child negb placed] in *; split_and!; done || lia || (by apply pfx_snoc; [lia|]).
  - rewrite insert_union_singleton_l. destruct b; cbn [set_child negb routes] in *; fold (routes cn) in *;
      rewrite Ho, !(right_id_L ∅ (∪)); cbn; rewrite !(left_id_L ∅ (∪)); [|done].
    apply map_union_comm, map_disjoint_singleton_r. done.
Qed.

Lemma graft_spec q cn prefix plen data :
  placed q cn -> q `prefix_of` pfx prefix plen -> (0 < length q)%nat -> (plen <= 128)%nat -> data <> VIRTUAL ->
  ~ (side_matches cn prefix /\ (plen_of cn <= plen)%nat) -> in_line (routes cn) prefix plen ->
  exists c, graft prefix plen data cn = Some c /\ is_nil c = false /\ placed q c /\
    routes c = <[pfx prefix plen := data]> (routes cn).
Proof.
  intros Hp Hq Hq0 Hplen Hd Hno Hline. destruct cn as [|d' p' l' c0 c1].
  { eexists. split; [done|]. split; [done|]. split; [simpl; by split_and!|].
    simpl. unfold own. destruct (Z.eqb_spec data VIRTUAL); [done|]. by rewrite !(right_id_L ∅ (∪)). }
  pose proof Hp as (Hl' & Hq' & _). unfold graft. rewrite common_prefix_len_ok by done. cbn [mbind option_bind].
  set (cplen := cpl (addr_to_binary p') (addr_to_binary prefix) plen).
  destruct (cpl_spec (addr_to_binary p') (addr_to_binary prefix) plen) as (Hc1 & Hc2 & Hc3);
    [by rewrite length_binary..|]. fold cplen in Hc1, Hc2, Hc3.
  assert (length q <= plen)%nat as Hql.
  { apply prefix_length in Hq. by rewrite length_pfx in Hq. }
  assert (length q <= cplen)%nat as Hqc.
  { apply cpl_max; [done|rewrite length_binary; lia|].
    apply prefix_take_iff in Hq', Hq. unfold pfx in Hq, Hq'.
    rewrite take_take in Hq, Hq'. rewrite Nat.min_l in Hq by done.
    pose proof (f_equal length Hq') as Hx. rewrite length_take, length_binary in Hx.
    rewrite Nat.min_l in Hq' by lia. congruence. }
  assert (cplen < l')%nat as Hcl.
  { destruct (decide (cplen < l')%nat); [done|]. exfalso. apply Hno. split; [split; [done|]|simpl; lia].
    apply pfx_prefix; [done|]. unfold pfx. rewrite <- (Nat.min_l l' cplen), <- !take_take by lia. by rewrite Hc2. }
  rewrite (bool_decide_true (0 < cplen)%nat) by lia. cbn [assert mbind option_bind].
  destruct (bin_bit_lookup prefix cplen) as (b & -> & Hb); [lia|]. cbn [mbind option_bind].
  destruct (decide (cplen = plen)) as [E|E].
  - eexists. split; [done|]. split; [by destruct b|]. rewrite E in *.
    by apply graft_above.
  - rewrite bool_decide_true by lia. cbn [assert mbind option_bind].
    eexists. split; [done|]. split; [by destruct b|].
    destruct (bin_bit_lookup p' cplen) as (b' & _ & Hb'); [lia|].
    assert (b' = negb b) as ->.
    { assert (b' <> b) by (intros ->; apply Hc3; [lia|congruence]). by destruct b, b'. }
    apply graft_fork; try done; [|lia].
    apply prefix_of_take; [|done]. etrans; [exact Hq|apply prefix_take].
Qed.

Lemma set_data_spec n data :
  data <> VIRTUAL -> n <> Nil ->
  (forall q, placed q n -> placed q (set_data n data)) /\
  forall q, placed q n -> routes (set_data n data) = <[pfx_of n := data]> (routes n).
Proof.
  intros Hd Hn. destruct n as [|d p l c0 c1]; [done|].
  assert (forall q, placed q (Node d p l c0 c1) -> placed q (Node data p l c0 c1)) as Hw.
  { simpl. intros q (? & ? & ? & ? & ?). by split_and!. }
  split; [done|]. intros q Hp. simpl. unfold own. destruct (Z.eqb_spec data VIRTUAL); [done|].
  rewrite <- insert_union_singleton_l. destruct (Z.eqb_spec d VIRTUAL).
  - by rewrite (left_id_L ∅ (∪)).
  - by rewrite <- insert_union_singleton_l, insert_insert_eq.
Qed.

Lemma in_line_sub q d p l c0 c1 b prefix plen :
  placed q (Node d p l c0 c1) -> in_line (routes (Node d p l c0 c1)) prefix plen ->
  in_line (routes (sub b c0 c1)) prefix plen.
Proof.
  intros Hp Hline k x Hk. apply (Hline k x).
  destruct (routes_keys _ _ _ _ (placed_sub _ _ _ _ _ _ b Hp) Hk) as (? & _). by rewrite (routes_sub q _ _ _ _ _ b).
Qed.

Lemma in_line_node_at t q sv n prefix plen :
  placed q t -> node_at t sv = Some n -> in_line (routes t) prefix plen -> in_line (routes n) prefix plen.
Proof.
  revert t q. induction sv as [|b sv IH]; intros t q Hp Hn Hline.
  - destruct t; by simplify_eq/=.
  - destruct t as [|d p l c0 c1]; [done|]. change (node_at (sub b c0 c1) sv = Some n) in Hn.
    eapply IH; [by eapply (placed_sub q d)|done|by eapply in_line_sub].
Qed.

Lemma insert_at_spec q n prefix plen data :
  placed q n -> n <> Nil -> pfx_of n `prefix_of` addr_to_binary prefix -> (plen_of n <= plen <= 128)%nat ->
  data <> VIRTUAL -> ~ (plen_of n = plen /\ data_of n <> VIRTUAL) -> last_on_path n prefix plen ->
  in_line (routes n) prefix plen ->
  exists n', insert_at n prefix plen data = Some n' /\ is_nil n' = false /\
    (forall q', placed q' n -> placed q' n') /\ plen_of n' = plen_of n /\
    (data_of n <> VIRTUAL -> data_of n' <> VIRTUAL) /\
    routes n' = <[pfx prefix plen := data]> (routes n).
Proof.
  intros Hp Hne Ha Hle Hd Hno Hlast Hline. destruct n as [|d p l c0 c1]; [done|].
  simpl in Ha, Hle, Hno. pose proof Hp as (Hl & _). cbn [insert_at].
  assert (pfx p l = pfx prefix l) as He by (by apply pfx_prefix).
  destruct (decide (l = plen)) as [->|Hneq].
  - assert (d = VIRTUAL) as -> by (destruct (decide (d = VIRTUAL)); tauto).
    eexists. split; [done|]. destruct (set_data_spec (Node VIRTUAL p plen c0 c1) data) as [Hw Hr]; [done..|].
    split_and!; [done|done|done|done|]. rewrite (Hr q Hp). simpl. by rewrite He.
  - destruct (bin_bit_lookup prefix l) as (b & -> & Hb); [lia|]. cbn [mbind option_bind].
    change (child (Node d p l c0 c1) b) with (Some (sub b c0 c1)). cbn [mbind option_bind].
    assert (pfx p l ++ [b] `prefix_of` pfx prefix plen) as Hpre.
    { rewrite He. apply pfx_snoc; [lia|done]. }
    destruct (graft_spec (pfx p l ++ [b]) (sub b c0 c1) prefix plen data) as (c & Hg & Hnil & Hpc & Hrc);
      [by eapply placed_sub|done|rewrite length_app; simpl; lia|lia|done|apply Hlast|by eapply in_line_sub|].
    rewrite Hg. cbn [mbind option_bind]. eexists. split; [done|].
    split_and!; [by destruct b| |by destruct b|by destruct b|].
    + intros q' Hq'. by apply placed_set_child.
    + by apply (routes_set_child q).
Qed.

Lemma wf_set_at t sv n n' :
  wf t -> node_at t sv = Some n -> is_nil n' = false -> (forall q', placed q' n -> placed q' n') ->
  (sv = [] -> plen_of n' = plen_of n /\ data_of n' <> VIRTUAL) -> wf (set_at t sv n').
Proof.
  intros (Hp & Hne & Hl & Hd) Hn Hnil Hw Hhead. split; [by eapply set_at_placed|].
  destruct t as [|d p l c0 c1]; [done|]. destruct sv as [|b sv]; simplify_eq/=.
  - destruct Hhead as [? ?]; [done|]. split_and!; [by destruct n'|congruence|done].
  - by destruct b.
Qed.

Lemma node_at_nil t sv n : node_at t sv = Some n -> n <> Nil.
Proof.
  revert t. induction sv as [|b sv IH]; intros t; simpl; [by destruct t; intros; simplify_eq|].
  destruct (child t b); simpl; [apply IH|done].
Qed.

Lemma lpm_insert_wf t prefix plen data :
  wf t -> (plen <= 128)%nat -> data <> VIRTUAL -> in_line (routes t) prefix plen ->
  exists t', lpm_insert t prefix plen data = Some t' /\ wf t' /\
    routes t' = <[pfx prefix plen := data]> (routes t).
Proof.
  intros W Hplen Hd Hline. pose proof W as (Hp & Hne & Hl & Hdh).
  destruct (lookup_exact_spec t [] prefix plen) as (found & sv & n & He & Hn & Ha & Hle & Hf & Hlast); [done|done| |lia|].
  { destruct t; simpl in *; [done|]. subst. apply prefix_nil. }
  unfold lpm_insert. rewrite He. cbn [mbind option_bind]. rewrite Hn. cbn [mbind option_bind].
  destruct (node_at_placed t [] sv n Hp Hn) as [q Hq]. pose proof (node_at_nil _ _ _ Hn) as Hnn.
  destruct found.
  - symmetry in Hf. apply bool_decide_eq_true in Hf as [Hpl Hdn].
    destruct (set_data_spec n data Hd Hnn) as [Hw Hr]. eexists. split; [done|].
    assert (pfx_of n = pfx prefix plen) as Hpn.
    { destruct n; [done|]. simpl in *. subst. by apply pfx_prefix. }
    assert (is_nil (set_data n data) = false) by (by destruct n).
    split; [eapply wf_set_at; eauto; by destruct n|].
    rewrite insert_partial_alter. apply (set_at_routes _ _ n _ []); [done..|by rewrite Hpn|].
    by rewrite (Hr q Hq), Hpn.
  - symmetry in Hf. apply bool_decide_eq_false in Hf.
    destruct (insert_at_spec q n prefix plen data) as (n' & Hi & Hnil & Hw & Hpl & Hdd & Hr);
      [done|done|done|lia|done|done|by apply Hlast|by apply (in_line_node_at t [] sv)|].
    rewrite Hi. cbn [mbind option_bind]. eexists. split; [done|]. split.
    + eapply wf_set_at; eauto. intros ->. split; [done|]. apply Hdd. destruct t; by simplify_eq/=.
    + rewrite insert_partial_alter. apply (set_at_routes _ _ n _ []); [done..| |done].
      destruct n as [|? p l ? ?]; [done|]. simpl in Ha, Hle. assert (l <= 128)%nat as Hl' by lia.
      apply prefix_of_take; [done|]. simpl. rewrite length_pfx by done. done.
Qed.

(** ** Deletion *)

Lemma routes_node_at t q sv n k :
  placed q t -> node_at t sv = Some n -> pfx_of n `prefix_of` k -> routes t !! k = routes n !! k.
Proof.
  revert t q. induction sv as [|b sv IH]; intros t q Hp Hn Hk.
  - destruct t; by simplify_eq/=.
  - destruct t as [|d p l c0 c1]; [done|]. change (node_at (sub b c0 c1) sv = Some n) in Hn.
    pose proof (placed_sub _ _ _ _ _ _ b Hp) as Hb. rewrite <- (IH _ _ Hb Hn Hk).
    apply (routes_sub q); [done|]. etrans; [|exact Hk]. trans (pfx_of (sub b c0 c1)).
    + destruct (sub b c0 c1); [by destruct sv|]. by destruct Hb as (_ & ? & _).
    + destruct sv as [|b' sv]; [destruct (sub b c0 c1); by simplify_eq/=|by eapply node_at_prefix].
Qed.

Lemma not_found_none q n prefix plen :
  placed q n -> pfx_of n `prefix_of` addr_to_binary prefix -> (plen_of n <= plen <= 128)%nat ->
  ~ (plen_of n = plen /\ data_of n <> VIRTUAL) -> last_on_path n prefix plen ->
  routes n !! pfx prefix plen = None.
Proof.
  intros Hp Ha Hle Hno Hlast. destruct n as [|d p l c0 c1]; [done|]. simpl in Ha, Hle, Hno.
  assert (pfx p l = pfx prefix l) as He by (apply pfx_prefix; [lia|done]).
  destruct (decide (l = plen)) as [->|Hneq].
  - rewrite <- He, (routes_own q) by done. destruct (Z.eqb_spec d VIRTUAL); tauto.
  - destruct (bin_bit_lookup prefix l) as (b & _ & Hb); [lia|].
    rewrite (routes_sub q _ _ _ _ _ b); [|done|rewrite He; apply pfx_snoc; [lia|done]].
    destruct (routes (sub b c0 c1) !! pfx prefix plen) eqn:E; [|done]. exfalso.
    destruct (routes_keys _ _ _ _ (placed_sub _ _ _ _ _ _ b Hp) E) as (_ & Hk & _).
    apply (Hlast b). pose proof (prefix_length _ _ Hk) as Hlen. rewrite length_pfx in Hlen by lia.
    pose proof (placed_sub _ _ _ _ _ _ b Hp) as Hb'.
    destruct (sub b c0 c1) as [|? ? l' ? ?]; [by simpl in E; rewrite lookup_empty in E|].
    simpl in *. rewrite length_pfx in Hlen by tauto.
    split; [split; [done|etrans; [exact Hk|apply prefix_take]]|done].
Qed.

Lemma node_at_set_at t sv n n' : node_at t sv = Some n -> is_nil n' = false -> node_at (set_at t sv n') sv = Some n'.
Proof.
  revert t. induction sv as [|b sv IH]; intros t Hn Hn'; [by destruct n'|].
  destruct t as [|d p l c0 c1]; [done|]. destruct b; simpl in *; by apply IH.
Qed.

Lemma set_at_set_at t sv n a b : node_at t sv = Some n -> set_at (set_at t sv a) sv b = set_at t sv b.
Proof.
  revert t. induction sv as [|x sv IH]; intros t Hn; [done|].
  destruct t as [|d p l c0 c1]; [done|]. destruct x; simpl in *; by rewrite IH.
Qed.

Lemma set_at_same t sv n : node_at t sv = Some n -> set_at t sv n = t.
Proof.
  revert t. induction sv as [|x sv IH]; intros t Hn; [destruct t; by simplify_eq/=|].
  destruct t as [|d p l c0 c1]; [done|]. destruct x; simpl in *; by rewrite IH.
Qed.

Lemma node_at_snoc t sv b n :
  node_at t (sv ++ [b]) = Some n -> exists parent, node_at t sv = Some parent /\ child parent b = Some n /\
    forall n', set_at t (sv ++ [b]) n' = set_at t sv (set_child parent b n').
Proof.
  revert t. induction sv as [|x sv IH]; intros t Hn.
  - destruct t as [|d p l c0 c1]; [done|]. exists (Node d p l c0 c1). split_and!; [done| |done].
    simpl in *. destruct (if b then c1 else c0); by simplify_eq/=.
  - destruct t as [|d p l c0 c1]; [done|].
    destruct (IH (sub x c0 c1) Hn) as (parent & Hp & Hc & Hs). exists parent. split_and!; [done..|].
    intros n'. destruct x; simpl in *; by rewrite Hs.
Qed.

Lemma node_at_size t sv n : node_at t sv = Some n -> (length sv + size n <= size t)%nat.
Proof.
  revert t. induction sv as [|x sv IH]; intros t Hn; [destruct t; by simplify_eq/=|].
  destruct t as [|d p l c0 c1]; [done|]. specialize (IH _ Hn). destruct x; simpl in *; lia.
Qed.

(** A node that satisfies the invariant is left alone. *)
Lemma virtual_plen_ok q n : placed q n -> optimize_virtual_plen n = Some n.
Proof.
  destruct n as [|d p l [|d0 p0 l0 ? ?] [|d1 p1 l1 ? ?]]; try done.
  intros (Hl & _ & _ & (Hl0 & H0 & _) & (Hl1 & H1 & _)). simpl.
  apply snoc_prefix in H0 as [H0 B0], H1 as [H1 B1]. rewrite length_pfx in B0, B1 by done.
  unfold pfx in B0, B1. rewrite lookup_take in B0, B1.
  destruct (decide (l < l0)%nat), (decide (l < l1)%nat); try done.
  assert (take l (addr_to_binary p0) = take l (addr_to_binary p1)) as Ht.
  { rewrite prefix_take_iff, length_pfx in H0, H1 by done. unfold pfx in H0, H1.
    rewrite take_take, Nat.min_l in H0, H1 by lia. congruence. }
  set (m := (l0 `min` l1)%nat).
  destruct (cpl_spec (addr_to_binary p0) (addr_to_binary p1) m) as (Hc1 & Hc2 & Hc3); [rewrite length_binary; lia..|].
  rewrite common_prefix_len_ok by lia. cbn [mbind option_bind]. set (cl := cpl (addr_to_binary p0) (addr_to_binary p1) m) in *.
  assert (l <= cl)%nat as Hge by (apply cpl_max; [lia|rewrite length_binary; lia|done]).
  assert (cl = l) as ->.
  { destruct (decide (l < cl)%nat) as [Hlt|]; [|lia]. exfalso.
    apply (f_equal (.!! l)) in Hc2. rewrite !lookup_take in Hc2. rewrite !decide_True in Hc2 by done. congruence. }
  rewrite bool_decide_true by done. simpl. by rewrite decide_True.
Qed.

Lemma optimize_settled f t sv n q :
  node_at t sv = Some n -> placed q n -> optimize_virtual (S f) t sv = Some t.
Proof.
  intros Hn Hp. cbn [optimize_virtual]. rewrite Hn. cbn [mbind option_bind].
  pose proof (node_at_nil _ _ _ Hn). destruct n as [|d p l c0 c1]; [done|].
  destruct (Z.eqb_spec d VIRTUAL) as [->|]; [|done]. cbn [negb].
  pose proof Hp as (_ & _ & Hv & _). destruct (Hv eq_refl) as [-> ->].
  rewrite (virtual_plen_ok q) by done. simpl. by rewrite set_at_same.
Qed.

(** A virtual node with one child is replaced by it. *)
Lemma optimize_merge f t sv p l c0 c1 b q :
  node_at t sv = Some (Node VIRTUAL p l c0 c1) -> sub (negb b) c0 c1 = Nil -> is_nil (sub b c0 c1) = false ->
  placed q (sub b c0 c1) ->
  optimize_virtual (S (S f)) t sv = Some (set_at t sv (sub b c0 c1)).
Proof.
  intros Hn Hnil Hc Hp. cbn [optimize_virtual]. rewrite Hn.
  assert (merge_child (Node VIRTUAL p l c0 c1) = sub b c0 c1) as Hm.
  { destruct b; simpl in *; subst; [by destruct c1|by destruct c0]. }
  pose proof (node_at_set_at t sv _ (sub b c0 c1) Hn Hc) as Hs.
  pose proof (optimize_settled f _ _ _ q Hs Hp) as Ho. cbn [optimize_virtual] in Ho.
  cbn [mbind option_bind]. rewrite Z.eqb_refl. cbn [negb]. rewrite Hm.
  destruct b; simpl in Hnil, Hc; subst; rewrite Hc; cbn [is_nil]; exact Ho.
Qed.

Lemma delete_own q d p l c0 c1 :
  placed q (Node d p l c0 c1) ->
  routes c0 ∪ routes c1 = delete (pfx p l) (routes (Node d p l c0 c1)).
Proof.
  intros Hp. pose proof (routes_outside c0 _ _ (placed_sub _ _ _ _ _ _ false Hp) (prefix_snoc_not _ _)) as H0.
  pose proof (routes_outside c1 _ _ (placed_sub _ _ _ _ _ _ true Hp) (prefix_snoc_not _ _)) as H1.
  apply map_eq. intros i. destruct (decide (i = pfx p l)) as [->|Hi].
  - by rewrite lookup_delete_eq, lookup_union, H0, H1.
  - rewrite lookup_delete_ne by done. cbn [routes]. rewrite !lookup_union, own_lookup, decide_False by done.
    by rewrite (left_id_L None (∪)).
Qed.

(** Removal of a leaf from its parent. *)
Lemma routes_drop_leaf q d p l c0 c1 b d' p' l' :
  placed q (Node d p l c0 c1) -> sub b c0 c1 = Node d' p' l' Nil Nil ->
  routes (set_child (Node d p l c0 c1) b Nil) = delete (pfx p' l') (routes (Node d p l c0 c1)).
Proof.
  intros Hp Hs. pose proof (placed_sub _ _ _ _ _ _ b Hp) as Hb. rewrite Hs in Hb.
  apply (routes_set_child q); [done|done|by destruct Hb as (_ & ? & _)|].
  rewrite Hs. pose proof (delete_own _ _ _ _ _ _ Hb) as Hd. simpl in *.
  by rewrite (left_id_L ∅ (∪)) in Hd.
Qed.

Lemma set_child_twice t b x y : set_child (set_child t b x) b y = set_child t b y.
Proof. by destruct t, b. Qed.

Lemma is_nil_set_child t b x : is_nil (set_child t b x) = is_nil t.
Proof. by destruct t, b. Qed.

(** The entry's own node goes away or becomes virtual. *)
Lemma delete_inner t sv d p l c0 c1 :
  wf t -> node_at t sv = Some (Node d p l c0 c1) -> sv <> [] ->
  is_nil c0 = false \/ is_nil c1 = false ->
  exists t', optimize_virtual (S (size t)) (set_at t sv (Node VIRTUAL p l c0 c1)) sv = Some t' /\
    wf t' /\ routes t' = delete (pfx p l) (routes t).
Proof.
  intros W Hn Hsv Hc. pose proof W as (Hp & _).
  destruct (node_at_placed _ _ _ _ Hp Hn) as [q Hq]. pose proof Hq as (? & ? & ? & ? & ?).
  pose proof (delete_own _ _ _ _ _ _ Hq) as Hd. pose proof (node_at_size _ _ _ Hn) as Hsz. simpl in Hsz.
  assert (forall n', is_nil n' = false -> (forall q', placed q' (Node d p l c0 c1) -> placed q' n') ->
    routes n' = routes c0 ∪ routes c1 ->
    wf (set_at t sv n') /\ routes (set_at t sv n') = delete (pfx p l) (routes t)) as Hgo.
  { intros n' Hn' Hw Hr. split; [by eapply wf_set_at|]. apply (set_at_routes _ _ _ _ [] _ _ Hp Hn Hn' Hw); [done|].
    by rewrite Hr, Hd. }
  pose proof (node_at_set_at t sv _ (Node VIRTUAL p l c0 c1) Hn eq_refl) as Hv.
  destruct (is_nil c0) eqn:E0, (is_nil c1) eqn:E1; [naive_solver| | |].
  - destruct c0; [|done]. destruct sv as [|b0 sv]; [done|]. destruct (size t) as [|f] eqn:Es; [simpl in Hsz; lia|].
    rewrite (optimize_merge f _ _ p l Nil c1 true (pfx p l ++ [true]) Hv); [|done..].
    rewrite (set_at_set_at _ _ _ _ _ Hn). simpl sub. eexists. split; [done|]. apply Hgo; [done| |].
    + intros q' (_ & ? & _ & _ & Hp1). eapply placed_weaken; [|exact Hp1]. by apply prefix_app_r.
    + simpl. by rewrite (left_id_L ∅ (∪)).
  - destruct c1; [|done]. destruct sv as [|b0 sv]; [done|]. destruct (size t) as [|f] eqn:Es; [simpl in Hsz; lia|].
    rewrite (optimize_merge f _ _ p l c0 Nil false (pfx p l ++ [false]) Hv); [|done..].
    rewrite (set_at_set_at _ _ _ _ _ Hn). simpl sub. eexists. split; [done|]. apply Hgo; [done| |].
    + intros q' (_ & ? & _ & Hp0 & _). eapply placed_weaken; [|exact Hp0]. by apply prefix_app_r.
    + simpl. by rewrite (right_id_L ∅ (∪)).
  - assert (forall q', placed q' (Node d p l c0 c1) -> placed q' (Node VIRTUAL p l c0 c1)) as Hw.
    { intros q' (? & ? & ? & ? & ?). by split_and!. }
    rewrite (optimize_settled _ _ _ _ q Hv (Hw q Hq)). eexists. split; [done|]. apply Hgo; [done|done|].
    cbn. by rewrite (left_id_L ∅ (∪)).
Qed.

Lemma node_at_down t sv b parent n :
  node_at t sv = Some parent -> child parent b = Some n -> n <> Nil -> node_at t (sv ++ [b]) = Some n.
Proof.
  revert t. induction sv as [|x sv IH]; intros t Ht Hc Hn; destruct t as [|d p l c0 c1]; try done.
  - simplify_eq/=. by destruct (if b then c1 else c0).
  - by apply IH.
Qed.

Lemma optimize_leaf f t sv b parent d p l :
  node_at t sv = Some parent -> child parent b = Some (Node d p l Nil Nil) ->
  optimize_virtual (S f) (set_at t sv (set_child parent b (Node VIRTUAL p l Nil Nil))) (sv ++ [b]) =
  optimize_virtual f (set_at t sv (set_child parent b Nil)) sv.
Proof.
  intros Hn Hc. pose proof (node_at_nil _ _ _ Hn) as Hnn.
  set (par1 := set_child parent b (Node VIRTUAL p l Nil Nil)).
  assert (is_nil par1 = false) as Hnil by (unfold par1; rewrite is_nil_set_child; by destruct parent).
  pose proof (node_at_set_at t sv parent par1 Hn Hnil) as Hp1.
  assert (node_at (set_at t sv par1) (sv ++ [b]) = Some (Node VIRTUAL p l Nil Nil)) as Hl.
  { apply (node_at_down _ _ _ par1); [done| |done]. subst par1. by destruct parent, b. }
  cbn [optimize_virtual]. rewrite Hl. cbn [mbind option_bind].
  change (VIRTUAL =? VIRTUAL) with true. cbn [negb is_nil].
  unfold optimize_virtual_empty. rewrite rev_app_distr. cbn [rev app]. rewrite rev_involutive, Hp1.
  cbn [mbind option_bind]. unfold par1. by rewrite (set_at_set_at _ _ _ _ _ Hn), set_child_twice.
Qed.

Lemma delete_leaf t sv d p l :
  wf t -> node_at t sv = Some (Node d p l Nil Nil) -> sv <> [] ->
  exists t', optimize_virtual (S (size t)) (set_at t sv (Node VIRTUAL p l Nil Nil)) sv = Some t' /\
    wf t' /\ routes t' = delete (pfx p l) (routes t).
Proof.
  intros W Hn Hsv. pose proof W as (Hp & _).
  destruct sv as [|b sv _] using rev_ind; [done|]. clear Hsv.
  pose proof (node_at_size _ _ _ Hn) as Hsz. rewrite length_app in Hsz. simpl in Hsz.
  destruct (node_at_snoc _ _ _ _ Hn) as (parent & Hpar & Hc & Hs). rewrite Hs, (optimize_leaf _ _ _ _ _ d) by done.
  destruct parent as [|dp pp lp c0 c1]; [done|]. change (Some (sub b c0 c1) = Some (Node d p l Nil Nil)) in Hc.
  simplify_eq. destruct (node_at_placed _ _ _ _ Hp Hpar) as [q Hq].
  pose proof (routes_drop_leaf _ _ _ _ _ _ _ _ _ _ Hq Hc) as Hdel.
  assert (pfx pp lp `prefix_of` pfx p l) as Hk.
  { pose proof (placed_sub _ _ _ _ _ _ b Hq) as Hb. rewrite Hc in Hb. destruct Hb as (_ & Hb & _). by eapply prefix_app_l. }
  destruct (size t) as [|[|f]] eqn:Es; [lia..|].
  assert (is_nil (set_child (Node dp pp lp c0 c1) b Nil) = false) as Hnil by (by rewrite is_nil_set_child).
  pose proof (node_at_set_at _ _ _ _ Hpar Hnil) as Hpar'.
  destruct (Z.eqb_spec dp VIRTUAL) as [->|Hdp].
  - assert (placed (pfx pp lp ++ [negb b]) (sub (negb b) c0 c1) /\ is_nil (sub (negb b) c0 c1) = false) as [Ho Hon].
    { split; [by eapply placed_sub|]. destruct Hq as (_ & _ & Hv & _). destruct (Hv eq_refl). by destruct b. }
    assert (forall q', placed q' (Node VIRTUAL pp lp c0 c1) -> placed q' (sub (negb b) c0 c1)) as Hw.
    { intros q' Hq'. pose proof (placed_sub _ _ _ _ _ _ (negb b) Hq') as Hb.
      eapply placed_weaken; [|exact Hb]. destruct Hq' as (_ & ? & _). by apply prefix_app_r. }
    assert (routes (sub (negb b) c0 c1) = delete (pfx p l) (routes (Node VIRTUAL pp lp c0 c1))) as Hr.
    { rewrite <- Hdel. destruct b; cbn; by rewrite !(left_id_L ∅ (∪)), ?(right_id_L ∅ (∪)). }
    exists (set_at t sv (sub (negb b) c0 c1)). split.
    + rewrite <- (set_at_set_at _ _ _ (set_child (Node VIRTUAL pp lp c0 c1) b Nil) (sub (negb b) c0 c1) Hpar).
      destruct b; [apply (optimize_merge f _ _ pp lp c0 Nil false (pfx pp lp ++ [false]))
                  |apply (optimize_merge f _ _ pp lp Nil c1 true (pfx pp lp ++ [true]))]; done.
    + split; [|by apply (set_at_routes _ _ _ _ [] _ _ Hp Hpar Hon Hw)].
      eapply wf_set_at; [done..|]. intros ->. destruct W as (_ & _ & _ & Hd). destruct t; by simplify_eq/=.
  - assert (forall q', placed q' (Node dp pp lp c0 c1) -> placed q' (set_child (Node dp pp lp c0 c1) b Nil)) as Hw.
    { intros q' (? & ? & ? & ? & ?). destruct b; simpl; by split_and!. }
    exists (set_at t sv (set_child (Node dp pp lp c0 c1) b Nil)).
    split; [by apply (optimize_settled _ _ _ _ q Hpar'), Hw|]. split.
    + eapply wf_set_at; [done..|]. intros ->. by destruct b.
    + by apply (set_at_routes _ _ _ _ [] _ _ Hp Hpar Hnil Hw).
Qed.

Lemma lpm_delete_wf t prefix plen :
  wf t -> (0 < plen <= 128)%nat ->
  exists t', lpm_delete t prefix plen = Some (default 0 (routes t !! pfx prefix plen), t') /\ wf t' /\
    routes t' = delete (pfx prefix plen) (routes t).
Proof.
  intros W Hplen. pose proof W as (Hp & Hne & Hl & Hdh).
  destruct (lookup_exact_spec t [] prefix plen) as (found & sv & n & He & Hn & Ha & Hle & Hf & Hlast); [done|done| |lia|].
  { destruct t; simpl in *; [done|]. subst. apply prefix_nil. }
  unfold lpm_delete. rewrite He. cbn [mbind option_bind].
  destruct (node_at_placed t [] sv n Hp Hn) as [q Hq].
  assert (pfx_of n `prefix_of` pfx prefix plen) as Hpk.
  { destruct n; [apply prefix_nil|]. apply prefix_of_take; [done|]. simpl in *. rewrite length_pfx by lia. done. }
  rewrite (routes_node_at t [] sv n _ Hp Hn Hpk).
  destruct found.
  - symmetry in Hf. apply bool_decide_eq_true in Hf as [Hpl Hdn].
    destruct n as [|d p l c0 c1]; [done|]. simpl in Hpl, Hdn. subst l.
    assert (pfx p plen = pfx prefix plen) as Hpn by (by apply pfx_prefix; [lia|]).
    assert (sv <> []) as Hsv by (intros ->; destruct t; simplify_eq/=; lia).
    rewrite <- Hpn, (routes_own q _ _ _ _ _ Hq). destruct (Z.eqb_spec d VIRTUAL); [done|].
    unfold lpm_delete_node. rewrite Hn. cbn [mbind option_bind set_data].
    assert (exists t', optimize_virtual (S (size t)) (set_at t sv (Node VIRTUAL p plen c0 c1)) sv = Some t' /\
      wf t' /\ routes t' = delete (pfx p plen) (routes t)) as (t' & -> & W' & Hr); [|by exists t'].
    destruct (is_nil c0) eqn:E0; [destruct (is_nil c1) eqn:E1|].
    + destruct c0, c1; try done. by eapply delete_leaf.
    + apply (delete_inner t sv d); auto.
    + apply (delete_inner t sv d); auto.
  - symmetry in Hf. apply bool_decide_eq_false in Hf.
    assert (routes n !! pfx prefix plen = None) as Hnone.
    { apply (not_found_none q); [done|done|lia|done|by apply Hlast]. }
    rewrite Hnone. exists t. split_and!; [done..|]. symmetry. apply delete_id.
    by rewrite (routes_node_at t [] sv n _ Hp Hn Hpk).
Qed.

(** ** Main results *)

Lemma wf_check t : bool_decide (wf t) = true -> wf t.
Proof. apply bool_decide_eq_true_1. Qed.

Lemma lpm_new_wf : wf lpm_new /\ routes lpm_new = {[ [] := 0 ]}.
Proof. split; [|reflexivity]. apply wf_check. vm_compute. reflexivity. Qed.

(** [2001:xx00:...], the rest zero *)
Definition net (b2 : Z) : in6_addr := [32; 1; b2] ++ replicate 13 0.

(** Insertions in sequence. *)
Fixpoint insert_all (t : tree) (l : list (in6_addr * nat * Z)) : option tree :=
  match l with
  | [] => Some t
  | (p, n, d) :: l => t ← lpm_insert t p n d; insert_all t l
  end.

(** C31. On a well-formed tree, which is what insertions give as long as each
    meets the condition of [lpm_insert_spec] (without it a tree may lose the
    longest match: [lpm_insert_misplaces]), [lpm_lookup] returns the data of
    the longest entry that is a prefix of the address, the head's data (NULL
    when no default route was set) included: some length [n] has an entry with
    that data and no longer prefix of the address has an entry. *)
Theorem lpm_lookup_longest (t : tree) (addr : in6_addr) :
  wf t -> exists n d, (n <= 128)%nat /\ lpm_lookup t addr = Some d /\
    routes t !! pfx addr n = Some d /\
    forall m, (n < m <= 128)%nat -> routes t !! pfx addr m = None.
Proof.
  intros (Hp & Hne & Hl & Hd). destruct t as [|d p l c0 c1]; [done|]. simpl in Hl, Hd. subst l.
  assert (pfx_of (Node d p 0 c0 c1) `prefix_of` addr_to_binary addr) as Ha by apply prefix_nil.
  destruct (lookup_loop_spec _ _ addr d Hp Hne Ha) as (r & Hr & Hlong).
  unfold lpm_lookup. rewrite Hr. cbn [mbind option_bind].
  pose proof (routes_own _ _ _ _ _ _ Hp) as Ho. destruct (Z.eqb_spec d VIRTUAL) as [|_]; [done|].
  destruct Hlong as [(n & Hn & Hrn & Hmax)|[_ Hnone]].
  - exists n, r. destruct (routes_keys _ _ _ _ Hp Hrn) as (_ & _ & Hrv).
    split_and!; [done| |done|done]. destruct (Z.eqb_spec r VIRTUAL); done.
  - specialize (Hnone 0%nat ltac:(lia)). change (take 0 (addr_to_binary addr)) with (pfx p 0) in Hnone. congruence.
Qed.

Lemma lpm_lookup_longest_witness :
  exists t, insert_all lpm_new [(net 0, 16%nat, 7); (net 192, 24%nat, 8)] = Some t /\
  exists n d, (n <= 128)%nat /\ lpm_lookup t (net 193) = Some d /\ routes t !! pfx (net 193) n = Some d /\
    forall m, (n < m <= 128)%nat -> routes t !! pfx (net 193) m = None.
Proof.
  eexists. split; [vm_compute; reflexivity|]. apply lpm_lookup_longest.
  apply wf_check. vm_compute. reflexivity.
Defined.

(** C32. [lpm_insert] adds or replaces exactly the given entry and keeps the
    tree well formed, for every prefix length, as long as the entries below
    the new prefix continue with the bit that follows it in the address
    passed by the caller (always the case when no longer entry lies below). *)
Theorem lpm_insert_spec (t : tree) (prefix : in6_addr) (plen : nat) (data : Z) :
  wf t -> (plen <= 128)%nat -> data <> VIRTUAL -> in_line (routes t) prefix plen ->
  exists t', lpm_insert t prefix plen data = Some t' /\ wf t' /\
    routes t' = <[pfx prefix plen := data]> (routes t).
Proof. apply lpm_insert_wf. Qed.

Lemma lpm_insert_witness :
  exists t', lpm_insert lpm_new (net 128) 18 7 = Some t' /\ wf t' /\
    routes t' = <[pfx (net 128) 18 := 7]> (routes lpm_new).
Proof.
  apply lpm_insert_spec; [apply lpm_new_wf|lia|done|].
  intros k d Hk _ Hlen. rewrite (proj2 lpm_new_wf) in Hk. apply lookup_singleton_Some in Hk as [<- _].
  simpl in Hlen. lia.
Defined.

(** [lpm_delete] of a prefix other than the default removes exactly the
    entry of that prefix, answers its data (NULL when there is none) and
    keeps the tree well formed: no virtual node with less than two children
    is left. *)
Theorem lpm_delete_spec (t : tree) (prefix : in6_addr) (plen : nat) :
  wf t -> (0 < plen <= 128)%nat ->
  exists t', lpm_delete t prefix plen = Some (default 0 (routes t !! pfx prefix plen), t') /\ wf t' /\
    routes t' = delete (pfx prefix plen) (routes t).
Proof. apply lpm_delete_wf. Qed.

Lemma lpm_delete_witness :
  exists t, insert_all lpm_new [(net 0, 16%nat, 7); (net 192, 24%nat, 8)] = Some t /\
  exists t', lpm_delete t (net 0) 16 = Some (default 0 (routes t !! pfx (net 0) 16), t') /\ wf t' /\
    routes t' = delete (pfx (net 0) 16) (routes t).
Proof.
  eexists. split; [vm_compute; reflexivity|]. apply lpm_delete_spec; [|lia].
  apply wf_check. vm_compute. reflexivity.
Defined.

(** Without that condition an entry can become unreachable: after
    inserting 2001:8000::/18, 2001::/16, 2001:c000::/18 and 2001::/17, the
    address 2001:c000:: is answered with the data of the /16 although its
    own /18 was inserted. *)
Theorem lpm_insert_misplaces :
  exists t, insert_all lpm_new
      [(net 128, 18%nat, 1); (net 0, 16%nat, 2); (net 192, 18%nat, 3); (net 0, 17%nat, 4)] = Some t /\
    lpm_lookup t (net 192) = Some 2.
Proof. eexists. split; [vm_compute; reflexivity|vm_compute; reflexivity]. Qed.

(** A prefix length over 128 is inserted like any other; the next search that
    comes to it compares behind the end of the address texts. *)
Theorem lpm_long_plen_breaks :
  exists t, insert_all lpm_new [(net 0, 128%nat, 1); (net 0, 200%nat, 2)] = Some t /\ lpm_lookup t (net 0) = None /\
    common_prefix_len (net 0) (net 0) 200 = None.
Proof. eexists. split; [vm_compute; reflexivity|]. split; vm_compute; reflexivity. Qed.

(** Deleting the default route with one other entry moves that entry to
    the head, where it answers every address; with no other entry the code
    dereferences the head's null parent. *)
Theorem lpm_delete_default_breaks :
  lpm_delete lpm_new (net 0) 0 = None /\
  exists t t', lpm_insert lpm_new (net 0) 16 5 = Some t /\ lpm_delete t (net 0) 0 = Some (0, t') /\
    lpm_lookup t' (replicate 16 255) = Some 5.
Proof.
  split; [vm_compute; reflexivity|]. eexists _, _.
  split; [vm_compute; reflexivity|]. split; [vm_compute; reflexivity|]. vm_compute. reflexivity.
Qed.
