(* ===== verification/Dijkstra.v ===== *)
(** * Shortest-path DAGs (sr-ctrl/graph.c: graph_dijkstra)

    Dijkstra's algorithm with all equal-cost predecessors and the enumeration
    of all equal-cost paths.  The graph it reads is the finalized view of a
    [struct graph]: the node list, the neighbour lists and the minimal edges
    that [graph_finalize] computes (Graph.v builds such a view).  Nodes are
    named by their ids, by which all the hash maps compare them.  [None] is a
    failed assert or a null dereference. *)

From S2P Require Import Prelude.

Record vedge := VEdge { v_eid : Z; v_local : Z; v_remote : Z; v_metric : Z; v_edata : Z }.

Record view := View {
  nodes : list Z;
  neighs : gmap Z (list Z);
  min_edges : gmap (Z * Z) vedge
}.

(** The customisation points of [struct d_ops]; a null [cost] is the sum. *)
Record d_ops (S : Type) := DOps {
  op_init : view -> Z -> S;
  op_cost : Z -> vedge -> S -> Z;
  op_update : vedge -> S -> S
}.
Arguments DOps {S}.
Arguments op_init {S}.
Arguments op_cost {S}.
Arguments op_update {S}.

Definition no_ops : d_ops unit :=
  DOps (fun _ _ => tt) (fun u_dist e _ => wrap32 (u_dist + v_metric e)) (fun _ s => s).

(** ** Path enumeration *)

(** [__compute_paths]: the lists added to [res], in order. *)
Fixpoint compute_paths_ (fuel : nat) (prev : gmap Z (list Z)) (tmp : list Z) (u : Z) : option (list (list Z)) :=
  match fuel with
  | O => None
  | S fuel =>
      w ← prev !! u;
      match w with
      | [] => Some [tmp]
      | _ => rs ← mapM (compute_paths_ fuel prev (tmp ++ [u])) w; Some (mjoin rs)
      end
  end.

Definition compute_paths (fuel : nat) (prev : gmap Z (list Z)) (u : Z) : option (list (list Z)) :=
  compute_paths_ fuel prev [] u.

(** ** The main loop *)

Record dstate (S : Type) := DState {
  dist : gmap Z Z;
  prev : gmap Z (list Z);
  path : gmap Z (list (list Z));
  Q : list Z;
  ustate : S
}.
Arguments DState {S}.
Arguments dist {S}.
Arguments prev {S}.
Arguments path {S}.
Arguments Q {S}.
Arguments ustate {S}.

(** [(uintptr_t)hmap_get(dist, v)]: a missing key gives 0 *)
Definition get_dist (d : gmap Z Z) (v : Z) : Z := default 0 (d !! v).

(** The scan of [Q] for the first node of least cost below [tmpcost]. *)
Fixpoint find_min (d : gmap Z Z) (Q : list Z) (tmpcost : Z) (u : option Z) : option Z :=
  match Q with
  | [] => u
  | v :: Q =>
      if get_dist d v <? tmpcost then find_min d Q (get_dist d v) (Some v)
      else find_min d Q tmpcost u
  end.

(** [llist_node_remove(Q, u_iter)]: the first occurrence, where the scan
    stopped. *)
Fixpoint remove_first (u : Z) (l : list Z) : list Z :=
  match l with
  | [] => []
  | v :: l => if v =? u then l else v :: remove_first u l
  end.

Section loop.
Context {S : Type} (ops : d_ops S) (g : view).

(** One neighbour of [u]. *)
Definition relax (u : Z) (s : dstate S) (v : Z) : option (dstate S) :=
  if bool_decide (v ∈ Q s) then
    min_edge ← min_edges g !! (u, v);
    let u_dist := get_dist (dist s) u in
    let v_dist := get_dist (dist s) v in
    let alt := op_cost ops u_dist min_edge (ustate s) in
    if alt <? v_dist then
      _ ← prev s !! v;
      Some (DState (<[v := alt]> (dist s)) (<[v := [u]]> (prev s)) (path s) (Q s)
              (op_update ops min_edge (ustate s)))
    else if alt =? v_dist then
      prev_list ← prev s !! v;
      Some (DState (dist s) (<[v := prev_list ++ [u]]> (prev s)) (path s) (Q s) (ustate s))
    else Some s
  else Some s.

Fixpoint relax_all (u : Z) (s : dstate S) (vs : list Z) : option (dstate S) :=
  match vs with
  | [] => Some s
  | v :: vs => s ← relax u s v; relax_all u s vs
  end.

(** The [while (!llist_node_empty(Q))] loop; one node leaves [Q] per turn. *)
Fixpoint dijkstra_loop (fuel : nat) (s : dstate S) : option (dstate S) :=
  match fuel with
  | O => None
  | Datatypes.S fuel =>
      match Q s with
      | [] => Some s
      | _ =>
          match find_min (dist s) (Q s) UINT32_MAX None with
          | None => Some s
          | Some u =>
              S ← compute_paths (Datatypes.S (length (nodes g))) (prev s) u;
              let s := DState (dist s) (prev s) (<[u := S]> (path s)) (remove_first u (Q s)) (ustate s) in
              vs ← neighs g !! u;
              s ← relax_all u s vs;
              dijkstra_loop fuel s
          end
      end
  end.

Fixpoint init_maps (src : Z) (ns : list Z) (d : gmap Z Z) (p : gmap Z (list Z)) (pa : gmap Z (list (list Z))) :=
  match ns with
  | [] => (d, p, pa)
  | n :: ns =>
      init_maps src ns (<[n := if n =? src then 0 else UINT32_MAX]> d) (<[n := []]> p) (<[n := []]> pa)
  end.

Definition graph_dijkstra (src : Z) : option (dstate S) :=
  let '(d, p, pa) := init_maps src (nodes g) ∅ ∅ ∅ in
  dijkstra_loop (Datatypes.S (length (nodes g))) (DState d p pa (nodes g) (op_init ops g src)).
End loop.

(** ** Specification *)

(** What [graph_finalize] promises of the view (discharged in Graph.v). *)
Class WfView (g : view) : Prop := {
  wf_nodes : NoDup (nodes g);
  wf_neighs : forall u, u ∈ nodes g -> exists vs, neighs g !! u = Some vs /\ NoDup vs /\ vs ⊆ nodes g;
  wf_min : forall u vs v, neighs g !! u = Some vs -> v ∈ vs -> v <> u ->
    exists e, min_edges g !! (u, v) = Some e /\ 0 <= v_metric e < UINT32_MAX;
  wf_edge : forall u v e, min_edges g !! (u, v) = Some e -> v_local e = u /\ v_remote e = v /\ u <> v
}.

(** The metric of the link from [u] to [v] that routing uses. *)
Definition wt (g : view) (u v : Z) : option Z :=
  if u =? v then None
  else match neighs g !! u with
       | Some vs => if bool_decide (v ∈ vs) then v_metric <$> min_edges g !! (u, v) else None
       | None => None
       end.

(** Walks from [src], listed backwards without [src], with their cost. *)
Inductive walk (g : view) (src : Z) : Z -> list Z -> Z -> Prop :=
| walk_nil : walk g src src [] 0
| walk_cons u v p c w : walk g src u p c -> u ∈ nodes g -> wt g u v = Some w -> walk g src v (v :: p) (c + w).

Definition shortest (g : view) (src v : Z) (p : list Z) (c : Z) : Prop :=
  walk g src v p c /\ forall p' c', walk g src v p' c' -> c <= c'.

(** The nodes processed before [v], all of them if [v] is still in [Q]. *)
Fixpoint upto (v : Z) (l : list Z) : list Z :=
  match l with
  | [] => []
  | x :: l => if x =? v then [] else x :: upto v l
  end.

(** ** Lists *)

Lemma upto_out v l : v ∉ l -> upto v l = l.
Proof.
  induction l as [|x l IH]; simpl; [done|]. rewrite not_elem_of_cons. intros [? ?].
  destruct (Z.eqb_spec x v); [congruence|]. by rewrite IH.
Qed.

Lemma upto_in_app v l1 l2 : v ∈ l1 -> upto v (l1 ++ l2) = upto v l1.
Proof.
  induction l1 as [|x l IH]; simpl; [by intros ?%not_elem_of_nil|]. rewrite elem_of_cons. intros Hv.
  destruct (Z.eqb_spec x v); [done|]. rewrite IH; [done|]. destruct Hv; congruence.
Qed.

Lemma upto_app v l1 l2 : v ∉ l1 -> upto v (l1 ++ l2) = l1 ++ upto v l2.
Proof.
  induction l1 as [|x l IH]; simpl; [done|]. rewrite not_elem_of_cons. intros [? ?].
  destruct (Z.eqb_spec x v); [congruence|]. by rewrite IH.
Qed.

Lemma upto_incl v l x : x ∈ upto v l -> x ∈ l /\ x <> v.
Proof.
  induction l as [|y l IH]; simpl; [by intros ?%not_elem_of_nil|].
  destruct (Z.eqb_spec y v); [by intros ?%not_elem_of_nil|]. rewrite !elem_of_cons. intros [->|Hx]; [by auto|]. destruct (IH Hx). auto.
Qed.

Lemma upto_length v l : (length (upto v l) <= length l)%nat.
Proof. induction l as [|y l IH]; simpl; [done|]. destruct (y =? v); simpl; lia. Qed.

Lemma upto_shorter v l x : x ∈ upto v l -> (length (upto x l) < length (upto v l))%nat.
Proof.
  induction l as [|y l IH]; simpl; [by intros ?%not_elem_of_nil|].
  destruct (Z.eqb_spec y v); [by intros ?%not_elem_of_nil|]. rewrite elem_of_cons. intros Hx. simpl.
  destruct (Z.eqb_spec y x); simpl; [lia|]. destruct Hx as [->|Hx]; [done|]. specialize (IH Hx). lia.
Qed.

Lemma upto_NoDup v l : NoDup l -> NoDup (upto v l).
Proof.
  induction 1 as [|y l Hy _ IH]; simpl; [constructor|]. destruct (y =? v); [constructor|].
  constructor; [|done]. by intros [? _]%upto_incl.
Qed.

Lemma remove_first_perm u l : u ∈ l -> u :: remove_first u l ≡ₚ l.
Proof.
  induction l as [|y l IH]; simpl; [by intros ?%not_elem_of_nil|]. rewrite elem_of_cons.
  destruct (Z.eqb_spec y u) as [->|Hne]; [done|]. intros [->|Hu]; [done|].
  rewrite <- (IH Hu) at 2. apply Permutation_swap.
Qed.

Lemma remove_first_elem u l x : NoDup l -> x ∈ remove_first u l <-> x ∈ l /\ x <> u.
Proof.
  induction 1 as [|y l Hy _ IH]; simpl; [split; [by intros ?%not_elem_of_nil|by intros [?%not_elem_of_nil _]]|].
  rewrite elem_of_cons. destruct (Z.eqb_spec y u) as [->|Hne].
  - split; [intros; split; [by right|congruence]|tauto].
  - rewrite elem_of_cons, IH. split; [intros [->|?]; tauto|tauto].
Qed.

(** The node the scan selects has the least distance, below the start value. *)
Lemma find_min_spec d l : forall c u0, find_min d l c u0 = u0 \/
  exists u, find_min d l c u0 = Some u /\ u ∈ l /\ get_dist d u < c.
Proof.
  induction l as [|v l IH]; intros c u0; simpl; [by left|].
  destruct (Z.ltb_spec (get_dist d v) c) as [Hlt|Hge].
  - right. destruct (IH (get_dist d v) (Some v)) as [->|(u & -> & Hu & Hd)].
    + exists v. split_and!; [done|by left|done].
    + exists u. split_and!; [done|by right|lia].
  - destruct (IH c u0) as [->|(u & -> & Hu & Hd)]; [by left|right].
    exists u. split_and!; [done|by right|done].
Qed.

Lemma find_min_least d l : forall c u0 u,
  find_min d l c u0 = Some u -> (u0 = Some u -> get_dist d u = c) -> (forall x, u0 = Some x -> get_dist d x = c) ->
  forall v, v ∈ l -> get_dist d u <= get_dist d v \/ c <= get_dist d v.
Proof.
  induction l as [|x l IH]; intros c u0 u Hf H1 H2 v; simpl in *; [by intros ?%not_elem_of_nil|].
  rewrite elem_of_cons. destruct (Z.ltb_spec (get_dist d x) c) as [Hlt|Hge].
  - destruct (find_min_spec d l (get_dist d x) (Some x)) as [E|(u' & E & _ & Hd)]; rewrite E in Hf; simplify_eq.
    + intros [->|Hv]; [lia|]. destruct (IH _ _ _ E (fun _ => eq_refl) ltac:(intros; by simplify_eq) v Hv); lia.
    + intros [->|Hv]; [lia|]. destruct (IH _ _ _ E ltac:(intros; by simplify_eq) ltac:(intros; by simplify_eq) v Hv); lia.
  - intros [->|Hv]; [by right|]. by apply (IH c u0).
Qed.

(** ** Enumeration of the paths of a predecessor map *)

Inductive chain (prev : gmap Z (list Z)) : Z -> list Z -> Prop :=
| chain_end v : prev !! v = Some [] -> chain prev v []
| chain_step v u l q : prev !! v = Some l -> u ∈ l -> chain prev u q -> chain prev v (v :: q).

Lemma compute_paths_elem prev fuel : forall tmp v L,
  compute_paths_ fuel prev tmp v = Some L -> forall p, p ∈ L <-> exists q, p = tmp ++ q /\ chain prev v q.
Proof.
  induction fuel as [|fuel IH]; intros tmp v L; [done|]. cbn [compute_paths_].
  destruct (prev !! v) as [l|] eqn:Hl; cbn [mbind option_bind]; [|done]. destruct l as [|u0 l0].
  - intros [= <-] p. rewrite list_elem_of_singleton. split.
    + intros ->. exists []. rewrite app_nil_r. split; [done|by constructor].
    + intros (q & -> & Hc). inversion Hc; simplify_eq; [by rewrite app_nil_r|set_solver].
  - destruct (mapM _ (u0 :: l0)) as [rs|] eqn:Hm; cbn [mbind option_bind]; [|done].
    intros [= <-] p. apply mapM_Some in Hm.
    rewrite list_elem_of_join. split.
    + intros (L & Hp & HL). apply list_elem_of_lookup in HL as [i Hi].
      destruct (Forall2_lookup_r _ _ _ _ _ Hm Hi) as (u & Hu & Hr).
      destruct (proj1 (IH _ _ _ Hr p) Hp) as (q & -> & Hc). exists (v :: q). rewrite <- app_assoc. split; [done|].
      eapply chain_step; [done| |done]. by eapply list_elem_of_lookup_2.
    + intros (q & -> & Hc). inversion Hc as [|? u l q' Hl' Hu Hq]; simplify_eq.
      apply list_elem_of_lookup in Hu as [i Hi]. destruct (Forall2_lookup_l _ _ _ _ _ Hm Hi) as (L & HL & Hr).
      exists L. split; [|by eapply list_elem_of_lookup_2]. apply (IH _ _ _ Hr). exists q'. by rewrite <- app_assoc.
Qed.

(** Predecessors of a node were processed before it. *)
Definition closed (prev : gmap Z (list Z)) (Pl : list Z) (v : Z) : Prop :=
  forall x, x = v \/ x ∈ Pl -> exists l, prev !! x = Some l /\ forall u, u ∈ l -> u ∈ upto x Pl.

Lemma closed_prev prev Pl v u l : closed prev Pl v -> prev !! v = Some l -> u ∈ l -> closed prev Pl u /\ u ∈ upto v Pl.
Proof.
  intros Hc Hl Hu. destruct (Hc v) as (l' & Hl' & Hup); [by left|]. simplify_eq. specialize (Hup u Hu).
  split; [|done]. intros x [->|Hx]; apply Hc; right; [|done]. by apply upto_incl in Hup as [? _].
Qed.

Lemma compute_paths_total prev Pl fuel : forall tmp v,
  closed prev Pl v -> (length (upto v Pl) < fuel)%nat -> exists L, compute_paths_ fuel prev tmp v = Some L.
Proof.
  induction fuel as [|fuel IH]; intros tmp v Hc Hf; [lia|]. cbn [compute_paths_].
  destruct (Hc v) as (l & Hl & Hup); [by left|]. rewrite Hl. cbn [mbind option_bind]. destruct l as [|u0 l0]; [eauto|].
  assert (is_Some (mapM (compute_paths_ fuel prev (tmp ++ [v])) (u0 :: l0))) as [rs Hrs].
  { apply mapM_is_Some_2, Forall_forall. intros u Hu. destruct (closed_prev _ _ _ _ _ Hc Hl Hu) as [Hcu Hin].
    apply IH; [done|]. pose proof (upto_shorter _ _ _ Hin). lia. }
  rewrite Hrs. cbn [mbind option_bind]. eauto.
Qed.

Lemma compute_paths_agree prev prev' Pl fuel : forall tmp v,
  closed prev Pl v -> (forall x, x = v \/ x ∈ Pl -> prev' !! x = prev !! x) ->
  compute_paths_ fuel prev' tmp v = compute_paths_ fuel prev tmp v.
Proof.
  induction fuel as [|fuel IH]; intros tmp v Hc Ha; [done|]. cbn [compute_paths_].
  rewrite (Ha v) by (by left). destruct (prev !! v) as [l|] eqn:Hl; cbn [mbind option_bind]; [|done].
  destruct l as [|u0 l0]; [done|]. f_equal.
  assert (Forall (fun u => compute_paths_ fuel prev' (tmp ++ [v]) u = compute_paths_ fuel prev (tmp ++ [v]) u) (u0 :: l0)) as Hall.
  { apply Forall_forall. intros u Hu. destruct (closed_prev _ _ _ _ _ Hc Hl Hu) as [Hcu Hin]. apply IH; [done|].
    intros x [->|Hx]; apply Ha; right; [|done]. by apply upto_incl in Hin as [? _]. }
  revert Hall. generalize (u0 :: l0). clear. intros l Hall. induction Hall as [|u l Hu _ IHl]; simpl; [done|].
  by rewrite Hu, IHl.
Qed.

(** Only [e] has no predecessor: every path is listed once. *)
Lemma compute_paths_NoDup prev Pl e fuel : forall tmp v L,
  closed prev Pl v -> (forall x l, x = v \/ x ∈ Pl -> prev !! x = Some l -> NoDup l /\ (l = [] -> x = e)) ->
  compute_paths_ fuel prev tmp v = Some L -> NoDup L.
Proof.
  induction fuel as [|fuel IH]; intros tmp v L Hc Hn; [done|]. cbn [compute_paths_].
  destruct (prev !! v) as [l|] eqn:Hl; cbn [mbind option_bind]; [|done].
  destruct (Hn v l) as [Hnd He]; [by left|done|].
  destruct l as [|u0 l0]; [intros [= <-]; apply NoDup_singleton|].
  destruct (mapM _ (u0 :: l0)) as [rs|] eqn:Hm; cbn [mbind option_bind]; [|done]. intros [= <-].
  revert Hnd Hl Hm. clear He. generalize (u0 :: l0). clear u0 l0. intros l Hnd Hl Hm.
  assert (forall u, u ∈ l -> closed prev Pl u /\ u ∈ Pl) as Hcl.
  { intros u Hu. destruct (closed_prev _ _ _ _ _ Hc Hl Hu) as [? ?]. split; [done|]. by eapply upto_incl. }
  clear Hl. apply mapM_Some in Hm. induction Hm as [|u r l rs Hr Hrs IHm]; simpl; [constructor|].
  apply NoDup_cons in Hnd as [Hu Hnd].
  apply NoDup_app. split_and!.
  - destruct (Hcl u) as [Hcu Hup]; [by left|]. eapply (IH _ _ _ Hcu); [|exact Hr].
    intros x l' Hx. apply Hn. right. destruct Hx as [->|]; done.
  - intros p Hp Hp'. apply (compute_paths_elem _ _ _ _ _ Hr) in Hp as (q & -> & Hq).
    apply list_elem_of_join in Hp' as (L & HpL & HL). apply list_elem_of_lookup in HL as [i Hi].
    destruct (Forall2_lookup_r _ _ _ _ _ Hrs Hi) as (u' & Hu' & Hr').
    apply list_elem_of_lookup_2 in Hu'. destruct (proj1 (compute_paths_elem _ _ _ _ _ Hr' _) HpL) as (q' & Hqq & Hq').
    apply app_inv_head in Hqq as <-. apply Hu.
    assert (forall x, chain prev x [] -> x ∈ Pl -> x = e) as Hend.
    { intros x Hx HxP. inversion Hx as [? Hx'|]; simplify_eq. by apply (Hn x []); auto. }
    destruct (Hcl u) as [_ HuP]; [by left|]. destruct (Hcl u') as [_ HuP']; [by right|].
    destruct q as [|x q].
    + by rewrite (Hend u), <- (Hend u').
    + inversion Hq; inversion Hq'; by simplify_eq.
  - apply IHm; [done|]. intros x Hx. apply Hcl. by right.
Qed.

(** ** Invariant for any cost functions *)

Lemma upto_mono v l l' x : x ∈ upto v l -> x ∈ upto v (l ++ l').
Proof.
  destruct (decide (v ∈ l)) as [Hv|Hv]; [by rewrite upto_in_app|].
  rewrite upto_app, upto_out by done. rewrite elem_of_app. by left.
Qed.

Lemma find_min_none d l c : find_min d l c None = None -> forall v, v ∈ l -> c <= get_dist d v.
Proof.
  induction l as [|x l IH]; simpl; [by intros _ v ?%not_elem_of_nil|].
  destruct (Z.ltb_spec (get_dist d x) c).
  - intros E. destruct (find_min_spec d l (get_dist d x) (Some x)) as [|(? & ? & _)]; congruence.
  - intros E v. rewrite elem_of_cons. intros [->|Hv]; [lia|by apply IH].
Qed.

Lemma get_dist_insert d v a x : get_dist (<[v := a]> d) x = if decide (v = x) then a else get_dist d x.
Proof.
  unfold get_dist. case_decide; simplify_eq; [by rewrite lookup_insert_eq|by rewrite lookup_insert_ne].
Qed.

Section invariant.
Context {S : Type} (ops : d_ops S) (g : view) `{!WfView g} (src : Z).
Hypothesis Hsrc : src ∈ nodes g.

Definition moved (u : Z) (L : list (list Z)) (s : dstate S) : dstate S :=
  DState (dist s) (prev s) (<[u := L]> (path s)) (remove_first u (Q s)) (ustate s).

Record WInv (s : dstate S) (Pl : list Z) : Prop := {
  w_perm : Pl ++ Q s ≡ₚ nodes g;
  w_head : (Pl = [] /\ forall v, v ∈ nodes g -> get_dist (dist s) v = if v =? src then 0 else UINT32_MAX)
           \/ exists l, Pl = src :: l;
  w_prev : forall v, v ∈ nodes g -> exists l, prev s !! v = Some l /\ NoDup l /\
    (forall u, u ∈ l -> u ∈ upto v Pl /\ is_Some (wt g u v)) /\
    (v <> src -> get_dist (dist s) v < UINT32_MAX -> l <> []);
  w_fin : forall v, v ∈ Pl -> get_dist (dist s) v < UINT32_MAX;
  w_path : forall v, v ∈ nodes g -> exists L, path s !! v = Some L /\
    (v ∈ Pl -> compute_paths (Datatypes.S (length (nodes g))) (prev s) v = Some L) /\ (v ∉ Pl -> L = [])
}.

Lemma w_nodes s Pl v : WInv s Pl -> v ∈ Pl \/ v ∈ Q s <-> v ∈ nodes g.
Proof. intros W. rewrite <- (w_perm _ _ W), elem_of_app. done. Qed.

Lemma w_nodup s Pl : WInv s Pl -> NoDup (Pl ++ Q s).
Proof. intros W. rewrite (w_perm _ _ W). apply wf_nodes. Qed.

Lemma w_disj s Pl v : WInv s Pl -> v ∈ Q s -> v ∉ Pl.
Proof. intros W Hv Hv'. pose proof (w_nodup s Pl W) as [_ [Hd _]]%NoDup_app. by eapply Hd. Qed.

Lemma w_closed s Pl v : WInv s Pl -> v ∈ nodes g -> closed (prev s) Pl v.
Proof.
  intros W Hv x Hx. assert (x ∈ nodes g) as Hn by (destruct Hx as [->|]; [done|apply (w_nodes _ _ _ W); by left]).
  destruct (w_prev _ _ W x Hn) as (l & Hl & _ & Hu & _). exists l. split; [done|]. intros u Hin. by apply Hu.
Qed.

Lemma w_length s Pl : WInv s Pl -> (length Pl + length (Q s) = length (nodes g))%nat.
Proof. intros W. by rewrite <- (w_perm _ _ W), length_app. Qed.

Lemma extract_W s Pl u :
  WInv s Pl -> find_min (dist s) (Q s) UINT32_MAX None = Some u ->
  u ∈ Q s /\ get_dist (dist s) u < UINT32_MAX /\
  exists L, compute_paths (Datatypes.S (length (nodes g))) (prev s) u = Some L /\ WInv (moved u L s) (Pl ++ [u]).
Proof.
  intros W Hf. destruct (find_min_spec (dist s) (Q s) UINT32_MAX None) as [E|(u' & E & Hu & Hd)]; [congruence|].
  rewrite Hf in E. simplify_eq. split; [done|]. split; [done|].
  assert (u' ∈ nodes g) as Hn by (apply (w_nodes _ _ _ W); by right).
  pose proof (w_closed s Pl u' W Hn) as Hc. pose proof (w_length s Pl W) as Hlen.
  assert (0 < length (Q s))%nat as HQ by (destruct (Q s); [by apply not_elem_of_nil in Hu|simpl; lia]).
  destruct (compute_paths_total (prev s) Pl (Datatypes.S (length (nodes g))) [] u' Hc) as [L HL].
  { pose proof (upto_length u' Pl). lia. }
  exists L. split; [done|]. pose proof (w_disj _ _ _ W Hu) as Hout. split; simpl.
  - rewrite <- (w_perm _ _ W), <- app_assoc. simpl. by rewrite remove_first_perm.
  - right. destruct (w_head _ _ W) as [[-> Hi]|[l ->]]; [|by exists (l ++ [u'])].
    rewrite (Hi u' Hn) in Hd. destruct (Z.eqb_spec u' src); [subst; by exists []|lia].
  - intros v Hv. destruct (w_prev _ _ W v Hv) as (l & Hl & Hnd & Hu' & Hne). exists l. split_and!; [done..| |done].
    intros x Hx. destruct (Hu' x Hx). split; [by apply upto_mono|done].
  - intros v [Hv|Hv%list_elem_of_singleton]%elem_of_app; [by apply (w_fin _ _ W)|by subst].
  - intros v Hv. destruct (decide (u' = v)) as [->|Hne].
    + exists L. rewrite lookup_insert_eq. split_and!; [done..|]. intros Hx. exfalso. apply Hx, elem_of_app. right. by left.
    + rewrite lookup_insert_ne by done. destruct (w_path _ _ W v Hv) as (L' & HL' & Hin & Hnin). exists L'. split; [done|].
      rewrite elem_of_app, list_elem_of_singleton. split; [intros [?|]; [by apply Hin|congruence]|tauto].
Qed.

Lemma relax_W s Pl u v vs :
  WInv s (Pl ++ [u]) -> neighs g !! u = Some vs -> v ∈ vs ->
  (forall l, v ∈ Q s -> prev s !! v = Some l -> u ∉ l) ->
  exists s', relax ops g u s v = Some s' /\ WInv s' (Pl ++ [u]) /\ Q s' = Q s /\
    (forall x, x <> v -> prev s' !! x = prev s !! x).
Proof.
  intros W Hvs Hv Hfresh. unfold relax. case_bool_decide as HQ; [|by exists s].
  specialize (fun l => Hfresh l HQ). pose proof (w_disj _ _ _ W HQ) as Hout.
  assert (v ∈ nodes g) as Hn by (apply (w_nodes _ _ _ W); by right).
  assert (v <> u) as Hvu by (intros ->; apply Hout, elem_of_app; right; by left).
  destruct (wf_min u vs v Hvs Hv Hvu) as (e & He & _). rewrite He. cbn [mbind option_bind].
  destruct (w_prev _ _ W v Hn) as (l & Hl & Hnd & Hu & Hne).
  assert (u ∈ upto v (Pl ++ [u]) /\ is_Some (wt g u v)) as Hup.
  { split; [rewrite upto_out by done; apply elem_of_app; right; by left|]. unfold wt.
    destruct (Z.eqb_spec u v); [congruence|]. rewrite Hvs.
    rewrite (bool_decide_true _ Hv), He. by eexists. }
  assert (forall d' l' st', (forall x, x <> v -> get_dist d' x = get_dist (dist s) x) -> NoDup l' ->
    (forall x, x ∈ l' -> x ∈ l \/ x = u) -> l' <> [] \/ get_dist d' v >= UINT32_MAX ->
    WInv (DState d' (<[v := l']> (prev s)) (path s) (Q s) st') (Pl ++ [u])) as Hgo.
  { intros d' l' st' Hd' Hnd' Hl' Hne'. split; simpl.
    - apply (w_perm _ _ W).
    - destruct (w_head _ _ W) as [[E _]|?]; [by destruct Pl|by right].
    - intros x Hx. destruct (decide (v = x)) as [<-|Hxv].
      + exists l'. rewrite lookup_insert_eq. split_and!; [done..| |].
        * intros y Hy. destruct (Hl' y Hy) as [?| ->]; [by apply Hu|done].
        * intros _ ?. destruct Hne'; [done|lia].
      + rewrite lookup_insert_ne, Hd' by congruence. by apply (w_prev _ _ W).
    - intros x Hx. rewrite Hd' by congruence. by apply (w_fin _ _ W).
    - intros x Hx. destruct (w_path _ _ W x Hx) as (L & HL & Hin & Hnin). exists L. split_and!; [done| |done].
      intros Hx'. rewrite <- (Hin Hx'). apply (compute_paths_agree _ _ (Pl ++ [u])); [by apply w_closed|].
      intros y Hy. apply lookup_insert_ne. destruct Hy; congruence. }
  destruct (Z.ltb_spec (op_cost ops (get_dist (dist s) u) e (ustate s)) (get_dist (dist s) v)).
  - rewrite Hl. cbn [mbind option_bind]. eexists. split; [done|]. split; [|split; [done|intros; by apply lookup_insert_ne]].
    apply Hgo; [intros; rewrite get_dist_insert; by rewrite decide_False|apply NoDup_singleton| |by left].
    intros x ->%list_elem_of_singleton. by right.
  - destruct (Z.eqb_spec (op_cost ops (get_dist (dist s) u) e (ustate s)) (get_dist (dist s) v)); [|by exists s].
    rewrite Hl. cbn [mbind option_bind]. eexists. split; [done|]. split; [|split; [done|intros; by apply lookup_insert_ne]].
    apply Hgo; [done| | |left; by destruct l].
    + apply NoDup_app. split_and!; [done| |apply NoDup_singleton].
      intros x Hx ->%list_elem_of_singleton. by apply (Hfresh l).
    + intros x [?|?%list_elem_of_singleton]%elem_of_app; auto.
Qed.

Lemma relax_all_W u Pl vs vs' : forall s,
  WInv s (Pl ++ [u]) -> neighs g !! u = Some vs -> NoDup vs' -> vs' ⊆ vs ->
  (forall v l, v ∈ vs' -> v ∈ Q s -> prev s !! v = Some l -> u ∉ l) ->
  exists s', relax_all ops g u s vs' = Some s' /\ WInv s' (Pl ++ [u]) /\ Q s' = Q s.
Proof.
  induction vs' as [|v vs' IH]; intros s W Hvs Hnd Hsub Hfresh; simpl; [by exists s|].
  apply NoDup_cons in Hnd as [Hv Hnd].
  destruct (relax_W s Pl u v vs W Hvs) as (s1 & -> & W1 & HQ & Hp); [apply Hsub; by left| |].
  { intros l. apply Hfresh. by left. }
  simpl. destruct (IH s1 W1 Hvs Hnd) as (s2 & Hr & W2 & HQ2); [set_solver| |].
  - intros x l Hx HxQ. rewrite Hp by congruence. apply Hfresh; [by right|congruence].
  - exists s2. split_and!; [done..|congruence].
Qed.

Lemma loop_W (I : dstate S -> list Z -> Prop) :
  (forall s Pl u L vs s', WInv s Pl -> I s Pl -> find_min (dist s) (Q s) UINT32_MAX None = Some u ->
     u ∈ Q s -> get_dist (dist s) u < UINT32_MAX -> neighs g !! u = Some vs -> NoDup vs ->
     relax_all ops g u (moved u L s) vs = Some s' -> WInv s' (Pl ++ [u]) -> Q s' = remove_first u (Q s) ->
     I s' (Pl ++ [u])) ->
  forall fuel s Pl, WInv s Pl -> I s Pl -> (length (Q s) < fuel)%nat ->
  exists s' Pl', dijkstra_loop ops g fuel s = Some s' /\ WInv s' Pl' /\ I s' Pl' /\
    forall v, v ∈ Q s' -> UINT32_MAX <= get_dist (dist s') v.
Proof.
  intros Hstep. induction fuel as [|fuel IH]; intros s Pl W HI Hf; [lia|]. cbn [dijkstra_loop].
  destruct (decide (Q s = [])) as [E|E].
  { rewrite E. exists s, Pl. split_and!; [done..|]. rewrite E. by intros v ?%not_elem_of_nil. }
  destruct (find_min (dist s) (Q s) UINT32_MAX None) as [u|] eqn:Hfm.
  2: { exists s, Pl. split; [by destruct (Q s)|]. split_and!; [done..|]. by apply find_min_none. }
  destruct (extract_W s Pl u W Hfm) as (Hu & Hd & L & HL & Wm).
  assert (u ∈ nodes g) as Hn by (apply (w_nodes _ _ _ W); by right).
  destruct (wf_neighs u Hn) as (vs & Hvs & Hnd & _).
  destruct (relax_all_W u Pl vs vs (moved u L s)) as (s1 & Hr & W1 & HQ1); [done..| |].
  { intros v l Hv HvQ Hl Hul. simpl in *.
    assert (v ∈ nodes g) as Hvn by (apply (w_nodes _ _ _ Wm); by right).
    destruct (w_prev _ _ W v Hvn) as (l' & Hl' & _ & Hup & _). simplify_eq.
    destruct (Hup u Hul) as [[Hx _]%upto_incl _]. by apply (w_disj s Pl u W Hu). }
  assert (length (remove_first u (Q s)) < fuel)%nat as Hlen.
  { pose proof (Permutation_length (remove_first_perm u (Q s) Hu)) as Hx. simpl in Hx. lia. }
  destruct (IH s1 (Pl ++ [u]) W1) as (s2 & Pl2 & Hl2 & ? & ? & ?); [by eapply Hstep|by rewrite HQ1|].
  exists s2, Pl2. split; [|done].
  destruct (Q s) as [|q0 Qs] eqn:EQ; [done|]. rewrite HL. cbn [mbind option_bind]. rewrite Hvs. cbn [mbind option_bind].
  unfold moved in Hr. rewrite EQ in Hr. rewrite Hr. done.
Qed.

Lemma init_maps_lookup ns : forall d p pa d' p' pa',
  init_maps src ns d p pa = (d', p', pa') ->
  (forall v, d' !! v = if decide (v ∈ ns) then Some (if v =? src then 0 else UINT32_MAX) else d !! v) /\
  (forall v, p' !! v = if decide (v ∈ ns) then Some [] else p !! v) /\
  (forall v, pa' !! v = if decide (v ∈ ns) then Some [] else pa !! v).
Proof.
  induction ns as [|n ns IH]; intros d p pa d' p' pa' He; simpl in He.
  { simplify_eq. split_and!; intros; by rewrite decide_False by apply not_elem_of_nil. }
  destruct (IH _ _ _ _ _ _ He) as (Hd & Hp & Hpa).
  assert (forall {A} (m m' : gmap Z A) x y v, (forall v, m' !! v = if decide (v ∈ ns) then Some (x v) else <[n := y]> m !! v) -> y = x n ->
    m' !! v = if decide (v ∈ n :: ns) then Some (x v) else m !! v) as Hgen.
  { intros A m m' x y v Hm ->. rewrite Hm. destruct (decide (n = v)) as [<-|Hne].
    - rewrite (decide_True (P := n ∈ n :: ns)) by (by left). case_decide; [done|]. by rewrite lookup_insert_eq.
    - rewrite lookup_insert_ne by done. destruct (decide (v ∈ ns)) as [Hv|Hv].
      + by rewrite decide_True by (by right).
      + rewrite decide_False; [done|]. rewrite elem_of_cons. intros [?|?]; congruence. }
  split_and!; intros v.
  - by apply (Hgen _ _ _ (fun v => if v =? src then 0 else UINT32_MAX) _ v Hd).
  - by apply (Hgen _ _ _ (fun _ => []) _ v Hp).
  - by apply (Hgen _ _ _ (fun _ => []) _ v Hpa).
Qed.

Lemma dijkstra_W (I : dstate S -> list Z -> Prop) :
  (forall s Pl u L vs s', WInv s Pl -> I s Pl -> find_min (dist s) (Q s) UINT32_MAX None = Some u ->
     u ∈ Q s -> get_dist (dist s) u < UINT32_MAX -> neighs g !! u = Some vs -> NoDup vs ->
     relax_all ops g u (moved u L s) vs = Some s' -> WInv s' (Pl ++ [u]) -> Q s' = remove_first u (Q s) ->
     I s' (Pl ++ [u])) ->
  (forall s, (forall v, v ∈ nodes g -> get_dist (dist s) v = if v =? src then 0 else UINT32_MAX) ->
     (forall v, v ∈ nodes g -> prev s !! v = Some []) -> I s []) ->
  exists s Pl, graph_dijkstra ops g src = Some s /\ WInv s Pl /\ I s Pl /\
    forall v, v ∈ Q s -> UINT32_MAX <= get_dist (dist s) v.
Proof.
  intros Hstep Hinit. unfold graph_dijkstra.
  destruct (init_maps src (nodes g) ∅ ∅ ∅) as [[d p] pa] eqn:E.
  destruct (init_maps_lookup _ _ _ _ _ _ _ E) as (Hd & Hp & Hpa).
  assert (forall v, v ∈ nodes g -> get_dist d v = if v =? src then 0 else UINT32_MAX) as Hd'.
  { intros v Hv. unfold get_dist. by rewrite Hd, decide_True. }
  assert (forall v, v ∈ nodes g -> p !! v = Some []) as Hp' by (intros v Hv; by rewrite Hp, decide_True).
  apply (loop_W I Hstep _ _ []); simpl; [|by apply Hinit|lia].
  split; simpl.
  - done.
  - by left.
  - intros v Hv. exists []. split_and!; [by apply Hp'|constructor|by intros u ?%not_elem_of_nil|].
    intros Hne. rewrite Hd' by done. destruct (Z.eqb_spec v src); [done|]. lia.
  - by intros v ?%not_elem_of_nil.
  - intros v Hv. exists []. split_and!; [by rewrite Hpa, decide_True|by intros ?%not_elem_of_nil|done].
Qed.

(** The listed paths are walks from [src]. *)
Lemma chain_walk s Pl v q : WInv s Pl -> Pl <> [] -> chain (prev s) v q -> v ∈ Pl -> exists c, walk g src v q c.
Proof.
  intros W Hne Hc. induction Hc as [v Hl|v u l q Hl Hu _ IH]; intros Hv.
  - assert (v ∈ nodes g) as Hn by (apply (w_nodes _ _ _ W); by left).
    destruct (w_prev _ _ W v Hn) as (l & Hl' & _ & _ & Hp). simplify_eq.
    destruct (decide (v = src)) as [->|Hvs]; [exists 0; constructor|].
    exfalso. by apply (Hp Hvs (w_fin _ _ W v Hv)).
  - assert (v ∈ nodes g) as Hn by (apply (w_nodes _ _ _ W); by left).
    destruct (w_prev _ _ W v Hn) as (l' & Hl' & _ & Hup & _). simplify_eq.
    destruct (Hup u Hu) as [[HuP _]%upto_incl [w Hw]]. destruct (IH HuP) as [c Hc].
    exists (c + w). eapply walk_cons; [done| |done]. apply (w_nodes _ _ _ W). by left.
Qed.
End invariant.

(** ** Shortest distances *)

Lemma filter_ext_in {A} (P1 P2 : A -> Prop) `{!forall x, Decision (P1 x), !forall x, Decision (P2 x)} (l : list A) :
  (forall x, x ∈ l -> P1 x <-> P2 x) -> filter P1 l = filter P2 l.
Proof.
  induction l as [|x l IH]; intros Hl; [done|]. rewrite !filter_cons, IH by (intros; apply Hl; by right).
  destruct (Hl x) as [H1 H2]; [by left|]. destruct (decide (P1 x)), (decide (P2 x)); tauto.
Qed.

Lemma filter_none {A} (P : A -> Prop) `{!forall x, Decision (P x)} (l : list A) :
  (forall x, x ∈ l -> ~ P x) -> filter P l = [].
Proof.
  induction l as [|x l IH]; intros Hl; [done|]. rewrite filter_cons, decide_False by (apply Hl; by left).
  apply IH. intros; apply Hl; by right.
Qed.

Lemma wt_Some g `{!WfView g} u v w :
  wt g u v = Some w -> u <> v /\ exists vs e, neighs g !! u = Some vs /\ v ∈ vs /\ min_edges g !! (u, v) = Some e /\ v_metric e = w.
Proof.
  unfold wt. destruct (Z.eqb_spec u v); [done|]. destruct (neighs g !! u) as [vs|]; [|done].
  case_bool_decide; [|done]. destruct (min_edges g !! (u, v)) as [e|]; [|done]. intros [= <-]. naive_solver.
Qed.

Section distances.
Context (g : view) `{!WfView g} (src M : Z).
Hypothesis Hsrc : src ∈ nodes g.
Hypothesis HM : forall u v w, wt g u v = Some w -> 0 <= w <= M.
Hypothesis HM0 : 0 <= M.
Hypothesis Hov : Z.of_nat (length (nodes g)) * M < UINT32_MAX.

Abbreviation D s := (get_dist (dist s)).

(** [u] ends a best known walk to [v]. *)
Definition tight (d : gmap Z Z) (v u : Z) : Prop :=
  match wt g u v with Some w => get_dist d u + w = get_dist d v | None => False end.

#[local] Instance tight_dec d v u : Decision (tight d v u).
Proof. unfold tight. destruct (wt g u v); apply _. Defined.

Record SInv (s : dstate unit) (Pl : list Z) : Prop := {
  s_range : forall v, v ∈ nodes g -> 0 <= D s v <= UINT32_MAX;
  s_sound : forall v, v ∈ nodes g -> D s v < UINT32_MAX -> exists p, walk g src v p (D s v);
  s_bound : forall v, v ∈ nodes g -> D s v < UINT32_MAX -> D s v <= Z.of_nat (length Pl) * M;
  s_order : forall u v, u ∈ Pl -> v ∈ Q s -> D s u <= D s v;
  s_relaxed : forall u v w, u ∈ Pl -> wt g u v = Some w -> D s v <= D s u + w;
  s_sorted : forall u v, u ∈ Pl -> v ∈ Pl -> u ∉ upto v Pl -> D s v <= D s u;
  s_src : D s src = 0;
  s_prev : forall v, v ∈ nodes g -> prev s !! v = Some (filter (tight (dist s) v) (upto v Pl))
}.

Lemma relax_pt u s s' v w :
  relax no_ops g u s v = Some s' -> u ∉ Q s -> v ∈ Q s -> wt g u v = Some w -> 0 <= D s u + w < 2 ^ 32 ->
  Q s' = Q s /\ D s' v = Z.min (D s v) (D s u + w) /\
  (forall l, prev s !! v = Some l -> prev s' !! v =
     Some (if D s u + w <? D s v then [u] else if D s u + w =? D s v then l ++ [u] else l)) /\
  (forall x, x <> v -> D s' x = D s x /\ prev s' !! x = prev s !! x).
Proof.
  intros Hr Hu Hv Hw Hsmall. unfold relax in Hr. rewrite bool_decide_true in Hr by done.
  destruct (wt_Some g u v w Hw) as (_ & vs & e & _ & _ & He & Hm). rewrite He in Hr. cbn [mbind option_bind] in Hr.
  unfold no_ops in Hr. cbn [op_cost op_update] in Hr. rewrite Hm, wrap32_small in Hr by done.
  destruct (Z.ltb_spec (D s u + w) (D s v)).
  - destruct (prev s !! v) as [l|] eqn:El; simplify_eq/=. split; [done|].
    rewrite get_dist_insert, decide_True by done. split_and!; [lia| |].
    + intros l' [= <-]. apply lookup_insert_eq.
    + intros x Hx. rewrite get_dist_insert, decide_False, lookup_insert_ne by done. done.
  - destruct (Z.eqb_spec (D s u + w) (D s v)).
    + destruct (prev s !! v) as [l|] eqn:El; simplify_eq/=. split_and!; [done|lia| |].
      * intros l' [= <-]. apply lookup_insert_eq.
      * intros x Hx. by rewrite lookup_insert_ne by done.
    + simplify_eq. split_and!; [done|lia|done|done].
Qed.

Lemma relax_skip u s v : v ∉ Q s -> relax no_ops g u s v = Some s.
Proof. intros Hv. unfold relax. by rewrite bool_decide_false. Qed.

(** The whole neighbour loop, node by node. *)
Lemma relax_all_pt u vs : forall s s',
  relax_all no_ops g u s vs = Some s' -> NoDup vs -> u ∉ Q s ->
  (forall v, v ∈ vs -> v ∈ Q s -> exists w, wt g u v = Some w /\ 0 <= D s u + w < 2 ^ 32) ->
  (forall v w, v ∈ vs -> v ∈ Q s -> wt g u v = Some w ->
     D s' v = Z.min (D s v) (D s u + w) /\
     (forall l, prev s !! v = Some l -> prev s' !! v =
       Some (if D s u + w <? D s v then [u] else if D s u + w =? D s v then l ++ [u] else l))) /\
  (forall v, v ∉ vs \/ v ∉ Q s -> D s' v = D s v /\ prev s' !! v = prev s !! v).
Proof.
  induction vs as [|x vs IH]; intros s s' Hr Hnd Hu Hw; simpl in Hr.
  { simplify_eq. split; [by intros v w ?%not_elem_of_nil|done]. }
  apply NoDup_cons in Hnd as [Hx Hnd].
  destruct (relax no_ops g u s x) as [s1|] eqn:E; [|done]. simpl in Hr.
  destruct (decide (x ∈ Q s)) as [HxQ|HxQ].
  - destruct (Hw x) as (w & Hwx & Hsm); [by left|done|].
    destruct (relax_pt u s s1 x w E Hu HxQ Hwx Hsm) as (HQ & Hd & Hp & Hoth).
    assert (D s1 u = D s u) as Hdu by (apply Hoth; congruence).
    destruct (IH s1 s' Hr Hnd) as [H1 H2]; [by rewrite HQ| |].
    { intros v Hv HvQ. rewrite HQ in HvQ. rewrite Hdu. apply Hw; [by right|done]. }
    rewrite HQ, Hdu in *. split.
    + intros v w' Hv HvQ Hwv. apply elem_of_cons in Hv as [->|Hv].
      * rewrite Hwx in Hwv. simplify_eq. destruct (H2 x) as [-> ->]; [by left|]. done.
      * destruct (Hoth v) as [Ed Ep]; [congruence|]. rewrite <- Ed, <- Ep. by apply H1.
    + intros v Hv. rewrite not_elem_of_cons in Hv.
      assert (v <> x) as Hvx by (destruct Hv as [[? _]|?]; congruence).
      destruct (Hoth v Hvx) as [<- <-]. apply H2. tauto.
  - rewrite relax_skip in E by done. simplify_eq.
    destruct (IH s1 s' Hr Hnd Hu) as [H1 H2]; [intros; apply Hw; [by right|done]|]. split.
    + intros v w [->|Hv]%elem_of_cons HvQ; [done|by apply H1].
    + intros v Hv. apply H2. rewrite not_elem_of_cons in Hv. tauto.
Qed.

(** One turn of the main loop. *)
Section turn.
Context (s s' : dstate unit) (Pl : list Z) (u : Z) (L : list (list Z)) (vs : list Z).
Hypothesis W : WInv g src s Pl.
Hypothesis SI : SInv s Pl.
Hypothesis Hfm : find_min (dist s) (Q s) UINT32_MAX None = Some u.
Hypothesis HuQ : u ∈ Q s.
Hypothesis Hud : D s u < UINT32_MAX.
Hypothesis Hvs : neighs g !! u = Some vs.
Hypothesis Hnd : NoDup vs.
Hypothesis Hr : relax_all no_ops g u (moved u L s) vs = Some s'.
Hypothesis W' : WInv g src s' (Pl ++ [u]).
Hypothesis HQ' : Q s' = remove_first u (Q s).

Lemma t_queue x : x ∈ Q s' <-> x ∈ Q s /\ x <> u.
Proof.
  rewrite HQ'. apply remove_first_elem. by pose proof (w_nodup g src s Pl W) as [_ [_ Hq]]%NoDup_app.
Qed.

Lemma t_least x : x ∈ Q s -> D s u <= D s x.
Proof.
  intros Hx. destruct (find_min_least (dist s) (Q s) UINT32_MAX None u Hfm) with (v := x); done || lia.
Qed.

Lemma t_alt v w : wt g u v = Some w -> 0 <= D s u + w < UINT32_MAX /\ D s u + w <= Z.of_nat (length (Pl ++ [u])) * M.
Proof.
  intros Hw. pose proof (HM _ _ _ Hw). assert (u ∈ nodes g) as Hn by (apply (w_nodes _ _ _ _ _ W); by right).
  pose proof (s_bound _ _ SI u Hn Hud). pose proof (s_range _ _ SI u Hn). pose proof (w_length _ _ _ _ W).
  assert (0 < length (Q s))%nat by (destruct (Q s); [by apply not_elem_of_nil in HuQ|simpl; lia]).
  rewrite length_app. simpl. split; [split; [lia|]|nia].
  assert (D s u + w <= (Z.of_nat (length Pl) + 1) * M) by nia. nia.
Qed.

(** Distances and predecessors after the turn. *)
Lemma t_effect :
  (forall v w, v ∈ Q s' -> wt g u v = Some w ->
     D s' v = Z.min (D s v) (D s u + w) /\
     (forall l, prev s !! v = Some l -> prev s' !! v =
       Some (if D s u + w <? D s v then [u] else if D s u + w =? D s v then l ++ [u] else l))) /\
  (forall v, v ∉ Q s' \/ wt g u v = None -> D s' v = D s v /\ prev s' !! v = prev s !! v).
Proof.
  destruct (relax_all_pt u vs (moved u L s) s' Hr Hnd) as [H1 H2].
  - simpl. rewrite <- HQ', t_queue. tauto.
  - intros v Hv HvQ. simpl in *. rewrite <- HQ', t_queue in HvQ. destruct HvQ as [_ Hne].
    destruct (wf_min u vs v Hvs Hv Hne) as (e & He & _). exists (v_metric e).
    assert (wt g u v = Some (v_metric e)) as Hw.
    { unfold wt. destruct (Z.eqb_spec u v); [congruence|]. by rewrite Hvs, bool_decide_true, He by done. }
    split; [done|]. pose proof (t_alt v _ Hw) as [? _]. unfold UINT32_MAX in *. lia.
  - simpl in *. rewrite <- HQ' in *. split.
    + intros v w HvQ Hw. apply H1; [|done..]. destruct (wt_Some g u v w Hw) as (_ & vs' & e & Hvs' & ? & _). congruence.
    + intros v Hv. apply H2. destruct Hv as [|Hw]; [by right|]. destruct (decide (v ∈ Q s')) as [HvQ|]; [|by right].
      left. intros Hv. apply t_queue in HvQ as [_ Hne]. destruct (wf_min u vs v Hvs Hv Hne) as (e & He & _).
      unfold wt in Hw. destruct (Z.eqb_spec u v); [congruence|]. by rewrite Hvs, bool_decide_true, He in Hw by done.
Qed.

Lemma t_processed x : x ∈ Pl ++ [u] -> D s' x = D s x.
Proof. intros Hx. apply t_effect. left. intros HxQ. by apply (w_disj _ _ _ _ _ W' HxQ). Qed.

Lemma t_monotone v : v ∈ nodes g -> D s' v <= D s v.
Proof.
  intros Hv. destruct t_effect as [H1 H2]. destruct (decide (v ∈ Q s')) as [HQ|HQ].
  - destruct (wt g u v) as [w|] eqn:Hw; [|destruct (H2 v); [by right|lia]]. destruct (H1 v w HQ Hw) as [-> _]. lia.
  - destruct (H2 v); [by left|lia].
Qed.

Lemma wt_nodes x v w : x ∈ nodes g -> wt g x v = Some w -> v ∈ nodes g.
Proof.
  intros Hx Hw. destruct (wt_Some g x v w Hw) as (_ & xs & e & Hxs & Hin & _).
  destruct (wf_neighs x Hx) as (xs' & Hxs' & _ & Hsub). simplify_eq. by apply Hsub.
Qed.

Lemma t_relaxed x v w : x ∈ Pl ++ [u] -> wt g x v = Some w -> D s' v <= D s' x + w.
Proof.
  intros Hx Hw. rewrite (t_processed x Hx). pose proof (HM _ _ _ Hw).
  assert (x ∈ nodes g) as Hxn by (apply (w_nodes _ _ _ _ _ W'); by left).
  pose proof (wt_nodes x v w Hxn Hw) as Hvn. pose proof (t_monotone v Hvn).
  apply elem_of_app in Hx as [Hx|Hx%list_elem_of_singleton]; [pose proof (s_relaxed _ _ SI x v w Hx Hw); lia|subst x].
  destruct (decide (v ∈ Q s')) as [HQ|HQ].
  - destruct t_effect as [H1 _]. destruct (H1 v w HQ Hw) as [-> _]. lia.
  - apply (w_nodes _ _ _ _ _ W') in Hvn as [Hv|]; [|done]. rewrite (t_processed v Hv) in *.
    apply elem_of_app in Hv as [Hv| ->%list_elem_of_singleton]; [|lia]. pose proof (s_order _ _ SI v u Hv HuQ). lia.
Qed.

Lemma t_prev v : v ∈ nodes g -> prev s' !! v = Some (filter (tight (dist s') v) (upto v (Pl ++ [u]))).
Proof.
  intros Hv. pose proof (s_prev _ _ SI v Hv) as Hp. destruct t_effect as [H1 H2].
  assert (forall X : list Z, (forall x, x ∈ X -> x ∈ Pl) -> D s' v = D s v ->
    filter (tight (dist s') v) X = filter (tight (dist s) v) X) as Hsame.
  { intros X HX Hd. apply filter_ext_in. intros x Hx. unfold tight. destruct (wt g x v); [|done].
    rewrite (t_processed x), Hd; [done|]. apply elem_of_app. left. by apply HX. }
  destruct (decide (v ∈ Q s')) as [HQ|HQ].
  - pose proof (w_disj _ _ _ _ _ W' HQ) as Hout. rewrite (upto_out v _ Hout), filter_app.
    rewrite upto_out in Hp by (intros ?; apply Hout, elem_of_app; by left).
    assert (D s' u = D s u) as Hdu by (apply t_processed, elem_of_app; right; by left).
    destruct (wt g u v) as [w|] eqn:Hw.
    + destruct (H1 v w HQ Hw) as [Hd Hpl]. rewrite (Hpl _ Hp). f_equal.
      assert (tight (dist s') v u <-> D s u + w <= D s v) as Ht.
      { unfold tight. rewrite Hw, Hdu, Hd. lia. }
      rewrite filter_cons, filter_nil.
      destruct (Z.ltb_spec (D s u + w) (D s v)) as [Hlt|Hge].
      * rewrite filter_none, decide_True; [done|by apply Ht; lia|]. intros x Hx. unfold tight.
        destruct (wt g x v) as [wx|] eqn:Hwx; [|tauto]. rewrite (t_processed x) by (apply elem_of_app; by left).
        pose proof (s_relaxed _ _ SI x v wx Hx Hwx). lia.
      * rewrite Hsame by (done || lia).
        destruct (Z.eqb_spec (D s u + w) (D s v)); [rewrite decide_True by (apply Ht; lia); done|].
        rewrite decide_False by (rewrite Ht; lia). by rewrite app_nil_r.
    + destruct (H2 v) as [Hd Hpv]; [by right|]. rewrite Hpv, Hp. f_equal. rewrite (Hsame _ (fun _ H => H) Hd).
      rewrite filter_cons, filter_nil, decide_False by (unfold tight; rewrite Hw; tauto). by rewrite app_nil_r.
  - destruct (H2 v) as [Hd Hpv]; [by left|]. rewrite Hpv, Hp. f_equal.
    apply (w_nodes _ _ _ _ _ W') in Hv as [Hv|]; [|done].
    assert (upto v (Pl ++ [u]) = upto v Pl) as ->.
    { apply elem_of_app in Hv as [Hv| ->%list_elem_of_singleton]; [by apply upto_in_app|].
      pose proof (w_disj _ _ _ _ _ W HuQ). rewrite upto_app, (upto_out u Pl) by done. simpl.
      by rewrite Z.eqb_refl, app_nil_r. }
    symmetry. apply Hsame; [|done]. by intros x [? _]%upto_incl.
Qed.

Lemma turn_S : SInv s' (Pl ++ [u]).
Proof.
  destruct t_effect as [H1 H2].
  assert (u ∈ nodes g) as Hun by (apply (w_nodes _ _ _ _ _ W); by right).
  assert (forall v, v ∈ nodes g -> D s' v = D s v \/ exists w, wt g u v = Some w /\ D s' v = D s u + w) as Hcase.
  { intros v Hv. destruct (decide (v ∈ Q s')) as [HQ|HQ]; [|left; apply H2; by left].
    destruct (wt g u v) as [w|] eqn:Hw; [|left; apply H2; by right]. destruct (H1 v w HQ Hw) as [-> _].
    destruct (Z.min_spec (D s v) (D s u + w)) as [[_ ->]|[_ ->]]; eauto. }
  split.
  - intros v Hv. pose proof (s_range _ _ SI v Hv).
    destruct (Hcase v Hv) as [->|(w & Hw & ->)]; [done|]. pose proof (t_alt v w Hw) as [? _]. lia.
  - intros v Hv. destruct (Hcase v Hv) as [->|(w & Hw & ->)]; [by apply (s_sound _ _ SI)|]. intros _.
    destruct (s_sound _ _ SI u Hun Hud) as [p Hp]. exists (v :: p). by eapply walk_cons.
  - intros v Hv. destruct (Hcase v Hv) as [->|(w & Hw & ->)]; [|intros _; by apply (t_alt v)].
    intros Hd. pose proof (s_bound _ _ SI v Hv Hd). rewrite length_app. simpl. lia.
  - intros x v Hx HQ. rewrite (t_processed x Hx). pose proof HQ as [HvQ _]%t_queue.
    assert (v ∈ nodes g) as Hvn by (apply (w_nodes _ _ _ _ _ W); by right).
    assert (D s x <= D s u /\ D s x <= D s v) as [? ?].
    { pose proof (t_least v HvQ). apply elem_of_app in Hx as [Hx| ->%list_elem_of_singleton]; [|lia].
      split; by apply (s_order _ _ SI). }
    destruct (Hcase v Hvn) as [->|(w & Hw & ->)]; [done|]. pose proof (HM _ _ _ Hw). lia.
  - apply t_relaxed.
  - intros x v Hx Hv Hn. rewrite (t_processed x Hx), (t_processed v Hv).
    apply elem_of_app in Hv as [Hv| ->%list_elem_of_singleton].
    + rewrite upto_in_app in Hn by done.
      apply elem_of_app in Hx as [Hx| ->%list_elem_of_singleton]; [by apply (s_sorted _ _ SI)|by apply (s_order _ _ SI)].
    + rewrite upto_app in Hn by (by apply (w_disj _ _ _ _ _ W)). rewrite elem_of_app in Hn.
      apply elem_of_app in Hx as [Hx| ->%list_elem_of_singleton]; [tauto|lia].
  - pose proof (s_src _ _ SI). destruct (Hcase src Hsrc) as [->|(w & Hw & Hd)]; [done|].
    pose proof (t_alt src w Hw) as [? _]. pose proof (t_monotone src Hsrc). lia.
  - apply t_prev.
Qed.
End turn.

Lemma dijkstra_S :
  exists s Pl, graph_dijkstra no_ops g src = Some s /\ WInv g src s Pl /\ SInv s Pl /\
    forall v, v ∈ Q s -> UINT32_MAX <= D s v.
Proof.
  apply (dijkstra_W no_ops g src Hsrc SInv).
  - intros. eapply (turn_S s s' Pl u L vs); eauto.
  - intros s Hd Hp. assert (forall v, v ∈ nodes g -> D s v < UINT32_MAX -> v = src) as Hfin.
    { intros v Hv. rewrite Hd by done. destruct (Z.eqb_spec v src); [done|lia]. }
    assert (D s src = 0) as H0 by (rewrite Hd, Z.eqb_refl; done).
    split.
    + intros v Hv. rewrite Hd by done. destruct (v =? src); unfold UINT32_MAX; lia.
    + intros v Hv ->%Hfin; [|done]. rewrite H0. exists []. constructor.
    + intros v Hv ->%Hfin; [|done]. rewrite H0. simpl. lia.
    + by intros u v ?%not_elem_of_nil.
    + by intros u v w ?%not_elem_of_nil.
    + by intros u v ?%not_elem_of_nil.
    + done.
    + intros v Hv. rewrite Hp by done. done.
Qed.

(** What the final state says. *)
Section result.
Context (s : dstate unit) (Pl : list Z).
Hypothesis W : WInv g src s Pl.
Hypothesis SI : SInv s Pl.
Hypothesis Hend : forall v, v ∈ Q s -> UINT32_MAX <= D s v.

Lemma r_finite v : v ∈ nodes g -> D s v < UINT32_MAX <-> v ∈ Pl.
Proof.
  intros Hv. split; [|apply (w_fin _ _ _ _ W)]. intros Hd.
  apply (w_nodes _ _ _ _ _ W) in Hv as [|HvQ]; [done|]. specialize (Hend v HvQ). lia.
Qed.

Lemma r_lower v p c : walk g src v p c -> v ∈ nodes g /\ D s v <= c /\ D s v < UINT32_MAX.
Proof.
  induction 1 as [|u v p c w Hwalk [Hun [Hle Hlt]] Hu Hw].
  - rewrite (s_src _ _ SI). unfold UINT32_MAX. split_and!; [done|lia..].
  - pose proof (wt_nodes u v w Hu Hw) as Hv. assert (u ∈ Pl) as HuP by (by apply r_finite).
    pose proof (s_relaxed _ _ SI u v w HuP Hw). split_and!; [done|lia|].
    apply (w_nodes _ _ _ _ _ W) in Hv as Hv'. destruct Hv' as [HvP|HvQ]; [by apply (w_fin _ _ _ _ W)|].
    pose proof (s_bound _ _ SI u Hu Hlt). pose proof (HM _ _ _ Hw). pose proof (w_length _ _ _ _ W).
    assert (0 < length (Q s))%nat by (destruct (Q s); [by apply not_elem_of_nil in HvQ|simpl; lia]).
    assert (D s u + w <= (Z.of_nat (length Pl) + 1) * M) by nia. nia.
Qed.

Lemma r_shortest v p c : v ∈ nodes g -> shortest g src v p c <-> D s v < UINT32_MAX /\ c = D s v /\ walk g src v p (D s v).
Proof.
  intros Hv. split.
  - intros [Hw Hmin]. destruct (r_lower _ _ _ Hw) as (_ & Hle & Hlt).
    destruct (s_sound _ _ SI v Hv Hlt) as [p' Hp']. specialize (Hmin _ _ Hp').
    assert (c = D s v) as -> by lia. done.
  - intros (_ & -> & Hw). split; [done|]. intros p' c' Hp'. by apply (r_lower v p').
Qed.

Hypothesis Hpos : forall u v w, wt g u v = Some w -> 0 < w.

Lemma r_prev v u : v ∈ nodes g ->
  (exists l, prev s !! v = Some l /\ u ∈ l) <->
  u ∈ nodes g /\ D s v < UINT32_MAX /\ exists w, wt g u v = Some w /\ D s u + w = D s v.
Proof.
  intros Hv. rewrite (s_prev _ _ SI v Hv). split.
  - intros (l & [= <-] & [Ht [Hu _]%upto_incl]%list_elem_of_filter). unfold tight in Ht.
    destruct (wt g u v) as [w|] eqn:Hw; [|done].
    assert (u ∈ nodes g) as Hun by (apply (w_nodes _ _ _ _ _ W); by left).
    split_and!; [done| |by exists w].
    destruct (s_sound _ _ SI u Hun (w_fin _ _ _ _ W u Hu)) as [p Hp].
    exact (proj2 (proj2 (r_lower _ _ _ (walk_cons _ _ _ _ _ _ _ Hp Hun Hw)))).
  - intros (Hu & Hd & w & Hw & He). eexists. split; [done|]. apply list_elem_of_filter.
    split; [by unfold tight; rewrite Hw|]. pose proof (Hpos _ _ _ Hw).
    assert (u ∈ Pl) as HuP by (apply r_finite; [done|lia]). assert (v ∈ Pl) as HvP by (by apply r_finite).
    destruct (decide (u ∈ upto v Pl)) as [|Hn]; [done|]. pose proof (s_sorted _ _ SI u v HuP HvP Hn). lia.
Qed.

Lemma r_chain v p : v ∈ Pl -> chain (prev s) v p <-> walk g src v p (D s v).
Proof.
  intros HvP. split.
  - intros Hc. revert HvP. induction Hc as [v Hl|v u l q Hl Hu _ IH]; intros HvP;
      assert (v ∈ nodes g) as Hv by (apply (w_nodes _ _ _ _ _ W); by left).
    + destruct (w_prev _ _ _ _ W v Hv) as (l' & Hl' & _ & _ & Hp). simplify_eq.
      destruct (decide (v = src)) as [->|Hvs]; [rewrite (s_src _ _ SI); constructor|].
      exfalso. by apply (Hp Hvs (w_fin _ _ _ _ W v HvP)).
    + destruct (proj1 (r_prev v u Hv)) as (Hun & _ & w & Hw & He); [by eauto|].
      rewrite <- He. eapply walk_cons; [|done|done]. apply IH. apply r_finite; [done|].
      pose proof (Hpos _ _ _ Hw). pose proof (w_fin _ _ _ _ W v HvP). lia.
  - assert (forall c, walk g src v p c -> c = D s v -> chain (prev s) v p) as Hgo; [|by intros; eapply Hgo].
    intros c Hw. clear HvP. induction Hw as [|u v p c w Hwalk IH Hu Hw]; intros Hc.
    + constructor. rewrite (s_prev _ _ SI src Hsrc). f_equal. apply filter_none.
      intros u [Hu _]%upto_incl. unfold tight. destruct (wt g u src) as [w|] eqn:Hw; [|tauto].
      pose proof (Hpos _ _ _ Hw). rewrite (s_src _ _ SI).
      assert (u ∈ nodes g) as Hun by (apply (w_nodes _ _ _ _ _ W); by left).
      pose proof (s_range _ _ SI u Hun). lia.
    + destruct (r_lower _ _ _ Hwalk) as (_ & Hle & Hlt). pose proof (wt_nodes u v w Hu Hw) as Hv.
      assert (u ∈ Pl) as HuP by (by apply r_finite). pose proof (s_relaxed _ _ SI u v w HuP Hw).
      assert (c = D s u) as Hcu by lia.
      destruct (proj2 (r_prev v u Hv)) as (l & Hl & Hul).
      { split_and!; [done| |exists w; split; [done|lia]]. exact (proj2 (proj2 (r_lower _ _ _ (walk_cons _ _ _ _ _ _ _ Hwalk Hu Hw)))). }
      eapply chain_step; [done|done|by apply IH].
Qed.

Lemma r_paths v : v ∈ nodes g ->
  exists L, path s !! v = Some L /\ NoDup L /\ forall p, p ∈ L <-> exists c, shortest g src v p c.
Proof.
  intros Hv. destruct (w_path _ _ _ _ W v Hv) as (L & HL & Hin & Hout). exists L. split; [done|].
  destruct (decide (v ∈ Pl)) as [HvP|HvP].
  - specialize (Hin HvP). pose proof (w_closed _ _ _ _ _ W Hv) as Hc. split.
    + eapply (compute_paths_NoDup _ Pl src); [exact Hc| |exact Hin]. intros x l Hx Hl.
      assert (x ∈ Pl) as HxP by (destruct Hx as [->|]; done).
      destruct (w_prev _ _ _ _ W x) as (l' & Hl' & Hnd' & _ & Hp); [apply (w_nodes _ _ _ _ _ W); by left|].
      simplify_eq. split; [done|]. intros ->. destruct (decide (x = src)) as [|Hne]; [done|].
      exfalso. by apply (Hp Hne (w_fin _ _ _ _ W x HxP)).
    + intros p. rewrite (compute_paths_elem _ _ _ _ _ Hin). split.
      * intros (q & -> & Hq). exists (D s v). simpl. apply r_shortest; [done|]. split_and!; [by apply r_finite|done|].
        by apply r_chain.
      * intros [c (_ & -> & Hw)%r_shortest]; [|done]. exists p. split; [done|]. by apply r_chain.
  - rewrite (Hout HvP). split; [constructor|]. intros p. split; [by intros ?%not_elem_of_nil|].
    intros [c [Hd _]%r_shortest]; [|done]. exfalso. apply HvP. by apply r_finite.
Qed.
End result.
End distances.

(** ** Executable checks of the hypotheses *)

Definition wf_viewb (g : view) : bool :=
  bool_decide (NoDup (nodes g)) &&
  forallb (fun u => match neighs g !! u with
                    | Some vs => bool_decide (NoDup vs) && forallb (fun v => bool_decide (v ∈ nodes g)) vs
                    | None => false
                    end) (nodes g) &&
  forallb (fun '(u, vs) => forallb (fun v =>
             (v =? u) || match min_edges g !! (u, v) with
                         | Some e => (0 <=? v_metric e) && (v_metric e <? UINT32_MAX)
                         | None => false
                         end) vs) (map_to_list (neighs g)) &&
  forallb (fun '((u, v), e) => (v_local e =? u) && (v_remote e =? v) && negb (u =? v)) (map_to_list (min_edges g)).

Lemma forallb_elem {A} (f : A -> bool) l x : forallb f l = true -> x ∈ l -> f x = true.
Proof. intros Hf Hx. apply (proj1 (forallb_forall f l) Hf). by apply list_elem_of_In. Qed.

Lemma wf_viewb_spec g : wf_viewb g = true -> WfView g.
Proof.
  unfold wf_viewb. intros [[[Hn Hu]%andb_true_iff Hm]%andb_true_iff Hk]%andb_true_iff. split.
  - by apply bool_decide_eq_true in Hn.
  - intros u Hin. apply (forallb_elem _ _ _ Hu) in Hin. destruct (neighs g !! u) as [vs|]; [|done].
    apply andb_true_iff in Hin as [Hnd Hvs]. exists vs. split_and!; [done|by apply bool_decide_eq_true in Hnd|].
    intros v Hv. by apply (forallb_elem _ _ _ Hvs), bool_decide_eq_true in Hv.
  - intros u vs v Hvs Hv Hne. apply elem_of_map_to_list in Hvs.
    pose proof (forallb_elem _ _ _ (forallb_elem _ _ _ Hm Hvs) Hv) as Hb. simpl in Hb.
    apply orb_true_iff in Hb as [?%Z.eqb_eq|Hb]; [done|].
    destruct (min_edges g !! (u, v)) as [e|]; [|done]. exists e. bool_prop. split; [done|lia].
  - intros u v e He%elem_of_map_to_list. pose proof (forallb_elem _ _ _ Hk He) as Hb. simpl in Hb. by bool_prop.
Qed.

(** Metrics between [lo] and [M], and no overflow along any simple path. *)
Definition metrics_ok (g : view) (lo M : Z) : Prop :=
  0 <= M /\ Z.of_nat (length (nodes g)) * M < UINT32_MAX /\ forall u v w, wt g u v = Some w -> lo <= w <= M.

Definition metrics_okb (g : view) (lo M : Z) : bool :=
  (0 <=? M) && (Z.of_nat (length (nodes g)) * M <? UINT32_MAX) &&
  forallb (fun '(_, e) => (lo <=? v_metric e) && (v_metric e <=? M)) (map_to_list (min_edges g)).

Lemma metrics_okb_spec g lo M : metrics_okb g lo M = true -> metrics_ok g lo M.
Proof.
  unfold metrics_okb. intros [[H0 Hn]%andb_true_iff Hm]%andb_true_iff. bool_prop.
  split_and!; [done..|]. intros u v w Hw. unfold wt in Hw. destruct (u =? v); [done|].
  destruct (neighs g !! u) as [vs|]; [|done]. case_bool_decide; [|done].
  destruct (min_edges g !! (u, v)) as [e|] eqn:He; [|done]. apply elem_of_map_to_list in He.
  pose proof (forallb_elem _ _ _ Hm He) as Hb. simpl in Hb. simplify_eq/=. bool_prop. lia.
Qed.

(** A view from a list of edges (used for examples). *)
Definition view_of (ns : list Z) (es : list vedge) : view :=
  View ns
    (list_to_map (map (fun n => (n, map v_remote (List.filter (fun e => v_local e =? n) es))) ns))
    (list_to_map (map (fun e => ((v_local e, v_remote e), e)) es)).

(** Two equal-cost paths from 1 to 4. *)
Definition diamond : view :=
  view_of [1; 2; 3; 4] [VEdge 1 1 2 1 0; VEdge 2 1 3 1 0; VEdge 3 2 4 1 0; VEdge 4 3 4 1 0].

Lemma dijkstra_distances_ok (g : view) (src M : Z) :
  WfView g -> src ∈ nodes g -> metrics_ok g 0 M ->
  exists s, graph_dijkstra no_ops g src = Some s /\
    forall v, v ∈ nodes g ->
      (get_dist (dist s) v < UINT32_MAX /\ exists p, shortest g src v p (get_dist (dist s) v)) \/
      (get_dist (dist s) v = UINT32_MAX /\ forall p c, ~ walk g src v p c).
Proof.
  intros Wf Hsrc (HM0 & Hov & HM).
  destruct (dijkstra_S g src M Hsrc HM HM0 Hov) as (s & Pl & Hd & W & SI & Hend). exists s. split; [done|].
  intros v Hv. destruct (decide (get_dist (dist s) v < UINT32_MAX)) as [Hlt|Hge].
  - left. split; [done|]. destruct (s_sound _ _ _ _ _ SI v Hv Hlt) as [p Hp]. exists p.
    by apply (r_shortest g src M Hsrc HM HM0 Hov s Pl W SI Hend).
  - right. pose proof (s_range _ _ _ _ _ SI v Hv). split; [lia|]. intros p c Hw.
    destruct (r_lower g src M Hsrc HM HM0 Hov s Pl W SI Hend v p c Hw) as (_ & _ & ?). lia.
Qed.

(** ** Main results *)

(** C7. On a finalized graph whose metrics cannot overflow, [graph_dijkstra]
    (default costs) returns, and the distance it reports for every node is
    the cost of a shortest path, UINT32_MAX exactly when there is none. *)
Theorem dijkstra_shortest_distances (g : view) (src M : Z) :
  WfView g -> src ∈ nodes g -> metrics_ok g 0 M ->
  exists s, graph_dijkstra no_ops g src = Some s /\
    forall v, v ∈ nodes g ->
      (get_dist (dist s) v < UINT32_MAX /\ exists p, shortest g src v p (get_dist (dist s) v)) \/
      (get_dist (dist s) v = UINT32_MAX /\ forall p c, ~ walk g src v p c).
Proof. apply dijkstra_distances_ok. Qed.

Lemma dijkstra_shortest_distances_witness :
  exists s, graph_dijkstra no_ops diamond 1 = Some s /\
    forall v, v ∈ nodes diamond ->
      (get_dist (dist s) v < UINT32_MAX /\ exists p, shortest diamond 1 v p (get_dist (dist s) v)) \/
      (get_dist (dist s) v = UINT32_MAX /\ forall p c, ~ walk diamond 1 v p c).
Proof.
  apply (dijkstra_shortest_distances diamond 1 1); [|by left|].
  - apply wf_viewb_spec. vm_compute. reflexivity.
  - apply metrics_okb_spec. vm_compute. reflexivity.
Defined.

(** With positive metrics the predecessor lists are the shortest-path
    DAG: a node is listed before another exactly when the link between them
    closes a shortest path. *)
Theorem dijkstra_ecmp_predecessors (g : view) (src M : Z) :
  WfView g -> src ∈ nodes g -> metrics_ok g 1 M ->
  exists s, graph_dijkstra no_ops g src = Some s /\
    forall v u, v ∈ nodes g ->
      (exists l, prev s !! v = Some l /\ u ∈ l) <->
      u ∈ nodes g /\ get_dist (dist s) v < UINT32_MAX /\
      exists w, wt g u v = Some w /\ get_dist (dist s) u + w = get_dist (dist s) v.
Proof.
  intros Wf Hsrc (HM0 & Hov & HM).
  assert (forall u v w, wt g u v = Some w -> 0 <= w <= M) as HM' by (intros u v w Hw; specialize (HM u v w Hw); lia).
  assert (forall u v w, wt g u v = Some w -> 0 < w) as Hpos by (intros u v w Hw; specialize (HM u v w Hw); lia).
  destruct (dijkstra_S g src M Hsrc HM' HM0 Hov) as (s & Pl & Hd & W & SI & Hend). exists s. split; [done|].
  intros v u Hv. by apply (r_prev g src M Hsrc HM' HM0 Hov s Pl W SI Hend Hpos).
Qed.

Lemma dijkstra_ecmp_predecessors_witness :
  exists s, graph_dijkstra no_ops diamond 1 = Some s /\
    forall v u, v ∈ nodes diamond ->
      (exists l, prev s !! v = Some l /\ u ∈ l) <->
      u ∈ nodes diamond /\ get_dist (dist s) v < UINT32_MAX /\
      exists w, wt diamond u v = Some w /\ get_dist (dist s) u + w = get_dist (dist s) v.
Proof.
  apply (dijkstra_ecmp_predecessors diamond 1 1); [|by left|].
  - apply wf_viewb_spec. vm_compute. reflexivity.
  - apply metrics_okb_spec. vm_compute. reflexivity.
Defined.

(** C16. With positive metrics the paths listed for a node are all its
    shortest paths from the source, each once, and none for an unreachable
    node. *)
Theorem dijkstra_all_shortest_paths (g : view) (src M : Z) :
  WfView g -> src ∈ nodes g -> metrics_ok g 1 M ->
  exists s, graph_dijkstra no_ops g src = Some s /\
    forall v, v ∈ nodes g ->
      exists L, path s !! v = Some L /\ NoDup L /\ forall p, p ∈ L <-> exists c, shortest g src v p c.
Proof.
  intros Wf Hsrc (HM0 & Hov & HM).
  assert (forall u v w, wt g u v = Some w -> 0 <= w <= M) as HM' by (intros u v w Hw; specialize (HM u v w Hw); lia).
  assert (forall u v w, wt g u v = Some w -> 0 < w) as Hpos by (intros u v w Hw; specialize (HM u v w Hw); lia).
  destruct (dijkstra_S g src M Hsrc HM' HM0 Hov) as (s & Pl & Hd & W & SI & Hend). exists s. split; [done|].
  intros v Hv. by apply (r_paths g src M Hsrc HM' HM0 Hov s Pl W SI Hend Hpos).
Qed.

Lemma dijkstra_all_shortest_paths_witness :
  exists s, graph_dijkstra no_ops diamond 1 = Some s /\
    forall v, v ∈ nodes diamond ->
      exists L, path s !! v = Some L /\ NoDup L /\ forall p, p ∈ L <-> exists c, shortest diamond 1 v p c.
Proof.
  apply (dijkstra_all_shortest_paths diamond 1 1); [|by left|].
  - apply wf_viewb_spec. vm_compute. reflexivity.
  - apply metrics_okb_spec. vm_compute. reflexivity.
Defined.

(** Whatever the cost and update callbacks compute, [graph_dijkstra]
    returns (no failed assert, no null dereference, recursion and loop end),
    lists every node's paths without duplicates, and every listed path is a
    walk of the graph from the source to that node. *)
Theorem dijkstra_any_ops {S : Type} (ops : d_ops S) (g : view) (src : Z) :
  WfView g -> src ∈ nodes g ->
  exists s, graph_dijkstra ops g src = Some s /\
    forall v, v ∈ nodes g -> exists L, path s !! v = Some L /\ NoDup L /\
      forall p, p ∈ L -> exists c, walk g src v p c.
Proof.
  intros Wf Hsrc. destruct (dijkstra_W ops g src Hsrc (fun _ _ => True)) as (s & Pl & Hd & W & _ & _); [done..|].
  exists s. split; [done|]. intros v Hv. destruct (w_path _ _ _ _ W v Hv) as (L & HL & Hin & Hout).
  exists L. split; [done|]. destruct (decide (v ∈ Pl)) as [HvP|HvP].
  - specialize (Hin HvP). pose proof (w_closed _ _ _ _ _ W Hv) as Hc. split.
    + eapply (compute_paths_NoDup _ Pl src); [exact Hc| |exact Hin]. intros x l Hx Hl.
      assert (x ∈ Pl) as HxP by (destruct Hx as [->|]; done).
      destruct (w_prev _ _ _ _ W x) as (l' & Hl' & Hnd' & _ & Hp); [apply (w_nodes _ _ _ _ _ W); by left|].
      simplify_eq. split; [done|]. intros ->. destruct (decide (x = src)) as [|Hne]; [done|].
      exfalso. by apply (Hp Hne (w_fin _ _ _ _ W x HxP)).
    + intros p Hp. apply (compute_paths_elem _ _ _ _ _ Hin) in Hp as (q & -> & Hq).
      eapply (chain_walk g src); [done| |done|done]. intros ->. by apply not_elem_of_nil in HvP.
  - rewrite (Hout HvP). split; [constructor|]. by intros p ?%not_elem_of_nil.
Qed.

Lemma dijkstra_any_ops_witness :
  exists s, graph_dijkstra no_ops diamond 1 = Some s /\
    forall v, v ∈ nodes diamond -> exists L, path s !! v = Some L /\ NoDup L /\
      forall p, p ∈ L -> exists c, walk diamond 1 v p c.
Proof.
  apply (dijkstra_any_ops no_ops diamond 1); [|by left].
  apply wf_viewb_spec. vm_compute. reflexivity.
Defined.

(** The bound is needed: the sum is taken in 32 bits, so a path of cost
    2^32 + 50 is preferred to a direct link of metric 1000. *)
Theorem dijkstra_overflow :
  exists s, graph_dijkstra no_ops (view_of [1; 2; 3] [VEdge 1 1 2 100 0; VEdge 2 2 3 (2 ^ 32 - 50) 0; VEdge 3 1 3 1000 0]) 1
      = Some s /\
    get_dist (dist s) 3 = 50 /\ path s !! 3 = Some [[3; 2]].
Proof. eexists. split; [vm_compute; reflexivity|]. split; vm_compute; reflexivity. Qed.
