(* ===== verification/Segpath.v ===== *)
(** * Segment lists (sr-ctrl/graph.c: graph_minseg, build_segpath)

    From an explicit node path to the shortest list of node and adjacency
    segments, and back: [forwards] is what routers do with a segment list
    (follow the unique shortest path to a node segment, cross the link of an
    adjacency segment).  [None] is a null dereference. *)

From S2P Require Import Prelude Dijkstra.

Inductive segment := NodeSeg (n : Z) | AdjSeg (e : vedge).

(** The per-source results kept in [g->dcache]. *)
Abbreviation dcache := (gmap Z (dstate unit)).

(** [graph_build_cache_one], [graph_build_cache], [graph_flush_cache] *)
Definition graph_build_cache_one (g : view) (dc : dcache) (n : Z) : option dcache :=
  r ← graph_dijkstra no_ops g n; Some (<[n := r]> dc).

Fixpoint build_cache_nodes (g : view) (dc : dcache) (ns : list Z) : option dcache :=
  match ns with
  | [] => Some dc
  | n :: ns => dc ← graph_build_cache_one g dc n; build_cache_nodes g dc ns
  end.

Definition graph_build_cache (g : view) (dc : dcache) : option dcache := build_cache_nodes g dc (nodes g).

Definition graph_flush_cache (dc : dcache) : dcache := ∅.

(** The cached result, or a fresh one. *)
Definition get_dres (g : view) (dc : dcache) (n : Z) : option (dstate unit) :=
  match dc !! n with
  | Some r => Some r
  | None => graph_dijkstra no_ops g n
  end.

Definition insert_node_segment (node_i : Z) (res : list segment) : list segment := res ++ [NodeSeg node_i].

(** The return code and the list. *)
Definition insert_adj_segment (g : view) (node_i node_ii : Z) (res : list segment) : Z * list segment :=
  match min_edges g !! (node_i, node_ii) with
  | None => (-1, res)
  | Some edge => (0, res ++ [AdjSeg edge])
  end.

(** One turn of the loop of [graph_minseg]: return code, new [node_r], list. *)
Definition minseg_turn (g : view) (dc : dcache) (node_r node_i node_ii : Z) (res : list segment)
    : option (Z * Z * list segment) :=
  res_i ← get_dres g dc node_i;
  res_r ← get_dres g dc node_r;
  prev_r ← prev res_r !! node_ii;
  let breaks :=
    prev_i ← prev res_i !! node_ii;
    if bool_decide (length (prev_i : list Z) = 1)%nat then
      Some (0, node_i, insert_node_segment node_i res)
    else
      let '(rc, res) := insert_adj_segment g node_i node_ii (insert_node_segment node_i res) in
      Some (rc, node_ii, res) in
  let splits :=
    prev_i ← prev res_i !! node_ii;
    if bool_decide (1 < length (prev_i : list Z))%nat then
      let '(rc, res) := insert_adj_segment g node_i node_ii (insert_node_segment node_i res) in
      Some (rc, node_ii, res)
    else Some (0, node_i, insert_node_segment node_i res) in
  if bool_decide (node_i ∈ (prev_r : list Z)) then
    if bool_decide (length (prev_r : list Z) <= 1)%nat then Some (0, node_r, res) else splits
  else breaks.

Fixpoint minseg_loop (g : view) (dc : dcache) (node_r : Z) (path : list Z) (res : list segment)
    : option (Z * list segment) :=
  match path with
  | node_i :: ((node_ii :: _) as rest) =>
      '(rc, node_r, res) ← minseg_turn g dc node_r node_i node_ii res;
      if rc <? 0 then Some (-1, res) else minseg_loop g dc node_r rest res
  | _ => Some (0, res)
  end.

Definition graph_minseg (g : view) (dc : dcache) (path : list Z) (res : list segment) : option (Z * list segment) :=
  match path with
  | [] => Some (0, res)
  | node_i :: _ => minseg_loop g dc node_i path res
  end.

(** The edges of a node path; the inner [None] is NULL. *)
Fixpoint nodes_to_edges (g : view) (path : list Z) : option (list vedge) :=
  match path with
  | node_i :: ((node_ii :: _) as rest) =>
      e ← min_edges g !! (node_i, node_ii); es ← nodes_to_edges g rest; Some (e :: es)
  | _ => Some []
  end.

(** Segments as compared by id. *)
Definition seg_eq (s1 s2 : segment) : bool :=
  match s1, s2 with
  | AdjSeg e1, AdjSeg e2 => v_eid e1 =? v_eid e2
  | NodeSeg n1, NodeSeg n2 => n1 =? n2
  | _, _ => false
  end.

Fixpoint compare_loop (segs1 segs2 : list segment) : bool :=
  match segs1, segs2 with
  | [], _ => true
  | s1 :: segs1, s2 :: segs2 => if seg_eq s1 s2 then compare_loop segs1 segs2 else false
  | _ :: _, [] => false
  end.

Definition compare_segments (segs1 segs2 : list segment) : bool :=
  if bool_decide (length segs1 = length segs2) then compare_loop segs1 segs2 else false.

(** ** build_segpath *)

Definition adj_to (s : option segment) (n : Z) : bool :=
  match s with Some (AdjSeg e) => v_remote e =? n | _ => false end.

Section build.
Context {S : Type} (ops : d_ops S) (g gc : view) (dc : dcache).

(** One waypoint: [None] undefined, [Some None] the error exit. *)
Definition segpath_leg (cur_node tmp_node : Z) (res : list segment) (fpath : list Z)
    : option (option (list segment * list Z)) :=
  gres ← graph_dijkstra ops gc cur_node;
  tmp_paths ← path gres !! tmp_node;
  match tmp_paths with
  | [] => Some None
  | tmp_path :: _ =>
      let rev_path := cur_node :: rev tmp_path in
      '(rc, res) ← graph_minseg g dc rev_path res;
      if rc <? 0 then Some None
      else
        let fpath := fpath ++ rev_path in
        let res := if adj_to (last res) tmp_node then res else insert_node_segment tmp_node res in
        Some (Some (res, fpath))
  end.

Fixpoint segpath_legs (cur_node : Z) (path : list Z) (res : list segment) (fpath : list Z)
    : option (option (list segment * list Z)) :=
  match path with
  | [] => Some (Some (res, fpath))
  | tmp_node :: path =>
      r ← segpath_leg cur_node tmp_node res fpath;
      match r with
      | None => Some None
      | Some (res, fpath) => segpath_legs tmp_node path res fpath
      end
  end.

(** The segment list and the edge path, or NULL. *)
Definition build_segpath_on (src : Z) (via : list Z) (dst : Z)
    : option (option (list segment * option (list vedge))) :=
  r ← segpath_legs src (via ++ [dst]) [] [];
  match r with
  | None => Some None
  | Some (res, fpath) => Some (Some (res, nodes_to_edges g fpath))
  end.
End build.

(** [struct pathspec]; [prune], when set, works on a finalized clone. *)
Record pathspec (S : Type) := PathSpec {
  ps_src : Z; ps_dst : Z; ps_via : list Z; ps_prune : option (view -> view); ps_ops : d_ops S
}.
Arguments PathSpec {S}.
Arguments ps_src {S}.
Arguments ps_dst {S}.
Arguments ps_via {S}.
Arguments ps_prune {S}.
Arguments ps_ops {S}.

(** The graph paths are computed on. *)
Definition path_view {S} (g : view) (ps : pathspec S) : view :=
  match ps_prune ps with Some prune => prune g | None => g end.

Definition build_segpath {S} (g : view) (dc : dcache) (ps : pathspec S)
    : option (option (list segment * option (list vedge))) :=
  let gc := path_view g ps in
  build_segpath_on (ps_ops ps) g gc dc (ps_src ps) (ps_via ps) (ps_dst ps).

(** ** What a segment list makes the network do *)

Definition unique_sp (g : view) (a b : Z) (p : list Z) : Prop :=
  (exists c, shortest g a b p c) /\ forall p' c, shortest g a b p' c -> p' = p.

(** From [a], the segments lead through the nodes [p] to [b]. *)
Inductive forwards (g : view) : Z -> list segment -> list Z -> Z -> Prop :=
| fw_nil a : forwards g a [] [] a
| fw_node a x segs p q b : unique_sp g a x p -> forwards g x segs q b -> forwards g a (NodeSeg x :: segs) (rev p ++ q) b
| fw_adj e segs q b : min_edges g !! (v_local e, v_remote e) = Some e -> forwards g (v_remote e) segs q b ->
    forwards g (v_local e) (AdjSeg e :: segs) (v_remote e :: q) b.

(** The last node of a path that starts at [i]. *)
Fixpoint end_of (i : Z) (path : list Z) : Z :=
  match path with [] => i | x :: l => end_of x l end.

(** Every hop of the path is the shortest way to its end. *)
Fixpoint hops (g : view) (path : list Z) : Prop :=
  match path with
  | i :: ((ii :: _) as rest) => (exists w, shortest g i ii [ii] w) /\ hops g rest
  | _ => True
  end.

(** ** Facts on shortest walks *)

(** [u] precedes [v] on a shortest walk from [r]. *)
Definition pred (g : view) (r v u : Z) : Prop :=
  exists p c w, shortest g r u p c /\ wt g u v = Some w /\ u ∈ nodes g /\ shortest g r v (v :: p) (c + w).

Section shortest.
Context (g : view) `{!WfView g} (M : Z).
Hypothesis Hok : metrics_ok g 1 M.

Lemma wt_pos u v w : wt g u v = Some w -> 0 < w.
Proof. destruct Hok as (_ & _ & HM). intros Hw. specialize (HM u v w Hw). lia. Qed.

Lemma walk_cost a b p c : walk g a b p c -> 0 <= c /\ (c = 0 -> p = [] /\ b = a).
Proof.
  induction 1 as [|u v p c w _ [Hc _] _ Hw]; [done|]. pose proof (wt_pos _ _ _ Hw). split; [lia|]. lia.
Qed.

Lemma walk_app a b c p q m n : walk g a b p m -> walk g b c q n -> walk g a c (q ++ p) (m + n).
Proof.
  intros Hp. induction 1 as [|u v q n w _ IH Hu Hw]; [by rewrite Z.add_0_r|].
  rewrite Z.add_assoc. simpl. by apply (walk_cons _ _ u).
Qed.

Lemma shortest_nil a : shortest g a a [] 0.
Proof. split; [constructor|]. intros p c Hw. by apply walk_cost in Hw as [? _]. Qed.

Lemma shortest_cost a b p c p' c' : shortest g a b p c -> shortest g a b p' c' -> c = c'.
Proof. intros [H1 M1] [H2 M2]. specialize (M1 _ _ H2). specialize (M2 _ _ H1). lia. Qed.

Lemma unique_sp_refl a : unique_sp g a a [].
Proof.
  split; [exists 0; apply shortest_nil|]. intros p c Hs. pose proof (shortest_cost _ _ _ _ _ _ Hs (shortest_nil a)).
  subst. destruct Hs as [Hw _]. by apply walk_cost in Hw as [_ [-> _]].
Qed.

(** A shortest walk begins with shortest walks and ends with shortest links. *)
Lemma shortest_cons a v p c :
  shortest g a v (v :: p) c -> exists u c1 w, shortest g a u p c1 /\ wt g u v = Some w /\ u ∈ nodes g /\ c = c1 + w.
Proof.
  intros [Hw Hmin]. inversion Hw as [|u ? ? c1 w H1 Hu Hl]; simplify_eq. exists u, c1, w. split_and!; [|done..].
  split; [done|]. intros p' c' Hp'. pose proof (Hmin _ _ (walk_cons _ _ _ _ _ _ _ Hp' Hu Hl)). lia.
Qed.

Lemma shortest_last_link a u v p c w :
  shortest g a u p c -> u ∈ nodes g -> wt g u v = Some w -> shortest g a v (v :: p) (c + w) -> shortest g u v [v] w.
Proof.
  intros [Hu _] Hn Hw [_ Hmin]. split.
  - change w with (0 + w). apply (walk_cons _ _ u); [constructor|done|done].
  - intros p' c' Hp'. pose proof (Hmin _ _ (walk_app _ _ _ _ _ _ _ Hu Hp')). lia.
Qed.

Lemma walk_shape a b p c : walk g a b p c -> p = [] /\ b = a \/ exists q, p = b :: q.
Proof. destruct 1; eauto. Qed.

(** The only predecessor continues the only path. *)
Lemma unique_sp_step r i ii p :
  unique_sp g r i p -> pred g r ii i -> (forall u, pred g r ii u -> u = i) -> unique_sp g r ii (ii :: p).
Proof.
  intros [_ Hup] (p' & c & w & Hs & Hw & Hn & Hs') Hpred. rewrite (Hup _ _ Hs) in *. clear p' Hs.
  split; [by eauto|]. intros q c' Hq.
  pose proof (shortest_cost _ _ _ _ _ _ Hq Hs') as ->. destruct (walk_shape _ _ _ _ (proj1 Hq)) as [[-> ->]|[q' ->]].
  - exfalso. pose proof (proj2 Hs' _ _ (walk_nil _ _)). pose proof (wt_pos _ _ _ Hw).
    destruct (shortest_cons _ _ _ _ Hs') as (u & c1 & w' & [Hc1 _] & Hw' & _ & He).
    apply walk_cost in Hc1 as [? _]. pose proof (wt_pos _ _ _ Hw'). lia.
  - destruct (shortest_cons _ _ _ _ Hq) as (u & c1 & w' & Hu & Hw' & Hun & He). f_equal.
    assert (u = i) as ->.
    { apply Hpred. exists q', c1, w'. split_and!; [done..|]. by rewrite <- He. }
    by apply (Hup q' c1).
Qed.

Lemma hops_snoc l u v w : hops g (l ++ [u]) -> shortest g u v [v] w -> hops g (l ++ [u; v]).
Proof.
  induction l as [|x l IH]; simpl; [by eauto|]. destruct l as [|y l]; simpl in *; [naive_solver|].
  intros [? ?] Hs. split; [done|]. by apply IH.
Qed.

Lemma walk_last a u p c : walk g a u p c -> exists l, a :: rev p = l ++ [u].
Proof.
  intros Hw. destruct (walk_shape _ _ _ _ Hw) as [[-> ->]|[q ->]]; [by exists []|].
  exists (a :: rev q). done.
Qed.

(** A shortest path is made of shortest hops. *)
Lemma shortest_hops a v p c :
  shortest g a v p c -> a ∈ nodes g -> hops g (a :: rev p) /\ Forall (fun x => x ∈ nodes g) p.
Proof.
  intros [Hw Hmin] Ha. revert Hmin. induction Hw as [|u v p c w Hwalk IH Hu Hw]; intros Hmin; [done|].
  assert (shortest g a v (v :: p) (c + w)) as Hs by (split; [by apply (walk_cons _ _ u)|done]).
  assert (shortest g a u p c) as Hsu.
  { split; [done|]. intros p' c' Hp'. pose proof (Hmin _ _ (walk_cons _ _ _ _ _ _ _ Hp' Hu Hw)). lia. }
  destruct IH as [Hh Hall]; [apply Hsu|]. split; [|constructor; [by apply (wt_nodes g u v w)|done]].
  cbn [rev]. destruct (walk_last _ _ _ _ Hwalk) as [l Hl].
  assert (a :: rev p ++ [v] = l ++ [u; v]) as ->.
  { rewrite app_comm_cons, Hl, <- app_assoc. done. }
  rewrite Hl in Hh. eapply hops_snoc; [done|]. by apply (shortest_last_link a _ _ p c w).
Qed.

(** What the per-source results say, for segments. *)
Record dres_ok (r : Z) (s : dstate unit) : Prop := {
  dr_prev : forall v, v ∈ nodes g -> exists l, prev s !! v = Some l /\ NoDup l /\ forall u, u ∈ l <-> pred g r v u;
  dr_path : forall v, v ∈ nodes g -> exists L, path s !! v = Some L /\ forall p, p ∈ L <-> exists c, shortest g r v p c;
  dr_reach : forall v p c, walk g r v p c -> exists p c, shortest g r v p c
}.

Lemma dijkstra_dres r : r ∈ nodes g -> exists s, graph_dijkstra no_ops g r = Some s /\ dres_ok r s.
Proof.
  intros Hr. pose proof Hok as (HM0 & Hov & HM).
  assert (forall u v w, wt g u v = Some w -> 0 <= w <= M) as HM' by (intros u v w Hw; specialize (HM u v w Hw); lia).
  destruct (dijkstra_S g r M Hr HM' HM0 Hov) as (s & Pl & Hd & W & SI & Hend). exists s. split; [done|].
  pose proof (r_shortest g r M Hr HM' HM0 Hov s Pl W SI Hend) as Hsh.
  pose proof (r_prev g r M Hr HM' HM0 Hov s Pl W SI Hend wt_pos) as Hpr. split.
  - intros v Hv. destruct (w_prev _ _ _ _ W v Hv) as (l & Hl & Hnd & _). exists l. split_and!; [done..|].
    intros u. assert (u ∈ l <-> exists l, prev s !! v = Some l /\ u ∈ l) as -> by naive_solver.
    rewrite Hpr by done. split.
    + intros (Hu & Hlt & w & Hw & He). pose proof (wt_pos _ _ _ Hw).
      destruct (s_sound _ _ _ _ _ SI u Hu) as [p Hp]; [lia|]. exists p, (get_dist (dist s) u), w.
      split_and!; [|done|done|].
      * apply Hsh; [done|]. split_and!; [lia|done|done].
      * apply Hsh; [done|]. split_and!; [done|done|]. rewrite <- He. by apply (walk_cons _ _ u).
    + intros (p & c & w & Hs & Hw & Hu & Hs'). apply Hsh in Hs as (? & -> & _); [|done].
      apply Hsh in Hs' as (? & ? & _); [|done]. split_and!; [done..|]. by exists w.
  - intros v Hv. destruct (r_paths g r M Hr HM' HM0 Hov s Pl W SI Hend wt_pos v Hv) as (L & HL & _ & Hp). by exists L.
  - intros v p c Hw. destruct (r_lower g r M Hr HM' HM0 Hov s Pl W SI Hend v p c Hw) as (Hv & _ & Hlt).
    destruct (s_sound _ _ _ _ _ SI v Hv Hlt) as [q Hq]. exists q, (get_dist (dist s) v). by apply Hsh.
Qed.

(** A cache holds what [graph_dijkstra] would compute. *)
Definition cache_ok (dc : dcache) : Prop := forall n r, dc !! n = Some r -> graph_dijkstra no_ops g n = Some r.

Lemma get_dres_ok dc r : cache_ok dc -> r ∈ nodes g -> exists s, get_dres g dc r = Some s /\ dres_ok r s.
Proof.
  intros Hdc Hr. destruct (dijkstra_dres r Hr) as (s & Hs & Hd). exists s. split; [|done].
  unfold get_dres. destruct (dc !! r) eqn:E; [|done]. by rewrite (Hdc _ _ E) in Hs.
Qed.

(** ** Segment lists follow the path *)

Lemma fw_app a b c s1 s2 p q : forwards g a s1 p b -> forwards g b s2 q c -> forwards g a (s1 ++ s2) (p ++ q) c.
Proof.
  induction 1 as [|a x segs p p' b Hu _ IH|e segs p b He _ IH]; intros H2; simpl; [done| |].
  - rewrite <- app_assoc. constructor; auto.
  - constructor; auto.
Qed.

Lemma fw_node1 a x p : unique_sp g a x p -> forwards g a [NodeSeg x] (rev p) x.
Proof. intros Hu. rewrite <- (app_nil_r (rev p)). apply fw_node; [done|constructor]. Qed.

Lemma fw_adj1 u v e : min_edges g !! (u, v) = Some e -> forwards g u [AdjSeg e] [v] v.
Proof.
  intros He. destruct (wf_edge _ _ _ He) as (<- & <- & _). apply fw_adj; [done|constructor].
Qed.

(** After [segs] the packet is at [r], from where the rest of [p] is forced. *)
Definition stage (a : Z) (segs : list segment) (p : list Z) (r i : Z) : Prop :=
  exists p0 mid, p = p0 ++ mid /\ forwards g a segs p0 r /\ unique_sp g r i (rev mid) /\ r ∈ nodes g /\
    forall e, last segs = Some (AdjSeg e) -> v_remote e = r.

Lemma stage_node a segs p r i : stage a segs p r i -> forwards g a (segs ++ [NodeSeg i]) p i.
Proof.
  intros (p0 & mid & -> & Hf & Hu & _). eapply fw_app; [done|]. rewrite <- (rev_involutive mid). by apply fw_node1.
Qed.

Lemma hop_link i ii w : i ∈ nodes g -> shortest g i ii [ii] w ->
  wt g i ii = Some w /\ pred g i ii i.
Proof.
  intros Hi Hs. destruct (shortest_cons _ _ _ _ Hs) as (u & c1 & w' & Hu & Hw & Hn & He).
  destruct (walk_shape _ _ _ _ (proj1 Hu)) as [[_ ->]|[q ?]]; [|done].
  pose proof (shortest_cost _ _ _ _ _ _ Hu (shortest_nil i)). simplify_eq. split; [done|].
  exists [], 0, w'. split_and!; [apply shortest_nil|done|done|done].
Qed.

(** The two ways to break the path at [i]. *)
Lemma stage_break a segs p r i ii w l_i :
  stage a segs p r i -> i ∈ nodes g -> ii ∈ nodes g -> shortest g i ii [ii] w ->
  (forall u, u ∈ l_i <-> pred g i ii u) -> (length l_i = 1)%nat ->
  stage a (segs ++ [NodeSeg i]) (p ++ [ii]) i ii.
Proof.
  intros Hst Hi Hii Hs Hl Hlen. destruct (hop_link i ii w Hi Hs) as [Hw Hp].
  exists p, [ii]. split_and!; [done|by eapply stage_node| |done|by intros e; rewrite last_snoc].
  apply (unique_sp_step i i); [apply unique_sp_refl|done|]. intros u Hu.
  apply Hl in Hu, Hp. destruct l_i as [|x [|? ?]]; try done.
  apply list_elem_of_singleton in Hu, Hp. congruence.
Qed.

Lemma stage_adj a segs p r i ii w :
  stage a segs p r i -> i ∈ nodes g -> ii ∈ nodes g -> shortest g i ii [ii] w ->
  exists e, insert_adj_segment g i ii (segs ++ [NodeSeg i]) = (0, (segs ++ [NodeSeg i]) ++ [AdjSeg e]) /\
    stage a ((segs ++ [NodeSeg i]) ++ [AdjSeg e]) (p ++ [ii]) ii ii.
Proof.
  intros Hst Hi Hii Hs. destruct (hop_link i ii w Hi Hs) as [Hw _].
  destruct (wt_Some g i ii w Hw) as (_ & vs & e & _ & _ & He & _). exists e. unfold insert_adj_segment. rewrite He.
  split; [done|]. exists (p ++ [ii]), []. rewrite app_nil_r. split_and!; [done| |apply unique_sp_refl|done|].
  - eapply fw_app; [by eapply stage_node|]. by apply fw_adj1.
  - intros e'. rewrite last_snoc. intros [= <-]. by destruct (wf_edge _ _ _ He) as (_ & ? & _).
Qed.

Lemma minseg_turn_stage dc a segs p r i ii w :
  cache_ok dc -> stage a segs p r i -> i ∈ nodes g -> ii ∈ nodes g -> shortest g i ii [ii] w ->
  exists r' segs', minseg_turn g dc r i ii segs = Some (0, r', segs') /\ stage a segs' (p ++ [ii]) r' ii.
Proof.
  intros Hdc Hst Hi Hii Hs. pose proof Hst as (p0 & mid & -> & Hf & Hu & Hr & Hlast).
  destruct (get_dres_ok dc i Hdc Hi) as (s_i & Hgi & Di). destruct (get_dres_ok dc r Hdc Hr) as (s_r & Hgr & Dr).
  destruct (dr_prev _ _ Di ii Hii) as (l_i & Hli & _ & Hpi). destruct (dr_prev _ _ Dr ii Hii) as (l_r & Hlr & _ & Hpr).
  destruct (hop_link i ii w Hi Hs) as [_ Hpred]. pose proof (proj2 (Hpi i) Hpred) as Hin.
  destruct (stage_adj _ _ _ _ _ _ _ Hst Hi Hii Hs) as (e & Hadj & Hst').
  unfold minseg_turn. rewrite Hgi, Hgr. cbn [mbind option_bind]. rewrite Hlr, Hli. cbn [mbind option_bind].
  unfold insert_node_segment. rewrite Hadj.
  assert ((length l_i = 1)%nat \/ (1 < length l_i)%nat) as Hlen.
  { destruct l_i as [|? [|? ?]]; simpl; [by apply not_elem_of_nil in Hin|by left|right; lia]. }
  destruct (decide (i ∈ l_r)) as [Hir|Hir]; [rewrite (bool_decide_true _ Hir)|rewrite (bool_decide_false _ Hir)].
  - destruct (decide (length l_r <= 1)%nat) as [Hle|Hgt]; [rewrite (bool_decide_true _ Hle)|rewrite (bool_decide_false _ Hgt)].
    + eexists _, _. split; [done|]. exists p0, (mid ++ [ii]). rewrite app_assoc. split_and!; [done|done| |done|done].
      rewrite rev_app_distr. simpl. apply (unique_sp_step r i); [done|by apply Hpr|].
      intros u Hu'. apply Hpr in Hu'. destruct l_r as [|x [|? ?]]; simpl in Hle; [by apply not_elem_of_nil in Hu'| |lia].
      apply list_elem_of_singleton in Hu', Hir. congruence.
    + destruct Hlen as [Hlen|Hlen].
      * rewrite bool_decide_false by lia. eexists _, _. split; [done|]. by eapply stage_break.
      * rewrite bool_decide_true by lia. eexists _, _. split; [done|]. done.
  - destruct Hlen as [Hlen|Hlen].
    + rewrite bool_decide_true by lia. eexists _, _. split; [done|]. by eapply stage_break.
    + rewrite bool_decide_false by lia. eexists _, _. split; [done|]. done.
Qed.

Lemma minseg_loop_stage dc a path : forall segs p r i,
  cache_ok dc -> stage a segs p r i -> hops g (i :: path) -> Forall (fun x => x ∈ nodes g) (i :: path) ->
  exists segs' r', minseg_loop g dc r (i :: path) segs = Some (0, segs') /\
    stage a segs' (p ++ path) r' (end_of i path).
Proof.
  induction path as [|ii path IH]; intros segs p r i Hdc Hst Hh Hn.
  { exists segs, r. rewrite app_nil_r. done. }
  destruct Hh as [[w Hw] Hh]. apply Forall_cons in Hn as [Hi Hn]. pose proof Hn as [Hii _]%Forall_cons.
  destruct (minseg_turn_stage dc a segs p r i ii w) as (r1 & segs1 & Ht & Hst1); [done..|].
  destruct (IH segs1 (p ++ [ii]) r1 ii) as (segs2 & r2 & Hl & Hst2); [done..|].
  exists segs2, r2. split.
  - cbn [minseg_loop]. rewrite Ht. cbn [mbind option_bind]. exact Hl.
  - by rewrite <- app_assoc in Hst2.
Qed.

(** ** build_segpath *)

Lemma end_of_app a l x : end_of a (l ++ [x]) = x.
Proof. revert a. induction l as [|y l IH]; intros a; simpl; [done|]. apply IH. Qed.

Lemma end_of_walk a v p c : walk g a v p c -> end_of a (rev p) = v.
Proof.
  intros Hw. destruct (walk_shape _ _ _ _ Hw) as [[-> ->]|[q ->]]; [done|]. simpl. apply end_of_app.
Qed.

Definition ends_at (segs : list segment) (n : Z) : Prop :=
  forall e, last segs = Some (AdjSeg e) -> v_remote e = n.

(** Shortest legs through waypoints, and the node list they make. *)
Inductive legs : Z -> list Z -> list Z -> Prop :=
| legs_nil a : legs a [] []
| legs_cons a t ts q c p : shortest g a t q c -> legs t ts p -> legs a (t :: ts) (rev q ++ p).

(** The recorded node path, chosen on [g], and its edges. *)
Lemma segpath_legs_fpath g0 dc ts : forall cur res fpath res' fpath',
  cur ∈ nodes g -> Forall (fun t => t ∈ nodes g) ts ->
  segpath_legs no_ops g0 g dc cur ts res fpath = Some (Some (res', fpath')) ->
  match ts with
  | [] => fpath' = fpath
  | t :: ts => exists q c fp, shortest g cur t q c /\ fpath' = fpath ++ cur :: rev q ++ fp /\
      (ts = [] -> fp = []) /\ (ts <> [] -> exists fp', fp = t :: fp')
  end.
Proof.
  induction ts as [|t ts IH]; intros cur res fpath res' fpath' Hcur Hts Hr; [by simplify_eq/=|].
  apply Forall_cons in Hts as [Ht Hts]. cbn [segpath_legs] in Hr. unfold segpath_leg in Hr.
  destruct (dijkstra_dres cur Hcur) as (s & Hs & Ds). rewrite Hs in Hr. cbn [mbind option_bind] in Hr.
  destruct (dr_path _ _ Ds t Ht) as (L & HL & Hpaths). rewrite HL in Hr. cbn [mbind option_bind] in Hr.
  destruct L as [|q L]; [done|]. destruct (proj1 (Hpaths q)) as [c Hq]; [by left|].
  destruct (graph_minseg g0 dc (cur :: rev q) res) as [[rc res1]|]; [|done]. cbn [mbind option_bind] in Hr.
  destruct (rc <? 0); [done|]. specialize (IH _ _ _ _ _ Ht Hts Hr). exists q, c.
  destruct ts as [|t2 ts].
  - exists []. subst. rewrite app_nil_r. done.
  - destruct IH as (q2 & c2 & fp & Hq2 & -> & _ & _). exists (t :: rev q2 ++ fp). split_and!; [done| |done|by eauto].
    by rewrite <- app_assoc.
Qed.

Lemma nodes_to_edges_dup l x l' : nodes_to_edges g (l ++ x :: x :: l') = None.
Proof.
  induction l as [|y l IH].
  - cbn [app nodes_to_edges]. destruct (min_edges g !! (x, x)) as [e|] eqn:E; [|done].
    destruct (wf_edge _ _ _ E) as (_ & _ & ?). done.
  - cbn [app nodes_to_edges]. destruct (l ++ x :: x :: l') as [|z l0] eqn:El; [by destruct l|].
    destruct (min_edges g !! (y, z)); [|done]. cbn [mbind option_bind]. by rewrite IH.
Qed.

(** Every hop of the path is a link. *)
Fixpoint linked (path : list Z) : Prop :=
  match path with
  | i :: ((ii :: _) as rest) => is_Some (wt g i ii) /\ linked rest
  | _ => True
  end.

Lemma linked_snoc l u v : linked (l ++ [u]) -> is_Some (wt g u v) -> linked (l ++ [u; v]).
Proof.
  induction l as [|x l IH]; simpl; [by eauto|]. destruct l as [|y l]; simpl in *; [naive_solver|].
  intros [? ?] Hs. split; [done|]. by apply IH.
Qed.

Lemma adj_ok i ii res : is_Some (wt g i ii) -> exists e, insert_adj_segment g i ii res = (0, res ++ [AdjSeg e]).
Proof.
  intros [w Hw]. destruct (wt_Some g i ii w Hw) as (_ & vs & e & _ & _ & He & _). exists e. unfold insert_adj_segment. by rewrite He.
Qed.

(** [graph_minseg] accepts every path along links. *)
Lemma minseg_turn_total dc r i ii res :
  cache_ok dc -> r ∈ nodes g -> i ∈ nodes g -> ii ∈ nodes g -> is_Some (wt g i ii) ->
  exists r' res', minseg_turn g dc r i ii res = Some (0, r', res') /\ r' ∈ nodes g.
Proof.
  intros Hdc Hr Hi Hii Hl. unfold minseg_turn. destruct (get_dres_ok dc i Hdc Hi) as (si & -> & Di). destruct (get_dres_ok dc r Hdc Hr) as (sr & -> & Dr).
  cbn [mbind option_bind]. destruct (dr_prev _ _ Dr ii Hii) as (lr & -> & _). destruct (dr_prev _ _ Di ii Hii) as (li & -> & _). cbn [mbind option_bind].
  destruct (adj_ok i ii (insert_node_segment i res) Hl) as [e ->]. repeat case_bool_decide; by eexists _, _.
Qed.

Lemma minseg_loop_total dc path : forall r res,
  cache_ok dc -> r ∈ nodes g -> Forall (fun x => x ∈ nodes g) path -> linked path ->
  exists res', minseg_loop g dc r path res = Some (0, res').
Proof.
  induction path as [|i path IH]; intros r res Hdc Hr Hn Hl; [by exists res|]. apply Forall_cons in Hn as [Hi Hn].
  destruct path as [|ii path]; [by exists res|]. destruct Hl as [Hl Hls]. pose proof Hn as [Hii _]%Forall_cons. cbn [minseg_loop].
  destruct (minseg_turn_total dc r i ii res Hdc Hr Hi Hii Hl) as (r' & res1 & -> & Hr'). cbn [mbind option_bind]. by apply IH.
Qed.

(** The segments name nodes and links of the graph. *)
Definition seg_in (s : segment) : Prop :=
  match s with NodeSeg n => n ∈ nodes g | AdjSeg e => exists k, min_edges g !! k = Some e end.

Lemma minseg_turn_segs dc r i ii res rc r' res' :
  i ∈ nodes g -> Forall seg_in res -> minseg_turn g dc r i ii res = Some (rc, r', res') -> Forall seg_in res'.
Proof.
  intros Hi Hres. assert (Forall seg_in (insert_node_segment i res)) as H1 by (apply Forall_app; by repeat constructor).
  assert (forall rc x, insert_adj_segment g i ii (insert_node_segment i res) = (rc, x) -> Forall seg_in x) as H2.
  { intros rc0 x. unfold insert_adj_segment. destruct (min_edges g !! (i, ii)) as [e|] eqn:E; intros [= _ <-]; [|done].
    apply Forall_app. split; [done|]. constructor; [by exists (i, ii)|constructor]. }
  unfold minseg_turn. destruct (get_dres g dc i) as [si|]; [|done]. destruct (get_dres g dc r) as [sr|]; [|done]. cbn [mbind option_bind].
  destruct (prev sr !! ii) as [lr|]; [|done]. cbn [mbind option_bind]. destruct (prev si !! ii) as [li|]; cbn [mbind option_bind];
    (destruct (insert_adj_segment g i ii (insert_node_segment i res)) as [rc0 x] eqn:E; specialize (H2 rc0 x eq_refl));
    repeat case_bool_decide; intros; by simplify_eq.
Qed.

Lemma minseg_loop_segs dc path : forall r res rc res',
  Forall (fun x => x ∈ nodes g) path -> Forall seg_in res -> minseg_loop g dc r path res = Some (rc, res') -> Forall seg_in res'.
Proof.
  induction path as [|i path IH]; intros r res rc res' Hn Hres; [by intros [= _ <-]|]. apply Forall_cons in Hn as [Hi Hn].
  destruct path as [|ii path]; [by intros [= _ <-]|]. cbn [minseg_loop].
  destruct (minseg_turn g dc r i ii res) as [[[rc1 r1] res1]|] eqn:E; [|done]. cbn [mbind option_bind].
  pose proof (minseg_turn_segs _ _ _ _ _ _ _ _ Hi Hres E). destruct (rc1 <? 0); [by intros [= _ <-]|]. by apply IH.
Qed.

Lemma segs_close res tmp : tmp ∈ nodes g -> Forall seg_in res -> Forall seg_in (if adj_to (last res) tmp then res else insert_node_segment tmp res).
Proof. intros Ht Hr. destruct (adj_to _ _); [done|]. apply Forall_app. by repeat constructor. Qed.

Lemma linked_edges i l : linked (i :: l) ->
  exists es, nodes_to_edges g (i :: l) = Some es /\ map v_remote es = l /\ map v_local es = removelast (i :: l).
Proof.
  revert i. induction l as [|ii l IH]; intros i Hh; [by exists []|].
  destruct Hh as [[w Hw] Hh]. destruct (wt_Some g i ii w Hw) as (_ & vs & e & _ & _ & He & _).
  destruct (IH ii Hh) as (es & Hes & H1 & H2). exists (e :: es).
  change (nodes_to_edges g (i :: ii :: l)) with
    (e ← min_edges g !! (i, ii); es ← nodes_to_edges g (ii :: l); Some (e :: es)).
  rewrite He. cbn [mbind option_bind]. rewrite Hes. cbn [mbind option_bind]. destruct (wf_edge _ _ _ He) as (<- & <- & _).
  split_and!; [done|by simpl; rewrite H1|]. by simpl; rewrite H2.
Qed.

Lemma nodes_to_edges_hops i l :
  hops g (i :: l) -> Forall (fun x => x ∈ nodes g) (i :: l) ->
  exists es, nodes_to_edges g (i :: l) = Some es /\ map v_remote es = l /\ map v_local es = removelast (i :: l).
Proof.
  intros Hh Hn. apply linked_edges. revert i Hh Hn. induction l as [|ii l IH]; intros i Hh Hn; [done|].
  destruct Hh as [[w Hw] Hh]. apply Forall_cons in Hn as [Hi Hn]. split; [|by apply IH].
  destruct (hop_link i ii w Hi Hw) as [Hl _]. by exists w.
Qed.
End shortest.

(** ** Legs chosen on a graph with the same routes

    [build_segpath] chooses the path on [gc] (a pruned clone) and segments it
    on [g]. *)

Definition twin (g gc : view) : Prop := nodes gc = nodes g /\ forall a b, wt gc a b = wt g a b.

Lemma twin_walk g gc a b p c : twin g gc -> walk gc a b p c <-> walk g a b p c.
Proof.
  intros [Hn Hw]. split; induction 1 as [|u v p c w _ IH Hu Hl]; try constructor; apply (walk_cons _ _ u); congruence.
Qed.

Lemma twin_shortest g gc a b p c : twin g gc -> shortest gc a b p c <-> shortest g a b p c.
Proof.
  intros T. unfold shortest. rewrite (twin_walk g gc) by done. split; intros [? H]; (split; [done|]); intros p' c' Hw; apply H with p'; by apply (twin_walk g gc).
Qed.

Section legs.
Context (g gc : view) `{!WfView g} `{!WfView gc} (M : Z).
Hypothesis Hok : metrics_ok g 1 M.
Hypothesis Htwin : twin g gc.

Lemma twin_metrics : metrics_ok gc 1 M.
Proof.
  destruct Hok as (H0 & H1 & H2), Htwin as [Hn Hw]. split_and!; [done|by rewrite Hn|]. intros u v w Hl. apply (H2 u v). by rewrite <- Hw.
Qed.

Lemma twin_dres cur : cur ∈ nodes g -> exists s, graph_dijkstra no_ops gc cur = Some s /\
  (forall v, v ∈ nodes g -> exists L, path s !! v = Some L /\ forall p, p ∈ L <-> exists c, shortest g cur v p c) /\
  forall v p c, walk g cur v p c -> exists p c, shortest g cur v p c.
Proof.
  intros Hc. rewrite <- (proj1 Htwin) in Hc. destruct (dijkstra_dres gc M twin_metrics cur Hc) as (s & Hs & [_ D2 D3]).
  exists s. split_and!; [done| |].
  - intros v Hv. rewrite <- (proj1 Htwin) in Hv. destruct (D2 v Hv) as (L & HL & Hp). exists L. split; [done|].
    intros p. rewrite Hp. by setoid_rewrite (twin_shortest g gc).
  - intros v p c Hw. apply (twin_walk g gc) in Hw; [|done]. destruct (D3 _ _ _ Hw) as (q & d & Hq). exists q, d. by apply (twin_shortest g gc).
Qed.

Lemma segpath_leg_ok dc a cur tmp res p fpath :
  cache_ok g dc -> cur ∈ nodes g -> tmp ∈ nodes g -> forwards g a res p cur -> ends_at res cur -> Forall (seg_in g) res ->
  (segpath_leg no_ops g gc dc cur tmp res fpath = Some None /\ forall q c, ~ walk g cur tmp q c) \/
  exists res' q c, segpath_leg no_ops g gc dc cur tmp res fpath = Some (Some (res', fpath ++ cur :: rev q)) /\
    shortest g cur tmp q c /\ forwards g a res' (p ++ rev q) tmp /\ ends_at res' tmp /\ Forall (seg_in g) res'.
Proof.
  intros Hdc Hcur Htmp Hf Hend Hin. destruct twin_dres with cur as (s & Hs & Ds & Hreach); [done|].
  destruct (Ds tmp Htmp) as (L & HL & Hpaths). unfold segpath_leg. rewrite Hs. cbn [mbind option_bind].
  rewrite HL. cbn [mbind option_bind]. destruct L as [|q L].
  { left. split; [done|]. intros q c Hw. destruct (Hreach _ _ _ Hw) as (q' & c' & Hq').
    eapply not_elem_of_nil, Hpaths. eauto. }
  right. destruct (proj1 (Hpaths q)) as [c Hq]; [by left|].
  destruct (shortest_hops g cur tmp q c Hq Hcur) as [Hh Hn].
  destruct (minseg_loop_stage g M Hok dc a (rev q) res p cur cur) as (segs & r & Hm & Hst); [done| |done| |].
  { exists p, []. rewrite app_nil_r. split_and!; [done|done|by apply (unique_sp_refl g M)|done|done]. }
  { constructor; [done|]. by apply Forall_rev. }
  rewrite (end_of_walk g _ _ _ _ (proj1 Hq)) in Hst. unfold graph_minseg. rewrite Hm. cbn [mbind option_bind].
  assert (Forall (seg_in g) (if adj_to (last segs) tmp then segs else insert_node_segment tmp segs)) as Hin'.
  { apply segs_close; [done|]. eapply minseg_loop_segs; [|exact Hin|exact Hm]. constructor; [done|]. by apply Forall_rev. }
  eexists _, q, c. split; [done|]. split; [done|]. destruct (adj_to (last segs) tmp) eqn:Hadj.
  - destruct Hst as (p0 & mid & -> & Hf' & Hu & Hr & Hl). destruct (last segs) as [[|e]|] eqn:El; try done.
    simpl in Hadj. apply Z.eqb_eq in Hadj. assert (r = tmp) as -> by (by rewrite <- (Hl e eq_refl)).
    assert (mid = []) as ->.
    { rewrite <- (rev_involutive mid), <- (proj2 Hu [] 0 (shortest_nil g M Hok tmp)). done. }
    rewrite app_nil_r. split; [done|]. split; [|exact Hin']. intros e' He'. rewrite El in He'. by simplify_eq.
  - split; [by eapply stage_node|]. split; [|exact Hin']. intros e. unfold insert_node_segment. by rewrite last_snoc.
Qed.

Lemma segpath_legs_ok dc a ts : forall cur res p fpath,
  cache_ok g dc -> cur ∈ nodes g -> Forall (fun t => t ∈ nodes g) ts -> forwards g a res p cur -> ends_at res cur -> Forall (seg_in g) res ->
  (segpath_legs no_ops g gc dc cur ts res fpath = Some None /\ forall q, ~ legs g cur ts q) \/
  exists res' fpath' q, segpath_legs no_ops g gc dc cur ts res fpath = Some (Some (res', fpath')) /\
    legs g cur ts q /\ forwards g a res' (p ++ q) (end_of cur ts).
Proof.
  induction ts as [|t ts IH]; intros cur res p fpath Hdc Hcur Hts Hf Hend Hin.
  { right. exists res, fpath, []. rewrite app_nil_r. split_and!; [done|constructor|done]. }
  apply Forall_cons in Hts as [Ht Hts]. cbn [segpath_legs].
  destruct (segpath_leg_ok dc a cur t res p fpath Hdc Hcur Ht Hf Hend Hin) as [[-> Hno]|(res1 & q & c & -> & Hq & Hf1 & He1 & Hin1)].
  { left. split; [done|]. intros q Hl. inversion Hl as [|? ? ? ? ? ? [Hw _]]; simplify_eq. by eapply Hno. }
  cbn [mbind option_bind].
  destruct (IH t res1 (p ++ rev q) (fpath ++ cur :: rev q) Hdc Ht Hts Hf1 He1 Hin1) as [[-> Hno]|(res2 & fp & q2 & -> & Hl & Hf2)].
  - left. split; [done|]. intros q' Hl. inversion Hl; simplify_eq. by eapply Hno.
  - right. exists res2, fp, (rev q ++ q2). split_and!; [done|by eapply legs_cons|]. by rewrite app_assoc.
Qed.

End legs.

(** ** The cache *)

Lemma build_cache_nodes_ok g `{!WfView g} ns : forall dc,
  cache_ok g dc -> Forall (fun n => n ∈ nodes g) ns ->
  exists dc', build_cache_nodes g dc ns = Some dc' /\ cache_ok g dc' /\
    (forall n, n ∈ ns \/ is_Some (dc !! n) -> is_Some (dc' !! n)).
Proof.
  induction ns as [|n ns IH]; intros dc Hdc Hns; simpl.
  { exists dc. split_and!; [done..|]. intros n [?%not_elem_of_nil|?]; done. }
  apply Forall_cons in Hns as [Hn Hns]. unfold graph_build_cache_one.
  destruct (dijkstra_W no_ops g n Hn (fun _ _ => True)) as (s & _ & Hs & _); [done..|].
  rewrite Hs. cbn [mbind option_bind]. destruct (IH (<[n := s]> dc)) as (dc' & -> & Hok & Hdom); [|done|].
  - intros x r. rewrite lookup_insert_Some. intros [[<- <-]|[_ Hx]]; [done|by apply Hdc].
  - exists dc'. split_and!; [done..|]. intros x Hx. apply Hdom. rewrite elem_of_cons in Hx.
    destruct (decide (n = x)) as [<-|Hne]; [right; by rewrite lookup_insert_eq|].
    rewrite lookup_insert_ne by done. naive_solver.
Qed.

(** ** Main results *)

(** [build_segpath] on any specification with default costs whose pruning
    keeps the routes. *)
Lemma build_segpath_ok (g : view) (M : Z) (dc : dcache) (ps : pathspec unit) :
  WfView g -> WfView (path_view g ps) -> metrics_ok g 1 M -> twin g (path_view g ps) -> cache_ok g dc ->
  ps_ops ps = no_ops -> ps_src ps ∈ nodes g -> Forall (fun t => t ∈ nodes g) (ps_via ps ++ [ps_dst ps]) ->
  (exists segs ep p, build_segpath g dc ps = Some (Some (segs, ep)) /\
     legs g (ps_src ps) (ps_via ps ++ [ps_dst ps]) p /\ forwards g (ps_src ps) segs p (ps_dst ps)) \/
  (build_segpath g dc ps = Some None /\ forall p, ~ legs g (ps_src ps) (ps_via ps ++ [ps_dst ps]) p).
Proof.
  intros Wf Wfc Hok Ht Hdc Hops Hsrc Hvia. unfold build_segpath, build_segpath_on. rewrite Hops.
  destruct (segpath_legs_ok g (path_view g ps) M Hok Ht dc (ps_src ps) (ps_via ps ++ [ps_dst ps]) (ps_src ps) [] [] [])
    as [[-> Hno]|(res & fp & q & -> & Hl & Hf)]; [done|done|done|constructor|done|constructor| |].
  - right. done.
  - left. cbn [mbind option_bind]. eexists res, _, q. split; [done|]. split; [done|]. by rewrite end_of_app in Hf.
Qed.

(** One leg: what is chosen, and what the network does with it. *)
Lemma build_segpath_direct (g : view) (M : Z) (dc : dcache) (ps : pathspec unit) :
  WfView g -> WfView (path_view g ps) -> metrics_ok g 1 M -> twin g (path_view g ps) -> cache_ok g dc ->
  ps_ops ps = no_ops -> ps_via ps = [] -> ps_src ps ∈ nodes g -> ps_dst ps ∈ nodes g ->
  (exists segs es q c, build_segpath g dc ps = Some (Some (segs, Some es)) /\ shortest g (ps_src ps) (ps_dst ps) q c /\
     forwards g (ps_src ps) segs (rev q) (ps_dst ps) /\ Forall (seg_in g) segs /\
     map v_remote es = rev q /\ map v_local es = removelast (ps_src ps :: rev q)) \/
  (build_segpath g dc ps = Some None /\ forall q c, ~ walk g (ps_src ps) (ps_dst ps) q c).
Proof.
  intros Wf Wfc Hok Ht Hdc Hops Hvia Hsrc Hdst. unfold build_segpath, build_segpath_on. rewrite Hops, Hvia. cbn [app segpath_legs].
  destruct (segpath_leg_ok g (path_view g ps) M Hok Ht dc (ps_src ps) (ps_src ps) (ps_dst ps) [] [] [])
    as [[-> Hno]|(res & q & c & -> & Hq & Hf & _ & Hseg)]; [done..|constructor|done|constructor|by right|].
  left. cbn [mbind option_bind app]. destruct (shortest_hops g _ _ q c Hq Hsrc) as [Hh Hn].
  destruct (nodes_to_edges_hops g M Hok _ (rev q) Hh) as (es & -> & H1 & H2); [constructor; [done|by apply Forall_rev]|].
  by exists res, es, q, c.
Qed.

(** A path chosen on a graph [gc] with fewer links or other weights than [g]:
    the request succeeds exactly when [gc] has a path, and the path taken is
    a shortest one of [gc]. *)
Lemma build_segpath_chosen (g : view) (M M' : Z) (dc : dcache) (ps : pathspec unit) :
  let gc := path_view g ps in
  WfView g -> WfView gc -> metrics_ok g 1 M -> metrics_ok gc 1 M' -> nodes gc = nodes g ->
  (forall a b, is_Some (wt gc a b) -> is_Some (wt g a b)) -> cache_ok g dc ->
  ps_ops ps = no_ops -> ps_via ps = [] -> ps_src ps ∈ nodes g -> ps_dst ps ∈ nodes g ->
  (exists segs es q c, build_segpath g dc ps = Some (Some (segs, Some es)) /\ shortest gc (ps_src ps) (ps_dst ps) q c /\ Forall (seg_in g) segs /\
     map v_remote es = rev q /\ map v_local es = removelast (ps_src ps :: rev q)) \/
  (build_segpath g dc ps = Some None /\ forall q c, ~ walk gc (ps_src ps) (ps_dst ps) q c).
Proof.
  intros gc Wf Wfc Hok Hokc Hn Hsub Hdc Hops Hvia Hsrc Hdst. unfold build_segpath, build_segpath_on. rewrite Hops, Hvia. fold gc. cbn [app segpath_legs].
  pose proof Hsrc as Hsrc'. rewrite <- Hn in Hsrc'. pose proof Hdst as Hdst'. rewrite <- Hn in Hdst'.
  unfold segpath_leg. destruct (dijkstra_dres gc M' Hokc (ps_src ps) Hsrc') as (s & -> & Ds). cbn [mbind option_bind].
  destruct (dr_path _ _ _ Ds _ Hdst') as (L & -> & Hpaths). cbn [mbind option_bind]. destruct L as [|q L].
  { right. split; [done|]. intros q c Hw. destruct (dr_reach _ _ _ Ds _ _ _ Hw) as (q' & c' & Hq'). eapply not_elem_of_nil, Hpaths. eauto. }
  left. destruct (proj1 (Hpaths q)) as [c Hq]; [by left|]. destruct (shortest_hops gc _ _ q c Hq Hsrc') as [_ Hin]. rewrite Hn in Hin.
  assert (linked g (ps_src ps :: rev q)) as Hl.
  { destruct Hq as [Hw _]. clear -Hw Hsub Wf. induction Hw as [|u v p c w Hw IH Hu Hlw]; [done|]. cbn [rev].
    destruct (walk_last gc _ _ _ _ Hw) as [l Hl]. rewrite app_comm_cons, Hl, <- app_assoc. rewrite Hl in IH. apply linked_snoc; [done|]. apply Hsub. by exists w. }
  assert (Forall (fun x => x ∈ nodes g) (ps_src ps :: rev q)) as Hall by (constructor; [done|]; by apply Forall_rev).
  unfold graph_minseg. destruct (minseg_loop_total g M Hok dc (ps_src ps :: rev q) (ps_src ps) []) as (res & Hres); [done..|]. rewrite Hres.
  pose proof (segs_close g res _ Hdst (minseg_loop_segs g dc _ _ _ _ _ Hall (Forall_nil_2 _) Hres)) as Hseg.
  destruct (linked_edges g _ _ Hl) as (es & Hes & H1 & H2). cbn [mbind option_bind app]. change (0 <? 0) with false. cbn [mbind option_bind]. rewrite Hes.
  by eexists _, es, q, c.
Qed.

(** The recorded edge path: the links, in [g], of a path chosen on the pruned
    graph. *)
Lemma build_segpath_epath (g : view) (M : Z) (dc : dcache) (ps : pathspec unit) segs ep :
  WfView (path_view g ps) -> metrics_ok (path_view g ps) 1 M -> ps_ops ps = no_ops -> ps_via ps = [] ->
  ps_src ps ∈ nodes (path_view g ps) -> ps_dst ps ∈ nodes (path_view g ps) ->
  build_segpath g dc ps = Some (Some (segs, ep)) ->
  exists q c, shortest (path_view g ps) (ps_src ps) (ps_dst ps) q c /\ ep = nodes_to_edges g (ps_src ps :: rev q).
Proof.
  intros Wf Hok Hops Hvia Hsrc Hdst. unfold build_segpath, build_segpath_on. rewrite Hops, Hvia.
  destruct (segpath_legs no_ops g (path_view g ps) dc (ps_src ps) ([] ++ [ps_dst ps]) [] []) as [[[res fp]|]|] eqn:E; try done.
  cbn [mbind option_bind]. intros Heq. simplify_eq.
  assert (Forall (fun t => t ∈ nodes (path_view g ps)) [ps_dst ps]) as Hts by (by repeat constructor).
  destruct (segpath_legs_fpath (path_view g ps) M Hok g dc _ _ _ _ _ _ Hsrc Hts E) as (q & c & fp' & Hq & -> & Hnil & _).
  exists q, c. split; [done|]. by rewrite (Hnil eq_refl), app_nil_r.
Qed.

(** C6. The segment list that [build_segpath] computes (default costs, any
    waypoints, any pruning that removes no route) makes the network carry
    packets exactly along the shortest legs through the waypoints: every node
    segment is reached by a unique shortest path and every adjacency segment
    is a link of the path.  NULL is returned exactly when some leg has no
    path. *)
Theorem build_segpath_forwards (g : view) (M : Z) (dc : dcache) (src dst : Z) (via : list Z) (prune : option (view -> view)) :
  let ps := PathSpec src dst via prune no_ops in
  WfView g -> WfView (path_view g ps) -> metrics_ok g 1 M -> twin g (path_view g ps) -> cache_ok g dc ->
  src ∈ nodes g -> Forall (fun t => t ∈ nodes g) (via ++ [dst]) ->
  (exists segs ep p, build_segpath g dc ps = Some (Some (segs, ep)) /\
     legs g src (via ++ [dst]) p /\ forwards g src segs p dst) \/
  (build_segpath g dc ps = Some None /\ forall p, ~ legs g src (via ++ [dst]) p).
Proof. intros ps Wf Wfc Hok Ht Hdc Hsrc Hvia. by apply (build_segpath_ok g M dc ps). Qed.

Lemma build_segpath_forwards_witness :
  (exists segs ep p, build_segpath diamond ∅ (PathSpec 1 4 [3] None no_ops) = Some (Some (segs, ep)) /\
     legs diamond 1 ([3] ++ [4]) p /\ forwards diamond 1 segs p 4) \/
  (build_segpath diamond ∅ (PathSpec 1 4 [3] None no_ops) = Some None /\ forall p, ~ legs diamond 1 ([3] ++ [4]) p).
Proof.
  apply (build_segpath_forwards diamond 1 ∅ 1 4 [3] None); [| | |done| |by left|].
  - apply wf_viewb_spec. vm_compute. reflexivity.
  - apply wf_viewb_spec. vm_compute. reflexivity.
  - apply metrics_okb_spec. vm_compute. reflexivity.
  - intros n r. by rewrite lookup_empty.
  - repeat constructor; vm_compute; repeat constructor.
Defined.

(** The edge path returned with the segments: without waypoints it is
    the list of links of the chosen path; with waypoints it is always NULL,
    because each waypoint is recorded twice in a row. *)
Theorem build_segpath_edge_path (g : view) (M : Z) (dc : dcache) (src dst : Z) (via : list Z) segs ep :
  WfView g -> metrics_ok g 1 M -> src ∈ nodes g -> Forall (fun t => t ∈ nodes g) (via ++ [dst]) ->
  build_segpath g dc (PathSpec src dst via None no_ops) = Some (Some (segs, ep)) ->
  (via = [] -> exists q c es, shortest g src dst q c /\ ep = Some es /\
     map v_remote es = rev q /\ map v_local es = removelast (src :: rev q)) /\
  (via <> [] -> ep = None).
Proof.
  intros Wf Hok Hsrc Hvia Hb. split.
  - intros ->. apply Forall_cons in Hvia as [Hdst _].
    destruct (build_segpath_epath g M dc (PathSpec src dst [] None no_ops) _ _ Wf Hok eq_refl eq_refl Hsrc Hdst Hb) as (q & c & Hq & ->).
    destruct (shortest_hops g src dst q c Hq Hsrc) as [Hh Hn]. exists q, c.
    destruct (nodes_to_edges_hops g M Hok src (rev q) Hh) as (es & Hes & ? & ?); [constructor; [done|by apply Forall_rev]|].
    exists es. split_and!; done.
  - intros Hne. revert Hb. unfold build_segpath, build_segpath_on. cbn [path_view ps_prune ps_ops ps_src ps_via ps_dst].
    destruct (segpath_legs no_ops g g dc src (via ++ [dst]) [] []) as [[[res fp]|]|] eqn:E; try done.
    cbn [mbind option_bind]. intros Heq. simplify_eq.
    pose proof (segpath_legs_fpath g M Hok g dc _ _ _ _ _ _ Hsrc Hvia E) as Hfp.
    destruct via as [|t via]; [done|]. simpl in Hfp.
    destruct Hfp as (q & c & fp' & Hq & -> & _ & Hcons). destruct Hcons as [fp'' ->]; [by destruct via|].
    destruct (walk_last g src t q c (proj1 Hq)) as [l Hl].
    cbn [app]. rewrite app_comm_cons, Hl, <- app_assoc. by apply nodes_to_edges_dup.
Qed.

Lemma build_segpath_edge_path_witness :
  exists segs ep, build_segpath diamond ∅ (PathSpec 1 4 [3] None no_ops) = Some (Some (segs, ep)) /\
  ([3] = [] -> exists q c es, shortest diamond 1 4 q c /\ ep = Some es /\
     map v_remote es = rev q /\ map v_local es = removelast (1 :: rev q)) /\
  ([3] <> [] -> ep = None).
Proof.
  eexists _, _. split; [vm_compute; reflexivity|].
  eapply (build_segpath_edge_path diamond 1 ∅ 1 4 [3]); [| |by left| |vm_compute; reflexivity].
  - apply wf_viewb_spec. vm_compute. reflexivity.
  - apply metrics_okb_spec. vm_compute. reflexivity.
  - repeat constructor; vm_compute; repeat constructor.
Defined.

(** [graph_build_cache] fills the cache for every node, and whatever it
    holds is what [graph_dijkstra] computes on the same graph. *)
Theorem graph_build_cache_sound (g : view) (dc : dcache) :
  WfView g -> cache_ok g dc ->
  exists dc', graph_build_cache g dc = Some dc' /\ cache_ok g dc' /\ forall n, n ∈ nodes g -> is_Some (dc' !! n).
Proof.
  intros Wf Hdc. destruct (build_cache_nodes_ok g (nodes g) dc Hdc) as (dc' & Hb & Hok & Hdom); [by apply Forall_forall|].
  exists dc'. split_and!; [done..|]. intros n Hn. apply Hdom. by left.
Qed.

Lemma graph_build_cache_witness :
  exists dc', graph_build_cache diamond ∅ = Some dc' /\ cache_ok diamond dc' /\
    forall n, n ∈ nodes diamond -> is_Some (dc' !! n).
Proof.
  apply graph_build_cache_sound; [apply wf_viewb_spec; vm_compute; reflexivity|]. intros n r. by rewrite lookup_empty.
Defined.

(** A slow direct link from 1 to 2 beside a fast detour through 3. *)
Definition detour : view := view_of [1; 2; 3] [VEdge 1 1 2 10 0; VEdge 2 1 3 1 0; VEdge 3 3 2 1 0].

(** For a path that is not made of shortest links (as the delay-based
    costs or pruned graphs select) the segments of [graph_minseg] do not
    encode the path: for the direct link 1-2 it answers one node segment, and
    the packet travels through node 3. *)
Theorem graph_minseg_misses_path :
  graph_minseg detour ∅ [1; 2] [] = Some (0, [NodeSeg 1]) /\
  forwards detour 1 [NodeSeg 1; NodeSeg 2] [3; 2] 2.
Proof.
  split; [vm_compute; reflexivity|].
  assert (WfView detour) as Wf by (apply wf_viewb_spec; vm_compute; reflexivity).
  assert (metrics_ok detour 1 10) as Hok by (apply metrics_okb_spec; vm_compute; reflexivity).
  change [3; 2] with (rev [] ++ rev [2; 3] ++ [] : list Z).
  apply fw_node; [by eapply unique_sp_refl|]. apply fw_node; [|constructor].
  destruct (dijkstra_dres detour 10 Hok 1) as (s & Hs & Ds); [by left|].
  destruct (dr_path _ _ _ Ds 2) as (L & HL & Hp); [right; by left|].
  assert (L = [[2; 3]]) as ->.
  { assert (path s !! 2 = Some [[2; 3]]) as Hx; [|congruence].
    revert Hs. vm_compute. by intros [= <-]. }
  split; [apply Hp; by left|]. intros p c Hs'. apply list_elem_of_singleton, Hp. eauto.
Qed.
