(* ===== verification/Graph.v ===== *)
(** * Reference-counted graphs (sr-ctrl/graph.h, sr-ctrl/graph.c)

    The store holds the allocated [struct node] and [struct edge] objects; a
    graph is its lists of node and edge pointers (the lists and hash maps it
    is made of are the subject of Llist.v and Hashmap.v).  Reading or
    releasing an object that is not in the store is a use after free: [None].
    [struct graph_ops] is the record [gops].  Reference counts are integers
    without bound where [atomic_t] is int32_t: the two agree, the zero test
    of a release included, while an object has fewer than 2^31 references. *)

From S2P Require Import Prelude Dijkstra.

Record gnode := GNode { n_id : Z; n_data : Z; n_orphan : bool; n_refcount : Z }.

Record gedge := GEdge {
  e_local : ptr; e_remote : ptr; e_id : Z; e_metric : Z; e_data : Z; e_orphan : bool; e_refcount : Z
}.

Record store := Store { s_nodes : gmap ptr gnode; s_edges : gmap ptr gedge }.

Record graph := Graph {
  g_nodes : list ptr;
  g_edges : list ptr;
  last_node : Z;
  last_edge : Z;
  g_min_edges : gmap (Z * Z) ptr;      (* keyed by the ids of a node pair *)
  g_neighs : gmap Z (list ptr);        (* keyed by node id *)
  dirty : bool;
  cloned : bool
}.

(** [node_equals] may look at the id and the data of the nodes. *)
Record gops := GOps {
  node_equals : Z * Z -> Z * Z -> bool;
  node_data_equals : Z -> Z -> bool;
  edge_data_equals : Z -> Z -> bool;
  node_data_copy : Z -> Z;
  edge_data_copy : Z -> Z
}.

Definition nkey (n : gnode) : Z * Z := (n_id n, n_data n).

Definition node_equals_default (n1 n2 : Z * Z) : bool := n1.1 =? n2.1.
Definition data_equals_default (d1 d2 : Z) : bool := d1 =? d2.

Definition compare_node (n1 n2 : gnode) : Z := if n_id n1 =? n_id n2 then 0 else 1.

(** ** Reference counts *)

Definition set_refcount (n : gnode) (r : Z) : gnode := GNode (n_id n) (n_data n) (n_orphan n) r.
Definition set_erefcount (e : gedge) (r : Z) : gedge :=
  GEdge (e_local e) (e_remote e) (e_id e) (e_metric e) (e_data e) (e_orphan e) r.

Definition node_hold (st : store) (n : ptr) : option store :=
  nd ← s_nodes st !! n;
  Some (Store (<[n := set_refcount nd (n_refcount nd + 1)]> (s_nodes st)) (s_edges st)).

Definition node_release (st : store) (n : ptr) : option store :=
  nd ← s_nodes st !! n;
  if n_refcount nd - 1 =? 0 then Some (Store (delete n (s_nodes st)) (s_edges st))
  else Some (Store (<[n := set_refcount nd (n_refcount nd - 1)]> (s_nodes st)) (s_edges st)).

Definition edge_hold (st : store) (e : ptr) : option store :=
  ed ← s_edges st !! e;
  Some (Store (s_nodes st) (<[e := set_erefcount ed (e_refcount ed + 1)]> (s_edges st))).

Definition edge_release (st : store) (e : ptr) : option store :=
  ed ← s_edges st !! e;
  if e_refcount ed - 1 =? 0 then
    st ← node_release st (e_local ed);
    st ← node_release st (e_remote ed);
    Some (Store (s_nodes st) (delete e (s_edges st)))
  else Some (Store (s_nodes st) (<[e := set_erefcount ed (e_refcount ed - 1)]> (s_edges st))).

(** ** Building and changing a graph *)

Definition graph_new : graph := Graph [] [] 0 0 ∅ ∅ false false.

Definition set_lists (g : graph) (ns es : list ptr) : graph :=
  Graph ns es (last_node g) (last_edge g) (g_min_edges g) (g_neighs g) true (cloned g).

(** [ok = false]: malloc failed, NULL is returned. *)
Definition graph_add_node (ok : bool) (st : store) (g : graph) (data : Z) : option ptr * store * graph :=
  if ok then
    let id := wrap32 (last_node g + 1) in
    let n := fresh (dom (s_nodes st)) in
    (Some n, Store (<[n := GNode id data false 1]> (s_nodes st)) (s_edges st),
     Graph (g_nodes g ++ [n]) (g_edges g) id (last_edge g) (g_min_edges g) (g_neighs g) true (cloned g))
  else (None, st, g).

(** The part of [graph_add_edge] after the symmetric call. *)
Definition add_edge_one (ok : bool) (st : store) (g : graph) (local remote : ptr) (metric data : Z)
    : option (option ptr * store * graph) :=
  if ok then
    let id := wrap32 (last_edge g + 1) in
    let e := fresh (dom (s_edges st)) in
    let st := Store (s_nodes st) (<[e := GEdge local remote id metric data false 1]> (s_edges st)) in
    st ← node_hold st local;
    st ← node_hold st remote;
    Some (Some e, st,
          Graph (g_nodes g) (g_edges g ++ [e]) (last_node g) id (g_min_edges g) (g_neighs g) true (cloned g))
  else Some (None, st, g).

Definition graph_add_edge (ok_sym ok : bool) (st : store) (g : graph) (local remote : ptr) (metric : Z) (sym : bool) (data : Z)
    : option (option ptr * store * graph) :=
  '(st, g) ← (if sym then '(_, st, g) ← add_edge_one ok_sym st g remote local metric data; Some (st, g)
              else Some (st, g));
  add_edge_one ok st g local remote metric data.

Fixpoint remove_ptr (p : ptr) (l : list ptr) : list ptr :=
  match l with
  | [] => []
  | x :: l => if bool_decide (x = p) then l else x :: remove_ptr p l
  end.

Definition set_eorphan (e : gedge) : gedge :=
  GEdge (e_local e) (e_remote e) (e_id e) (e_metric e) (e_data e) true (e_refcount e).
Definition set_norphan (n : gnode) : gnode := GNode (n_id n) (n_data n) true (n_refcount n).

Definition graph_remove_edge (st : store) (g : graph) (e : ptr) : option (store * graph) :=
  if bool_decide (e ∈ g_edges g) then
    ed ← s_edges st !! e;
    st ← edge_release (Store (s_nodes st) (<[e := set_eorphan ed]> (s_edges st))) e;
    Some (st, set_lists g (g_nodes g) (remove_ptr e (g_edges g)))
  else Some (st, g).

Section ops.
Context (ops : gops).

(** The loop of [graph_remove_node] over the edges. *)
Fixpoint remove_incident (st : store) (g : graph) (nd : gnode) (es : list ptr) : option (store * graph) :=
  match es with
  | [] => Some (st, g)
  | e :: es =>
      ed ← s_edges st !! e;
      nl ← s_nodes st !! e_local ed;
      nr ← s_nodes st !! e_remote ed;
      if node_equals ops (nkey nl) (nkey nd) || node_equals ops (nkey nr) (nkey nd) then
        '(st, g) ← graph_remove_edge st g e; remove_incident st g nd es
      else remove_incident st g nd es
  end.

Definition graph_remove_node (st : store) (g : graph) (n : ptr) : option (store * graph) :=
  if bool_decide (n ∈ g_nodes g) then
    nd ← s_nodes st !! n;
    '(st, g) ← remove_incident st g nd (g_edges g);
    nd ← s_nodes st !! n;
    st ← node_release (Store (<[n := set_norphan nd]> (s_nodes st)) (s_edges st)) n;
    Some (st, set_lists g (remove_ptr n (g_nodes g)) (g_edges g))
  else Some (st, g).

Fixpoint find_node (st : store) (f : gnode -> bool) (l : list ptr) : option (option ptr) :=
  match l with
  | [] => Some None
  | n :: l => nd ← s_nodes st !! n; if f nd then Some (Some n) else find_node st f l
  end.

Fixpoint find_edge (st : store) (f : gedge -> bool) (l : list ptr) : option (option ptr) :=
  match l with
  | [] => Some None
  | e :: l => ed ← s_edges st !! e; if f ed then Some (Some e) else find_edge st f l
  end.

Definition graph_get_node_noref (st : store) (g : graph) (id : Z) : option (option ptr) :=
  find_node st (fun n => n_id n =? id) (g_nodes g).

Definition graph_get_node (st : store) (g : graph) (id : Z) : option (option ptr * store) :=
  r ← graph_get_node_noref st g id;
  match r with
  | Some n => st ← node_hold st n; Some (Some n, st)
  | None => Some (None, st)
  end.

Definition graph_get_node_data (st : store) (g : graph) (data : Z) : option (option ptr) :=
  find_node st (fun n => node_data_equals ops (n_data n) data) (g_nodes g).

Definition graph_get_edge_noref (st : store) (g : graph) (id : Z) : option (option ptr) :=
  find_edge st (fun e => e_id e =? id) (g_edges g).

Definition graph_get_edge_data (st : store) (g : graph) (data : Z) : option (option ptr) :=
  find_edge st (fun e => edge_data_equals ops (e_data e) data) (g_edges g).

(** ** Derived structures *)

Definition node_id (st : store) (n : ptr) : option Z := n_id <$> s_nodes st !! n.

Fixpoint minimal_edge_loop (st : store) (lid rid : Z) (es : list ptr) (metric : Z) (res : option ptr)
    : option (option ptr) :=
  match es with
  | [] => Some res
  | e :: es =>
      ed ← s_edges st !! e;
      l ← node_id st (e_local ed);
      r ← node_id st (e_remote ed);
      if (l =? lid) && (r =? rid) && (e_metric ed <? metric)
      then minimal_edge_loop st lid rid es (e_metric ed) (Some e)
      else minimal_edge_loop st lid rid es metric res
  end.

Definition graph_get_minimal_edge (st : store) (g : graph) (lid rid : Z) : option (option ptr) :=
  minimal_edge_loop st lid rid (g_edges g) UINT32_MAX None.

Fixpoint min_edges_inner (st : store) (g : graph) (node1 : ptr) (ns : list ptr) (m : gmap (Z * Z) ptr)
    : option (gmap (Z * Z) ptr) :=
  match ns with
  | [] => Some m
  | node2 :: ns =>
      if bool_decide (node1 = node2) then min_edges_inner st g node1 ns m
      else
        id1 ← node_id st node1;
        id2 ← node_id st node2;
        r ← graph_get_minimal_edge st g id1 id2;
        match r with
        | None => min_edges_inner st g node1 ns m
        | Some e => min_edges_inner st g node1 ns (<[(id1, id2) := e]> m)
        end
  end.

Fixpoint min_edges_outer (st : store) (g : graph) (ns : list ptr) (m : gmap (Z * Z) ptr) : option (gmap (Z * Z) ptr) :=
  match ns with
  | [] => Some m
  | node1 :: ns => m ← min_edges_inner st g node1 (g_nodes g) m; min_edges_outer st g ns m
  end.

Definition graph_compute_minimal_edges (st : store) (g : graph) : option graph :=
  m ← min_edges_outer st g (g_nodes g) ∅;
  Some (Graph (g_nodes g) (g_edges g) (last_node g) (last_edge g) m (g_neighs g) (dirty g) (cloned g)).

Fixpoint neighbors_loop (st : store) (id : Z) (es : list ptr) (neighs : list ptr) : option (list ptr) :=
  match es with
  | [] => Some neighs
  | e :: es =>
      ed ← s_edges st !! e;
      l ← node_id st (e_local ed);
      if negb (l =? id) then neighbors_loop st id es neighs
      else if e_metric ed =? UINT32_MAX then neighbors_loop st id es neighs
      else if bool_decide (e_remote ed ∈ neighs) then neighbors_loop st id es neighs
      else neighbors_loop st id es (neighs ++ [e_remote ed])
  end.

Definition graph_compute_neighbors (st : store) (g : graph) (id : Z) : option (list ptr) :=
  neighbors_loop st id (g_edges g) [].

Fixpoint all_neighbors_loop (st : store) (g : graph) (ns : list ptr) (m : gmap Z (list ptr)) : option (gmap Z (list ptr)) :=
  match ns with
  | [] => Some m
  | n :: ns =>
      id ← node_id st n;
      l ← graph_compute_neighbors st g id;
      all_neighbors_loop st g ns (<[id := l]> m)
  end.

Definition graph_compute_all_neighbors (st : store) (g : graph) : option graph :=
  m ← all_neighbors_loop st g (g_nodes g) ∅;
  Some (Graph (g_nodes g) (g_edges g) (last_node g) (last_edge g) (g_min_edges g) m (dirty g) (cloned g)).

Definition graph_finalize (st : store) (g : graph) : option graph :=
  g ← graph_compute_minimal_edges st g;
  g ← graph_compute_all_neighbors st g;
  Some (Graph (g_nodes g) (g_edges g) (last_node g) (last_edge g) (g_min_edges g) (g_neighs g) false (cloned g)).

(** ** Copies *)

Fixpoint hold_nodes (st : store) (ns : list ptr) : option store :=
  match ns with [] => Some st | n :: ns => st ← node_hold st n; hold_nodes st ns end.
Fixpoint hold_edges (st : store) (es : list ptr) : option store :=
  match es with [] => Some st | e :: es => st ← edge_hold st e; hold_edges st es end.

Definition graph_clone (st : store) (g : graph) : option (store * graph) :=
  st ← hold_nodes st (g_nodes g);
  st ← hold_edges st (g_edges g);
  Some (st, Graph (g_nodes g) (g_edges g) 0 0 ∅ ∅ false true).

Fixpoint release_nodes (st : store) (ns : list ptr) : option store :=
  match ns with [] => Some st | n :: ns => st ← node_release st n; release_nodes st ns end.
Fixpoint release_edges (st : store) (es : list ptr) : option store :=
  match es with [] => Some st | e :: es => st ← edge_release st e; release_edges st es end.

Fixpoint remove_edges (st : store) (g : graph) (es : list ptr) : option (store * graph) :=
  match es with [] => Some (st, g) | e :: es => '(st, g) ← graph_remove_edge st g e; remove_edges st g es end.
Fixpoint remove_nodes (st : store) (g : graph) (ns : list ptr) : option (store * graph) :=
  match ns with [] => Some (st, g) | n :: ns => '(st, g) ← graph_remove_node st g n; remove_nodes st g ns end.

Definition graph_destroy (st : store) (g : graph) (shallow : bool) : option store :=
  if shallow then
    st ← release_edges st (g_edges g); release_nodes st (g_nodes g)
  else
    '(st, g) ← remove_edges st g (g_edges g); '(st, _) ← remove_nodes st g (g_nodes g); Some st.

(** [graph_prune]: the edges leave the list, their references are kept. *)
Fixpoint prune_loop (st : store) (prune : gedge -> bool) (es : list ptr) : option (list ptr * Z) :=
  match es with
  | [] => Some ([], 0)
  | e :: es =>
      ed ← s_edges st !! e;
      '(kept, rm) ← prune_loop st prune es;
      Some (if prune ed then (kept, rm + 1) else (e :: kept, rm))
  end.

Definition graph_prune (st : store) (g : graph) (prune : gedge -> bool) : option (Z * graph) :=
  '(kept, rm) ← prune_loop st prune (g_edges g);
  Some (rm, Graph (g_nodes g) kept (last_node g) (last_edge g) (g_min_edges g) (g_neighs g) (dirty g) (cloned g)).

Fixpoint deepcopy_nodes (st : store) (ns acc : list ptr) : option (store * list ptr) :=
  match ns with
  | [] => Some (st, acc)
  | n :: ns =>
      nd ← s_nodes st !! n;
      let n2 := fresh (dom (s_nodes st)) in
      deepcopy_nodes (Store (<[n2 := GNode (n_id nd) (node_data_copy ops (n_data nd)) false 1]> (s_nodes st)) (s_edges st))
        ns (acc ++ [n2])
  end.

(** The copied edge's endpoints are looked up (and held) by id; NULL endpoints
    are dereferenced later, so they are an error here. *)
Fixpoint deepcopy_edges (st : store) (g_copy : graph) (es acc : list ptr) : option (store * list ptr) :=
  match es with
  | [] => Some (st, acc)
  | e :: es =>
      ed ← s_edges st !! e;
      lid ← node_id st (e_local ed);
      rid ← node_id st (e_remote ed);
      '(l2, st) ← graph_get_node st g_copy lid;
      '(r2, st) ← graph_get_node st g_copy rid;
      l2 ← l2; r2 ← r2;
      let e2 := fresh (dom (s_edges st)) in
      deepcopy_edges (Store (s_nodes st)
          (<[e2 := GEdge l2 r2 (e_id ed) (e_metric ed) (edge_data_copy ops (e_data ed)) false 1]> (s_edges st)))
        g_copy es (acc ++ [e2])
  end.

Definition graph_deepcopy (st : store) (g : graph) : option (store * graph) :=
  '(st, ns) ← deepcopy_nodes st (g_nodes g) [];
  let g_copy := Graph ns [] (last_node g) (last_edge g) ∅ ∅ false false in
  '(st, es) ← deepcopy_edges st g_copy (g_edges g) [];
  Some (st, Graph ns es (last_node g) (last_edge g) ∅ ∅ false false).
End ops.

(** ** Counting references *)

Definition occ (p : ptr) (l : list ptr) : Z := foldr (fun x n => b2z (bool_decide (x = p)) + n) 0 l.
Definition eref (n : ptr) (ed : gedge) : Z := b2z (bool_decide (e_local ed = n)) + b2z (bool_decide (e_remote ed = n)).
Definition refs (m : gmap ptr gedge) (n : ptr) : Z := foldr (fun kv z => eref n kv.2 + z) 0 (map_to_list m).

Lemma occ_perm p l l' : l ≡ₚ l' -> occ p l = occ p l'.
Proof. unfold occ. induction 1; simpl; lia. Qed.

Lemma occ_app p l l' : occ p (l ++ l') = occ p l + occ p l'.
Proof. induction l as [|x l IH]; simpl; [done|]. lia. Qed.

Lemma occ_nonneg p l : 0 <= occ p l.
Proof. induction l as [|x l IH]; simpl; [lia|]. destruct (bool_decide (x = p)); simpl; lia. Qed.

Lemma occ_in p l : p ∈ l <-> 1 <= occ p l.
Proof.
  induction l as [|x l IH]; simpl; [split; [by intros ?%not_elem_of_nil|lia]|].
  rewrite elem_of_cons. pose proof (occ_nonneg p l). destruct (decide (x = p)) as [->|Hne].
  - rewrite bool_decide_true by done. simpl. split; [lia|by left].
  - rewrite bool_decide_false by done. simpl. rewrite IH. split; [intros [?|?]; [congruence|lia]|intros; right; lia].
Qed.

Lemma eref_nonneg n ed : 0 <= eref n ed.
Proof. unfold eref. destruct (bool_decide (e_local ed = n)), (bool_decide (e_remote ed = n)); simpl; lia. Qed.

Lemma eref_zero n ed : eref n ed = 0 -> e_local ed <> n /\ e_remote ed <> n.
Proof.
  unfold eref. do 2 case_bool_decide; simpl; done || lia.
Qed.

Lemma refs_nonneg m n : 0 <= refs m n.
Proof. unfold refs. induction (map_to_list m) as [|[? ?] l IH]; simpl; [lia|]. pose proof (eref_nonneg n g). lia. Qed.

Lemma refs_insert m e ed n : m !! e = None -> refs (<[e := ed]> m) n = eref n ed + refs m n.
Proof.
  intros He. unfold refs.
  assert (forall l l' : list (ptr * gedge), l ≡ₚ l' ->
    foldr (fun kv z => eref n kv.2 + z) 0 l = foldr (fun kv z => eref n kv.2 + z) 0 l') as Hp.
  { induction 1; simpl; lia. }
  rewrite (Hp _ _ (map_to_list_insert m e ed He)). done.
Qed.

Lemma refs_delete m e ed n : m !! e = Some ed -> refs m n = eref n ed + refs (delete e m) n.
Proof.
  intros He. rewrite <- (insert_delete_id m e ed He) at 1. apply refs_insert, lookup_delete_eq.
Qed.

(** Changing an edge but not its endpoints. *)
Lemma refs_update m e ed ed' n :
  m !! e = Some ed -> e_local ed' = e_local ed -> e_remote ed' = e_remote ed -> refs (<[e := ed']> m) n = refs m n.
Proof.
  intros He Hl Hr. rewrite (refs_delete m e ed n He), <- insert_delete_eq.
  rewrite refs_insert by apply lookup_delete_eq. unfold eref. by rewrite Hl, Hr.
Qed.

(** ** Reference-count invariant

    [ln] and [le] list the holders of nodes and edges with multiplicity: the
    lists of every graph and the references held outside; edges hold their
    endpoints. *)
Record rinv (st : store) (ln le : list ptr) : Prop := {
  ri_node : forall n nd, s_nodes st !! n = Some nd ->
    n_refcount nd = occ n ln + refs (s_edges st) n /\ 1 <= n_refcount nd;
  ri_edge : forall e ed, s_edges st !! e = Some ed ->
    e_refcount ed = occ e le /\ 1 <= e_refcount ed /\
    is_Some (s_nodes st !! e_local ed) /\ is_Some (s_nodes st !! e_remote ed);
  ri_ln : forall n, n ∈ ln -> is_Some (s_nodes st !! n);
  ri_le : forall e, e ∈ le -> is_Some (s_edges st !! e)
}.

#[global] Instance rinv_proper st : Proper ((≡ₚ) ==> (≡ₚ) ==> iff) (rinv st).
Proof.
  intros ln ln' Hn le le' He. split; intros [H1 H2 H3 H4]; split.
  - intros n nd Hnd. rewrite <- (occ_perm n _ _ Hn). by apply H1.
  - intros e ed Hed. rewrite <- (occ_perm e _ _ He). by apply H2.
  - intros n. rewrite <- Hn. apply H3.
  - intros e. rewrite <- He. apply H4.
  - intros n nd Hnd. rewrite (occ_perm n _ _ Hn). by apply H1.
  - intros e ed Hed. rewrite (occ_perm e _ _ He). by apply H2.
  - intros n. rewrite Hn. apply H3.
  - intros e. rewrite He. apply H4.
Qed.

(** What no reference operation changes; objects may disappear. *)
Definition nstatic (a b : gnode) : Prop := n_id a = n_id b /\ n_data a = n_data b /\ n_orphan a = n_orphan b.
Definition estatic (a b : gedge) : Prop :=
  e_local a = e_local b /\ e_remote a = e_remote b /\ e_id a = e_id b /\ e_metric a = e_metric b /\
  e_data a = e_data b /\ e_orphan a = e_orphan b.

Definition kept (st st' : store) : Prop :=
  (forall n nd', s_nodes st' !! n = Some nd' -> exists nd, s_nodes st !! n = Some nd /\ nstatic nd nd') /\
  (forall e ed', s_edges st' !! e = Some ed' -> exists ed, s_edges st !! e = Some ed /\ estatic ed ed').

#[global] Instance kept_preorder : PreOrder kept.
Proof.
  split.
  - intros st. split; intros x y Hx; exists y; split; done.
  - intros a b c [N1 E1] [N2 E2]. split.
    + intros n nd Hn. destruct (N2 n nd Hn) as (nd2 & Hn2 & S2). destruct (N1 n nd2 Hn2) as (nd1 & Hn1 & S1).
      exists nd1. split; [done|]. unfold nstatic in *. naive_solver congruence.
    + intros e ed He. destruct (E2 e ed He) as (ed2 & He2 & S2). destruct (E1 e ed2 He2) as (ed1 & He1 & S1).
      exists ed1. split; [done|]. unfold estatic in *. naive_solver congruence.
Qed.

Lemma node_hold_ok st ln le n :
  rinv st ln le -> is_Some (s_nodes st !! n) ->
  exists st', node_hold st n = Some st' /\ rinv st' (n :: ln) le /\ kept st st' /\ s_edges st' = s_edges st.
Proof.
  intros R [nd Hn]. unfold node_hold. rewrite Hn. cbn [mbind option_bind]. eexists. split; [done|].
  split; [|split; [|done]].
  - split; simpl.
    + intros m md. rewrite lookup_insert_Some. intros [[<- <-]|[Hne Hm]]; simpl.
      * rewrite bool_decide_true by done. destruct (ri_node _ _ _ R _ _ Hn). simpl. lia.
      * rewrite bool_decide_false by done. by apply (ri_node _ _ _ R).
    + intros e ed He. destruct (ri_edge _ _ _ R e ed He) as (? & ? & ? & ?).
      split_and!; [done..| |]; by apply lookup_insert_is_Some'; auto.
    + intros m [->|Hm]%elem_of_cons; apply lookup_insert_is_Some'; [by left|right; by apply (ri_ln _ _ _ R)].
    + apply (ri_le _ _ _ R).
  - split; simpl; [|intros e ed He; exists ed; done].
    intros m md. rewrite lookup_insert_Some. intros [[<- <-]|[_ Hm]]; [by exists nd|by exists md].
Qed.

Lemma node_release_ok st ln le n :
  rinv st (n :: ln) le -> exists st', node_release st n = Some st' /\ rinv st' ln le /\ kept st st' /\
    s_edges st' = s_edges st.
Proof.
  intros R. destruct (ri_ln _ _ _ R n) as [nd Hn]; [by left|]. unfold node_release. rewrite Hn. cbn [mbind option_bind].
  destruct (ri_node _ _ _ R n nd Hn) as [Hrc Hpos]. simpl in Hrc. rewrite bool_decide_true in Hrc by done. simpl in Hrc.
  pose proof (occ_nonneg n ln). pose proof (refs_nonneg (s_edges st) n).
  destruct (Z.eqb_spec (n_refcount nd - 1) 0) as [E|E]; (eexists; split; [done|]; split; [|split; [|done]]).
  - assert (occ n ln = 0 /\ refs (s_edges st) n = 0) as [Ho Hr] by lia. split; simpl.
    + intros m md. rewrite lookup_delete_Some. intros [Hne Hm]. destruct (ri_node _ _ _ R m md Hm) as [Hc ?].
      simpl in Hc. rewrite bool_decide_false in Hc by done. done.
    + intros e ed He. destruct (ri_edge _ _ _ R e ed He) as (? & ? & ? & ?).
      assert (eref n ed = 0) as Hz.
      { pose proof (refs_delete _ _ _ n He). pose proof (refs_nonneg (delete e (s_edges st)) n).
        pose proof (eref_nonneg n ed). lia. }
      destruct (eref_zero n ed Hz). split_and!; [done..| |]; by rewrite lookup_delete_ne.
    + intros m Hm. destruct (decide (n = m)) as [<-|Hne]; [apply occ_in in Hm; lia|].
      rewrite lookup_delete_ne by done. apply (ri_ln _ _ _ R). by right.
    + apply (ri_le _ _ _ R).
  - split; simpl; [|intros e ed He; exists ed; done]. intros m md. rewrite lookup_delete_Some. intros [_ Hm]. by exists md.
  - split; simpl.
    + intros m md. rewrite lookup_insert_Some. intros [[<- <-]|[Hne Hm]]; simpl; [lia|].
      destruct (ri_node _ _ _ R m md Hm) as [Hc ?]. simpl in Hc. rewrite bool_decide_false in Hc by done. done.
    + intros e ed He. destruct (ri_edge _ _ _ R e ed He) as (? & ? & ? & ?).
      split_and!; [done..| |]; by apply lookup_insert_is_Some'; auto.
    + intros m Hm. apply lookup_insert_is_Some'. right. apply (ri_ln _ _ _ R). by right.
    + apply (ri_le _ _ _ R).
  - split; simpl; [|intros e ed He; exists ed; done].
    intros m md. rewrite lookup_insert_Some. intros [[<- <-]|[_ Hm]]; [by exists nd|by exists md].
Qed.

Lemma node_release_edges st st' n es :
  node_release st n = Some st' -> node_release (Store (s_nodes st) es) n = Some (Store (s_nodes st') es).
Proof.
  unfold node_release. simpl. destruct (s_nodes st !! n) as [nd|]; simpl; [|done].
  destruct (n_refcount nd - 1 =? 0); intros; by simplify_eq/=.
Qed.

Lemma edge_hold_ok st ln le e :
  rinv st ln le -> is_Some (s_edges st !! e) ->
  exists st', edge_hold st e = Some st' /\ rinv st' ln (e :: le) /\ kept st st' /\ s_nodes st' = s_nodes st.
Proof.
  intros R [ed He]. unfold edge_hold. rewrite He. cbn [mbind option_bind]. eexists. split; [done|].
  split; [|split; [|done]].
  - split; simpl.
    + intros n nd Hn. rewrite (refs_update _ e ed) by done. by apply (ri_node _ _ _ R).
    + intros e' ed'. rewrite lookup_insert_Some. intros [[<- <-]|[Hne He']]; simpl.
      * rewrite bool_decide_true by done. destruct (ri_edge _ _ _ R _ _ He) as (? & ? & ? & ?). simpl. split_and!; [lia|lia|done|done].
      * rewrite bool_decide_false by done. by apply (ri_edge _ _ _ R).
    + apply (ri_ln _ _ _ R).
    + intros m [->|Hm]%elem_of_cons; apply lookup_insert_is_Some'; [by left|right; by apply (ri_le _ _ _ R)].
  - split; simpl; [intros n nd Hn; exists nd; done|].
    intros m md. rewrite lookup_insert_Some. intros [[<- <-]|[_ Hm]]; [by exists ed|by exists md].
Qed.

Lemma edge_release_ok st ln le e :
  rinv st ln (e :: le) -> exists st', edge_release st e = Some st' /\ rinv st' ln le /\ kept st st' /\
    (forall e', e' <> e -> s_edges st' !! e' = s_edges st !! e').
Proof.
  intros R. destruct (ri_le _ _ _ R e) as [ed He]; [by left|]. unfold edge_release. rewrite He. cbn [mbind option_bind].
  destruct (ri_edge _ _ _ R e ed He) as (Hrc & Hpos & Hl & Hr). simpl in Hrc. rewrite bool_decide_true in Hrc by done.
  simpl in Hrc. pose proof (occ_nonneg e le). destruct (Z.eqb_spec (e_refcount ed - 1) 0) as [E|E].
  - assert (e ∉ le) as Hle by (rewrite occ_in; lia).
    assert (rinv (Store (s_nodes st) (delete e (s_edges st))) (e_local ed :: e_remote ed :: ln) le) as R1.
    { assert (rinv st ln (e :: le)) as [H1 H2 H3 H4] by done. clear R. split; simpl.
      - intros n nd Hn. destruct (H1 n nd Hn) as [Hc ?]. rewrite (refs_delete _ _ _ n He) in Hc. unfold eref in Hc. lia.
      - intros e' ed'. rewrite lookup_delete_Some. intros [Hne He']. destruct (H2 e' ed' He') as (Hc & ? & ?).
        simpl in Hc. rewrite bool_decide_false in Hc by done. done.
      - intros n. rewrite !elem_of_cons. intros [->|[->|Hn]]; [done|done|by apply H3].
      - intros e' He'. rewrite lookup_delete_ne by congruence. apply H4. by right. }
    destruct (node_release_ok _ _ _ _ R1) as (st1 & Hr1 & R2 & K1 & E1).
    destruct (node_release_ok _ _ _ _ R2) as (st2 & Hr2 & R3 & K2 & E2). simpl in E1.
    apply (node_release_edges _ _ _ (s_edges st)) in Hr1, Hr2. simpl in Hr1. destruct st as [ns es]. simpl in *.
    rewrite Hr1. cbn [mbind option_bind]. rewrite Hr2. cbn [mbind option_bind]. simpl.
    rewrite <- E1, <- E2. destruct st2 as [ns2 es2]. simpl in *. eexists. split; [done|]. split; [done|]. split.
    + trans (Store ns (delete e es)); [split; simpl; [intros n nd Hn; by exists nd|]|by etrans].
      intros e' ed'. rewrite lookup_delete_Some. intros [_ ?]. by exists ed'.
    + intros e' Hne. rewrite E2, E1. by apply lookup_delete_ne.
  - eexists. split; [done|]. split; [|split].
    + split; simpl.
      * intros n nd Hn. rewrite (refs_update _ e ed) by done. by apply (ri_node _ _ _ R).
      * intros e' ed'. rewrite lookup_insert_Some. intros [[<- <-]|[Hne He']]; simpl; [split_and!; [lia|lia|done|done]|].
        destruct (ri_edge _ _ _ R e' ed' He') as (Hc & ? & ?). simpl in Hc. rewrite bool_decide_false in Hc by done. done.
      * apply (ri_ln _ _ _ R).
      * intros e' He'. apply lookup_insert_is_Some'. right. apply (ri_le _ _ _ R). by right.
    + split; simpl; [intros n nd Hn; by exists nd|].
      intros m md. rewrite lookup_insert_Some. intros [[<- <-]|[_ Hm]]; [by exists ed|by exists md].
    + intros e' Hne. simpl. by apply lookup_insert_ne.
Qed.

(** ** Graph invariant *)

Record ginv (st : store) (g : graph) : Prop := {
  gi_nn : NoDup (g_nodes g);
  gi_ne : NoDup (g_edges g);
  gi_last : 0 <= last_node g < 2 ^ 32;
  gi_node : forall n, n ∈ g_nodes g -> exists nd, s_nodes st !! n = Some nd /\ n_orphan nd = false /\ 1 <= n_id nd <= last_node g;
  gi_ids : forall n m nd md, n ∈ g_nodes g -> m ∈ g_nodes g -> s_nodes st !! n = Some nd -> s_nodes st !! m = Some md ->
    n_id nd = n_id md -> n = m;
  gi_edge : forall e, e ∈ g_edges g -> exists ed, s_edges st !! e = Some ed /\ e_orphan ed = false /\
    e_local ed ∈ g_nodes g /\ e_remote ed ∈ g_nodes g /\ 0 <= e_metric ed <= UINT32_MAX
}.

(** A graph with the references held outside it. *)
Definition wfg (st : store) (g : graph) (xn xe : list ptr) : Prop :=
  ginv st g /\ rinv st (g_nodes g ++ xn) (g_edges g ++ xe).

Lemma ginv_kept st st' g :
  ginv st g -> kept st st' -> (forall n, n ∈ g_nodes g -> is_Some (s_nodes st' !! n)) ->
  (forall e, e ∈ g_edges g -> is_Some (s_edges st' !! e)) -> ginv st' g.
Proof.
  intros G [KN KE] HN HE. split; try apply G.
  - intros n Hn. destruct (HN n Hn) as [nd' Hnd']. destruct (KN n nd' Hnd') as (nd & Hnd & Hid & _ & Ho).
    destruct (gi_node _ _ G n Hn) as (nd0 & Hnd0 & ? & ?). simplify_eq. exists nd'. split_and!; [done|congruence|lia|lia].
  - intros n m nd' md' Hn Hm Hnd' Hmd' Hid.
    destruct (KN n nd' Hnd') as (nd & Hnd & Hi1 & _). destruct (KN m md' Hmd') as (md & Hmd & Hi2 & _).
    apply (gi_ids _ _ G n m nd md); try done. congruence.
  - intros e He. destruct (HE e He) as [ed' Hed']. destruct (KE e ed' Hed') as (ed & Hed & Hl & Hr & _ & Hm & _ & Ho).
    destruct (gi_edge _ _ G e He) as (ed0 & Hed0 & ? & ? & ? & ?). simplify_eq.
    exists ed'. rewrite <- Hl, <- Hr, <- Hm, <- Ho. done.
Qed.

Lemma ginv_lists st g g' :
  ginv st g -> g_nodes g' = g_nodes g -> g_edges g' = g_edges g -> last_node g' = last_node g -> ginv st g'.
Proof. intros [? ? ? ? ? ?] H1 H2 H3. split; rewrite ?H1, ?H2, ?H3; done. Qed.

Lemma remove_ptr_perm p l : p ∈ l -> p :: remove_ptr p l ≡ₚ l.
Proof.
  induction l as [|x l IH]; simpl; [by intros ?%not_elem_of_nil|]. rewrite elem_of_cons.
  case_bool_decide as E; [by subst|]. intros [->|Hp]; [done|]. rewrite <- (IH Hp) at 2. apply Permutation_swap.
Qed.

Lemma remove_ptr_elem p l x : NoDup l -> x ∈ remove_ptr p l <-> x ∈ l /\ x <> p.
Proof.
  induction 1 as [|y l Hy _ IH]; simpl; [split; [by intros ?%not_elem_of_nil|by intros [?%not_elem_of_nil _]]|].
  rewrite elem_of_cons. case_bool_decide as E.
  - subst. split; [intros; split; [by right|congruence]|tauto].
  - rewrite elem_of_cons, IH. split; [intros [->|?]; tauto|tauto].
Qed.

Lemma remove_ptr_NoDup p l : NoDup l -> NoDup (remove_ptr p l).
Proof.
  induction 1 as [|y l Hy Hn IH]; simpl; [constructor|]. case_bool_decide; [done|].
  constructor; [|done]. rewrite remove_ptr_elem by done. tauto.
Qed.

Lemma graph_new_wf : wfg (Store ∅ ∅) graph_new [] [].
Proof.
  split; [split; simpl; try constructor; try lia; try (by intros * ?%not_elem_of_nil)|].
  split; simpl; try (by intros * ?%not_elem_of_nil); intros ? ?; by rewrite lookup_empty.
Qed.

Lemma rinv_add_node st ln le n nd :
  rinv st ln le -> s_nodes st !! n = None -> n_refcount nd = 1 ->
  rinv (Store (<[n := nd]> (s_nodes st)) (s_edges st)) (n :: ln) le.
Proof.
  intros R Hn Hrc. assert (refs (s_edges st) n = 0) as Hz.
  { unfold refs. assert (Forall (fun kv => eref n kv.2 = 0) (map_to_list (s_edges st))) as Hall.
    { apply Forall_forall. intros [e ed] He%elem_of_map_to_list. simpl.
      destruct (ri_edge _ _ _ R e ed He) as (_ & _ & [? Hl1] & [? Hl2]). unfold eref.
      rewrite !bool_decide_false by congruence. done. }
    induction Hall as [|kv l Hkv _ IH]; simpl; [done|]. rewrite Hkv, IH. done. }
  split; simpl.
  - intros m md. rewrite lookup_insert_Some. intros [[<- <-]|[Hne Hm]]; simpl.
    + rewrite bool_decide_true, Hz by done. simpl.
      assert (occ n ln = 0); [|lia]. pose proof (occ_nonneg n ln).
      destruct (decide (1 <= occ n ln)) as [Ho|]; [|lia]. apply occ_in, (ri_ln _ _ _ R) in Ho as [? ?]. congruence.
    + rewrite bool_decide_false by done. by apply (ri_node _ _ _ R).
  - intros e ed He. destruct (ri_edge _ _ _ R e ed He) as (? & ? & ? & ?). split_and!; [done..| |]; by apply lookup_insert_is_Some'; auto.
  - intros m [->|Hm]%elem_of_cons; apply lookup_insert_is_Some'; [by left|right; by apply (ri_ln _ _ _ R)].
  - apply (ri_le _ _ _ R).
Qed.

Lemma graph_add_node_wf st g xn xe data :
  wfg st g xn xe -> last_node g + 1 < 2 ^ 32 ->
  exists n st' g', graph_add_node true st g data = (Some n, st', g') /\ wfg st' g' xn xe /\
    s_nodes st !! n = None /\ s_nodes st' = <[n := GNode (last_node g + 1) data false 1]> (s_nodes st) /\
    s_edges st' = s_edges st /\ g_nodes g' = g_nodes g ++ [n] /\ g_edges g' = g_edges g /\ last_node g' = last_node g + 1.
Proof.
  intros [G R] Hl. unfold graph_add_node. pose proof (gi_last _ _ G). rewrite wrap32_small by lia.
  set (n := fresh (dom (s_nodes st))). assert (s_nodes st !! n = None) as Hn by (apply not_elem_of_dom, is_fresh).
  assert (n ∉ g_nodes g) as Hng by (intros Hin; destruct (gi_node _ _ G n Hin) as (? & ? & _); congruence).
  eexists n, _, _. split; [done|]. split; [|by split_and!]. split.
  - split; simpl; [|apply G|lia| | |].
    + apply NoDup_app. split_and!; [apply G| |apply NoDup_singleton]. intros x Hx ->%list_elem_of_singleton. done.
    + intros m [Hm| ->%list_elem_of_singleton]%elem_of_app.
      * destruct (gi_node _ _ G m Hm) as (nd & Hnd & ? & ?). exists nd. rewrite lookup_insert_ne by congruence. split_and!; [done|done|lia|lia].
      * exists (GNode (last_node g + 1) data false 1). rewrite lookup_insert_eq. simpl. split_and!; [done|done|lia|lia].
    + assert (forall m md, m ∈ g_nodes g -> <[n := GNode (last_node g + 1) data false 1]> (s_nodes st) !! m = Some md ->
        s_nodes st !! m = Some md /\ n_id md < last_node g + 1) as Hold.
      { intros m md Hm. rewrite lookup_insert_ne by congruence. intros Hmd.
        destruct (gi_node _ _ G m Hm) as (? & ? & _ & ?). simplify_eq. split; [done|lia]. }
      intros m1 m2 d1 d2 [H1| ->%list_elem_of_singleton]%elem_of_app [H2| ->%list_elem_of_singleton]%elem_of_app L1 L2 Hid; [| | |done].
      * apply Hold in L1 as [? _], L2 as [? _]; [|done..]. by apply (gi_ids _ _ G m1 m2 d1 d2).
      * rewrite lookup_insert_eq in L2. apply Hold in L1 as [_ ?]; [|done]. simplify_eq/=. lia.
      * rewrite lookup_insert_eq in L1. apply Hold in L2 as [_ ?]; [|done]. simplify_eq/=. lia.
    + intros e He. destruct (gi_edge _ _ G e He) as (ed & ? & ? & ? & ? & ?). exists ed.
      split_and!; [done|done|apply elem_of_app; by left|apply elem_of_app; by left|lia|lia].
  - simpl. rewrite <- app_assoc. simpl. rewrite <- Permutation_middle. by apply rinv_add_node.
Qed.

Lemma node_hold_edges st st' n es :
  node_hold st n = Some st' -> node_hold (Store (s_nodes st) es) n = Some (Store (s_nodes st') es).
Proof. unfold node_hold. simpl. destruct (s_nodes st !! n) as [nd|]; simpl; intros; by simplify_eq/=. Qed.

(** A new edge takes over one reference to each of its endpoints. *)
Lemma rinv_add_edge st ln le e ed :
  rinv st (e_remote ed :: e_local ed :: ln) le -> s_edges st !! e = None -> e_refcount ed = 1 ->
  rinv (Store (s_nodes st) (<[e := ed]> (s_edges st))) ln (e :: le).
Proof.
  intros R He Hrc. assert (occ e le = 0) as Ho.
  { pose proof (occ_nonneg e le). destruct (decide (1 <= occ e le)) as [Ho|]; [|lia].
    apply occ_in, (ri_le _ _ _ R) in Ho as [? ?]. congruence. }
  split; simpl.
  - intros n nd Hn. destruct (ri_node _ _ _ R n nd Hn) as [Hc ?]. simpl in Hc. rewrite refs_insert by done. unfold eref. lia.
  - intros e' ed'. rewrite lookup_insert_Some. intros [[<- <-]|[Hne He']].
    + rewrite bool_decide_true by done. simpl. split_and!; [lia|lia|apply (ri_ln _ _ _ R); right; by left|apply (ri_ln _ _ _ R); by left].
    + rewrite bool_decide_false by done. by apply (ri_edge _ _ _ R).
  - intros n Hn. apply (ri_ln _ _ _ R). by do 2 right.
  - intros e' [->|He']%elem_of_cons; apply lookup_insert_is_Some'; [by left|right; by apply (ri_le _ _ _ R)].
Qed.

Lemma add_edge_one_wf st g xn xe local remote metric data :
  wfg st g xn xe -> local ∈ g_nodes g -> remote ∈ g_nodes g -> 0 <= metric <= UINT32_MAX ->
  exists e st' g', add_edge_one true st g local remote metric data = Some (Some e, st', g') /\ wfg st' g' xn xe /\
    s_edges st !! e = None /\ g_nodes g' = g_nodes g /\ g_edges g' = g_edges g ++ [e] /\ last_node g' = last_node g /\
    (exists ed, s_edges st' !! e = Some ed /\ e_local ed = local /\ e_remote ed = remote /\ e_metric ed = metric /\ e_data ed = data) /\
    (forall e', e' <> e -> s_edges st' !! e' = s_edges st !! e') /\
    (forall n nd', s_nodes st' !! n = Some nd' -> exists nd, s_nodes st !! n = Some nd /\ nstatic nd nd').
Proof.
  intros [G R] Hlo Hre Hm. unfold add_edge_one. set (e := fresh (dom (s_edges st))).
  set (ed := GEdge local remote (wrap32 (last_edge g + 1)) metric data false 1).
  assert (s_edges st !! e = None) as He by (apply not_elem_of_dom, is_fresh).
  assert (e ∉ g_edges g) as Hne by (intros Hin; destruct (gi_edge _ _ G e Hin) as (? & ? & _); congruence).
  destruct (node_hold_ok st _ _ local R) as (st1 & H1 & R1 & K1 & E1).
  { apply (ri_ln _ _ _ R), elem_of_app. by left. }
  destruct (node_hold_ok st1 _ _ remote R1) as (st2 & H2 & R2 & K2 & E2).
  { apply (ri_ln _ _ _ R1). right. apply elem_of_app. by left. }
  apply (node_hold_edges _ _ _ (<[e := ed]> (s_edges st))) in H1, H2. rewrite H1. cbn [mbind option_bind].
  rewrite H2. cbn [mbind option_bind]. rewrite <- E1, <- E2.
  assert (kept st st2) as K by (by etrans).
  assert (rinv (Store (s_nodes st2) (<[e := ed]> (s_edges st2))) (g_nodes g ++ xn) (e :: g_edges g ++ xe)) as R3.
  { apply rinv_add_edge; [done|congruence|done]. }
  eexists e, _, _. split; [done|]. simpl. split_and!; [| |done..| | |].
  - split; simpl.
    + assert (ginv st2 g) as G2.
      { apply (ginv_kept st); [done|done| |].
        - intros n Hn. apply (ri_ln _ _ _ R3), elem_of_app. by left.
        - intros e' He'. rewrite E2, E1. destruct (gi_edge _ _ G e' He') as (x & ? & _). by exists x. }
      split; simpl; try apply G2.
      * apply NoDup_app. split_and!; [apply G| |apply NoDup_singleton]. by intros x Hx ->%list_elem_of_singleton.
      * intros e' [He'| ->%list_elem_of_singleton]%elem_of_app.
        -- rewrite lookup_insert_ne by congruence. by apply (gi_edge _ _ G2).
        -- exists ed. by rewrite lookup_insert_eq.
    + rewrite <- app_assoc. simpl. by rewrite <- Permutation_middle.
  - congruence.
  - exists ed. by rewrite lookup_insert_eq.
  - intros e' He'. rewrite lookup_insert_ne by done. congruence.
  - apply K.
Qed.

Lemma graph_remove_edge_wf st g xn xe e :
  wfg st g xn xe ->
  exists st' g', graph_remove_edge st g e = Some (st', g') /\ wfg st' g' xn xe /\ g_nodes g' = g_nodes g /\
    (forall x, x ∈ g_edges g' <-> x ∈ g_edges g /\ x <> e) /\
    (forall e', e' <> e -> s_edges st' !! e' = s_edges st !! e') /\
    (forall n nd', s_nodes st' !! n = Some nd' -> exists nd, s_nodes st !! n = Some nd /\ nstatic nd nd').
Proof.
  intros [G R]. unfold graph_remove_edge. case_bool_decide as He.
  2: { exists st, g. split_and!; try done; [intros; split; [intros; split; [done|congruence]|tauto]|]. intros n nd Hn. by exists nd. }
  destruct (gi_edge _ _ G e He) as (ed & Hed & _). rewrite Hed. cbn [mbind option_bind].
  set (st0 := Store (s_nodes st) (<[e := set_eorphan ed]> (s_edges st))).
  pose proof (remove_ptr_perm e _ He) as Hperm.
  assert (rinv st0 (g_nodes g ++ xn) (e :: remove_ptr e (g_edges g) ++ xe)) as R0.
  { rewrite app_comm_cons, Hperm. split; simpl.
    - intros n nd Hn. rewrite (refs_update _ e ed) by done. by apply (ri_node _ _ _ R).
    - intros e' ed'. rewrite lookup_insert_Some. intros [[<- <-]|[_ He']]; [by apply (ri_edge _ _ _ R e ed)|by apply (ri_edge _ _ _ R)].
    - apply (ri_ln _ _ _ R).
    - intros e' He'. apply lookup_insert_is_Some'. right. by apply (ri_le _ _ _ R). }
  destruct (edge_release_ok _ _ _ _ R0) as (st' & Hrel & R' & K & Hoth). rewrite Hrel. cbn [mbind option_bind].
  eexists _, _. split; [done|].
  assert (forall e', e' <> e -> s_edges st' !! e' = s_edges st !! e') as Hoth'.
  { intros e' Hne. rewrite (Hoth e' Hne). simpl. by apply lookup_insert_ne. }
  assert (forall n nd', s_nodes st' !! n = Some nd' -> exists nd, s_nodes st !! n = Some nd /\ nstatic nd nd') as Hns by apply K.
  assert (forall x, x ∈ remove_ptr e (g_edges g) <-> x ∈ g_edges g /\ x <> e) as Hel.
  { intros x. apply remove_ptr_elem, G. }
  split_and!; [|done..]. split; [|done]. split; simpl; [apply G|apply remove_ptr_NoDup, G|apply G| | |].
  - intros n Hn. destruct (ri_ln _ _ _ R' n) as [nd' Hnd']; [apply elem_of_app; by left|].
    destruct (Hns n nd' Hnd') as (nd & Hnd & Hid & _ & Ho). destruct (gi_node _ _ G n Hn) as (? & ? & ? & ?). simplify_eq.
    exists nd'. split_and!; [done|congruence|lia|lia].
  - intros n m nd' md' Hn Hm Hnd' Hmd' Hid. destruct (Hns _ _ Hnd') as (nd & Hnd & Hi1 & _).
    destruct (Hns _ _ Hmd') as (md & Hmd & Hi2 & _). apply (gi_ids _ _ G n m nd md); try done. congruence.
  - intros e' [He' Hne]%Hel. destruct (gi_edge _ _ G e' He') as (ed' & ? & ?). exists ed'. by rewrite Hoth'.
Qed.

(** The keys of the endpoints of an edge. *)
Definition ekeys (st : store) (e : ptr) : option ((Z * Z) * (Z * Z)) :=
  ed ← s_edges st !! e;
  nl ← s_nodes st !! e_local ed;
  nr ← s_nodes st !! e_remote ed;
  Some (nkey nl, nkey nr).

Definition incident (ops : gops) (st : store) (k : Z * Z) (e : ptr) : bool :=
  match ekeys st e with
  | Some (kl, kr) => node_equals ops kl k || node_equals ops kr k
  | None => false
  end.

Definition nodes_kept (st st' : store) : Prop :=
  forall n nd', s_nodes st' !! n = Some nd' -> exists nd, s_nodes st !! n = Some nd /\ nstatic nd nd'.

Lemma nodes_kept_refl st : nodes_kept st st.
Proof. intros n nd Hn. by exists nd. Qed.

Lemma nodes_kept_trans a b c : nodes_kept a b -> nodes_kept b c -> nodes_kept a c.
Proof.
  intros H1 H2 n nd Hn. destruct (H2 n nd Hn) as (nd2 & Hn2 & S2). destruct (H1 n nd2 Hn2) as (nd1 & Hn1 & S1).
  exists nd1. split; [done|]. unfold nstatic in *. naive_solver congruence.
Qed.

Lemma ekeys_kept st st' e kk : nodes_kept st st' -> s_edges st' !! e = s_edges st !! e -> ekeys st' e = Some kk -> ekeys st e = Some kk.
Proof.
  intros K He. unfold ekeys. rewrite He. destruct (s_edges st !! e) as [ed|]; simpl; [|done].
  destruct (s_nodes st' !! e_local ed) as [nl|] eqn:Hl; simpl; [|done].
  destruct (s_nodes st' !! e_remote ed) as [nr|] eqn:Hr; simpl; [|done].
  destruct (K _ _ Hl) as (nl0 & -> & Hi1 & Hd1 & _). destruct (K _ _ Hr) as (nr0 & -> & Hi2 & Hd2 & _).
  simpl. unfold nkey. intros [= <-]. congruence.
Qed.

Lemma ekeys_wf st g e : ginv st g -> e ∈ g_edges g -> exists kk, ekeys st e = Some kk.
Proof.
  intros G He. destruct (gi_edge _ _ G e He) as (ed & Hed & _ & Hl & Hr & _). unfold ekeys. rewrite Hed. simpl.
  destruct (gi_node _ _ G _ Hl) as (nl & -> & _). destruct (gi_node _ _ G _ Hr) as (nr & -> & _). simpl. eauto.
Qed.

Lemma remove_incident_wf ops nd xn xe es : forall st g,
  wfg st g xn xe -> NoDup es -> (forall e, e ∈ es -> e ∈ g_edges g) ->
  exists st' g', remove_incident ops st g nd es = Some (st', g') /\ wfg st' g' xn xe /\ g_nodes g' = g_nodes g /\
    (forall x, x ∈ g_edges g' <-> x ∈ g_edges g /\ ~ (x ∈ es /\ incident ops st (nkey nd) x = true)) /\
    (forall x, x ∈ g_edges g' -> s_edges st' !! x = s_edges st !! x) /\ nodes_kept st st'.
Proof.
  induction es as [|e es IH]; intros st g W Hnd Hsub.
  { exists st, g. split_and!; try done; [|apply nodes_kept_refl]. intros x. split; [|tauto]. intros. split; [done|].
    by intros [?%not_elem_of_nil _]. }
  apply NoDup_cons in Hnd as [Hnin Hnd]. assert (e ∈ g_edges g) as He by (apply Hsub; by left).
  destruct (ekeys_wf st g e (proj1 W) He) as [kk Hkk]. pose proof Hkk as Hkk'.
  unfold ekeys in Hkk'. cbn [remove_incident].
  destruct (s_edges st !! e) as [ed|] eqn:Hed; simpl in Hkk'; [|done]. cbn [mbind option_bind].
  destruct (s_nodes st !! e_local ed) as [nl|] eqn:Hl; simpl in Hkk'; [|done]. cbn [mbind option_bind].
  destruct (s_nodes st !! e_remote ed) as [nr|] eqn:Hr; simpl in Hkk'; [|done]. cbn [mbind option_bind].
  assert (incident ops st (nkey nd) e = node_equals ops (nkey nl) (nkey nd) || node_equals ops (nkey nr) (nkey nd)) as Hinc.
  { unfold incident. rewrite Hkk. by simplify_eq. }
  rewrite <- Hinc. destruct (incident ops st (nkey nd) e) eqn:Ei.
  - destruct (graph_remove_edge_wf st g xn xe e W) as (st1 & g1 & H1 & W1 & HN1 & HE1 & HS1 & K1).
    rewrite H1. cbn [mbind option_bind].
    destruct (IH st1 g1 W1 Hnd) as (st2 & g2 & H2 & W2 & HN2 & HE2 & HS2 & K2).
    { intros x Hx. apply HE1. split; [apply Hsub; by right|congruence]. }
    exists st2, g2. split_and!; [done|done|congruence| | |by eapply nodes_kept_trans].
    + intros x. rewrite HE2, HE1, elem_of_cons. split.
      * intros [[Hx Hne] Hno]. split; [done|]. intros [[?|Hxs] Hxi]; [done|]. apply Hno. split; [done|].
        unfold incident in *. destruct (ekeys_wf st1 g1 x (proj1 W1)) as [k1 Hk1]; [by apply HE1|].
        pose proof (ekeys_kept _ _ _ _ K1 (HS1 x Hne) Hk1) as Hk. by rewrite Hk1; rewrite Hk in Hxi.
      * intros [Hx Hno]. destruct (decide (x = e)) as [->|Hne]; [exfalso; apply Hno; auto|]. split; [done|].
        intros [Hxs Hxi]. apply Hno. split; [by right|]. unfold incident in *.
        destruct (ekeys_wf st1 g1 x (proj1 W1)) as [k1 Hk1]; [by apply HE1|].
        pose proof (ekeys_kept _ _ _ _ K1 (HS1 x Hne) Hk1) as Hk. by rewrite Hk; rewrite Hk1 in Hxi.
    + intros x Hx. rewrite HS2 by done. apply HS1. apply HE2 in Hx as [Hx _]. apply HE1 in Hx. tauto.
  - destruct (IH st g W Hnd) as (st2 & g2 & H2 & W2 & HN2 & HE2 & HS2 & K2); [intros; apply Hsub; by right|].
    exists st2, g2. split_and!; try done. intros x. rewrite HE2, elem_of_cons. split.
    + intros [Hx Hno]. split; [done|]. intros [[->|?] ?]; [congruence|]. by apply Hno.
    + intros [Hx Hno]. split; [done|]. intros [? ?]. apply Hno. auto.
Qed.

Lemma graph_remove_node_wf ops st g xn xe n nd :
  wfg st g xn xe -> (forall k, node_equals ops k k = true) -> n ∈ g_nodes g -> s_nodes st !! n = Some nd ->
  exists st' g', graph_remove_node ops st g n = Some (st', g') /\ wfg st' g' xn xe /\
    (forall m, m ∈ g_nodes g' <-> m ∈ g_nodes g /\ m <> n) /\
    (forall x, x ∈ g_edges g' <-> x ∈ g_edges g /\ incident ops st (nkey nd) x = false).
Proof.
  intros W Href Hn Hnd. unfold graph_remove_node. rewrite bool_decide_true by done. rewrite Hnd. cbn [mbind option_bind].
  destruct (remove_incident_wf ops nd xn xe (g_edges g) st g W) as (st1 & g1 & H1 & [G1 R1] & HN1 & HE1 & HS1 & K1);
    [apply W|done|]. rewrite H1. cbn [mbind option_bind].
  assert (n ∈ g_nodes g1) as Hn1 by congruence. destruct (gi_node _ _ G1 n Hn1) as (nd1 & Hnd1 & _). rewrite Hnd1.
  cbn [mbind option_bind]. set (st0 := Store (<[n := set_norphan nd1]> (s_nodes st1)) (s_edges st1)).
  pose proof (remove_ptr_perm n _ Hn1) as Hperm.
  assert (rinv st0 (n :: remove_ptr n (g_nodes g1) ++ xn) (g_edges g1 ++ xe)) as R0.
  { rewrite app_comm_cons, Hperm. split; simpl.
    - intros m md. rewrite lookup_insert_Some. intros [[<- <-]|[_ Hm]]; [by apply (ri_node _ _ _ R1 n nd1)|by apply (ri_node _ _ _ R1)].
    - intros e ed He. destruct (ri_edge _ _ _ R1 e ed He) as (? & ? & ? & ?). split_and!; [done..| |]; by apply lookup_insert_is_Some'; auto.
    - intros m Hm. apply lookup_insert_is_Some'. right. by apply (ri_ln _ _ _ R1).
    - apply (ri_le _ _ _ R1). }
  destruct (node_release_ok _ _ _ _ R0) as (st' & Hrel & R' & K & HE'). rewrite Hrel. cbn [mbind option_bind].
  eexists _, _. split; [done|].
  assert (forall m, m ∈ remove_ptr n (g_nodes g1) <-> m ∈ g_nodes g /\ m <> n) as Hel.
  { intros m. rewrite <- HN1. apply remove_ptr_elem, G1. }
  assert (forall x, x ∈ g_edges g1 <-> x ∈ g_edges g /\ incident ops st (nkey nd) x = false) as HE2.
  { intros x. rewrite HE1. destruct (incident ops st (nkey nd) x); naive_solver. }
  assert (forall m md', m <> n -> s_nodes st' !! m = Some md' -> exists md, s_nodes st1 !! m = Some md /\ nstatic md md') as Hns.
  { intros m md' Hne Hm. destruct (proj1 K m md' Hm) as (md & Hmd & ?). simpl in Hmd. rewrite lookup_insert_ne in Hmd by done. eauto. }
  split_and!; [|done..]. split; [|done]. split; simpl; [apply remove_ptr_NoDup, G1|apply G1|apply G1| | |].
  - intros m Hm. assert (m ∈ g_nodes g1 /\ m <> n) as [Hm1 Hne] by (rewrite HN1; by apply Hel).
    destruct (ri_ln _ _ _ R' m) as [md' Hmd']; [apply elem_of_app; by left|].
    destruct (Hns m md' Hne Hmd') as (md & Hmd & Hid & _ & Ho). destruct (gi_node _ _ G1 m Hm1) as (? & ? & ? & ?). simplify_eq.
    exists md'. split_and!; [done|congruence|lia|lia].
  - intros m1 m2 d1 d2 [Hm1 Hne1]%Hel [Hm2 Hne2]%Hel L1 L2 Hid. rewrite <- HN1 in Hm1, Hm2.
    destruct (Hns _ _ Hne1 L1) as (? & ? & Hi1 & _). destruct (Hns _ _ Hne2 L2) as (? & ? & Hi2 & _).
    eapply (gi_ids _ _ G1 m1 m2); try done. congruence.
  - intros e He. destruct (gi_edge _ _ G1 e He) as (ed & Hed & ? & Hl & Hr & ?). exists ed. rewrite HE'. simpl.
    assert (forall m, m ∈ g_nodes g1 -> (e_local ed = m \/ e_remote ed = m) -> m ∈ remove_ptr n (g_nodes g1)) as Hgo.
    { intros m Hm Hend. apply Hel. rewrite <- HN1. split; [done|]. intros ->.
      pose proof (proj1 (HE2 e) He) as [Hge Hinc]. destruct (ekeys_wf st g e (proj1 W) Hge) as [[kl kr] Hkk].
      unfold incident in Hinc. rewrite Hkk in Hinc. unfold ekeys in Hkk. rewrite <- (HS1 e He), Hed in Hkk. simpl in Hkk.
      destruct (s_nodes st !! e_local ed) as [nl|] eqn:El; simpl in Hkk; [|done].
      destruct (s_nodes st !! e_remote ed) as [nr|] eqn:Er; simpl in Hkk; [|done].
      apply orb_false_iff in Hinc as [Hi1 Hi2]. destruct Hend as [E|E]; rewrite E in *; simplify_eq; by rewrite Href in *. }
    split_and!; [done|done|by apply Hgo; auto|by apply Hgo; auto|lia|lia].
Qed.

(** ** The finalized view *)

Definition idz (st : store) (p : ptr) : Z := default 0 (node_id st p).

Definition vedge_of (st : store) (e : ptr) : vedge :=
  match s_edges st !! e with
  | Some ed => VEdge (e_id ed) (idz st (e_local ed)) (idz st (e_remote ed)) (e_metric ed) (e_data ed)
  | None => VEdge 0 0 0 0 0
  end.

(** What [graph_dijkstra] reads of a graph. *)
Definition graph_view (st : store) (g : graph) : view :=
  View (map (idz st) (g_nodes g)) (map (idz st) <$> g_neighs g) (vedge_of st <$> g_min_edges g).

(** [e] is a link of the graph from the node of id [a] to the node of id [b]. *)
Definition is_link (st : store) (g : graph) (a b w : Z) (e : ptr) : Prop :=
  e ∈ g_edges g /\ v_local (vedge_of st e) = a /\ v_remote (vedge_of st e) = b /\ v_metric (vedge_of st e) = w.

Section finalize.
Context (st : store) (g : graph).
Hypothesis G : ginv st g.

Lemma idz_node n : n ∈ g_nodes g -> node_id st n = Some (idz st n) /\ 1 <= idz st n.
Proof.
  intros Hn. destruct (gi_node _ _ G n Hn) as (nd & Hnd & _ & ?). unfold idz, node_id. rewrite Hnd. simpl. split; [done|lia].
Qed.

Lemma idz_inj n m : n ∈ g_nodes g -> m ∈ g_nodes g -> idz st n = idz st m -> n = m.
Proof.
  intros Hn Hm. destruct (gi_node _ _ G n Hn) as (nd & Hnd & _). destruct (gi_node _ _ G m Hm) as (md & Hmd & _).
  unfold idz, node_id. rewrite Hnd, Hmd. simpl. by apply (gi_ids _ _ G n m nd md).
Qed.

Lemma edge_facts e : e ∈ g_edges g -> exists ed, s_edges st !! e = Some ed /\
  e_local ed ∈ g_nodes g /\ e_remote ed ∈ g_nodes g /\ 0 <= e_metric ed <= UINT32_MAX /\
  node_id st (e_local ed) = Some (v_local (vedge_of st e)) /\ node_id st (e_remote ed) = Some (v_remote (vedge_of st e)) /\
  e_metric ed = v_metric (vedge_of st e).
Proof.
  intros He. destruct (gi_edge _ _ G e He) as (ed & Hed & _ & Hl & Hr & Hm). exists ed. unfold vedge_of. rewrite Hed. simpl.
  split_and!; [done..|lia|lia| | |done]; by apply idz_node.
Qed.

Abbreviation lid e := (v_local (vedge_of st e)).
Abbreviation rid e := (v_remote (vedge_of st e)).
Abbreviation met e := (v_metric (vedge_of st e)).

Lemma minimal_edge_loop_spec a b es : forall m res,
  (forall e, e ∈ es -> e ∈ g_edges g) ->
  exists r, minimal_edge_loop st a b es m res = Some r /\
    ((r = res /\ forall e, e ∈ es -> lid e = a -> rid e = b -> m <= met e) \/
     (exists e, r = Some e /\ e ∈ es /\ lid e = a /\ rid e = b /\ met e < m /\
        forall e', e' ∈ es -> lid e' = a -> rid e' = b -> met e <= met e')).
Proof.
  induction es as [|e es IH]; intros m res Hsub.
  { exists res. split; [done|]. left. split; [done|]. by intros e ?%not_elem_of_nil. }
  destruct (edge_facts e) as (ed & Hed & _ & _ & _ & Hl & Hr & Hm); [apply Hsub; by left|].
  cbn [minimal_edge_loop]. rewrite Hed. cbn [mbind option_bind]. rewrite Hl, Hr. cbn [mbind option_bind]. rewrite Hm.
  destruct ((lid e =? a) && (rid e =? b) && (met e <? m)) eqn:Ec.
  - bool_prop. destruct (IH (met e) (Some e)) as (r & Hr' & Hcase); [intros; apply Hsub; by right|]. exists r. split; [done|]. right.
    destruct Hcase as [[-> Hall]|(e1 & -> & Hin & ? & ? & Hlt & Hall)].
    + exists e. split_and!; try done; [by left|]. intros e' [->|He']%elem_of_cons ? ?; [lia|by apply Hall].
    + exists e1. split_and!; try done; [by right|lia|]. intros e' [->|He']%elem_of_cons ? ?; [lia|by apply Hall].
  - destruct (IH m res) as (r & Hr' & Hcase); [intros; apply Hsub; by right|]. exists r. split; [done|].
    assert (lid e = a -> rid e = b -> m <= met e) as Hskip.
    { intros E1 E2. rewrite E1, E2, !Z.eqb_refl in Ec. simpl in Ec. bool_prop. lia. }
    destruct Hcase as [[-> Hall]|(e1 & -> & Hin & ? & ? & Hlt & Hall)].
    + left. split; [done|]. intros e' [->|He']%elem_of_cons; auto.
    + right. exists e1. split_and!; try done; [by right|]. intros e' [->|He']%elem_of_cons ? ?; [|by apply Hall].
      specialize (Hskip ltac:(done) ltac:(done)). lia.
Qed.

(** The minimal edge between two ids. *)
Definition minimal (a b : Z) (e : ptr) : Prop :=
  e ∈ g_edges g /\ lid e = a /\ rid e = b /\ met e < UINT32_MAX /\
  forall e', e' ∈ g_edges g -> lid e' = a -> rid e' = b -> met e <= met e'.

Lemma get_minimal_spec a b :
  exists r, graph_get_minimal_edge st g a b = Some r /\
    match r with
    | Some e => minimal a b e
    | None => forall e, e ∈ g_edges g -> lid e = a -> rid e = b -> UINT32_MAX <= met e
    end.
Proof.
  destruct (minimal_edge_loop_spec a b (g_edges g) UINT32_MAX None) as (r & Hr & Hcase); [done|].
  exists r. split; [done|]. destruct Hcase as [[-> Hall]|(e & -> & ? & ? & ? & ? & ?)]; [done|by split_and!].
Qed.

(** What the maps of minimal edges hold: sound entries, and an entry for
    every pair treated. *)
Definition msound (m : gmap (Z * Z) ptr) : Prop :=
  forall a b e, m !! (a, b) = Some e -> a <> b /\ graph_get_minimal_edge st g a b = Some (Some e).

Lemma min_edges_inner_spec n1 ns : forall m,
  n1 ∈ g_nodes g -> (forall n, n ∈ ns -> n ∈ g_nodes g) -> msound m ->
  exists m', min_edges_inner st g n1 ns m = Some m' /\ msound m' /\
    (forall k, is_Some (m !! k) -> is_Some (m' !! k)) /\
    (forall n2 e, n2 ∈ ns -> n2 <> n1 -> graph_get_minimal_edge st g (idz st n1) (idz st n2) = Some (Some e) ->
       is_Some (m' !! (idz st n1, idz st n2))).
Proof.
  induction ns as [|n2 ns IH]; intros m Hn1 Hsub Hm.
  { exists m. split_and!; [done..|]. by intros n2 e ?%not_elem_of_nil. }
  cbn [min_edges_inner]. assert (n2 ∈ g_nodes g) as Hn2 by (apply Hsub; by left).
  assert (forall n, n ∈ ns -> n ∈ g_nodes g) as Hsub' by (intros; apply Hsub; by right).
  case_bool_decide as E.
  - subst. destruct (IH m Hn1 Hsub' Hm) as (m' & Hm' & Hs & Hk & Hc). exists m'. split_and!; [done..|].
    intros x e [->|Hx]%elem_of_cons Hne; [done|by eapply Hc].
  - destruct (idz_node n1 Hn1) as [-> _]. destruct (idz_node n2 Hn2) as [-> _]. cbn [mbind option_bind].
    destruct (get_minimal_spec (idz st n1) (idz st n2)) as (r & Hr & _). rewrite Hr. cbn [mbind option_bind].
    destruct r as [e|].
    + destruct (IH (<[(idz st n1, idz st n2) := e]> m) Hn1 Hsub') as (m' & Hm' & Hs & Hk & Hc).
      { intros a b e'. rewrite lookup_insert_Some. intros [[? <-]|[_ ?]]; [|by apply Hm]. simplify_eq. split; [|done].
        intros Heq. by apply E, idz_inj. }
      exists m'. split_and!; [done|done| |].
      * intros k Hsome. apply Hk, lookup_insert_is_Some'. by right.
      * intros x e' [->|Hx]%elem_of_cons Hne He'; [apply Hk; by rewrite lookup_insert_eq|by eapply Hc].
    + destruct (IH m Hn1 Hsub' Hm) as (m' & Hm' & Hs & Hk & Hc). exists m'. split_and!; [done..|].
      intros x e' [->|Hx]%elem_of_cons Hne He'; [congruence|by eapply Hc].
Qed.

Lemma min_edges_outer_spec ns : forall m,
  (forall n, n ∈ ns -> n ∈ g_nodes g) -> msound m ->
  exists m', min_edges_outer st g ns m = Some m' /\ msound m' /\
    (forall k, is_Some (m !! k) -> is_Some (m' !! k)) /\
    (forall n1 n2 e, n1 ∈ ns -> n2 ∈ g_nodes g -> n2 <> n1 ->
       graph_get_minimal_edge st g (idz st n1) (idz st n2) = Some (Some e) -> is_Some (m' !! (idz st n1, idz st n2))).
Proof.
  induction ns as [|n1 ns IH]; intros m Hsub Hm.
  { exists m. split_and!; [done..|]. by intros n1 n2 e ?%not_elem_of_nil. }
  cbn [min_edges_outer]. destruct (min_edges_inner_spec n1 (g_nodes g) m) as (m1 & H1 & Hs1 & Hk1 & Hc1);
    [apply Hsub; by left|done|done|]. rewrite H1. cbn [mbind option_bind].
  destruct (IH m1) as (m2 & H2 & Hs2 & Hk2 & Hc2); [intros; apply Hsub; by right|done|].
  exists m2. split_and!; [done|done|auto|]. intros x y e [->|Hx]%elem_of_cons Hy Hne He; [apply Hk2; by eapply Hc1|by eapply Hc2].
Qed.

Lemma neighbors_loop_spec id es : forall acc,
  (forall e, e ∈ es -> e ∈ g_edges g) -> NoDup acc ->
  exists l, neighbors_loop st id es acc = Some l /\ NoDup l /\
    forall p, p ∈ l <-> p ∈ acc \/ exists e ed, e ∈ es /\ s_edges st !! e = Some ed /\ lid e = id /\ met e <> UINT32_MAX /\ e_remote ed = p.
Proof.
  induction es as [|e es IH]; intros acc Hsub Hnd.
  { exists acc. split_and!; [done..|]. intros p. split; [by left|]. intros [|(e & ed & ?%not_elem_of_nil & _)]; done. }
  destruct (edge_facts e) as (ed & Hed & _ & _ & _ & Hl & _ & Hm); [apply Hsub; by left|].
  cbn [neighbors_loop]. rewrite Hed. cbn [mbind option_bind]. rewrite Hl. cbn [mbind option_bind]. rewrite Hm.
  assert (forall e, e ∈ es -> e ∈ g_edges g) as Hsub' by (intros; apply Hsub; by right).
  assert (forall acc', NoDup acc' -> (forall p, p ∈ acc' <-> p ∈ acc \/ (lid e = id /\ met e <> UINT32_MAX /\ e_remote ed = p)) ->
    exists l, neighbors_loop st id es acc' = Some l /\ NoDup l /\
    forall p, p ∈ l <-> p ∈ acc \/ exists e' ed, e' ∈ e :: es /\ s_edges st !! e' = Some ed /\ lid e' = id /\ met e' <> UINT32_MAX /\ e_remote ed = p) as Hgo.
  { intros acc' Hnd' Hacc. destruct (IH acc' Hsub' Hnd') as (l & Hl' & Hndl & Hp). exists l. split_and!; [done..|].
    intros p. rewrite Hp, Hacc. split.
    - intros [[?|(? & ? & ?)]|(e' & ed' & ? & ?)]; [by left|right; exists e, ed; split_and!; [by left|done..]|].
      right. exists e', ed'. split; [by right|done].
    - intros [?|(e' & ed' & [->|He']%elem_of_cons & Hed' & ? & ? & ?)]; [by left; left| |].
      + simplify_eq. left. right. done.
      + right. exists e', ed'. done. }
  destruct (Z.eqb_spec (lid e) id); cbn [negb]; [|apply Hgo; [done|naive_solver]].
  destruct (Z.eqb_spec (met e) UINT32_MAX); [apply Hgo; [done|naive_solver]|].
  case_bool_decide; [apply Hgo; [done|naive_solver]|]. apply Hgo.
  - apply NoDup_app. split_and!; [done| |apply NoDup_singleton]. by intros x Hx ->%list_elem_of_singleton.
  - intros p. rewrite elem_of_app, list_elem_of_singleton. naive_solver.
Qed.

Lemma all_neighbors_keep ns : forall m m' id,
  all_neighbors_loop st g ns m = Some m' -> is_Some (m !! id) -> is_Some (m' !! id).
Proof.
  induction ns as [|n ns IH]; intros m m' id; simpl; [by intros [= ->]|].
  destruct (node_id st n) as [i|]; simpl; [|done]. destruct (graph_compute_neighbors st g i) as [l|]; simpl; [|done].
  intros Hm' Hm. eapply IH; [done|]. apply lookup_insert_is_Some'. by right.
Qed.

Lemma all_neighbors_spec ns : forall m,
  (forall n, n ∈ ns -> n ∈ g_nodes g) ->
  exists m', all_neighbors_loop st g ns m = Some m' /\
    (forall id l, m' !! id = Some l -> m !! id = Some l \/ (exists n, n ∈ ns /\ idz st n = id) /\ graph_compute_neighbors st g id = Some l) /\
    (forall n, n ∈ ns -> m' !! idz st n = graph_compute_neighbors st g (idz st n)).
Proof.
  induction ns as [|n ns IH]; intros m Hsub.
  { exists m. split_and!; [done|by left|]. by intros n ?%not_elem_of_nil. }
  cbn [all_neighbors_loop]. destruct (idz_node n) as [-> _]; [apply Hsub; by left|]. cbn [mbind option_bind].
  destruct (neighbors_loop_spec (idz st n) (g_edges g) []) as (l & Hl & _); [done|constructor|].
  fold (graph_compute_neighbors st g (idz st n)) in Hl. rewrite Hl. cbn [mbind option_bind].
  destruct (IH (<[idz st n := l]> m)) as (m' & Hm' & Hs & Hc); [intros; apply Hsub; by right|].
  exists m'. split_and!; [done| |].
  - intros id l' Hid. destruct (Hs id l' Hid) as [Hx|[(n' & ? & ?) ?]]; [|right; split; [exists n'; split; [by right|done]|done]].
    apply lookup_insert_Some in Hx as [[<- <-]|[_ ?]]; [|by left]. right. split; [|done]. exists n. split; [by left|done].
  - intros n' [->|Hn']%elem_of_cons; [|by apply Hc].
    destruct (decide (idz st n ∈ map (idz st) ns)) as [Hin|Hnin].
    + apply list_elem_of_fmap in Hin as (n2 & Heq & Hn2). rewrite Heq. by apply Hc.
    + rewrite Hl. assert (is_Some (m' !! idz st n)) as [l' Hl'].
      { apply (all_neighbors_keep ns (<[idz st n := l]> m)); [done|]. by rewrite lookup_insert_eq. }
      destruct (Hs _ _ Hl') as [Hx|[_ Hx]]; [|congruence]. rewrite lookup_insert_eq in Hx. congruence.
Qed.

(** [graph_finalize] succeeds and fills both maps. *)
Lemma graph_finalize_maps :
  exists g', graph_finalize st g = Some g' /\ g_nodes g' = g_nodes g /\ g_edges g' = g_edges g /\ dirty g' = false /\
    msound (g_min_edges g') /\
    (forall n1 n2 e, n1 ∈ g_nodes g -> n2 ∈ g_nodes g -> n2 <> n1 -> minimal (idz st n1) (idz st n2) e ->
       is_Some (g_min_edges g' !! (idz st n1, idz st n2))) /\
    (forall id l, g_neighs g' !! id = Some l -> graph_compute_neighbors st g id = Some l) /\
    (forall n, n ∈ g_nodes g -> g_neighs g' !! idz st n = graph_compute_neighbors st g (idz st n)).
Proof.
  unfold graph_finalize, graph_compute_minimal_edges, graph_compute_all_neighbors.
  destruct (min_edges_outer_spec (g_nodes g) ∅) as (m & -> & Hs & _ & Hc); [done|by intros a b e; rewrite lookup_empty|].
  cbn [mbind option_bind g_nodes].
  destruct (all_neighbors_spec (g_nodes g) ∅) as (ne & Hne & Hns & Hnc); [done|].
  assert (forall g2 ns m, g_nodes g2 = g_nodes g -> g_edges g2 = g_edges g -> all_neighbors_loop st g2 ns m = all_neighbors_loop st g ns m) as Hsame.
  { intros g2 ns. induction ns as [|n ns IH]; intros m0 H1 H2; simpl; [done|]. destruct (node_id st n); simpl; [|done].
    unfold graph_compute_neighbors. rewrite H2. destruct (neighbors_loop _ _ _ _); simpl; [|done]. by apply IH. }
  rewrite Hsame by done. rewrite Hne. cbn [mbind option_bind]. eexists. split; [done|]. cbn [g_nodes g_edges dirty g_min_edges g_neighs].
  split_and!; try done.
  - intros n1 n2 e H1 H2 Hne12 Hmin. destruct (get_minimal_spec (idz st n1) (idz st n2)) as ([e'|] & Hr & Hspec).
    + by eapply Hc.
    + destruct Hmin as (He & Hl & Hr' & Hlt & _). specialize (Hspec e He Hl Hr'). lia.
  - intros id l Hid. destruct (Hns id l Hid) as [Hx|[_ ?]]; [by rewrite lookup_empty in Hx|done].
Qed.

(** The neighbours of a node, by id. *)
Lemma neighbors_ids id l : graph_compute_neighbors st g id = Some l ->
  NoDup l /\ (forall p, p ∈ l -> p ∈ g_nodes g) /\
  forall p, p ∈ l <-> exists e ed, e ∈ g_edges g /\ s_edges st !! e = Some ed /\ lid e = id /\ met e < UINT32_MAX /\ e_remote ed = p.
Proof.
  intros Hl. destruct (neighbors_loop_spec id (g_edges g) []) as (l' & Hl' & Hnd & Hp); [done|constructor|].
  unfold graph_compute_neighbors in Hl. simplify_eq. split; [done|].
  assert (forall p, p ∈ l <-> exists e ed, e ∈ g_edges g /\ s_edges st !! e = Some ed /\ lid e = id /\ met e < UINT32_MAX /\ e_remote ed = p) as Hp'.
  { intros p. rewrite Hp. split.
    - intros [?%not_elem_of_nil|(e & ed & He & Hed & ? & ? & ?)]; [done|]. exists e, ed. split_and!; try done.
      destruct (edge_facts e He) as (? & ? & _ & _ & ? & _ & _ & ?). simplify_eq. lia.
    - intros (e & ed & ? & ? & ? & ? & ?). right. exists e, ed. split_and!; try done. lia. }
  split; [|done]. intros p (e & ed & He & Hed & _ & _ & <-)%Hp'. destruct (edge_facts e He) as (? & ? & _ & ? & _). by simplify_eq.
Qed.

Lemma finalize_view g' :
  graph_finalize st g = Some g' ->
  WfView (graph_view st g') /\
  forall a b w, wt (graph_view st g') a b = Some w <->
    a <> b /\ w < UINT32_MAX /\ (exists e, is_link st g a b w e) /\ forall w' e', is_link st g a b w' e' -> w <= w'.
Proof.
  intros Hg. destruct graph_finalize_maps as (g0 & Hg2 & HN & HE & _ & Hms & Hmc & Hns & Hnc).
  rewrite Hg in Hg2. injection Hg2 as <-.
  assert (forall a b e, g_min_edges g' !! (a, b) = Some e -> a <> b /\ minimal a b e) as Hmin.
  { intros a b e He. destruct (Hms a b e He) as [? Hget]. split; [done|].
    destruct (get_minimal_spec a b) as (r & Hr & Hspec). rewrite Hget in Hr. by simplify_eq. }
  assert (forall n1 l v, n1 ∈ g_nodes g -> graph_compute_neighbors st g (idz st n1) = Some l -> v ∈ map (idz st) l -> v <> idz st n1 ->
    exists e0, g_min_edges g' !! (idz st n1, v) = Some e0) as Hhas.
  { intros n1 l v Hn1 Hl Hv Hne. apply list_elem_of_fmap in Hv as (p & -> & Hp).
    destruct (neighbors_ids _ _ Hl) as (_ & Hsub & Hiff). pose proof (Hsub p Hp) as Hpn.
    apply Hiff in Hp as (e & ed & He & Hed & Hle & Hme & Hpe).
    destruct (edge_facts e He) as (ed' & Hed' & _ & _ & _ & _ & Hr & _). simplify_eq.
    assert (rid e = idz st (e_remote ed)) as Hre by (destruct (idz_node _ Hpn) as [Hx _]; congruence).
    destruct (get_minimal_spec (idz st n1) (idz st (e_remote ed))) as ([e'|] & Hget & Hspec).
    - apply (Hmc n1 (e_remote ed) e'); [done|done|congruence|done].
    - specialize (Hspec e He Hle Hre). lia. }
  assert (forall u, u ∈ map (idz st) (g_nodes g') <-> exists n, u = idz st n /\ n ∈ g_nodes g) as Hnode.
  { intros u. rewrite HN. apply list_elem_of_fmap. }
  split.
  - split; simpl.
    + rewrite HN. apply NoDup_fmap_2_strong; [|apply G]. intros x y Hx Hy. by apply idz_inj.
    + intros u (n & -> & Hn)%Hnode. destruct (neighbors_loop_spec (idz st n) (g_edges g) []) as (l & Hl & _); [done|constructor|].
      fold (graph_compute_neighbors st g (idz st n)) in Hl. exists (map (idz st) l). rewrite lookup_fmap, (Hnc n Hn), Hl.
      destruct (neighbors_ids _ _ Hl) as (Hnd & Hsub & _). split_and!; [done| |].
      * apply NoDup_fmap_2_strong; [|done]. intros x y Hx Hy. apply idz_inj; by apply Hsub.
      * intros v (p & -> & Hp)%list_elem_of_fmap. apply Hnode. eauto.
    + intros u vs v Hu Hv Hne. rewrite lookup_fmap in Hu. apply fmap_Some in Hu as (l & Hl & ->). pose proof (Hns _ _ Hl) as Hcl.
      pose proof Hv as Hv'. apply list_elem_of_fmap in Hv' as (p & _ & Hp). apply (neighbors_ids _ _ Hcl) in Hp as (e & ed & He & Hed & Hle & _).
      destruct (edge_facts e He) as (ed' & Hed' & Hlo & _ & _ & Hli & _). simplify_eq.
      assert (lid e = idz st (e_local ed)) as Hlid by (destruct (idz_node _ Hlo) as [Hx _]; congruence). rewrite Hlid in *.
      destruct (Hhas (e_local ed) l v Hlo Hcl Hv Hne) as [e0 He0]. exists (vedge_of st e0). rewrite lookup_fmap, He0. split; [done|].
      destruct (Hmin _ _ _ He0) as [_ (Hin & _ & _ & ? & _)]. destruct (edge_facts e0 Hin) as (? & _ & _ & _ & ? & _ & _ & ?). lia.
    + intros u v e He. rewrite lookup_fmap in He. apply fmap_Some in He as (e0 & He0 & ->).
      destruct (Hmin _ _ _ He0) as [? (_ & ? & ? & _)]. done.
  - intros a b w. unfold wt. cbn [neighs graph_view min_edges]. split.
    + destruct (Z.eqb_spec a b); [done|]. rewrite lookup_fmap. destruct (g_neighs g' !! a) as [l|] eqn:El; simpl; [|done].
      case_bool_decide; [|done]. rewrite lookup_fmap. destruct (g_min_edges g' !! (a, b)) as [e|] eqn:Ee; simpl; [|done].
      intros [= <-]. destruct (Hmin _ _ _ Ee) as [_ (Hin & ? & ? & ? & Hall)]. split_and!; [done|done|exists e; by split_and!|].
      intros w' e' (? & ? & ? & <-). by apply Hall.
    + intros (Hne & Hlt & (e & Hin & Hle & Hre & Hme) & Hall). destruct (Z.eqb_spec a b); [done|].
      destruct (edge_facts e Hin) as (ed & Hed & Hlo & Hro & _ & Hli & Hri & _).
      assert (a = idz st (e_local ed)) as -> by (destruct (idz_node _ Hlo) as [Hx _]; congruence).
      assert (b = idz st (e_remote ed)) as -> by (destruct (idz_node _ Hro) as [Hx _]; congruence).
      rewrite lookup_fmap, (Hnc _ Hlo).
      destruct (neighbors_loop_spec (idz st (e_local ed)) (g_edges g) []) as (l & Hl & _); [done|constructor|].
      fold (graph_compute_neighbors st g (idz st (e_local ed))) in Hl. rewrite Hl. simpl.
      assert (idz st (e_remote ed) ∈ map (idz st) l) as Hv.
      { apply list_elem_of_fmap. exists (e_remote ed). split; [done|]. apply (neighbors_ids _ _ Hl).
        exists e, ed. split_and!; try done. lia. }
      rewrite (bool_decide_true _ Hv). destruct (Hhas (e_local ed) l _ Hlo Hl Hv) as [e0 He0]; [congruence|].
      rewrite lookup_fmap, He0. simpl. f_equal. destruct (Hmin _ _ _ He0) as [_ (Hin0 & ? & ? & ? & Hall0)].
      apply Z.le_antisymm; [rewrite <- Hme; by apply Hall0|]. apply (Hall _ e0). by split_and!.
Qed.
End finalize.

(** ** Clones *)

Lemma hold_nodes_ok ns : forall st ln le,
  rinv st ln le -> (forall n, n ∈ ns -> is_Some (s_nodes st !! n)) ->
  exists st', hold_nodes st ns = Some st' /\ rinv st' (ns ++ ln) le /\ kept st st' /\ s_edges st' = s_edges st.
Proof.
  induction ns as [|n ns IH]; intros st ln le R Hns; [by exists st|]. cbn [hold_nodes].
  destruct (node_hold_ok st ln le n R) as (st1 & H1 & R1 & K1 & E1); [apply Hns; by left|]. rewrite H1. cbn [mbind option_bind].
  destruct (IH st1 (n :: ln) le R1) as (st2 & H2 & R2 & K2 & E2).
  { intros m Hm. assert (is_Some (s_nodes st !! m)) as [md Hmd] by (apply Hns; by right).
    unfold node_hold in H1. destruct (s_nodes st !! n); simplify_eq/=. apply lookup_insert_is_Some'. by eauto. }
  exists st2. split_and!; [done| |by etrans|congruence]. simpl. by rewrite Permutation_middle.
Qed.

Lemma hold_edges_ok es : forall st ln le,
  rinv st ln le -> (forall e, e ∈ es -> is_Some (s_edges st !! e)) ->
  exists st', hold_edges st es = Some st' /\ rinv st' ln (es ++ le) /\ kept st st' /\ s_nodes st' = s_nodes st.
Proof.
  induction es as [|e es IH]; intros st ln le R Hes; [by exists st|]. cbn [hold_edges].
  destruct (edge_hold_ok st ln le e R) as (st1 & H1 & R1 & K1 & E1); [apply Hes; by left|]. rewrite H1. cbn [mbind option_bind].
  destruct (IH st1 ln (e :: le) R1) as (st2 & H2 & R2 & K2 & E2).
  { intros m Hm. assert (is_Some (s_edges st !! m)) as [md Hmd] by (apply Hes; by right).
    unfold edge_hold in H1. destruct (s_edges st !! e); simplify_eq/=. apply lookup_insert_is_Some'. by eauto. }
  exists st2. split_and!; [done| |by etrans|congruence]. simpl. by rewrite Permutation_middle.
Qed.

Lemma release_edges_ok es : forall st ln le,
  rinv st ln (es ++ le) -> exists st', release_edges st es = Some st' /\ rinv st' ln le /\ kept st st'.
Proof.
  induction es as [|e es IH]; intros st ln le R; [by exists st|]. cbn [release_edges].
  destruct (edge_release_ok st ln (es ++ le) e R) as (st1 & H1 & R1 & K1 & _). rewrite H1. cbn [mbind option_bind].
  destruct (IH st1 ln le R1) as (st2 & H2 & R2 & K2). exists st2. split_and!; [done|done|by etrans].
Qed.

Lemma release_nodes_ok ns : forall st ln le,
  rinv st (ns ++ ln) le -> exists st', release_nodes st ns = Some st' /\ rinv st' ln le /\ kept st st'.
Proof.
  induction ns as [|n ns IH]; intros st ln le R; [by exists st|]. cbn [release_nodes].
  destruct (node_release_ok st (ns ++ ln) le n R) as (st1 & H1 & R1 & K1 & _). rewrite H1. cbn [mbind option_bind].
  destruct (IH st1 ln le R1) as (st2 & H2 & R2 & K2). exists st2. split_and!; [done|done|by etrans].
Qed.

(** Which objects a set of holders keeps, and with which counts. *)
Lemma rinv_edges st st2 ln le x :
  rinv st ln le -> rinv st2 ln (x ++ le) -> kept st st2 -> (forall e, e ∈ x -> is_Some (s_edges st !! e)) ->
  forall e, s_edges st2 !! e = (fun ed => set_erefcount ed (e_refcount ed + occ e x)) <$> s_edges st !! e.
Proof.
  intros R R2 [_ KE] Hx e. destruct (s_edges st2 !! e) as [ed2|] eqn:E2.
  - destruct (KE e ed2 E2) as (ed & Hed & Hs). rewrite Hed. simpl. f_equal.
    destruct (ri_edge _ _ _ R e ed Hed) as (Hc & _). destruct (ri_edge _ _ _ R2 e ed2 E2) as (Hc2 & _).
    rewrite occ_app in Hc2. unfold estatic in Hs. destruct ed, ed2; simpl in *. naive_solver (f_equal; lia).
  - destruct (s_edges st !! e) as [ed|] eqn:E; [|done]. exfalso.
    destruct (ri_edge _ _ _ R e ed E) as (Hc & Hpos & _). rewrite Hc in Hpos. apply occ_in in Hpos.
    destruct (ri_le _ _ _ R2 e) as [? ?]; [apply elem_of_app; by right|]. congruence.
Qed.

Lemma refs_ext m m2 n :
  (forall e, m2 !! e = None <-> m !! e = None) ->
  (forall e ed ed2, m !! e = Some ed -> m2 !! e = Some ed2 -> e_local ed2 = e_local ed /\ e_remote ed2 = e_remote ed) ->
  refs m2 n = refs m n.
Proof.
  revert m2. induction m as [|e ed m He IH] using map_ind; intros m2 Hnone Hsame.
  - assert (m2 = ∅) as ->; [|done]. apply map_eq. intros e. rewrite lookup_empty. apply Hnone, lookup_empty.
  - rewrite refs_insert by done. destruct (m2 !! e) as [ed2|] eqn:E2.
    2: { apply Hnone in E2. by rewrite lookup_insert_eq in E2. }
    rewrite (refs_delete m2 e ed2 n E2). destruct (Hsame e ed ed2) as [Hl Hr]; [by rewrite lookup_insert_eq|done|].
    unfold eref. rewrite Hl, Hr. f_equal. apply IH.
    + intros e'. destruct (decide (e = e')) as [<-|Hne]; [by rewrite lookup_delete_eq|].
      rewrite lookup_delete_ne by done. rewrite Hnone, lookup_insert_ne by done. done.
    + intros e' a b Ha Hb. apply lookup_delete_Some in Hb as [Hne Hb]. apply (Hsame e'); [|done]. by rewrite lookup_insert_ne.
Qed.

Lemma rinv_nodes st st2 ln le x :
  rinv st ln le -> rinv st2 ln (x ++ le) -> kept st st2 -> (forall e, e ∈ x -> is_Some (s_edges st !! e)) ->
  s_nodes st2 = s_nodes st.
Proof.
  intros R R2 K Hx. pose proof (rinv_edges st st2 ln le x R R2 K Hx) as HE. destruct K as [KN _].
  assert (forall n, refs (s_edges st2) n = refs (s_edges st) n) as Hrefs.
  { intros n. apply refs_ext; intros e; rewrite HE; [by destruct (s_edges st !! e)|].
    intros ed ed2 -> [= <-]. done. }
  apply map_eq. intros n. destruct (s_nodes st2 !! n) as [nd2|] eqn:E2.
  - destruct (KN n nd2 E2) as (nd & Hnd & Hs). rewrite Hnd. f_equal.
    destruct (ri_node _ _ _ R n nd Hnd) as [Hc _]. destruct (ri_node _ _ _ R2 n nd2 E2) as [Hc2 _]. rewrite Hrefs in Hc2.
    unfold nstatic in Hs. destruct nd, nd2; simpl in *. naive_solver (f_equal; lia).
  - destruct (s_nodes st !! n) as [nd|] eqn:E; [|done]. exfalso.
    destruct (ri_node _ _ _ R n nd E) as [Hc Hpos]. pose proof (occ_nonneg n ln). rewrite <- Hrefs in Hc.
    destruct (decide (1 <= occ n ln)) as [Ho|Ho].
    { apply occ_in, (ri_ln _ _ _ R2) in Ho as [? ?]. congruence. }
    assert (exists e ed, s_edges st2 !! e = Some ed /\ (e_local ed = n \/ e_remote ed = n)) as (e & ed & He & Hend).
    { assert (1 <= refs (s_edges st2) n) as Hr by lia. clear -Hr. unfold refs in Hr.
      assert (exists kv, kv ∈ map_to_list (s_edges st2) /\ 1 <= eref n kv.2) as ([e ed] & Hin & Hk).
      { revert Hr. generalize (map_to_list (s_edges st2)). induction l as [|kv l IH]; simpl; [lia|]. intros Hr.
        pose proof (eref_nonneg n kv.2). destruct (decide (1 <= eref n kv.2)); [exists kv; split; [by left|done]|].
        destruct IH as (kv' & ? & ?); [lia|]. exists kv'. split; [by right|done]. }
      exists e, ed. split; [by apply elem_of_map_to_list|]. simpl in Hk. unfold eref in Hk.
      do 2 case_bool_decide; simpl in Hk; auto; lia. }
    destruct (ri_edge _ _ _ R2 e ed He) as (_ & _ & [? Hl] & [? Hr]). destruct Hend as [<-|<-]; congruence.
Qed.

Definition static_prune (prune : gedge -> bool) : Prop := forall ed r, prune (set_erefcount ed r) = prune ed.

(** The edges a prune takes out. *)
Definition pruned (st : store) (prune : gedge -> bool) (es : list ptr) : list ptr :=
  List.filter (fun e => match s_edges st !! e with Some ed => prune ed | None => false end) es.

Lemma prune_loop_ok prune es : forall st,
  (forall e, e ∈ es -> is_Some (s_edges st !! e)) ->
  exists kept, prune_loop st prune es = Some (kept, Z.of_nat (length (pruned st prune es))) /\
    pruned st prune es ++ kept ≡ₚ es.
Proof.
  induction es as [|e es IH]; intros st Hes; [by exists []|]. cbn [prune_loop].
  destruct (Hes e) as [ed Hed]; [by left|]. rewrite Hed. cbn [mbind option_bind].
  destruct (IH st) as (kept & -> & Hp); [intros; apply Hes; by right|]. cbn [mbind option_bind].
  unfold pruned in *. cbn [List.filter]. rewrite Hed. destruct (prune ed).
  - exists kept. split; [do 2 f_equal; simpl; lia|]. simpl. by rewrite Hp.
  - exists (e :: kept). split; [done|]. by rewrite <- Permutation_middle, Hp.
Qed.

Lemma pruned_occ st prune es e :
  NoDup es -> occ e (pruned st prune es) =
    match s_edges st !! e with Some ed => if bool_decide (e ∈ es) && prune ed then 1 else 0 | None => 0 end.
Proof.
  induction 1 as [|x es Hx Hnd IH]; [simpl; by destruct (s_edges st !! e)|]. unfold pruned in *. cbn [List.filter].
  assert (bool_decide (e ∈ x :: es) = bool_decide (x = e) || bool_decide (e ∈ es)) as Hb.
  { destruct (decide (x = e)) as [->|Hne].
    - rewrite (bool_decide_true (e = e)) by done. apply bool_decide_true. by left.
    - rewrite (bool_decide_false (x = e)) by done. apply bool_decide_ext. rewrite elem_of_cons.
      split; [intros [?|?]; congruence|by right]. }
  rewrite Hb. destruct (decide (x = e)) as [->|Hne].
  - rewrite (bool_decide_true (e = e)) by done. rewrite (bool_decide_false (e ∈ es)) in IH by done. simpl in *.
    destruct (s_edges st !! e) as [ed|]; [|done]. simpl. destruct (prune ed); [|done].
    simpl. rewrite (bool_decide_true (e = e)), IH by done. done.
  - rewrite (bool_decide_false (x = e)) by done. simpl. destruct (s_edges st !! x) as [xd|]; [|done].
    destruct (prune xd); [|done]. simpl. rewrite (bool_decide_false (x = e)), IH by done. done.
Qed.

Lemma pruned_kept st st' prune es :
  kept st st' -> static_prune prune -> (forall e, e ∈ es -> is_Some (s_edges st' !! e)) ->
  pruned st' prune es = pruned st prune es.
Proof.
  intros K Hst Hes. unfold pruned. induction es as [|e es IH]; [done|]. cbn [List.filter].
  rewrite IH by (intros; apply Hes; by right). destruct (Hes e) as [ed' Hed']; [by left|].
  destruct (proj2 K e ed' Hed') as (ed & Hed & Hs). rewrite Hed, Hed'.
  assert (prune ed' = prune ed) as ->; [|done]. rewrite <- (Hst ed (e_refcount ed')). f_equal.
  unfold estatic in Hs. destruct ed, ed'; simpl in *. naive_solver congruence.
Qed.

Lemma clone_prune_destroy ops st g xn xe prune :
  wfg st g xn xe -> static_prune prune ->
  exists st1 gc gc' st2, graph_clone st g = Some (st1, gc) /\
    graph_prune st1 gc prune = Some (Z.of_nat (length (pruned st prune (g_edges g))), gc') /\
    graph_destroy ops st1 gc' true = Some st2 /\
    s_nodes st2 = s_nodes st /\
    forall e, s_edges st2 !! e =
      (fun ed => set_erefcount ed (e_refcount ed + occ e (pruned st prune (g_edges g)))) <$> s_edges st !! e.
Proof.
  intros [G R] Hst. unfold graph_clone.
  destruct (hold_nodes_ok (g_nodes g) st _ _ R) as (sa & Ha & Ra & Ka & Ea).
  { intros n Hn. destruct (gi_node _ _ G n Hn) as (nd & ? & _). by exists nd. }
  assert (forall e, e ∈ g_edges g -> is_Some (s_edges st !! e)) as Hes.
  { intros e He. destruct (gi_edge _ _ G e He) as (ed & ? & _). by exists ed. }
  destruct (hold_edges_ok (g_edges g) sa _ _ Ra) as (sb & Hb & Rb & Kb & Eb); [by rewrite Ea|].
  rewrite Ha. cbn [mbind option_bind]. rewrite Hb. cbn [mbind option_bind].
  eexists sb, (Graph (g_nodes g) (g_edges g) 0 0 ∅ ∅ false true). assert (kept st sb) as K by (by etrans).
  assert (forall e, e ∈ g_edges g -> is_Some (s_edges sb !! e)) as Hes'.
  { intros e He. apply (ri_le _ _ _ Rb), elem_of_app. by left. }
  destruct (prune_loop_ok prune (g_edges g) sb Hes') as (kp & Hk & Hperm).
  assert (pruned sb prune (g_edges g) = pruned st prune (g_edges g)) as Hsame.
  { by apply pruned_kept. }
  rewrite Hsame in Hk, Hperm. set (P := pruned st prune (g_edges g)) in *.
  unfold graph_prune. cbn [g_edges]. rewrite Hk. cbn [mbind option_bind].
  rewrite <- Hperm in Rb at 1. unfold graph_destroy. cbn [g_edges g_nodes].
  assert (rinv sb (g_nodes g ++ g_nodes g ++ xn) (kp ++ P ++ g_edges g ++ xe)) as Rb'.
  { rewrite (app_assoc kp P), (Permutation_app_comm kp P). done. }
  destruct (release_edges_ok kp sb _ _ Rb') as (sc & Hc & Rc & Kc).
  destruct (release_nodes_ok (g_nodes g) sc _ _ Rc) as (sd & Hd & Rd & Kd).
  eexists _, sd. split; [done|]. split; [done|]. cbn [g_edges g_nodes]. rewrite Hc. cbn [mbind option_bind]. split; [done|].
  assert (kept st sd) as Kall by (do 2 (etrans; [done|]); done).
  assert (forall e, e ∈ P -> is_Some (s_edges st !! e)) as HP.
  { intros e He. apply Hes. rewrite <- Hperm. apply elem_of_app. by left. }
  split; [by eapply rinv_nodes|by eapply rinv_edges].
Qed.

(** ** Deep copies *)

Lemma find_node_some st f ns :
  (forall n, n ∈ ns -> is_Some (s_nodes st !! n)) -> (exists n nd, n ∈ ns /\ s_nodes st !! n = Some nd /\ f nd = true) ->
  exists n nd, find_node st f ns = Some (Some n) /\ n ∈ ns /\ s_nodes st !! n = Some nd /\ f nd = true.
Proof.
  induction ns as [|x ns IH]; intros Hs (n & nd & Hn & Hnd & Hf); [by apply not_elem_of_nil in Hn|].
  cbn [find_node]. destruct (Hs x) as [xd Hx]; [by left|]. rewrite Hx. cbn [mbind option_bind].
  destruct (f xd) eqn:Ef; [exists x, xd; split_and!; [done|by left|done|done]|].
  destruct IH as (n' & nd' & ? & ? & ?); [intros; apply Hs; by right| |exists n', nd'; split_and!; [done|by right|tauto..]].
  exists n, nd. split_and!; [|done..]. apply elem_of_cons in Hn as [->|]; [congruence|done].
Qed.

Section deepcopy.
Context (ops : gops).

Definition copied_node (st st' : store) (n n2 : ptr) : Prop :=
  exists nd, s_nodes st !! n = Some nd /\ s_nodes st' !! n2 = Some (GNode (n_id nd) (node_data_copy ops (n_data nd)) false 1).

Lemma deepcopy_nodes_ok ns : forall st acc ln le,
  rinv st (acc ++ ln) le -> (forall n, n ∈ ns -> is_Some (s_nodes st !! n)) ->
  exists st' ns2, deepcopy_nodes ops st ns acc = Some (st', acc ++ ns2) /\ rinv st' ((acc ++ ns2) ++ ln) le /\
    s_edges st' = s_edges st /\ (forall n nd, s_nodes st !! n = Some nd -> s_nodes st' !! n = Some nd) /\
    Forall2 (copied_node st st') ns ns2 /\ NoDup ns2 /\ forall n2, n2 ∈ ns2 -> s_nodes st !! n2 = None.
Proof.
  induction ns as [|n ns IH]; intros st acc ln le R Hns.
  { exists st, []. rewrite app_nil_r. split_and!; try done; [constructor|by intros ? ?%not_elem_of_nil]. }
  cbn [deepcopy_nodes]. destruct (Hns n) as [nd Hnd]; [by left|]. rewrite Hnd. cbn [mbind option_bind].
  set (n2 := fresh (dom (s_nodes st))). assert (s_nodes st !! n2 = None) as Hn2 by (apply not_elem_of_dom, is_fresh).
  set (nd2 := GNode (n_id nd) (node_data_copy ops (n_data nd)) false 1).
  set (st1 := Store (<[n2 := nd2]> (s_nodes st)) (s_edges st)).
  assert (forall x xd, s_nodes st !! x = Some xd -> s_nodes st1 !! x = Some xd) as Hold.
  { intros x xd Hx. simpl. rewrite lookup_insert_ne; [done|congruence]. }
  destruct (IH st1 (acc ++ [n2]) ln le) as (st' & ns2 & Hc & R' & HE & HN & HF & Hnd2 & Hfr).
  { rewrite <- app_assoc. simpl. rewrite <- Permutation_middle. by apply rinv_add_node. }
  { intros x Hx. destruct (Hns x) as [xd Hxd]; [by right|]. exists xd. by apply Hold. }
  exists st', (n2 :: ns2). replace (acc ++ n2 :: ns2) with ((acc ++ [n2]) ++ ns2) by (by rewrite <- app_assoc).
  split_and!; [done..| | | |].
  - intros x xd Hx. by apply HN, Hold.
  - constructor.
    + exists nd. split; [done|]. apply HN. simpl. apply lookup_insert_eq.
    + eapply Forall2_impl_l; [exact HF|]. intros x y Hx (xd & Hxd & Hy).
      assert (is_Some (s_nodes st !! x)) as [xd' Hxd'] by (apply Hns; by right).
      pose proof (Hold _ _ Hxd'). exists xd. split; [congruence|done].
  - constructor; [|done]. intros Hin. specialize (Hfr _ Hin). simpl in Hfr. by rewrite lookup_insert_eq in Hfr.
  - intros x [->|Hx]%elem_of_cons; [done|]. specialize (Hfr _ Hx). simpl in Hfr. by apply lookup_insert_None in Hfr as [? _].
Qed.

(** The copy of an edge connects the copies of its endpoints. *)
Definition copied_edge (st st' : store) (ns2 : list ptr) (e e2 : ptr) : Prop :=
  exists ed l2 r2, s_edges st !! e = Some ed /\ l2 ∈ ns2 /\ r2 ∈ ns2 /\
    node_id st' l2 = node_id st (e_local ed) /\ node_id st' r2 = node_id st (e_remote ed) /\
    s_edges st' !! e2 = Some (GEdge l2 r2 (e_id ed) (e_metric ed) (edge_data_copy ops (e_data ed)) false 1).

Lemma get_node_ok st gc ln le id :
  rinv st ln le -> (forall n, n ∈ g_nodes gc -> is_Some (s_nodes st !! n)) ->
  (exists n, n ∈ g_nodes gc /\ node_id st n = Some id) ->
  exists n st', graph_get_node st gc id = Some (Some n, st') /\ n ∈ g_nodes gc /\ node_id st n = Some id /\
    rinv st' (n :: ln) le /\ s_edges st' = s_edges st /\ (forall x, node_id st' x = node_id st x) /\
    (forall x, x <> n -> s_nodes st' !! x = s_nodes st !! x) /\ nodes_kept st st'.
Proof.
  intros R Hs (n0 & Hn0 & Hid). unfold graph_get_node, graph_get_node_noref.
  destruct (find_node_some st (fun n => n_id n =? id) (g_nodes gc) Hs) as (n & nd & Hf & Hn & Hnd & Hb).
  { unfold node_id in Hid. apply fmap_Some in Hid as (nd & ? & ->). exists n0, nd. by rewrite Z.eqb_refl. }
  rewrite Hf. cbn [mbind option_bind]. apply Z.eqb_eq in Hb.
  destruct (node_hold_ok st ln le n R) as (st' & Hh & R' & [KN _] & HE); [by exists nd|]. rewrite Hh. cbn [mbind option_bind].
  exists n, st'. unfold node_hold in Hh. rewrite Hnd in Hh. simplify_eq/=.
  split_and!; try done; [by unfold node_id; rewrite Hnd| |].
  - intros x. unfold node_id. simpl. destruct (decide (n = x)) as [<-|Hne]; [by rewrite lookup_insert_eq, Hnd|by rewrite lookup_insert_ne].
  - intros x Hx. by apply lookup_insert_ne.
Qed.

Lemma deepcopy_edges_ok gc es : forall st acc ln le,
  rinv st (g_nodes gc ++ ln) (acc ++ le) ->
  (forall e, e ∈ es -> exists ed n1 n2, s_edges st !! e = Some ed /\ n1 ∈ g_nodes gc /\ n2 ∈ g_nodes gc /\
     is_Some (node_id st n1) /\ is_Some (node_id st n2) /\
     node_id st n1 = node_id st (e_local ed) /\ node_id st n2 = node_id st (e_remote ed)) ->
  exists st' es2, deepcopy_edges ops st gc es acc = Some (st', acc ++ es2) /\
    rinv st' (g_nodes gc ++ ln) ((acc ++ es2) ++ le) /\ (forall x, node_id st' x = node_id st x) /\
    (forall x, (x ∉ g_nodes gc) -> s_nodes st' !! x = s_nodes st !! x) /\ nodes_kept st st' /\
    (forall e ed, s_edges st !! e = Some ed -> s_edges st' !! e = Some ed) /\
    Forall2 (copied_edge st st' (g_nodes gc)) es es2 /\ NoDup es2 /\ forall e2, e2 ∈ es2 -> s_edges st !! e2 = None.
Proof.
  induction es as [|e es IH]; intros st acc ln le R Hes.
  { exists st, []. rewrite app_nil_r. split_and!; try done; [apply nodes_kept_refl|constructor|by intros ? ?%not_elem_of_nil]. }
  cbn [deepcopy_edges]. destruct (Hes e) as (ed & n1 & n2 & Hed & Hn1 & Hn2 & [i1 Hi1] & [i2 Hi2] & He1 & He2); [by left|].
  rewrite Hed. cbn [mbind option_bind]. rewrite <- He1, <- He2, Hi1, Hi2. cbn [mbind option_bind].
  destruct (get_node_ok st gc _ _ i1 R) as (l2 & s1 & Hg1 & Hl2 & Hl2i & R1 & E1 & I1 & O1 & K1).
  { intros n Hn. apply (ri_ln _ _ _ R), elem_of_app. by left. } { by exists n1. }
  rewrite Hg1. cbn [mbind option_bind].
  destruct (get_node_ok s1 gc _ _ i2 R1) as (r2 & s2 & Hg2 & Hr2 & Hr2i & R2 & E2 & I2 & O2 & K2).
  { intros n Hn. apply (ri_ln _ _ _ R1). right. apply elem_of_app. by left. } { exists n2. by rewrite I1. }
  rewrite Hg2. cbn [mbind option_bind].
  set (e2 := fresh (dom (s_edges s2))). assert (s_edges s2 !! e2 = None) as Hfr by (apply not_elem_of_dom, is_fresh).
  set (ed2 := GEdge l2 r2 (e_id ed) (e_metric ed) (edge_data_copy ops (e_data ed)) false 1).
  set (s3 := Store (s_nodes s2) (<[e2 := ed2]> (s_edges s2))).
  assert (forall x xd, s_edges st !! x = Some xd -> s_edges s3 !! x = Some xd) as Hold.
  { intros x xd Hx. simpl. rewrite lookup_insert_ne by congruence. congruence. }
  assert (forall x, node_id s3 x = node_id st x) as Hids by (intros x; by rewrite <- I1, <- I2).
  destruct (IH s3 (acc ++ [e2]) ln le) as (st' & es2 & Hc & R' & HI & HO & HK & HEold & HF & Hnd & Hfresh).
  { rewrite <- app_assoc. simpl. rewrite <- Permutation_middle. by apply rinv_add_edge. }
  { intros x Hx. destruct (Hes x) as (xd & m1 & m2 & Hxd & Hrest); [by right|]. exists xd, m1, m2.
    split; [by apply Hold|]. by rewrite !Hids. }
  exists st', (e2 :: es2). replace (acc ++ e2 :: es2) with ((acc ++ [e2]) ++ es2) by (by rewrite <- app_assoc).
  split_and!; [done|done|intros x; by rewrite HI, Hids| | | | | |].
  - intros x Hx. rewrite HO by done. simpl. rewrite O2, O1; [done|congruence|congruence].
  - eapply nodes_kept_trans; [|exact HK]. by eapply (nodes_kept_trans st s1).
  - intros x xd Hx. by apply HEold, Hold.
  - constructor.
    + exists ed, l2, r2. split_and!; [done|done|done| | |].
      * rewrite HI, Hids, <- He1. congruence.
      * rewrite HI, Hids, <- He2, Hi2, <- I1. done.
      * apply HEold. simpl. apply lookup_insert_eq.
    + eapply Forall2_impl_l; [exact HF|]. intros x y Hx (xd & a & b & Hxd & ? & ? & Ha & Hb & Hy).
      destruct (Hes x) as (xd' & _ & _ & Hxd' & _); [by right|]. pose proof (Hold _ _ Hxd'). simplify_eq.
      exists xd, a, b. rewrite <- !Hids. split_and!; done.
  - constructor; [|done]. intros Hin. specialize (Hfresh _ Hin). simpl in Hfresh. by rewrite lookup_insert_eq in Hfresh.
  - intros x [->|Hx]%elem_of_cons; [congruence|]. specialize (Hfresh _ Hx). simpl in Hfresh.
    apply lookup_insert_None in Hfresh as [? _]. congruence.
Qed.
End deepcopy.

Lemma graph_deepcopy_wf ops st g xn xe :
  wfg st g xn xe ->
  exists st' gc, graph_deepcopy ops st g = Some (st', gc) /\ ginv st' gc /\
    rinv st' (g_nodes gc ++ g_nodes g ++ xn) (g_edges gc ++ g_edges g ++ xe) /\
    map (fun n => nkey <$> s_nodes st' !! n) (g_nodes gc) =
      map (fun n => (fun nd => (n_id nd, node_data_copy ops (n_data nd))) <$> s_nodes st !! n) (g_nodes g) /\
    Forall2 (copied_edge ops st st' (g_nodes gc)) (g_edges g) (g_edges gc) /\
    (forall n nd, s_nodes st !! n = Some nd -> s_nodes st' !! n = Some nd) /\
    (forall e ed, s_edges st !! e = Some ed -> s_edges st' !! e = Some ed) /\
    (forall n, n ∈ g_nodes gc -> s_nodes st !! n = None) /\ (forall e, e ∈ g_edges gc -> s_edges st !! e = None).
Proof.
  intros [G R]. unfold graph_deepcopy.
  destruct (deepcopy_nodes_ok ops (g_nodes g) st [] (g_nodes g ++ xn) (g_edges g ++ xe)) as (s1 & ns2 & H1 & R1 & E1 & O1 & F1 & Nd1 & Fr1).
  { done. } { intros n Hn. destruct (gi_node _ _ G n Hn) as (nd & ? & _). by exists nd. }
  rewrite H1. cbn [mbind option_bind app]. set (gc := Graph ns2 [] (last_node g) (last_edge g) ∅ ∅ false false).
  assert (forall n n2, copied_node ops st s1 n n2 -> node_id s1 n2 = node_id s1 n /\ node_id s1 n = node_id st n) as Hid.
  { intros n n2 (nd & Hnd & Hn2). unfold node_id. by rewrite Hn2, (O1 _ _ Hnd), Hnd. }
  assert (forall n, n ∈ g_nodes g -> exists n2, n2 ∈ ns2 /\ node_id s1 n2 = node_id s1 n) as Hcopy.
  { intros n Hn. apply list_elem_of_lookup in Hn as [i Hi]. destruct (Forall2_lookup_l _ _ _ _ _ F1 Hi) as (n2 & Hi2 & Hc).
    exists n2. split; [by eapply list_elem_of_lookup_2|by apply Hid]. }
  destruct (deepcopy_edges_ok ops gc (g_edges g) s1 [] (g_nodes g ++ xn) (g_edges g ++ xe))
    as (st' & es2 & H2 & R2 & I2 & O2 & K2 & Eo2 & F2 & Nd2 & Fr2).
  { done. }
  { intros e He. destruct (gi_edge _ _ G e He) as (ed & Hed & _ & Hl & Hr & _).
    destruct (Hcopy _ Hl) as (n1 & ? & Hi1). destruct (Hcopy _ Hr) as (n2 & ? & Hi2).
    destruct (gi_node _ _ G _ Hl) as (ld & Hld & _). destruct (gi_node _ _ G _ Hr) as (rd & Hrd & _).
    apply O1 in Hld, Hrd. exists ed, n1, n2. rewrite E1, Hi1, Hi2. unfold node_id. rewrite Hld, Hrd. split_and!; done. }
  rewrite H2. cbn [mbind option_bind app]. eexists st', _. split; [done|].
  assert (forall n, n ∈ ns2 -> exists m nd nd', m ∈ g_nodes g /\ s_nodes st !! m = Some nd /\ s_nodes st' !! n = Some nd' /\
    n_id nd' = n_id nd /\ n_orphan nd' = false) as Hnew.
  { intros n Hn. pose proof Hn as Hn'. apply list_elem_of_lookup in Hn as [i Hi]. destruct (Forall2_lookup_r _ _ _ _ _ F1 Hi) as (m & Hm & (nd & Hnd & Hs1)).
    destruct (ri_ln _ _ _ R2 n) as [nd' Hnd']; [apply elem_of_app; by left|].
    destruct (K2 n nd' Hnd') as (nd1 & Hnd1 & Hi' & _ & Ho'). simplify_eq/=.
    exists m, nd, nd'. split_and!; [by eapply list_elem_of_lookup_2|done|done|by rewrite <- Hi'|by rewrite <- Ho']. }
  split_and!.
  - split; simpl; [done|done|apply G| | |].
    + intros n Hn. destruct (Hnew n Hn) as (m & nd & nd' & Hm & Hnd & Hnd' & Hi & Ho).
      destruct (gi_node _ _ G m Hm) as (? & ? & _ & ?). simplify_eq. exists nd'. rewrite Hi. done.
    + intros n1 n2 d1 d2 Hn1 Hn2 L1 L2 Hii.
      apply list_elem_of_lookup in Hn1 as [i1 Hi1]. apply list_elem_of_lookup in Hn2 as [i2 Hi2].
      destruct (Forall2_lookup_r _ _ _ _ _ F1 Hi1) as (m1 & Hm1 & Hc1). destruct (Forall2_lookup_r _ _ _ _ _ F1 Hi2) as (m2 & Hm2 & Hc2).
      pose proof (Hid _ _ Hc1) as [Ha1 _]. pose proof (Hid _ _ Hc2) as [Ha2 _].
      destruct Hc1 as (e1 & He1 & _). destruct Hc2 as (e2 & He2 & _).
      pose proof (I2 n1) as Hb1. pose proof (I2 n2) as Hb2. unfold node_id in *.
      rewrite L1 in Hb1. rewrite L2 in Hb2. rewrite (O1 _ _ He1) in Ha1. rewrite (O1 _ _ He2) in Ha2. simpl in *.
      assert (m1 = m2) as Heq.
      { apply (gi_ids _ _ G m1 m2 e1 e2); [by eapply list_elem_of_lookup_2|by eapply list_elem_of_lookup_2|done|done|]. congruence. }
      subst. assert (i1 = i2) as -> by (by eapply NoDup_lookup; [apply (gi_nn _ _ G)|..]). congruence.
    + intros e2 He2. apply list_elem_of_lookup in He2 as [i Hi]. destruct (Forall2_lookup_r _ _ _ _ _ F2 Hi) as (e & He & (ed & l2 & r2 & Hed & ? & ? & _ & _ & Hnew2)).
      eexists. split; [exact Hnew2|]. simpl. destruct (gi_edge _ _ G e) as (ed' & Hed' & _ & _ & _ & ?); [by eapply list_elem_of_lookup_2|].
      rewrite E1 in Hed. simplify_eq. split_and!; done || lia.
  - exact R2.
  - simpl. assert (forall n, n ∈ ns2 -> is_Some (s_nodes st' !! n)) as Hl by (intros n Hn; apply (ri_ln _ _ _ R2), elem_of_app; by left).
    clear -F1 K2 Hl. induction F1 as [|n n2 l l2 (nd & Hnd & Hs1) _ IH]; simpl; [done|].
    rewrite IH by (intros; apply Hl; by right). f_equal. rewrite Hnd. destruct (Hl n2) as [nd' Hnd']; [by left|].
    destruct (K2 n2 nd' Hnd') as (nd1 & Hnd1 & Hi & Hd & _). simplify_eq/=. rewrite Hnd'. simpl. unfold nkey. by rewrite <- Hi, <- Hd.
  - simpl. eapply Forall2_impl_l; [exact F2|]. intros e e2 He (ed & l2 & r2 & Hed & ? & ? & Hl & Hr & Hn2).
    exists ed, l2, r2. rewrite E1 in Hed. destruct (gi_edge _ _ G e He) as (ed' & Hed' & _ & Hlo & Hro & _). simplify_eq.
    destruct (gi_node _ _ G _ Hlo) as (ld & Hld & _). destruct (gi_node _ _ G _ Hro) as (rd & Hrd & _).
    split_and!; try done; [rewrite Hl|rewrite Hr]; unfold node_id; [by rewrite (O1 _ _ Hld), Hld|by rewrite (O1 _ _ Hrd), Hrd].
  - intros n nd Hn. rewrite O2; [by apply O1|]. simpl. intros Hin. rewrite (Fr1 n Hin) in Hn. done.
  - intros e ed He. apply Eo2. by rewrite E1.
  - simpl. exact Fr1.
  - simpl. intros e He. rewrite <- E1. by apply Fr2.
Qed.

(** ** Destroying a graph next to others *)

Lemma remove_edges_ok es : forall st g xn xe,
  wfg st g xn xe -> NoDup es -> (forall e, e ∈ g_edges g -> e ∈ es) ->
  exists st' g', remove_edges st g es = Some (st', g') /\ wfg st' g' xn xe /\ g_nodes g' = g_nodes g /\ g_edges g' = [] /\
    nodes_kept st st' /\ (forall e, e ∉ es -> s_edges st' !! e = s_edges st !! e).
Proof.
  induction es as [|e es IH]; intros st g xn xe W Hnd Hsub.
  - exists st, g. split_and!; [done|done|done| |apply nodes_kept_refl|done].
    destruct (g_edges g) as [|e l]; [done|]. exfalso. apply (not_elem_of_nil e), Hsub. by left.
  - apply NoDup_cons in Hnd as [Hne Hnd]. cbn [remove_edges].
    destruct (graph_remove_edge_wf st g xn xe e W) as (s1 & g1 & -> & W1 & HN1 & HE1 & HS1 & K1). cbn [mbind option_bind].
    destruct (IH s1 g1 xn xe W1 Hnd) as (s2 & g2 & -> & W2 & HN2 & HE2 & K2 & HS2).
    { intros x [Hx Hxe]%HE1. specialize (Hsub x Hx). apply elem_of_cons in Hsub as [->|?]; done. }
    exists s2, g2. split_and!; [done|done|congruence|done|by eapply nodes_kept_trans|].
    intros x [Hx1 Hx2]%not_elem_of_cons. rewrite HS2, HS1 by done. done.
Qed.

Lemma remove_node_noedges ops st g xn xe n :
  wfg st g xn xe -> g_edges g = [] -> n ∈ g_nodes g ->
  exists st' g', graph_remove_node ops st g n = Some (st', g') /\ wfg st' g' xn xe /\ g_edges g' = [] /\
    (forall m, m ∈ g_nodes g' <-> m ∈ g_nodes g /\ m <> n) /\ s_edges st' = s_edges st /\
    (forall m md', m <> n -> s_nodes st' !! m = Some md' -> exists md, s_nodes st !! m = Some md /\ nstatic md md').
Proof.
  intros [G R] He Hn. unfold graph_remove_node. rewrite bool_decide_true by done.
  destruct (gi_node _ _ G n Hn) as (nd & Hnd & _). rewrite Hnd, He. cbn [mbind option_bind remove_incident]. rewrite Hnd.
  cbn [mbind option_bind]. set (st0 := Store (<[n := set_norphan nd]> (s_nodes st)) (s_edges st)).
  pose proof (remove_ptr_perm n _ Hn) as Hperm.
  assert (rinv st0 (n :: remove_ptr n (g_nodes g) ++ xn) (g_edges g ++ xe)) as R0.
  { rewrite app_comm_cons, Hperm. split; simpl.
    - intros m md. rewrite lookup_insert_Some. intros [[<- <-]|[_ Hm]]; [by apply (ri_node _ _ _ R n nd)|by apply (ri_node _ _ _ R)].
    - intros e ed He'. destruct (ri_edge _ _ _ R e ed He') as (? & ? & ? & ?). split_and!; [done|done|by apply lookup_insert_is_Some'; right..].
    - intros m Hm. apply lookup_insert_is_Some'. right. by apply (ri_ln _ _ _ R).
    - apply (ri_le _ _ _ R). }
  destruct (node_release_ok _ _ _ _ R0) as (st' & -> & R' & K & E). cbn [mbind option_bind].
  assert (forall x, x ∈ remove_ptr n (g_nodes g) <-> x ∈ g_nodes g /\ x <> n) as Hel by (intros x; apply remove_ptr_elem, G).
  assert (forall m md', m <> n -> s_nodes st' !! m = Some md' -> exists md, s_nodes st !! m = Some md /\ nstatic md md') as Hst.
  { intros m md' Hne Hm. destruct (proj1 K m md' Hm) as (md & Hmd & ?). simpl in Hmd. rewrite lookup_insert_ne in Hmd by done. by exists md. }
  eexists st', _. split; [done|]. split_and!; [|done|done|done|done]. split; [|done]. split; simpl; [apply remove_ptr_NoDup, G|apply G|apply G| | |].
  - intros m [Hm Hne]%Hel. destruct (ri_ln _ _ _ R' m) as [md' Hmd']; [apply elem_of_app; left; by apply Hel|].
    destruct (Hst m md' Hne Hmd') as (md & Hmd & Hid & _ & Ho). destruct (gi_node _ _ G m Hm) as (? & ? & ? & ?). simplify_eq.
    exists md'. split_and!; [done|congruence|lia|lia].
  - intros m1 m2 d1 d2 [H1 N1]%Hel [H2 N2]%Hel L1 L2 Hid. destruct (Hst _ _ N1 L1) as (e1 & ? & I1 & _). destruct (Hst _ _ N2 L2) as (e2 & ? & I2 & _).
    apply (gi_ids _ _ G m1 m2 e1 e2); try done. congruence.
  - rewrite He. intros e ?%not_elem_of_nil. done.
Qed.

Lemma remove_nodes_ok ops ns : forall st g xn xe,
  wfg st g xn xe -> g_edges g = [] -> NoDup ns -> (forall n, n ∈ g_nodes g <-> n ∈ ns) ->
  exists st' g', remove_nodes ops st g ns = Some (st', g') /\ rinv st' xn xe /\ s_edges st' = s_edges st /\
    (forall m md', m ∉ ns -> s_nodes st' !! m = Some md' -> exists md, s_nodes st !! m = Some md /\ nstatic md md').
Proof.
  induction ns as [|n ns IH]; intros st g xn xe W He Hnd Hsub.
  - exists st, g. split_and!; [done| |done|intros m md' _ Hm; by exists md']. destruct W as [_ R].
    assert (g_nodes g = []) as HN by (destruct (g_nodes g) as [|n l]; [done|]; exfalso; apply (not_elem_of_nil n), Hsub; by left).
    by rewrite HN, He in R.
  - apply NoDup_cons in Hnd as [Hne Hnd]. cbn [remove_nodes].
    destruct (remove_node_noedges ops st g xn xe n W He) as (s1 & g1 & -> & W1 & He1 & HN1 & HS1 & K1); [apply Hsub; by left|].
    cbn [mbind option_bind]. destruct (IH s1 g1 xn xe W1 He1 Hnd) as (s2 & g2 & -> & R2 & HS2 & K2).
    { intros m. rewrite HN1, Hsub, elem_of_cons. split; [intros [[->|?] ?]; done|]. intros Hm. split; [by right|]. by intros ->. }
    exists s2, g2. split_and!; [done|done|congruence|].
    intros m md' [Hm1 Hm2]%not_elem_of_cons Hm. destruct (K2 m md' Hm2 Hm) as (md1 & Hmd1 & S2).
    destruct (K1 m md1 Hm1 Hmd1) as (md & Hmd & S1). exists md. split; [done|]. unfold nstatic in *. naive_solver congruence.
Qed.

(** [graph_destroy] frees what only the graph holds; objects of other graphs
    keep everything but their counts. *)
Lemma graph_destroy_wf ops st g xn xe :
  wfg st g xn xe ->
  exists st', graph_destroy ops st g false = Some st' /\ rinv st' xn xe /\
    (forall n nd', n ∉ g_nodes g -> s_nodes st' !! n = Some nd' -> exists nd, s_nodes st !! n = Some nd /\ nstatic nd nd') /\
    (forall e, e ∉ g_edges g -> s_edges st' !! e = s_edges st !! e).
Proof.
  intros W. unfold graph_destroy.
  destruct (remove_edges_ok (g_edges g) st g xn xe W) as (s1 & g1 & -> & W1 & HN1 & HE1 & K1 & HS1); [apply W|done|].
  cbn [mbind option_bind]. rewrite HN1.
  destruct (remove_nodes_ok ops (g_nodes g) s1 g1 xn xe W1 HE1) as (s2 & g2 & -> & R2 & HS2 & K2); [apply W|by rewrite HN1|].
  cbn [mbind option_bind]. exists s2. split_and!; [done|done| |].
  - intros n nd' Hn Hnd'. destruct (K2 n nd' Hn Hnd') as (nd1 & Hnd1 & S2). destruct (K1 n nd1 Hnd1) as (nd & Hnd & S1).
    exists nd. split; [done|]. unfold nstatic in *. naive_solver congruence.
  - intros e He. rewrite HS2. by apply HS1.
Qed.

(** ** A graph whose objects others do not touch *)

Definition gframe (g : graph) (st st' : store) : Prop :=
  (forall n, n ∈ g_nodes g -> exists nd nd', s_nodes st !! n = Some nd /\ s_nodes st' !! n = Some nd' /\ nstatic nd nd') /\
  (forall e, e ∈ g_edges g -> exists ed ed', s_edges st !! e = Some ed /\ s_edges st' !! e = Some ed' /\ estatic ed ed').

Lemma gframe_ginv g st st' : ginv st g -> gframe g st st' -> ginv st' g.
Proof.
  intros G [FN FE]. split; try apply G.
  - intros n Hn. destruct (FN n Hn) as (nd & nd' & Hnd & Hnd' & Hid & _ & Ho). destruct (gi_node _ _ G n Hn) as (? & ? & ? & ?). simplify_eq.
    exists nd'. split_and!; [done|congruence|lia|lia].
  - intros n m nd' md' Hn Hm Hnd' Hmd' Hid. destruct (FN n Hn) as (nd & ? & Hnd & ? & Hi1 & _). destruct (FN m Hm) as (md & ? & Hmd & ? & Hi2 & _).
    simplify_eq. apply (gi_ids _ _ G n m nd md); try done. congruence.
  - intros e He. destruct (FE e He) as (ed & ed' & Hed & Hed' & Hl & Hr & _ & Hm & _ & Ho).
    destruct (gi_edge _ _ G e He) as (? & ? & ? & ? & ? & ?). simplify_eq. exists ed'. by rewrite <- Hl, <- Hr, <- Hm, <- Ho.
Qed.

(** The derived maps point into the graph's own lists. *)
Definition maps_closed (g : graph) : Prop :=
  (forall k l n, g_neighs g !! k = Some l -> n ∈ l -> n ∈ g_nodes g) /\
  (forall k e, g_min_edges g !! k = Some e -> e ∈ g_edges g).

Lemma gframe_idz g st st' n : gframe g st st' -> n ∈ g_nodes g -> idz st' n = idz st n.
Proof. intros [FN _] Hn. destruct (FN n Hn) as (nd & nd' & Hnd & Hnd' & Hid & _). unfold idz, node_id. rewrite Hnd, Hnd'. simpl. congruence. Qed.

Lemma gframe_view g st st' : ginv st g -> maps_closed g -> gframe g st st' -> graph_view st' g = graph_view st g.
Proof.
  intros G [CN CE] F. unfold graph_view. f_equal.
  - apply map_ext_in. intros n Hn%list_elem_of_In. by eapply gframe_idz.
  - apply map_eq. intros k. rewrite !lookup_fmap. destruct (g_neighs g !! k) as [l|] eqn:E; [|done]. simpl. f_equal.
    apply map_ext_in. intros n Hn%list_elem_of_In. eapply gframe_idz; [done|by eapply CN].
  - apply map_eq. intros k. rewrite !lookup_fmap. destruct (g_min_edges g !! k) as [e|] eqn:E; [|done]. simpl. f_equal.
    specialize (CE k e E). destruct (proj2 F e CE) as (ed & ed' & Hed & Hed' & Hl & Hr & Hi & Hm & Hd & _).
    destruct (gi_edge _ _ G e CE) as (? & ? & _ & Hln & Hrn & _). simplify_eq. unfold vedge_of. rewrite Hed, Hed', <- Hl, <- Hr, <- Hi, <- Hm, <- Hd.
    by rewrite !(gframe_idz g st st').
Qed.

(** How the operations of one graph frame another. *)
Lemma gframe_of g st st' ln le :
  ginv st g -> rinv st' ln le -> (forall n, n ∈ g_nodes g -> n ∈ ln) -> (forall e, e ∈ g_edges g -> e ∈ le) ->
  (forall n nd', n ∈ g_nodes g -> s_nodes st' !! n = Some nd' -> exists nd, s_nodes st !! n = Some nd /\ nstatic nd nd') ->
  (forall e, e ∈ g_edges g -> s_edges st' !! e = s_edges st !! e) -> gframe g st st'.
Proof.
  intros G R HN HE KN KE. split.
  - intros n Hn. destruct (ri_ln _ _ _ R n (HN n Hn)) as [nd' Hnd']. destruct (KN n nd' Hn Hnd') as (nd & Hnd & Hs). by exists nd, nd'.
  - intros e He. destruct (ri_le _ _ _ R e (HE e He)) as [ed Hed]. exists ed, ed. rewrite <- KE by done. by split_and!.
Qed.

Lemma finalize_closed st g g' :
  ginv st g -> graph_finalize st g = Some g' -> ginv st g' /\ maps_closed g' /\ g_nodes g' = g_nodes g /\ g_edges g' = g_edges g.
Proof.
  intros G Hg. destruct (graph_finalize_maps st g G) as (g2 & Hg2 & HN & HE & _ & Hms & _ & Hns & _). rewrite Hg in Hg2. injection Hg2 as <-.
  assert (last_node g' = last_node g) as HL.
  { revert Hg. unfold graph_finalize, graph_compute_minimal_edges, graph_compute_all_neighbors.
    destruct (min_edges_outer _ _ _ _); simpl; [|done]. destruct (all_neighbors_loop _ _ _ _); simpl; [|done]. by intros [= <-]. }
  split_and!; [|split|done|done].
  - destruct G. split; rewrite ?HN, ?HE, ?HL; done.
  - intros k l n Hk Hn. rewrite HN. by eapply (neighbors_ids st g G k l (Hns k l Hk)).
  - intros [a b] e Hk. destruct (Hms a b e Hk) as [_ Hget]. destruct (get_minimal_spec st g G a b) as (r & Hr & Hspec).
    rewrite Hget in Hr. simplify_eq. rewrite HE. apply Hspec.
Qed.

(** ** The graph a pruned clone presents *)

(** [graph_finalize] reads the node and edge lists only. *)
Lemma finalize_lists st g1 g2 :
  g_nodes g1 = g_nodes g2 -> g_edges g1 = g_edges g2 -> graph_view st <$> graph_finalize st g1 = graph_view st <$> graph_finalize st g2.
Proof.
  intros HN HE.
  assert (forall n ns m, min_edges_inner st g1 n ns m = min_edges_inner st g2 n ns m) as Hi.
  { intros n ns. induction ns as [|n2 ns IH]; intros m; cbn [min_edges_inner]; [done|]. case_bool_decide; [by apply IH|].
    unfold graph_get_minimal_edge. rewrite HE. destruct (node_id st n), (node_id st n2); cbn [mbind option_bind]; try done.
    destruct (minimal_edge_loop _ _ _ _ _ _) as [[e|]|]; cbn [mbind option_bind]; by rewrite ?IH. }
  assert (forall ns m, min_edges_outer st g1 ns m = min_edges_outer st g2 ns m) as Ho.
  { induction ns as [|n ns IH]; intros m; cbn [min_edges_outer]; [done|]. rewrite HN, Hi. destruct (min_edges_inner _ _ _ _ _); cbn [mbind option_bind]; [apply IH|done]. }
  assert (forall h1 h2 ns m, g_edges h1 = g_edges h2 -> all_neighbors_loop st h1 ns m = all_neighbors_loop st h2 ns m) as Hn.
  { intros h1 h2 ns. induction ns as [|n ns IH]; intros m He; cbn [all_neighbors_loop]; [done|]. unfold graph_compute_neighbors. rewrite He.
    destruct (node_id st n); cbn [mbind option_bind]; [|done]. destruct (neighbors_loop _ _ _ _); cbn [mbind option_bind]; [by apply IH|done]. }
  unfold graph_finalize, graph_compute_minimal_edges, graph_compute_all_neighbors. rewrite Ho, HN.
  destruct (min_edges_outer _ _ _ _) as [m|]; cbn [mbind option_bind]; [|done]. cbn [g_nodes g_edges].
  do 2 (erewrite (Hn (Graph _ _ _ _ _ _ _ _) g2) by (exact HE || reflexivity)).
  rewrite HE. by destruct (all_neighbors_loop _ _ _ _).
Qed.

(** Any choice of a graph's edges can be finalized, and routing then sees the
    links chosen. *)
Lemma finalize_sub st g gc :
  ginv st g -> g_nodes gc = g_nodes g -> NoDup (g_edges gc) -> (forall e, e ∈ g_edges gc -> e ∈ g_edges g) ->
  exists gc', graph_finalize st gc = Some gc' /\ WfView (graph_view st gc') /\ nodes (graph_view st gc') = map (idz st) (g_nodes g) /\
    (forall k ve, min_edges (graph_view st gc') !! k = Some ve -> exists e, e ∈ g_edges gc /\ ve = vedge_of st e) /\
    forall a b w, wt (graph_view st gc') a b = Some w <->
      a <> b /\ w < UINT32_MAX /\ (exists e, is_link st gc a b w e) /\ forall w' e', is_link st gc a b w' e' -> w <= w'.
Proof.
  intros G HN Hnd Hsub. set (h := Graph (g_nodes g) (g_edges gc) (last_node g) (last_edge g) ∅ ∅ false false).
  assert (ginv st h) as Gh.
  { destruct G as [? ? ? ? ? He]. split; try done. intros e Hin. by apply He, Hsub. }
  destruct (graph_finalize_maps st h Gh) as (h' & Hf & HN' & _). pose proof (finalize_view st h Gh h' Hf) as [Wv Hwt].
  pose proof (finalize_lists st gc h HN eq_refl) as Hl. rewrite Hf in Hl. destruct (graph_finalize st gc) as [gc'|]; [|done].
  injection Hl as Hv Hn He. exists gc'. assert (graph_view st gc' = graph_view st h') as -> by (unfold graph_view; by f_equal). split_and!; [done|done| | |].
  - cbn [nodes graph_view]. by rewrite HN'.
  - intros k ve Hk. cbn [min_edges graph_view] in Hk. rewrite lookup_fmap in Hk. apply fmap_Some in Hk as (e & Hk & ->). exists e. split; [|done].
    destruct (finalize_closed st h h' Gh Hf) as (_ & [_ Cm] & _ & HE'). specialize (Cm k e Hk). by rewrite HE' in Cm.
  - intros a b w. rewrite Hwt. done.
Qed.

Lemma graph_clone_ok st g xn xe :
  wfg st g xn xe -> exists st1 gc, graph_clone st g = Some (st1, gc) /\ gframe g st st1 /\ g_nodes gc = g_nodes g /\ g_edges gc = g_edges g.
Proof.
  intros [G R]. unfold graph_clone.
  destruct (hold_nodes_ok (g_nodes g) st _ _ R) as (sa & Ha & Ra & Ka & Ea).
  { intros n Hn. destruct (gi_node _ _ G n Hn) as (nd & ? & _). by exists nd. }
  destruct (hold_edges_ok (g_edges g) sa _ _ Ra) as (sb & Hb & Rb & Kb & Eb).
  { intros e He. rewrite Ea. destruct (gi_edge _ _ G e He) as (ed & ? & _). by exists ed. }
  rewrite Ha. cbn [mbind option_bind]. rewrite Hb. cbn [mbind option_bind]. eexists sb, _. split; [done|]. split_and!; [|done|done].
  assert (kept st sb) as [KN KE] by (by etrans). split.
  - intros n Hn. destruct (ri_ln _ _ _ Rb n) as [nd' Hnd']; [apply elem_of_app; by left|]. destruct (KN n nd' Hnd') as (nd & Hnd & Hs). by exists nd, nd'.
  - intros e He. destruct (ri_le _ _ _ Rb e) as [ed' Hed']; [apply elem_of_app; by left|]. destruct (KE e ed' Hed') as (ed & Hed & Hs). by exists ed, ed'.
Qed.

(** The edges [graph_prune] leaves, in order. *)
Lemma graph_prune_keeps st g prune :
  (forall e, e ∈ g_edges g -> is_Some (s_edges st !! e)) ->
  exists n g', graph_prune st g prune = Some (n, g') /\ g_nodes g' = g_nodes g /\
    g_edges g' = List.filter (fun e => match s_edges st !! e with Some ed => negb (prune ed) | None => true end) (g_edges g).
Proof.
  intros Hes. assert (forall es, (forall e, e ∈ es -> is_Some (s_edges st !! e)) -> exists n, prune_loop st prune es =
    Some (List.filter (fun e => match s_edges st !! e with Some ed => negb (prune ed) | None => true end) es, n)) as H.
  { induction es as [|e es IH]; intros He; [by exists 0|]. cbn [prune_loop List.filter]. destruct (He e) as [ed Hed]; [by left|].
    rewrite Hed. cbn [mbind option_bind]. destruct IH as [n ->]; [intros; apply He; by right|]. cbn [mbind option_bind].
    destruct (prune ed); cbn [negb]; by eexists. }
  destruct (H _ Hes) as [n Hn]. unfold graph_prune. rewrite Hn. cbn [mbind option_bind]. by eexists _, _.
Qed.

(** ** Sequences of operations *)

Lemma find_node_total st f ns :
  (forall n, n ∈ ns -> is_Some (s_nodes st !! n)) ->
  exists r, find_node st f ns = Some r /\ forall n, r = Some n -> n ∈ ns.
Proof.
  induction ns as [|x ns IH]; intros Hs; [by exists None|]. cbn [find_node].
  destruct (Hs x) as [xd Hx]; [by left|]. rewrite Hx. cbn [mbind option_bind].
  destruct (f xd); [exists (Some x); split; [done|]; intros n [= <-]; by left|].
  destruct IH as (r & Hr & Hin); [intros; apply Hs; by right|]. exists r. split; [done|]. intros n Hn. right. by apply Hin.
Qed.

Lemma find_edge_total st f es :
  (forall e, e ∈ es -> is_Some (s_edges st !! e)) ->
  exists r, find_edge st f es = Some r /\ forall e, r = Some e -> e ∈ es.
Proof.
  induction es as [|x es IH]; intros Hs; [by exists None|]. cbn [find_edge].
  destruct (Hs x) as [xd Hx]; [by left|]. rewrite Hx. cbn [mbind option_bind].
  destruct (f xd); [exists (Some x); split; [done|]; intros n [= <-]; by left|].
  destruct IH as (r & Hr & Hin); [intros; apply Hs; by right|]. exists r. split; [done|]. intros n Hn. right. by apply Hin.
Qed.

(** Operations as callers issue them: objects are named by id, a reference
    taken with [graph_get_node] is kept outside until it is put back. *)
Inductive gop :=
| OAddNode (data : Z)
| OAddEdge (lid rid metric : Z) (sym : bool) (data : Z)
| ORemoveNode (id : Z)
| ORemoveEdge (id : Z)
| OGetNode (id : Z)
| OPutNode (n : ptr).

Record gstate := GState { gs_store : store; gs_graph : graph; gs_held : list ptr }.

Definition gexec (ops : gops) (s : gstate) (op : gop) : option gstate :=
  let st := gs_store s in
  let g := gs_graph s in
  match op with
  | OAddNode data => let '(_, st, g) := graph_add_node true st g data in Some (GState st g (gs_held s))
  | OAddEdge lid rid metric sym data =>
      l ← graph_get_node_noref st g lid;
      r ← graph_get_node_noref st g rid;
      match l, r with
      | Some l, Some r =>
          '(_, st, g) ← graph_add_edge true true st g l r (wrap32 metric) sym data;
          Some (GState st g (gs_held s))
      | _, _ => Some s
      end
  | ORemoveNode id =>
      n ← graph_get_node_noref st g id;
      match n with
      | Some n => '(st, g) ← graph_remove_node ops st g n; Some (GState st g (gs_held s))
      | None => Some s
      end
  | ORemoveEdge id =>
      e ← graph_get_edge_noref st g id;
      match e with
      | Some e => '(st, g) ← graph_remove_edge st g e; Some (GState st g (gs_held s))
      | None => Some s
      end
  | OGetNode id =>
      '(n, st) ← graph_get_node st g id;
      Some (GState st g (match n with Some n => n :: gs_held s | None => gs_held s end))
  | OPutNode n =>
      if bool_decide (n ∈ gs_held s) then
        st ← node_release st n; Some (GState st g (remove_ptr n (gs_held s)))
      else Some s
  end.

Fixpoint grun (ops : gops) (s : gstate) (l : list gop) : option gstate :=
  match l with [] => Some s | op :: l => s ← gexec ops s op; grun ops s l end.

Definition gs_wf (s : gstate) : Prop := wfg (gs_store s) (gs_graph s) (gs_held s) [].

Lemma wfg_nodes st g xn xe : wfg st g xn xe -> forall n, n ∈ g_nodes g -> is_Some (s_nodes st !! n).
Proof. intros [G _] n Hn. destruct (gi_node _ _ G n Hn) as (nd & ? & _). by exists nd. Qed.

Lemma wfg_edges st g xn xe : wfg st g xn xe -> forall e, e ∈ g_edges g -> is_Some (s_edges st !! e).
Proof. intros [G _] e He. destruct (gi_edge _ _ G e He) as (ed & ? & _). by exists ed. Qed.

Lemma graph_add_edge_wf st g xn xe l r metric sym data :
  wfg st g xn xe -> l ∈ g_nodes g -> r ∈ g_nodes g -> 0 <= metric <= UINT32_MAX ->
  exists e st' g', graph_add_edge true true st g l r metric sym data = Some (Some e, st', g') /\ wfg st' g' xn xe /\
    last_node g' = last_node g /\ g_nodes g' = g_nodes g.
Proof.
  intros W Hl Hr Hm. unfold graph_add_edge. destruct sym.
  - destruct (add_edge_one_wf st g xn xe r l metric data W Hr Hl Hm) as (e1 & s1 & g1 & -> & W1 & _ & HN1 & _ & HL1 & _).
    cbn [mbind option_bind].
    destruct (add_edge_one_wf s1 g1 xn xe l r metric data W1) as (e2 & s2 & g2 & -> & W2 & _ & HN2 & _ & HL2 & _); [by rewrite HN1..|done|].
    exists e2, s2, g2. split_and!; [done|done|congruence|congruence].
  - cbn [mbind option_bind]. destruct (add_edge_one_wf st g xn xe l r metric data W Hl Hr Hm) as (e1 & s1 & g1 & -> & W1 & _ & HN1 & _ & HL1 & _).
    by exists e1, s1, g1.
Qed.

Lemma remove_incident_last ops nd es : forall st g st' g',
  remove_incident ops st g nd es = Some (st', g') -> last_node g' = last_node g.
Proof.
  induction es as [|e es IH]; intros st g st' g' E; simpl in E; [by simplify_eq|].
  destruct (s_edges st !! e) as [ed|] eqn:Eed; simpl in E; [|done]. destruct (s_nodes st !! e_local ed); simpl in E; [|done].
  destruct (s_nodes st !! e_remote ed); simpl in E; [|done]. destruct (_ || _); [|by eapply IH].
  unfold graph_remove_edge in E. case_bool_decide; [|by eapply IH]. rewrite Eed in E; simpl in E.
  destruct (edge_release _ e); simpl in E; [|done]. apply IH in E. done.
Qed.

Lemma graph_remove_last ops st g n st' g' : graph_remove_node ops st g n = Some (st', g') -> last_node g' = last_node g.
Proof.
  unfold graph_remove_node. case_bool_decide; [|by intros [= _ ->]].
  destruct (s_nodes st !! n) as [nd|]; simpl; [|done].
  destruct (remove_incident ops st g nd (g_edges g)) as [[s1 g1]|] eqn:E; simpl; [|done].
  destruct (s_nodes s1 !! n); simpl; [|done]. destruct (node_release _ n); simpl; [|done]. intros [= _ <-]. simpl.
  by apply remove_incident_last in E.
Qed.

Lemma gexec_wf ops s op :
  gs_wf s -> (forall k, node_equals ops k k = true) -> last_node (gs_graph s) + 1 < 2 ^ 32 ->
  exists s', gexec ops s op = Some s' /\ gs_wf s' /\ last_node (gs_graph s') <= last_node (gs_graph s) + 1.
Proof.
  intros W Href Hl. destruct s as [st g held]. unfold gs_wf in *. simpl in *.
  pose proof (wfg_nodes _ _ _ _ W) as HN. pose proof (wfg_edges _ _ _ _ W) as HE.
  destruct op as [data|lid rid metric sym data|id|id|id|n]; unfold gexec; cbn [gs_store gs_graph gs_held].
  - destruct (graph_add_node_wf st g held [] data W Hl) as (n & s' & g' & -> & W' & _ & _ & _ & _ & _ & HL).
    eexists. split; [done|]. simpl. split; [done|lia].
  - unfold graph_get_node_noref. destruct (find_node_total st (fun n => n_id n =? lid) _ HN) as (l & -> & Hlin).
    destruct (find_node_total st (fun n => n_id n =? rid) _ HN) as (r & -> & Hrin). cbn [mbind option_bind].
    destruct l as [l|]; [|eexists; split; [done|]; split; [done|simpl; lia]].
    destruct r as [r|]; [|eexists; split; [done|]; split; [done|simpl; lia]].
    destruct (graph_add_edge_wf st g held [] l r (wrap32 metric) sym data W) as (e & s' & g' & -> & W' & HL & _); [by apply Hlin|by apply Hrin| |].
    { pose proof (wrap32_range metric). unfold UINT32_MAX. lia. }
    eexists. split; [done|]. simpl. split; [done|lia].
  - unfold graph_get_node_noref. destruct (find_node_total st (fun n => n_id n =? id) _ HN) as (r & -> & Hin). cbn [mbind option_bind].
    destruct r as [n|]; [|eexists; split; [done|]; split; [done|simpl; lia]]. specialize (Hin n eq_refl). destruct (HN n Hin) as [nd Hnd].
    destruct (graph_remove_node_wf ops st g held [] n nd W Href Hin Hnd) as (s' & g' & Hr & W' & _ & _). rewrite Hr. cbn [mbind option_bind].
    eexists. split; [done|]. simpl. split; [done|]. rewrite (graph_remove_last _ _ _ _ _ _ Hr). lia.
  - unfold graph_get_edge_noref. destruct (find_edge_total st (fun e => e_id e =? id) _ HE) as (r & -> & Hin). cbn [mbind option_bind].
    destruct r as [e|]; [|eexists; split; [done|]; split; [done|simpl; lia]].
    destruct (graph_remove_edge_wf st g held [] e W) as (s' & g' & Hr & W' & _). rewrite Hr. cbn [mbind option_bind].
    eexists. split; [done|]. simpl. split; [done|]. unfold graph_remove_edge in Hr. case_bool_decide; [|simplify_eq; lia].
    destruct (s_edges st !! e); simpl in Hr; [|done]. destruct (edge_release _ e); simpl in Hr; simplify_eq/=. lia.
  - unfold graph_get_node, graph_get_node_noref. destruct (find_node_total st (fun n => n_id n =? id) _ HN) as (r & -> & Hin). cbn [mbind option_bind].
    destruct r as [n|]; [|eexists; split; [done|]; split; [done|simpl; lia]]. destruct W as [G R].
    destruct (node_hold_ok st _ _ n R) as (s' & Hh & R' & K & E); [by apply HN, Hin|]. rewrite Hh. cbn [mbind option_bind].
    eexists. split; [done|]. simpl. split; [|lia]. split.
    + apply (ginv_kept st); [done|done| |by rewrite E]. intros m Hm. apply (ri_ln _ _ _ R'). right. apply elem_of_app. by left.
    + by rewrite <- Permutation_middle.
  - case_bool_decide as Hin; [|eexists; split; [done|]; split; [done|simpl; lia]]. destruct W as [G R].
    rewrite <- (remove_ptr_perm n held Hin), <- Permutation_middle in R.
    destruct (node_release_ok st _ _ n R) as (s' & -> & R' & K & E). cbn [mbind option_bind].
    eexists. split; [done|]. simpl. split; [|lia]. split; [|done].
    apply (ginv_kept st); [done|done| |by rewrite E]. intros m Hm. apply (ri_ln _ _ _ R'), elem_of_app. by left.
Qed.

Lemma grun_wf ops l : forall s,
  gs_wf s -> (forall k, node_equals ops k k = true) -> last_node (gs_graph s) + Z.of_nat (length l) < 2 ^ 32 ->
  exists s', grun ops s l = Some s' /\ gs_wf s'.
Proof.
  induction l as [|op l IH]; intros s W Href Hl; [by exists s|]. cbn [grun length] in *.
  destruct (gexec_wf ops s op W Href) as (s1 & -> & W1 & HL); [lia|]. cbn [mbind option_bind]. apply IH; [done|done|lia].
Qed.

(** ** Main results *)

Definition default_gops : gops :=
  GOps node_equals_default data_equals_default data_equals_default (fun d => d) (fun d => d).

(** C9. Any sequence of graph operations on a new graph (nodes and edges
    added, removed, references taken and put back) runs without touching a
    freed object; afterwards the graph is well formed (unique ids, live
    endpoints inside the graph) and every reference count equals the number
    of holders, so an object is freed exactly when its last holder goes. *)
Theorem graph_ops_safe (ops : gops) (l : list gop) :
  (forall k, node_equals ops k k = true) -> Z.of_nat (length l) < 2 ^ 32 ->
  exists s, grun ops (GState (Store ∅ ∅) graph_new []) l = Some s /\
    ginv (gs_store s) (gs_graph s) /\
    rinv (gs_store s) (g_nodes (gs_graph s) ++ gs_held s) (g_edges (gs_graph s) ++ []).
Proof.
  intros Href Hl. destruct (grun_wf ops l (GState (Store ∅ ∅) graph_new [])) as (s & Hr & [? ?]); [apply graph_new_wf|done|simpl; lia|].
  by exists s.
Qed.

Definition demo_ops : list gop :=
  [OAddNode 10; OAddNode 20; OAddEdge 1 2 5 true 0; OGetNode 1; ORemoveNode 1; OPutNode 1].

Lemma graph_ops_safe_witness :
  exists s, grun default_gops (GState (Store ∅ ∅) graph_new []) demo_ops = Some s /\
    ginv (gs_store s) (gs_graph s) /\
    rinv (gs_store s) (g_nodes (gs_graph s) ++ gs_held s) (g_edges (gs_graph s) ++ []).
Proof.
  apply (graph_ops_safe default_gops demo_ops); [|by vm_compute].
  intros k. apply Z.eqb_refl.
Defined.

(** [graph_remove_node] removes the node together with exactly the edges
    that touch it (as [node_equals] sees it), and keeps the graph and all
    reference counts consistent. *)
Theorem graph_remove_node_spec (ops : gops) (st : store) (g : graph) (xn xe : list ptr) (n : ptr) (nd : gnode) :
  wfg st g xn xe -> (forall k, node_equals ops k k = true) -> n ∈ g_nodes g -> s_nodes st !! n = Some nd ->
  exists st' g', graph_remove_node ops st g n = Some (st', g') /\ wfg st' g' xn xe /\
    (forall m, m ∈ g_nodes g' <-> m ∈ g_nodes g /\ m <> n) /\
    (forall x, x ∈ g_edges g' <-> x ∈ g_edges g /\ incident ops st (nkey nd) x = false).
Proof. apply graph_remove_node_wf. Qed.

(** C8. [graph_finalize] of a well-formed graph gives [graph_dijkstra] what it
    relies on (no failing assert, no missing neighbour list): a well-formed
    view whose link from one node to another has the least metric among the
    graph's edges between them, links of metric UINT32_MAX left out. *)
Theorem graph_finalize_correct (st : store) (g : graph) :
  ginv st g ->
  exists g', graph_finalize st g = Some g' /\ g_nodes g' = g_nodes g /\ g_edges g' = g_edges g /\ dirty g' = false /\
    WfView (graph_view st g') /\
    forall a b w, wt (graph_view st g') a b = Some w <->
      a <> b /\ w < UINT32_MAX /\ (exists e, is_link st g a b w e) /\ forall w' e', is_link st g a b w' e' -> w <= w'.
Proof.
  intros G. destruct (graph_finalize_maps st g G) as (g' & Hg & ? & ? & ? & _).
  exists g'. split_and!; [done..| |]; by apply (finalize_view st g G g' Hg).
Qed.

(** A graph of three nodes with a symmetric link and two parallel one-way
    links, and a reference to the first node held outside. *)
Definition demo_build : list gop :=
  [OAddNode 10; OAddNode 20; OAddNode 30; OAddEdge 1 2 5 true 0; OAddEdge 2 3 7 false 0; OAddEdge 2 3 4 false 1; OGetNode 1].

Definition demo : gstate :=
  default (GState (Store ∅ ∅) graph_new []) (grun default_gops (GState (Store ∅ ∅) graph_new []) demo_build).

Lemma demo_wf : gs_wf demo.
Proof.
  unfold demo. destruct (grun_wf default_gops demo_build (GState (Store ∅ ∅) graph_new [])) as (s & -> & W);
    [apply graph_new_wf|intros k; apply Z.eqb_refl|by vm_compute|done].
Qed.

Lemma graph_remove_node_witness :
  exists st' g', graph_remove_node default_gops (gs_store demo) (gs_graph demo) 1%positive = Some (st', g') /\
    wfg st' g' (gs_held demo) [] /\
    (forall m, m ∈ g_nodes g' <-> m ∈ g_nodes (gs_graph demo) /\ m <> 1%positive) /\
    (forall x, x ∈ g_edges g' <-> x ∈ g_edges (gs_graph demo) /\ incident default_gops (gs_store demo) (1, 10) x = false).
Proof.
  apply (graph_remove_node_spec default_gops (gs_store demo) (gs_graph demo) (gs_held demo) [] 1%positive (GNode 1 10 false 4)).
  - exact demo_wf.
  - intros k. apply Z.eqb_refl.
  - apply list_elem_of_In. vm_compute. auto.
  - by vm_compute.
Defined.

Lemma graph_finalize_witness :
  exists g', graph_finalize (gs_store demo) (gs_graph demo) = Some g' /\
    g_nodes g' = g_nodes (gs_graph demo) /\ g_edges g' = g_edges (gs_graph demo) /\ dirty g' = false /\
    WfView (graph_view (gs_store demo) g') /\
    forall a b w, wt (graph_view (gs_store demo) g') a b = Some w <->
      a <> b /\ w < UINT32_MAX /\ (exists e, is_link (gs_store demo) (gs_graph demo) a b w e) /\
      forall w' e', is_link (gs_store demo) (gs_graph demo) a b w' e' -> w <= w'.
Proof. apply (graph_finalize_correct (gs_store demo) (gs_graph demo)). exact (proj1 demo_wf). Defined.

(** A flow's constraints are applied on a clone: [graph_clone], then
    [graph_prune], then the shallow [graph_destroy].  The round leaves every
    node and every edge as it was, except that each pruned edge keeps one
    reference for good, since [graph_prune] drops it from the list without
    releasing it: nothing is ever freed early, and pruned edges leak. *)
Theorem clone_prune_destroy_leaks (ops : gops) (st : store) (g : graph) (xn xe : list ptr) (prune : gedge -> bool) :
  wfg st g xn xe -> static_prune prune ->
  exists st1 gc gc' st2, graph_clone st g = Some (st1, gc) /\
    graph_prune st1 gc prune = Some (Z.of_nat (length (pruned st prune (g_edges g))), gc') /\
    graph_destroy ops st1 gc' true = Some st2 /\
    s_nodes st2 = s_nodes st /\
    forall e, s_edges st2 !! e =
      (fun ed => set_erefcount ed (e_refcount ed + occ e (pruned st prune (g_edges g)))) <$> s_edges st !! e.
Proof. apply clone_prune_destroy. Qed.

Lemma clone_prune_destroy_witness :
  exists st1 gc gc' st2, graph_clone (gs_store demo) (gs_graph demo) = Some (st1, gc) /\
    graph_prune st1 gc (fun ed => e_metric ed =? 7) = Some (1, gc') /\
    graph_destroy default_gops st1 gc' true = Some st2 /\
    s_nodes st2 = s_nodes (gs_store demo) /\
    forall e, s_edges st2 !! e =
      (fun ed => set_erefcount ed (e_refcount ed +
         occ e (pruned (gs_store demo) (fun ed => e_metric ed =? 7) (g_edges (gs_graph demo))))) <$> s_edges (gs_store demo) !! e.
Proof.
  apply (clone_prune_destroy_leaks default_gops (gs_store demo) (gs_graph demo) (gs_held demo) [] (fun ed => e_metric ed =? 7)).
  - exact demo_wf.
  - by intros [] r.
Defined.

(** [graph_deepcopy] builds an independent copy: all its objects are new,
    ids, metrics and (copied) data are those of the original, the copied
    edges join the copies of the endpoints, every old object keeps its exact
    contents (no reference to an original node is taken), and the copy is a
    well-formed graph with exact reference counts. *)
Theorem graph_deepcopy_spec (ops : gops) (st : store) (g : graph) (xn xe : list ptr) :
  wfg st g xn xe ->
  exists st' gc, graph_deepcopy ops st g = Some (st', gc) /\ ginv st' gc /\
    rinv st' (g_nodes gc ++ g_nodes g ++ xn) (g_edges gc ++ g_edges g ++ xe) /\
    map (fun n => nkey <$> s_nodes st' !! n) (g_nodes gc) =
      map (fun n => (fun nd => (n_id nd, node_data_copy ops (n_data nd))) <$> s_nodes st !! n) (g_nodes g) /\
    Forall2 (copied_edge ops st st' (g_nodes gc)) (g_edges g) (g_edges gc) /\
    (forall n nd, s_nodes st !! n = Some nd -> s_nodes st' !! n = Some nd) /\
    (forall e ed, s_edges st !! e = Some ed -> s_edges st' !! e = Some ed) /\
    (forall n, n ∈ g_nodes gc -> s_nodes st !! n = None) /\ (forall e, e ∈ g_edges gc -> s_edges st !! e = None).
Proof. apply graph_deepcopy_wf. Qed.

Lemma graph_deepcopy_witness :
  exists st' gc, graph_deepcopy default_gops (gs_store demo) (gs_graph demo) = Some (st', gc) /\ ginv st' gc /\
    rinv st' (g_nodes gc ++ g_nodes (gs_graph demo) ++ gs_held demo) (g_edges gc ++ g_edges (gs_graph demo) ++ []) /\
    map (fun n => nkey <$> s_nodes st' !! n) (g_nodes gc) =
      map (fun n => (fun nd => (n_id nd, n_data nd)) <$> s_nodes (gs_store demo) !! n) (g_nodes (gs_graph demo)) /\
    Forall2 (copied_edge default_gops (gs_store demo) st' (g_nodes gc)) (g_edges (gs_graph demo)) (g_edges gc) /\
    (forall n nd, s_nodes (gs_store demo) !! n = Some nd -> s_nodes st' !! n = Some nd) /\
    (forall e ed, s_edges (gs_store demo) !! e = Some ed -> s_edges st' !! e = Some ed) /\
    (forall n, n ∈ g_nodes gc -> s_nodes (gs_store demo) !! n = None) /\
    (forall e, e ∈ g_edges gc -> s_edges (gs_store demo) !! e = None).
Proof. apply (graph_deepcopy_spec default_gops (gs_store demo) (gs_graph demo) (gs_held demo) []). exact demo_wf. Defined.
