(* ===== verification/Rules.v ===== *)
(** * Policy rules of the controller (sr-ctrl/rules.h, sr-ctrl/rules.c)

    A rule file is the string of its bytes.  The outer [option] of a result
    is undefined behaviour (the buffer underrun of [remove_trail]); the inner
    one is the NULL the function returns after reporting an error.
    Allocation is taken to succeed. *)

From S2P Require Import Prelude Misc.
From Stdlib Require Import Ascii.

Definition SLEN : nat := 127.

Inductive ruletype := RULE_NONE | RULE_ALLOW | RULE_DENY.
#[global] Instance ruletype_eq_dec : EqDecision ruletype.
Proof. solve_decision. Defined.

Record rule := Rule {
  is_default : bool;
  r_type : ruletype;
  r_from : string;
  r_to : string;
  r_path : option (list string);
  r_last : string;
  r_bw : Z;
  r_delay : Z;
  r_ttl : Z;
  r_idle : Z
}.
#[global] Instance rule_eq_dec : EqDecision rule.
Proof. solve_decision. Defined.

(** The rule calloc gives. *)
Definition rule_zero : rule := Rule false RULE_NONE "" "" None "" 0 0 0 0.

Lemma string_assoc (s t u : string) : (s ++ t ++ u = (s ++ t) ++ u)%string.
Proof. induction s as [|a s IH]; [done|]. exact (f_equal (String a) IH). Qed.

Lemma string_nil_r (s : string) : (s ++ "" = s)%string.
Proof. induction s as [|a s IH]; [done|]. exact (f_equal (String a) IH). Qed.

(** ** C library *)

Definition streq (s t : string) : bool := strcmp s t =? 0.

(** strncpy(dst, src, n) into a zeroed buffer of more than [n] bytes. *)
Fixpoint strncpy (n : nat) (src : string) : string :=
  match n, src with
  | S n, String a src => if Ascii.eqb a NUL then "" else String a (strncpy n src)
  | _, _ => ""
  end.

Definition isspace (a : ascii) : bool := let b := byte_of a in (b =? 32) || ((9 <=? b) && (b <=? 13)).
Definition isdigit (a : ascii) : bool := (48 <=? byte_of a) && (byte_of a <=? 57).

Fixpoint digits (acc : Z) (s : string) : Z :=
  match s with
  | String a s => if isdigit a then digits (10 * acc + (byte_of a - 48)) s else acc
  | EmptyString => acc
  end.

Definition clamp_long (x : Z) : Z := Z.max (- 2 ^ 63) (Z.min (2 ^ 63 - 1) x).

Fixpoint skip_space (s : string) : string :=
  match s with
  | String a s' => if isspace a then skip_space s' else s
  | EmptyString => EmptyString
  end.

(** strtol(s, NULL, 10) *)
Definition strtol (s : string) : Z :=
  match skip_space s with
  | String a s' =>
      if Ascii.eqb a "-" then clamp_long (- digits 0 s')
      else if Ascii.eqb a "+" then clamp_long (digits 0 s')
      else clamp_long (digits 0 (String a s'))
  | EmptyString => 0
  end.

(** The conversion of a long to an int. *)
Definition to_int (x : Z) : Z := (x + 2 ^ 31) mod 2 ^ 32 - 2 ^ 31.

(** fgets(line, n + 1, fp): the line read and the rest of the file. *)
Fixpoint fgets (n : nat) (s : string) : string * string :=
  match n, s with
  | S n, String a s =>
      if Ascii.eqb a LF then (String a "", s)
      else let '(line, rest) := fgets n s in (String a line, rest)
  | _, _ => ("", s)
  end.

(** ** Parsing *)

Definition parse_path (buf : string) : option (list string) := strsplit buf ",".

Definition set_default (r : rule) : rule :=
  Rule true (r_type r) (r_from r) (r_to r) (r_path r) (r_last r) (r_bw r) (r_delay r) (r_ttl r) (r_idle r).
Definition set_type (r : rule) (t : ruletype) : rule :=
  Rule (is_default r) t (r_from r) (r_to r) (r_path r) (r_last r) (r_bw r) (r_delay r) (r_ttl r) (r_idle r).
Definition set_from (r : rule) (s : string) : rule :=
  Rule (is_default r) (r_type r) s (r_to r) (r_path r) (r_last r) (r_bw r) (r_delay r) (r_ttl r) (r_idle r).
Definition set_to (r : rule) (s : string) : rule :=
  Rule (is_default r) (r_type r) (r_from r) s (r_path r) (r_last r) (r_bw r) (r_delay r) (r_ttl r) (r_idle r).
Definition set_path (r : rule) (p : list string) : rule :=
  Rule (is_default r) (r_type r) (r_from r) (r_to r) (Some p) (r_last r) (r_bw r) (r_delay r) (r_ttl r) (r_idle r).
Definition set_last (r : rule) (s : string) : rule :=
  Rule (is_default r) (r_type r) (r_from r) (r_to r) (r_path r) s (r_bw r) (r_delay r) (r_ttl r) (r_idle r).
Definition set_bw (r : rule) (x : Z) : rule :=
  Rule (is_default r) (r_type r) (r_from r) (r_to r) (r_path r) (r_last r) x (r_delay r) (r_ttl r) (r_idle r).
Definition set_delay (r : rule) (x : Z) : rule :=
  Rule (is_default r) (r_type r) (r_from r) (r_to r) (r_path r) (r_last r) (r_bw r) x (r_ttl r) (r_idle r).
Definition set_ttl (r : rule) (x : Z) : rule :=
  Rule (is_default r) (r_type r) (r_from r) (r_to r) (r_path r) (r_last r) (r_bw r) (r_delay r) x (r_idle r).
Definition set_idle (r : rule) (x : Z) : rule :=
  Rule (is_default r) (r_type r) (r_from r) (r_to r) (r_path r) (r_last r) (r_bw r) (r_delay r) (r_ttl r) x.

(** The do/while loop of [parse_rule] on the remaining arguments. *)
Fixpoint parse_args (r : rule) (vargs : list string) : option (option rule) :=
  match vargs with
  | [] => Some (Some r)
  | tok :: rest =>
      if streq tok "default" then parse_args (set_default r) rest
      else if streq tok "allow" then parse_args (set_type r RULE_ALLOW) rest
      else if streq tok "deny" then parse_args (set_type r RULE_DENY) rest
      else if streq tok "from" then
        match rest with [] => Some None | a :: rest => parse_args (set_from r (strncpy SLEN a)) rest end
      else if streq tok "to" then
        match rest with [] => Some None | a :: rest => parse_args (set_to r (strncpy SLEN a)) rest end
      else if streq tok "via" then
        match rest with [] => Some None | a :: rest => p ← parse_path a; parse_args (set_path r p) rest end
      else if streq tok "last" then
        match rest with [] => Some None | a :: rest => parse_args (set_last r (strncpy SLEN a)) rest end
      else if streq tok "bw" then
        match rest with [] => Some None | a :: rest => parse_args (set_bw r (to_int (strtol a))) rest end
      else if streq tok "delay" then
        match rest with [] => Some None | a :: rest => parse_args (set_delay r (to_int (strtol a))) rest end
      else if streq tok "ttl" then
        match rest with [] => Some None | a :: rest => parse_args (set_ttl r (to_int (strtol a))) rest end
      else if streq tok "idle" then
        match rest with [] => Some None | a :: rest => parse_args (set_idle r (to_int (strtol a))) rest end
      else Some None
  end.

(** *s of a C string: is its first byte non-zero? *)
Definition nonempty (s : string) : bool :=
  match s with String a _ => negb (Ascii.eqb a NUL) | EmptyString => false end.

(** The tests after the loop. *)
Definition rule_accepted (r : rule) : bool :=
  negb (bool_decide (r_type r = RULE_NONE)) &&
  negb (is_default r && (nonempty (r_from r) || nonempty (r_to r))) &&
  negb (negb (is_default r) && negb (nonempty (r_from r)) && negb (nonempty (r_to r))).

Definition parse_rule (line : string) : option (option rule) :=
  vargs ← strsplit line SP;
  r ← parse_args rule_zero vargs;
  match r with
  | None => Some None
  | Some r => Some (if rule_accepted r then Some r else None)
  end.

(** The loop of [load_rules] over the lines; every turn reads at least one
    byte, so the length of the file is enough fuel. *)
Fixpoint load_loop (fuel : nat) (s : string) (rules : list rule) (defrule : option rule)
    : option (option (list rule * option rule)) :=
  match s with
  | EmptyString => Some (Some (rules, defrule))
  | _ =>
      match fuel with
      | O => None
      | S fuel =>
          let '(line, rest) := fgets 1023 s in
          let line := strip_crlf (cut_at NUL line) in
          if (match line with String a _ => Ascii.eqb a "#" | EmptyString => true end)
          then load_loop fuel rest rules defrule
          else
            r ← parse_rule line;
            match r with
            | None => Some None
            | Some r =>
                if is_default r then
                  match defrule with
                  | None => load_loop fuel rest rules (Some r)
                  | Some _ => Some None
                  end
                else load_loop fuel rest (rules ++ [r]) defrule
            end
      end
  end.

(** [file] is [None] when fopen fails.  The result is the list of rules and
    the default rule. *)
Definition load_rules (file : option string) : option (option (list rule * rule)) :=
  match file with
  | None => Some None
  | Some s =>
      r ← load_loop (String.length s) s [] None;
      match r with
      | None => Some None
      | Some (rules, Some d) => Some (Some (rules, d))
      | Some (rules, None) => Some (Some (rules, set_type (set_default rule_zero) RULE_DENY))
      end
  end.

(** ** Matching *)

Definition match_rule (r : rule) (from to : string) : bool := streq (r_from r) from && streq (r_to r) to.

Fixpoint match_loop (rules : list rule) (from to : string) (m : option rule) : option rule :=
  match rules with
  | [] => m
  | r :: rules => match_loop rules from to (if match_rule r from to then Some r else m)
  end.

Definition match_rules (rules : list rule) (from to : string) : option rule := match_loop rules from to None.

Example parse_ex : parse_rule "allow from a to b via r1,r2 bw 10 ttl -3" =
  Some (Some (Rule false RULE_ALLOW "a" "b" (Some ["r1"; "r2"]) "" 10 0 (-3) 0)).
Proof. vm_compute. reflexivity. Qed.

(** ** Printing rules

    The text of a rule, as a configuration author writes it. *)

Definition digit_of (d : Z) : ascii := ascii_of_nat (Z.to_nat (48 + d)).

Fixpoint dec_loop (fuel : nat) (n : Z) (acc : string) : string :=
  match fuel with
  | O => acc
  | S fuel =>
      let acc := String (digit_of (n mod 10)) acc in
      if n / 10 =? 0 then acc else dec_loop fuel (n / 10) acc
  end.

Definition dec (n : Z) : string := if n <? 0 then String "-" (dec_loop 11 (- n) "") else dec_loop 11 n "".

Definition rule_tokens (r : rule) : list string :=
  (if is_default r then ["default"] else []) ++
  [match r_type r with RULE_ALLOW => "allow" | _ => "deny" end] ++
  (if bool_decide (r_from r = "") then [] else ["from"; r_from r]) ++
  (if bool_decide (r_to r = "") then [] else ["to"; r_to r]) ++
  (match r_path r with Some p => ["via"; join_with "," p] | None => [] end) ++
  (if bool_decide (r_last r = "") then [] else ["last"; r_last r]) ++
  ["bw"; dec (r_bw r); "delay"; dec (r_delay r); "ttl"; dec (r_ttl r); "idle"; dec (r_idle r)].

Definition print_rule (r : rule) : string := join_with SP (rule_tokens r).

(** [chars_in P s]: every byte of [s] satisfies [P]. *)
Fixpoint chars_in (P : ascii -> bool) (s : string) : bool :=
  match s with String a s => P a && chars_in P s | EmptyString => true end.

Definition name_char (a : ascii) : bool :=
  negb (Ascii.eqb a SP || Ascii.eqb a NUL || Ascii.eqb a LF || Ascii.eqb a CR).
Definition hop_char (a : ascii) : bool := name_char a && negb (Ascii.eqb a ",").

Definition name_ok (s : string) : bool := chars_in name_char s && (String.length s <=? SLEN)%nat.
Definition int_ok (x : Z) : bool := (- 2 ^ 31 <=? x) && (x <? 2 ^ 31).

(** The rules a file can express. *)
Definition rule_ok (r : rule) : bool :=
  rule_accepted r && name_ok (r_from r) && name_ok (r_to r) && name_ok (r_last r) &&
  (match r_path r with Some p => negb (bool_decide (p = [])) && forallb (chars_in hop_char) p | None => true end) &&
  int_ok (r_bw r) && int_ok (r_delay r) && int_ok (r_ttl r) && int_ok (r_idle r).

Lemma chars_in_app P s t : chars_in P (s ++ t) = chars_in P s && chars_in P t.
Proof. induction s as [|a s IH]; simpl; [done|]. by rewrite IH, andb_assoc. Qed.

Lemma chars_in_mono (P Q : ascii -> bool) s : (forall a, P a = true -> Q a = true) -> chars_in P s = true -> chars_in Q s = true.
Proof. intros H. induction s as [|a s IH]; simpl; [done|]. rewrite !andb_true_iff. naive_solver. Qed.

Lemma chars_count (P : ascii -> bool) c s : P c = false -> chars_in P s = true -> count_char c s = O.
Proof.
  intros Hc. induction s as [|a s IH]; simpl; [done|]. intros [Ha Hs]%andb_true_iff.
  destruct (Ascii.eqb_spec a c) as [->|]; [congruence|]. auto.
Qed.

Lemma count_char_app c s t : count_char c (s ++ t) = (count_char c s + count_char c t)%nat.
Proof. induction s as [|a s IH]; simpl; [done|]. destruct (Ascii.eqb a c); simpl; by rewrite IH. Qed.

Lemma split_first_app c s t : count_char c s = O -> split_first c (s ++ String c t) = (s, Some t).
Proof.
  induction s as [|a s IH]; simpl; [by rewrite Ascii.eqb_refl|]. destruct (Ascii.eqb a c); [done|].
  intros Hs. by rewrite IH.
Qed.

Lemma split_first_all c s : count_char c s = O -> split_first c s = (s, None).
Proof. induction s as [|a s IH]; simpl; [done|]. destruct (Ascii.eqb a c); [done|]. intros Hs. by rewrite IH. Qed.

(** Splitting undoes joining. *)
Lemma split_join c toks :
  toks <> [] -> Forall (fun t => count_char c t = O) toks ->
  split_loop (S (count_char c (join_with c toks))) c (Some (join_with c toks)) = Some toks.
Proof.
  induction toks as [|t toks IH]; [done|]. intros _ [Ht Hts]%Forall_cons. destruct toks as [|u toks].
  - cbn [join_with]. rewrite Ht, split_loop_S, split_first_all by done. done.
  - cbn [join_with]. rewrite split_loop_S, split_first_app, count_char_app, Ht by done. cbn [count_char].
    rewrite Ascii.eqb_refl. cbn [plus]. cbn [join_with] in IH. by rewrite IH.
Qed.

Lemma remove_trail_id s : last (String.list_ascii_of_string s) <> Some SP -> remove_trail s = Some s.
Proof.
  destruct (decide (s = EmptyString)) as [->|Hne]; [done|]. intros Hl. rewrite remove_trail_ne by done.
  rewrite <- (String.string_of_list_ascii_of_string s) in Hne at 1.
  destruct (String.list_ascii_of_string s) as [|a l] eqn:E using rev_ind; [done|]. clear IHl.
  rewrite last_snoc in Hl. rewrite reverse_snoc. cbn [trail_loop]. destruct (Ascii.eqb_spec a SP) as [->|]; [done|].
  cbn [mbind option_bind]. rewrite reverse_cons, reverse_involutive, <- E, String.string_of_list_ascii_of_string. done.
Qed.

Lemma strsplit_id s c :
  last (String.list_ascii_of_string s) <> Some SP -> strsplit s c = split_loop (S (count_char c s)) c (Some s).
Proof. intros Hl. unfold strsplit. by rewrite remove_trail_id. Qed.

Lemma last_chars (P : ascii -> bool) s : P SP = false -> chars_in P s = true -> last (String.list_ascii_of_string s) <> Some SP.
Proof.
  intros HP. induction s as [|a s IH]; [done|]. intros [Ha Hs]%andb_true_iff. simpl in *.
  destruct (String.list_ascii_of_string s) eqn:E; [intros [= ->]; congruence|by apply IH].
Qed.

(** *** Numbers *)

Lemma digit_of_byte d : 0 <= d < 10 -> byte_of (digit_of d) = 48 + d.
Proof. intros Hd. unfold byte_of, digit_of. rewrite nat_ascii_embedding by lia. lia. Qed.

Lemma digits_dec fuel : forall n acc, 0 <= n < 10 ^ Z.of_nat fuel -> digits 0 (dec_loop fuel n acc) = digits n acc.
Proof.
  induction fuel as [|fuel IH]; intros n acc Hn; [by replace n with 0 by (simpl in Hn; lia)|]. cbn [dec_loop].
  assert (0 <= n mod 10 < 10) as Hm by (apply Z.mod_pos_bound; lia). pose proof (Z.div_mod n 10 ltac:(lia)) as Hdm.
  assert (forall a, digits a (String (digit_of (n mod 10)) acc) = digits (10 * a + n mod 10) acc) as Hd.
  { intros a. cbn [digits]. unfold isdigit. rewrite digit_of_byte by done.
    replace (48 <=? 48 + n mod 10) with true by lia. replace (48 + n mod 10 <=? 57) with true by lia. cbn [andb]. f_equal. lia. }
  destruct (Z.eqb_spec (n / 10) 0) as [E|E].
  - rewrite Hd. f_equal. lia.
  - rewrite IH, Hd; [f_equal; lia|]. rewrite Nat2Z.inj_succ, Z.pow_succ_r in Hn by lia.
    split; [apply Z.div_pos; lia|]. apply Z.div_lt_upper_bound; lia.
Qed.

Lemma dec_loop_chars (P : ascii -> bool) fuel : forall n acc,
  0 <= n -> (forall d, 0 <= d < 10 -> P (digit_of d) = true) -> chars_in P acc = true -> chars_in P (dec_loop fuel n acc) = true.
Proof.
  induction fuel as [|fuel IH]; intros n acc Hn HP Hacc; [done|]. cbn [dec_loop].
  assert (chars_in P (String (digit_of (n mod 10)) acc) = true) as Ha.
  { simpl. rewrite Hacc, HP; [done|]. apply Z.mod_pos_bound. lia. }
  destruct (_ =? 0); [done|]. apply IH; [apply Z.div_pos; lia|done..].
Qed.

Lemma dec_loop_head fuel : forall n acc, 0 <= n -> exists d s, 0 <= d < 10 /\ dec_loop (S fuel) n acc = String (digit_of d) s.
Proof.
  induction fuel as [|fuel IH]; intros n acc Hn.
  - exists (n mod 10), acc. split; [apply Z.mod_pos_bound; lia|]. cbn [dec_loop]. by destruct (_ =? 0).
  - change (dec_loop (S (S fuel)) n acc) with
      (if n / 10 =? 0 then String (digit_of (n mod 10)) acc else dec_loop (S fuel) (n / 10) (String (digit_of (n mod 10)) acc)).
    destruct (n / 10 =? 0).
    + exists (n mod 10), acc. split; [apply Z.mod_pos_bound; lia|done].
    + apply IH, Z.div_pos; lia.
Qed.

Lemma dec_chars n : int_ok n = true -> chars_in hop_char (dec n) = true.
Proof.
  intros _. assert (forall d, 0 <= d < 10 -> hop_char (digit_of d) = true) as HP.
  { intros d Hd. assert (d ∈ seqZ 0 10) as Hin by (apply elem_of_seqZ; lia).
    assert (forallb (fun d => hop_char (digit_of d)) (seqZ 0 10) = true) as Hall by (by vm_compute).
    rewrite forallb_forall in Hall. by apply Hall, list_elem_of_In. }
  unfold dec. destruct (Z.ltb_spec n 0); [|apply dec_loop_chars; auto with lia].
  cbn [chars_in]. rewrite dec_loop_chars; auto with lia.
Qed.

Lemma strtol_dec n : int_ok n = true -> to_int (strtol (dec n)) = n.
Proof.
  unfold int_ok. intros Hn. bool_prop. unfold dec, strtol. destruct (Z.ltb_spec n 0) as [Hneg|Hpos].
  - cbn [skip_space]. replace (isspace "-") with false by done. cbn [Ascii.eqb Bool.eqb].
    rewrite digits_dec by (simpl; lia). cbn [digits]. unfold clamp_long, to_int.
    rewrite Z.min_r, Z.max_r by lia. rewrite Z.opp_involutive, Z.mod_small by lia. lia.
  - destruct (dec_loop_head 10 n "" Hpos) as (d & s & Hd & Hs). pose proof (digits_dec 11 n "") as Hdig. rewrite Hs in *.
    assert (d ∈ seqZ 0 10) as Hin by (apply elem_of_seqZ; lia).
    assert (forallb (fun d => negb (isspace (digit_of d)) && negb (Ascii.eqb (digit_of d) "-") &&
      negb (Ascii.eqb (digit_of d) "+")) (seqZ 0 10) = true) as Hall by (by vm_compute).
    rewrite forallb_forall in Hall. specialize (Hall d). rewrite <- list_elem_of_In in Hall. specialize (Hall Hin). cbn beta in Hall.
    bool_prop. cbn [skip_space]. repeat match goal with H : ?b = false |- context [?b] => rewrite H end.
    rewrite Hdig by (simpl; lia). cbn [digits]. unfold clamp_long, to_int.
    rewrite Z.min_r, Z.max_r by lia. rewrite Z.mod_small by lia. lia.
Qed.

Lemma to_int_range x : - 2 ^ 31 <= to_int x < 2 ^ 31.
Proof. unfold to_int. pose proof (Z.mod_pos_bound (x + 2 ^ 31) (2 ^ 32)). lia. Qed.

Lemma to_int_id x : - 2 ^ 31 <= x < 2 ^ 31 -> to_int x = x.
Proof. intros H. unfold to_int. rewrite Z.mod_small by lia. lia. Qed.

(** *** Names *)

Lemma strncpy_id n s : chars_in name_char s = true -> (String.length s <= n)%nat -> strncpy n s = s.
Proof.
  revert n. induction s as [|a s IH]; intros [|n]; simpl; [done|done|lia|].
  intros [Ha Hs]%andb_true_iff Hl. unfold name_char in Ha. destruct (Ascii.eqb_spec a NUL) as [->|]; [done|].
  rewrite IH by (done || lia). done.
Qed.

Lemma join_chars (P : ascii -> bool) c toks :
  P c = true -> Forall (fun t => chars_in P t = true) toks -> chars_in P (join_with c toks) = true.
Proof.
  intros Hc. induction 1 as [|t toks Ht Hts IH]; [done|]. destruct toks as [|u toks]; [done|].
  cbn [join_with] in IH |- *. rewrite chars_in_app, Ht. cbn [chars_in]. by rewrite Hc, IH.
Qed.

Lemma parse_path_join p :
  p <> [] -> forallb (chars_in hop_char) p = true -> parse_path (join_with "," p) = Some p.
Proof.
  intros Hne Hp. rewrite forallb_forall in Hp.
  assert (Forall (fun t => chars_in hop_char t = true) p) as HF by (apply Forall_forall; intros; by apply Hp, list_elem_of_In).
  unfold parse_path. rewrite strsplit_id.
  - apply split_join; [done|]. eapply Forall_impl; [exact HF|]. intros t Ht. by apply (chars_count hop_char).
  - eapply (last_chars name_char); [done|]. apply join_chars; [done|].
    eapply Forall_impl; [exact HF|]. intros t. apply chars_in_mono. unfold hop_char. intros a [? _]%andb_true_iff. done.
Qed.

(** *** Rules *)

Ltac rule_ok_split H := unfold rule_ok, name_ok in H; bool_prop.

Lemma rule_tokens_chars r : rule_ok r = true -> Forall (fun t => chars_in name_char t = true) (rule_tokens r).
Proof.
  intros H. rule_ok_split H. unfold rule_tokens.
  assert (forall s, chars_in hop_char s = true -> chars_in name_char s = true) as Hh.
  { intros s. apply chars_in_mono. unfold hop_char. intros a [? _]%andb_true_iff. done. }
  repeat (rewrite Forall_app; split).
  - destruct (is_default r); by repeat constructor.
  - repeat constructor. by destruct (r_type r).
  - case_bool_decide; by repeat constructor.
  - case_bool_decide; by repeat constructor.
  - destruct (r_path r) as [p|]; [|done]. bool_prop. repeat constructor. apply join_chars; [done|].
    apply Forall_forall. intros t Ht%list_elem_of_In. apply Hh. by eapply forallb_forall.
  - case_bool_decide; by repeat constructor.
  - repeat constructor; by apply Hh, dec_chars.
Qed.

Lemma parse_from r f rest :
  chars_in name_char f = true -> (String.length f <= SLEN)%nat -> r_from r = "" ->
  parse_args r ((if bool_decide (f = "") then [] else ["from"; f]) ++ rest) = parse_args (set_from r f) rest.
Proof.
  intros Hf Hl Hr. case_bool_decide; [subst; by destruct r; simplify_eq/=|].
  cbn -[SLEN]. by rewrite strncpy_id.
Qed.

Lemma parse_to r f rest :
  chars_in name_char f = true -> (String.length f <= SLEN)%nat -> r_to r = "" ->
  parse_args r ((if bool_decide (f = "") then [] else ["to"; f]) ++ rest) = parse_args (set_to r f) rest.
Proof.
  intros Hf Hl Hr. case_bool_decide; [subst; by destruct r; simplify_eq/=|].
  cbn -[SLEN]. by rewrite strncpy_id.
Qed.

Lemma parse_last r f rest :
  chars_in name_char f = true -> (String.length f <= SLEN)%nat -> r_last r = "" ->
  parse_args r ((if bool_decide (f = "") then [] else ["last"; f]) ++ rest) = parse_args (set_last r f) rest.
Proof.
  intros Hf Hl Hr. case_bool_decide; [subst; by destruct r; simplify_eq/=|].
  cbn -[SLEN]. by rewrite strncpy_id.
Qed.

Lemma parse_via r p rest :
  p <> [] -> forallb (chars_in hop_char) p = true ->
  parse_args r (["via"; join_with "," p] ++ rest) = parse_args (set_path r p) rest.
Proof. intros Hne Hp. cbn -[parse_path join_with]. by rewrite parse_path_join. Qed.

Lemma parse_bw r a rest : parse_args r ("bw" :: a :: rest) = parse_args (set_bw r (to_int (strtol a))) rest.
Proof. reflexivity. Qed.
Lemma parse_delay r a rest : parse_args r ("delay" :: a :: rest) = parse_args (set_delay r (to_int (strtol a))) rest.
Proof. reflexivity. Qed.
Lemma parse_ttl r a rest : parse_args r ("ttl" :: a :: rest) = parse_args (set_ttl r (to_int (strtol a))) rest.
Proof. reflexivity. Qed.
Lemma parse_idle r a rest : parse_args r ("idle" :: a :: rest) = parse_args (set_idle r (to_int (strtol a))) rest.
Proof. reflexivity. Qed.

Lemma parse_numbers r b de t i :
  int_ok b = true -> int_ok de = true -> int_ok t = true -> int_ok i = true ->
  parse_args r ["bw"; dec b; "delay"; dec de; "ttl"; dec t; "idle"; dec i] =
  Some (Some (set_idle (set_ttl (set_delay (set_bw r b) de) t) i)).
Proof. intros. by rewrite parse_bw, parse_delay, parse_ttl, parse_idle, !strtol_dec. Qed.

Lemma parse_head r t rest :
  rule_accepted r = true -> t = r_type r ->
  parse_args rule_zero ((if is_default r then ["default"] else []) ++
    [match t with RULE_ALLOW => "allow" | _ => "deny" end] ++ rest) =
  parse_args (Rule (is_default r) t "" "" None "" 0 0 0 0) rest.
Proof.
  intros Ha ->. unfold rule_accepted in Ha. bool_prop. destruct (is_default r), (r_type r); done.
Qed.

Lemma parse_tokens r : rule_ok r = true -> parse_args rule_zero (rule_tokens r) = Some (Some r).
Proof.
  intros H. rule_ok_split H. unfold rule_tokens.
  rewrite parse_head, parse_from, parse_to by (done || by apply Nat.leb_le).
  destruct (r_path r) as [p|] eqn:Hp.
  - bool_prop. rewrite parse_via, parse_last, parse_numbers by (done || (by apply Nat.leb_le) || by eapply bool_decide_eq_false).
    destruct r. simplify_eq/=. done.
  - rewrite app_nil_l, parse_last, parse_numbers by (done || by apply Nat.leb_le). destruct r. simplify_eq/=. done.
Qed.

Lemma rule_tokens_last r : exists init, rule_tokens r = init ++ ["idle"; dec (r_idle r)].
Proof. unfold rule_tokens. eexists. rewrite !app_assoc. change (?l ++ ["bw"; ?a; "delay"; ?b; "ttl"; ?c; "idle"; ?d])
  with (l ++ (["bw"; a; "delay"; b; "ttl"; c] ++ ["idle"; d])). by rewrite app_assoc. Qed.

Lemma join_snoc c toks t : toks <> [] -> join_with c (toks ++ [t]) = (join_with c toks ++ String c t)%string.
Proof.
  induction toks as [|u toks IH]; [done|]. intros _. destruct toks as [|v toks]; [done|].
  cbn [app join_with] in *. rewrite IH by done. by rewrite <- string_assoc.
Qed.

Lemma list_ascii_app s t :
  String.list_ascii_of_string (s ++ t) = String.list_ascii_of_string s ++ String.list_ascii_of_string t.
Proof. induction s as [|a s IH]; [done|]. exact (f_equal (cons a) IH). Qed.

Lemma last_app_string s t : t <> EmptyString ->
  last (String.list_ascii_of_string (s ++ t)) = last (String.list_ascii_of_string t).
Proof.
  intros Ht. rewrite list_ascii_app, last_app. destruct (last (String.list_ascii_of_string t)) eqn:E; [done|].
  apply last_None in E. by destruct t.
Qed.

Lemma dec_nonempty n : dec n <> EmptyString.
Proof.
  unfold dec. destruct (Z.ltb_spec n 0); [done|]. destruct (dec_loop_head 10 n "") as (d & s & _ & ->); done.
Qed.

Lemma print_rule_last r : rule_ok r = true -> last (String.list_ascii_of_string (print_rule r)) <> Some SP.
Proof.
  intros H. rule_ok_split H. unfold print_rule. destruct (rule_tokens_last r) as (init & ->).
  change ["idle"; dec (r_idle r)] with (["idle"] ++ [dec (r_idle r)]). rewrite app_assoc, join_snoc by (by destruct init).
  rewrite last_app_string by done. simpl.
  assert (last (String.list_ascii_of_string (dec (r_idle r))) <> Some SP) as Hl.
  { eapply (last_chars hop_char); [done|by apply dec_chars]. }
  destruct (String.list_ascii_of_string (dec (r_idle r))) eqn:E; [|done].
  pose proof (dec_nonempty (r_idle r)). by destruct (dec (r_idle r)).
Qed.

Lemma parse_print r : rule_ok r = true -> parse_rule (print_rule r) = Some (Some r).
Proof.
  intros H. unfold parse_rule. rewrite strsplit_id by (by apply print_rule_last). unfold print_rule. rewrite split_join.
  - cbn [mbind option_bind]. rewrite parse_tokens by done. cbn [mbind option_bind]. unfold rule_ok in H. bool_prop.
    match goal with H : rule_accepted r = true |- _ => by rewrite H end.
  - destruct (rule_tokens_last r) as (init & ->). by destruct init.
  - eapply Forall_impl; [by apply rule_tokens_chars|]. intros t Ht. by apply (chars_count name_char).
Qed.

(** *** Files *)

Definition line_char (a : ascii) : bool := negb (Ascii.eqb a NUL || Ascii.eqb a LF || Ascii.eqb a CR).

(** A line of a rule file: a comment, an empty line, or a rule. *)
Inductive item := Comment (text : string) | Blank | RuleLine (r : rule).

Definition item_line (i : item) : string :=
  match i with Comment t => String "#" t | Blank => "" | RuleLine r => print_rule r end.

Definition item_ok (i : item) : bool :=
  (String.length (item_line i) <? 1023)%nat &&
  match i with Comment t => chars_in line_char t | Blank => true | RuleLine r => rule_ok r end.

Definition print_file (items : list item) : string := foldr (fun i s => (item_line i ++ String LF s)%string) "" items.

Definition item_rules (items : list item) : list rule :=
  omap (fun i => match i with RuleLine r => if is_default r then None else Some r | _ => None end) items.
Definition item_defaults (items : list item) : list rule :=
  omap (fun i => match i with RuleLine r => if is_default r then Some r else None | _ => None end) items.

Lemma item_line_chars i : item_ok i = true -> chars_in line_char (item_line i) = true.
Proof.
  intros [_ H]%andb_true_iff. destruct i as [t| |r]; [done|done|]. simpl. apply join_chars; [done|].
  eapply Forall_impl; [by apply rule_tokens_chars|]. intros t. apply chars_in_mono. intros a. unfold name_char, line_char.
  destruct (Ascii.eqb a SP); [done|]. done.
Qed.

Lemma fgets_line s rest : forall n,
  chars_in line_char s = true -> (String.length s < n)%nat -> fgets n (s ++ String LF rest) = (s ++ String LF "", rest)%string.
Proof.
  induction s as [|a s IH]; intros n Hs Hl; destruct n as [|n]; simpl in *; [lia|done|lia|].
  apply andb_true_iff in Hs as [Ha Hs]. unfold line_char in Ha. rewrite negb_true_iff, !orb_false_iff in Ha.
  destruct Ha as [[_ Ha] _]. rewrite Ha, IH by (done || lia). done.
Qed.

Lemma cut_at_id c s : count_char c s = O -> cut_at c s = s.
Proof. induction s as [|a s IH]; simpl; [done|]. destruct (Ascii.eqb a c); [done|]. intros Hs. by rewrite IH. Qed.

Lemma cut_at_app c s t : count_char c s = O -> cut_at c (s ++ t) = (s ++ cut_at c t)%string.
Proof. induction s as [|a s IH]; simpl; [done|]. destruct (Ascii.eqb a c); [done|]. intros Hs. by rewrite IH. Qed.

Lemma strip_line s : chars_in line_char s = true -> strip_crlf (cut_at NUL (s ++ String LF "")) = s.
Proof.
  intros Hs. unfold strip_crlf. rewrite (cut_at_app NUL) by (by apply (chars_count line_char)). simpl.
  rewrite (cut_at_app LF) by (by apply (chars_count line_char)). simpl.
  rewrite string_nil_r, cut_at_id by (by apply (chars_count line_char)). done.
Qed.

Lemma join_head c a t toks : exists s, join_with c (String a t :: toks) = String a s.
Proof. destruct toks; by eexists. Qed.

Lemma print_rule_head r : exists a s, print_rule r = String a s /\ Ascii.eqb a "#" = false.
Proof.
  unfold print_rule, rule_tokens. destruct (is_default r), (r_type r); cbn [app];
    match goal with |- context [join_with ?c (String ?a ?t :: ?toks)] => destruct (join_head c a t toks) as [s ->] end;
    by eexists _, _.
Qed.

Lemma load_item fuel i rest rules d :
  item_ok i = true ->
  load_loop (S fuel) (item_line i ++ String LF rest) rules d =
    match i with
    | RuleLine r =>
        if is_default r then match d with None => load_loop fuel rest rules (Some r) | Some _ => Some None end
        else load_loop fuel rest (rules ++ [r]) d
    | _ => load_loop fuel rest rules d
    end.
Proof.
  intros Hi. pose proof (item_line_chars i Hi) as Hc. pose proof Hi as [Hl Hok]%andb_true_iff. apply Nat.ltb_lt in Hl.
  assert (exists a s, (item_line i ++ String LF rest)%string = String a s) as (a & s & Ha).
  { destruct (item_line i) as [|b t]; by eexists _, _. }
  rewrite Ha. cbn [load_loop]. rewrite <- Ha, fgets_line, strip_line by done.
  destruct i as [t| |r]; [done|done|]. cbn [item_line] in *. destruct (print_rule_head r) as (b & u & Hb & Hne).
  pose proof (parse_print r Hok) as Hp. rewrite Hb in *. rewrite Hne, Hp. done.
Qed.

Lemma load_items items : forall fuel rules (d : option rule),
  (length items <= fuel)%nat -> Forall (fun i => item_ok i = true) items ->
  (length (item_defaults items) + match d with Some _ => 1 | None => 0 end <= 1)%nat ->
  load_loop fuel (print_file items) rules d =
    Some (Some (rules ++ item_rules items, match d with Some r => Some r | None => head (item_defaults items) end)).
Proof.
  induction items as [|i items IH]; intros fuel rules d Hf HF Hd.
  - destruct fuel; simpl; rewrite app_nil_r; by destruct d.
  - apply Forall_cons in HF as [Hi HF]. destruct fuel as [|fuel]; [simpl in Hf; lia|]. cbn [print_file foldr].
    fold (print_file items). rewrite load_item by done. simpl in Hf.
    destruct i as [t| |r]; [apply IH; (done || lia)..|]. unfold item_defaults, item_rules in *. cbn [omap list_omap] in *.
    destruct (is_default r); simpl in Hd.
    + destruct d as [d|]; [lia|]. rewrite IH by (simpl; (done || lia)). done.
    + rewrite IH by (done || lia). by rewrite <- app_assoc.
Qed.

Lemma print_file_length items : (length items <= String.length (print_file items))%nat.
Proof.
  induction items as [|i items IH]; [done|]. cbn [print_file foldr length]. fold (print_file items).
  induction (item_line i) as [|a s IHs]; simpl; lia.
Qed.

(** ** What is accepted *)

(** The lines [load_rules] sees: at most 1023 bytes each, up to a NUL, CR or LF. *)
Fixpoint file_lines (fuel : nat) (s : string) : list string :=
  match fuel, s with
  | S fuel, String _ _ => let '(line, rest) := fgets 1023 s in strip_crlf (cut_at NUL line) :: file_lines fuel rest
  | _, _ => []
  end.

Record rule_wf (r : rule) : Prop := {
  rw_type : r_type r <> RULE_NONE;
  rw_match : is_default r = negb (nonempty (r_from r) || nonempty (r_to r));
  rw_names : Forall (fun s => String.length s <= SLEN)%nat [r_from r; r_to r; r_last r];
  rw_ints : Forall (fun x => - 2 ^ 31 <= x < 2 ^ 31) [r_bw r; r_delay r; r_ttl r; r_idle r]
}.

(** What holds of the rule under construction. *)
Definition rule_bounds (r : rule) : Prop :=
  Forall (fun s => String.length s <= SLEN)%nat [r_from r; r_to r; r_last r] /\
  Forall (fun x => - 2 ^ 31 <= x < 2 ^ 31) [r_bw r; r_delay r; r_ttl r; r_idle r].

Lemma strncpy_length n s : (String.length (strncpy n s) <= n)%nat.
Proof.
  revert s. induction n as [|n IH]; intros [|a s]; simpl; [lia..|]. destruct (Ascii.eqb a NUL); simpl; [lia|].
  specialize (IH s). lia.
Qed.

Lemma parse_args_bounds n : forall vargs r r',
  (length vargs <= n)%nat -> rule_bounds r -> parse_args r vargs = Some (Some r') -> rule_bounds r'.
Proof.
  induction n as [|n IH]; intros [|tok rest] r r' Hn Hr H; simpl in Hn; try lia; [by simplify_eq/=..|].
  pose proof strncpy_length as Hs. pose proof to_int_range as Hi.
  destruct Hr as [HA HB]. cbn [parse_args] in H.
  repeat (destruct (streq tok _);
    [first [ eapply (IH rest); [lia| |exact H]
           | destruct rest as [|a rest]; [by simplify_eq|]; simpl in Hn;
             first [ eapply (IH rest); [lia| |exact H]
                   | destruct (parse_path a) as [p|]; cbn [mbind option_bind] in H; [|done];
                     eapply (IH rest); [lia| |exact H] ] ];
     split; (done || (repeat (apply Forall_cons in HA as [? HA]); repeat (apply Forall_cons in HB as [? HB]);
       repeat (constructor; cbn [r_from r_to r_last r_bw r_delay r_ttl r_idle set_from set_to set_last set_bw set_delay set_ttl set_idle]; auto)))|]).
  done.
Qed.

Lemma parse_rule_wf line r : parse_rule line = Some (Some r) -> rule_wf r.
Proof.
  unfold parse_rule. destruct (strsplit line SP) as [vargs|]; cbn [mbind option_bind]; [|done].
  destruct (parse_args rule_zero vargs) as [[r1|]|] eqn:E; cbn [mbind option_bind]; [|done..].
  destruct (rule_accepted r1) eqn:Ha; [|done]. intros [= <-].
  assert (rule_bounds rule_zero) as H0 by (split; repeat constructor; simpl; lia).
  destruct (parse_args_bounds _ _ _ _ (le_n _) H0 E) as [HA HB]. unfold rule_accepted in Ha. bool_prop.
  split; [by eapply bool_decide_eq_false|  |done|done].
  destruct (is_default r1), (nonempty (r_from r1)), (nonempty (r_to r1)); done.
Qed.

Lemma nospace_not_blank s : count_char SP s = O -> ~ (s <> EmptyString /\ blank s).
Proof. destruct s as [|a s]; [naive_solver|]. intros Hc [_ Hb]. inversion Hb; subst. done. Qed.

Lemma strsplit_total line c : ~ (line <> EmptyString /\ blank line) ->
  exists toks, strsplit line c = Some toks /\ Forall (fun t => count_char c t = O) toks.
Proof.
  intros Hb. unfold strsplit. destruct (remove_trail line) as [l|] eqn:E; [|by apply remove_trail_None in E].
  cbn [mbind option_bind]. destruct (split_loop_spec c l) as (toks & -> & _ & _ & HF). by exists toks.
Qed.

Lemma parse_args_total n : forall vargs r,
  (length vargs <= n)%nat -> Forall (fun t => count_char SP t = O) vargs -> exists r', parse_args r vargs = Some r'.
Proof.
  induction n as [|n IH]; intros [|tok rest] r Hn HF; simpl in Hn; try lia; [by eexists..|].
  apply Forall_cons in HF as [Ht HF]. cbn [parse_args].
  repeat (destruct (streq tok _);
    [first [ apply IH; [lia|done]
           | destruct rest as [|a rest]; [by eexists|]; apply Forall_cons in HF as [Ha HF]; simpl in Hn;
             first [ apply IH; [lia|done]
                   | destruct (strsplit_total a "," (nospace_not_blank _ Ha)) as (p & Hp & _); unfold parse_path; rewrite Hp;
                     cbn [mbind option_bind]; apply IH; [lia|done] ] ]|]).
  by eexists.
Qed.

Lemma parse_rule_total line : ~ (line <> EmptyString /\ blank line) -> exists r, parse_rule line = Some r.
Proof.
  intros Hb. unfold parse_rule. destruct (strsplit_total line SP Hb) as (toks & -> & HF). cbn [mbind option_bind].
  destruct (parse_args_total _ toks rule_zero (le_n _) HF) as (r & ->). cbn [mbind option_bind]. destruct r; by eexists.
Qed.

Lemma fgets_shrinks n s line rest : fgets n s = (line, rest) -> (String.length rest <= String.length s)%nat.
Proof.
  revert s line rest. induction n as [|n IH]; intros [|a s] line rest; simpl; intros H; simplify_eq/=; [lia..|].
  destruct (Ascii.eqb a LF); [simplify_eq; lia|]. destruct (fgets n s) as [l r] eqn:E. simplify_eq. apply IH in E. lia.
Qed.

Lemma fgets_reads n a s line rest : fgets (S n) (String a s) = (line, rest) -> (String.length rest <= String.length s)%nat.
Proof.
  cbn [fgets]. destruct (Ascii.eqb a LF); [intros; simplify_eq; lia|]. destruct (fgets n s) as [l r] eqn:E.
  intros. simplify_eq. by eapply fgets_shrinks.
Qed.

Lemma load_loop_total : forall fuel s rules d,
  (String.length s <= fuel)%nat -> Forall (fun l => ~ (l <> EmptyString /\ blank l)) (file_lines fuel s) ->
  exists r, load_loop fuel s rules d = Some r.
Proof.
  induction fuel as [|fuel IH]; intros [|a s] rules d Hl HF; simpl in Hl; try lia; [by eexists..|].
  cbn [load_loop]. unfold file_lines in HF; fold file_lines in HF. destruct (fgets 1023 (String a s)) as [line rest] eqn:E.
  apply fgets_reads in E. apply Forall_cons in HF as [Hb HF].
  destruct (match strip_crlf (cut_at NUL line) with String a _ => Ascii.eqb a "#" | EmptyString => true end).
  { apply IH; [lia|done]. }
  destruct (parse_rule_total _ Hb) as ([r|] & ->); cbn [mbind option_bind]; [|by eexists].
  destruct (is_default r); [destruct d; [by eexists|]|]; apply IH; (lia || done).
Qed.

Lemma load_loop_wf : forall fuel s rules d rules' d',
  Forall (fun r => rule_wf r /\ is_default r = false) rules -> (forall r, d = Some r -> rule_wf r /\ is_default r = true) ->
  load_loop fuel s rules d = Some (Some (rules', d')) ->
  Forall (fun r => rule_wf r /\ is_default r = false) rules' /\ (forall r, d' = Some r -> rule_wf r /\ is_default r = true).
Proof.
  induction fuel as [|fuel IH]; intros [|a s] rules d rules' d' HR HD H; cbn [load_loop] in H; [by simplify_eq|done|by simplify_eq|].
  destruct (fgets 1023 (String a s)) as [line rest]. destruct (match _ with String a _ => _ | EmptyString => true end); [by eapply IH|].
  destruct (parse_rule _) as [[r|]|] eqn:E; cbn [mbind option_bind] in H; [|done..]. apply parse_rule_wf in E.
  destruct (is_default r) eqn:Hd.
  - destruct d; [done|]. eapply IH; [done| |exact H]. by intros r0 [= <-].
  - eapply IH; [|exact HD|exact H]. apply Forall_app. split; [done|]. by apply Forall_singleton.
Qed.

Lemma match_loop_spec rules from to : forall m,
  (exists l1 r l2, rules = l1 ++ r :: l2 /\ match_loop rules from to m = Some r /\ match_rule r from to = true /\
     Forall (fun r => match_rule r from to = false) l2) \/
  (match_loop rules from to m = m /\ Forall (fun r => match_rule r from to = false) rules).
Proof.
  induction rules as [|r rules IH]; intros m; [by right|]. cbn [match_loop].
  destruct (IH (if match_rule r from to then Some r else m)) as [(l1 & r' & l2 & -> & Hm & Hr & HF)|[Hm HF]].
  - left. by exists (r :: l1), r', l2.
  - rewrite Hm. destruct (match_rule r from to) eqn:E; [left; by exists [], r, rules|right; by repeat constructor].
Qed.

(** ** Main results *)

(** C34. Rule files round-trip: for a file of comments, empty lines and the
    text of rules the language can express (lines below the 1023-byte buffer,
    at most one default rule), [load_rules] returns exactly those rules, in
    order, and the file's default rule or else a deny-all default. *)
Theorem load_rules_print (items : list item) :
  Forall (fun i => item_ok i = true) items -> (length (item_defaults items) <= 1)%nat ->
  load_rules (Some (print_file items)) =
    Some (Some (item_rules items, default (set_type (set_default rule_zero) RULE_DENY) (head (item_defaults items)))).
Proof.
  intros HF Hd. unfold load_rules. rewrite load_items by (apply print_file_length || done || lia). cbn [mbind option_bind app].
  by destruct (head (item_defaults items)).
Qed.

Definition demo_items : list item :=
  [Comment " demo"; RuleLine (Rule false RULE_ALLOW "a" "b" (Some ["r1"; "r2"]) "" 10 (-5) 0 30); Blank;
   RuleLine (Rule true RULE_DENY "" "" None "" 0 0 0 0)].

Lemma load_rules_print_witness :
  load_rules (Some (print_file demo_items)) =
    Some (Some ([Rule false RULE_ALLOW "a" "b" (Some ["r1"; "r2"]) "" 10 (-5) 0 30], Rule true RULE_DENY "" "" None "" 0 0 0 0)).
Proof. apply (load_rules_print demo_items); [repeat constructor; by vm_compute|simpl; lia]. Defined.

(** Whatever the file contains, provided no line consists of spaces only,
    [load_rules] comes back: either it rejects the file, or every rule it
    returns allows or denies, non-default rules name a source or a
    destination and the default rule names neither, every name fits its
    128-byte field, and every number is an int. *)
Theorem load_rules_accepts_wf (s : string) :
  Forall (fun l => ~ (l <> EmptyString /\ blank l)) (file_lines (String.length s) s) ->
  exists res, load_rules (Some s) = Some res /\
    match res with
    | None => True
    | Some (rules, d) =>
        Forall (fun r => rule_wf r /\ is_default r = false) rules /\ rule_wf d /\ is_default d = true
    end.
Proof.
  intros HF. unfold load_rules. destruct (load_loop_total _ s [] None (le_n _) HF) as (res & Hr).
  rewrite Hr. cbn [mbind option_bind]. destruct res as [[rules d]|]; [|by eexists].
  destruct (load_loop_wf (String.length s) s [] None rules d) as [HR HD]; [done|done|done|].
  destruct d as [d|]; eexists; (split; [done|]); split; try done; [by apply HD|].
  split; [|done]. split; [done|done|repeat constructor; simpl; lia|repeat constructor; simpl; lia].
Qed.

Lemma load_rules_accepts_witness :
  exists res, load_rules (Some "allow from a to b") = Some res /\
    match res with
    | None => True
    | Some (rules, d) =>
        Forall (fun r => rule_wf r /\ is_default r = false) rules /\ rule_wf d /\ is_default d = true
    end.
Proof.
  apply (load_rules_accepts_wf "allow from a to b"). vm_compute. repeat constructor.
  intros [_ H]. inversion H. discriminate.
Defined.

(** [match_rules] gives the last rule of the file whose names are the
    request's source and destination, and NULL exactly when there is none. *)
Theorem match_rules_last (rules : list rule) (from to : string) :
  let matches r := cut_at NUL (r_from r) = cut_at NUL from /\ cut_at NUL (r_to r) = cut_at NUL to in
  match match_rules rules from to with
  | Some r => exists l1 l2, rules = l1 ++ r :: l2 /\ matches r /\ Forall (fun r => ~ matches r) l2
  | None => Forall (fun r => ~ matches r) rules
  end.
Proof.
  intros matches.
  assert (forall r, match_rule r from to = true <-> matches r) as Hm.
  { intros r. unfold match_rule, streq, matches. by rewrite andb_true_iff, !Z.eqb_eq, !strcmp_0. }
  assert (forall l, Forall (fun r => match_rule r from to = false) l -> Forall (fun r => ~ matches r) l) as Hn.
  { intros l HF. eapply Forall_impl; [exact HF|]. intros r. rewrite <- Hm. by destruct (match_rule r from to). }
  unfold match_rules. destruct (match_loop_spec rules from to None) as [(l1 & r & l2 & -> & -> & Hr & HF)|[-> HF]].
  - exists l1, l2. split_and!; [done|by apply Hm|by apply Hn].
  - by apply Hn.
Qed.
