(* ===== verification/Srdb.v ===== *)
(** * The database library (lib/srdb.h, lib/srdb.c)

    How table rows travel between C structs and JSON rows: the struct layouts
    and descriptor tables, reading a row into an entry, writing an entry into
    a row, and the dispatch of monitor messages to table callbacks.

    JSON values come from jansson, which is not part of the sources: it is the
    interface [Jansson] with the documented laws [JanssonLaws]. *)

From S2P Require Import Prelude Misc Rules.
From Stdlib Require Import Ascii.

(** ** The jansson interface *)

Class Jansson := {
  json : Type;
  json_object : json;                              (* a new, empty object *)
  json_is_object : json -> bool;
  json_object_get : json -> string -> option json; (* NULL: no such key, not an object *)
  json_object_set : json -> string -> json -> json;
  json_object_entries : json -> list (string * json); (* what json_object_foreach visits *)
  json_array_size : json -> nat;
  json_array_get : json -> nat -> option json;
  json_string : string -> option json;             (* NULL: not valid UTF-8 *)
  json_string_value : json -> option string;       (* NULL: not a string *)
  json_integer : Z -> json;
  json_integer_value : json -> option Z;           (* [None] when json_is_integer fails *)
  json_is_null : json -> bool
}.

Class JanssonLaws (J : Jansson) : Prop := {
  jl_object : json_is_object json_object = true;
  jl_set_object : forall o k v, json_is_object o = true -> json_is_object (json_object_set o k v) = true;
  jl_get_empty : forall k, json_object_get json_object k = None;
  jl_get_set : forall o k v, json_is_object o = true -> json_object_get (json_object_set o k v) k = Some v;
  jl_get_set_ne : forall o k k' v, json_is_object o = true -> k <> k' ->
    json_object_get (json_object_set o k v) k' = json_object_get o k';
  jl_string : forall s j, json_string s = Some j -> json_string_value j = Some s;
  jl_integer : forall z, - 2 ^ 63 <= z < 2 ^ 63 -> json_integer_value (json_integer z) = Some z
}.

(** Arrays and their text, as [json_array]/[json_array_append_new],
    [json_dumps] and [json_loads] build and read them. *)
Class JanssonText (J : Jansson) := {
  json_array : list json -> json;
  json_dumps : json -> string;
  json_loads : string -> option json               (* NULL: not a JSON text *)
}.

Class JanssonTextLaws (J : Jansson) (T : JanssonText J) : Prop := {
  jl_array_size : forall l, json_array_size (json_array l) = length l;
  jl_array_get : forall l i, json_array_get (json_array l) i = l !! i;
  jl_loads : forall l, json_loads (json_dumps (json_array l)) = Some (json_array l);
  jl_dumps_nul : forall l, cut_at NUL (json_dumps (json_array l)) = json_dumps (json_array l);
  jl_dumps_utf8 : forall l, is_Some (json_string (json_dumps (json_array l)))
}.

(** ** Structs in memory

    An entry is the cells of its struct by offset: a char array with its size
    and the C string in it, an int, or a [char *]. *)

Definition BUFLEN : nat := 1024.

Inductive ctype := TChar (n : nat) | TInt | TPtr.
Inductive cell := CBuf (cap : nat) (s : string) | CInt (z : Z) | CPtr (p : option string).
#[global] Instance ctype_eq_dec : EqDecision ctype.
Proof. solve_decision. Defined.
#[global] Instance cell_eq_dec : EqDecision cell.
Proof. solve_decision. Defined.

Abbreviation entry := (gmap Z cell).

Definition sizeof (t : ctype) : Z := match t with TChar n => Z.of_nat n | TInt => 4 | TPtr => 8 end.
Definition alignof (t : ctype) : Z := match t with TChar _ => 1 | TInt => 4 | TPtr => 8 end.
Definition align_up (o a : Z) : Z := (o + (a - 1)) / a * a.

(** The fields of a struct with their offsets. *)
Fixpoint layout (o : Z) (fs : list (string * ctype)) : list (string * (Z * ctype)) :=
  match fs with
  | [] => []
  | (f, t) :: fs => let o := align_up o (alignof t) in (f, (o, t)) :: layout (o + sizeof t) fs
  end.

Definition str : ctype := TChar (S SLEN).

(** Every row struct starts with struct srdb_entry. *)
Definition srdb_entry : list (string * ctype) := [("row", str); ("version", str)].
Definition srdb_namemap_entry := srdb_entry ++
  [("routerName", str); ("routerId", TInt); ("addr", str); ("prefix", TPtr); ("pbsid", str)].
Definition srdb_router_entry := srdb_entry ++ [("router", str)].
Definition srdb_flow_entry := srdb_entry ++
  [("destination", str); ("dstaddr", str); ("bsid", TPtr); ("segments", TPtr); ("bandwidth", TInt); ("delay", TInt);
   ("policing", TInt); ("source", str); ("sourceIPs", TPtr); ("router", str); ("proxy", str); ("interface", str);
   ("reverse_flow_uuid", str); ("request_id", str); ("ttl", TInt); ("idle", TInt); ("timestamp", TInt); ("status", TInt)].
Definition srdb_flowreq_entry := srdb_entry ++
  [("request_id", str); ("destination", str); ("dstaddr", str); ("source", str); ("srcaddr", str); ("bandwidth", TInt);
   ("delay", TInt); ("proxy", str); ("status", TInt)].
Definition srdb_linkstate_entry := srdb_entry ++
  [("name1", str); ("addr1", str); ("name2", str); ("addr2", str); ("metric", TInt); ("bw", TInt); ("ava_bw", TInt); ("delay", TInt)].
Definition srdb_nodestate_entry := srdb_entry ++ [("name", str); ("addr", str); ("prefix", TPtr); ("pbsid", str)].
Definition srdb_availlink_entry := srdb_entry ++
  [("name1", str); ("addr1", str); ("routerId1", TInt); ("name2", str); ("addr2", str); ("routerId2", TInt); ("metric", TInt);
   ("bw", TInt); ("ava_bw", TInt); ("delay", TInt)].

Definition offsetof (fs : list (string * ctype)) (f : string) : Z :=
  match list_find (fun x => x.1 = f) (layout 0 fs) with Some (_, (_, (o, _))) => o | None => -1 end.

(** ** Descriptors and tables *)

Inductive srdb_type := SRDB_STR | SRDB_INT | SRDB_VARSTR.
#[global] Instance srdb_type_eq_dec : EqDecision srdb_type.
Proof. solve_decision. Defined.

Record srdb_descriptor := Desc {
  d_name : string; d_type : srdb_type; d_index : Z; d_maxlen : nat; d_builtin : bool; d_offset : Z
}.

#[global] Instance srdb_descriptor_eq_dec : EqDecision srdb_descriptor.
Proof. solve_decision. Defined.

Definition SRDB_BUILTIN_ENTRIES : list srdb_descriptor :=
  [Desc "row" SRDB_STR 0 SLEN true (offsetof srdb_entry "row");
   Desc "_version" SRDB_STR 0 SLEN true (offsetof srdb_entry "version")].

Definition namemap_desc_tmpl : list srdb_descriptor :=
  let off := offsetof srdb_namemap_entry in
  SRDB_BUILTIN_ENTRIES ++
  [Desc "routerName" SRDB_STR 1 SLEN false (off "routerName");
   Desc "routerId" SRDB_INT 2 4 false (off "routerId");
   Desc "addr" SRDB_STR 3 SLEN false (off "addr");
   Desc "prefix" SRDB_VARSTR 4 BUFLEN false (off "prefix");
   Desc "pbsid" SRDB_STR 5 SLEN false (off "pbsid")].

Definition routerids_desc_tmpl : list srdb_descriptor :=
  SRDB_BUILTIN_ENTRIES ++ [Desc "router" SRDB_STR 1 SLEN false (offsetof srdb_router_entry "router")].

Definition flowreq_desc_tmpl : list srdb_descriptor :=
  let off := offsetof srdb_flowreq_entry in
  SRDB_BUILTIN_ENTRIES ++
  [Desc "req_id" SRDB_STR 1 SLEN false (off "request_id");
   Desc "destination" SRDB_STR 2 SLEN false (off "destination");
   Desc "dstaddr" SRDB_STR 3 SLEN false (off "dstaddr");
   Desc "source" SRDB_STR 4 SLEN false (off "source");
   Desc "srcaddr" SRDB_STR 5 SLEN false (off "srcaddr");
   Desc "bandwidth" SRDB_INT 6 4 false (off "bandwidth");
   Desc "delay" SRDB_INT 7 4 false (off "delay");
   Desc "proxy" SRDB_STR 8 SLEN false (off "proxy");
   Desc "status" SRDB_INT 9 4 false (off "status")].

Definition flowstate_desc_tmpl : list srdb_descriptor :=
  let off := offsetof srdb_flow_entry in
  SRDB_BUILTIN_ENTRIES ++
  [Desc "destination" SRDB_STR 1 SLEN false (off "destination");
   Desc "dstaddr" SRDB_STR 2 SLEN false (off "dstaddr");
   Desc "bsid" SRDB_VARSTR 3 BUFLEN false (off "bsid");
   Desc "segments" SRDB_VARSTR 4 BUFLEN false (off "segments");
   Desc "bandwidth" SRDB_INT 5 0 false (off "bandwidth");
   Desc "delay" SRDB_INT 6 0 false (off "delay");
   Desc "policing" SRDB_INT 7 0 false (off "policing");
   Desc "source" SRDB_STR 8 SLEN false (off "source");
   Desc "sourceIPs" SRDB_VARSTR 9 BUFLEN false (off "sourceIPs");
   Desc "router" SRDB_STR 10 SLEN false (off "router");
   Desc "proxy" SRDB_STR 11 SLEN false (off "proxy");
   Desc "interface" SRDB_STR 12 SLEN false (off "interface");
   Desc "reverseFlow" SRDB_STR 13 SLEN false (off "reverse_flow_uuid");
   Desc "request" SRDB_STR 14 SLEN false (off "request_id");
   Desc "ttl" SRDB_INT 15 0 false (off "ttl");
   Desc "idle" SRDB_INT 16 0 false (off "idle");
   Desc "timestamp" SRDB_INT 17 0 false (off "timestamp");
   Desc "status" SRDB_INT 18 0 false (off "status")].

Definition linkstate_desc_tmpl : list srdb_descriptor :=
  let off := offsetof srdb_linkstate_entry in
  SRDB_BUILTIN_ENTRIES ++
  [Desc "name1" SRDB_STR 1 SLEN false (off "name1");
   Desc "addr1" SRDB_STR 2 SLEN false (off "addr1");
   Desc "name2" SRDB_STR 3 SLEN false (off "name2");
   Desc "addr2" SRDB_STR 4 SLEN false (off "addr2");
   Desc "metric" SRDB_INT 5 0 false (off "metric");
   Desc "bw" SRDB_INT 6 0 false (off "bw");
   Desc "ava_bw" SRDB_INT 7 0 false (off "ava_bw");
   Desc "delay" SRDB_INT 8 0 false (off "delay")].

Definition nodestate_desc_tmpl : list srdb_descriptor :=
  let off := offsetof srdb_nodestate_entry in
  SRDB_BUILTIN_ENTRIES ++
  [Desc "name" SRDB_STR 1 SLEN false (off "name");
   Desc "addr" SRDB_STR 2 SLEN false (off "addr");
   Desc "prefix" SRDB_VARSTR 3 BUFLEN false (off "prefix");
   Desc "pbsid" SRDB_STR 4 SLEN false (off "pbsid")].

Definition availlink_desc_tmpl : list srdb_descriptor :=
  let off := offsetof srdb_availlink_entry in
  SRDB_BUILTIN_ENTRIES ++
  [Desc "name1" SRDB_STR 1 SLEN false (off "name1");
   Desc "addr1" SRDB_STR 2 SLEN false (off "addr1");
   Desc "routerId1" SRDB_INT 3 0 false (off "routerId1");
   Desc "name2" SRDB_STR 4 SLEN false (off "name2");
   Desc "addr2" SRDB_STR 5 SLEN false (off "addr2");
   Desc "routerId2" SRDB_INT 6 0 false (off "routerId2");
   Desc "metric" SRDB_INT 7 0 false (off "metric");
   Desc "bw" SRDB_INT 8 0 false (off "bw");
   Desc "ava_bw" SRDB_INT 9 0 false (off "ava_bw");
   Desc "delay" SRDB_INT 10 0 false (off "delay")].

Record srdb_table := Table { t_name : string; t_struct : list (string * ctype); t_desc : list srdb_descriptor }.

Definition srdb_tables : list srdb_table :=
  [Table "NameIdMapping" srdb_namemap_entry namemap_desc_tmpl;
   Table "RouterIds" srdb_router_entry routerids_desc_tmpl;
   Table "FlowReq" srdb_flowreq_entry flowreq_desc_tmpl;
   Table "FlowState" srdb_flow_entry flowstate_desc_tmpl;
   Table "LinkState" srdb_linkstate_entry linkstate_desc_tmpl;
   Table "NodeState" srdb_nodestate_entry nodestate_desc_tmpl;
   Table "AvailableLink" srdb_availlink_entry availlink_desc_tmpl].

Fixpoint srdb_table_by_name (tables : list srdb_table) (name : string) : option srdb_table :=
  match tables with
  | [] => None
  | tbl :: tables => if streq (t_name tbl) name then Some tbl else srdb_table_by_name tables name
  end.

(** ** Masks *)

Definition ENTRY_MASK (x : Z) : Z := Z.shiftl 1 x.
Definition ENTRY_MASK_ALL (last : Z) : Z := Z.land 0xffffffff (ENTRY_MASK (last + 1) - 1).

Definition ME_LAST := 5.
Definition RTE_LAST := 1.
Definition FE_LAST := 18.
Definition FREQ_LAST := 9.
Definition LS_LAST := 8.
Definition NODE_LAST := 4.
Definition AL_LAST := 10.
Definition ME_ALL := ENTRY_MASK_ALL RTE_LAST.
Definition FE_ALL := ENTRY_MASK_ALL FE_LAST.

(** ** Entries *)

Definition zero_cell (t : ctype) : cell :=
  match t with TChar n => CBuf n "" | TInt => CInt 0 | TPtr => CPtr None end.

(** calloc(1, tbl->entry_size) *)
Definition calloc_entry (fs : list (string * ctype)) : entry :=
  list_to_map (map (fun x => (x.2.1, zero_cell x.2.2)) (layout 0 fs)).

(** strncpy(data, s, maxlen) into a char array; a write at another kind of
    cell, or one that may leave the array without terminator, is an error. *)
Definition put_str (e : entry) (o : Z) (maxlen : nat) (s : string) : option entry :=
  match e !! o with
  | Some (CBuf cap _) => if (maxlen <? cap)%nat then Some (<[o := CBuf cap (strncpy maxlen s)]> e) else None
  | _ => None
  end.

Definition put_int (e : entry) (o : Z) (z : Z) : option entry :=
  match e !! o with Some (CInt _) => Some (<[o := CInt z]> e) | _ => None end.

Definition put_ptr (e : entry) (o : Z) (s : string) : option entry :=
  match e !! o with Some (CPtr _) => Some (<[o := CPtr (Some s)]> e) | _ => None end.

Section operations.
Context {J : Jansson}.

(** ** Reading rows *)

Definition obj_get (j : option json) (k : string) : option json := j ← j; json_object_get j k.
Definition arr_get (j : option json) (i : nat) : option json := j ← j; json_array_get j i.
Definition str_value (j : option json) : option string := j ← j; json_string_value j.
Definition int_value (j : option json) : option Z := j ← j; json_integer_value j.

(** The switch on the type: a value of another type is reported and skipped. *)
Definition store_column (d : srdb_descriptor) (e : entry) (value : option json) : option entry :=
  match d_type d with
  | SRDB_STR => match str_value value with Some s => put_str e (d_offset d) (d_maxlen d) s | None => Some e end
  | SRDB_INT => match int_value value with Some z => put_int e (d_offset d) (to_int z) | None => Some e end
  | SRDB_VARSTR => match str_value value with Some s => put_ptr e (d_offset d) (strncpy (d_maxlen d) s) | None => Some e end
  end.

(** One turn of the loop of [fill_srdb_entry]. *)
Definition fill_column (uuid : string) (line : json) (d : srdb_descriptor) (e : entry) (mask : Z) : option (entry * Z) :=
  if streq (d_name d) "row" then e ← put_str e (offsetof srdb_entry "row") (d_maxlen d) uuid; Some (e, mask)
  else
    match json_object_get line (d_name d) with
    | None => Some (e, mask)
    | Some v =>
        let mask := if negb (d_index d =? 0) then Z.lor mask (ENTRY_MASK (d_index d)) else mask in
        let v := if streq (d_name d) "_version" then arr_get (json_object_get line "_version") 1 else Some v in
        e ← store_column d e v; Some (e, mask)
    end.

Fixpoint fill_loop (uuid : string) (line : json) (ds : list srdb_descriptor) (e : entry) (mask : Z) : option (entry * Z) :=
  match ds with
  | [] => Some (e, mask)
  | d :: ds => '(e, mask) ← fill_column uuid line d e mask; fill_loop uuid line ds e mask
  end.

Definition fill_srdb_entry (ds : list srdb_descriptor) (e : entry) (uuid : string) (line : json) : option (entry * Z) :=
  fill_loop uuid line ds e 0.

(** ** Writing rows *)

(** json_object_set_new(row, key, NULL) fails and changes nothing. *)
Definition set_new (row : json) (k : string) (v : option json) : json :=
  match v with Some v => json_object_set row k v | None => row end.

Definition write_desc_data (row : json) (d : srdb_descriptor) (e : entry) : option json :=
  match d_type d, e !! d_offset d with
  | SRDB_STR, Some (CBuf _ s) => Some (set_new row (d_name d) (json_string s))
  | SRDB_INT, Some (CInt z) => Some (set_new row (d_name d) (Some (json_integer z)))
  | SRDB_VARSTR, Some (CPtr p) => Some (set_new row (d_name d) (s ← p; json_string s))
  | _, _ => None
  end.

Fixpoint insert_row_loop (row : json) (ds : list srdb_descriptor) (e : entry) : option json :=
  match ds with
  | [] => Some row
  | d :: ds =>
      if negb (d_builtin d) then row ← write_desc_data row d e; insert_row_loop row ds e
      else insert_row_loop row ds e
  end.

(** The row [srdb_insert] hands to ovsdb_insert. *)
Definition srdb_insert_row (tbl : srdb_table) (e : entry) : option json := insert_row_loop json_object (t_desc tbl) e.

Fixpoint find_desc_fromindex (ds : list srdb_descriptor) (index : Z) : option srdb_descriptor :=
  match ds with
  | [] => None
  | d :: ds => if d_index d =? index then Some d else find_desc_fromindex ds index
  end.

Record srdb_update_transact := Utr { utr_tbl : srdb_table; utr_entry : entry; utr_mask : Z; utr_fields : json }.

Definition srdb_update_prepare (tbl : srdb_table) (e : entry) : srdb_update_transact := Utr tbl e 0 json_object.

(** The returned integer and the new transaction. *)
Definition srdb_update_append (utr : srdb_update_transact) (index : Z) : option (Z * srdb_update_transact) :=
  match find_desc_fromindex (t_desc (utr_tbl utr)) index with
  | None => Some (-1, utr)
  | Some d =>
      row ← write_desc_data (utr_fields utr) d (utr_entry utr);
      Some (0, Utr (utr_tbl utr) (utr_entry utr) (Z.lor (utr_mask utr) (ENTRY_MASK index)) row)
  end.

Fixpoint append_mask_loop (row : json) (ds : list srdb_descriptor) (e : entry) (mask : Z) : option json :=
  match ds with
  | [] => Some row
  | d :: ds =>
      if d_index d =? 0 then append_mask_loop row ds e mask
      else if negb (Z.land mask (ENTRY_MASK (d_index d)) =? 0) then
        row ← write_desc_data row d e; append_mask_loop row ds e mask
      else append_mask_loop row ds e mask
  end.

Definition srdb_update_append_mask (utr : srdb_update_transact) (mask : Z) : option srdb_update_transact :=
  row ← append_mask_loop (utr_fields utr) (t_desc (utr_tbl utr)) (utr_entry utr) mask;
  Some (Utr (utr_tbl utr) (utr_entry utr) (Z.lor (utr_mask utr) mask) row).

(** ** Transaction results *)

Definition not_null (j : option json) : bool := match j with Some j => negb (json_is_null j) | None => false end.

(** The result row, when the reply and the operation report no error. *)
Definition result_row (res : option json) : option (option json) :=
  match obj_get res "error" with
  | None => None
  | Some error =>
      if negb (json_is_null error) then None
      else
        let jres := arr_get (obj_get res "result") 0 in
        if not_null (obj_get jres "error") then None else Some jres
  end.

(** Return value and *count. *)
Definition srdb_update_result (res : option json) : Z * option Z :=
  match result_row res with
  | None => (-1, None)
  | Some jres => (0, Some (to_int (default 0 (int_value (obj_get jres "count")))))
  end.

(** Return value and the copied uuid; a missing uuid is a null string
    handed to strncpy. *)
Definition srdb_insert_result (res : option json) : option (Z * option string) :=
  match result_row res with
  | None => Some (-1, None)
  | Some jres => uuid ← str_value (arr_get (obj_get jres "uuid") 1); Some (0, Some (strncpy (S SLEN) uuid))
  end.

(** ** Dispatch of monitor messages *)

Section dispatch.
Context {St : Type}.

Record callbacks := Callbacks {
  cb_insert : option (entry -> St -> Z * St);
  cb_update : option (entry -> entry -> Z -> St -> Z * St);
  cb_delete : option (entry -> St -> Z * St)
}.

Definition call1 (cb : option (entry -> St -> Z * St)) (e : entry) (st : St) : Z * St :=
  match cb with Some f => f e st | None => (0, st) end.

Definition srdb_read (tbl : srdb_table) (cbs : callbacks) (uuid : string) (j : json) (st : St) : option (Z * St) :=
  let zero := calloc_entry (t_struct tbl) in
  match json_object_get j "new", json_object_get j "old" with
  | Some new, None =>
      '(e, _) ← fill_srdb_entry (t_desc tbl) zero uuid new;
      Some (call1 (cb_insert cbs) e st)
  | Some new, Some old =>
      '(e, _) ← fill_srdb_entry (t_desc tbl) zero uuid new;
      '(update_entry, imask) ← fill_srdb_entry (t_desc tbl) zero uuid old;
      Some (match cb_update cbs with Some f => f e update_entry imask st | None => (0, st) end)
  | None, Some old =>
      '(e, _) ← fill_srdb_entry (t_desc tbl) zero uuid old;
      Some (call1 (cb_delete cbs) e st)
  | None, None => Some (-1, st)
  end.

(** json_object_foreach, stopping at the first non-zero return. *)
Fixpoint update_rows (tbl : srdb_table) (cbs : callbacks) (rows : list (string * json)) (st : St) : option (Z * St) :=
  match rows with
  | [] => Some (0, st)
  | (uuid, modification) :: rows =>
      '(ret, st) ← srdb_read tbl cbs uuid modification st;
      if ret =? 0 then update_rows tbl cbs rows st else Some (ret, st)
  end.

Definition parse_ovsdb_update_tables (tbl : srdb_table) (cbs : callbacks) (updates : json) (st : St) : option (Z * St) :=
  update_rows tbl cbs (json_object_entries updates) st.

(** The last component: was [initial_read] posted? *)
Definition parse_ovsdb_monitor_reply (tbl : srdb_table) (cbs : callbacks) (reply : json) (st : St) : option (Z * St * bool) :=
  match json_object_get reply "error" with
  | Some error =>
      if negb (json_is_null error) then Some (-1, st, false)
      else
        match json_object_get reply "result" with
        | None => Some (-1, st, false)
        | Some updates =>
            match json_object_get updates (t_name tbl) with
            | Some table_updates => '(ret, st) ← parse_ovsdb_update_tables tbl cbs table_updates st; Some (ret, st, true)
            | None => Some (0, st, true)
            end
        end
  | None => Some (-1, st, false)
  end.

Definition parse_ovsdb_update (tbl : srdb_table) (cbs : callbacks) (update : json) (st : St) : option (Z * St) :=
  match json_object_get update "params" with
  | None => Some (-1, st)
  | Some params =>
      if (json_array_size params <? 2)%nat then Some (-1, st)
      else
        match json_array_get params 1 with
        | None => Some (-1, st)
        | Some updates =>
            match json_object_get updates (t_name tbl) with
            | None => Some (-1, st)
            | Some table_updates => parse_ovsdb_update_tables tbl cbs table_updates st
            end
        end
  end.

Definition is_echo (msg : json) : bool :=
  match str_value (json_object_get msg "method") with Some m => streq m "echo" | None => false end.

(** One message of the monitor's inner loop. *)
Definition monitor_message (tbl : srdb_table) (cbs : callbacks) (msg : json) (st : St) : option (St * bool) :=
  if is_echo msg then Some (st, false)
  else
    match int_value (json_object_get msg "id") with
    | Some _ => '(_, st, posted) ← parse_ovsdb_monitor_reply tbl cbs msg st; Some (st, posted)
    | None => '(_, st) ← parse_ovsdb_update tbl cbs msg st; Some (st, false)
    end.
End dispatch.
End operations.

(** ** Consistency of the descriptor tables *)

Definition kind_ok (d : srdb_descriptor) (c : cell) : bool :=
  match d_type d, c with
  | SRDB_STR, CBuf cap _ => (cap =? S (d_maxlen d))%nat
  | SRDB_INT, CInt _ | SRDB_VARSTR, CPtr _ => true
  | _, _ => false
  end.

Definition desc_ok (fs : list (string * ctype)) (d : srdb_descriptor) : bool :=
  match calloc_entry fs !! d_offset d with Some c => kind_ok d c | None => false end &&
  (0 <=? d_index d) && (d_index d <? 32) && Bool.eqb (d_builtin d) (d_index d =? 0) &&
  (count_char NUL (d_name d) =? 0)%nat.

(** Each descriptor names a field of the struct, of its type and size; no two
    share a field, a column name or an index; every field has a descriptor. *)
Definition table_ok (tbl : srdb_table) : bool :=
  bool_decide (take 2 (t_desc tbl) = SRDB_BUILTIN_ENTRIES) &&
  forallb (desc_ok (t_struct tbl)) (t_desc tbl) &&
  bool_decide (NoDup (map d_offset (t_desc tbl))) &&
  bool_decide (NoDup (map d_name (t_desc tbl))) &&
  bool_decide (NoDup (map d_index (drop 2 (t_desc tbl)))) &&
  forallb (fun d => negb (d_builtin d)) (drop 2 (t_desc tbl)) &&
  (length (t_desc tbl) =? length (t_struct tbl))%nat.

Lemma tables_ok : forallb table_ok srdb_tables = true.
Proof. vm_compute. reflexivity. Qed.

Lemma streq_eq s t : count_char NUL s = O -> count_char NUL t = O -> streq s t = bool_decide (s = t).
Proof.
  intros Hs Ht. unfold streq. apply Bool.eq_iff_eq_true. rewrite Z.eqb_eq, strcmp_0, bool_decide_eq_true.
  by rewrite !cut_at_id.
Qed.

(** What a table gives, in usable form: the two built-in columns, then
    columns [ds]. *)
Record table_wf (tbl : srdb_table) (ds : list srdb_descriptor) : Prop := {
  tw_desc : t_desc tbl = SRDB_BUILTIN_ENTRIES ++ ds;
  tw_cell : forall d, d ∈ t_desc tbl -> exists c, calloc_entry (t_struct tbl) !! d_offset d = Some c /\ kind_ok d c = true;
  tw_off : NoDup (map d_offset (t_desc tbl));
  tw_name : NoDup (map d_name (t_desc tbl));
  tw_index : NoDup (map d_index ds);
  tw_range : forall d, d ∈ ds -> 1 <= d_index d < 32;
  tw_plain : forall d, d ∈ ds -> d_builtin d = false /\ streq (d_name d) "row" = false /\ streq (d_name d) "_version" = false
}.

Lemma table_wf_of tbl : tbl ∈ srdb_tables -> table_wf tbl (drop 2 (t_desc tbl)).
Proof.
  intros Ht. pose proof tables_ok as Hok. rewrite forallb_forall in Hok. apply list_elem_of_In, Hok in Ht. clear Hok.
  unfold table_ok in Ht. rewrite !andb_true_iff, !bool_decide_eq_true, !forallb_forall in Ht.
  destruct Ht as [[[[[[Hb Hall] Hoff] Hname] Hidx] Hplain] _].
  assert (t_desc tbl = SRDB_BUILTIN_ENTRIES ++ drop 2 (t_desc tbl)) as Hd by (rewrite <- (take_drop 2 (t_desc tbl)) at 1; congruence).
  assert (forall d, d ∈ drop 2 (t_desc tbl) -> d ∈ t_desc tbl) as Hin' by (intros d Hin; rewrite Hd; set_solver).
  assert (forall d, d ∈ t_desc tbl -> desc_ok (t_struct tbl) d = true) as Hdesc by (intros; by apply Hall, list_elem_of_In).
  assert (forall d, d ∈ drop 2 (t_desc tbl) -> d_builtin d = false) as Hpl.
  { intros d Hin. by apply negb_true_iff, Hplain, list_elem_of_In. }
  split; [done| |done|done|done| |].
  - intros d Hin. specialize (Hdesc d Hin). unfold desc_ok in Hdesc. bool_prop.
    destruct (calloc_entry (t_struct tbl) !! d_offset d) as [c|]; [|done]. by exists c.
  - intros d Hin. specialize (Hdesc d (Hin' d Hin)). specialize (Hpl d Hin). unfold desc_ok in Hdesc. rewrite Hpl in Hdesc.
    bool_prop. destruct (Z.eqb_spec (d_index d) 0); [done|]. lia.
  - intros d Hin. specialize (Hdesc d (Hin' d Hin)). split; [by apply Hpl|].
    unfold desc_ok in Hdesc. apply andb_true_iff in Hdesc as [_ Hnul]. apply Nat.eqb_eq in Hnul.
    rewrite Hd in Hname. cbn [SRDB_BUILTIN_ENTRIES app map d_name] in Hname.
    apply NoDup_cons in Hname as [Hr Hname]. apply NoDup_cons in Hname as [Hv _].
    rewrite !streq_eq by done. rewrite !bool_decide_eq_false.
    split; intros E; [apply Hr; right|apply Hv]; rewrite <- E; by apply list_elem_of_fmap_2.
Qed.

(** ** Bits of the masks *)

Lemma ENTRY_MASK_bit i j : 0 <= i -> 0 <= j -> Z.testbit (ENTRY_MASK i) j = bool_decide (i = j).
Proof.
  intros Hi Hj. unfold ENTRY_MASK. rewrite Z.shiftl_1_l, Z.pow2_bits_eqb by done.
  destruct (Z.eqb_spec i j); [by rewrite bool_decide_true|by rewrite bool_decide_false].
Qed.

Lemma mask_test mask i : 0 <= i -> negb (Z.land mask (ENTRY_MASK i) =? 0) = Z.testbit mask i.
Proof.
  intros Hi. destruct (Z.testbit mask i) eqn:E.
  - apply negb_true_iff, Z.eqb_neq. intros H0. apply (f_equal (fun x => Z.testbit x i)) in H0.
    rewrite Z.land_spec, ENTRY_MASK_bit, bool_decide_true, E in H0 by done. rewrite Z.testbit_0_l in H0. done.
  - apply negb_false_iff, Z.eqb_eq. apply Z.bits_inj'. intros j Hj. rewrite Z.land_spec, ENTRY_MASK_bit, Z.testbit_0_l by done.
    destruct (decide (i = j)) as [->|]; [by rewrite E|]. by rewrite bool_decide_false, andb_false_r.
Qed.

Section theory.
Context {J : Jansson} {L : JanssonLaws J}.

(** ** Reading *)

(** The cell a column value leaves in a field. *)
Definition filled (d : srdb_descriptor) (v : option json) (c : cell) : cell :=
  match d_type d with
  | SRDB_STR => match str_value v with Some s => CBuf (S (d_maxlen d)) (strncpy (d_maxlen d) s) | None => c end
  | SRDB_INT => match int_value v with Some z => CInt (to_int z) | None => c end
  | SRDB_VARSTR => match str_value v with Some s => CPtr (Some (strncpy (d_maxlen d) s)) | None => c end
  end.

Lemma filled_kind d v c : kind_ok d c = true -> kind_ok d (filled d v c) = true.
Proof.
  unfold filled, kind_ok. destruct (d_type d), c; try done; [destruct (str_value v)|destruct (int_value v)|destruct (str_value v)]; try done.
  intros _. apply Nat.eqb_refl.
Qed.

Lemma entry_insert_id (e : entry) o c : e !! o = Some c -> <[o := c]> e = e.
Proof. apply insert_id. Qed.

Lemma store_column_ok d (e : entry) v c :
  e !! d_offset d = Some c -> kind_ok d c = true -> store_column d e v = Some (<[d_offset d := filled d v c]> e).
Proof.
  intros He Hk. unfold store_column, filled, put_str, put_int, put_ptr, kind_ok in *. rewrite He.
  destruct (d_type d), c as [cap s|z|p]; try done.
  - destruct (str_value v); [|by rewrite entry_insert_id]. apply Nat.eqb_eq in Hk. subst cap.
    replace (d_maxlen d <? S (d_maxlen d))%nat with true by (symmetry; apply Nat.ltb_lt; lia). done.
  - destruct (int_value v); [done|by rewrite entry_insert_id].
  - destruct (str_value v); [done|by rewrite entry_insert_id].
Qed.

Definition present (line : json) (d : srdb_descriptor) : bool := bool_decide (is_Some (json_object_get line (d_name d))).

Lemma fill_loop_ok uuid line ds : forall e mask,
  NoDup (map d_offset ds) -> NoDup (map d_index ds) ->
  (forall d, d ∈ ds -> exists c, e !! d_offset d = Some c /\ kind_ok d c = true) ->
  (forall d, d ∈ ds -> 1 <= d_index d < 32) ->
  (forall d, d ∈ ds -> streq (d_name d) "row" = false /\ streq (d_name d) "_version" = false) ->
  exists e' mask', fill_loop uuid line ds e mask = Some (e', mask') /\
    (forall d c, d ∈ ds -> e !! d_offset d = Some c -> e' !! d_offset d = Some (filled d (json_object_get line (d_name d)) c)) /\
    (forall o, o ∉ map d_offset ds -> e' !! o = e !! o) /\
    (forall d, d ∈ ds -> Z.testbit mask' (d_index d) = Z.testbit mask (d_index d) || present line d) /\
    (forall i, 0 <= i -> i ∉ map d_index ds -> Z.testbit mask' i = Z.testbit mask i).
Proof.
  induction ds as [|d ds IH]; intros e mask Ho Hi Hc Hr Hn.
  { exists e, mask. split_and!; [done|intros ? ? ?%not_elem_of_nil; done|done|intros ? ?%not_elem_of_nil; done|done]. }
  simpl in Ho, Hi. apply NoDup_cons in Ho as [Hod Ho]. apply NoDup_cons in Hi as [Hid Hi].
  destruct (Hn d) as [Hn1 Hn2]; [by left|]. destruct (Hc d) as (c & Hd & Hk); [by left|].
  assert (1 <= d_index d < 32) as Hi0 by (apply Hr; by left).
  cbn [fill_loop].
  set (e1 := <[d_offset d := filled d (json_object_get line (d_name d)) c]> e).
  set (mask1 := if present line d then Z.lor mask (ENTRY_MASK (d_index d)) else mask).
  assert (fill_column uuid line d e mask = Some (e1, mask1)) as ->.
  { unfold fill_column, e1, mask1, present. rewrite Hn1, Hn2. replace (d_index d =? 0) with false by (symmetry; apply Z.eqb_neq; lia).
    destruct (json_object_get line (d_name d)) as [v|].
    - rewrite bool_decide_true by done. cbv zeta. by rewrite (store_column_ok _ _ _ c).
    - rewrite bool_decide_false by (by intros []). unfold filled. destruct (d_type d); simpl; by rewrite entry_insert_id. }
  cbn [mbind option_bind].
  assert (forall d', d' ∈ ds -> d_offset d' <> d_offset d) as Hne by (intros d' Hd' E; apply Hod; rewrite <- E; by apply list_elem_of_fmap_2).
  assert (forall d', d' ∈ ds -> d_index d' <> d_index d) as Hne' by (intros d' Hd' E; apply Hid; rewrite <- E; by apply list_elem_of_fmap_2).
  assert (forall i, 0 <= i -> Z.testbit mask1 i = Z.testbit mask i || (bool_decide (d_index d = i) && present line d)) as Hm1.
  { intros i Hi'. unfold mask1. destruct (present line d); [|by rewrite andb_false_r, orb_false_r].
    rewrite Z.lor_spec, ENTRY_MASK_bit by lia. by rewrite andb_true_r. }
  destruct (IH e1 mask1 Ho Hi) as (e' & mask' & -> & HA & HB & HC & HD).
  { intros d' Hd'. unfold e1. rewrite lookup_insert_ne by (intros E; by eapply Hne). apply Hc. by right. }
  { intros d' Hd'. apply Hr. by right. } { intros d' Hd'. apply Hn. by right. }
  exists e', mask'. split_and!; [done| | | |].
  - intros d' c' [->|Hd']%elem_of_cons Hc'.
    + rewrite HB by done. unfold e1. rewrite lookup_insert_eq. congruence.
    + apply HA; [done|]. unfold e1. by rewrite lookup_insert_ne by (intros E; by eapply Hne).
  - intros o [Hoo Hos]%not_elem_of_cons. rewrite HB by done. unfold e1. by rewrite lookup_insert_ne.
  - intros d' [->|Hd']%elem_of_cons.
    + rewrite HD, Hm1 by (done || lia). by rewrite bool_decide_true.
    + assert (1 <= d_index d' < 32) as Hi' by (apply Hr; by right). rewrite HC, Hm1 by (done || lia). rewrite bool_decide_false by (intros E; by eapply Hne'). by rewrite orb_false_r.
  - intros i Hi' [Hid' His]%not_elem_of_cons. rewrite HD, Hm1 by done. rewrite bool_decide_false by done. by rewrite orb_false_r.
Qed.

Definition row_desc : srdb_descriptor := Desc "row" SRDB_STR 0 SLEN true (offsetof srdb_entry "row").
Definition version_desc : srdb_descriptor := Desc "_version" SRDB_STR 0 SLEN true (offsetof srdb_entry "version").

Lemma fill_row uuid line (e : entry) mask c :
  e !! d_offset row_desc = Some c -> kind_ok row_desc c = true ->
  fill_column uuid line row_desc e mask = Some (<[d_offset row_desc := CBuf (S SLEN) (strncpy SLEN uuid)]> e, mask).
Proof.
  intros He Hk. unfold fill_column. replace (streq (d_name row_desc) "row") with true by done. cbn [d_maxlen row_desc].
  unfold put_str. cbn [d_offset row_desc] in *. rewrite He. destruct c as [cap s|?|?]; [|done..].
  unfold kind_ok in Hk. cbn [d_type row_desc d_maxlen] in Hk. apply Nat.eqb_eq in Hk. subst cap. done.
Qed.

Lemma fill_version uuid line (e : entry) mask c :
  e !! d_offset version_desc = Some c -> kind_ok version_desc c = true ->
  exists c', fill_column uuid line version_desc e mask = Some (<[d_offset version_desc := c']> e, mask).
Proof.
  intros He Hk. unfold fill_column. replace (streq (d_name version_desc) "row") with false by done.
  destruct (json_object_get line (d_name version_desc)) as [v|]; [|exists c; by rewrite entry_insert_id].
  cbv zeta. rewrite (store_column_ok _ _ _ c) by done. by eexists.
Qed.

(** Reading any row, whatever the server sent, into a fresh entry. *)
Lemma fill_entry_ok tbl uuid line :
  tbl ∈ srdb_tables ->
  exists e mask, fill_srdb_entry (t_desc tbl) (calloc_entry (t_struct tbl)) uuid line = Some (e, mask) /\
    e !! d_offset row_desc = Some (CBuf (S SLEN) (strncpy SLEN uuid)) /\
    (forall d, d ∈ drop 2 (t_desc tbl) -> exists c, calloc_entry (t_struct tbl) !! d_offset d = Some c /\
       kind_ok d c = true /\ e !! d_offset d = Some (filled d (json_object_get line (d_name d)) c)) /\
    (forall d, d ∈ drop 2 (t_desc tbl) -> Z.testbit mask (d_index d) = present line d).
Proof.
  intros Ht. pose proof (table_wf_of tbl Ht) as [Hd Hc Ho Hn Hi Hr Hp]. set (ds := drop 2 (t_desc tbl)) in *. unfold fill_srdb_entry.
  set (e0 := calloc_entry (t_struct tbl)) in *. rewrite Hd in Ho. rewrite Hd.
  change (SRDB_BUILTIN_ENTRIES ++ ds) with (row_desc :: version_desc :: ds) in *. cbn [map] in Ho.
  apply NoDup_cons in Ho as [Ho1 Ho]. apply NoDup_cons in Ho as [Ho2 Ho]. apply not_elem_of_cons in Ho1 as [Hne Ho1].
  assert (forall d, d ∈ ds -> d ∈ t_desc tbl) as Hin by (intros d Hd'; rewrite Hd; by right; right).
  destruct (Hc row_desc) as (c1 & Hc1 & Hk1); [rewrite Hd; by left|].
  destruct (Hc version_desc) as (c2 & Hc2 & Hk2); [rewrite Hd; right; by left|].
  cbn [fill_loop]. rewrite (fill_row _ _ _ _ c1) by done. cbn [mbind option_bind].
  set (e1 := <[d_offset row_desc := _]> e0).
  destruct (fill_version uuid line e1 0 c2) as (c' & ->); [unfold e1; by rewrite lookup_insert_ne|done|]. cbn [mbind option_bind].
  set (e2 := <[d_offset version_desc := c']> e1).
  assert (forall o, o ∈ map d_offset ds -> e2 !! o = e0 !! o) as He2.
  { intros o Hin'. unfold e2, e1. rewrite !lookup_insert_ne by (intros <-; done). done. }
  destruct (fill_loop_ok uuid line ds e2 0 Ho Hi) as (e & mask & -> & HA & HB & HC & HD).
  { intros d Hd'. rewrite He2 by (by apply list_elem_of_fmap_2). by apply Hc, Hin. }
  { done. } { intros d Hd'. by apply Hp. }
  exists e, mask. split_and!; [done| | |].
  - rewrite HB by done. unfold e2, e1. rewrite lookup_insert_ne by done. by rewrite lookup_insert_eq.
  - intros d Hd'. destruct (Hc d) as (c & Hcc & Hk); [by apply Hin|]. exists c. split_and!; [done|done|].
    apply HA; [done|]. by rewrite He2 by (by apply list_elem_of_fmap_2).
  - intros d Hd'. rewrite HC by done. by rewrite Z.testbit_0_l.
Qed.

(** ** Writing *)

(** The JSON value of a field; [None] for a null pointer or text that is not UTF-8. *)
Definition column (e : entry) (d : srdb_descriptor) : option json :=
  match d_type d, e !! d_offset d with
  | SRDB_STR, Some (CBuf _ s) => json_string s
  | SRDB_INT, Some (CInt z) => Some (json_integer z)
  | SRDB_VARSTR, Some (CPtr p) => s ← p; json_string s
  | _, _ => None
  end.

(** The common shape of the two writing loops. *)
Fixpoint write_sel (sel : srdb_descriptor -> bool) (row : json) (ds : list srdb_descriptor) (e : entry) : option json :=
  match ds with
  | [] => Some row
  | d :: ds => if sel d then row ← write_desc_data row d e; write_sel sel row ds e else write_sel sel row ds e
  end.

Lemma insert_row_sel ds e : forall row, insert_row_loop row ds e = write_sel (fun d => negb (d_builtin d)) row ds e.
Proof. induction ds as [|d ds IH]; intros row; simpl; [done|]. destruct (negb _); [|done]. by destruct (write_desc_data row d e); simpl. Qed.

Lemma append_mask_sel ds e mask : forall row,
  append_mask_loop row ds e mask = write_sel (fun d => negb (d_index d =? 0) && negb (Z.land mask (ENTRY_MASK (d_index d)) =? 0)) row ds e.
Proof.
  induction ds as [|d ds IH]; intros row; simpl; [done|]. destruct (d_index d =? 0); simpl; [done|].
  destruct (negb _); [|done]. by destruct (write_desc_data row d e); simpl.
Qed.

Definition has_kind (e : entry) (d : srdb_descriptor) : Prop := exists c, e !! d_offset d = Some c /\ kind_ok d c = true.

Lemma write_desc_ok row d e : has_kind e d -> write_desc_data row d e = Some (set_new row (d_name d) (column e d)).
Proof.
  intros (c & Hc & Hk). unfold write_desc_data, column, kind_ok in *. rewrite Hc. by destruct (d_type d), c.
Qed.

Lemma set_new_object row k v : json_is_object row = true -> json_is_object (set_new row k v) = true.
Proof. destruct v; [apply jl_set_object|done]. Qed.

Lemma write_sel_ok sel ds e : forall row,
  json_is_object row = true -> NoDup (map d_name ds) -> (forall d, d ∈ ds -> sel d = true -> has_kind e d) ->
  exists row', write_sel sel row ds e = Some row' /\ json_is_object row' = true /\
    (forall k, k ∉ map d_name ds -> json_object_get row' k = json_object_get row k) /\
    (forall d, d ∈ ds -> json_object_get row' (d_name d) =
       match (if sel d then column e d else None) with Some v => Some v | None => json_object_get row (d_name d) end).
Proof.
  induction ds as [|d ds IH]; intros row Ho Hn Hk.
  { exists row. split_and!; [done|done|done|intros ? ?%not_elem_of_nil; done]. }
  simpl in Hn. apply NoDup_cons in Hn as [Hd Hn]. cbn [write_sel].
  set (row1 := if sel d then set_new row (d_name d) (column e d) else row).
  destruct (IH row1) as (row' & Hw & Ho' & HA & HB).
  { unfold row1. destruct (sel d); [by apply set_new_object|done]. } { done. } { intros d' Hd'. apply Hk. by right. }
  exists row'. split.
  { unfold row1 in Hw. destruct (sel d) eqn:Es; [|done]. rewrite write_desc_ok by (apply Hk; [by left|done]). done. }
  assert (forall k, k <> d_name d -> json_object_get row1 k = json_object_get row k) as Hr1.
  { intros k Hk'. unfold row1, set_new. destruct (sel d), (column e d); [|done..]. by rewrite jl_get_set_ne. }
  split_and!; [done| |].
  - intros k [Hk1 Hk2]%not_elem_of_cons. rewrite HA, Hr1 by done. done.
  - intros d' [->|Hd']%elem_of_cons.
    + rewrite HA by done. unfold row1, set_new. destruct (sel d); [|done]. destruct (column e d); [by rewrite jl_get_set|done].
    + rewrite HB by done. rewrite Hr1; [done|]. intros E. apply Hd. rewrite <- E. by apply list_elem_of_fmap_2.
Qed.

(** ** Well-typed entries *)

Definition text_ok (maxlen : nat) (s : string) : Prop :=
  count_char NUL s = O /\ (String.length s <= maxlen)%nat /\ is_Some (json_string s).

Definition cell_wf (d : srdb_descriptor) (c : cell) : Prop :=
  match d_type d, c with
  | SRDB_STR, CBuf cap s => cap = S (d_maxlen d) /\ text_ok (d_maxlen d) s
  | SRDB_INT, CInt z => - 2 ^ 31 <= z < 2 ^ 31
  | SRDB_VARSTR, CPtr (Some s) => text_ok (d_maxlen d) s
  | SRDB_VARSTR, CPtr None => True
  | _, _ => False
  end.

(** The fields of an entry that a row of [tbl] carries. *)
Definition entry_wf (tbl : srdb_table) (e : entry) : Prop :=
  forall d, d ∈ drop 2 (t_desc tbl) -> exists c, e !! d_offset d = Some c /\ cell_wf d c.

Lemma cell_wf_kind d c : cell_wf d c -> kind_ok d c = true.
Proof. unfold cell_wf, kind_ok. destruct (d_type d), c as [? ?|?|[]]; try done. intros [-> _]. apply Nat.eqb_refl. Qed.

Lemma strncpy_full n s : count_char NUL s = O -> (String.length s <= n)%nat -> strncpy n s = s.
Proof.
  revert n. induction s as [|a s IH]; intros [|n]; simpl; [done..|lia|]. destruct (Ascii.eqb a NUL); [done|].
  intros Hs Hl. rewrite IH by (done || lia). done.
Qed.

Lemma filled_column e d c c0 :
  e !! d_offset d = Some c -> cell_wf d c -> kind_ok d c0 = true -> (exists t, c0 = zero_cell t) -> filled d (column e d) c0 = c.
Proof.
  intros He Hw Hk [t ->]. unfold column, filled, cell_wf, kind_ok in *. rewrite He.
  destruct (d_type d), c as [cap s|z|[s|]], t; try done.
  - destruct Hw as (-> & Hn & Hl & [j Hj]). rewrite Hj. cbn. rewrite (jl_string _ _ Hj). by rewrite strncpy_full.
  - cbn. rewrite jl_integer by lia. cbn. unfold to_int. rewrite Z.mod_small by lia. f_equal. lia.
  - destruct Hw as (Hn & Hl & [j Hj]). cbn. rewrite Hj. cbn. rewrite (jl_string _ _ Hj). by rewrite strncpy_full.
Qed.

Lemma calloc_zero fs o c : calloc_entry fs !! o = Some c -> exists t, c = zero_cell t.
Proof.
  intros H. apply elem_of_list_to_map_2 in H. apply list_elem_of_fmap in H as ((f & o' & t) & E & _). simplify_eq/=. by exists t.
Qed.

(** The row of an entry whose cells have the table's kinds. *)
Lemma insert_row_kinds tbl e :
  tbl ∈ srdb_tables -> (forall d, d ∈ drop 2 (t_desc tbl) -> exists c, e !! d_offset d = Some c /\ kind_ok d c = true) ->
  exists row, srdb_insert_row tbl e = Some row /\ json_is_object row = true /\
    forall d, d ∈ drop 2 (t_desc tbl) -> json_object_get row (d_name d) = column e d.
Proof.
  intros Ht He. pose proof (table_wf_of tbl Ht) as [Hd _ _ Hn _ _ Hp]. set (ds := drop 2 (t_desc tbl)) in *.
  unfold srdb_insert_row. rewrite insert_row_sel, Hd. rewrite Hd in Hn. cbn [SRDB_BUILTIN_ENTRIES app map d_name] in Hn.
  apply NoDup_cons in Hn as [_ Hn]. apply NoDup_cons in Hn as [_ Hn].
  cbn [SRDB_BUILTIN_ENTRIES app write_sel d_builtin negb].
  destruct (write_sel_ok (fun d => negb (d_builtin d)) ds e json_object jl_object Hn) as (row & -> & Ho & _ & HB).
  { intros d Hd' _. by apply He. }
  exists row. split_and!; [done|done|]. intros d Hd'. rewrite HB by done. destruct (Hp d Hd') as [-> _]. cbn [negb].
  rewrite jl_get_empty. by destruct (column e d).
Qed.

Lemma insert_row_ok tbl e :
  tbl ∈ srdb_tables -> entry_wf tbl e ->
  exists row, srdb_insert_row tbl e = Some row /\ json_is_object row = true /\
    forall d, d ∈ drop 2 (t_desc tbl) -> json_object_get row (d_name d) = column e d.
Proof.
  intros Ht He. apply insert_row_kinds; [done|]. intros d Hd. destruct (He d Hd) as (c & Hc & Hw). exists c. split; [done|by apply cell_wf_kind].
Qed.
End theory.

(** ** A concrete JSON library *)

#[warnings="-register-all"]
Inductive jtree := JNull | JStr (s : string) | JInt (z : Z) | JArr (l : list jtree) | JObj (l : list (string * jtree)).

Fixpoint assoc_get (l : list (string * jtree)) (k : string) : option jtree :=
  match l with [] => None | (k', v) :: l => if bool_decide (k' = k) then Some v else assoc_get l k end.
Fixpoint assoc_set (l : list (string * jtree)) (k : string) (v : jtree) : list (string * jtree) :=
  match l with [] => [(k, v)] | (k', v') :: l => if bool_decide (k' = k) then (k, v) :: l else (k', v') :: assoc_set l k v end.

#[global] Instance tree_jansson : Jansson := {|
  json := jtree;
  json_object := JObj [];
  json_is_object j := match j with JObj _ => true | _ => false end;
  json_object_get j k := match j with JObj l => assoc_get l k | _ => None end;
  json_object_set j k v := match j with JObj l => JObj (assoc_set l k v) | _ => j end;
  json_object_entries j := match j with JObj l => l | _ => [] end;
  json_array_size j := match j with JArr l => length l | _ => 0%nat end;
  json_array_get j i := match j with JArr l => l !! i | _ => None end;
  json_string s := Some (JStr s);
  json_string_value j := match j with JStr s => Some s | _ => None end;
  json_integer z := JInt z;
  json_integer_value j := match j with JInt z => Some z | _ => None end;
  json_is_null j := match j with JNull => true | _ => false end
|}.

#[global] Instance tree_jansson_laws : JanssonLaws tree_jansson.
Proof.
  split; cbn.
  - done.
  - by intros [].
  - done.
  - intros [| | | |l] k v; try done. intros _. induction l as [|[k' v'] l IH]; cbn; [by rewrite bool_decide_true|].
    destruct (bool_decide (k' = k)) eqn:E; cbn; [by rewrite bool_decide_true|]. by rewrite E.
  - intros [| | | |l] k k' v; try done. intros _ Hne. induction l as [|[k1 v1] l IH]; cbn; [by rewrite bool_decide_false|].
    destruct (decide (k1 = k)) as [->|E].
    + rewrite bool_decide_true by done. cbn. by rewrite !bool_decide_false.
    + rewrite (bool_decide_false (k1 = k)) by done. cbn. by rewrite IH.
  - by intros s j [= <-].
  - done.
Qed.

(** A text for trees: the bits of their code. *)
Fixpoint to_gen (j : jtree) : gen_tree (string + Z) :=
  match j with
  | JNull => GenNode 0 []
  | JStr s => GenLeaf (inl s)
  | JInt z => GenLeaf (inr z)
  | JArr l => GenNode 1 (map to_gen l)
  | JObj l => GenNode 2 (map (fun kv => GenNode 3 [GenLeaf (inl kv.1); to_gen kv.2]) l)
  end.

Fixpoint of_gen (t : gen_tree (string + Z)) : jtree :=
  match t with
  | GenLeaf (inl s) => JStr s
  | GenLeaf (inr z) => JInt z
  | GenNode 1 l => JArr (map of_gen l)
  | GenNode 2 l => JObj (map (fun t => match t with GenNode _ [GenLeaf (inl k); v] => (k, of_gen v) | _ => ("", JNull) end) l)
  | GenNode _ _ => JNull
  end.

Lemma of_to_gen : forall j, of_gen (to_gen j) = j.
Proof.
  fix IH 1. intros [|s|z|l|l]; [reflexivity..| |]; cbn [to_gen of_gen]; f_equal; rewrite map_map.
  - induction l as [|j l IHl]; [reflexivity|]. cbn [map]. rewrite IH, IHl. reflexivity.
  - induction l as [|[k j] l IHl]; [reflexivity|]. cbn [map fst snd]. rewrite IH, IHl. reflexivity.
Qed.

Fixpoint pos_text (p : positive) : string :=
  match p with xH => "" | xO p => String "0" (pos_text p) | xI p => String "1" (pos_text p) end.
Fixpoint text_pos (s : string) : positive :=
  match s with EmptyString => xH | String a s => if Ascii.eqb a "1" then xI (text_pos s) else xO (text_pos s) end.

#[global] Instance tree_text : JanssonText tree_jansson := {|
  json_array := JArr;
  json_dumps j := pos_text (encode (to_gen j));
  json_loads s := t ← decode (text_pos s); Some (of_gen t)
|}.

#[global] Instance tree_text_laws : JanssonTextLaws tree_jansson tree_text.
Proof.
  split; [done|done| | |done].
  - intros l. cbn [json_loads json_dumps tree_text].
    assert (forall p, text_pos (pos_text p) = p) as -> by (induction p; cbn; congruence).
    rewrite decode_encode. cbn [mbind option_bind]. by rewrite of_to_gen.
  - intros l. assert (forall p, cut_at NUL (pos_text p) = pos_text p) as H by (induction p; cbn; congruence). apply H.
Qed.

(** ** Types of fields *)

(** The C type of the field at each offset of an entry. *)
Definition ckind (c : cell) : ctype := match c with CBuf cap _ => TChar cap | CInt _ => TInt | CPtr _ => TPtr end.
Definition shape (e : entry) : gmap Z ctype := ckind <$> e.

Lemma shape_insert (e : entry) o c c' : e !! o = Some c' -> ckind c = ckind c' -> shape (<[o := c]> e) = shape e.
Proof. intros He Hk. unfold shape. rewrite fmap_insert, insert_id; [done|]. by rewrite lookup_fmap, He, Hk. Qed.

Lemma store_types {J : Jansson} d e v e' : store_column d e v = Some e' -> shape e' = shape e.
Proof.
  unfold store_column, put_str, put_int, put_ptr. destruct (d_type d).
  - destruct (str_value v); [|by intros [= <-]]. destruct (e !! d_offset d) as [[cap s'|z|p]|] eqn:E; try done. destruct (_ <? _)%nat; [|done]. intros [= <-]. by eapply shape_insert.
  - destruct (int_value v); [|by intros [= <-]]. destruct (e !! d_offset d) as [[cap s'|z'|p]|] eqn:E; try done. intros [= <-]. by eapply shape_insert.
  - destruct (str_value v); [|by intros [= <-]]. destruct (e !! d_offset d) as [[cap s'|z'|p]|] eqn:E; try done. intros [= <-]. by eapply shape_insert.
Qed.

Lemma column_types {J : Jansson} uuid line d e mask e' mask' : fill_column uuid line d e mask = Some (e', mask') -> shape e' = shape e.
Proof.
  unfold fill_column. destruct (streq (d_name d) "row").
  - unfold put_str. destruct (e !! offsetof srdb_entry "row") as [[cap s'|z|p]|] eqn:E; try done. destruct (_ <? _)%nat; [|done].
    cbn [mbind option_bind]. intros [= <- _]. by eapply shape_insert.
  - destruct (json_object_get line (d_name d)); [|by intros [= <- _]]. destruct (store_column _ _ _) as [e1|] eqn:E; [|done].
    cbn [mbind option_bind]. intros [= <- _]. by eapply store_types.
Qed.

Lemma fill_types {J : Jansson} uuid line ds : forall e mask e' mask', fill_loop uuid line ds e mask = Some (e', mask') -> shape e' = shape e.
Proof.
  induction ds as [|d ds IH]; intros e mask e' mask'; cbn [fill_loop]; [by intros [= <- _]|].
  destruct (fill_column uuid line d e mask) as [[e1 m1]|] eqn:E; [|done]. cbn [mbind option_bind]. intros H. rewrite (IH _ _ _ _ H). by eapply column_types.
Qed.

(** ** Main results *)

(** Whatever JSON row the server sends, [fill_srdb_entry] on a fresh entry
    of any table stays within the struct: every column lands, truncated to
    its field and terminated, in the field its descriptor names (fields of
    absent or wrongly typed columns stay zero), and the returned mask has
    exactly the bits of the columns present. *)
Theorem fill_srdb_entry_safe (J : Jansson) (tbl : srdb_table) (uuid : string) (line : json) :
  tbl ∈ srdb_tables ->
  exists e mask, fill_srdb_entry (t_desc tbl) (calloc_entry (t_struct tbl)) uuid line = Some (e, mask) /\
    e !! 0 = Some (CBuf (S SLEN) (strncpy SLEN uuid)) /\
    (forall d, d ∈ drop 2 (t_desc tbl) -> exists c, calloc_entry (t_struct tbl) !! d_offset d = Some c /\
       kind_ok d c = true /\ e !! d_offset d = Some (filled d (json_object_get line (d_name d)) c)) /\
    (forall d, d ∈ drop 2 (t_desc tbl) -> Z.testbit mask (d_index d) = present line d).
Proof. apply fill_entry_ok. Qed.

Definition flowreq_table : srdb_table := Table "FlowReq" srdb_flowreq_entry flowreq_desc_tmpl.
Definition demo_line : jtree := JObj [("bandwidth", JInt (2 ^ 32 + 5)); ("destination", JStr "server"); ("status", JStr "oops")].

Lemma fill_srdb_entry_witness :
  exists e mask, fill_srdb_entry (t_desc flowreq_table) (calloc_entry (t_struct flowreq_table)) "u1" demo_line = Some (e, mask) /\
    e !! 0 = Some (CBuf (S SLEN) (strncpy SLEN "u1")) /\
    (forall d, d ∈ drop 2 (t_desc flowreq_table) -> exists c, calloc_entry (t_struct flowreq_table) !! d_offset d = Some c /\
       kind_ok d c = true /\ e !! d_offset d = Some (filled d (json_object_get demo_line (d_name d)) c)) /\
    (forall d, d ∈ drop 2 (t_desc flowreq_table) -> Z.testbit mask (d_index d) = present demo_line d).
Proof. apply (fill_srdb_entry_safe tree_jansson flowreq_table). apply list_elem_of_In. simpl. auto. Defined.

(** C33. What one daemon inserts another one reads: the row [srdb_insert] builds
    from a well-typed entry, reported back by the server in an insert
    notification (any row agreeing on the table's columns), reaches the
    insert callback of [srdb_read] as an entry with the same fields and the
    row's uuid. *)
Theorem srdb_insert_read_roundtrip (J : Jansson) (L : JanssonLaws J) (St : Type) (tbl : srdb_table) (e : entry)
    (cbs : callbacks) (f : entry -> St -> Z * St) (uuid : string) (note line : json) (st : St) :
  tbl ∈ srdb_tables -> entry_wf tbl e -> cb_insert cbs = Some f ->
  json_object_get note "new" = Some line -> json_object_get note "old" = None ->
  exists row, srdb_insert_row tbl e = Some row /\
    ((forall d, d ∈ drop 2 (t_desc tbl) -> json_object_get line (d_name d) = json_object_get row (d_name d)) ->
     exists e', srdb_read tbl cbs uuid note st = Some (f e' st) /\
       e' !! 0 = Some (CBuf (S SLEN) (strncpy SLEN uuid)) /\
       forall d, d ∈ drop 2 (t_desc tbl) -> e' !! d_offset d = e !! d_offset d).
Proof.
  intros Ht He Hcb Hnew Hold. destruct (insert_row_ok tbl e Ht He) as (row & -> & _ & Hrow). exists row. split; [done|]. intros Hline.
  destruct (fill_entry_ok tbl uuid line Ht) as (e' & mask & Hfill & Huuid & Hcol & _).
  exists e'. unfold srdb_read. rewrite Hnew, Hold, Hfill. cbn [mbind option_bind]. unfold call1. rewrite Hcb. split_and!; [done|done|].
  intros d Hd. destruct (Hcol d Hd) as (c0 & Hc0 & Hk0 & ->). destruct (He d Hd) as (c & Hc & Hw).
  rewrite Hline, Hrow by done. rewrite Hc. f_equal. eapply filled_column; [done|done|done|by eapply calloc_zero].
Qed.

Definition demo_flowreq : entry :=
  <[offsetof srdb_flowreq_entry "destination" := CBuf (S SLEN) "server"]>
  (<[offsetof srdb_flowreq_entry "bandwidth" := CInt 5]> (calloc_entry srdb_flowreq_entry)).

Lemma demo_flowreq_wf : entry_wf flowreq_table demo_flowreq.
Proof.
  intros d Hd. cbn [t_desc flowreq_table flowreq_desc_tmpl SRDB_BUILTIN_ENTRIES app drop] in Hd.
  repeat (apply elem_of_cons in Hd as [->|Hd];
    [eexists; (split; [vm_compute; reflexivity|]); unfold cell_wf, text_ok, SLEN; cbn; split_and?; (lia || eauto)|]).
  by apply not_elem_of_nil in Hd.
Qed.

Definition demo_row : jtree := default JNull (@srdb_insert_row tree_jansson flowreq_table demo_flowreq).
Definition log_insert : callbacks (St := list entry) := Callbacks (Some (fun e l => (0, e :: l))) None None.

Lemma srdb_insert_read_witness :
  exists row, @srdb_insert_row tree_jansson flowreq_table demo_flowreq = Some row /\
    ((forall d, d ∈ drop 2 (t_desc flowreq_table) -> @json_object_get tree_jansson demo_row (d_name d) = json_object_get row (d_name d)) ->
     exists e', @srdb_read tree_jansson _ flowreq_table log_insert "u1" (JObj [("new", demo_row)]) [] = Some (0, [e']) /\
       e' !! 0 = Some (CBuf (S SLEN) (strncpy SLEN "u1")) /\
       forall d, d ∈ drop 2 (t_desc flowreq_table) -> e' !! d_offset d = demo_flowreq !! d_offset d).
Proof.
  apply (srdb_insert_read_roundtrip tree_jansson tree_jansson_laws (list entry) flowreq_table demo_flowreq
    log_insert (fun e l => (0, e :: l)) "u1" (JObj [("new", demo_row)]) demo_row []);
    [apply list_elem_of_In; simpl; auto|exact demo_flowreq_wf|reflexivity..].
Defined.

(** An update transaction built with [srdb_update_append_mask] carries
    exactly the columns selected by the mask, with the entry's values, and
    never the built-in columns. *)
Theorem srdb_update_append_mask_spec (J : Jansson) (L : JanssonLaws J) (tbl : srdb_table) (e : entry) (mask : Z) :
  tbl ∈ srdb_tables -> entry_wf tbl e -> 0 <= mask ->
  exists utr, srdb_update_append_mask (srdb_update_prepare tbl e) mask = Some utr /\ utr_mask utr = mask /\
    json_object_get (utr_fields utr) "row" = None /\ json_object_get (utr_fields utr) "_version" = None /\
    forall d, d ∈ drop 2 (t_desc tbl) ->
      json_object_get (utr_fields utr) (d_name d) = if Z.testbit mask (d_index d) then column e d else None.
Proof.
  intros Ht He Hm. pose proof (table_wf_of tbl Ht) as [Hd _ _ Hn _ Hr Hp]. set (ds := drop 2 (t_desc tbl)) in *.
  unfold srdb_update_append_mask, srdb_update_prepare. cbn [utr_fields utr_tbl utr_entry utr_mask].
  rewrite append_mask_sel, Hd. rewrite Hd in Hn. cbn [SRDB_BUILTIN_ENTRIES app map d_name] in Hn.
  apply NoDup_cons in Hn as [Hn1 Hn]. apply NoDup_cons in Hn as [Hn2 Hn]. apply not_elem_of_cons in Hn1 as [_ Hn1].
  cbn [SRDB_BUILTIN_ENTRIES app write_sel d_index Z.eqb negb andb].
  destruct (write_sel_ok (fun d => negb (d_index d =? 0) && negb (Z.land mask (ENTRY_MASK (d_index d)) =? 0)) ds e json_object jl_object Hn)
    as (row & -> & Ho & HA & HB).
  { intros d Hd' _. destruct (He d Hd') as (c & Hc & Hw). exists c. split; [done|by apply cell_wf_kind]. }
  cbn [mbind option_bind]. eexists. split; [done|]. cbn [utr_mask utr_fields]. rewrite Z.lor_0_l. split_and!; [done| | |].
  - rewrite HA by done. apply jl_get_empty.
  - rewrite HA by done. apply jl_get_empty.
  - intros d Hd'. rewrite HB by done. pose proof (Hr d Hd') as Hi. rewrite mask_test by lia.
    replace (d_index d =? 0) with false by (symmetry; apply Z.eqb_neq; lia). cbn [negb andb]. rewrite jl_get_empty.
    destruct (Z.testbit mask (d_index d)); [by destruct (column e d)|done].
Qed.

Lemma srdb_update_append_mask_witness :
  exists utr, @srdb_update_append_mask tree_jansson (srdb_update_prepare flowreq_table demo_flowreq) 4 = Some utr /\ utr_mask utr = 4 /\
    json_object_get (utr_fields utr) "row" = None /\ json_object_get (utr_fields utr) "_version" = None /\
    forall d, d ∈ drop 2 (t_desc flowreq_table) ->
      json_object_get (utr_fields utr) (d_name d) = if Z.testbit 4 (d_index d) then column demo_flowreq d else None.
Proof.
  apply (srdb_update_append_mask_spec tree_jansson tree_jansson_laws flowreq_table demo_flowreq 4);
    [apply list_elem_of_In; simpl; auto|exact demo_flowreq_wf|lia].
Defined.

(** [ME_ALL] is built from the last field of another table and misses three
    columns of its own. *)
Lemma me_all_incomplete : ME_ALL = 3 /\ ENTRY_MASK_ALL ME_LAST = 63 /\ FE_ALL = 2 ^ 19 - 1.
Proof. done. Qed.

(** C36. Reading a row is type-safe: for every table the library knows and any
    JSON row, [fill_srdb_entry] succeeds on a fresh entry and leaves in every
    field of the struct, and nowhere else, a value of the field's C type and
    size, whatever the JSON types of the columns are. *)
Theorem fill_srdb_entry_typed (J : Jansson) (tbl : srdb_table) (uuid : string) (line : json) :
  tbl ∈ srdb_tables ->
  exists e mask, fill_srdb_entry (t_desc tbl) (calloc_entry (t_struct tbl)) uuid line = Some (e, mask) /\
    shape e = list_to_map (map (fun f => f.2) (layout 0 (t_struct tbl))).
Proof.
  intros Ht. destruct (fill_entry_ok tbl uuid line Ht) as (e & mask & Hf & _). exists e, mask. split; [exact Hf|].
  rewrite (fill_types uuid line _ _ _ _ _ Hf). apply list_elem_of_In in Ht. repeat (destruct Ht as [<-|Ht]; [vm_compute; reflexivity|]). destruct Ht.
Qed.

Lemma fill_srdb_entry_typed_witness :
  exists e mask, fill_srdb_entry (t_desc flowreq_table) (calloc_entry (t_struct flowreq_table)) "u1" demo_line = Some (e, mask) /\
    shape e = list_to_map (map (fun f => f.2) (layout 0 (t_struct flowreq_table))).
Proof. apply (fill_srdb_entry_typed tree_jansson flowreq_table). apply list_elem_of_In. simpl. auto. Defined.
