(* ===== verification/Netstate.v ===== *)
(** * The controller's network state (sr-ctrl/sr-ctrl.h, sr-ctrl/sr-ctrl.c)

    How database notifications about routers and links change the staging
    graph, and how [netstate_graph_sync] publishes a copy of it as the graph
    that path requests are computed on.

    [inet_pton] of the C library is an argument; a handler that goes on with
    an address that did not parse uses uninitialised memory: [None].  Links
    are heap objects named by pointers (the edges' data), routers likewise
    (the nodes' data).  [hmap] tables are finite maps here, which Hashmap.v
    justifies; times come from the caller.  The locks are left out: every
    handler runs under the write lock of the graph it changes. *)

From S2P Require Import Prelude Misc Rules Lpm Dijkstra Segpath Graph Srdb.
From Stdlib Require Import Ascii.

Record prefix := Prefix { p_addr : in6_addr; p_len : Z }.

(** [rt_addr] and [rt_pbsid] are [None] while uninitialised. *)
Record router := Router {
  rt_name : string;
  rt_addr : option in6_addr;
  rt_pbsid : option prefix;
  rt_prefixes : list prefix;
  rt_node_id : Z
}.

Record link := Link { l_local : in6_addr; l_remote : in6_addr; l_bw : Z; l_ava_bw : Z; l_delay : Z }.

Record netstate := NetState {
  ns_store : store;
  ns_links : gmap Z link;
  ns_rts : gmap Z router;
  ns_graph : graph;
  ns_dcache : dcache;
  ns_staging : graph;
  gs_mod : timeval;
  gs_dirty : timeval;
  ns_routers : gmap string Z;
  ns_prefixes : tree
}.

(** Fresh pointers of a heap. *)
Definition heap_top {A} (h : gmap Z A) : Z := foldr Z.max 0 (map fst (map_to_list h)).

(** ** The graph operations of the controller *)

Definition tolower (a : ascii) : ascii :=
  let b := byte_of a in if (65 <=? b) && (b <=? 90) then ascii_of_nat (Z.to_nat (b + 32)) else a.
Fixpoint lower (s : string) : string := match s with String a s => String (tolower a) (lower s) | EmptyString => EmptyString end.

(** !strcasecmp(s, t) *)
Definition strcaseeq (s t : string) : bool := streq (lower s) (lower t).

Definition rt_node_data_equals (rts : gmap Z router) (d1 d2 : Z) : bool :=
  strcaseeq (default "" (rt_name <$> rts !! d1)) (default "" (rt_name <$> rts !! d2)).

Definition rt_node_equals (rts : gmap Z router) (n1 n2 : Z * Z) : bool := rt_node_data_equals rts n1.2 n2.2.

Definition rt_node_data_copy (d : Z) : Z := d.

(** [link_edge_data_copy]: the copy of the link at [d] is allocated at
    [base + d], beyond every existing link. *)
Definition link_edge_data_copy (base d : Z) : Z := base + d.

Definition link_edge_data_equals (links : gmap Z link) (d1 d2 : Z) : bool :=
  match links !! d1, links !! d2 with
  | Some l1, Some l2 => (memcmp 16 (l_local l1) (l_local l2) =? 0) && (memcmp 16 (l_remote l1) (l_remote l2) =? 0)
  | _, _ => false
  end.

Definition g_ops_srdns (rts : gmap Z router) (links : gmap Z link) : gops :=
  GOps (rt_node_equals rts) (rt_node_data_equals rts) (link_edge_data_equals links) rt_node_data_copy
    (link_edge_data_copy (heap_top links)).

(** The contents of the copies [link_edge_data_copy] makes. *)
Fixpoint copy_links (base : Z) (ds : list Z) (links : gmap Z link) : gmap Z link :=
  match ds with
  | [] => links
  | d :: ds =>
      match links !! d with
      | Some l => <[link_edge_data_copy base d := l]> (copy_links base ds links)
      | None => copy_links base ds links
      end
  end.

Definition init_netstate : netstate :=
  NetState (Store ∅ ∅) ∅ ∅ graph_new ∅ graph_new (Timeval 0 0) (Timeval 0 0) ∅ lpm_new.

Section handlers.
Context (inet_pton : string -> option in6_addr).

(** dst is zeroed first; a failed inet_pton leaves the address zero *)
Definition pref_pton (src : string) : prefix :=
  match split_first "/" src with
  | (_, None) => Prefix (replicate 16 0) 0
  | (d, Some s) => Prefix (default (replicate 16 0) (inet_pton d)) (to_int (strtol s))
  end.

Definition set_dirty (g : graph) (b : bool) : graph :=
  Graph (g_nodes g) (g_edges g) (last_node g) (last_edge g) (g_min_edges g) (g_neighs g) b (cloned g).

Definition mark_graph_dirty (now : timeval) (ns : netstate) : netstate :=
  NetState (ns_store ns) (ns_links ns) (ns_rts ns) (ns_graph ns) (ns_dcache ns) (set_dirty (ns_staging ns) true)
    now (if dirty (ns_staging ns) then gs_dirty ns else now) (ns_routers ns) (ns_prefixes ns).

(** Replace the store and the staging graph. *)
Definition set_staging (ns : netstate) (st : store) (g : graph) : netstate :=
  NetState st (ns_links ns) (ns_rts ns) (ns_graph ns) (ns_dcache ns) g (gs_mod ns) (gs_dirty ns) (ns_routers ns) (ns_prefixes ns).
Definition set_links (ns : netstate) (links : gmap Z link) : netstate :=
  NetState (ns_store ns) links (ns_rts ns) (ns_graph ns) (ns_dcache ns) (ns_staging ns) (gs_mod ns) (gs_dirty ns)
    (ns_routers ns) (ns_prefixes ns).

(** *** NodeState *)

Record nodestate := NodeState { ne_name : string; ne_addr : string; ne_prefix : option string; ne_pbsid : string }.

(** The loop over the fields of the prefix column. *)
Fixpoint read_prefixes (rt : Z) (vargs : list string) (t : tree) : option (list prefix * tree) :=
  match vargs with
  | [] => Some ([], t)
  | s :: vargs =>
      if nonempty s then
        let p := pref_pton s in
        t ← lpm_insert t (p_addr p) (Z.to_nat (p_len p mod 256)) rt;
        '(ps, t) ← read_prefixes rt vargs t;
        Some (p :: ps, t)
      else read_prefixes rt vargs t
  end.

Definition nodestate_read (now : timeval) (ns : netstate) (e : nodestate) : option (Z * netstate) :=
  match ns_routers ns !! ne_name e with
  | Some _ => Some (-1, ns)
  | None =>
      let rt := heap_top (ns_rts ns) + 1 in
      s ← ne_prefix e;
      vargs ← strsplit s ";";
      '(ps, t) ← read_prefixes rt vargs (ns_prefixes ns);
      let ns := mark_graph_dirty now ns in
      let '(rt_node, st, g) := graph_add_node true (ns_store ns) (ns_staging ns) rt in
      n ← rt_node;
      id ← node_id st n;
      let r := Router (ne_name e) (inet_pton (ne_addr e)) (if nonempty (ne_pbsid e) then Some (pref_pton (ne_pbsid e)) else None) ps id in
      Some (0, NetState st (ns_links ns) (<[rt := r]> (ns_rts ns)) (ns_graph ns) (ns_dcache ns) g (gs_mod ns) (gs_dirty ns)
                 (<[ne_name e := rt]> (ns_routers ns)) t)
  end.

(** *** LinkState *)

Record linkstate := LinkState {
  le_name1 : string; le_addr1 : string; le_name2 : string; le_addr2 : string;
  le_metric : Z; le_bw : Z; le_ava_bw : Z; le_delay : Z
}.

(** [(uint32_t)link_entry->metric ?: UINT32_MAX] *)
Definition entry_metric (e : linkstate) : Z := let m := wrap32 (le_metric e) in if m =? 0 then UINT32_MAX else m.

(** [graph_get_edge_data] on the staging graph with a link on the stack. *)
Definition find_link (ns : netstate) (lp : link) : option (option ptr) :=
  let p := heap_top (ns_links ns) + 1 in
  graph_get_edge_data (g_ops_srdns (ns_rts ns) (<[p := lp]> (ns_links ns))) (ns_store ns) (ns_staging ns) p.

Definition linkstate_read (now : timeval) (ns : netstate) (e : linkstate) : option (Z * netstate) :=
  match ns_routers ns !! le_name1 e, ns_routers ns !! le_name2 e with
  | Some rt1, Some rt2 =>
      r1 ← ns_rts ns !! rt1;
      r2 ← ns_rts ns !! rt2;
      a1 ← inet_pton (le_addr1 e);
      a2 ← inet_pton (le_addr2 e);
      let link := Link a1 a2 (wrap32 (le_bw e)) (wrap32 (le_ava_bw e)) (wrap32 (le_delay e)) in
      let link2 := Link a2 a1 (wrap32 (le_bw e)) (wrap32 (le_ava_bw e)) (wrap32 (le_delay e)) in
      dup ← find_link ns link;
      match dup with
      | Some _ => Some (-1, ns)
      | None =>
          dup2 ← find_link ns link2;
          match dup2 with
          | Some _ => Some (-1, ns)
          | None =>
              let ns := mark_graph_dirty now ns in
              let p1 := heap_top (ns_links ns) + 1 in
              let p2 := heap_top (ns_links ns) + 2 in
              n1 ← graph_get_node_noref (ns_store ns) (ns_staging ns) (rt_node_id r1);
              n2 ← graph_get_node_noref (ns_store ns) (ns_staging ns) (rt_node_id r2);
              n1 ← n1;
              n2 ← n2;
              '(_, st, g) ← graph_add_edge true true (ns_store ns) (ns_staging ns) n1 n2 (entry_metric e) false p1;
              '(_, st, g) ← graph_add_edge true true st g n2 n1 (entry_metric e) false p2;
              Some (0, set_links (set_staging ns st g) (<[p2 := link2]> (<[p1 := link]> (ns_links ns))))
          end
      end
  | _, _ => Some (-1, ns)
  end.

Definition set_metric (st : store) (e : ptr) (metric : Z) : option store :=
  ed ← s_edges st !! e;
  Some (Store (s_nodes st)
          (<[e := GEdge (e_local ed) (e_remote ed) (e_id ed) metric (e_data ed) (e_orphan ed) (e_refcount ed)]> (s_edges st))).

Definition LS_METRIC := 5.
Definition LS_BW := 6.
Definition LS_AVA_BW := 7.
Definition LS_DELAY := 8.

Definition mask_has (fmask i : Z) : bool := negb (Z.land fmask (ENTRY_MASK i) =? 0).

(** A store through a link pointer. *)
Definition upd_link (links : gmap Z link) (p : Z) (f : link -> link) : option (gmap Z link) :=
  l ← links !! p; Some (<[p := f l]> links).

Definition set_lbw (bw : Z) (l : link) : link := Link (l_local l) (l_remote l) bw (l_ava_bw l) (l_delay l).
Definition set_ava_bw (bw : Z) (l : link) : link := Link (l_local l) (l_remote l) (l_bw l) bw (l_delay l).
Definition set_ldelay (d : Z) (l : link) : link := Link (l_local l) (l_remote l) (l_bw l) (l_ava_bw l) d.

(** [link->f = v; link2->f = v;] when the field is in the mask *)
Definition upd_both (b : bool) (links : gmap Z link) (p p2 : Z) (f : link -> link) : option (gmap Z link) :=
  if b then links ← upd_link links p f; upd_link links p2 f else Some links.

Definition linkstate_update (now : timeval) (ns : netstate) (e : linkstate) (fmask : Z) : option (Z * netstate) :=
  a1 ← inet_pton (le_addr1 e);
  a2 ← inet_pton (le_addr2 e);
  let lp1 := Link a1 a2 0 0 0 in
  let lp2 := Link a2 a1 0 0 0 in
  edge ← find_link ns lp1;
  match edge with
  | None => Some (-1, ns)
  | Some edge =>
      ed ← s_edges (ns_store ns) !! edge;
      let link := e_data ed in
      edge2 ← find_link ns lp2;
      match edge2 with
      | None => Some (-1, ns)
      | Some edge2 =>
          let link2 := e_data ed in
          st ← (if mask_has fmask LS_METRIC
                then st ← set_metric (ns_store ns) edge (entry_metric e); set_metric st edge2 (entry_metric e)
                else Some (ns_store ns));
          links ← upd_both (mask_has fmask LS_BW) (ns_links ns) link link2 (set_lbw (wrap32 (le_bw e)));
          links ← upd_both (mask_has fmask LS_AVA_BW) links link link2 (set_ava_bw (wrap32 (le_ava_bw e)));
          links ← upd_both (mask_has fmask LS_DELAY) links link link2 (set_ldelay (wrap32 (le_delay e)));
          Some (0, mark_graph_dirty now (set_links (set_staging ns st (ns_staging ns)) links))
      end
  end.

(** [edge = graph_get_edge_data(...); if (edge) graph_remove_edge(...)] *)
Definition delete_link (ns : netstate) (lp : link) : option netstate :=
  edge ← find_link ns lp;
  match edge with
  | None => Some ns
  | Some edge => '(st, g) ← graph_remove_edge (ns_store ns) (ns_staging ns) edge; Some (set_staging ns st g)
  end.

Definition linkstate_delete (now : timeval) (ns : netstate) (e : linkstate) : option (Z * netstate) :=
  a1 ← inet_pton (le_addr1 e);
  a2 ← inet_pton (le_addr2 e);
  ns ← delete_link ns (Link a1 a2 0 0 0);
  ns ← delete_link ns (Link a2 a1 0 0 0);
  Some (0, mark_graph_dirty now ns).
End handlers.

(** ** Publishing the staging graph *)

Definition edge_datas (st : store) (g : graph) : list Z := omap (fun e => e_data <$> s_edges st !! e) (g_edges g).

Definition netstate_graph_sync (ns : netstate) : option (Z * netstate) :=
  if negb (dirty (ns_staging ns)) then Some (0, ns)
  else
    let ops := g_ops_srdns (ns_rts ns) (ns_links ns) in
    '(st, g) ← graph_deepcopy ops (ns_store ns) (ns_staging ns);
    let links := copy_links (heap_top (ns_links ns)) (edge_datas (ns_store ns) (ns_staging ns)) (ns_links ns) in
    g ← graph_finalize st g;
    dc ← graph_build_cache (graph_view st g) ∅;
    st ← graph_destroy ops st (ns_graph ns) false;
    Some (0, NetState st links (ns_rts ns) g dc (set_dirty (ns_staging ns) false) (gs_mod ns) (gs_dirty ns)
               (ns_routers ns) (ns_prefixes ns)).

(** ** The abstract topology

    What the notifications mean: routers with their node ids, and a list of
    directed links; [tp_pub] is the published link list. *)

Record tlink := TLink {
  tl_local : in6_addr; tl_remote : in6_addr; tl_from : Z; tl_to : Z; tl_metric : Z; tl_bw : Z; tl_ava_bw : Z; tl_delay : Z
}.

Record topo := Topo {
  tp_routers : gmap string Z; tp_last : Z; tp_links : list tlink; tp_pub : list tlink; tp_prefixes : tree
}.

Definition topo_new : topo := Topo ∅ 0 [] [] lpm_new.

Definition same_addr (a b : in6_addr) : bool := memcmp 16 a b =? 0.
Definition joins (a1 a2 : in6_addr) (t : tlink) : bool := same_addr (tl_local t) a1 && same_addr (tl_remote t) a2.

(** The position of the first link from [a1] to [a2]. *)
Fixpoint first_index (P : tlink -> bool) (l : list tlink) : option nat :=
  match l with
  | [] => None
  | t :: l => if P t then Some 0%nat else S <$> first_index P l
  end.
Definition link_index (a1 a2 : in6_addr) (l : list tlink) : option nat := first_index (joins a1 a2) l.

Definition link_delete (a1 a2 : in6_addr) (l : list tlink) : list tlink :=
  match link_index a1 a2 l with Some i => delete i l | None => l end.

Definition tl_set_metric (m : Z) (t : tlink) : tlink :=
  TLink (tl_local t) (tl_remote t) (tl_from t) (tl_to t) m (tl_bw t) (tl_ava_bw t) (tl_delay t).
Definition tl_set_attrs (fmask bw ava_bw delay : Z) (t : tlink) : tlink :=
  TLink (tl_local t) (tl_remote t) (tl_from t) (tl_to t) (tl_metric t)
    (if mask_has fmask LS_BW then bw else tl_bw t)
    (if mask_has fmask LS_AVA_BW then ava_bw else tl_ava_bw t)
    (if mask_has fmask LS_DELAY then delay else tl_delay t).

Inductive event :=
| EvNode (e : nodestate)
| EvLink (e : linkstate)
| EvUpdate (e : linkstate) (fmask : Z)
| EvDelete (e : linkstate)
| EvSync.

Section events.
Context (inet_pton : string -> option in6_addr).

(** The meaning of an event; [None] where the code is undefined (an address
    that does not parse, a prefix the tree does not take, 2^32 nodes). *)
Definition spec_step (tp : topo) (ev : event) : option topo :=
  match ev with
  | EvNode e =>
      match tp_routers tp !! ne_name e with
      | Some _ => Some tp
      | None =>
          if tp_last tp + 1 <? 2 ^ 32 then
            s ← ne_prefix e;
            vargs ← strsplit s ";";
            '(_, t) ← read_prefixes inet_pton (tp_last tp + 1) vargs (tp_prefixes tp);
            Some (Topo (<[ne_name e := tp_last tp + 1]> (tp_routers tp)) (tp_last tp + 1) (tp_links tp) (tp_pub tp) t)
          else None
      end
  | EvLink e =>
      match tp_routers tp !! le_name1 e, tp_routers tp !! le_name2 e with
      | Some i1, Some i2 =>
          a1 ← inet_pton (le_addr1 e);
          a2 ← inet_pton (le_addr2 e);
          match link_index a1 a2 (tp_links tp), link_index a2 a1 (tp_links tp) with
          | None, None =>
              let bw := wrap32 (le_bw e) in let ava := wrap32 (le_ava_bw e) in let delay := wrap32 (le_delay e) in
              Some (Topo (tp_routers tp) (tp_last tp)
                (tp_links tp ++ [TLink a1 a2 i1 i2 (entry_metric e) bw ava delay; TLink a2 a1 i2 i1 (entry_metric e) bw ava delay])
                (tp_pub tp) (tp_prefixes tp))
          | _, _ => Some tp
          end
      | _, _ => Some tp
      end
  | EvUpdate e fmask =>
      a1 ← inet_pton (le_addr1 e);
      a2 ← inet_pton (le_addr2 e);
      match link_index a1 a2 (tp_links tp), link_index a2 a1 (tp_links tp) with
      | Some i, Some j =>
          let l := if mask_has fmask LS_METRIC
                   then alter (tl_set_metric (entry_metric e)) j (alter (tl_set_metric (entry_metric e)) i (tp_links tp))
                   else tp_links tp in
          let l := alter (tl_set_attrs fmask (wrap32 (le_bw e)) (wrap32 (le_ava_bw e)) (wrap32 (le_delay e))) i l in
          Some (Topo (tp_routers tp) (tp_last tp) l (tp_pub tp) (tp_prefixes tp))
      | _, _ => Some tp
      end
  | EvDelete e =>
      a1 ← inet_pton (le_addr1 e);
      a2 ← inet_pton (le_addr2 e);
      Some (Topo (tp_routers tp) (tp_last tp) (link_delete a2 a1 (link_delete a1 a2 (tp_links tp))) (tp_pub tp) (tp_prefixes tp))
  | EvSync => Some (Topo (tp_routers tp) (tp_last tp) (tp_links tp) (tp_links tp) (tp_prefixes tp))
  end.

Definition exec (now : timeval) (ns : netstate) (ev : event) : option netstate :=
  '(_, ns) ← match ev with
             | EvNode e => nodestate_read inet_pton now ns e
             | EvLink e => linkstate_read inet_pton now ns e
             | EvUpdate e fmask => linkstate_update inet_pton now ns e fmask
             | EvDelete e => linkstate_delete inet_pton now ns e
             | EvSync => netstate_graph_sync ns
             end;
  Some ns.

Fixpoint run (ns : netstate) (evs : list (timeval * event)) : option netstate :=
  match evs with [] => Some ns | (now, ev) :: evs => ns ← exec now ns ev; run ns evs end.
Fixpoint spec_run (tp : topo) (evs : list (timeval * event)) : option topo :=
  match evs with [] => Some tp | (_, ev) :: evs => tp ← spec_step tp ev; spec_run tp evs end.
End events.

(** The metric a topology gives a hop: the least one, UINT32_MAX being down. *)
Definition best (l : list tlink) (a b w : Z) : Prop :=
  a <> b /\ w < UINT32_MAX /\ (exists t, t ∈ l /\ tl_from t = a /\ tl_to t = b /\ tl_metric t = w) /\
  forall t, t ∈ l -> tl_from t = a -> tl_to t = b -> w <= tl_metric t.

(** ** Abstraction *)

Definition tl_of (st : store) (links : gmap Z link) (e : ptr) : tlink :=
  match s_edges st !! e with
  | Some ed =>
      match links !! e_data ed with
      | Some l => TLink (l_local l) (l_remote l) (idz st (e_local ed)) (idz st (e_remote ed)) (e_metric ed) (l_bw l) (l_ava_bw l) (l_delay l)
      | None => TLink [] [] 0 0 0 0 0 0
      end
  | None => TLink [] [] 0 0 0 0 0 0
  end.

(** Every edge has its own link object. *)
Record links_ok (st : store) (links : gmap Z link) (es : list ptr) : Prop := {
  lk_some : forall e ed, e ∈ es -> s_edges st !! e = Some ed -> 1 <= e_data ed /\ is_Some (links !! e_data ed);
  lk_own : forall e1 e2 d1 d2, e1 ∈ es -> e2 ∈ es -> s_edges st !! e1 = Some d1 -> s_edges st !! e2 = Some d2 ->
    e_data d1 = e_data d2 -> e1 = e2
}.

Record live_ok (st : store) (links : gmap Z link) (g : graph) (dc : dcache) (pub : list tlink) : Prop := {
  lo_inv : ginv st g;
  lo_closed : maps_closed g;
  lo_view : WfView (graph_view st g);
  lo_cache : cache_ok (graph_view st g) dc;
  lo_wt : forall a b w, wt (graph_view st g) a b = Some w <-> best pub a b w;
  lo_pub : map (tl_of st links) (g_edges g) = pub
}.

Record refines (ns : netstate) (tp : topo) : Prop := {
  rf_wf : wfg (ns_store ns) (ns_staging ns) (g_nodes (ns_graph ns)) (g_edges (ns_graph ns));
  rf_nodes : forall n, n ∈ g_nodes (ns_staging ns) -> n ∉ g_nodes (ns_graph ns);
  rf_edges : forall e, e ∈ g_edges (ns_staging ns) -> e ∉ g_edges (ns_graph ns);
  rf_live : live_ok (ns_store ns) (ns_links ns) (ns_graph ns) (ns_dcache ns) (tp_pub tp);
  rf_data : links_ok (ns_store ns) (ns_links ns) (g_edges (ns_staging ns) ++ g_edges (ns_graph ns));
  rf_links : map (tl_of (ns_store ns) (ns_links ns)) (g_edges (ns_staging ns)) = tp_links tp;
  rf_last : last_node (ns_staging ns) = tp_last tp /\ heap_top (ns_rts ns) = tp_last tp;
  rf_dom : forall name, is_Some (ns_routers ns !! name) <-> is_Some (tp_routers tp !! name);
  rf_routers : forall name p, ns_routers ns !! name = Some p -> exists rt n, ns_rts ns !! p = Some rt /\
    tp_routers tp !! name = Some (rt_node_id rt) /\ n ∈ g_nodes (ns_staging ns) /\ node_id (ns_store ns) n = Some (rt_node_id rt);
  rf_dirty : dirty (ns_staging ns) = false -> tp_pub tp = tp_links tp;
  rf_prefixes : ns_prefixes ns = tp_prefixes tp
}.

(** ** Frame lemmas *)

Lemma heap_top_ge {A} (h : gmap Z A) k v : h !! k = Some v -> k <= heap_top h.
Proof.
  intros Hk. apply elem_of_map_to_list in Hk. unfold heap_top. induction (map_to_list h) as [|[k' v'] l IH]; [by apply not_elem_of_nil in Hk|].
  apply elem_of_cons in Hk as [[= <- <-]|Hk]; simpl; [lia|]. specialize (IH Hk). lia.
Qed.

Lemma heap_top_nonneg {A} (h : gmap Z A) : 0 <= heap_top h.
Proof. unfold heap_top. induction (map_to_list h) as [|[k v] l IH]; simpl; lia. Qed.

Lemma heap_top_insert {A} (h : gmap Z A) v : heap_top (<[heap_top h + 1 := v]> h) = heap_top h + 1.
Proof.
  set (k := heap_top h + 1).
  assert (k <= heap_top (<[k := v]> h)) as H1 by (eapply heap_top_ge, lookup_insert_eq).
  assert (heap_top (<[k := v]> h) <= k) as H2; [|lia].
  unfold heap_top at 1. pose proof (heap_top_nonneg h).
  assert (Forall (fun kv => kv.1 <= k) (map_to_list (<[k := v]> h))) as HF.
  { apply Forall_forall. intros [k' v'] Hin%elem_of_map_to_list. apply lookup_insert_Some in Hin as [[<- _]|[_ Hin]]; [simpl; lia|].
    apply heap_top_ge in Hin. simpl. lia. }
  induction HF as [|kv l Hkv _ IH]; simpl; lia.
Qed.

(** An edge outside the change keeps its meaning. *)
Lemma tl_of_frame (st st' : store) (links links' : gmap Z link) (g : graph) e :
  ginv st g -> gframe g st st' -> e ∈ g_edges g ->
  (forall ed, s_edges st !! e = Some ed -> links' !! e_data ed = links !! e_data ed) ->
  tl_of st' links' e = tl_of st links e.
Proof.
  intros G F He Hl. destruct (proj2 F e He) as (ed & ed' & Hed & Hed' & H1 & H2 & _ & H4 & H5 & _).
  destruct (gi_edge _ _ G e He) as (? & ? & _ & Hln & Hrn & _). simplify_eq. unfold tl_of. rewrite Hed, Hed', <- H1, <- H2, <- H4, <- H5, Hl by done.
  by rewrite !(gframe_idz g st st').
Qed.

Lemma tl_map_frame (st st' : store) (links links' : gmap Z link) (g : graph) :
  ginv st g -> gframe g st st' ->
  (forall e ed, e ∈ g_edges g -> s_edges st !! e = Some ed -> links' !! e_data ed = links !! e_data ed) ->
  map (tl_of st' links') (g_edges g) = map (tl_of st links) (g_edges g).
Proof.
  intros G F Hl. apply map_ext_in. intros e He%list_elem_of_In. eapply tl_of_frame; [done|done|done|]. intros. by eapply Hl.
Qed.

Lemma live_ok_frame st st' links links' g dc pub :
  live_ok st links g dc pub -> gframe g st st' ->
  (forall e ed, e ∈ g_edges g -> s_edges st !! e = Some ed -> links' !! e_data ed = links !! e_data ed) ->
  live_ok st' links' g dc pub.
Proof.
  intros [G C V DC Hwt Hp] F Hl. pose proof (gframe_view g st st' G C F) as Hv.
  split; [by eapply gframe_ginv|done|by rewrite Hv|by rewrite Hv|by rewrite Hv|].
  rewrite <- Hp. by apply tl_map_frame.
Qed.

Lemma wfg_set_dirty st g b xn xe : wfg st g xn xe -> wfg st (set_dirty g b) xn xe.
Proof. intros [[H1 H2 H3 H4 H5 H6] R]. split; [by split|done]. Qed.

Lemma mark_refines now ns tp : refines ns tp -> refines (mark_graph_dirty now ns) tp.
Proof. intros [H1 H2 H3 H4 H5 H6 H7 H8 H9 H10 H11]. split; try done. by apply wfg_set_dirty. Qed.

Lemma refines_live_in ns tp :
  refines ns tp -> (forall n, n ∈ g_nodes (ns_graph ns) -> n ∈ g_nodes (ns_staging ns) ++ g_nodes (ns_graph ns)) /\
    (forall e, e ∈ g_edges (ns_graph ns) -> e ∈ g_edges (ns_staging ns) ++ g_edges (ns_graph ns)).
Proof. intros _. split; intros; apply elem_of_app; by right. Qed.

(** ** Finding links *)

Lemma find_edge_index st (f : gedge -> bool) (P : tlink -> bool) (tl : ptr -> tlink) es :
  (forall e, e ∈ es -> exists ed, s_edges st !! e = Some ed /\ f ed = P (tl e)) ->
  exists r, find_edge st f es = Some r /\
    match r, first_index P (map tl es) with
    | Some e, Some i => es !! i = Some e
    | None, None => True
    | _, _ => False
    end.
Proof.
  induction es as [|e es IH]; intros H; [by exists None|]. cbn [find_edge map first_index]. destruct (H e) as (ed & Hed & Hf); [by left|].
  rewrite Hed. cbn [mbind option_bind]. rewrite Hf. destruct (P (tl e)); [by exists (Some e)|].
  destruct IH as (r & -> & Hr); [intros; apply H; by right|]. exists r. split; [done|]. by destruct r, (first_index P (map tl es)).
Qed.

Lemma find_link_index ns tp a1 a2 bw ava delay :
  refines ns tp -> exists r, find_link ns (Link a1 a2 bw ava delay) = Some r /\
    match r, link_index a1 a2 (tp_links tp) with
    | Some e, Some i => g_edges (ns_staging ns) !! i = Some e
    | None, None => True
    | _, _ => False
    end.
Proof.
  intros R. unfold find_link, graph_get_edge_data. unfold link_index. rewrite <- (rf_links _ _ R). apply find_edge_index.
  intros e He. destruct (gi_edge _ _ (proj1 (rf_wf _ _ R)) e He) as (ed & Hed & _). exists ed. split; [done|].
  destruct (lk_some _ _ _ (rf_data _ _ R) e ed) as (_ & l & Hl); [apply elem_of_app; by left|done|].
  pose proof (heap_top_ge _ _ _ Hl). unfold g_ops_srdns. cbn [edge_data_equals]. unfold link_edge_data_equals, tl_of.
  rewrite lookup_insert_ne, lookup_insert_eq, Hed, Hl by lia. done.
Qed.

(** ** Changing one edge *)

Lemma map_alter_one (f f' : ptr -> tlink) (h : tlink -> tlink) es i e :
  NoDup es -> es !! i = Some e -> f' e = h (f e) -> (forall x, x ∈ es -> x <> e -> f' x = f x) -> map f' es = alter h i (map f es).
Proof.
  intros Hnd Hi He Hne. apply list_eq. intros k. rewrite list_lookup_fmap.
  destruct (decide (k = i)) as [->|Hk].
  - rewrite list_lookup_alter_eq, list_lookup_fmap, Hi. simpl. by rewrite He.
  - rewrite list_lookup_alter_ne, list_lookup_fmap by done. destruct (es !! k) as [x|] eqn:Hx; [|done]. simpl. f_equal.
    apply Hne; [by eapply list_elem_of_lookup_2|]. intros ->. apply Hk. by eapply NoDup_lookup.
Qed.

Definition with_metric (ed : gedge) (m : Z) : gedge :=
  GEdge (e_local ed) (e_remote ed) (e_id ed) m (e_data ed) (e_orphan ed) (e_refcount ed).

Lemma set_metric_wf st g xn xe e m :
  wfg st g xn xe -> e ∈ g_edges g -> 0 <= m <= UINT32_MAX ->
  exists ed st', s_edges st !! e = Some ed /\ set_metric st e m = Some st' /\ wfg st' g xn xe /\
    s_nodes st' = s_nodes st /\ s_edges st' = <[e := with_metric ed m]> (s_edges st).
Proof.
  intros [G R] He Hm. destruct (gi_edge _ _ G e He) as (ed & Hed & Ho & Hln & Hrn & _). unfold set_metric. rewrite Hed.
  cbn [mbind option_bind]. eexists ed, _. split; [done|]. split; [done|]. split; [|done]. split; split; simpl; try apply G.
  - intros x Hx. destruct (decide (x = e)) as [->|Hne].
    + rewrite lookup_insert_eq. eexists. split; [reflexivity|]. simpl. split_and!; (done || lia).
    + rewrite lookup_insert_ne by done. by apply (gi_edge _ _ G).
  - intros n nd Hn. rewrite (refs_update _ e ed) by done. by apply (ri_node _ _ _ R).
  - intros x xd. rewrite lookup_insert_Some. intros [[<- <-]|[_ Hx]]; [by apply (ri_edge _ _ _ R e ed)|by apply (ri_edge _ _ _ R)].
  - apply (ri_ln _ _ _ R).
  - intros x Hx. apply lookup_insert_is_Some'. right. by apply (ri_le _ _ _ R).
Qed.

Lemma entry_metric_range e : 0 <= entry_metric e <= UINT32_MAX.
Proof. unfold entry_metric, UINT32_MAX. pose proof (wrap32_range (le_metric e)). destruct (_ =? 0); lia. Qed.

Definition with_links (tp : topo) (l : list tlink) : topo := Topo (tp_routers tp) (tp_last tp) l (tp_pub tp) (tp_prefixes tp).

(** The staging graph changes its edges' contents, or loses edges, next to an
    unchanged live graph. *)
Lemma refines_change ns tp st' links' g' tl' :
  refines ns tp -> wfg st' g' (g_nodes (ns_graph ns)) (g_edges (ns_graph ns)) ->
  g_nodes g' = g_nodes (ns_staging ns) -> (forall e, e ∈ g_edges g' -> e ∈ g_edges (ns_staging ns)) ->
  last_node g' = last_node (ns_staging ns) -> dirty g' = true ->
  nodes_kept (ns_store ns) st' ->
  (forall e, e ∈ g_edges (ns_graph ns) -> s_edges st' !! e = s_edges (ns_store ns) !! e) ->
  (forall e ed, e ∈ g_edges (ns_graph ns) -> s_edges (ns_store ns) !! e = Some ed -> links' !! e_data ed = ns_links ns !! e_data ed) ->
  links_ok st' links' (g_edges g' ++ g_edges (ns_graph ns)) ->
  map (tl_of st' links') (g_edges g') = tl' ->
  refines (set_links (set_staging ns st' g') links') (with_links tp tl').
Proof.
  intros [W Nn Ne L D K LN RD RR _ RP] W' HN HE HL Hd KN KE KL D' M.
  assert (gframe (ns_graph ns) (ns_store ns) st') as F.
  { destruct W' as [_ R']. eapply gframe_of; [apply L|exact R'|intros; apply elem_of_app; by right..| |done]. intros. by eapply KN. }
  split; cbn [ns_store ns_links ns_rts ns_graph ns_dcache ns_staging ns_routers ns_prefixes set_links set_staging tp_routers tp_last tp_links tp_pub tp_prefixes with_links].
  - done.
  - intros n. rewrite HN. apply Nn.
  - intros e He. apply Ne, HE, He.
  - by eapply live_ok_frame.
  - done.
  - done.
  - rewrite HL. done.
  - done.
  - intros name p Hp. destruct (RR name p Hp) as (rt & n & H1 & H2 & H3 & H4). exists rt, n. rewrite HN. split_and!; [done|done|done|].
    destruct W' as [_ R']. destruct (ri_ln _ _ _ R' n) as [nd' Hnd']; [rewrite HN; apply elem_of_app; by left|].
    destruct (KN n nd' Hnd') as (nd & Hnd & Hid & _). unfold node_id in *. rewrite Hnd in H4. rewrite Hnd'. simpl in *. congruence.
  - congruence.
  - done.
Qed.

Lemma nodes_kept_eq st st' : s_nodes st' = s_nodes st -> nodes_kept st st'.
Proof. intros E n nd Hn. exists nd. rewrite <- E. done. Qed.

Lemma idz_nodes st st' n : s_nodes st' = s_nodes st -> idz st' n = idz st n.
Proof. intros E. unfold idz, node_id. by rewrite E. Qed.

Lemma metric_refines ns tp e i m :
  refines ns tp -> dirty (ns_staging ns) = true -> g_edges (ns_staging ns) !! i = Some e -> 0 <= m <= UINT32_MAX ->
  exists ed st', s_edges (ns_store ns) !! e = Some ed /\ set_metric (ns_store ns) e m = Some st' /\
    s_edges st' = <[e := with_metric ed m]> (s_edges (ns_store ns)) /\
    refines (set_links (set_staging ns st' (ns_staging ns)) (ns_links ns)) (with_links tp (alter (tl_set_metric m) i (tp_links tp))).
Proof.
  intros R Hd Hi Hm. pose proof R as [W Nn Ne L [D1 D2] K _ _ _ _ _]. assert (e ∈ g_edges (ns_staging ns)) as He by (by eapply list_elem_of_lookup_2).
  destruct (set_metric_wf _ _ _ _ e m W He Hm) as (ed & st' & Hed & Hs & W' & HN & HE). exists ed, st'. split_and!; [done|done|done|].
  assert (forall x xd', s_edges st' !! x = Some xd' -> exists xd, s_edges (ns_store ns) !! x = Some xd /\ e_data xd' = e_data xd) as Hdata.
  { intros x xd'. rewrite HE, lookup_insert_Some. intros [[<- <-]|[_ Hx]]; [by exists ed|by exists xd']. }
  apply refines_change; try done.
  - by apply nodes_kept_eq.
  - intros x Hx. rewrite HE. apply lookup_insert_ne. intros <-. by eapply Ne.
  - split.
    + intros x xd' Hx Hxd'. destruct (Hdata _ _ Hxd') as (xd & Hxd & ->). by eapply D1.
    + intros x1 x2 d1 d2 Hx1 Hx2 H1 H2 Hdd. destruct (Hdata _ _ H1) as (y1 & Hy1 & E1). destruct (Hdata _ _ H2) as (y2 & Hy2 & E2).
      apply (D2 x1 x2 y1 y2); try done. congruence.
  - rewrite <- K. apply (map_alter_one _ _ _ _ _ e); [apply W|done| |].
    + destruct (D1 e ed) as (_ & l & Hl); [apply elem_of_app; by left|done|]. unfold tl_of. rewrite HE, lookup_insert_eq, Hed. simpl. rewrite Hl.
      unfold tl_set_metric. simpl. by rewrite !(idz_nodes (ns_store ns) st').
    + intros x Hx Hne. unfold tl_of. rewrite HE, lookup_insert_ne by done.
      destruct (s_edges (ns_store ns) !! x); [|done]. destruct (ns_links ns !! _); [|done]. by rewrite !(idz_nodes (ns_store ns) st').
Qed.

Lemma attrs_refines ns tp e i ed l l' h :
  refines ns tp -> dirty (ns_staging ns) = true -> g_edges (ns_staging ns) !! i = Some e -> s_edges (ns_store ns) !! e = Some ed ->
  ns_links ns !! e_data ed = Some l ->
  (forall f t m, h (TLink (l_local l) (l_remote l) f t m (l_bw l) (l_ava_bw l) (l_delay l)) =
     TLink (l_local l') (l_remote l') f t m (l_bw l') (l_ava_bw l') (l_delay l')) ->
  refines (set_links (set_staging ns (ns_store ns) (ns_staging ns)) (<[e_data ed := l']> (ns_links ns))) (with_links tp (alter h i (tp_links tp))).
Proof.
  intros R Hd Hi Hed Hl Hh. pose proof R as [W Nn Ne L [D1 D2] K _ _ _ _ _]. assert (e ∈ g_edges (ns_staging ns)) as He by (by eapply list_elem_of_lookup_2).
  assert (forall x xd, x ∈ g_edges (ns_staging ns) ++ g_edges (ns_graph ns) -> x <> e -> s_edges (ns_store ns) !! x = Some xd -> e_data xd <> e_data ed) as Hne.
  { intros x xd Hx Hxe Hxd E. apply Hxe. apply (D2 x e xd ed); try done. apply elem_of_app. by left. }
  apply refines_change; try done.
  - by apply nodes_kept_eq.
  - intros x xd Hx Hxd. apply lookup_insert_ne. apply not_eq_sym. apply (Hne x); [apply elem_of_app; by right| |done]. intros ->. by eapply Ne.
  - split; [|done]. intros x xd Hx Hxd. split; [by eapply D1|]. apply lookup_insert_is_Some'. right. by eapply D1.
  - rewrite <- K. apply (map_alter_one _ _ _ _ _ e); [apply W|done| |].
    + unfold tl_of. rewrite Hed, lookup_insert_eq, Hl. by rewrite Hh.
    + intros x Hx Hxe. unfold tl_of. destruct (s_edges (ns_store ns) !! x) as [xd|] eqn:Hxd; [|done].
      rewrite lookup_insert_ne; [done|]. apply not_eq_sym. apply (Hne x); [apply elem_of_app; by left|done|done].
Qed.

Lemma upd_both_same b (links : gmap Z link) p l f :
  links !! p = Some l -> (forall x, f (f x) = f x) ->
  upd_both b links p p f = Some (<[p := if b then f l else l]> links).
Proof.
  intros Hl Hf. unfold upd_both, upd_link. destruct b; [|by rewrite insert_id].
  rewrite Hl. cbn [mbind option_bind]. rewrite lookup_insert_eq. cbn [mbind option_bind]. by rewrite Hf, insert_insert_eq.
Qed.

Definition link_attrs (fmask bw ava_bw delay : Z) (l : link) : link :=
  Link (l_local l) (l_remote l) (if mask_has fmask LS_BW then bw else l_bw l)
    (if mask_has fmask LS_AVA_BW then ava_bw else l_ava_bw l) (if mask_has fmask LS_DELAY then delay else l_delay l).

Lemma upd_attrs fmask (links : gmap Z link) p l bw ava delay :
  links !! p = Some l ->
  (links ← upd_both (mask_has fmask LS_BW) links p p (set_lbw bw);
   links ← upd_both (mask_has fmask LS_AVA_BW) links p p (set_ava_bw ava);
   upd_both (mask_has fmask LS_DELAY) links p p (set_ldelay delay)) = Some (<[p := link_attrs fmask bw ava delay l]> links).
Proof.
  intros Hl. rewrite (upd_both_same _ _ _ l) by done. cbn [mbind option_bind].
  erewrite upd_both_same; [|apply lookup_insert_eq|done]. cbn [mbind option_bind].
  erewrite upd_both_same; [|apply lookup_insert_eq|done]. rewrite !insert_insert_eq. do 2 f_equal. unfold link_attrs, set_lbw, set_ava_bw, set_ldelay.
  destruct l, (mask_has fmask LS_BW), (mask_has fmask LS_AVA_BW), (mask_has fmask LS_DELAY); done.
Qed.

Section steps.
Context (inet_pton : string -> option in6_addr).

Lemma linkstate_update_refines now ns tp e fmask tp' :
  refines ns tp -> spec_step inet_pton tp (EvUpdate e fmask) = Some tp' ->
  exists r ns', linkstate_update inet_pton now ns e fmask = Some (r, ns') /\ refines ns' tp'.
Proof.
  intros R. unfold spec_step, linkstate_update. destruct (inet_pton (le_addr1 e)) as [a1|]; cbn [mbind option_bind]; [|done].
  destruct (inet_pton (le_addr2 e)) as [a2|]; cbn [mbind option_bind]; [|done].
  destruct (find_link_index ns tp a1 a2 0 0 0 R) as (r1 & -> & Hr1). destruct (find_link_index ns tp a2 a1 0 0 0 R) as (r2 & Hf2 & Hr2).
  cbn [mbind option_bind]. destruct r1 as [e1|], (link_index a1 a2 (tp_links tp)) as [i|]; try done.
  2:{ intros [= <-]. eexists _, ns. split; [done|done]. }
  pose proof R as [[G _] _ _ _ [D1 _] _ _ _ _ _ _]. assert (e1 ∈ g_edges (ns_staging ns)) as He1 by (by eapply list_elem_of_lookup_2).
  destruct (gi_edge _ _ G e1 He1) as (ed & Hed & _). rewrite Hed. cbn [mbind option_bind]. rewrite Hf2. cbn [mbind option_bind].
  destruct r2 as [e2|], (link_index a2 a1 (tp_links tp)) as [j|]; try done.
  2:{ intros [= <-]. eexists _, ns. split; [done|done]. }
  intros [= <-]. destruct (D1 e1 ed) as (_ & l & Hl); [apply elem_of_app; by left|done|].
  pose proof (mark_refines now ns tp R) as Rm. set (nm := mark_graph_dirty now ns) in *.
  set (links' := <[e_data ed := link_attrs fmask (wrap32 (le_bw e)) (wrap32 (le_ava_bw e)) (wrap32 (le_delay e)) l]> (ns_links ns)).
  assert (forall (K : gmap Z link -> option (Z * netstate)),
    (links ← upd_both (mask_has fmask LS_BW) (ns_links ns) (e_data ed) (e_data ed) (set_lbw (wrap32 (le_bw e)));
     links ← upd_both (mask_has fmask LS_AVA_BW) links (e_data ed) (e_data ed) (set_ava_bw (wrap32 (le_ava_bw e)));
     links ← upd_both (mask_has fmask LS_DELAY) links (e_data ed) (e_data ed) (set_ldelay (wrap32 (le_delay e))); K links) = K links') as HK.
  { intros K. pose proof (upd_attrs fmask (ns_links ns) (e_data ed) l (wrap32 (le_bw e)) (wrap32 (le_ava_bw e)) (wrap32 (le_delay e)) Hl) as Hu.
    destruct (upd_both _ (ns_links ns) _ _ _) as [k1|]; cbn [mbind option_bind] in *; [|done].
    destruct (upd_both _ k1 _ _ _) as [k2|]; cbn [mbind option_bind] in *; [|done]. by rewrite Hu. }
  set (h := tl_set_attrs fmask (wrap32 (le_bw e)) (wrap32 (le_ava_bw e)) (wrap32 (le_delay e))).
  destruct (mask_has fmask LS_METRIC).
  - pose proof (entry_metric_range e) as Hm.
    destruct (metric_refines nm tp e1 i (entry_metric e) Rm eq_refl Hr1 Hm) as (ed1 & s1 & Hed1 & Hs1 & HE1 & R1).
    set (n1 := set_links (set_staging nm s1 (ns_staging nm)) (ns_links nm)) in *.
    destruct (metric_refines n1 _ e2 j (entry_metric e) R1 eq_refl Hr2 Hm) as (ed2 & s2 & Hed2 & Hs2 & HE2 & R2).
    change (ns_store nm) with (ns_store ns) in *. change (ns_store n1) with s1 in *. rewrite Hs1. cbn [mbind option_bind]. rewrite Hs2. cbn [mbind option_bind].
    rewrite HK. eexists _, _. split; [reflexivity|].
    assert (exists ed', s_edges s2 !! e1 = Some ed' /\ e_data ed' = e_data ed) as (ed' & Hed' & Hdd).
    { rewrite HE2. destruct (decide (e2 = e1)) as [->|Hne].
      - rewrite lookup_insert_eq. eexists. split; [done|]. simpl. rewrite HE1, lookup_insert_eq in Hed2. simplify_eq. simpl. congruence.
      - rewrite lookup_insert_ne, HE1, lookup_insert_eq by done. eexists. split; [done|]. simpl. congruence. }
    pose proof (attrs_refines _ _ e1 i ed' l (link_attrs fmask (wrap32 (le_bw e)) (wrap32 (le_ava_bw e)) (wrap32 (le_delay e)) l) h
      R2 eq_refl Hr1 Hed') as Rf. rewrite Hdd in Rf. by apply Rf.
  - cbn [mbind option_bind]. rewrite HK. eexists _, _. split; [reflexivity|].
    refine (attrs_refines nm tp e1 i ed l _ h Rm eq_refl Hr1 Hed Hl _). done.
Qed.

Lemma remove_ptr_delete e es i : NoDup es -> es !! i = Some e -> remove_ptr e es = delete i es.
Proof.
  intros Hnd. revert i. induction Hnd as [|x es Hx Hnd IH]; intros i Hi; [done|]. cbn [remove_ptr]. destruct i as [|i]; simpl in Hi.
  - simplify_eq. by rewrite bool_decide_true.
  - rewrite bool_decide_false by (intros ->; apply Hx; by eapply list_elem_of_lookup_2). simpl. f_equal. by apply IH.
Qed.

Lemma map_delete {A B} (f : A -> B) (l : list A) i : map f (delete i l) = delete i (map f l).
Proof. revert i. induction l as [|x l IH]; intros [|i]; simpl; [done..|]. f_equal. apply IH. Qed.

Lemma delete_link_refines ns tp a1 a2 :
  refines ns tp -> exists ns', delete_link ns (Link a1 a2 0 0 0) = Some ns' /\ refines ns' (with_links tp (link_delete a1 a2 (tp_links tp))).
Proof.
  intros R. unfold delete_link, link_delete. destruct (find_link_index ns tp a1 a2 0 0 0 R) as (r & -> & Hr). cbn [mbind option_bind].
  destruct r as [e|], (link_index a1 a2 (tp_links tp)) as [i|]; try done; [|exists ns; split; [done|by destruct tp]].
  pose proof R as [W Nn Ne L [D1 D2] K _ _ _ _ _]. assert (e ∈ g_edges (ns_staging ns)) as He by (by eapply list_elem_of_lookup_2).
  destruct (graph_remove_edge_wf (ns_store ns) (ns_staging ns) _ _ e W) as (st' & g' & Hrm & W' & HN & HE & HS & HK).
  rewrite Hrm. cbn [mbind option_bind]. eexists. split; [done|].
  assert (g' = set_lists (ns_staging ns) (g_nodes (ns_staging ns)) (remove_ptr e (g_edges (ns_staging ns)))) as Hg.
  { unfold graph_remove_edge in Hrm. rewrite bool_decide_true in Hrm by done. destruct (s_edges _ !! e); simpl in Hrm; [|done].
    by destruct (edge_release _ e); simplify_eq/=. }
  assert (forall x, x ∈ g_edges g' ++ g_edges (ns_graph ns) -> x ∈ g_edges (ns_staging ns) ++ g_edges (ns_graph ns) /\ x <> e) as Hin.
  { intros x [[Hx ?]%HE|Hx]%elem_of_app; (split; [apply elem_of_app; auto|]); [done|]. intros ->. by eapply Ne. }
  apply (refines_change ns tp st' (ns_links ns) g' _ R W' HN); try done.
  - intros x [Hx _]%HE. done.
  - by rewrite Hg.
  - by rewrite Hg.
  - intros x Hx. apply HS. intros ->. by eapply Ne.
  - split.
    + intros x xd Hx Hxd. apply Hin in Hx as [Hx Hne]. rewrite HS in Hxd by done. by eapply D1.
    + intros x1 x2 d1 d2 [Hx1 N1]%Hin [Hx2 N2]%Hin H1 H2. rewrite HS in H1, H2 by done. by apply D2.
  - rewrite <- K, <- map_delete, <- (remove_ptr_delete e) by (done || apply W). rewrite Hg. cbn [g_edges set_lists].
    apply map_ext_in. intros x Hx%list_elem_of_In. apply remove_ptr_elem in Hx as [Hx Hne]; [|apply W]. unfold tl_of. rewrite HS by done.
    destruct (gi_edge _ _ (proj1 W) x Hx) as (xd & Hxd & _ & Hl & Hr' & _). rewrite Hxd. destruct (ns_links ns !! _); [|done].
    assert (forall n, n ∈ g_nodes (ns_staging ns) -> idz st' n = idz (ns_store ns) n) as Hid.
    { intros n Hn. destruct W' as [_ R']. destruct (ri_ln _ _ _ R' n) as [nd' Hnd']; [rewrite HN; apply elem_of_app; by left|].
      destruct (HK n nd' Hnd') as (nd & Hnd & Hi' & _). unfold idz, node_id. rewrite Hnd, Hnd'. simpl. congruence. }
    by rewrite !Hid.
Qed.

Lemma linkstate_delete_refines now ns tp e tp' :
  refines ns tp -> spec_step inet_pton tp (EvDelete e) = Some tp' ->
  exists r ns', linkstate_delete inet_pton now ns e = Some (r, ns') /\ refines ns' tp'.
Proof.
  intros R. unfold spec_step, linkstate_delete. destruct (inet_pton (le_addr1 e)) as [a1|]; cbn [mbind option_bind]; [|done].
  destruct (inet_pton (le_addr2 e)) as [a2|]; cbn [mbind option_bind]; [|done]. intros [= <-].
  destruct (delete_link_refines ns tp a1 a2 R) as (n1 & -> & R1). cbn [mbind option_bind].
  destruct (delete_link_refines n1 _ a2 a1 R1) as (n2 & -> & R2). cbn [mbind option_bind].
  eexists _, _. split; [done|]. apply mark_refines. exact R2.
Qed.

(** *** Routers *)

Lemma nodestate_read_refines now ns tp e tp' :
  refines ns tp -> spec_step inet_pton tp (EvNode e) = Some tp' ->
  exists r ns', nodestate_read inet_pton now ns e = Some (r, ns') /\ refines ns' tp'.
Proof.
  intros R. pose proof R as [W Nn Ne L D K [HL HT] RD RR _ RP]. unfold spec_step, nodestate_read.
  destruct (ns_routers ns !! ne_name e) as [p|] eqn:Ep.
  { destruct (RR _ _ Ep) as (rt & n & _ & -> & _). intros [= <-]. by eexists _, ns. }
  assert (tp_routers tp !! ne_name e = None) as Et.
  { destruct (tp_routers tp !! ne_name e) eqn:E; [|done]. assert (is_Some (ns_routers ns !! ne_name e)) as [? ?] by (apply RD; by eexists). congruence. }
  rewrite Et, HT. destruct (Z.ltb_spec (tp_last tp + 1) (2 ^ 32)) as [Hlt|]; [|done].
  destruct (ne_prefix e) as [s|]; cbn [mbind option_bind]; [|done]. destruct (strsplit s ";") as [vargs|]; cbn [mbind option_bind]; [|done].
  rewrite RP. destruct (read_prefixes _ _ vargs (tp_prefixes tp)) as [[ps t]|]; cbn [mbind option_bind]; [|done]. intros [= <-].
  pose proof (mark_refines now ns tp R) as Rm. set (nm := mark_graph_dirty now ns) in *. clear R.
  pose proof Rm as [W' _ _ L' D' K' [HL' HT'] _ _ _ _].
  destruct (graph_add_node_wf (ns_store nm) (ns_staging nm) _ _ (tp_last tp + 1) W') as (n & st & g & Hadd & W2 & Hfr & HN & HE & Hgn & Hge & Hgl); [lia|].
  assert (dirty g = true) as Hgd by (unfold graph_add_node in Hadd; by simplify_eq).
  rewrite Hadd. cbn [mbind option_bind]. assert (node_id st n = Some (tp_last tp + 1)) as Hid.
  { unfold node_id. rewrite HN, lookup_insert_eq. simpl. f_equal. lia. }
  rewrite Hid. cbn [mbind option_bind]. eexists _, _. split; [done|].
  assert (forall m nd, s_nodes (ns_store nm) !! m = Some nd -> s_nodes st !! m = Some nd) as Hold.
  { intros m nd Hm. rewrite HN, lookup_insert_ne; [done|]. intros ->. congruence. }
  assert (forall g0, ginv (ns_store nm) g0 -> gframe g0 (ns_store nm) st) as HF.
  { intros g0 G0. split.
    - intros m Hm. destruct (gi_node _ _ G0 m Hm) as (nd & Hnd & _). exists nd, nd. split_and!; [done|by apply Hold|done].
    - intros x Hx. destruct (gi_edge _ _ G0 x Hx) as (xd & Hxd & _). exists xd, xd. rewrite HE. by split_and!. }
  split; cbn [ns_store ns_links ns_rts ns_graph ns_dcache ns_staging ns_routers ns_prefixes tp_routers tp_last tp_links tp_pub tp_prefixes].
  - done.
  - intros m. rewrite Hgn. intros [Hm| ->%list_elem_of_singleton]%elem_of_app; [by apply Nn|]. intros Hin.
    destruct (gi_node _ _ (lo_inv _ _ _ _ _ L) _ Hin) as (nd & Hnd & _). change (ns_store nm) with (ns_store ns) in Hfr. congruence.
  - rewrite Hge. done.
  - eapply live_ok_frame; [exact L'|apply HF, L'|done].
  - rewrite Hge. destruct D as [D1 D2]. split; intros *; rewrite HE; [apply D1|apply D2].
  - rewrite Hge, <- K'. apply tl_map_frame; [apply W'|apply HF, W'|done].
  - split; [lia|]. change (ns_rts nm) with (ns_rts ns). rewrite <- HT. apply heap_top_insert.
  - intros name. rewrite !lookup_insert_is_Some'. change (ns_routers nm) with (ns_routers ns). by rewrite RD.
  - intros name p. change (ns_routers nm) with (ns_routers ns). change (ns_rts nm) with (ns_rts ns). rewrite lookup_insert_Some. intros [[<- <-]|[Hne Hp]].
    + eexists _, n. rewrite !lookup_insert_eq. split; [done|]. simpl. split_and!; [done| |done]. rewrite Hgn. apply elem_of_app. right. by left.
    + destruct (RR name p Hp) as (rt & m & H1 & H2 & H3 & H4). exists rt, m. pose proof (heap_top_ge _ _ _ H1).
      rewrite !lookup_insert_ne by (done || lia). split_and!; [done|done|rewrite Hgn; apply elem_of_app; by left|].
      unfold node_id in *. destruct (s_nodes (ns_store ns) !! m) as [md|] eqn:Hmd; simpl in H4; [|done]. by rewrite (Hold m md Hmd).
  - congruence.
  - done.
Qed.

(** *** Links *)

Lemma find_staging_node ns tp name p rt i :
  refines ns tp -> ns_routers ns !! name = Some p -> ns_rts ns !! p = Some rt -> tp_routers tp !! name = Some i ->
  rt_node_id rt = i /\ exists n, graph_get_node_noref (ns_store ns) (ns_staging ns) (rt_node_id rt) = Some (Some n) /\
    n ∈ g_nodes (ns_staging ns) /\ idz (ns_store ns) n = i.
Proof.
  intros R Hp Hrt Hi. destruct (rf_routers _ _ R name p Hp) as (rt' & m & Hrt' & Hi' & Hm & Hmi). simplify_eq. split; [done|].
  destruct (find_node_some (ns_store ns) (fun n => n_id n =? rt_node_id rt) (g_nodes (ns_staging ns))) as (n & nd & Hf & Hn & Hnd & Hid).
  { intros n Hn. destruct (gi_node _ _ (proj1 (rf_wf _ _ R)) n Hn) as (nd & ? & _). by exists nd. }
  { unfold node_id in Hmi. destruct (s_nodes (ns_store ns) !! m) as [md|] eqn:Hmd; simpl in Hmi; [|done]. exists m, md. split_and!; [done|done|].
    apply Z.eqb_eq. congruence. }
  exists n. split_and!; [done|done|]. unfold idz, node_id. rewrite Hnd. simpl. by apply Z.eqb_eq.
Qed.

(** Two new edges with fresh links. *)
Lemma add_links_refines ns tp n1 n2 m l1 l2 :
  refines ns tp -> dirty (ns_staging ns) = true -> n1 ∈ g_nodes (ns_staging ns) -> n2 ∈ g_nodes (ns_staging ns) -> 0 <= m <= UINT32_MAX ->
  let p1 := heap_top (ns_links ns) + 1 in
  let p2 := heap_top (ns_links ns) + 2 in
  let tl i j l := TLink (l_local l) (l_remote l) i j m (l_bw l) (l_ava_bw l) (l_delay l) in
  let i1 := idz (ns_store ns) n1 in
  let i2 := idz (ns_store ns) n2 in
  exists r1 s1 g1 r2 s2 g2,
    graph_add_edge true true (ns_store ns) (ns_staging ns) n1 n2 m false p1 = Some (r1, s1, g1) /\
    graph_add_edge true true s1 g1 n2 n1 m false p2 = Some (r2, s2, g2) /\
    refines (set_links (set_staging ns s2 g2) (<[p2 := l2]> (<[p1 := l1]> (ns_links ns))))
      (with_links tp (tp_links tp ++ [tl i1 i2 l1; tl i2 i1 l2])).
Proof.
  intros R Hd Hn1 Hn2 Hm p1 p2 tl i1 i2. pose proof R as [W Nn Ne L [D1 D2] K [HL HT] RD RR _ RP].
  unfold graph_add_edge. cbn [mbind option_bind].
  destruct (add_edge_one_wf _ _ _ _ n1 n2 m p1 W Hn1 Hn2 Hm) as (e1 & s1 & g1 & Ha1 & W1 & Hfr1 & HN1 & HE1 & HL1 & (ed1 & Hed1 & A1 & B1 & C1 & X1) & HS1 & KN1).
  destruct (add_edge_one_wf _ _ _ _ n2 n1 m p2 W1) as (e2 & s2 & g2 & Ha2 & W2 & Hfr2 & HN2 & HE2 & HL2 & (ed2 & Hed2 & A2 & B2 & C2 & X2) & HS2 & KN2);
    [by rewrite HN1..|done|].
  assert (dirty g2 = true) as Hgd.
  { revert Ha2. unfold add_edge_one. destruct (node_hold _ n2); simpl; [|done]. destruct (node_hold _ n1); simpl; [|done]. by intros; simplify_eq. }
  eexists _, s1, g1, _, s2, g2. split; [exact Ha1|]. split; [exact Ha2|].
  assert (e1 <> e2) as H12 by (intros ->; congruence).
  assert (g_edges g2 = g_edges (ns_staging ns) ++ [e1; e2]) as HE by (rewrite HE2, HE1, <- app_assoc; done).
  assert (forall x, is_Some (s_edges (ns_store ns) !! x) -> x <> e1 /\ x <> e2 /\ s_edges s2 !! x = s_edges (ns_store ns) !! x) as Hsame.
  { intros x [xd Hxd]. assert (x <> e1) as N1 by (intros ->; congruence).
    assert (x <> e2) as N2 by (intros ->; rewrite HS1 in Hfr2 by done; congruence). split_and!; [done|done|]. by rewrite HS2, HS1. }
  assert (nodes_kept (ns_store ns) s2) as KN by (eapply nodes_kept_trans; [exact KN1|exact KN2]).
  assert (forall g0, ginv (ns_store ns) g0 -> (forall n, n ∈ g_nodes g0 -> n ∈ g_nodes g2 ++ g_nodes (ns_graph ns)) ->
    (forall x, x ∈ g_edges g0 -> x ∈ g_edges g2 ++ g_edges (ns_graph ns)) -> gframe g0 (ns_store ns) s2) as HF.
  { intros g0 G0 HN0 HE0. destruct W2 as [_ R2]. eapply gframe_of; [done|exact R2|done|done|intros; by eapply KN|].
    intros x Hx. destruct (gi_edge _ _ G0 x Hx) as (xd & Hxd & _). apply Hsame. by exists xd. }
  assert (gframe (ns_staging ns) (ns_store ns) s2) as FS.
  { apply HF; [apply W| |]; intros x Hx; apply elem_of_app; left; [by rewrite HN2, HN1|rewrite HE; apply elem_of_app; by left]. }
  assert (gframe (ns_graph ns) (ns_store ns) s2) as FL by (apply HF; [apply L|intros; apply elem_of_app; by right..]).
  set (links' := <[p2 := l2]> (<[p1 := l1]> (ns_links ns))).
  assert (forall d l, ns_links ns !! d = Some l -> links' !! d = Some l /\ d <> p1 /\ d <> p2) as Hlk.
  { intros d l Hl. pose proof (heap_top_ge _ _ _ Hl). unfold links', p1, p2. rewrite !lookup_insert_ne by lia. split_and!; [done|lia|lia]. }
  assert (forall x xd, x ∈ g_edges (ns_staging ns) ++ g_edges (ns_graph ns) -> s_edges (ns_store ns) !! x = Some xd ->
    links' !! e_data xd = ns_links ns !! e_data xd) as Hlks.
  { intros x xd Hx Hxd. destruct (D1 x xd Hx Hxd) as (_ & l & Hl). rewrite Hl. by apply Hlk. }
  assert (s_edges s2 !! e1 = Some ed1) as Hed1' by (rewrite HS2; done).
  assert (links' !! p1 = Some l1 /\ links' !! p2 = Some l2) as [Hp1 Hp2].
  { unfold links', p1, p2. split; [rewrite lookup_insert_ne by lia|]; by rewrite lookup_insert_eq. }
  pose proof (heap_top_nonneg (ns_links ns)) as Htop.
  split; cbn [ns_store ns_links ns_rts ns_graph ns_dcache ns_staging ns_routers ns_prefixes set_links set_staging tp_routers tp_last tp_links tp_pub tp_prefixes with_links].
  - done.
  - rewrite HN2, HN1. done.
  - intros x Hx Hlx. destruct (gi_edge _ _ (lo_inv _ _ _ _ _ L) x Hlx) as (xd & Hxd & _). destruct (Hsame x) as (N1 & N2 & _); [by exists xd|].
    rewrite HE in Hx. apply elem_of_app in Hx as [Hx|Hx]; [by eapply Ne|]. set_solver.
  - eapply live_ok_frame; [exact L|exact FL|]. intros x xd Hx. apply Hlks, elem_of_app. by right.
  - rewrite HE.
    assert (forall x xd, x ∈ (g_edges (ns_staging ns) ++ [e1; e2]) ++ g_edges (ns_graph ns) -> s_edges s2 !! x = Some xd ->
      (x = e1 /\ e_data xd = p1) \/ (x = e2 /\ e_data xd = p2) \/
      (x ∈ g_edges (ns_staging ns) ++ g_edges (ns_graph ns) /\ s_edges (ns_store ns) !! x = Some xd)) as Hcase.
    { intros x xd Hx Hxd. destruct (decide (x = e1)) as [->|N1]; [left; split; [done|congruence]|].
      destruct (decide (x = e2)) as [->|N2]; [right; left; split; [done|congruence]|]. right. right.
      rewrite HS2, HS1 in Hxd by done. split; [|done]. set_solver. }
    split.
    + intros x xd Hx Hxd. destruct (Hcase x xd Hx Hxd) as [[-> ->]|[[-> ->]|[Hx' Hxd']]]; [unfold p1; split; [lia|by exists l1]|unfold p2; split; [lia|by exists l2]|].
      destruct (D1 x xd Hx' Hxd') as (? & l & Hl). split; [done|]. exists l. by apply Hlk.
    + intros x y xd yd Hx Hy Hxd Hyd Hdd. destruct (Hcase x xd Hx Hxd) as [[-> E1]|[[-> E1]|[Hx' Hxd']]], (Hcase y yd Hy Hyd) as [[-> E2]|[[-> E2]|[Hy' Hyd']]];
        try done; try (unfold p1, p2 in *; lia).
      * destruct (D1 y yd Hy' Hyd') as (_ & l & Hl). apply Hlk in Hl. unfold p1, p2 in *. lia.
      * destruct (D1 y yd Hy' Hyd') as (_ & l & Hl). apply Hlk in Hl. unfold p1, p2 in *. lia.
      * destruct (D1 x xd Hx' Hxd') as (_ & l & Hl). apply Hlk in Hl. unfold p1, p2 in *. lia.
      * destruct (D1 x xd Hx' Hxd') as (_ & l & Hl). apply Hlk in Hl. unfold p1, p2 in *. lia.
      * by apply (D2 x y xd yd).
  - rewrite HE, map_app, <- K. f_equal.
    + apply tl_map_frame; [apply W|exact FS|]. intros x xd Hx. apply Hlks, elem_of_app. by left.
    + simpl. unfold tl_of. rewrite Hed1', Hed2, X1, X2, Hp1, Hp2, A1, B1, C1, A2, B2, C2.
      rewrite !(gframe_idz (ns_staging ns) (ns_store ns) s2) by done. done.
  - rewrite HL2, HL1. done.
  - done.
  - intros name p Hp. destruct (RR name p Hp) as (rt & n & H1 & H2 & H3 & H4). exists rt, n. rewrite HN2, HN1. split_and!; [done|done|done|].
    destruct (proj1 FS n H3) as (nd & nd' & Hnd & Hnd' & Hid & _). unfold node_id in *. rewrite Hnd in H4. rewrite Hnd'. simpl in *. congruence.
  - congruence.
  - done.
Qed.

Lemma linkstate_read_refines now ns tp e tp' :
  refines ns tp -> spec_step inet_pton tp (EvLink e) = Some tp' ->
  exists r ns', linkstate_read inet_pton now ns e = Some (r, ns') /\ refines ns' tp'.
Proof.
  intros R. unfold spec_step, linkstate_read.
  assert (forall name, match ns_routers ns !! name, tp_routers tp !! name with
    | Some p, Some i => exists rt, ns_rts ns !! p = Some rt | None, None => True | _, _ => False end) as Hr.
  { intros name. pose proof (rf_dom _ _ R name) as Hd. destruct (ns_routers ns !! name) as [p|] eqn:Ep.
    - destruct (rf_routers _ _ R name p Ep) as (rt & n & Hrt & -> & _). by exists rt.
    - destruct (tp_routers tp !! name); [|done]. destruct (proj2 Hd) as [? ?]; [by eexists|done]. }
  pose proof (Hr (le_name1 e)) as H1. pose proof (Hr (le_name2 e)) as H2.
  destruct (ns_routers ns !! le_name1 e) as [p1|] eqn:Ep1, (tp_routers tp !! le_name1 e) as [i1|] eqn:Et1; try done.
  2:{ intros [= <-]. by eexists _, ns. }
  destruct (ns_routers ns !! le_name2 e) as [p2|] eqn:Ep2, (tp_routers tp !! le_name2 e) as [i2|] eqn:Et2; try done.
  2:{ intros [= <-]. by eexists _, ns. }
  destruct H1 as [rt1 Hrt1]. destruct H2 as [rt2 Hrt2]. rewrite Hrt1, Hrt2. cbn [mbind option_bind].
  destruct (inet_pton (le_addr1 e)) as [a1|]; cbn [mbind option_bind]; [|done].
  destruct (inet_pton (le_addr2 e)) as [a2|]; cbn [mbind option_bind]; [|done].
  set (bw := wrap32 (le_bw e)). set (ava := wrap32 (le_ava_bw e)). set (de := wrap32 (le_delay e)).
  destruct (find_link_index ns tp a1 a2 bw ava de R) as (r1 & -> & Hr1). cbn [mbind option_bind].
  destruct r1 as [e1|], (link_index a1 a2 (tp_links tp)); try done; [intros [= <-]; by eexists _, ns|].
  destruct (find_link_index ns tp a2 a1 bw ava de R) as (r2 & -> & Hr2). cbn [mbind option_bind].
  destruct r2 as [e2|], (link_index a2 a1 (tp_links tp)); try done; [intros [= <-]; by eexists _, ns|]. intros [= <-].
  pose proof (mark_refines now ns tp R) as Rm. set (nm := mark_graph_dirty now ns) in *.
  destruct (find_staging_node nm tp (le_name1 e) p1 rt1 i1 Rm Ep1 Hrt1 Et1) as (_ & n1 & Hf1 & Hn1 & Hi1).
  destruct (find_staging_node nm tp (le_name2 e) p2 rt2 i2 Rm Ep2 Hrt2 Et2) as (_ & n2 & Hf2 & Hn2 & Hi2).
  rewrite Hf1. cbn [mbind option_bind]. rewrite Hf2. cbn [mbind option_bind].
  destruct (add_links_refines nm tp n1 n2 (entry_metric e) (Link a1 a2 bw ava de) (Link a2 a1 bw ava de) Rm eq_refl Hn1 Hn2 (entry_metric_range e))
    as (q1 & s1 & g1 & q2 & s2 & g2 & Ha1 & Ha2 & R2).
  rewrite Ha1. cbn [mbind option_bind]. rewrite Ha2. cbn [mbind option_bind]. eexists _, _. split; [reflexivity|].
  rewrite Hi1, Hi2 in R2. exact R2.
Qed.
End steps.

(** ** Publishing *)

Lemma edge_datas_in st g e ed : e ∈ g_edges g -> s_edges st !! e = Some ed -> e_data ed ∈ edge_datas st g.
Proof. intros He Hed. unfold edge_datas. apply list_elem_of_omap. exists e. by rewrite Hed. Qed.

Lemma copy_links_old base ds (links : gmap Z link) d :
  (forall d, d ∈ ds -> 1 <= d) -> d <= base -> copy_links base ds links !! d = links !! d.
Proof.
  intros Hds Hd. induction ds as [|x ds IH]; [done|]. cbn [copy_links].
  rewrite <- IH by (intros; apply Hds; by right). destruct (links !! x); [|done]. unfold link_edge_data_copy.
  assert (1 <= x) by (apply Hds; by left). apply lookup_insert_ne. lia.
Qed.

Lemma copy_links_new base ds (links : gmap Z link) d l :
  d ∈ ds -> links !! d = Some l -> copy_links base ds links !! (base + d) = Some l.
Proof.
  intros Hd Hl. induction ds as [|x ds IH]; [by apply not_elem_of_nil in Hd|]. cbn [copy_links].
  destruct (decide (x = d)) as [->|Hne]; [rewrite Hl; apply lookup_insert_eq|].
  apply elem_of_cons in Hd as [->|Hd]; [done|]. destruct (links !! x); [|by apply IH]. unfold link_edge_data_copy.
  rewrite lookup_insert_ne by lia. by apply IH.
Qed.

(** The links of a finalized graph, seen as a topology. *)
Lemma finalized_best st links g (tl : list tlink) a b w :
  (forall e, e ∈ g_edges g -> exists ed, s_edges st !! e = Some ed /\ is_Some (links !! e_data ed)) ->
  map (tl_of st links) (g_edges g) = tl ->
  (a <> b /\ w < UINT32_MAX /\ (exists e, is_link st g a b w e) /\ forall w' e', is_link st g a b w' e' -> w <= w') <-> best tl a b w.
Proof.
  intros Hl <-.
  assert (forall e, e ∈ g_edges g -> tl_from (tl_of st links e) = v_local (vedge_of st e) /\ tl_to (tl_of st links e) = v_remote (vedge_of st e) /\
    tl_metric (tl_of st links e) = v_metric (vedge_of st e)) as Ht.
  { intros e He. destruct (Hl e He) as (ed & Hed & l & Hll). unfold tl_of, vedge_of. by rewrite Hed, Hll. }
  unfold best, is_link. split; intros (Hab & Hw & (x & Hx) & Hall); (split_and!; [done|done| |]).
  - destruct Hx as (Hx & H1 & H2 & H3). destruct (Ht x Hx) as (T1 & T2 & T3). exists (tl_of st links x). rewrite T1, T2, T3. split_and!; [|done..].
    by apply list_elem_of_fmap_2.
  - intros t Ht' Hf Hto. apply list_elem_of_fmap in Ht' as (e & -> & He). destruct (Ht e He) as (T1 & T2 & T3). rewrite T3.
    apply (Hall _ e). split_and!; congruence || done.
  - destruct Hx as (Hx & H1 & H2 & H3). apply list_elem_of_fmap in Hx as (e & -> & He). destruct (Ht e He) as (T1 & T2 & T3).
    exists e. split_and!; congruence || done.
  - intros w' e (He & H1 & H2 & <-). destruct (Ht e He) as (T1 & T2 & T3). rewrite <- T3. apply Hall; [by apply list_elem_of_fmap_2|congruence|congruence].
Qed.

(** The copied edges mean the same links. *)
Lemma copied_links rts links st st' ns2 es es2 base ds :
  base = heap_top links ->
  Forall2 (copied_edge (g_ops_srdns rts links) st st' ns2) es es2 ->
  (forall e ed, e ∈ es -> s_edges st !! e = Some ed -> e_data ed ∈ ds /\ is_Some (links !! e_data ed)) ->
  map (tl_of st' (copy_links base ds links)) es2 = map (tl_of st links) es.
Proof.
  intros -> HF. induction HF as [|e e2 es es2 (ed & l2 & r2 & Hed & _ & _ & Hl & Hr & He2) _ IH]; intros Hd; [done|]. simpl.
  rewrite IH by (intros x xd Hx; apply Hd; by right). f_equal. destruct (Hd e ed) as (Hin & l & Hll); [by left|done|].
  unfold tl_of. rewrite Hed, He2, Hll. cbn [e_data e_local e_remote e_metric edge_data_copy g_ops_srdns].
  unfold link_edge_data_copy. rewrite (copy_links_new _ _ _ _ l) by done. unfold idz. by rewrite Hl, Hr.
Qed.

Lemma graph_sync_refines ns tp :
  refines ns tp -> exists r ns', netstate_graph_sync ns = Some (r, ns') /\
    refines ns' (Topo (tp_routers tp) (tp_last tp) (tp_links tp) (tp_links tp) (tp_prefixes tp)).
Proof.
  intros R. unfold netstate_graph_sync. destruct (dirty (ns_staging ns)) eqn:Hdirty; cbn [negb].
  2:{ eexists _, ns. split; [done|]. pose proof (rf_dirty _ _ R Hdirty) as E. destruct tp as [a b c d f]. simpl in *. by subst. }
  pose proof R as [W Nn Ne L [D1 D2] K [HL HT] RD RR _ RP]. set (st := ns_store ns) in *. set (sg := ns_staging ns) in *. set (lg := ns_graph ns) in *.
  set (ops := g_ops_srdns (ns_rts ns) (ns_links ns)). set (base := heap_top (ns_links ns)).
  destruct (graph_deepcopy_wf ops st sg _ _ W) as (s1 & gc & -> & G1 & R1 & _ & HF & HoldN & HoldE & FrN & FrE). cbn [mbind option_bind].
  set (links' := copy_links base (edge_datas st sg) (ns_links ns)).
  destruct (graph_finalize_maps s1 gc G1) as (g' & Hg' & _). rewrite Hg'. cbn [mbind option_bind].
  destruct (finalize_closed s1 gc g' G1 Hg') as (G1' & C' & HN' & HE'). destruct (finalize_view s1 gc G1 g' Hg') as [V' Hwt'].
  destruct (build_cache_nodes_ok (graph_view s1 g') (nodes (graph_view s1 g')) ∅) as (dc & Hdc & Hcache & _).
  { intros n r. by rewrite lookup_empty. } { by apply Forall_forall. }
  unfold graph_build_cache. rewrite Hdc. cbn [mbind option_bind].
  (* the old live graph goes away *)
  assert (gframe lg st s1) as FL1.
  { split; [intros n Hn; destruct (gi_node _ _ (lo_inv _ _ _ _ _ L) n Hn) as (nd & Hnd & _); exists nd, nd|
            intros e He; destruct (gi_edge _ _ (lo_inv _ _ _ _ _ L) e He) as (ed & Hed & _); exists ed, ed]; split_and!; auto; done. }
  assert (wfg s1 lg (g_nodes gc ++ g_nodes sg) (g_edges gc ++ g_edges sg)) as WL.
  { split; [by eapply gframe_ginv; [apply L|]|]. rewrite (Permutation_app_comm (g_nodes lg)), (Permutation_app_comm (g_edges lg)), <- !app_assoc. done. }
  destruct (graph_destroy_wf ops s1 lg _ _ WL) as (s2 & -> & R2 & KN2 & KE2). cbn [mbind option_bind].
  eexists _, _. split; [reflexivity|].
  assert (forall n, n ∈ g_nodes gc -> n ∉ g_nodes lg) as DN.
  { intros n Hn Hl. destruct (gi_node _ _ (lo_inv _ _ _ _ _ L) n Hl) as (nd & Hnd & _). rewrite (FrN n Hn) in Hnd. done. }
  assert (forall e, e ∈ g_edges gc -> e ∉ g_edges lg) as DE.
  { intros e He Hl. destruct (gi_edge _ _ (lo_inv _ _ _ _ _ L) e Hl) as (ed & Hed & _). rewrite (FrE e He) in Hed. done. }
  assert (gframe g' s1 s2) as FG.
  { eapply gframe_of; [exact G1'|exact R2|rewrite HN'; intros; apply elem_of_app; by left|rewrite HE'; intros; apply elem_of_app; by left| |].
    - intros n nd'. rewrite HN'. intros Hn. apply KN2. by apply DN.
    - intros e. rewrite HE'. intros He. apply KE2. by apply DE. }
  assert (gframe sg st s2) as FS.
  { eapply gframe_of; [apply W|exact R2|intros; apply elem_of_app; by right..| |].
    - intros n nd' Hn Hnd'. destruct (KN2 n nd' (Nn n Hn) Hnd') as (nd1 & Hnd1 & S1). destruct (gi_node _ _ (proj1 W) n Hn) as (nd & Hnd & _).
      rewrite (HoldN n nd Hnd) in Hnd1. simplify_eq. by exists nd1.
    - intros e He. rewrite KE2 by (by apply Ne). destruct (gi_edge _ _ (proj1 W) e He) as (ed & Hed & _). by rewrite (HoldE e ed Hed), Hed. }
  (* links *)
  assert (forall e ed, e ∈ g_edges sg -> s_edges st !! e = Some ed -> 1 <= e_data ed <= base /\ is_Some (ns_links ns !! e_data ed)) as HD.
  { intros e ed He Hed. destruct (D1 e ed) as (? & l & Hl); [apply elem_of_app; by left|done|]. split; [|by exists l].
    split; [done|]. by eapply heap_top_ge. }
  assert (forall d, d ∈ edge_datas st sg -> 1 <= d) as Hds.
  { intros d Hd. apply list_elem_of_omap in Hd as (e & He & Hd). destruct (s_edges st !! e) as [ed|] eqn:Hed; simplify_eq/=. by apply (HD e ed). }
  assert (map (tl_of s1 links') (g_edges gc) = tp_links tp) as M1.
  { rewrite <- K. eapply (copied_links (ns_rts ns)); [done|exact HF|]. intros e ed He Hed. split; [by eapply edge_datas_in|]. by apply (HD e ed). }
  assert (forall e2 d2, e2 ∈ g_edges gc -> s_edges s1 !! e2 = Some d2 -> exists e ed, e ∈ g_edges sg /\ s_edges st !! e = Some ed /\
    e_data d2 = base + e_data ed /\ forall e2' d2', e2' ∈ g_edges gc -> s_edges s1 !! e2' = Some d2' -> e_data d2' = e_data d2 -> e2' = e2) as HC.
  { intros e2 d2 He2 Hd2. apply list_elem_of_lookup in He2 as [i Hi]. destruct (Forall2_lookup_r _ _ _ _ _ HF Hi) as (e & Hei & (ed & l2 & r2 & Hed & _ & _ & _ & _ & H2)).
    assert (e ∈ g_edges sg) as He by (by eapply list_elem_of_lookup_2). rewrite H2 in Hd2. simplify_eq. exists e, ed. split_and!; [done|done|done|].
    intros e2' d2' He2' Hd2' Hdd. apply list_elem_of_lookup in He2' as [j Hj].
    destruct (Forall2_lookup_r _ _ _ _ _ HF Hj) as (x & Hxj & (xd & ? & ? & Hxd & _ & _ & _ & _ & H2')). rewrite H2' in Hd2'. simplify_eq.
    unfold ops in Hdd. cbn [e_data edge_data_copy g_ops_srdns] in Hdd. unfold link_edge_data_copy in Hdd. assert (e_data xd = e_data ed) as Hxe by lia.
    assert (x = e) as ->.
    { apply (D2 x e xd ed); [apply elem_of_app; left; by eapply list_elem_of_lookup_2|apply elem_of_app; by left|done..]. }
    assert (i = j) as -> by (by apply (NoDup_lookup (g_edges sg) i j e (gi_ne _ _ (proj1 W)))). congruence. }
  assert (forall d l, ns_links ns !! d = Some l -> links' !! d = Some l) as Hkeep.
  { intros d l Hl. unfold links'. rewrite copy_links_old by (done || by eapply heap_top_ge). done. }
  assert (forall e2 d2, e2 ∈ g_edges gc -> s_edges s1 !! e2 = Some d2 -> 1 <= e_data d2 /\ is_Some (links' !! e_data d2)) as HG.
  { intros e2 d2 He2 Hd2. destruct (HC e2 d2 He2 Hd2) as (e & ed & He & Hed & -> & _). destruct (HD e ed He Hed) as (? & l & Hl). split; [lia|].
    exists l. unfold links'. apply copy_links_new; [by eapply edge_datas_in|done]. }
  pose proof (gframe_view g' s1 s2 G1' C' FG) as Hview.
  split; cbn [ns_store ns_links ns_rts ns_graph ns_dcache ns_staging ns_routers ns_prefixes tp_routers tp_last tp_links tp_pub tp_prefixes].
  - apply wfg_set_dirty. split; [by eapply gframe_ginv; [apply W|]|]. rewrite HN', HE'. fold sg.
    rewrite (Permutation_app_comm (g_nodes sg)), (Permutation_app_comm (g_edges sg)). done.
  - cbn [g_nodes set_dirty]. intros n Hn. rewrite HN'. intros Hc. destruct (gi_node _ _ (proj1 W) n Hn) as (nd & Hnd & _). rewrite (FrN n Hc) in Hnd. done.
  - cbn [g_edges set_dirty]. intros e He. rewrite HE'. intros Hc. destruct (gi_edge _ _ (proj1 W) e He) as (ed & Hed & _). rewrite (FrE e Hc) in Hed. done.
  - split; [by eapply gframe_ginv|done|by rewrite Hview|by rewrite Hview| |].
    + intros a b w. rewrite Hview, Hwt'. apply (finalized_best s1 links'); [|done]. intros e He.
      destruct (gi_edge _ _ G1 e He) as (ed & Hed & _). exists ed. split; [done|]. by apply (HG e).
    + rewrite (tl_map_frame s1 s2 links' links' g' G1' FG), HE' by done. done.
  - cbn [g_edges set_dirty]. rewrite HE'.
    assert (forall e ed, e ∈ g_edges sg ++ g_edges gc -> s_edges s2 !! e = Some ed ->
      (e ∈ g_edges sg /\ s_edges st !! e = Some ed) \/ (e ∈ g_edges gc /\ s_edges s1 !! e = Some ed)) as Hcase.
    { intros e ed [He|He]%elem_of_app Hed; [left|right]; (split; [done|]).
      - destruct (gi_edge _ _ (proj1 W) e He) as (ed0 & Hed0 & _). rewrite KE2, (HoldE e ed0 Hed0) in Hed by (by apply Ne). congruence.
      - rewrite KE2 in Hed by (by apply DE). done. }
    split.
    + intros e ed He Hed. destruct (Hcase e ed He Hed) as [[He' Hed']|[He' Hed']]; [|by apply (HG e)].
      destruct (HD e ed He' Hed') as (? & l & Hl). split; [lia|]. exists l. by apply Hkeep.
    + intros x y xd yd Hx Hy Hxd Hyd Hdd. destruct (Hcase x xd Hx Hxd) as [[Hx' Hxd']|[Hx' Hxd']], (Hcase y yd Hy Hyd) as [[Hy' Hyd']|[Hy' Hyd']].
      * apply (D2 x y xd yd); [apply elem_of_app; by left..|done|done|done].
      * destruct (HC y yd Hy' Hyd') as (e & ed & He & Hed & E & _). destruct (HD x xd Hx' Hxd') as [? _]. destruct (HD e ed He Hed) as [? _]. lia.
      * destruct (HC x xd Hx' Hxd') as (e & ed & He & Hed & E & _). destruct (HD y yd Hy' Hyd') as [? _]. destruct (HD e ed He Hed) as [? _]. lia.
      * destruct (HC y yd Hy' Hyd') as (_ & _ & _ & _ & _ & Hu). by apply (Hu x xd).
  - cbn [g_edges set_dirty]. rewrite <- K. apply tl_map_frame; [apply W|done|]. intros e ed He Hed. destruct (HD e ed He Hed) as (_ & l & Hl). rewrite Hl. by apply Hkeep.
  - done.
  - done.
  - intros name p Hp. destruct (RR name p Hp) as (rt & n & H1 & H2 & H3 & H4). exists rt, n. split_and!; [done|done|done|].
    destruct (proj1 FS n H3) as (nd & nd' & Hnd & Hnd' & Hid & _). fold st in H4. unfold node_id in *. rewrite Hnd in H4. rewrite Hnd'. simpl in *. congruence.
  - done.
  - done.
Qed.

(** ** Sequences of notifications *)

Lemma init_refines : refines init_netstate topo_new.
Proof.
  split; cbn.
  - apply graph_new_wf.
  - by intros n ?%not_elem_of_nil.
  - by intros e ?%not_elem_of_nil.
  - split.
    + apply graph_new_wf.
    + split; [intros k l n Hk|intros k e Hk]; cbn in Hk; by rewrite lookup_empty in Hk.
    + split; cbn.
      * constructor.
      * by intros u ?%not_elem_of_nil.
      * intros u vs v Hu. by rewrite lookup_fmap, lookup_empty in Hu.
      * intros u v e He. by rewrite lookup_fmap, lookup_empty in He.
    + intros n r. by rewrite lookup_empty.
    + intros a b w. split.
      * unfold wt. destruct (a =? b); [done|]. cbn. by rewrite lookup_fmap, lookup_empty.
      * by intros (_ & _ & (t & ?%not_elem_of_nil & _) & _).
    + done.
  - split; [intros e ed ?%not_elem_of_nil; done|intros e1 e2 d1 d2 ?%not_elem_of_nil; done].
  - done.
  - done.
  - intros name. by rewrite !lookup_empty.
  - intros name p. by rewrite lookup_empty.
  - done.
  - done.
Qed.

Lemma exec_refines inet_pton now ns tp ev tp' :
  refines ns tp -> spec_step inet_pton tp ev = Some tp' -> exists ns', exec inet_pton now ns ev = Some ns' /\ refines ns' tp'.
Proof.
  intros R Hs. unfold exec. destruct ev as [e|e|e fmask|e|].
  - destruct (nodestate_read_refines inet_pton now ns tp e tp' R Hs) as (r & ns' & -> & R'). by exists ns'.
  - destruct (linkstate_read_refines inet_pton now ns tp e tp' R Hs) as (r & ns' & -> & R'). by exists ns'.
  - destruct (linkstate_update_refines inet_pton now ns tp e fmask tp' R Hs) as (r & ns' & -> & R'). by exists ns'.
  - destruct (linkstate_delete_refines inet_pton now ns tp e tp' R Hs) as (r & ns' & -> & R'). by exists ns'.
  - simpl in Hs. simplify_eq. destruct (graph_sync_refines ns tp R) as (r & ns' & -> & R'). by exists ns'.
Qed.

Lemma run_refines inet_pton evs : forall ns tp tp',
  refines ns tp -> spec_run inet_pton tp evs = Some tp' -> exists ns', run inet_pton ns evs = Some ns' /\ refines ns' tp'.
Proof.
  induction evs as [|[now ev] evs IH]; intros ns tp tp' R Hs; cbn [spec_run run] in *; [simplify_eq; by exists ns|].
  destruct (spec_step inet_pton tp ev) as [tp1|] eqn:E; cbn [mbind option_bind] in Hs; [|done].
  destruct (exec_refines inet_pton now ns tp ev tp1 R E) as (n1 & -> & R1). cbn [mbind option_bind]. by eapply IH.
Qed.

(** ** Main results *)

(** C5. For every sequence of router and link notifications and graph
    synchronisations to which the abstract topology gives a meaning, the
    handlers run without undefined behaviour (no failed assert, no use after
    free) and refine it: the staging graph holds exactly the topology's links
    in order, and the published graph, with its cache of shortest paths, is
    well formed, routes over exactly the least metrics of the topology as of
    the last synchronisation, and shares no object with the staging graph. *)
Theorem netstate_refines_topology (inet_pton : string -> option in6_addr) (evs : list (timeval * event)) (tp : topo) :
  spec_run inet_pton topo_new evs = Some tp ->
  exists ns, run inet_pton init_netstate evs = Some ns /\ refines ns tp /\
    map (tl_of (ns_store ns) (ns_links ns)) (g_edges (ns_staging ns)) = tp_links tp /\
    WfView (graph_view (ns_store ns) (ns_graph ns)) /\
    cache_ok (graph_view (ns_store ns) (ns_graph ns)) (ns_dcache ns) /\
    forall a b w, wt (graph_view (ns_store ns) (ns_graph ns)) a b = Some w <-> best (tp_pub tp) a b w.
Proof.
  intros Hs. destruct (run_refines inet_pton evs init_netstate topo_new tp init_refines Hs) as (ns & Hr & R).
  exists ns. destruct (rf_live _ _ R). split_and!; try done. apply R.
Qed.

(** Addresses "1" to "9" stand for the last byte of an address. *)
Definition demo_pton (s : string) : option in6_addr :=
  match s with String a EmptyString => Some (replicate 15 0 ++ [byte_of a]) | _ => None end.

Definition at_ms (ms : Z) : timeval := Timeval 0 (1000 * ms).
Definition demo_link (metric delay : Z) : linkstate := LinkState "A" "1" "B" "2" metric 100 100 delay.
Definition demo_events : list (timeval * event) :=
  [(at_ms 1, EvNode (NodeState "A" "8" (Some "") "")); (at_ms 2, EvNode (NodeState "B" "9" (Some "") ""));
   (at_ms 3, EvLink (demo_link 5 10)); (at_ms 4, EvSync); (at_ms 5, EvUpdate (demo_link 7 99) (2 ^ LS_METRIC + 2 ^ LS_DELAY))].

Definition demo_topo : topo := default topo_new (spec_run demo_pton topo_new demo_events).

Lemma netstate_refines_witness :
  exists ns, run demo_pton init_netstate demo_events = Some ns /\ refines ns demo_topo /\
    map (tl_of (ns_store ns) (ns_links ns)) (g_edges (ns_staging ns)) = tp_links demo_topo /\
    WfView (graph_view (ns_store ns) (ns_graph ns)) /\
    cache_ok (graph_view (ns_store ns) (ns_graph ns)) (ns_dcache ns) /\
    forall a b w, wt (graph_view (ns_store ns) (ns_graph ns)) a b = Some w <-> best (tp_pub demo_topo) a b w.
Proof. apply (netstate_refines_topology demo_pton demo_events demo_topo). vm_compute. reflexivity. Defined.

(** A link update changes the metric in both directions but bandwidth
    and delay in one only: [linkstate_update] takes the reverse link from the
    forward edge.  After raising the delay of the link A-B from 10 to 99 the
    staging graph still gives the direction B-A the delay 10. *)
Theorem linkstate_update_one_way :
  exists ns, run demo_pton init_netstate demo_events = Some ns /\
    map (fun e => let t := tl_of (ns_store ns) (ns_links ns) e in (tl_from t, tl_to t, tl_metric t, tl_delay t))
      (g_edges (ns_staging ns)) = [(1, 2, 7, 99); (2, 1, 7, 10)].
Proof. eexists. split; vm_compute; reflexivity. Qed.

(** [linkstate_delete] removes edges before it calls [mark_graph_dirty],
    which then finds the graph already dirty: the time [gs_dirty] the hard
    synchronisation timeout counts from is not set, however long ago the
    graph was last clean. *)
Theorem linkstate_delete_stale_gs_dirty (inet_pton : string -> option in6_addr) (now : timeval) (ns ns' : netstate)
    (e : linkstate) (a1 a2 : in6_addr) (edge : ptr) (r : Z) :
  inet_pton (le_addr1 e) = Some a1 -> inet_pton (le_addr2 e) = Some a2 ->
  find_link ns (Link a1 a2 0 0 0) = Some (Some edge) -> edge ∈ g_edges (ns_staging ns) ->
  linkstate_delete inet_pton now ns e = Some (r, ns') -> gs_dirty ns' = gs_dirty ns /\ gs_mod ns' = now.
Proof.
  intros H1 H2 Hf He. unfold linkstate_delete. rewrite H1, H2. cbn [mbind option_bind]. unfold delete_link. rewrite Hf. cbn [mbind option_bind].
  destruct (graph_remove_edge (ns_store ns) (ns_staging ns) edge) as [[st g]|] eqn:Hr; cbn [mbind option_bind]; [|done].
  assert (dirty g = true) as Hd.
  { unfold graph_remove_edge in Hr. rewrite bool_decide_true in Hr by done. destruct (s_edges _ !! edge); simpl in Hr; [|done].
    by destruct (edge_release _ edge); simplify_eq/=. }
  destruct (find_link (set_staging ns st g) _) as [[e2|]|]; cbn [mbind option_bind]; [| |done].
  - cbn [ns_store ns_staging set_staging]. destruct (graph_remove_edge st g e2) as [[st2 g2]|] eqn:Hr2; cbn [mbind option_bind]; [|done]. intros [= _ <-].
    assert (dirty g2 = true) as Hd2.
    { unfold graph_remove_edge in Hr2. case_bool_decide; [|by simplify_eq]. destruct (s_edges _ !! e2); simpl in Hr2; [|done].
      by destruct (edge_release _ e2); simplify_eq/=. }
    cbn. by rewrite Hd2.
  - intros [= _ <-]. cbn. by rewrite Hd.
Qed.

Definition demo_synced : netstate := default init_netstate (run demo_pton init_netstate (take 4 demo_events)).

Lemma linkstate_delete_stale_witness :
  exists ns', linkstate_delete demo_pton (at_ms 900) demo_synced (demo_link 5 10) = Some (0, ns') /\
    gs_dirty ns' = gs_dirty demo_synced /\ gs_mod ns' = at_ms 900.
Proof.
  eexists. split; [vm_compute; reflexivity|].
  eapply (linkstate_delete_stale_gs_dirty demo_pton (at_ms 900) demo_synced _ (demo_link 5 10) (replicate 15 0 ++ [49]) (replicate 15 0 ++ [50]) 1 0);
    [vm_compute; reflexivity..| |vm_compute; reflexivity].
  apply list_elem_of_In. vm_compute. auto.
Defined.
