(* ===== verification/Flows.v ===== *)
(** * Flows of the controller (sr-ctrl/sr-ctrl.h, sr-ctrl/sr-ctrl.c)

    What the controller does with a path request, and with the flows it has
    accepted: matching a rule, finding the edge routers, computing the
    segments on the published graph, choosing a binding segment, committing
    the flow to the database, expiring flows and recomputing the ones a
    topology change affects.

    The C library ([inet_pton], [inet_ntop]), the clock, the random bytes and
    the answers of the database server are arguments.  Database operations
    are returned as the list of transactions sent.  [None] is undefined
    behaviour.  The flow table is an association list in insertion order,
    which is what Hashmap.v shows [struct hashmap] to be.  Segments and edges
    of a flow are held by reference counts, which keep their ids, metrics and
    data as they were; Graph.v has the counts themselves. *)

From S2P Require Import Prelude Misc Hashmap Rules Lpm Dijkstra Segpath Graph Srdb Netstate.
From Stdlib Require Import Ascii.

(** ** Data *)

Record provider := Provider { pv_router : string; pv_name : string; pv_addr : string; pv_prefix_len : Z; pv_priority : Z }.

Definition internal_provider : provider := Provider "" "internal" "::" 0 0.

Record src_prefix := SrcPrefix {
  sp_router : string; sp_addr : string; sp_prefix_len : Z; sp_priority : Z;
  sp_bsid : in6_addr; sp_segs : list segment; sp_epath : option (list vedge)
}.

Definition FLOW_STATUS_ACTIVE := 0.
Definition FLOW_STATUS_RUNNING := 1.
Definition FLOW_STATUS_EXPIRED := 2.
Definition FLOW_STATUS_ORPHAN := 3.

Definition REQ_STATUS_PENDING := 0.
Definition REQ_STATUS_ALLOWED := 1.
Definition REQ_STATUS_DENIED := 2.
Definition REQ_STATUS_UNAVAILABLE := 3.
Definition REQ_STATUS_ERROR := 4.
Definition REQ_STATUS_NOROUTER := 6.
Definition REQ_STATUS_NOPREFIX := 7.

Definition FE_DESTINATION := 1.
Definition FE_DSTADDR := 2.
Definition FE_BSID := 3.
Definition FE_SEGMENTS := 4.
Definition FE_BANDWIDTH := 5.
Definition FE_DELAY := 6.
Definition FE_SOURCE := 8.
Definition FE_SOURCEIPS := 9.
Definition FE_ROUTER := 10.
Definition FE_PROXY := 11.
Definition FE_REQID := 14.
Definition FE_TTL := 15.
Definition FE_IDLE := 16.
Definition FE_TS := 17.
Definition FE_STATUS := 18.
Definition FREQ_STATUS := 9.

Record flow := Flow {
  f_uuid : string; f_src : string; f_dst : string; f_dstaddr : in6_addr; f_prefixes : list src_prefix;
  f_srcrt : Z; f_dstrt : Z; f_bw : Z; f_delay : Z; f_ttl : Z; f_idle : Z; f_timestamp : Z; f_status : Z;
  f_proxy : string; f_reqid : string; f_refcount : Z
}.

Record flowreq := FlowReq {
  rq_row : string; rq_reqid : string; rq_destination : string; rq_dstaddr : string; rq_source : string; rq_srcaddr : string;
  rq_bandwidth : Z; rq_delay : Z; rq_proxy : string; rq_status : Z
}.

(** The part of [struct config] the workers use: flows live in [c_heap], the
    table maps binding segments to them. *)
Record ctrl := Ctrl {
  c_ns : netstate; c_rules : list rule; c_defrule : option rule; c_providers : list provider;
  c_flows : list (in6_addr * Z); c_heap : gmap Z flow
}.

Definition set_uuid (fl : flow) (u : string) : flow :=
  Flow u (f_src fl) (f_dst fl) (f_dstaddr fl) (f_prefixes fl) (f_srcrt fl) (f_dstrt fl) (f_bw fl) (f_delay fl) (f_ttl fl)
    (f_idle fl) (f_timestamp fl) (f_status fl) (f_proxy fl) (f_reqid fl) (f_refcount fl).
Definition set_prefixes (fl : flow) (ps : list src_prefix) : flow :=
  Flow (f_uuid fl) (f_src fl) (f_dst fl) (f_dstaddr fl) ps (f_srcrt fl) (f_dstrt fl) (f_bw fl) (f_delay fl) (f_ttl fl)
    (f_idle fl) (f_timestamp fl) (f_status fl) (f_proxy fl) (f_reqid fl) (f_refcount fl).
Definition set_routers (fl : flow) (srcrt dstrt : Z) : flow :=
  Flow (f_uuid fl) (f_src fl) (f_dst fl) (f_dstaddr fl) (f_prefixes fl) srcrt dstrt (f_bw fl) (f_delay fl) (f_ttl fl)
    (f_idle fl) (f_timestamp fl) (f_status fl) (f_proxy fl) (f_reqid fl) (f_refcount fl).
Definition set_status (fl : flow) (st : Z) : flow :=
  Flow (f_uuid fl) (f_src fl) (f_dst fl) (f_dstaddr fl) (f_prefixes fl) (f_srcrt fl) (f_dstrt fl) (f_bw fl) (f_delay fl) (f_ttl fl)
    (f_idle fl) (f_timestamp fl) st (f_proxy fl) (f_reqid fl) (f_refcount fl).
Definition set_frefcount (fl : flow) (r : Z) : flow :=
  Flow (f_uuid fl) (f_src fl) (f_dst fl) (f_dstaddr fl) (f_prefixes fl) (f_srcrt fl) (f_dstrt fl) (f_bw fl) (f_delay fl) (f_ttl fl)
    (f_idle fl) (f_timestamp fl) (f_status fl) (f_proxy fl) (f_reqid fl) r.
Definition set_active (fl : flow) (now : Z) : flow :=
  Flow (f_uuid fl) (f_src fl) (f_dst fl) (f_dstaddr fl) (f_prefixes fl) (f_srcrt fl) (f_dstrt fl) (f_bw fl) (f_delay fl) (f_ttl fl)
    (f_idle fl) now FLOW_STATUS_ACTIVE (f_proxy fl) (f_reqid fl) 1.

Definition set_segs (p : src_prefix) (segs : list segment) (ep : option (list vedge)) : src_prefix :=
  SrcPrefix (sp_router p) (sp_addr p) (sp_prefix_len p) (sp_priority p) (sp_bsid p) segs ep.
Definition set_bsid (p : src_prefix) (b : in6_addr) : src_prefix :=
  SrcPrefix (sp_router p) (sp_addr p) (sp_prefix_len p) (sp_priority p) b (sp_segs p) (sp_epath p).

(** ** Reference counts of flows *)

Definition flow_hold (heap : gmap Z flow) (p : Z) : option (gmap Z flow) :=
  fl ← heap !! p; Some (<[p := set_frefcount fl (f_refcount fl + 1)]> heap).

Definition flow_release (heap : gmap Z flow) (p : Z) : option (gmap Z flow) :=
  fl ← heap !! p;
  if f_refcount fl - 1 =? 0 then Some (delete p heap)
  else Some (<[p := set_frefcount fl (f_refcount fl - 1)]> heap).

(** ** Path computation *)

Definition prune_bw (links : gmap Z link) (bw : Z) (e : gedge) : bool :=
  match links !! e_data e with Some l => l_ava_bw l <? bw | None => false end.

Definition pre_prune (links : gmap Z link) (bw : Z) (st : store) (g : graph) : option graph :=
  if bw =? 0 then Some g else '(_, g) ← graph_prune st g (prune_bw links bw); Some g.

Definition link_delay (links : gmap Z link) (e : vedge) : Z :=
  match links !! v_edata e with Some l => l_delay l | None => 0 end.

Definition delay_init (g : view) (src : Z) : gmap Z Z :=
  foldl (fun dist n => if n =? src then <[n := 0]> dist else <[n := UINT32_MAX]> dist) ∅ (nodes g).

Definition delay_below_cost (links : gmap Z link) (max : Z) (cur_cost : Z) (e : vedge) (dist : gmap Z Z) : Z :=
  let cur_delay := get_dist dist (v_local e) in
  if max <? wrap32 (cur_delay + link_delay links e) then UINT32_MAX else wrap32 (cur_cost + v_metric e).

Definition delay_update (links : gmap Z link) (e : vedge) (dist : gmap Z Z) : gmap Z Z :=
  <[v_remote e := wrap32 (get_dist dist (v_local e) + link_delay links e)]> dist.

Definition delay_below_ops (links : gmap Z link) (max : Z) : d_ops (gmap Z Z) :=
  DOps delay_init (delay_below_cost links max) (delay_update links).

Definition delay_min_cost (links : gmap Z link) (cur_cost : Z) (e : vedge) (_ : unit) : Z :=
  wrap32 (cur_cost + link_delay links e).

Definition delay_min_ops (links : gmap Z link) : d_ops unit :=
  DOps (fun _ _ => tt) (delay_min_cost links) (fun _ s => s).

(** [gc = graph_clone(g); pspec->prune(gc, pspec); graph_finalize(gc);] *)
Definition pruned_clone (ns : netstate) (bw : Z) : option view :=
  '(st, gc) ← graph_clone (ns_store ns) (ns_graph ns);
  gc ← pre_prune (ns_links ns) bw st gc;
  gc ← graph_finalize st gc;
  Some (graph_view st gc).

Definition ns_view (ns : netstate) : view := graph_view (ns_store ns) (ns_graph ns).

(** The call of [build_segpath] on the published graph, no waypoints. *)
Definition flow_segpath (ns : netstate) (src dst bw delay : Z) : option (option (list segment * option (list vedge))) :=
  gc ← pruned_clone ns bw;
  build_segpath (ns_view ns) (ns_dcache ns)
    (PathSpec src dst [] (Some (fun _ => gc)) (if delay =? 0 then no_ops else delay_min_ops (ns_links ns))).

(** ** Binding segments *)

(** [rnd] is the block the random bytes are taken from. *)
Definition generate_bsid (pbsid : prefix) (rnd : list Z) : option in6_addr :=
  let len := Z.shiftr (128 - p_len pbsid) 3 in
  if (0 <=? len) && (len <=? 16) then
    let k := Z.to_nat (16 - len) in Some (take k (p_addr pbsid) ++ drop k rnd)
  else None.

(** The loop draws until the address is free; [None] when the draws end. *)
Fixpoint generate_unique_bsid (flows : list (in6_addr * Z)) (pbsid : prefix) (rnd : list (list Z)) : option in6_addr :=
  match rnd with
  | [] => None
  | r :: rnd =>
      res ← generate_bsid pbsid r;
      match aget flows res with Some _ => generate_unique_bsid flows pbsid rnd | None => Some res end
  end.

Definition select_providers (ps : list provider) : list src_prefix :=
  map (fun p => SrcPrefix (strncpy SLEN (pv_router p)) (strncpy SLEN (pv_addr p)) (pv_prefix_len p) 0 (replicate 16 0) [] None) ps.

(** ** Flows in the database *)

Section controller.
Context {J : Jansson} {T : JanssonText J}.
Context (inet_pton : string -> option in6_addr) (inet_ntop : in6_addr -> string).

(** A transaction handed to the database library. *)
Inductive dbop := DbUpdate (table row : string) (fields : json) | DbInsert (table : string) (row : json).

(** Whether the library makes a transaction of an update: it gives NULL when
    the text does not fit its buffer or an allocation fails (Request.v).
    srdb_update_sync answers -1 then, which its callers ignore;
    [recompute_flow] has no such test. *)
Context (accepts : dbop -> bool).

(** json_array_append_new skips the NULL of a failed json_string. *)
Definition json_array_of (l : list (option json)) : json := json_array (omap id l).

Definition pref_bsid_to_json (fl : flow) : json :=
  json_array_of (map (fun p => json_string (inet_ntop (sp_bsid p))) (f_prefixes fl)).

(** The first 16 bytes of the (zero-filled) address text. *)
Definition addr_bytes (s : string) : in6_addr := take 16 (map byte_of (String.list_ascii_of_string s) ++ replicate 16 0).

Definition pref_srcips_to_json (fl : flow) : json :=
  json_array_of (map (fun p => Some (json_array_of [Some (json_integer (sp_priority p));
    json_string (inet_ntop (addr_bytes (sp_addr p))); Some (json_integer (sp_prefix_len p))])) (f_prefixes fl)).

(** The address of a segment; a router whose address never parsed has none. *)
Definition segment_addr (ns : netstate) (s : segment) : option in6_addr :=
  match s with
  | AdjSeg e => l_remote <$> ns_links ns !! v_edata e
  | NodeSeg id =>
      n ← graph_get_node_noref (ns_store ns) (ns_graph ns) id;
      n ← n;
      nd ← s_nodes (ns_store ns) !! n;
      rt ← ns_rts ns !! n_data nd;
      rt_addr rt
  end.

Definition segs_to_json (ns : netstate) (segs : list segment) : option json :=
  addrs ← mapM (segment_addr ns) segs;
  Some (json_array_of (map (fun a => json_string (inet_ntop a)) addrs)).

Definition pref_segs_to_json (ns : netstate) (fl : flow) : option json :=
  l ← mapM (fun p => segs_to_json ns (sp_segs p)) (f_prefixes fl); Some (json_array l).

(** if (fields & ENTRY_MASK(field)) put *)
Definition when (fields field : Z) (put : entry -> option entry) (fe : entry) : option entry :=
  if mask_has fields field then put fe else Some fe.

Definition flow_to_flowentry (ns : netstate) (fl : flow) (fields : Z) : option entry :=
  let off := offsetof srdb_flow_entry in
  let str field name s := when fields field (fun fe => put_str fe (off name) SLEN s) in
  let int field name z := when fields field (fun fe => put_int fe (off name) (to_int z)) in
  fe ← put_str (calloc_entry srdb_flow_entry) (off "row") SLEN (f_uuid fl);
  fe ← str FE_DESTINATION "destination" (f_dst fl) fe;
  fe ← str FE_SOURCE "source" (f_src fl) fe;
  fe ← when fields FE_DSTADDR (fun fe => put_str fe (off "dstaddr") 45 (inet_ntop (f_dstaddr fl))) fe;
  fe ← when fields FE_SEGMENTS (fun fe => j ← pref_segs_to_json ns fl; put_ptr fe (off "segments") (json_dumps j)) fe;
  fe ← when fields FE_SOURCEIPS (fun fe => put_ptr fe (off "sourceIPs") (json_dumps (pref_srcips_to_json fl))) fe;
  fe ← when fields FE_BSID (fun fe => put_ptr fe (off "bsid") (json_dumps (pref_bsid_to_json fl))) fe;
  fe ← when fields FE_ROUTER (fun fe => rt ← ns_rts ns !! f_srcrt fl; put_str fe (off "router") SLEN (rt_name rt)) fe;
  fe ← str FE_PROXY "proxy" (f_proxy fl) fe;
  fe ← str FE_REQID "request_id" (f_reqid fl) fe;
  fe ← int FE_BANDWIDTH "bandwidth" (f_bw fl) fe;
  fe ← int FE_DELAY "delay" (f_delay fl) fe;
  fe ← int FE_TTL "ttl" (f_ttl fl) fe;
  fe ← int FE_IDLE "idle" (f_idle fl) fe;
  fe ← int FE_TS "timestamp" (f_timestamp fl) fe;
  int FE_STATUS "status" (f_status fl) fe.

Definition srdb_update_commit (utr : srdb_update_transact) : option dbop :=
  match utr_entry utr !! offsetof srdb_entry "row" with
  | Some (CBuf _ row) => Some (DbUpdate (t_name (utr_tbl utr)) row (utr_fields utr))
  | _ => None
  end.

(** Prepare, append one field, commit. *)
Definition srdb_update (tbl : srdb_table) (e : entry) (index : Z) : option dbop :=
  '(_, utr) ← srdb_update_append (srdb_update_prepare tbl e) index; srdb_update_commit utr.

Definition srdb_insert (tbl : srdb_table) (e : entry) : option dbop :=
  row ← srdb_insert_row tbl e; Some (DbInsert (t_name tbl) row).

Definition flowreq_entry (req : flowreq) : entry :=
  let off := offsetof srdb_flowreq_entry in let buf := CBuf (S SLEN) in
  list_to_map [(off "row", buf (rq_row req)); (off "request_id", buf (rq_reqid req)); (off "destination", buf (rq_destination req));
    (off "dstaddr", buf (rq_dstaddr req)); (off "source", buf (rq_source req)); (off "srcaddr", buf (rq_srcaddr req));
    (off "bandwidth", CInt (rq_bandwidth req)); (off "delay", CInt (rq_delay req)); (off "proxy", buf (rq_proxy req));
    (off "status", CInt (rq_status req))].

Definition set_rq_status (req : flowreq) (st : Z) : flowreq :=
  FlowReq (rq_row req) (rq_reqid req) (rq_destination req) (rq_dstaddr req) (rq_source req) (rq_srcaddr req)
    (rq_bandwidth req) (rq_delay req) (rq_proxy req) st.

Definition set_flowreq_status (req : flowreq) (st : Z) : option dbop :=
  tbl ← srdb_table_by_name srdb_tables "FlowReq"; srdb_update tbl (flowreq_entry (set_rq_status req st)) FREQ_STATUS.

(** The new flow and the transaction; only the row and the status of the
    entry on the stack are set. *)
Definition set_flow_status (fl : flow) (st : Z) : option (flow * dbop) :=
  tbl ← srdb_table_by_name srdb_tables "FlowState";
  let off := offsetof srdb_flow_entry in
  op ← srdb_update tbl (list_to_map [(off "row", CBuf (S SLEN) (strncpy SLEN (f_uuid fl))); (off "status", CInt st)]) FE_STATUS;
  Some (set_status fl st, op).

(** Return code, the flow with the uuid the server gave, the transaction. *)
Definition commit_flow (ns : netstate) (reply : option json) (fl : flow) : option (Z * flow * dbop) :=
  tbl ← srdb_table_by_name srdb_tables "FlowState";
  fe ← flow_to_flowentry ns fl FE_ALL;
  op ← srdb_insert tbl fe;
  '(ret, uuid) ← srdb_insert_result reply;
  Some (ret, match uuid with Some u => set_uuid fl u | None => fl end, op).

(** ** Requests *)

Definition set_flows (c : ctrl) (flows : list (in6_addr * Z)) (heap : gmap Z flow) : ctrl :=
  Ctrl (c_ns c) (c_rules c) (c_defrule c) (c_providers c) flows heap.

Definition req_rule (c : ctrl) (req : flowreq) : option rule :=
  match match_rules (c_rules c) (rq_source req) (rq_destination req) with Some r => Some r | None => c_defrule c end.

(** [x ?: y] *)
Definition elvis (x y : Z) : Z := if x =? 0 then y else x.

(** The flow as filled before the network state is locked. *)
Definition flow_of_request (rule : rule) (req : flowreq) : flow :=
  Flow "" (strncpy SLEN (rq_source req)) (strncpy SLEN (rq_destination req)) (default (replicate 16 0) (inet_pton (rq_dstaddr req))) []
    0 0 (wrap32 (elvis (r_bw rule) (rq_bandwidth req))) (wrap32 (elvis (r_delay rule) (rq_delay req)))
    (wrap32 (r_ttl rule)) (wrap32 (r_idle rule)) 0 0 (strncpy SLEN (rq_proxy req)) (strncpy SLEN (rq_reqid req)) 0.

Definition answer (c : ctrl) (req : flowreq) (st : Z) : option (ctrl * list dbop) :=
  op ← set_flowreq_status req st; Some (c, [op]).

(** From the choice of the binding segment to the end: the flow enters the
    table, is committed, and leaves it again when the commit fails. *)
Definition install_flow (rnd : list (list Z)) (now : Z) (reply : option json) (c : ctrl) (req : flowreq) (rt : router) (fl : flow)
    (segs : list segment) (epath : option (list vedge)) : option (ctrl * list dbop) :=
  pbsid ← rt_pbsid rt;
  bsid ← generate_unique_bsid (c_flows c) pbsid rnd;
  let fl := set_active (set_prefixes fl (map (fun p => set_bsid (set_segs p segs epath) bsid) (f_prefixes fl))) now in
  let p := heap_top (c_heap c) + 1 in
  let flows := aset (c_flows c) bsid p in
  '(ret, fl, op) ← commit_flow (c_ns c) reply fl;
  if negb (ret =? 0) then
    st ← set_flowreq_status req REQ_STATUS_ERROR;
    Some (set_flows c (foldl (fun l x => adel l (sp_bsid x)) flows (f_prefixes fl)) (c_heap c), [op; st])
  else
    st ← set_flowreq_status req REQ_STATUS_ALLOWED;
    Some (set_flows c flows (<[p := fl]> (c_heap c)), [op; st]).

(** The waypoints of a rule are names, which [build_segpath] would
    dereference as nodes. *)
Definition no_via (r : rule) : bool := match r_path r with None | Some [] => true | Some _ => false end.

Definition process_request (rnd : list (list Z)) (now : Z) (reply : option json) (c : ctrl) (req : flowreq) : option (ctrl * list dbop) :=
  if negb (rq_status req =? REQ_STATUS_PENDING) then Some (c, [])
  else
    rule ← req_rule c req;
    if negb (bool_decide (r_type rule = RULE_ALLOW)) then answer c req REQ_STATUS_DENIED
    else
      let ns := c_ns c in
      let fl := flow_of_request rule req in
      addr ← inet_pton (rq_srcaddr req);
      rt ← lpm_lookup (ns_prefixes ns) addr;
      if rt =? 0 then answer c req REQ_STATUS_NOPREFIX
      else
        let addr := default addr (inet_pton (rq_dstaddr req)) in
        dstrt ← lpm_lookup (ns_prefixes ns) addr;
        if dstrt =? 0 then answer c req REQ_STATUS_NOPREFIX
        else
          r1 ← ns_rts ns !! rt;
          r2 ← ns_rts ns !! dstrt;
          src_node ← graph_get_node_noref (ns_store ns) (ns_graph ns) (rt_node_id r1);
          dst_node ← graph_get_node_noref (ns_store ns) (ns_graph ns) (rt_node_id r2);
          match src_node, dst_node with
          | Some _, Some _ =>
              let prefixes := select_providers (c_providers c) in
              if (length prefixes =? 0)%nat then answer c req REQ_STATUS_ERROR
              else
                let fl := set_prefixes (set_routers fl rt dstrt) prefixes in
                if negb (no_via rule) then None
                else
                  r ← flow_segpath ns (rt_node_id r1) (rt_node_id r2) (f_bw fl) (f_delay fl);
                  match r with
                  | None => answer c req REQ_STATUS_UNAVAILABLE
                  | Some (segs, epath) => install_flow rnd now reply c req r1 fl segs epath
                  end
          | _, _ => answer c req REQ_STATUS_UNAVAILABLE
          end.

(** One element of the worker's queue and what it meets: draws, clock, the
    server's answer. *)
Record job := Job { j_rnd : list (list Z); j_now : Z; j_reply : option json; j_req : flowreq }.

(** The loop of [thread_worker] over the requests popped before the NULL. *)
Fixpoint thread_worker (c : ctrl) (jobs : list job) : option (ctrl * list dbop) :=
  match jobs with
  | [] => Some (c, [])
  | j :: jobs =>
      '(c, ops) ← process_request (j_rnd j) (j_now j) (j_reply j) c (j_req j);
      '(c, ops') ← thread_worker c jobs;
      Some (c, ops ++ ops')
  end.

(** ** Expiry *)

Definition flow_dead (now : Z) (fl : flow) : bool :=
  (negb (f_ttl fl =? 0) && (f_timestamp fl + f_ttl fl <? now)) || (f_status fl =? FLOW_STATUS_ORPHAN).

(** hmap_foreach_safe with deletion: the table and the list [nhead]. *)
Fixpoint gc_scan (now : Z) (heap : gmap Z flow) (entries flows : list (in6_addr * Z)) : option (list (in6_addr * Z) * list Z) :=
  match entries with
  | [] => Some (flows, [])
  | (key, p) :: entries =>
      fl ← heap !! p;
      if flow_dead now fl then '(flows, nhead) ← gc_scan now heap entries (adel flows key); Some (flows, p :: nhead)
      else gc_scan now heap entries flows
  end.

Fixpoint expire_flows (heap : gmap Z flow) (nhead : list Z) : option (gmap Z flow * list dbop) :=
  match nhead with
  | [] => Some (heap, [])
  | p :: nhead =>
      fl ← heap !! p;
      '(fl, op) ← set_flow_status fl FLOW_STATUS_EXPIRED;
      heap ← flow_release (<[p := fl]> heap) p;
      '(heap, ops) ← expire_flows heap nhead;
      Some (heap, op :: ops)
  end.

Definition gc_flows (now : Z) (c : ctrl) : option (ctrl * list dbop) :=
  '(flows, nhead) ← gc_scan now (c_heap c) (c_flows c) (c_flows c);
  '(heap, ops) ← expire_flows (c_heap c) nhead;
  Some (set_flows c flows heap, ops).

(** ** Recomputation *)

(** [None] also when the library refuses the update: the code goes on with
    the NULL it was given. *)
Definition recompute_flow (ns : netstate) (fl : flow) : option (flow * list dbop) :=
  r1 ← ns_rts ns !! f_srcrt fl;
  r2 ← ns_rts ns !! f_dstrt fl;
  src_node ← graph_get_node_noref (ns_store ns) (ns_graph ns) (rt_node_id r1);
  dst_node ← graph_get_node_noref (ns_store ns) (ns_graph ns) (rt_node_id r2);
  match src_node, dst_node with
  | Some _, Some _ =>
      r ← flow_segpath ns (rt_node_id r1) (rt_node_id r2) (f_bw fl) (f_delay fl);
      match r with
      | None => Some (fl, [])
      | Some (segs, epath) =>
          let diff := existsb (fun p => negb (compare_segments segs (sp_segs p))) (f_prefixes fl) in
          let fl := set_prefixes fl (map (fun p => set_segs p segs epath) (f_prefixes fl)) in
          if negb diff then Some (fl, [])
          else
            fe ← flow_to_flowentry ns fl (ENTRY_MASK FE_SEGMENTS);
            tbl ← srdb_table_by_name srdb_tables "FlowState";
            op ← srdb_update tbl fe FE_SEGMENTS;
            if accepts op then Some (fl, [op]) else None
      end
  | _, _ => Some (set_status fl FLOW_STATUS_ORPHAN, [])
  end.

Fixpoint epath_affected (ns : netstate) (es : list vedge) : option bool :=
  match es with
  | [] => Some false
  | e1 :: es =>
      e2 ← graph_get_edge_noref (ns_store ns) (ns_graph ns) (v_eid e1);
      match e2 with
      | None => Some true
      | Some e2 => ed ← s_edges (ns_store ns) !! e2; if negb (v_metric e1 =? e_metric ed) then Some true else epath_affected ns es
      end
  end.

(** A NULL [epath] is dereferenced by llist_node_foreach. *)
Fixpoint prefixes_affected (ns : netstate) (ps : list src_prefix) : option bool :=
  match ps with
  | [] => Some false
  | p :: ps => es ← sp_epath p; b ← epath_affected ns es; if (b : bool) then Some true else prefixes_affected ns ps
  end.

Definition flow_affected (ns : netstate) (fl : flow) : option bool := prefixes_affected ns (f_prefixes fl).

(** The first loop: hold the affected flows. *)
Fixpoint affected_flows (ns : netstate) (heap : gmap Z flow) (entries : list (in6_addr * Z)) : option (gmap Z flow * list Z) :=
  match entries with
  | [] => Some (heap, [])
  | (_, p) :: entries =>
      fl ← heap !! p;
      b ← flow_affected ns fl;
      if (b : bool) then
        heap ← flow_hold heap p;
        '(heap, nhead) ← affected_flows ns heap entries;
        Some (heap, p :: nhead)
      else affected_flows ns heap entries
  end.

(** The second loop: recompute and release them. *)
Fixpoint recompute_list (ns : netstate) (heap : gmap Z flow) (nhead : list Z) : option (gmap Z flow * list dbop) :=
  match nhead with
  | [] => Some (heap, [])
  | p :: nhead =>
      fl ← heap !! p;
      '(fl, ops) ← recompute_flow ns fl;
      heap ← flow_release (<[p := fl]> heap) p;
      '(heap, ops') ← recompute_list ns heap nhead;
      Some (heap, ops ++ ops')
  end.

Definition recompute_flows (c : ctrl) : option (ctrl * list dbop) :=
  '(heap, nhead) ← affected_flows (c_ns c) (c_heap c) (c_flows c);
  '(heap, ops) ← recompute_list (c_ns c) heap nhead;
  Some (set_flows c (c_flows c) heap, ops).

(** ** The monitoring thread *)

Definition GSYNC_SOFT_TIMEOUT := 5.
Definition GSYNC_HARD_TIMEOUT := 50.
Definition GC_FLOWS_TIMEOUT := 1000.

Definition set_ns (c : ctrl) (ns : netstate) : ctrl :=
  Ctrl ns (c_rules c) (c_defrule c) (c_providers c) (c_flows c) (c_heap c).

Definition must_sync (now : timeval) (ns : netstate) : bool :=
  dirty (ns_staging ns) && ((GSYNC_SOFT_TIMEOUT <? getmsdiff now (gs_mod ns)) || (GSYNC_HARD_TIMEOUT <? getmsdiff now (gs_dirty ns))).

(** One turn of the loop of [thread_netmon] at time [now], [time_] being what
    time(NULL) gives: the controller, [gc_time]. *)
Definition netmon_turn (now : timeval) (time_ : Z) (c : ctrl) (gc_time : timeval) : option (ctrl * timeval * list dbop) :=
  '(c, gc_time, ops) ← (if GC_FLOWS_TIMEOUT <? getmsdiff now gc_time
                        then '(c, ops) ← gc_flows time_ c; Some (c, now, ops)
                        else Some (c, gc_time, []));
  if must_sync now (c_ns c) then
    '(ret, ns) ← netstate_graph_sync (c_ns c);
    if ret <? 0 then Some (set_ns c ns, gc_time, ops)
    else '(c, ops') ← recompute_flows (set_ns c ns); Some (c, gc_time, ops ++ ops')
  else Some (c, gc_time, ops).
End controller.

(** ** The graph a request is computed on *)

(** The links with the requested bandwidth left. *)
Definition usable (bw : Z) (l : list tlink) : list tlink :=
  if bw =? 0 then l else List.filter (fun t => bw <=? tl_ava_bw t) l.

Lemma live_wfg ns tp : refines ns tp -> wfg (ns_store ns) (ns_graph ns) (g_nodes (ns_staging ns)) (g_edges (ns_staging ns)).
Proof.
  intros R. split; [apply (rf_live _ _ R)|]. rewrite (Permutation_app_comm (g_nodes (ns_graph ns))), (Permutation_app_comm (g_edges (ns_graph ns))).
  apply (rf_wf _ _ R).
Qed.

Lemma live_link ns tp e : refines ns tp -> e ∈ g_edges (ns_graph ns) -> exists ed l, s_edges (ns_store ns) !! e = Some ed /\ ns_links ns !! e_data ed = Some l.
Proof.
  intros R He. destruct (gi_edge _ _ (lo_inv _ _ _ _ _ (rf_live _ _ R)) e He) as (ed & Hed & _).
  destruct (lk_some _ _ _ (rf_data _ _ R) e ed) as (_ & l & Hl); [apply elem_of_app; by right|done|]. by exists ed, l.
Qed.

(** Pruning the clone is taking the usable links of the topology. *)
Lemma pre_prune_usable ns tp bw st gc :
  refines ns tp -> gframe (ns_graph ns) (ns_store ns) st -> g_nodes gc = g_nodes (ns_graph ns) -> g_edges gc = g_edges (ns_graph ns) ->
  exists gc1, pre_prune (ns_links ns) bw st gc = Some gc1 /\ g_nodes gc1 = g_nodes (ns_graph ns) /\ NoDup (g_edges gc1) /\
    (forall e, e ∈ g_edges gc1 -> e ∈ g_edges (ns_graph ns)) /\ map (tl_of st (ns_links ns)) (g_edges gc1) = usable bw (tp_pub tp).
Proof.
  intros R F HN HE. pose proof (rf_live _ _ R) as L. pose proof (lo_inv _ _ _ _ _ L) as G.
  assert (map (tl_of st (ns_links ns)) (g_edges (ns_graph ns)) = tp_pub tp) as Hp.
  { rewrite <- (lo_pub _ _ _ _ _ L). by apply tl_map_frame. }
  unfold pre_prune, usable. destruct (bw =? 0) eqn:E.
  { exists gc. rewrite HE. split_and!; [done|done|apply G|done|done]. }
  destruct (graph_prune_keeps st gc (prune_bw (ns_links ns) bw)) as (n & gc1 & -> & HN1 & HE1).
  { intros e He. rewrite HE in He. destruct (proj2 F e He) as (? & ed & _ & Hed & _). by exists ed. }
  cbn [mbind option_bind]. exists gc1. rewrite HE1, HE, <- Hp. split_and!; [done|congruence| | |].
  - apply NoDup_ListNoDup, List.NoDup_filter, NoDup_ListNoDup, G.
  - intros e He. apply list_elem_of_In, filter_In in He as [He _]. by apply list_elem_of_In.
  - assert (forall e, e ∈ g_edges (ns_graph ns) -> (match s_edges st !! e with Some ed => negb (prune_bw (ns_links ns) bw ed) | None => true end) =
      (bw <=? tl_ava_bw (tl_of st (ns_links ns) e))) as Hf.
    { intros e He. destruct (proj2 F e He) as (ed & ed' & Hed & Hed' & _ & _ & _ & _ & Hd & _). destruct (live_link ns tp e R He) as (? & l & ? & Hl).
      simplify_eq. unfold tl_of, prune_bw. rewrite Hed', <- Hd, Hl. cbn [tl_ava_bw]. by rewrite Z.leb_antisym. }
    clear -Hf. induction (g_edges (ns_graph ns)) as [|e es IH]; [done|]. cbn [List.filter map]. rewrite (Hf e) by (by left).
    destruct (bw <=? _); cbn [map]; rewrite IH; try done; intros; apply Hf; by right.
Qed.

Lemma pruned_clone_ok ns tp bw :
  refines ns tp -> exists gc, pruned_clone ns bw = Some gc /\ WfView gc /\ nodes gc = nodes (ns_view ns) /\
    (forall a b e, min_edges gc !! (a, b) = Some e -> exists t, t ∈ usable bw (tp_pub tp) /\ tl_delay t = link_delay (ns_links ns) e) /\
    forall a b w, wt gc a b = Some w <-> best (usable bw (tp_pub tp)) a b w.
Proof.
  intros R. pose proof (lo_inv _ _ _ _ _ (rf_live _ _ R)) as G. unfold pruned_clone.
  destruct (graph_clone_ok _ _ _ _ (live_wfg ns tp R)) as (st & gc & -> & F & HN & HE). cbn [mbind option_bind].
  destruct (pre_prune_usable ns tp bw st gc R F HN HE) as (gc1 & -> & HN1 & Hnd & Hsub & Hmap). cbn [mbind option_bind].
  destruct (finalize_sub st (ns_graph ns) gc1 (gframe_ginv _ _ _ G F) HN1 Hnd Hsub) as (gc2 & -> & W & Hn & Hme & Hwt). cbn [mbind option_bind].
  assert (forall e, e ∈ g_edges gc1 -> exists ed l, s_edges st !! e = Some ed /\ ns_links ns !! e_data ed = Some l) as Hlk.
  { intros e He%Hsub. destruct (proj2 F e He) as (ed & ed' & Hed & Hed' & _ & _ & _ & _ & Hd & _). destruct (live_link ns tp e R He) as (? & l & ? & Hl).
    simplify_eq. exists ed', l. by rewrite <- Hd. }
  eexists. split; [done|]. split_and!; [done| | |].
  - rewrite Hn. cbn [nodes ns_view graph_view]. apply map_ext_in. intros x Hx%list_elem_of_In. by eapply gframe_idz.
  - intros a b ve Hve. destruct (Hme _ _ Hve) as (e & He & ->). destruct (Hlk e He) as (ed & l & Hed & Hl).
    exists (tl_of st (ns_links ns) e). rewrite <- Hmap. split; [by apply list_elem_of_fmap_2|].
    unfold tl_of, link_delay, vedge_of. rewrite Hed. cbn [v_edata]. by rewrite Hl.
  - intros a b w. rewrite Hwt, <- Hmap. apply (finalized_best st (ns_links ns)); [|done]. intros e He.
    destruct (Hlk e He) as (ed & l & Hed & Hl). by eauto.
Qed.

(** Without a bandwidth the clone has the routes of the published graph. *)
Lemma pruned_clone_twin ns tp gc :
  refines ns tp -> pruned_clone ns 0 = Some gc -> WfView gc /\ twin (ns_view ns) gc.
Proof.
  intros R Hc. destruct (pruned_clone_ok ns tp 0 R) as (gc' & Hc' & W & Hn & _ & Hwt). rewrite Hc in Hc'. simplify_eq.
  split; [done|]. split; [done|]. intros a b. apply option_eq. intros w. rewrite Hwt. symmetry. apply (lo_wt _ _ _ _ _ (rf_live _ _ R)).
Qed.

(** ** Least-delay paths *)

(** The same graph with another weight on its links. *)
Definition reweigh (f : vedge -> Z) (g : view) : view :=
  View (nodes g) (neighs g) ((fun e => VEdge (v_eid e) (v_local e) (v_remote e) (f e) (v_edata e)) <$> min_edges g).

Lemma dijkstra_reweigh (ops : d_ops unit) (f : vedge -> Z) (g : view) (src : Z) :
  (forall c e s, op_cost ops c e s = wrap32 (c + f e)) -> graph_dijkstra ops g src = graph_dijkstra no_ops (reweigh f g) src.
Proof.
  intros Hc. assert (forall u s v, relax ops g u s v = relax no_ops (reweigh f g) u s v) as Hr.
  { intros u s v. unfold relax. destruct (bool_decide _); [|done]. cbn [min_edges reweigh]. rewrite lookup_fmap.
    destruct (min_edges g !! (u, v)) as [e|]; cbn [fmap option_fmap option_map mbind option_bind]; [|done].
    rewrite Hc. cbn [op_cost op_update no_ops v_metric]. by destruct (op_update ops e (ustate s)), (ustate s). }
  assert (forall u vs s, relax_all ops g u s vs = relax_all no_ops (reweigh f g) u s vs) as Ha.
  { intros u. induction vs as [|v vs IH]; intros s; [done|]. cbn [relax_all]. rewrite Hr. destruct (relax _ _ u s v); cbn [mbind option_bind]; [apply IH|done]. }
  assert (forall fuel s, dijkstra_loop ops g fuel s = dijkstra_loop no_ops (reweigh f g) fuel s) as Hl.
  { induction fuel as [|fuel IH]; intros s; [done|]. cbn [dijkstra_loop nodes neighs reweigh]. destruct (Q s) as [|x l] eqn:EQ; [done|].
    destruct (find_min _ _ _ _) as [u|]; [|done]. destruct (compute_paths _ _ _); cbn [mbind option_bind]; [|done].
    destruct (neighs g !! u) as [vs|]; cbn [mbind option_bind]; [|done]. rewrite Ha.
    destruct (relax_all _ _ _ _ _); cbn [mbind option_bind]; [apply IH|done]. }
  unfold graph_dijkstra. cbn [nodes reweigh]. destruct (init_maps _ _ _ _ _) as [[d p] pa]. rewrite Hl. by destruct (op_init ops g src).
Qed.

(** The weights a request minimises: metrics, or delays when it asks for one. *)
Definition weight_view (links : gmap Z link) (delay : Z) (gc : view) : view :=
  if delay =? 0 then gc else reweigh (link_delay links) gc.

Lemma segpath_weights ns gc src dst delay :
  build_segpath (ns_view ns) (ns_dcache ns)
    (PathSpec src dst [] (Some (fun _ => gc)) (if delay =? 0 then no_ops else delay_min_ops (ns_links ns))) =
  build_segpath (ns_view ns) (ns_dcache ns) (PathSpec src dst [] (Some (fun _ => weight_view (ns_links ns) delay gc)) no_ops).
Proof.
  unfold weight_view. destruct (delay =? 0); [done|]. unfold build_segpath, build_segpath_on, path_view.
  cbn [ps_prune ps_ops ps_src ps_via ps_dst app segpath_legs]. unfold segpath_leg.
  by rewrite (dijkstra_reweigh _ (link_delay (ns_links ns))) by done.
Qed.

Lemma wt_reweigh f g a b : wt (reweigh f g) a b = match wt g a b with Some _ => f <$> min_edges g !! (a, b) | None => None end.
Proof.
  unfold wt. cbn [neighs min_edges reweigh]. destruct (a =? b); [done|]. destruct (neighs g !! a); [|done]. case_bool_decide; [|done].
  rewrite lookup_fmap. by destruct (min_edges g !! (a, b)).
Qed.

Lemma reweigh_wf f g :
  WfView g -> (forall a b e, min_edges g !! (a, b) = Some e -> 0 <= f e < UINT32_MAX) -> WfView (reweigh f g).
Proof.
  intros W Hf. split; cbn [nodes neighs min_edges reweigh]; [apply W|apply W| |].
  - intros u vs v Hu Hv Hne. destruct (wf_min u vs v Hu Hv Hne) as (e & He & _). eexists. rewrite lookup_fmap, He. split; [done|]. by eapply Hf.
  - intros u v e He. rewrite lookup_fmap in He. apply fmap_Some in He as (e0 & He0 & ->). by destruct (wf_edge u v e0 He0).
Qed.

(** ** Bounds of a topology *)

(** Metrics (of links that are up) and delays between 1 and [M], small enough
    for the distances of [n] nodes to stay below UINT32_MAX. *)
Definition topo_bounded (l : list tlink) (n : nat) (M : Z) : Prop :=
  0 <= M < UINT32_MAX /\ Z.of_nat n * M < UINT32_MAX /\
  forall t, t ∈ l -> (tl_metric t = UINT32_MAX \/ 1 <= tl_metric t <= M) /\ 1 <= tl_delay t <= M.

Lemma usable_sub bw l t : t ∈ usable bw l -> t ∈ l.
Proof. unfold usable. destruct (bw =? 0); [done|]. intros Ht. by apply list_elem_of_In, filter_In in Ht as [Ht%list_elem_of_In _]. Qed.

Lemma best_exists l a b t : t ∈ l -> a <> b -> tl_from t = a -> tl_to t = b -> tl_metric t < UINT32_MAX -> exists w, best l a b w.
Proof.
  intros Ht Hab Hf Hto Hm. assert (forall k : list tlink, (forall x, x ∈ k -> x ∈ l) -> exists w, w < UINT32_MAX /\
    (exists t, t ∈ l /\ tl_from t = a /\ tl_to t = b /\ tl_metric t = w) /\ forall t, t ∈ k -> tl_from t = a -> tl_to t = b -> w <= tl_metric t) as H.
  { induction k as [|x k IH]; intros Hk.
    - exists (tl_metric t). split_and!; [done|by exists t|]. by intros y ?%not_elem_of_nil.
    - destruct IH as (w & Hw & Hex & Hmin); [intros; apply Hk; by right|].
      destruct (decide (tl_from x = a /\ tl_to x = b /\ tl_metric x < w)) as [(H1 & H2 & H3)|Hno].
      + exists (tl_metric x). split_and!; [lia|exists x; split_and!; try done; apply Hk; by left|].
        intros y [->|Hy]%elem_of_cons ? ?; [lia|]. specialize (Hmin y Hy). lia.
      + exists w. split_and!; [done|done|]. intros y [->|Hy]%elem_of_cons ? ?; [|by apply Hmin]. destruct (decide (tl_metric x < w)); [exfalso; by apply Hno|lia]. }
  destruct (H l) as (w & Hw & Hex & Hmin); [done|]. exists w. by split_and!.
Qed.

Lemma usable_best bw l a b w : best (usable bw l) a b w -> exists w', best l a b w'.
Proof. intros (Hab & Hw & (t & Ht & H1 & H2 & H3) & _). eapply (best_exists l a b t); try done; [by eapply usable_sub|lia]. Qed.

Lemma best_metrics v bw l M :
  topo_bounded l (length (nodes v)) M -> (forall a b w, wt v a b = Some w -> best (usable bw l) a b w) -> metrics_ok v 1 M.
Proof.
  intros (HM & Hn & Hl) Hwt. split_and!; [lia|done|]. intros a b w Hw%Hwt. destruct Hw as (_ & Hlt & (t & Ht%usable_sub & _ & _ & <-) & _).
  destruct (Hl t Ht) as [[?|?] _]; lia.
Qed.

Section segpath.
Context (ns : netstate) (tp : topo) (M : Z).
Hypothesis R : refines ns tp.
Hypothesis B : topo_bounded (tp_pub tp) (length (nodes (ns_view ns))) M.

Lemma ns_view_wf : WfView (ns_view ns).
Proof. apply (rf_live _ _ R). Qed.

Lemma ns_view_metrics : metrics_ok (ns_view ns) 1 M.
Proof. apply (best_metrics _ 0 (tp_pub tp)); [done|]. intros a b w Hw. by apply (lo_wt _ _ _ _ _ (rf_live _ _ R)). Qed.

(** The weights of a request are those of a well-formed graph. *)
Lemma weight_view_ok bw delay gc :
  pruned_clone ns bw = Some gc -> WfView gc -> nodes gc = nodes (ns_view ns) ->
  (forall a b e, min_edges gc !! (a, b) = Some e -> exists t, t ∈ usable bw (tp_pub tp) /\ tl_delay t = link_delay (ns_links ns) e) ->
  (forall a b w, wt gc a b = Some w <-> best (usable bw (tp_pub tp)) a b w) ->
  let cv := weight_view (ns_links ns) delay gc in
  WfView cv /\ metrics_ok cv 1 M /\ nodes cv = nodes (ns_view ns) /\ forall a b, is_Some (wt cv a b) -> is_Some (wt (ns_view ns) a b).
Proof.
  intros Hc W Hn He Hwt cv. assert (forall a b, is_Some (wt gc a b) -> is_Some (wt (ns_view ns) a b)) as Hsub.
  { intros a b [w Hw]. apply Hwt, usable_best in Hw as [w' Hw']. exists w'. by apply (lo_wt _ _ _ _ _ (rf_live _ _ R)). }
  unfold cv, weight_view. destruct (delay =? 0).
  { split_and!; [done| |done|done]. apply (best_metrics _ bw (tp_pub tp)); [by rewrite Hn|]. intros a b w. by apply Hwt. }
  assert (forall a b e, min_edges gc !! (a, b) = Some e -> 1 <= link_delay (ns_links ns) e <= M) as Hd.
  { intros a b e Hab. destruct (He a b e Hab) as (t & Ht%usable_sub & <-). by apply B. }
  destruct B as (HM & HnM & _). split_and!.
  - apply reweigh_wf; [done|]. intros a b e Hab. specialize (Hd a b e Hab). lia.
  - split_and!; [lia|cbn [nodes reweigh]; by rewrite Hn|]. intros a b w. rewrite wt_reweigh. destruct (wt gc a b); [|done].
    intros (e & Hab & ->)%fmap_Some. by eapply Hd.
  - done.
  - intros a b. rewrite wt_reweigh. intros [w Hw]. apply Hsub. destruct (wt gc a b); [by eexists|done].
Qed.

Lemma flow_segpath_chosen src dst bw delay :
  src ∈ nodes (ns_view ns) -> dst ∈ nodes (ns_view ns) ->
  exists gc, pruned_clone ns bw = Some gc /\ (forall a b w, wt gc a b = Some w <-> best (usable bw (tp_pub tp)) a b w) /\
    let cv := weight_view (ns_links ns) delay gc in
    ((exists segs es q c, flow_segpath ns src dst bw delay = Some (Some (segs, Some es)) /\ shortest cv src dst q c /\
        Forall (seg_in (ns_view ns)) segs /\ map v_remote es = rev q /\ map v_local es = removelast (src :: rev q)) \/
     (flow_segpath ns src dst bw delay = Some None /\ forall q c, ~ walk cv src dst q c)).
Proof.
  intros Hs Hd. destruct (pruned_clone_ok ns tp bw R) as (gc & Hc & W & Hn & He & Hwt). exists gc. split_and!; [done|done|]. intros cv.
  destruct (weight_view_ok bw delay gc Hc W Hn He Hwt) as (Wc & Mc & Nc & Sc). fold cv in Wc, Mc, Nc, Sc.
  unfold flow_segpath. rewrite Hc. cbn [mbind option_bind]. rewrite segpath_weights. fold cv.
  apply (build_segpath_chosen (ns_view ns) M M (ns_dcache ns) (PathSpec src dst [] (Some (fun _ => cv)) no_ops)); try done.
  - apply ns_view_wf.
  - apply ns_view_metrics.
  - apply (rf_live _ _ R).
Qed.

Lemma flow_segpath_default src dst :
  src ∈ nodes (ns_view ns) -> dst ∈ nodes (ns_view ns) ->
  (exists segs es q c, flow_segpath ns src dst 0 0 = Some (Some (segs, Some es)) /\ shortest (ns_view ns) src dst q c /\
     forwards (ns_view ns) src segs (rev q) dst /\ Forall (seg_in (ns_view ns)) segs /\
     map v_remote es = rev q /\ map v_local es = removelast (src :: rev q)) \/
  (flow_segpath ns src dst 0 0 = Some None /\ forall q c, ~ walk (ns_view ns) src dst q c).
Proof.
  intros Hs Hd. destruct (pruned_clone_ok ns tp 0 R) as (gc & Hc & _). destruct (pruned_clone_twin ns tp gc R Hc) as [W Ht].
  unfold flow_segpath. rewrite Hc. cbn [mbind option_bind]. change (0 =? 0) with true. cbn match.
  apply (build_segpath_direct (ns_view ns) M (ns_dcache ns) (PathSpec src dst [] (Some (fun _ => gc)) no_ops)); try done.
  - apply ns_view_wf.
  - apply ns_view_metrics.
  - apply (rf_live _ _ R).
Qed.
End segpath.

(** ** Transactions *)

(** The kinds of the cells of an entry, which stores keep. *)
Lemma shape_put e o c : shape e !! o = Some (ckind c) -> shape (<[o := c]> e) = shape e.
Proof. intros H. unfold shape in *. rewrite fmap_insert. by apply insert_id. Qed.

Lemma put_str_shape e o n cap s : shape e !! o = Some (TChar cap) -> (n <? cap)%nat = true -> put_str e o n s = Some (<[o := CBuf cap (strncpy n s)]> e).
Proof.
  unfold shape, put_str. rewrite lookup_fmap. destruct (e !! o) as [[]|]; cbn; try done. intros [= ->] ->. done.
Qed.
Lemma put_int_shape e o z : shape e !! o = Some TInt -> put_int e o z = Some (<[o := CInt z]> e).
Proof. unfold shape, put_int. rewrite lookup_fmap. by destruct (e !! o) as [[]|]. Qed.
Lemma put_ptr_shape e o s : shape e !! o = Some TPtr -> put_ptr e o s = Some (<[o := CPtr (Some s)]> e).
Proof. unfold shape, put_ptr. rewrite lookup_fmap. by destruct (e !! o) as [[]|]. Qed.

(** A store at a field, whatever was stored before. *)
Ltac known_shape := unfold shape; rewrite ?fmap_insert; cbn [ckind]; vm_compute; reflexivity.
Ltac put_field :=
  first [rewrite (put_str_shape _ _ _ (S SLEN)) by first [known_shape | reflexivity]
        | rewrite put_int_shape by known_shape | rewrite put_ptr_shape by known_shape];
  cbn [mbind option_bind].

Section transactions.
Context {J : Jansson} {T : JanssonText J} (inet_pton : string -> option in6_addr) (inet_ntop : in6_addr -> string).

Definition status_op (table row : string) (st : Z) : dbop :=
  DbUpdate table row (json_object_set json_object "status" (json_integer st)).

Lemma set_flowreq_status_ok req st : set_flowreq_status req st = Some (status_op "FlowReq" (rq_row req) st).
Proof. vm_compute. reflexivity. Qed.

Lemma set_flow_status_ok fl st :
  set_flow_status fl st = Some (set_status fl st, status_op "FlowState" (strncpy SLEN (f_uuid fl)) st).
Proof.
  unfold set_flow_status. change (srdb_table_by_name srdb_tables "FlowState") with (Some (Table "FlowState" srdb_flow_entry flowstate_desc_tmpl)).
  cbn [mbind option_bind]. generalize (strncpy SLEN (f_uuid fl)). intros s. vm_compute. reflexivity.
Qed.

(** The fields of a flow's row. *)
Definition flow_cells (ns : netstate) (fl : flow) (jsegs : json) (rtname : string) : list (string * cell) :=
  let str s := CBuf (S SLEN) (strncpy SLEN s) in let int z := CInt (to_int z) in
  [("row", str (f_uuid fl)); ("destination", str (f_dst fl)); ("source", str (f_src fl));
   ("dstaddr", CBuf (S SLEN) (strncpy 45 (inet_ntop (f_dstaddr fl)))); ("segments", CPtr (Some (json_dumps jsegs)));
   ("sourceIPs", CPtr (Some (json_dumps (pref_srcips_to_json inet_ntop fl)))); ("bsid", CPtr (Some (json_dumps (pref_bsid_to_json inet_ntop fl))));
   ("router", str rtname); ("proxy", str (f_proxy fl)); ("request_id", str (f_reqid fl)); ("bandwidth", int (f_bw fl)); ("delay", int (f_delay fl));
   ("ttl", int (f_ttl fl)); ("idle", int (f_idle fl)); ("timestamp", int (f_timestamp fl)); ("status", int (f_status fl))].

Definition put_cells (e : entry) (l : list (string * cell)) : entry :=
  foldl (fun e fc => <[offsetof srdb_flow_entry fc.1 := fc.2]> e) e l.

Lemma flow_to_flowentry_all ns fl j rt :
  pref_segs_to_json inet_ntop ns fl = Some j -> ns_rts ns !! f_srcrt fl = Some rt ->
  flow_to_flowentry inet_ntop ns fl FE_ALL = Some (put_cells (calloc_entry srdb_flow_entry) (flow_cells ns fl j (rt_name rt))).
Proof.
  intros Hj Hrt. unfold flow_to_flowentry, when. rewrite Hj, Hrt. cbn [mbind option_bind].
  put_field. repeat (match goal with |- context [mask_has FE_ALL ?f] => change (mask_has FE_ALL f) with true end; cbn match; put_field).
  reflexivity.
Qed.

Definition flow_table : srdb_table := Table "FlowState" srdb_flow_entry flowstate_desc_tmpl.

Lemma put_cells_shape ns fl j name : shape (put_cells (calloc_entry srdb_flow_entry) (flow_cells ns fl j name)) = shape (calloc_entry srdb_flow_entry).
Proof. unfold put_cells, flow_cells. cbn [foldl fst snd]. known_shape. Qed.

Context `{!JanssonLaws J}.

(** The row of an entry with the cells of its table. *)
Lemma srdb_insert_shape tbl e : tbl ∈ srdb_tables -> shape e = shape (calloc_entry (t_struct tbl)) ->
  exists row, srdb_insert tbl e = Some (DbInsert (t_name tbl) row) /\
    forall d, d ∈ drop 2 (t_desc tbl) -> json_object_get row (d_name d) = column e d.
Proof.
  intros Ht Hs. destruct (insert_row_kinds tbl e Ht) as (row & Hr & _ & Hcol).
  - intros d Hd. pose proof (table_wf_of tbl Ht) as [Htd _ _ _ _ _ _]. destruct (tw_cell _ _ (table_wf_of tbl Ht) d) as (c & Hc & Hk); [rewrite Htd; by apply elem_of_app; right|].
    assert (shape e !! d_offset d = Some (ckind c)) as He by (rewrite Hs; unfold shape; by rewrite lookup_fmap, Hc).
    unfold shape in He. rewrite lookup_fmap in He. destruct (e !! d_offset d) as [c'|]; [|done]. exists c'. split; [done|].
    injection He as He. revert He Hk. clear. unfold kind_ok. destruct (d_type d), c, c'; cbn [ckind]; congruence.
  - exists row. unfold srdb_insert. rewrite Hr. by split.
Qed.

(** The columns a router reads of a flow. *)
Definition flow_row (row : json) (name : string) (jsegs jbsids : json) : Prop :=
  json_object_get row "segments" = json_string (json_dumps jsegs) /\ json_object_get row "bsid" = json_string (json_dumps jbsids) /\
  json_object_get row "router" = json_string (strncpy SLEN name).

(** ... and those the proxy reads. *)
Definition answer_row (row : json) (jsrcips : json) (reqid : string) : Prop :=
  json_object_get row "sourceIPs" = json_string (json_dumps jsrcips) /\ json_object_get row "request" = json_string (strncpy SLEN reqid).

(** What [commit_flow] sends, and what it makes of the reply. *)
Lemma commit_flow_ok ns reply fl j rt ret uuid :
  pref_segs_to_json inet_ntop ns fl = Some j -> ns_rts ns !! f_srcrt fl = Some rt -> srdb_insert_result reply = Some (ret, uuid) ->
  exists row, commit_flow inet_ntop ns reply fl = Some (ret, match uuid with Some u => set_uuid fl u | None => fl end, DbInsert "FlowState" row) /\
    flow_row row (rt_name rt) j (pref_bsid_to_json inet_ntop fl) /\ answer_row row (pref_srcips_to_json inet_ntop fl) (f_reqid fl).
Proof.
  intros Hj Hrt Hr. unfold commit_flow. change (srdb_table_by_name srdb_tables "FlowState") with (Some flow_table). cbn [mbind option_bind].
  rewrite (flow_to_flowentry_all ns fl j rt Hj Hrt). cbn [mbind option_bind].
  destruct (srdb_insert_shape flow_table _ ltac:(apply list_elem_of_In; simpl; auto) (put_cells_shape ns fl j (rt_name rt))) as (row & -> & Hcol). cbn [mbind option_bind]. rewrite Hr. cbn [mbind option_bind].
  exists row. split; [done|].
  assert (forall n t i m f c, Desc n t i m false (offsetof srdb_flow_entry f) ∈ drop 2 flowstate_desc_tmpl ->
    put_cells (calloc_entry srdb_flow_entry) (flow_cells ns fl j (rt_name rt)) !! offsetof srdb_flow_entry f = Some c ->
    json_object_get row n = match t, c with SRDB_STR, CBuf _ s => json_string s | SRDB_INT, CInt z => Some (json_integer z) | SRDB_VARSTR, CPtr p => s ← p; json_string s | _, _ => None end) as Hf.
  { intros n t i m f c Hin Hc. specialize (Hcol _ Hin). unfold column in Hcol. cbn [d_type d_offset d_name] in Hcol. by rewrite Hc in Hcol. }
  unfold flow_row, answer_row. split_and!;
    [refine (Hf "segments" SRDB_VARSTR 4 BUFLEN "segments" (CPtr (Some _)) _ _)|refine (Hf "bsid" SRDB_VARSTR 3 BUFLEN "bsid" (CPtr (Some _)) _ _)
    |refine (Hf "router" SRDB_STR 10 SLEN "router" (CBuf (S SLEN) _) _ _)|refine (Hf "sourceIPs" SRDB_VARSTR 9 BUFLEN "sourceIPs" (CPtr (Some _)) _ _)
    |refine (Hf "request" SRDB_STR 14 SLEN "request_id" (CBuf (S SLEN) _) _ _)];
    first [apply list_elem_of_In; simpl; by auto 20
      |unfold put_cells, flow_cells; cbn [foldl fst snd]; (repeat (rewrite lookup_insert_ne by (vm_compute; discriminate))); by rewrite lookup_insert_eq].
Qed.
End transactions.

(** ** The table of flows *)

Lemma compare_in6_eq (a b : in6_addr) : length a = 16%nat -> length b = 16%nat -> compare_in6 a b = 0 -> a = b.
Proof.
  intros Ha Hb Hc. unfold compare_in6 in Hc. rewrite memcmp_0 in Hc. apply list_eq_same_length with 16%nat; [done|done|].
  intros i x y Hi Hx Hy. specialize (Hc i Hi). unfold byte_at, in6_addr in *. by rewrite Hx, Hy in Hc.
Qed.

(** Keys are addresses, all different. *)
Definition keys_ok (l : list (in6_addr * Z)) : Prop := NoDup (map fst l) /\ Forall (fun x => length x.1 = 16%nat) l.

Lemma aget_in (l : list (in6_addr * Z)) k p : keys_ok l -> (k, p) ∈ l -> aget l k = Some p.
Proof.
  intros [Hn Hl]. induction l as [|[k' p'] l IH]; [by intros ?%not_elem_of_nil|]. cbn [aget]. apply Forall_cons in Hl as [Hk' Hl].
  cbn [map fst] in Hn. apply NoDup_cons in Hn as [Hnk Hn]. intros [[= <- <-]|Hin]%elem_of_cons.
  - by rewrite (proj2 (Z.eqb_eq _ _) (compare_refl k)).
  - destruct (Z.eqb_spec (Hashmap.compare k' k) 0) as [E|_]; [|by apply IH]. exfalso. rewrite Forall_forall in Hl.
    apply compare_in6_eq in E; [|done|by apply (Hl (k, p))]. subst. apply Hnk. apply list_elem_of_fmap. by exists (k, p).
Qed.

Lemma aget_notin (l : list (in6_addr * Z)) k : Forall (fun x => length x.1 = 16%nat) l -> length k = 16%nat -> k ∉ map fst l -> aget l k = None.
Proof.
  intros Hl Hk Hn. induction l as [|[k' p'] l IH]; [done|]. cbn [aget]. apply Forall_cons in Hl as [Hk' Hl]. cbn [map fst] in Hn.
  apply not_elem_of_cons in Hn as [Hne Hn]. destruct (Z.eqb_spec (Hashmap.compare k' k) 0) as [E|_]; [|by apply IH].
  apply compare_in6_eq in E; [congruence|done|done].
Qed.

Lemma aget_none_in (l : list (in6_addr * Z)) k : keys_ok l -> aget l k = None -> k ∉ map fst l.
Proof. intros Hk Hg (x & -> & Hx)%list_elem_of_fmap. destruct x as [k p]. cbn [fst] in Hg. by rewrite (aget_in l k p Hk Hx) in Hg. Qed.

(** The invariant of the workers and the monitor: every table entry has its
    flow, which the table alone holds; no flow is outside the table. *)
Record cwf (c : ctrl) : Prop := {
  cw_keys : keys_ok (c_flows c);
  cw_ptrs : NoDup (map snd (c_flows c));
  cw_heap : forall p, is_Some (c_heap c !! p) <-> p ∈ map snd (c_flows c);
  cw_flow : forall k p fl, (k, p) ∈ c_flows c -> c_heap c !! p = Some fl -> f_refcount fl = 1 /\ f_prefixes fl <> [] /\
    Forall (fun x => sp_bsid x = k /\ is_Some (sp_epath x)) (f_prefixes fl)
}.

Lemma cwf_epaths c p fl : cwf c -> c_heap c !! p = Some fl -> Forall (fun x => is_Some (sp_epath x)) (f_prefixes fl).
Proof.
  intros W Hp. assert (p ∈ map snd (c_flows c)) as Hin by (apply (cw_heap _ W); by eexists). apply list_elem_of_fmap in Hin as ([k p'] & -> & Hin).
  destruct (cw_flow _ W k p' fl Hin Hp) as (_ & _ & HF). eapply Forall_impl; [exact HF|]. by intros x [_ ?].
Qed.

(** ** Binding segments *)

(** The address with prefix [pb] and the rest of [r]. *)
Definition bsid_of (pb : prefix) (r : list Z) : in6_addr :=
  let k := Z.to_nat (16 - Z.shiftr (128 - p_len pb) 3) in take k (p_addr pb) ++ drop k r.

Lemma bsid_len pb : 0 <= p_len pb <= 128 -> 0 <= Z.shiftr (128 - p_len pb) 3 <= 16.
Proof. intros H. rewrite Z.shiftr_div_pow2 by lia. change (2 ^ 3) with 8. split; [apply Z.div_pos; lia|]. apply Z.div_le_upper_bound; lia. Qed.

Lemma generate_bsid_ok pb r : 0 <= p_len pb <= 128 -> generate_bsid pb r = Some (bsid_of pb r).
Proof.
  intros H. pose proof (bsid_len pb H). unfold generate_bsid. rewrite (proj2 (andb_true_iff _ _)); [done|]. rewrite !Z.leb_le. lia.
Qed.

Lemma bsid_of_length pb r : 0 <= p_len pb <= 128 -> length (p_addr pb) = 16%nat -> length r = 16%nat -> length (bsid_of pb r) = 16%nat.
Proof.
  intros H Ha Hr. pose proof (bsid_len pb H). unfold bsid_of. rewrite length_app, length_take, length_drop, Ha, Hr. lia.
Qed.

(** The loop ends exactly when a draw gives a free address, with the first. *)
Lemma generate_unique_bsid_ok flows pb rnd b :
  0 <= p_len pb <= 128 ->
  generate_unique_bsid flows pb rnd = Some b <->
  exists l1 r l2, rnd = l1 ++ r :: l2 /\ b = bsid_of pb r /\ aget flows b = None /\ Forall (fun r => is_Some (aget flows (bsid_of pb r))) l1.
Proof.
  intros Hp. induction rnd as [|r rnd IH]; cbn [generate_unique_bsid].
  { split; [done|]. by intros ([] & r & l2 & ? & _). }
  rewrite generate_bsid_ok by done. cbn [mbind option_bind]. destruct (aget flows (bsid_of pb r)) as [v|] eqn:E.
  - rewrite IH. split.
    + intros (l1 & r' & l2 & -> & -> & Hf & Hl). exists (r :: l1), r', l2. split_and!; [done|done|done|]. constructor; [by eexists|done].
    + intros ([|r0 l1] & r' & l2 & Heq & -> & Hf & Hl); injection Heq as -> ->; [congruence|]. apply Forall_cons in Hl as [_ Hl]. by exists l1, r', l2.
  - split.
    + intros [= <-]. exists [], r, rnd. by split_and!.
    + intros ([|r0 l1] & r' & l2 & Heq & -> & Hf & Hl); injection Heq as -> ->; [done|]. apply Forall_cons in Hl as [[v Hv] _]. congruence.
Qed.

(** ** Expiry *)

Lemma keys_app_aget pre k p l : keys_ok (pre ++ (k, p) :: l) -> aget pre k = None.
Proof.
  intros [Hn Hl]. apply Forall_app in Hl as [Hl Hl']. apply Forall_cons in Hl' as [Hk _].
  apply aget_notin; [done|done|]. rewrite map_app in Hn. cbn [map fst] in Hn. apply NoDup_app in Hn as (_ & Hd & _).
  intros Hin. apply (Hd k Hin). by left.
Qed.

(** A flow is over when its time to live has passed, or when it lost a router. *)
Definition expired (now : Z) (fl : flow) : Prop :=
  (f_ttl fl <> 0 /\ f_timestamp fl + f_ttl fl < now) \/ f_status fl = FLOW_STATUS_ORPHAN.
#[global] Instance expired_dec now fl : Decision (expired now fl).
Proof. unfold expired. apply _. Defined.

Definition live (now : Z) (heap : gmap Z flow) (x : in6_addr * Z) : bool :=
  match heap !! x.2 with Some fl => bool_decide (~ expired now fl) | None => true end.

Lemma flow_dead_spec now fl : flow_dead now fl = bool_decide (expired now fl).
Proof.
  unfold flow_dead. destruct (Z.eqb_spec (f_ttl fl) 0) as [Ht|Ht], (Z.ltb_spec (f_timestamp fl + f_ttl fl) now) as [Hn|Hn],
    (Z.eqb_spec (f_status fl) FLOW_STATUS_ORPHAN) as [Ho|Ho]; cbn [negb andb orb]; symmetry;
    first [apply bool_decide_true; unfold expired; tauto|apply bool_decide_false; unfold expired; intros [[? ?]|?]; (contradiction || lia)].
Qed.

(** The scan takes out the dead entries, in order, and lists their flows. *)
Lemma gc_scan_ok now heap entries : forall pre,
  keys_ok (pre ++ entries) -> (forall k p, (k, p) ∈ entries -> is_Some (heap !! p)) ->
  gc_scan now heap entries (pre ++ entries) =
    Some (pre ++ List.filter (live now heap) entries, map snd (List.filter (fun x => negb (live now heap x)) entries)).
Proof.
  induction entries as [|[k p] entries IH]; intros pre Hk Hh; [cbn [gc_scan List.filter map]; by rewrite !app_nil_r|]. cbn [gc_scan List.filter].
  destruct (Hh k p) as [fl Hfl]; [by left|].
  assert (live now heap (k, p) = negb (flow_dead now fl)) as -> by (unfold live; cbn [snd]; by rewrite Hfl, flow_dead_spec, bool_decide_not). rewrite Hfl. cbn [mbind option_bind].
  assert (forall k' p', (k', p') ∈ entries -> is_Some (heap !! p')) as Hh' by (intros; eapply Hh; by right).
  destruct (flow_dead now fl); cbn [negb].
  - rewrite (adel_mid pre entries k p) by (by eapply keys_app_aget). rewrite IH; [done| |done].
    destruct Hk as [Hn Hl]. split.
    + rewrite map_app in *. cbn [map fst] in Hn. by apply NoDup_mid in Hn as (_ & _ & Hn).
    + apply Forall_app in Hl as [? Hl]. apply Forall_cons in Hl as [_ ?]. by apply Forall_app.
  - replace (pre ++ (k, p) :: entries) with ((pre ++ [(k, p)]) ++ entries) by (by rewrite <- app_assoc).
    rewrite IH; [by rewrite <- app_assoc|by rewrite <- app_assoc|done].
Qed.

Section expiry.
Context {J : Jansson}.

(** Expiring flows nobody else holds frees them, one transaction each. *)
Lemma expire_flows_ok nhead : forall heap,
  NoDup nhead -> (forall p, p ∈ nhead -> exists fl, heap !! p = Some fl /\ f_refcount fl = 1) ->
  exists heap', expire_flows heap nhead =
    Some (heap', map (fun p => status_op "FlowState" (strncpy SLEN (default "" (f_uuid <$> heap !! p))) FLOW_STATUS_EXPIRED) nhead) /\
    forall p, heap' !! p = if bool_decide (p ∈ nhead) then None else heap !! p.
Proof.
  induction nhead as [|p nhead IH]; intros heap Hn Hh.
  { exists heap. split; [done|]. intros p. rewrite bool_decide_false; [done|]. apply not_elem_of_nil. }
  apply NoDup_cons in Hn as [Hp Hn]. destruct (Hh p) as (fl & Hfl & Hr); [by left|]. cbn [expire_flows]. rewrite Hfl. cbn [mbind option_bind].
  rewrite set_flow_status_ok. cbn [mbind option_bind]. unfold flow_release. rewrite lookup_insert_eq. cbn [mbind option_bind set_status f_refcount].
  rewrite Hr. change (1 - 1 =? 0) with true. cbn [mbind option_bind]. rewrite delete_insert_eq.
  destruct (IH (delete p heap)) as (heap' & -> & Hl); [done| |].
  { intros q Hq. destruct (Hh q) as (fq & Hfq & ?); [by right|]. exists fq. split; [|done]. rewrite lookup_delete_ne; [done|congruence]. }
  cbn [mbind option_bind]. exists heap'. split.
  - cbn [map]. rewrite Hfl. cbn [fmap option_fmap option_map default]. do 2 f_equal. f_equal. apply map_ext_in. intros q Hq%list_elem_of_In.
    rewrite lookup_delete_ne; [done|congruence].
  - intros q. rewrite Hl. destruct (decide (q ∈ nhead)) as [Hq|Hq].
    + rewrite !bool_decide_true; [done|by right|done].
    + rewrite (bool_decide_false (q ∈ nhead)) by done. destruct (decide (q = p)) as [->|Hne].
      * rewrite bool_decide_true by (by left). apply lookup_delete_eq.
      * rewrite bool_decide_false by (by apply not_elem_of_cons). by rewrite lookup_delete_ne.
Qed.
End expiry.

Lemma keys_ok_filter f l : keys_ok l -> keys_ok (List.filter f l).
Proof.
  intros [Hn Hl]. split.
  - clear Hl. induction l as [|x l IH]; [done|]. cbn [map fst] in Hn. apply NoDup_cons in Hn as [Hx Hn]. cbn [List.filter].
    destruct (f x); [|by apply IH]. cbn [map]. apply NoDup_cons. split; [|by apply IH]. intros (y & Hy & Hin)%list_elem_of_fmap. apply Hx.
    apply list_elem_of_In, filter_In in Hin as [Hin _]. rewrite Hy. apply list_elem_of_fmap_2. by apply list_elem_of_In.
  - rewrite Forall_forall in *. intros x [Hx _]%list_elem_of_In%filter_In. apply Hl. by apply list_elem_of_In.
Qed.

Lemma NoDup_snd_filter f (l : list (in6_addr * Z)) : NoDup (map snd l) -> NoDup (map snd (List.filter f l)).
Proof.
  induction l as [|x l IH]; [done|]. cbn [map List.filter]. intros [Hx Hn]%NoDup_cons. destruct (f x); [|by apply IH]. cbn [map]. apply NoDup_cons.
  split; [|by apply IH]. intros (y & Hy & Hin)%list_elem_of_fmap. apply Hx. rewrite Hy. apply list_elem_of_fmap_2.
  apply list_elem_of_In, filter_In in Hin as [Hin _]. by apply list_elem_of_In.
Qed.

Lemma snd_inj (l : list (in6_addr * Z)) x y : NoDup (map snd l) -> x ∈ l -> y ∈ l -> x.2 = y.2 -> x = y.
Proof.
  induction l as [|z l IH]; [by intros _ ?%not_elem_of_nil|]. cbn [map]. intros [Hz Hn]%NoDup_cons [->|Hx]%elem_of_cons [->|Hy]%elem_of_cons E; try done.
  - exfalso. apply Hz. rewrite E. by apply list_elem_of_fmap_2.
  - exfalso. apply Hz. rewrite <- E. by apply list_elem_of_fmap_2.
  - by apply IH.
Qed.

Section gc.
Context {J : Jansson}.

Lemma gc_flows_ok now c :
  cwf c ->
  let dead := List.filter (fun x => negb (live now (c_heap c) x)) (c_flows c) in
  exists c', gc_flows now c =
    Some (c', map (fun x => status_op "FlowState" (strncpy SLEN (default "" (f_uuid <$> c_heap c !! x.2))) FLOW_STATUS_EXPIRED) dead) /\
    c_flows c' = List.filter (live now (c_heap c)) (c_flows c) /\ c_ns c' = c_ns c /\
    (forall x, x ∈ c_flows c -> c_heap c' !! x.2 = if live now (c_heap c) x then c_heap c !! x.2 else None) /\ cwf c'.
Proof.
  intros [Hk Hp Hh Hf] dead. unfold gc_flows.
  assert (forall k p, (k, p) ∈ c_flows c -> is_Some (c_heap c !! p)) as Hin.
  { intros k p Hkp. apply Hh. change p with (k, p).2. by apply list_elem_of_fmap_2. }
  pose proof (gc_scan_ok now (c_heap c) (c_flows c) []) as Hs. cbn [app] in Hs. rewrite Hs by done. cbn [mbind option_bind]. clear Hs. fold dead.
  assert (forall x, x ∈ dead <-> x ∈ c_flows c /\ live now (c_heap c) x = false) as Hdead.
  { intros x. unfold dead. rewrite list_elem_of_In, filter_In, <- list_elem_of_In, negb_true_iff. done. }
  destruct (expire_flows_ok (map snd dead) (c_heap c)) as (heap' & -> & Hl).
  { by apply NoDup_snd_filter. }
  { intros p (x & -> & Hx)%list_elem_of_fmap. apply Hdead in Hx as [Hx _]. destruct x as [k p]. destruct (Hin k p Hx) as [fl Hfl]. exists fl. split; [done|]. by eapply Hf. }
  cbn [mbind option_bind]. rewrite map_map. eexists. split; [done|]. cbn [c_flows c_heap c_ns set_flows].
  assert (forall x, x ∈ c_flows c -> heap' !! x.2 = if live now (c_heap c) x then c_heap c !! x.2 else None) as Hheap.
  { intros x Hx. rewrite Hl. destruct (live now (c_heap c) x) eqn:E.
    - rewrite bool_decide_false; [done|]. intros (y & Hy & Hyd)%list_elem_of_fmap. apply Hdead in Hyd as [Hyf Hyl].
      assert (x = y) as -> by (by eapply snd_inj). congruence.
    - rewrite bool_decide_true; [done|]. apply list_elem_of_fmap_2. by apply Hdead. }
  split_and!; [done|done|done|]. split; cbn [c_flows c_heap c_ns set_flows].
  - by apply keys_ok_filter.
  - by apply NoDup_snd_filter.
  - intros p. split.
    + intros Hs. destruct (decide (p ∈ map snd (c_flows c))) as [(x & -> & Hx)%list_elem_of_fmap|Hn].
      * rewrite (Hheap x Hx) in Hs. destruct (live now (c_heap c) x) eqn:E; [|by destruct Hs]. apply list_elem_of_fmap_2.
        apply list_elem_of_In, filter_In. split; [by apply list_elem_of_In|done].
      * exfalso. apply Hn, Hh. rewrite Hl in Hs. by case_bool_decide; [destruct Hs|].
    + intros (x & -> & Hx)%list_elem_of_fmap. apply list_elem_of_In, filter_In in Hx as [Hx%list_elem_of_In E]. rewrite (Hheap x Hx), E.
      destruct x as [k p]. by eapply Hin.
  - intros k p fl Hkp Hfl. apply list_elem_of_In, filter_In in Hkp as [Hkp%list_elem_of_In E]. apply (Hf k p); [done|].
    pose proof (Hheap (k, p) Hkp) as Hx. rewrite E in Hx. cbn [snd] in Hx. congruence.
Qed.
End gc.

(** ** Requests *)

Lemma mapM_const {A B} (f : A -> option B) (l : list A) y : Forall (fun x => f x = Some y) l -> mapM f l = Some (replicate (length l) y).
Proof. induction 1 as [|x l Hx _ IH]; [done|]. cbn [mapM]. rewrite Hx. cbn [mbind option_bind]. by rewrite IH. Qed.

Lemma live_node ns tp id : refines ns tp -> id ∈ nodes (ns_view ns) -> exists n, graph_get_node_noref (ns_store ns) (ns_graph ns) id = Some (Some n).
Proof.
  intros R (p & -> & Hp)%list_elem_of_fmap. pose proof (lo_inv _ _ _ _ _ (rf_live _ _ R)) as G. unfold graph_get_node_noref.
  destruct (gi_node _ _ G p Hp) as (nd & Hnd & _).
  destruct (find_node_some (ns_store ns) (fun nd => n_id nd =? idz (ns_store ns) p) (g_nodes (ns_graph ns))) as (n & ? & Hn & _).
  - intros n Hn. destruct (gi_node _ _ G n Hn) as (x & Hx & _). by exists x.
  - exists p, nd. split_and!; [done|done|]. unfold idz, node_id. rewrite Hnd. cbn. apply Z.eqb_refl.
  - by exists n.
Qed.

(** The routers of the published nodes have addresses. *)
Definition addrs_known (ns : netstate) : Prop := forall id, id ∈ nodes (ns_view ns) -> is_Some (segment_addr ns (NodeSeg id)).

Lemma segs_addrs ns tp segs :
  refines ns tp -> addrs_known ns -> Forall (seg_in (ns_view ns)) segs -> exists addrs, mapM (segment_addr ns) segs = Some addrs.
Proof.
  intros R Ha. induction 1 as [|s segs Hs _ [addrs IH]]; [by exists []|].
  assert (is_Some (segment_addr ns s)) as [y Hy].
  { destruct s as [n|e]; [by apply Ha|]. destruct Hs as [k He]. cbn [ns_view graph_view min_edges] in He. rewrite lookup_fmap in He.
    apply fmap_Some in He as (pe & Hpe & ->). destruct (live_link ns tp pe R) as (ed & l & Hed & Hl).
    { by eapply (proj2 (lo_closed _ _ _ _ _ (rf_live _ _ R))). }
    cbn [segment_addr]. unfold vedge_of. rewrite Hed. cbn [v_edata]. rewrite Hl. by eexists. }
  exists (y :: addrs). cbn [mapM]. rewrite Hy. cbn [mbind option_bind]. by rewrite IH.
Qed.

Section requests.
Context {J : Jansson} {T : JanssonText J} `{!JanssonLaws J}.
Context (inet_pton : string -> option in6_addr) (inet_ntop : in6_addr -> string).

(** A request that a rule allows, between two published routers. *)
Record ready (c : ctrl) (tp : topo) (M : Z) (req : flowreq) (rule : rule) (rt dstrt : Z) (r1 r2 : router) : Prop := {
  rd_ns : refines (c_ns c) tp;
  rd_bounds : topo_bounded (tp_pub tp) (length (nodes (ns_view (c_ns c)))) M;
  rd_wf : cwf c;
  rd_pending : rq_status req = REQ_STATUS_PENDING;
  rd_rule : req_rule c req = Some rule /\ r_type rule = RULE_ALLOW /\ no_via rule = true;
  rd_src : exists a, inet_pton (rq_srcaddr req) = Some a /\ lpm_lookup (ns_prefixes (c_ns c)) a = Some rt;
  rd_dst : exists a, inet_pton (rq_dstaddr req) = Some a /\ lpm_lookup (ns_prefixes (c_ns c)) a = Some dstrt;
  rd_rt : rt <> 0 /\ ns_rts (c_ns c) !! rt = Some r1 /\ rt_node_id r1 ∈ nodes (ns_view (c_ns c));
  rd_dstrt : dstrt <> 0 /\ ns_rts (c_ns c) !! dstrt = Some r2 /\ rt_node_id r2 ∈ nodes (ns_view (c_ns c));
  rd_providers : c_providers c <> []
}.

(** What the worker fills in before it looks for a path. *)
Definition new_flow (c : ctrl) (req : flowreq) (rule : rule) (rt dstrt : Z) : flow :=
  set_prefixes (set_routers (flow_of_request inet_pton rule req) rt dstrt) (select_providers (c_providers c)).

Lemma process_request_ready c tp M req rule rt dstrt r1 r2 rnd now reply :
  ready c tp M req rule rt dstrt r1 r2 ->
  let fl := new_flow c req rule rt dstrt in
  process_request inet_pton inet_ntop rnd now reply c req =
    match flow_segpath (c_ns c) (rt_node_id r1) (rt_node_id r2) (f_bw fl) (f_delay fl) with
    | Some None => Some (c, [status_op "FlowReq" (rq_row req) REQ_STATUS_UNAVAILABLE])
    | Some (Some (segs, epath)) => install_flow inet_ntop rnd now reply c req r1 fl segs epath
    | None => None
    end.
Proof.
  intros [R _ _ Hpend (Hrule & Hallow & Hvia) (a1 & Ha1 & Hl1) (a2 & Ha2 & Hl2) (Hrt & Hr1 & Hn1) (Hdrt & Hr2 & Hn2) Hprov] fl.
  unfold process_request. rewrite Hpend. change (negb (REQ_STATUS_PENDING =? REQ_STATUS_PENDING)) with false. cbn match.
  rewrite Hrule. cbn [mbind option_bind]. rewrite bool_decide_true by done. cbn [negb]. rewrite Ha1. cbn [mbind option_bind]. rewrite Hl1. cbn [mbind option_bind].
  rewrite (proj2 (Z.eqb_neq rt 0)) by done. rewrite Ha2. change (default a1 (Some a2)) with a2. rewrite Hl2. cbn [mbind option_bind].
  rewrite (proj2 (Z.eqb_neq dstrt 0)) by done. rewrite Hr1. cbn [mbind option_bind]. rewrite Hr2. cbn [mbind option_bind].
  destruct (live_node _ _ _ R Hn1) as [n1 ->]. destruct (live_node _ _ _ R Hn2) as [n2 ->]. cbn [mbind option_bind].
  assert ((length (select_providers (c_providers c)) =? 0)%nat = false) as ->.
  { apply Nat.eqb_neq. unfold select_providers. rewrite length_map. by destruct (c_providers c). }
  rewrite Hvia. cbn [negb]. fold (new_flow c req rule rt dstrt). fold fl. destruct (flow_segpath _ _ _ _ _) as [[[segs ep]|]|]; cbn [mbind option_bind]; [done| |done].
  unfold answer. by rewrite set_flowreq_status_ok.
Qed.

(** The draws of a worker: blocks of 16 bytes, one of which gives a free
    binding segment in the router's prefix. *)
Record draws_ok (c : ctrl) (r1 : router) (pb : prefix) (rnd : list (list Z)) : Prop := {
  dw_pb : rt_pbsid r1 = Some pb /\ 0 <= p_len pb <= 128 /\ length (p_addr pb) = 16%nat;
  dw_len : Forall (fun r => length r = 16%nat) rnd;
  dw_free : exists r, r ∈ rnd /\ aget (c_flows c) (bsid_of pb r) = None
}.

Lemma draws_bsid c r1 pb rnd :
  draws_ok c r1 pb rnd -> exists r, r ∈ rnd /\ generate_unique_bsid (c_flows c) pb rnd = Some (bsid_of pb r) /\
    aget (c_flows c) (bsid_of pb r) = None /\ length (bsid_of pb r) = 16%nat.
Proof.
  intros [(_ & Hlen & Ha) Hl (r0 & Hr0 & Hfree)]. clear r1.
  assert (exists b, generate_unique_bsid (c_flows c) pb rnd = Some b) as [b Hb].
  { clear Hl. induction rnd as [|r rnd IH]; [by apply not_elem_of_nil in Hr0|]. cbn [generate_unique_bsid]. rewrite generate_bsid_ok by done. cbn [mbind option_bind].
    destruct (aget (c_flows c) (bsid_of pb r)) eqn:E; [|by eexists]. apply elem_of_cons in Hr0 as [->|Hr0]; [congruence|by apply IH]. }
  pose proof Hb as Hb'. apply generate_unique_bsid_ok in Hb' as (l1 & r & l2 & -> & -> & Hf & _); [|done]. exists r.
  assert (r ∈ l1 ++ r :: l2) as Hin by (apply elem_of_app; right; by left). split_and!; [done|done|done|].
  apply bsid_of_length; [done|done|]. rewrite Forall_forall in Hl. by apply Hl.
Qed.

Lemma heap_fresh (heap : gmap Z flow) : heap !! (heap_top heap + 1) = None.
Proof. apply eq_None_not_Some. intros [x Hx]. apply heap_top_ge in Hx. lia. Qed.

(** Adding a flow under a free key. *)
Lemma cwf_add c bsid fl :
  cwf c -> aget (c_flows c) bsid = None -> length bsid = 16%nat -> f_refcount fl = 1 -> f_prefixes fl <> [] ->
  Forall (fun x => sp_bsid x = bsid /\ is_Some (sp_epath x)) (f_prefixes fl) ->
  cwf (set_flows c (c_flows c ++ [(bsid, heap_top (c_heap c) + 1)]) (<[heap_top (c_heap c) + 1 := fl]> (c_heap c))).
Proof.
  intros [Hk Hp Hh Hf] Hg Hlen Hr Hne HF. set (p := heap_top (c_heap c) + 1).
  assert (p ∉ map snd (c_flows c)) as Hfresh.
  { intros Hin. apply Hh in Hin as [x Hx]. pose proof (heap_fresh (c_heap c)) as Hn. fold p in Hn. congruence. }
  split; cbn [c_flows c_heap set_flows].
  - destruct Hk as [Hn Hl]. split; [|apply Forall_app; by repeat constructor]. rewrite map_app. apply NoDup_app. split_and!; [done| |by apply NoDup_singleton].
    intros k Hin Hk%list_elem_of_singleton. cbn [fst] in Hk. subst. revert Hin. by apply aget_none_in.
  - rewrite map_app. apply NoDup_app. split_and!; [done| |by apply NoDup_singleton]. intros q Hin Hq%list_elem_of_singleton. cbn [snd] in Hq. by subst.
  - intros q. rewrite map_app, elem_of_app, <- Hh. cbn [map snd]. rewrite list_elem_of_singleton, lookup_insert_is_Some'. split; intros [?|?]; auto.
  - intros k q fl' [Hin|Hin]%elem_of_app Hl.
    + rewrite lookup_insert_ne in Hl; [by apply (Hf k q)|]. intros <-. apply Hfresh. change p with (k, p).2. by apply list_elem_of_fmap_2.
    + apply list_elem_of_singleton in Hin. simplify_eq. rewrite lookup_insert_eq in Hl. by simplify_eq.
Qed.

(** The flow as it enters the table. *)
Definition installed (fl : flow) (segs : list segment) (es : option (list vedge)) (bsid : in6_addr) (now : Z) : flow :=
  set_active (set_prefixes fl (map (fun p => set_bsid (set_segs p segs es) bsid) (f_prefixes fl))) now.

(** The JSON text of the segments: one list per source prefix. *)
Definition segs_json (addrs : list in6_addr) (n : nat) : json :=
  json_array (replicate n (json_array_of (map (fun a => json_string (inet_ntop a)) addrs))).

(** ... and of the binding segments. *)
Definition bsids_json (bsid : in6_addr) (n : nat) : json := json_array_of (map (fun a => json_string (inet_ntop a)) (replicate n bsid)).

Lemma installed_bsids fl segs es bsid now : pref_bsid_to_json inet_ntop (installed fl segs es bsid now) = bsids_json bsid (length (f_prefixes fl)).
Proof.
  unfold pref_bsid_to_json, bsids_json, installed. cbn [set_active set_prefixes f_prefixes]. f_equal. rewrite map_map.
  induction (f_prefixes fl) as [|p ps IH]; [done|]. cbn [map length replicate sp_bsid set_bsid]. by f_equal.
Qed.

Lemma installed_srcips fl segs es bsid now : pref_srcips_to_json inet_ntop (installed fl segs es bsid now) = pref_srcips_to_json inet_ntop fl.
Proof. unfold pref_srcips_to_json, installed. cbn [set_active set_prefixes f_prefixes]. by rewrite map_map. Qed.

Lemma installed_json ns fl segs es bsid now addrs :
  mapM (segment_addr ns) segs = Some addrs -> pref_segs_to_json inet_ntop ns (installed fl segs es bsid now) = Some (segs_json addrs (length (f_prefixes fl))).
Proof.
  intros Ha. unfold pref_segs_to_json. rewrite (mapM_const _ _ (json_array_of (map (fun a => json_string (inet_ntop a)) addrs))).
  - cbn [mbind option_bind installed set_active set_prefixes f_prefixes]. by rewrite length_map.
  - cbn [installed set_active set_prefixes f_prefixes]. apply Forall_forall. intros x (p & -> & _)%list_elem_of_fmap.
    cbn [sp_segs set_bsid set_segs]. unfold segs_to_json. by rewrite Ha.
Qed.

Lemma install_flow_ok c req r1 pb fl segs es rnd now reply ret uuid addrs rt :
  cwf c -> draws_ok c r1 pb rnd -> f_prefixes fl <> [] -> mapM (segment_addr (c_ns c)) segs = Some addrs ->
  ns_rts (c_ns c) !! f_srcrt fl = Some rt -> srdb_insert_result reply = Some (ret, uuid) ->
  exists row r, let bsid := bsid_of pb r in let p := heap_top (c_heap c) + 1 in let fl' := installed fl segs es bsid now in
    r ∈ rnd /\ aget (c_flows c) bsid = None /\ length bsid = 16%nat /\
    (flow_row row (rt_name rt) (segs_json addrs (length (f_prefixes fl))) (bsids_json bsid (length (f_prefixes fl))) /\
     answer_row row (pref_srcips_to_json inet_ntop fl) (f_reqid fl)) /\
    install_flow inet_ntop rnd now reply c req r1 fl segs es =
      if ret =? 0
      then Some (set_flows c (c_flows c ++ [(bsid, p)]) (<[p := match uuid with Some u => set_uuid fl' u | None => fl' end]> (c_heap c)),
                 [DbInsert "FlowState" row; status_op "FlowReq" (rq_row req) REQ_STATUS_ALLOWED])
      else Some (c, [DbInsert "FlowState" row; status_op "FlowReq" (rq_row req) REQ_STATUS_ERROR]).
Proof.
  intros W D Hne Ha Hrt Hrep. destruct (draws_bsid _ _ _ _ D) as (r & Hr & Hg & Hfree & Hlen). pose proof (dw_pb _ _ _ _ D) as (Hpb & _).
  set (bsid := bsid_of pb r) in *. unfold install_flow. rewrite Hpb. cbn [mbind option_bind]. rewrite Hg. cbn [mbind option_bind].
  fold (installed fl segs es bsid now).
  destruct (commit_flow_ok inet_ntop (c_ns c) reply (installed fl segs es bsid now) _ rt ret uuid (installed_json _ _ _ _ _ _ _ Ha) Hrt Hrep) as (row & -> & Hj).
  rewrite installed_bsids, installed_srcips in Hj. change (f_reqid (installed fl segs es bsid now)) with (f_reqid fl) in Hj. destruct Hj as [Hj1 Hj2]. cbn [mbind option_bind]. rewrite !set_flowreq_status_ok. cbn [mbind option_bind]. exists row, r. cbn zeta. fold bsid. split_and!; [done..|].
  rewrite aset_fresh by done. destruct (ret =? 0); cbn [negb]; [done|]. f_equal. f_equal.
  assert (f_prefixes (match uuid with Some u => set_uuid (installed fl segs es bsid now) u | None => installed fl segs es bsid now end) =
    map (fun p => set_bsid (set_segs p segs es) bsid) (f_prefixes fl)) as -> by (by destruct uuid).
  destruct (f_prefixes fl) as [|x xs]; [done|]. cbn [map foldl sp_bsid set_bsid]. rewrite adel_mid, app_nil_r by done.
  assert (foldl (fun l x => adel l (sp_bsid x)) (c_flows c) (map (fun p => set_bsid (set_segs p segs es) bsid) xs) = c_flows c) as ->.
  { clear -Hfree. induction xs as [|y xs IH]; [done|]. cbn [map foldl sp_bsid set_bsid]. by rewrite adel_fresh. }
  by destruct c.
Qed.

Lemma new_flow_prefixes c req rule rt dstrt : c_providers c <> [] -> f_prefixes (new_flow c req rule rt dstrt) <> [].
Proof. unfold new_flow, select_providers. cbn [set_prefixes f_prefixes]. by destruct (c_providers c). Qed.

(** The bytes of the prefix, the last one perhaps shared. *)
Lemma bsid_of_prefix pb r : 0 <= p_len pb <= 128 -> length (p_addr pb) = 16%nat ->
  take (Z.to_nat ((p_len pb + 7) / 8)) (bsid_of pb r) = take (Z.to_nat ((p_len pb + 7) / 8)) (p_addr pb).
Proof.
  intros H Ha. unfold bsid_of. assert (16 - Z.shiftr (128 - p_len pb) 3 = (p_len pb + 7) / 8) as ->.
  { rewrite Z.shiftr_div_pow2 by lia. change (2 ^ 3) with 8.
    pose proof (Z.div_mod (128 - p_len pb) 8 ltac:(lia)). pose proof (Z.mod_pos_bound (128 - p_len pb) 8 ltac:(lia)).
    apply (Z.div_unique _ _ _ (7 - (128 - p_len pb) mod 8)); lia. }
  rewrite take_app_le; [by rewrite take_take, Nat.min_id|]. rewrite length_take, Ha.
  assert ((p_len pb + 7) / 8 < 17) by (apply Z.div_lt_upper_bound; lia). lia.
Qed.

(** The source prefixes of a flow: the providers, without priority. *)
Definition srcips_json (ps : list provider) : json :=
  json_array_of (map (fun p => Some (json_array_of [Some (json_integer 0); json_string (inet_ntop (addr_bytes (strncpy SLEN (pv_addr p))));
    Some (json_integer (pv_prefix_len p))])) ps).

(** A request that finds a path, whatever it asks of it. *)
Lemma request_installs c tp M req rule rt dstrt r1 r2 pb rnd now reply uuid segs es :
  ready c tp M req rule rt dstrt r1 r2 -> draws_ok c r1 pb rnd -> addrs_known (c_ns c) -> srdb_insert_result reply = Some (0, Some uuid) ->
  let fl := new_flow c req rule rt dstrt in
  flow_segpath (c_ns c) (rt_node_id r1) (rt_node_id r2) (f_bw fl) (f_delay fl) = Some (Some (segs, Some es)) ->
  Forall (seg_in (ns_view (c_ns c))) segs ->
  exists c' row r p addrs, let bsid := bsid_of pb r in let fl' := set_uuid (installed fl segs (Some es) bsid now) uuid in
    process_request inet_pton inet_ntop rnd now reply c req =
      Some (c', [DbInsert "FlowState" row; status_op "FlowReq" (rq_row req) REQ_STATUS_ALLOWED]) /\ cwf c' /\ c_ns c' = c_ns c /\
    c_flows c' = c_flows c ++ [(bsid, p)] /\ c_heap c' = <[p := fl']> (c_heap c) /\ c_heap c !! p = None /\
    r ∈ rnd /\ aget (c_flows c) bsid = None /\ mapM (segment_addr (c_ns c)) segs = Some addrs /\
    flow_row row (rt_name r1) (segs_json addrs (length (c_providers c))) (bsids_json bsid (length (c_providers c))) /\
    answer_row row (srcips_json (c_providers c)) (strncpy SLEN (rq_reqid req)).
Proof.
  intros Hr D Ha Hrep fl Hs Hin. rewrite (process_request_ready c tp M req rule rt dstrt r1 r2) by done. cbn zeta. fold fl. rewrite Hs.
  destruct (segs_addrs _ tp segs (rd_ns _ _ _ _ _ _ _ _ _ Hr) Ha Hin) as [addrs Haddr].
  assert (f_prefixes fl <> []) as Hne by (apply new_flow_prefixes, Hr). pose proof (rd_rt _ _ _ _ _ _ _ _ _ Hr) as (_ & Hr1 & _).
  destruct (install_flow_ok c req r1 pb fl segs (Some es) rnd now reply 0 (Some uuid) addrs r1 (rd_wf _ _ _ _ _ _ _ _ _ Hr) D Hne Haddr Hr1 Hrep)
    as (row & r & Hrin & Hfree & Hlen & Hj & Hi). rewrite Hi. change (0 =? 0) with true. cbn match.
  eexists _, row, r, _, addrs. cbn zeta. split; [done|]. cbn [c_flows c_heap c_ns set_flows].
  split; [|do 7 (split; [first [done|apply heap_fresh]|])].
  - apply cwf_add; [apply Hr|done|done|done| |].
    + cbn [installed set_uuid set_active set_prefixes f_prefixes]. by destruct (f_prefixes fl).
    + cbn [installed set_uuid set_active set_prefixes f_prefixes]. apply Forall_forall. intros x (y & -> & _)%list_elem_of_fmap. split; [done|by eexists].
  - revert Hj. unfold fl, new_flow, select_providers, pref_srcips_to_json, srcips_json. cbn [set_prefixes set_routers flow_of_request f_prefixes f_reqid].
    by rewrite length_map, map_map.
Qed.
End requests.

(** ** Recomputation *)

Section recompute.
Context {J : Jansson} {T : JanssonText J} (inet_ntop : in6_addr -> string) (accepts : dbop -> bool).

Definition flow_path (ns : netstate) (fl : flow) : option (option (list segment * option (list vedge))) :=
  match ns_rts ns !! f_srcrt fl, ns_rts ns !! f_dstrt fl with
  | Some r1, Some r2 => flow_segpath ns (rt_node_id r1) (rt_node_id r2) (f_bw fl) (f_delay fl)
  | _, _ => None
  end.

(** The flow's routers are known and published. *)
Definition flow_placed (ns : netstate) (fl : flow) : Prop :=
  (exists r, ns_rts ns !! f_srcrt fl = Some r /\ rt_node_id r ∈ nodes (ns_view ns)) /\
  (exists r, ns_rts ns !! f_dstrt fl = Some r /\ rt_node_id r ∈ nodes (ns_view ns)).

Definition rerouted (fl : flow) (segs : list segment) (es : option (list vedge)) : flow :=
  set_prefixes fl (map (fun p => set_segs p segs es) (f_prefixes fl)).

Definition stale (fl : flow) (segs : list segment) : bool := existsb (fun p => negb (compare_segments segs (sp_segs p))) (f_prefixes fl).

(** The update of a flow's segments. *)
Definition segments_op (fl : flow) (j : json) : dbop :=
  DbUpdate "FlowState" (strncpy SLEN (f_uuid fl)) (set_new json_object "segments" (json_string (json_dumps j))).

Lemma segments_update ns fl j :
  pref_segs_to_json inet_ntop ns fl = Some j ->
  exists fe, flow_to_flowentry inet_ntop ns fl (ENTRY_MASK FE_SEGMENTS) = Some fe /\ srdb_update flow_table fe FE_SEGMENTS = Some (segments_op fl j).
Proof.
  intros Hj. unfold flow_to_flowentry, when. rewrite Hj. cbn [mbind option_bind]. put_field.
  repeat (match goal with |- context [mask_has (ENTRY_MASK FE_SEGMENTS) ?f] =>
    let b := eval vm_compute in (mask_has (ENTRY_MASK FE_SEGMENTS) f) in change (mask_has (ENTRY_MASK FE_SEGMENTS) f) with b end; cbn match; try put_field; cbn [mbind option_bind]).
  eexists. split; [done|]. unfold srdb_update, srdb_update_append. cbn [srdb_update_prepare utr_tbl utr_entry utr_fields utr_mask].
  change (find_desc_fromindex (t_desc flow_table) FE_SEGMENTS) with (Some (Desc "segments" SRDB_VARSTR 4 BUFLEN false (offsetof srdb_flow_entry "segments"))).
  cbn match. unfold write_desc_data. cbn [d_type d_offset d_name]. rewrite lookup_insert_eq. cbn [mbind option_bind].
  unfold srdb_update_commit. cbn [utr_entry utr_tbl utr_fields]. rewrite lookup_insert_ne by (vm_compute; discriminate).
  change (offsetof srdb_entry "row") with (offsetof srdb_flow_entry "row"). by rewrite lookup_insert_eq.
Qed.

Lemma rerouted_json ns fl segs es addrs :
  mapM (segment_addr ns) segs = Some addrs -> pref_segs_to_json inet_ntop ns (rerouted fl segs es) = Some (segs_json inet_ntop addrs (length (f_prefixes fl))).
Proof.
  intros Ha. unfold pref_segs_to_json. rewrite (mapM_const _ _ (json_array_of (map (fun a => json_string (inet_ntop a)) addrs))).
  - cbn [mbind option_bind rerouted set_prefixes f_prefixes]. by rewrite length_map.
  - cbn [rerouted set_prefixes f_prefixes]. apply Forall_forall. intros x (p & -> & _)%list_elem_of_fmap. cbn [sp_segs set_segs].
    unfold segs_to_json. by rewrite Ha.
Qed.

(** One flow: no path leaves it as it is; a new path replaces the old one, and
    the database hears of it when the segments differ. *)
Lemma recompute_flow_ok ns tp M fl :
  refines ns tp -> topo_bounded (tp_pub tp) (length (nodes (ns_view ns))) M -> addrs_known ns -> flow_placed ns fl ->
  (flow_path ns fl = Some None /\ recompute_flow inet_ntop accepts ns fl = Some (fl, [])) \/
  exists segs es addrs, flow_path ns fl = Some (Some (segs, Some es)) /\ mapM (segment_addr ns) segs = Some addrs /\
    let op := segments_op fl (segs_json inet_ntop addrs (length (f_prefixes fl))) in
    recompute_flow inet_ntop accepts ns fl =
      if stale fl segs then if accepts op then Some (rerouted fl segs (Some es), [op]) else None else Some (rerouted fl segs (Some es), []).
Proof.
  intros R B Ha [(r1 & Hr1 & Hn1) (r2 & Hr2 & Hn2)]. unfold flow_path, recompute_flow. rewrite Hr1, Hr2. cbn [mbind option_bind].
  destruct (live_node _ _ _ R Hn1) as [n1 ->]. destruct (live_node _ _ _ R Hn2) as [n2 ->]. cbn [mbind option_bind].
  destruct (flow_segpath_chosen ns tp M R B _ _ (f_bw fl) (f_delay fl) Hn1 Hn2) as (gc & _ & _ & [(segs & es & q & cst & -> & _ & Hin & _)|[-> _]]); [right|by left].
  destruct (segs_addrs ns tp segs R Ha Hin) as [addrs Haddr]. exists segs, es, addrs. split_and!; [done|done|]. cbn [mbind option_bind].
  fold (stale fl segs). fold (rerouted fl segs (Some es)). destruct (stale fl segs); cbn [negb]; [|done].
  destruct (segments_update ns _ _ (rerouted_json ns fl segs (Some es) addrs Haddr)) as (fe & -> & Hop). cbn [mbind option_bind].
  change (srdb_table_by_name srdb_tables "FlowState") with (Some flow_table). cbn [mbind option_bind]. rewrite Hop. done.
Qed.

(** The library takes the update of the flow's segments, if there is one. *)
Definition update_accepted (ns : netstate) (fl : flow) : Prop :=
  forall segs es addrs, flow_path ns fl = Some (Some (segs, es)) -> mapM (segment_addr ns) segs = Some addrs -> stale fl segs = true ->
    accepts (segments_op fl (segs_json inet_ntop addrs (length (f_prefixes fl)))) = true.

Lemma recompute_flow_accepted ns tp M fl :
  refines ns tp -> topo_bounded (tp_pub tp) (length (nodes (ns_view ns))) M -> addrs_known ns -> flow_placed ns fl -> update_accepted ns fl ->
  (flow_path ns fl = Some None /\ recompute_flow inet_ntop accepts ns fl = Some (fl, [])) \/
  exists segs es addrs, flow_path ns fl = Some (Some (segs, Some es)) /\ mapM (segment_addr ns) segs = Some addrs /\
    recompute_flow inet_ntop accepts ns fl = Some (rerouted fl segs (Some es),
      if stale fl segs then [segments_op fl (segs_json inet_ntop addrs (length (f_prefixes fl)))] else []).
Proof.
  intros R B Ha P A. destruct (recompute_flow_ok ns tp M fl R B Ha P) as [?|(segs & es & addrs & H1 & H2 & H3)]; [by left|right].
  exists segs, es, addrs. split_and!; [done|done|]. rewrite H3. destruct (stale fl segs) eqn:E; [|done]. by rewrite (A segs (Some es) addrs).
Qed.

(** Holding a flow does not change what is computed for it. *)
Lemma recompute_frefcount ns tp M fl n :
  refines ns tp -> topo_bounded (tp_pub tp) (length (nodes (ns_view ns))) M -> addrs_known ns -> flow_placed ns fl -> update_accepted ns fl ->
  exists fl' ops, recompute_flow inet_ntop accepts ns fl = Some (fl', ops) /\ recompute_flow inet_ntop accepts ns (set_frefcount fl n) = Some (set_frefcount fl' n, ops) /\
    f_refcount fl' = f_refcount fl /\ f_prefixes fl' = (match flow_path ns fl with Some (Some (segs, es)) => f_prefixes (rerouted fl segs es) | _ => f_prefixes fl end) /\
    (forall segs es, flow_path ns fl = Some (Some (segs, es)) -> is_Some es).
Proof.
  intros R B Ha P A. assert (flow_placed ns (set_frefcount fl n)) as P' by done.
  assert (update_accepted ns (set_frefcount fl n)) as A' by exact A.
  assert (flow_path ns (set_frefcount fl n) = flow_path ns fl) as Hp by done.
  destruct (recompute_flow_accepted ns tp M fl R B Ha P A) as [[E1 E2]|(segs & es & addrs & E1 & Had & E2)],
    (recompute_flow_accepted ns tp M (set_frefcount fl n) R B Ha P' A') as [[E3 E4]|(segs' & es' & addrs' & E3 & Had' & E4)]; rewrite Hp in E3; rewrite E1 in E3; try discriminate.
  - exists fl, []. rewrite E1. by split_and!.
  - simplify_eq. eexists _, _. split; [exact E2|]. rewrite E1. split_and!; [exact E4|done|done|]. intros segs0 es0 [= <- <-]. by eexists.
Qed.

(** The metric of the published edge with a given id. *)
Definition current_metric (ns : netstate) (id : Z) : option Z :=
  e_metric <$> head (List.filter (fun ed => e_id ed =? id) (omap (fun e => s_edges (ns_store ns) !! e) (g_edges (ns_graph ns)))).

(** Some link of the flow's path is gone or has another metric. *)
Definition path_changed (ns : netstate) (fl : flow) : Prop :=
  exists p es e, p ∈ f_prefixes fl /\ sp_epath p = Some es /\ e ∈ es /\ current_metric ns (v_eid e) <> Some (v_metric e).

Lemma find_edge_metric st f es : (forall e, e ∈ es -> is_Some (s_edges st !! e)) ->
  exists r, find_edge st f es = Some r /\
    match r with Some x => exists ed, s_edges st !! x = Some ed /\ head (List.filter f (omap (fun e => s_edges st !! e) es)) = Some ed
    | None => head (List.filter f (omap (fun e => s_edges st !! e) es)) = None end.
Proof.
  induction es as [|x es IH]; intros Hs; [by exists None|]. cbn [find_edge omap list_omap]. destruct (Hs x) as [xd Hx]; [by left|].
  rewrite Hx. cbn [mbind option_bind List.filter]. destruct (f xd); [exists (Some x); split; [done|by exists xd]|]. apply IH. intros e He. apply Hs. by right.
Qed.

Lemma epath_affected_spec ns tp es : refines ns tp ->
  exists b, epath_affected ns es = Some b /\ (b = true <-> exists e, e ∈ es /\ current_metric ns (v_eid e) <> Some (v_metric e)).
Proof.
  intros R. induction es as [|e es (b & IH & Hb)]; [exists false; split; [done|]; split; [done|]; by intros (e & He%elem_of_nil & _)|].
  assert (Hcons : (exists e0, e0 ∈ e :: es /\ current_metric ns (v_eid e0) <> Some (v_metric e0)) <->
    current_metric ns (v_eid e) <> Some (v_metric e) \/ exists e0, e0 ∈ es /\ current_metric ns (v_eid e0) <> Some (v_metric e0)).
  { setoid_rewrite elem_of_cons. split; [intros (x & [->|Hx] & H); [by left|right; by exists x]|intros [H|(x & Hx & H)]; [exists e; auto|exists x; auto]]. }
  cbn [epath_affected]. unfold graph_get_edge_noref. pose proof (lo_inv _ _ _ _ _ (rf_live _ _ R)) as G.
  destruct (find_edge_metric (ns_store ns) (fun ed => e_id ed =? v_eid e) (g_edges (ns_graph ns))) as (r & -> & Hm).
  { intros x Hx. destruct (gi_edge _ _ G x Hx) as (ed & Hed & _). by exists ed. }
  cbn [mbind option_bind]. destruct r as [x|].
  - destruct Hm as (ed & -> & Hm). assert (Hcm : current_metric ns (v_eid e) = Some (e_metric ed)) by (unfold current_metric; by rewrite Hm).
    cbn [mbind option_bind]. destruct (Z.eqb_spec (v_metric e) (e_metric ed)) as [E|E]; cbn [negb].
    + exists b. split; [done|]. rewrite Hcons, Hb, Hcm, E. split; [by right|]. by intros [H|H].
    + exists true. split; [done|]. rewrite Hcons, Hcm. split; [|done]. left. congruence.
  - assert (Hcm : current_metric ns (v_eid e) = None) by (unfold current_metric; by rewrite Hm).
    exists true. split; [done|]. rewrite Hcons, Hcm. split; [by left|done].
Qed.

Lemma flow_affected_spec ns tp fl : refines ns tp -> Forall (fun x => is_Some (sp_epath x)) (f_prefixes fl) ->
  exists b, flow_affected ns fl = Some b /\ (b = true <-> path_changed ns fl).
Proof.
  intros R. unfold flow_affected, path_changed. induction 1 as [|p ps [es Hes] _ (b & IH & Hb)]; [exists false; split; [done|]; split; [done|]; by intros (p & ? & ? & Hp%elem_of_nil & _)|].
  cbn [prefixes_affected]. rewrite Hes. cbn [mbind option_bind]. destruct (epath_affected_spec ns tp es R) as (b' & -> & Hb'). cbn [mbind option_bind].
  setoid_rewrite elem_of_cons. destruct b'.
  - exists true. split; [done|]. split; [|done]. intros _. destruct (proj1 Hb' eq_refl) as (e & He & Hm). exists p, es, e. auto.
  - exists b. split; [done|]. rewrite Hb. split; [intros (q & es' & e & Hq & H); exists q, es', e; auto|].
    intros (q & es' & e & [->|Hq] & He & Hin & Hm); [|by exists q, es', e]. exfalso. enough (false = true) by done. apply Hb'. exists e. split; [|done]. congruence.
Qed.

Definition affectedb (ns : netstate) (heap : gmap Z flow) (x : in6_addr * Z) : bool :=
  match heap !! x.2 with Some fl => bool_decide (flow_affected ns fl = Some true) | None => false end.

Lemma affected_flows_ok ns heap0 entries : forall heap,
  NoDup (map snd entries) ->
  (forall x, x ∈ entries -> exists fl b, heap !! x.2 = Some fl /\ heap0 !! x.2 = Some fl /\ f_refcount fl = 1 /\ flow_affected ns fl = Some b) ->
  exists heap', affected_flows ns heap entries = Some (heap', map snd (List.filter (affectedb ns heap0) entries)) /\
    forall p, heap' !! p = if bool_decide (p ∈ map snd (List.filter (affectedb ns heap0) entries)) then (fun fl => set_frefcount fl 2) <$> heap !! p else heap !! p.
Proof.
  induction entries as [|[k p] entries IH]; intros heap Hn Hx; [exists heap; split; [done|]; intros p; by rewrite bool_decide_false by (apply not_elem_of_nil)|].
  cbn [map snd] in Hn. apply NoDup_cons in Hn as [Hp Hn]. cbn [affected_flows List.filter]. destruct (Hx (k, p)) as (fl & b & Hfl & Hfl0 & Hr & Hb); [by left|].
  cbn [snd] in *. assert (affectedb ns heap0 (k, p) = b) as ->.
  { unfold affectedb. cbn [snd]. rewrite Hfl0, Hb. destruct b; [by rewrite bool_decide_true|by rewrite bool_decide_false]. }
  rewrite Hfl. cbn [mbind option_bind]. rewrite Hb. cbn [mbind option_bind].
  assert (forall x, x ∈ entries -> x.2 <> p) as Hne by (intros x Hin E; apply Hp; rewrite <- E; by apply list_elem_of_fmap_2).
  destruct b.
  - unfold flow_hold. rewrite Hfl. cbn [mbind option_bind]. rewrite Hr. change (1 + 1) with 2.
    destruct (IH (<[p := set_frefcount fl 2]> heap)) as (heap' & -> & Hl); [done| |].
    { intros x Hin. destruct (Hx x) as (f & b & H1 & H2); [by right|]. exists f, b. rewrite lookup_insert_ne by (symmetry; by apply Hne). done. }
    cbn [mbind option_bind]. exists heap'. split; [done|]. intros q. rewrite Hl. cbn [map snd]. destruct (decide (q = p)) as [->|Hqp].
    + rewrite bool_decide_false, bool_decide_true; [|by left|]; [by rewrite lookup_insert_eq, Hfl|].
      intros (x & -> & Hin)%list_elem_of_fmap. apply list_elem_of_In, filter_In in Hin as [Hin%list_elem_of_In _]. by apply (Hne x).
    + rewrite lookup_insert_ne by done. assert (bool_decide (q ∈ p :: map snd (List.filter (affectedb ns heap0) entries)) =
        bool_decide (q ∈ map snd (List.filter (affectedb ns heap0) entries))) as ->; [|done]. apply bool_decide_ext. rewrite elem_of_cons. tauto.
  - apply IH; [done|]. intros x Hin. apply Hx. by right.
Qed.

Lemma set_frefcount_inj f f' n : set_frefcount f n = set_frefcount f' n -> f_refcount f = f_refcount f' -> f = f'.
Proof. destruct f, f'. unfold set_frefcount. cbn. intros H ->. injection H as -> -> -> -> -> -> -> -> -> -> -> -> -> -> ->. done. Qed.

(** Recomputing held flows gives them back with one reference less. *)
Lemma recompute_list_ok ns nhead : forall heap,
  NoDup nhead ->
  (forall p, p ∈ nhead -> exists fl fl' o, heap !! p = Some (set_frefcount fl 2) /\ recompute_flow inet_ntop accepts ns fl = Some (fl', o) /\
     recompute_flow inet_ntop accepts ns (set_frefcount fl 2) = Some (set_frefcount fl' 2, o) /\ f_refcount fl' = 1) ->
  exists heap' ops, recompute_list inet_ntop accepts ns heap nhead = Some (heap', ops) /\
    (forall p fl fl' o, p ∈ nhead -> heap !! p = Some (set_frefcount fl 2) -> recompute_flow inet_ntop accepts ns (set_frefcount fl 2) = Some (set_frefcount fl' 2, o) ->
       f_refcount fl' = 1 -> heap' !! p = Some fl') /\
    forall p, p ∉ nhead -> heap' !! p = heap !! p.
Proof.
  induction nhead as [|p nhead IH]; intros heap Hn Hx.
  { exists heap, []. split_and!; [done|intros ? ? ? ? ?%not_elem_of_nil; done|done]. }
  apply NoDup_cons in Hn as [Hp Hn]. destruct (Hx p) as (fl & fl' & o & Hfl & Hrec & Hrec2 & Hr); [by left|]. cbn [recompute_list]. rewrite Hfl. cbn [mbind option_bind].
  rewrite Hrec2. cbn [mbind option_bind]. unfold flow_release. rewrite lookup_insert_eq. cbn [mbind option_bind set_frefcount f_refcount].
  change (2 - 1 =? 0) with false. cbn [mbind option_bind]. rewrite insert_insert_eq.
  assert (set_frefcount (set_frefcount fl' 2) (2 - 1) = fl') as He by (destruct fl'; cbn in *; by subst). cbn [set_frefcount] in He. rewrite He.
  destruct (IH (<[p := fl']> heap)) as (heap' & ops & -> & HA & HB); [done| |].
  { intros q Hq. destruct (Hx q) as (f & f' & o' & H1 & H2); [by right|]. exists f, f', o'. rewrite lookup_insert_ne by congruence. done. }
  cbn [mbind option_bind]. exists heap', (o ++ ops). split_and!; [done| |].
  - intros q f f' o' [->|Hq]%elem_of_cons H1 H2 H3.
    + rewrite HB, lookup_insert_eq by done. f_equal. assert (set_frefcount fl 2 = set_frefcount f 2) as E by congruence.
      apply (set_frefcount_inj _ _ 2); congruence.
    + eapply HA; [done| |done|done]. rewrite lookup_insert_ne by congruence. done.
  - intros q [Hqp Hq]%not_elem_of_cons. rewrite HB by done. by rewrite lookup_insert_ne.
Qed.
End recompute.

Section recompute_all.
Context {J : Jansson} {T : JanssonText J} (inet_ntop : in6_addr -> string) (accepts : dbop -> bool).

Lemma recompute_flows_ok c tp M :
  cwf c -> refines (c_ns c) tp -> topo_bounded (tp_pub tp) (length (nodes (ns_view (c_ns c)))) M -> addrs_known (c_ns c) ->
  (forall p fl, c_heap c !! p = Some fl -> flow_placed (c_ns c) fl) ->
  (forall p fl, c_heap c !! p = Some fl -> path_changed (c_ns c) fl -> update_accepted inet_ntop accepts (c_ns c) fl) ->
  exists c' ops, recompute_flows inet_ntop accepts c = Some (c', ops) /\ c_flows c' = c_flows c /\ c_ns c' = c_ns c /\ cwf c' /\
    forall p fl, c_heap c !! p = Some fl -> exists b fl' o, (b = true <-> path_changed (c_ns c) fl) /\
      (if b then recompute_flow inet_ntop accepts (c_ns c) fl = Some (fl', o) else fl' = fl) /\ c_heap c' !! p = Some fl'.
Proof.
  intros W R B Ha P A. pose proof W as [Hk Hp Hh Hf]. set (ns := c_ns c) in *.
  assert (forall x, x ∈ c_flows c -> exists fl b, c_heap c !! x.2 = Some fl /\ c_heap c !! x.2 = Some fl /\ f_refcount fl = 1 /\ flow_affected ns fl = Some b) as Hx.
  { intros [k p] Hin. assert (is_Some (c_heap c !! p)) as [fl Hfl] by (apply Hh; by apply (list_elem_of_fmap_2 snd _ (k, p))).
    destruct (Hf k p fl Hin Hfl) as (Hr & _ & HF). destruct (flow_affected_spec ns tp fl R) as (b & Hb & _).
    { eapply Forall_impl; [exact HF|]. by intros x [_ ?]. }
    exists fl, b. by split_and!. }
  assert (forall p fl, c_heap c !! p = Some fl -> exists k, (k, p) ∈ c_flows c) as Hkey.
  { intros p fl Hfl. assert (p ∈ map snd (c_flows c)) as Hin by (apply Hh; by eexists). apply list_elem_of_fmap in Hin as ([k p'] & -> & Hin). by exists k. }
  unfold recompute_flows. fold ns. destruct (affected_flows_ok inet_ntop ns (c_heap c) (c_flows c) (c_heap c) Hp Hx) as (h1 & -> & Hl1). cbn [mbind option_bind].
  set (nhead := map snd (List.filter (affectedb ns (c_heap c)) (c_flows c))) in *.
  assert (forall p fl, p ∈ nhead -> c_heap c !! p = Some fl -> h1 !! p = Some (set_frefcount fl 2)) as Hh1.
  { intros p fl Hin Hfl. rewrite Hl1, bool_decide_true, Hfl by done. done. }
  assert (forall p, p ∈ nhead -> exists fl, c_heap c !! p = Some fl) as Hsome.
  { intros p (x & -> & Hin)%list_elem_of_fmap. apply list_elem_of_In, filter_In in Hin as [Hin%list_elem_of_In _]. destruct (Hx x Hin) as (fl & _ & Hfl & _). by exists fl. }
  assert (forall p fl b, c_heap c !! p = Some fl -> flow_affected ns fl = Some b -> b = true <-> path_changed ns fl) as Hchg.
  { intros p fl b Hfl Hb. destruct (flow_affected_spec ns tp fl R (cwf_epaths c p fl W Hfl)) as (b' & Hb' & Hiff). assert (b = b') as -> by congruence. done. }
  assert (forall p fl, p ∈ nhead -> c_heap c !! p = Some fl -> path_changed ns fl) as Haff.
  { intros p fl (x & -> & Hin)%list_elem_of_fmap Hfl. apply list_elem_of_In, filter_In in Hin as [_ Haf]. unfold affectedb in Haf. rewrite Hfl in Haf.
    apply bool_decide_eq_true in Haf. by apply (Hchg x.2 fl true). }
  destruct (recompute_list_ok inet_ntop accepts ns nhead h1) as (h2 & ops & -> & HA & HB).
  { by apply NoDup_snd_filter. }
  { intros p Hin. destruct (Hsome p Hin) as [fl Hfl]. destruct (recompute_frefcount inet_ntop accepts ns tp M fl 2 R B Ha (P p fl Hfl)) as (fl' & o & H1 & H2 & H3 & _); [by apply (A p); [|apply (Haff p)]|].
    destruct (Hkey p fl Hfl) as [k Hkp]. destruct (Hf k p fl Hkp Hfl) as (Hr & _). exists fl, fl', o. split_and!; [by apply Hh1|done|done|congruence]. }
  cbn [mbind option_bind].
  assert (forall p fl, c_heap c !! p = Some fl -> exists b fl' o, (b = true <-> path_changed ns fl) /\ h2 !! p = Some fl' /\
    if b then recompute_flow inet_ntop accepts ns fl = Some (fl', o) /\ f_refcount fl' = 1 /\
      f_prefixes fl' = (match flow_path ns fl with Some (Some (segs, es)) => f_prefixes (rerouted fl segs es) | _ => f_prefixes fl end) /\
      (forall segs es, flow_path ns fl = Some (Some (segs, es)) -> is_Some es)
    else fl' = fl) as Hres.
  { intros p fl Hfl. destruct (Hkey p fl Hfl) as [k Hkp]. destruct (Hx (k, p) Hkp) as (fl0 & b & Hfl0 & _ & Hr & Hb). cbn [snd] in Hfl0. rewrite Hfl in Hfl0. simplify_eq.
    assert (p ∈ nhead <-> b = true) as Hin.
    { unfold nhead. split.
      - intros (x & Hxp & Hin)%list_elem_of_fmap. apply list_elem_of_In, filter_In in Hin as [_ Haf]. unfold affectedb in Haf. rewrite <- Hxp, Hfl, Hb in Haf.
        apply bool_decide_eq_true in Haf. congruence.
      - intros ->. apply (list_elem_of_fmap_2 snd _ (k, p)). apply list_elem_of_In, filter_In. split; [by apply list_elem_of_In|]. unfold affectedb. cbn [snd].
        by rewrite Hfl, bool_decide_true. }
    pose proof (Hchg p fl0 b Hfl Hb) as Hiff. destruct b.
    - destruct (recompute_frefcount inet_ntop accepts ns tp M fl0 2 R B Ha (P p fl0 Hfl) (A p fl0 Hfl (proj1 Hiff eq_refl))) as (fl' & o & H1 & H2 & H3 & H4 & H5).
      exists true, fl', o. split_and!; [exact Hiff| |done|congruence|done|done].
      eapply HA; [by apply Hin|apply Hh1; [by apply Hin|done]|done|congruence].
    - exists false, fl0, []. split_and!; [exact Hiff| |done].
      assert (p ∉ nhead) as Hno by (rewrite Hin; done). rewrite HB, Hl1, bool_decide_false by done. done. }
  eexists _, ops. split; [done|]. cbn [c_flows c_heap c_ns set_flows]. split_and!; [done|done| |].
  - split; cbn [c_flows c_heap c_ns set_flows]; [done|done| |].
    + intros p. rewrite <- Hh. split.
      * intros Hs. destruct (decide (p ∈ nhead)) as [Hin|Hno]; [destruct (Hsome p Hin) as [fl ?]; by exists fl|]. rewrite HB, Hl1, bool_decide_false in Hs by done. done.
      * intros [fl Hfl]. destruct (Hres p fl Hfl) as (b & fl' & o & _ & Hl & _). rewrite Hl. by eexists.
    + intros k p fl2 Hkp Hl2. assert (is_Some (c_heap c !! p)) as [fl Hfl] by (apply Hh; by apply (list_elem_of_fmap_2 snd _ (k, p))).
      destruct (Hres p fl Hfl) as (b & fl' & o & _ & Hl & Hr). rewrite Hl2 in Hl. injection Hl as ->. pose proof (Hf k p fl Hkp Hfl) as (H1 & H2 & H3).
      destruct b; [destruct Hr as (_ & Hr & Hpre & Hes)|by subst]. split; [done|]. rewrite Hpre. destruct (flow_path ns fl) as [[[segs es]|]|]; [|done..]. cbn [rerouted set_prefixes f_prefixes]. split.
      * by destruct (f_prefixes fl).
      * apply Forall_forall. intros x (y & -> & Hy)%list_elem_of_fmap. cbn [sp_bsid sp_epath set_segs]. rewrite Forall_forall in H3. split; [by apply H3|by eapply Hes].
  - intros p fl Hfl. destruct (Hres p fl Hfl) as (b & fl' & o & H1 & H2 & H3). exists b, fl', o. split_and!; [exact H1| |done]. by destruct b as [|]; [apply H3|].
Qed.
End recompute_all.

(** ** A small network *)

Definition fdemo_events : list (timeval * event) :=
  [(at_ms 1, EvNode (NodeState "A" "8" (Some "A/128") "P/64")); (at_ms 2, EvNode (NodeState "B" "9" (Some "B/128") "P/64"));
   (at_ms 3, EvLink (demo_link 5 10)); (at_ms 4, EvSync)].
Definition fdemo_ns : netstate := default init_netstate (run demo_pton init_netstate fdemo_events).
Definition fdemo_topo : topo := default topo_new (spec_run demo_pton topo_new fdemo_events).
Definition fdemo_rule : rule := Rule false RULE_ALLOW "a" "b" None "" 0 0 60 0.
Definition fdemo : ctrl := Ctrl fdemo_ns [fdemo_rule] (Some (Rule true RULE_DENY "" "" None "" 0 0 0 0)) [internal_provider] [] ∅.
Definition fdemo_req (bw delay : Z) : flowreq := FlowReq "row1" "q1" "b" "B" "a" "A" bw delay "p" 0.
Definition fdemo_r1 : router := default (Router "" None None [] 0) (ns_rts fdemo_ns !! 1).
Definition fdemo_r2 : router := default (Router "" None None [] 0) (ns_rts fdemo_ns !! 2).
Definition fdemo_pb : prefix := Prefix (replicate 15 0 ++ [80]) 64.
Definition fdemo_rnd : list (list Z) := [replicate 16 7].

(** Texts of addresses: the letter of the last byte. *)
Definition demo_ntop (a : in6_addr) : string := String (ascii_of_nat (Z.to_nat (default 0 (last a)))) "".
Definition ok_reply (uuid : string) : jtree :=
  JObj [("error", JNull); ("result", JArr [JObj [("uuid", JArr [JStr "uuid"; JStr uuid])]])].

Lemma fdemo_refines : refines fdemo_ns fdemo_topo.
Proof.
  destruct (run_refines demo_pton fdemo_events init_netstate topo_new fdemo_topo init_refines) as (ns & Hr & R); [vm_compute; reflexivity|].
  unfold fdemo_ns. by rewrite Hr.
Qed.

Lemma empty_cwf ns rules d ps : cwf (Ctrl ns rules d ps [] ∅).
Proof.
  split; cbn; [split; constructor|constructor| |intros ? ? ? ?%not_elem_of_nil; done].
  intros p. rewrite lookup_empty. split; [by intros []|by intros ?%not_elem_of_nil].
Qed.

Lemma fdemo_bounds : topo_bounded (tp_pub fdemo_topo) (length (nodes (ns_view fdemo_ns))) 100.
Proof.
  split_and!; [vm_compute; done|vm_compute; done|vm_compute; done|]. intros t Ht.
  assert (Forall (fun t => (tl_metric t = UINT32_MAX \/ 1 <= tl_metric t <= 100) /\ 1 <= tl_delay t <= 100) (tp_pub fdemo_topo)) as HF.
  { vm_compute. repeat constructor; (right; split; discriminate) || discriminate. }
  rewrite Forall_forall in HF. by apply HF.
Qed.

Lemma fdemo_addrs : addrs_known fdemo_ns.
Proof.
  intros id Hin. assert (id = 1 \/ id = 2) as [-> | ->].
  { change (nodes (ns_view fdemo_ns)) with [1; 2] in Hin. apply elem_of_cons in Hin as [->|Hin]; [by left|]. apply list_elem_of_singleton in Hin as ->. by right. }
  all: vm_compute; by eexists.
Qed.

Lemma fdemo_ready_with pton bw delay : pton "A" = demo_pton "A" -> pton "B" = demo_pton "B" ->
  ready pton fdemo fdemo_topo 100 (fdemo_req bw delay) fdemo_rule 1 2 fdemo_r1 fdemo_r2.
Proof.
  intros HA HB. split.
  - apply fdemo_refines.
  - apply fdemo_bounds.
  - apply empty_cwf.
  - done.
  - split_and!; vm_compute; reflexivity.
  - exists (replicate 15 0 ++ [65]). split; [exact HA|vm_compute; reflexivity].
  - exists (replicate 15 0 ++ [66]). split; [exact HB|vm_compute; reflexivity].
  - split_and!; [done|vm_compute; reflexivity|vm_compute; by left].
  - split_and!; [done|vm_compute; reflexivity|vm_compute; right; by left].
  - done.
Qed.

Lemma fdemo_ready bw delay : ready demo_pton fdemo fdemo_topo 100 (fdemo_req bw delay) fdemo_rule 1 2 fdemo_r1 fdemo_r2.
Proof. by apply fdemo_ready_with. Qed.

Lemma fdemo_draws : draws_ok fdemo fdemo_r1 fdemo_pb fdemo_rnd.
Proof.
  split; [split_and!; [vm_compute; reflexivity|done|done|done]|by repeat constructor|].
  exists (replicate 16 7). split; [by left|done].
Qed.

(** ** Main results *)

(** C4. A pending request that a rule allows, between two hosts whose routers
    are published, without bandwidth or delay demands: if the published
    topology has a path, a flow enters the table under a binding segment not
    in use, the database gets its row and the request is answered ALLOWED;
    the flow's segments, the same for every provider and sent as the list of
    their addresses, make the network forward along a shortest path from the
    source's to the destination's router.  If there is no path the request is
    answered UNAVAILABLE and nothing changes.  (For a rule without waypoints,
    metrics and delays too small to overflow, and a database that takes the
    row.) *)
Theorem process_request_routes (J : Jansson) (T : JanssonText J) (L : JanssonLaws J) (inet_pton : string -> option in6_addr)
    (inet_ntop : in6_addr -> string) (c : ctrl) (tp : topo) (M : Z) (req : flowreq) (rule : rule) (rt dstrt : Z) (r1 r2 : router)
    (pb : prefix) (rnd : list (list Z)) (now : Z) (reply : option json) (uuid : string) :
  ready inet_pton c tp M req rule rt dstrt r1 r2 -> draws_ok c r1 pb rnd -> addrs_known (c_ns c) -> srdb_insert_result reply = Some (0, Some uuid) ->
  let fl := new_flow inet_pton c req rule rt dstrt in let g := ns_view (c_ns c) in
  f_bw fl = 0 -> f_delay fl = 0 ->
  (exists c' row r p segs es q cost addrs, let bsid := bsid_of pb r in let fl' := set_uuid (installed fl segs (Some es) bsid now) uuid in
     process_request inet_pton inet_ntop rnd now reply c req =
       Some (c', [DbInsert "FlowState" row; status_op "FlowReq" (rq_row req) REQ_STATUS_ALLOWED]) /\ cwf c' /\
     c_flows c' = c_flows c ++ [(bsid, p)] /\ c_heap c' = <[p := fl']> (c_heap c) /\ c_heap c !! p = None /\
     r ∈ rnd /\ aget (c_flows c) bsid = None /\
     shortest g (rt_node_id r1) (rt_node_id r2) q cost /\ forwards g (rt_node_id r1) segs (rev q) (rt_node_id r2) /\
     mapM (segment_addr (c_ns c)) segs = Some addrs /\
     json_object_get row "segments" = json_string (json_dumps (segs_json inet_ntop addrs (length (c_providers c))))) \/
  (process_request inet_pton inet_ntop rnd now reply c req = Some (c, [status_op "FlowReq" (rq_row req) REQ_STATUS_UNAVAILABLE]) /\
   forall q cost, ~ walk g (rt_node_id r1) (rt_node_id r2) q cost).
Proof.
  intros Hr D Ha Hrep fl g Hbw Hdelay. pose proof (rd_rt _ _ _ _ _ _ _ _ _ _ Hr) as (_ & _ & Hn1). pose proof (rd_dstrt _ _ _ _ _ _ _ _ _ _ Hr) as (_ & _ & Hn2).
  pose proof (flow_segpath_default (c_ns c) tp M (rd_ns _ _ _ _ _ _ _ _ _ _ Hr) (rd_bounds _ _ _ _ _ _ _ _ _ _ Hr) _ _ Hn1 Hn2) as HS.
  destruct HS as [(segs & es & q & cst & Hs & Hq & Hf & Hin & _)|[Hs Hno]].
  - left. destruct (request_installs inet_pton inet_ntop c tp M req rule rt dstrt r1 r2 pb rnd now reply uuid segs es Hr D Ha Hrep) as (c' & row & r & p & addrs & H);
      [fold fl; by rewrite Hbw, Hdelay|done|]. destruct H as (H1 & H2 & _ & H4 & H5 & H6 & H7 & H8 & H9 & H10).
    exists c', row, r, p, segs, es, q, cst, addrs. cbn zeta. destruct H10 as [[H10 _] _]. by split_and!.
  - right. split; [|done]. rewrite (process_request_ready inet_pton inet_ntop c tp M req rule rt dstrt r1 r2) by done. cbn zeta. fold fl. by rewrite Hbw, Hdelay, Hs.
Qed.

Lemma process_request_routes_witness :
  let fl := new_flow demo_pton fdemo (fdemo_req 0 0) fdemo_rule 1 2 in let g := ns_view (c_ns fdemo) in
  (exists c' row r p segs es q cost addrs, let bsid := bsid_of fdemo_pb r in let fl' := set_uuid (installed fl segs (Some es) bsid 1000) "u-1" in
     process_request demo_pton demo_ntop fdemo_rnd 1000 (Some (ok_reply "u-1")) fdemo (fdemo_req 0 0) =
       Some (c', [DbInsert "FlowState" row; status_op "FlowReq" (rq_row (fdemo_req 0 0)) REQ_STATUS_ALLOWED]) /\ cwf c' /\
     c_flows c' = c_flows fdemo ++ [(bsid, p)] /\ c_heap c' = <[p := fl']> (c_heap fdemo) /\ c_heap fdemo !! p = None /\
     r ∈ fdemo_rnd /\ aget (c_flows fdemo) bsid = None /\
     shortest g (rt_node_id fdemo_r1) (rt_node_id fdemo_r2) q cost /\ forwards g (rt_node_id fdemo_r1) segs (rev q) (rt_node_id fdemo_r2) /\ mapM (segment_addr (c_ns fdemo)) segs = Some addrs /\
     json_object_get row "segments" = json_string (json_dumps (segs_json demo_ntop addrs (length (c_providers fdemo))))) \/
  (process_request demo_pton demo_ntop fdemo_rnd 1000 (Some (ok_reply "u-1")) fdemo (fdemo_req 0 0) =
     Some (fdemo, [status_op "FlowReq" (rq_row (fdemo_req 0 0)) REQ_STATUS_UNAVAILABLE]) /\ forall q cost, ~ walk g (rt_node_id fdemo_r1) (rt_node_id fdemo_r2) q cost).
Proof.
  refine (process_request_routes tree_jansson tree_text tree_jansson_laws demo_pton demo_ntop fdemo fdemo_topo 100 (fdemo_req 0 0) fdemo_rule 1 2 fdemo_r1 fdemo_r2
    fdemo_pb fdemo_rnd 1000 (Some (ok_reply "u-1")) "u-1" (fdemo_ready 0 0) fdemo_draws fdemo_addrs _ _ _); vm_compute; reflexivity.
Defined.

(** C17. A pending, allowed request, with or without a bandwidth or a delay,
    between published routers.  The graph it is computed on has the links of
    the published topology with that much bandwidth available, parallel links
    being represented by one of least metric (even when a delay is asked for,
    so a faster parallel link of higher metric is not seen).  The request is
    answered ALLOWED exactly when that graph has a path, and UNAVAILABLE,
    changing nothing, when not; the edge path recorded with the new flow is
    shortest there, by delay if a delay was asked for and by metric otherwise.
    (Nothing is said of the segments of such a flow: they are chosen by metric
    on the whole published graph.  For a rule without waypoints, metrics and
    delays too small to overflow, and a database that takes the row.) *)
Theorem process_request_constrained (J : Jansson) (T : JanssonText J) (L : JanssonLaws J) (inet_pton : string -> option in6_addr)
    (inet_ntop : in6_addr -> string) (c : ctrl) (tp : topo) (M : Z) (req : flowreq) (rule : rule) (rt dstrt : Z) (r1 r2 : router)
    (pb : prefix) (rnd : list (list Z)) (now : Z) (reply : option json) (uuid : string) :
  ready inet_pton c tp M req rule rt dstrt r1 r2 -> draws_ok c r1 pb rnd -> addrs_known (c_ns c) -> srdb_insert_result reply = Some (0, Some uuid) ->
  let fl := new_flow inet_pton c req rule rt dstrt in
  exists gc, pruned_clone (c_ns c) (f_bw fl) = Some gc /\
    (forall a b w, wt gc a b = Some w <-> best (usable (f_bw fl) (tp_pub tp)) a b w) /\
    let g := weight_view (ns_links (c_ns c)) (f_delay fl) gc in
    ((exists c' row bsid p segs es q cost,
        process_request inet_pton inet_ntop rnd now reply c req =
          Some (c', [DbInsert "FlowState" row; status_op "FlowReq" (rq_row req) REQ_STATUS_ALLOWED]) /\ cwf c' /\
        c_flows c' = c_flows c ++ [(bsid, p)] /\ c_heap c' = <[p := set_uuid (installed fl segs (Some es) bsid now) uuid]> (c_heap c) /\
        shortest g (rt_node_id r1) (rt_node_id r2) q cost /\
        map v_remote es = rev q /\ map v_local es = removelast (rt_node_id r1 :: rev q)) \/
     (process_request inet_pton inet_ntop rnd now reply c req = Some (c, [status_op "FlowReq" (rq_row req) REQ_STATUS_UNAVAILABLE]) /\
      forall q cost, ~ walk g (rt_node_id r1) (rt_node_id r2) q cost)).
Proof.
  intros Hr D Ha Hrep fl. pose proof (rd_rt _ _ _ _ _ _ _ _ _ _ Hr) as (_ & _ & Hn1). pose proof (rd_dstrt _ _ _ _ _ _ _ _ _ _ Hr) as (_ & _ & Hn2).
  destruct (flow_segpath_chosen (c_ns c) tp M (rd_ns _ _ _ _ _ _ _ _ _ _ Hr) (rd_bounds _ _ _ _ _ _ _ _ _ _ Hr) _ _ (f_bw fl) (f_delay fl) Hn1 Hn2) as (gc & Hc & Hwt & HS).
  exists gc. split_and!; [done|done|]. cbn zeta. destruct HS as [(segs & es & q & cst & Hs & Hq & Hin & H1 & H2)|[Hs Hno]].
  - left. destruct (request_installs inet_pton inet_ntop c tp M req rule rt dstrt r1 r2 pb rnd now reply uuid segs es Hr D Ha Hrep Hs Hin) as (c' & row & r & p & addrs & H).
    destruct H as (E1 & E2 & _ & E4 & E5 & _). exists c', row, (bsid_of pb r), p, segs, es, q, cst. by split_and!.
  - right. split; [|done]. rewrite (process_request_ready inet_pton inet_ntop c tp M req rule rt dstrt r1 r2) by done. cbn zeta. fold fl. by rewrite Hs.
Qed.

Lemma process_request_constrained_witness :
  let fl := new_flow demo_pton fdemo (fdemo_req 200 30) fdemo_rule 1 2 in
  exists gc, pruned_clone (c_ns fdemo) (f_bw fl) = Some gc /\
    (forall a b w, wt gc a b = Some w <-> best (usable (f_bw fl) (tp_pub fdemo_topo)) a b w) /\
    let g := weight_view (ns_links (c_ns fdemo)) (f_delay fl) gc in
    ((exists c' row bsid p segs es q cost,
        process_request demo_pton demo_ntop fdemo_rnd 1000 (Some (ok_reply "u-1")) fdemo (fdemo_req 200 30) =
          Some (c', [DbInsert "FlowState" row; status_op "FlowReq" (rq_row (fdemo_req 200 30)) REQ_STATUS_ALLOWED]) /\ cwf c' /\
        c_flows c' = c_flows fdemo ++ [(bsid, p)] /\ c_heap c' = <[p := set_uuid (installed fl segs (Some es) bsid 1000) "u-1"]> (c_heap fdemo) /\
        shortest g (rt_node_id fdemo_r1) (rt_node_id fdemo_r2) q cost /\ map v_remote es = rev q /\ map v_local es = removelast (rt_node_id fdemo_r1 :: rev q)) \/
     (process_request demo_pton demo_ntop fdemo_rnd 1000 (Some (ok_reply "u-1")) fdemo (fdemo_req 200 30) =
        Some (fdemo, [status_op "FlowReq" (rq_row (fdemo_req 200 30)) REQ_STATUS_UNAVAILABLE]) /\ forall q cost, ~ walk g (rt_node_id fdemo_r1) (rt_node_id fdemo_r2) q cost)).
Proof.
  refine (process_request_constrained tree_jansson tree_text tree_jansson_laws demo_pton demo_ntop fdemo fdemo_topo 100 (fdemo_req 200 30) fdemo_rule 1 2 fdemo_r1 fdemo_r2
    fdemo_pb fdemo_rnd 1000 (Some (ok_reply "u-1")) "u-1" (fdemo_ready 200 30) fdemo_draws fdemo_addrs _). vm_compute. reflexivity.
Defined.

(** The graph the path of a request is computed on. *)
Definition request_graph (ns : netstate) (bw delay : Z) : option view :=
  gc ← pruned_clone ns bw; Some (weight_view (ns_links ns) delay gc).

(** C38. When the database refuses the row of a new flow (an error reply, or
    none) for a pending, allowed request, with or without a bandwidth or a
    delay, for which the graph it is computed on has a path: the request is
    answered ERROR and the flow is taken out again: the table and the flows
    are what they were before the request.  (For a rule without waypoints, and
    metrics and delays too small to overflow.) *)
Theorem process_request_rollback (J : Jansson) (T : JanssonText J) (L : JanssonLaws J) (inet_pton : string -> option in6_addr)
    (inet_ntop : in6_addr -> string) (c : ctrl) (tp : topo) (M : Z) (req : flowreq) (rule : rule) (rt dstrt : Z) (r1 r2 : router)
    (pb : prefix) (rnd : list (list Z)) (now : Z) (reply : option json) (g : view) (q : list Z) (cost : Z) :
  ready inet_pton c tp M req rule rt dstrt r1 r2 -> draws_ok c r1 pb rnd -> addrs_known (c_ns c) -> result_row reply = None ->
  let fl := new_flow inet_pton c req rule rt dstrt in
  request_graph (c_ns c) (f_bw fl) (f_delay fl) = Some g -> walk g (rt_node_id r1) (rt_node_id r2) q cost ->
  exists row, process_request inet_pton inet_ntop rnd now reply c req =
    Some (c, [DbInsert "FlowState" row; status_op "FlowReq" (rq_row req) REQ_STATUS_ERROR]).
Proof.
  intros Hr D Ha Hrep fl Hg Hw. pose proof (rd_rt _ _ _ _ _ _ _ _ _ _ Hr) as (_ & Hr1 & Hn1). pose proof (rd_dstrt _ _ _ _ _ _ _ _ _ _ Hr) as (_ & _ & Hn2).
  destruct (flow_segpath_chosen (c_ns c) tp M (rd_ns _ _ _ _ _ _ _ _ _ _ Hr) (rd_bounds _ _ _ _ _ _ _ _ _ _ Hr) _ _ (f_bw fl) (f_delay fl) Hn1 Hn2) as (gc & Hc & _ & HS).
  unfold request_graph in Hg. rewrite Hc in Hg. cbn [mbind option_bind] in Hg. injection Hg as <-.
  destruct HS as [(segs & es & q' & cst & Hs & _ & Hin & _)|[_ Hno]]; [|by destruct (Hno q cost)].
  destruct (segs_addrs _ tp segs (rd_ns _ _ _ _ _ _ _ _ _ _ Hr) Ha Hin) as [addrs Haddr].
  assert (srdb_insert_result reply = Some (-1, None)) as Hres by (unfold srdb_insert_result; by rewrite Hrep).
  assert (f_prefixes fl <> []) as Hne by (apply new_flow_prefixes, Hr).
  destruct (install_flow_ok inet_ntop c req r1 pb fl segs (Some es) rnd now reply (-1) None addrs r1 (rd_wf _ _ _ _ _ _ _ _ _ _ Hr) D Hne Haddr Hr1 Hres)
    as (row & r & _ & _ & _ & _ & Hi). exists row.
  rewrite (process_request_ready inet_pton inet_ntop c tp M req rule rt dstrt r1 r2) by done. cbn zeta. fold fl. rewrite Hs, Hi. done.
Qed.

Definition err_reply : jtree := JObj [("error", JStr "constraint violation")].

Lemma process_request_rollback_witness :
  exists row, process_request demo_pton demo_ntop fdemo_rnd 1000 (Some err_reply) fdemo (fdemo_req 50 30) =
    Some (fdemo, [DbInsert "FlowState" row; status_op "FlowReq" (rq_row (fdemo_req 50 30)) REQ_STATUS_ERROR]).
Proof.
  refine (process_request_rollback tree_jansson tree_text tree_jansson_laws demo_pton demo_ntop fdemo fdemo_topo 100 (fdemo_req 50 30) fdemo_rule 1 2 fdemo_r1 fdemo_r2
    fdemo_pb fdemo_rnd 1000 (Some err_reply) (default (ns_view fdemo_ns) (request_graph fdemo_ns 50 30)) [2] (0 + 10) (fdemo_ready 50 30) fdemo_draws fdemo_addrs _ _ _);
    [vm_compute; reflexivity..|].
  apply (walk_cons _ _ 1); [apply walk_nil|vm_compute; by left|vm_compute; reflexivity].
Defined.

(** Two links from A to B, one of metric 1 and delay 100, one of metric 2 and
    delay 1. *)
Definition parallel_ns : netstate := default init_netstate (run demo_pton init_netstate
  [(at_ms 1, EvNode (NodeState "A" "8" (Some "A/128") "P/64")); (at_ms 2, EvNode (NodeState "B" "9" (Some "B/128") "P/64"));
   (at_ms 3, EvLink (LinkState "A" "1" "B" "2" 1 100 100 100)); (at_ms 4, EvLink (LinkState "A" "3" "B" "4" 2 100 100 1)); (at_ms 5, EvSync)]).

(** A request with a delay is given the slow link: [graph_finalize] keeps the
    link of least metric before the delays are looked at. *)
Theorem delay_misses_parallel_link :
  exists segs e, flow_segpath parallel_ns 1 2 0 5 = Some (Some (segs, Some [e])) /\
    link_delay (ns_links parallel_ns) e = 100 /\
    exists t, t ∈ map (tl_of (ns_store parallel_ns) (ns_links parallel_ns)) (g_edges (ns_graph parallel_ns)) /\
      tl_from t = 1 /\ tl_to t = 2 /\ tl_metric t = 2 /\ tl_delay t = 1.
Proof.
  eexists _, _. split; [vm_compute; reflexivity|]. split; [vm_compute; reflexivity|].
  exists (tl_of (ns_store parallel_ns) (ns_links parallel_ns) 7%positive). split; [apply list_elem_of_fmap_2; vm_compute; by repeat constructor|].
  split_and!; vm_compute; reflexivity.
Qed.

(** C25. [gc_flows] removes from the table exactly the flows whose ttl has
    passed and the orphans, in table order, reports each of them EXPIRED
    once, frees each and leaves every other flow as it is. *)
Theorem gc_flows_expires (J : Jansson) (now : Z) (c : ctrl) :
  cwf c ->
  let dead := List.filter (fun x => negb (live now (c_heap c) x)) (c_flows c) in
  exists c', gc_flows now c =
    Some (c', map (fun x => status_op "FlowState" (strncpy SLEN (default "" (f_uuid <$> c_heap c !! x.2))) FLOW_STATUS_EXPIRED) dead) /\
    c_flows c' = List.filter (live now (c_heap c)) (c_flows c) /\
    (forall x, x ∈ c_flows c -> c_heap c' !! x.2 = if live now (c_heap c) x then c_heap c !! x.2 else None) /\ cwf c'.
Proof. intros W dead. destruct (gc_flows_ok now c W) as (c' & H1 & H2 & _ & H3 & H4). by exists c'. Qed.

(** Two flows, one with a ttl of 60 seconds from time 1000. *)
Definition two_flows : ctrl :=
  let fl ttl uuid b := Flow uuid "a" "b" [] [SrcPrefix "" "::" 0 0 (replicate 16 b) [NodeSeg 2] (Some [VEdge 1 1 2 5 3])] 1 2 0 0 ttl 0 1000 FLOW_STATUS_ACTIVE "p" "q" 1 in
  Ctrl fdemo_ns [] None [internal_provider] [(replicate 16 1, 1); (replicate 16 2, 2)] {[1 := fl 60 "u-1" 1; 2 := fl 0 "u-2" 2]}.

Lemma two_flows_cwf : cwf two_flows.
Proof.
  assert (forall p, c_heap two_flows !! p <> None -> p = 1 \/ p = 2) as Hd.
  { intros p. cbn [c_heap two_flows]. destruct (decide (p = 1)) as [->|H1]; [by left|]. destruct (decide (p = 2)) as [->|H2]; [by right|].
    rewrite lookup_insert_ne, lookup_singleton_ne by congruence. done. }
  split.
  - split; [|by repeat constructor]. cbn. apply NoDup_cons. split; [|apply NoDup_singleton]. by intros H%list_elem_of_singleton.
  - cbn. apply NoDup_cons. split; [|apply NoDup_singleton]. by intros H%list_elem_of_singleton.
  - intros p. split.
    + intros [fl Hfl]. destruct (Hd p) as [-> | ->]; [congruence|by left|right; by left].
    + intros [-> | ->%list_elem_of_singleton]%elem_of_cons; by eexists.
  - intros k p fl [[= -> ->]|Hin]%elem_of_cons Hl; [|apply list_elem_of_singleton in Hin; simplify_eq]; vm_compute in Hl; injection Hl as <-;
      (split_and!; [done|done|]; repeat constructor; by eexists).
Qed.

Lemma gc_flows_expires_witness :
  let dead := List.filter (fun x => negb (live 1061 (c_heap two_flows) x)) (c_flows two_flows) in
  exists c', gc_flows 1061 two_flows =
    Some (c', map (fun x => status_op "FlowState" (strncpy SLEN (default "" (f_uuid <$> c_heap two_flows !! x.2))) FLOW_STATUS_EXPIRED) dead) /\
    c_flows c' = List.filter (live 1061 (c_heap two_flows)) (c_flows two_flows) /\
    (forall x, x ∈ c_flows two_flows -> c_heap c' !! x.2 = if live 1061 (c_heap two_flows) x then c_heap two_flows !! x.2 else None) /\ cwf c'.
Proof. apply (gc_flows_expires tree_jansson 1061 two_flows two_flows_cwf). Defined.

(** C19. [recompute_flows] after a topology change, when the library takes
    the updates it sends, gives back a well-formed controller with the same
    table, in which every flow of whose path a link is gone or has another
    metric has been through [recompute_flow], and no other flow has changed.
    (For flows between published routers, and metrics and delays too small to
    overflow.) *)
Theorem recompute_flows_affected (J : Jansson) (T : JanssonText J) (inet_ntop : in6_addr -> string) (accepts : dbop -> bool) (c : ctrl) (tp : topo) (M : Z) :
  cwf c -> refines (c_ns c) tp -> topo_bounded (tp_pub tp) (length (nodes (ns_view (c_ns c)))) M -> addrs_known (c_ns c) ->
  (forall p fl, c_heap c !! p = Some fl -> flow_placed (c_ns c) fl) ->
  (forall p fl, c_heap c !! p = Some fl -> path_changed (c_ns c) fl -> update_accepted inet_ntop accepts (c_ns c) fl) ->
  exists c' ops, recompute_flows inet_ntop accepts c = Some (c', ops) /\ c_flows c' = c_flows c /\ cwf c' /\
    forall p fl, c_heap c !! p = Some fl -> exists b fl' o, (b = true <-> path_changed (c_ns c) fl) /\
      (if b then recompute_flow inet_ntop accepts (c_ns c) fl = Some (fl', o) else fl' = fl) /\ c_heap c' !! p = Some fl'.
Proof. intros W R B Ha P A. destruct (recompute_flows_ok inet_ntop accepts c tp M W R B Ha P A) as (c' & ops & H1 & H2 & _ & H4 & H5). by exists c', ops. Qed.

(** A flow with the path 1-2 of [two_flows], recorded with another metric. *)
Definition moved_flow : flow :=
  Flow "u-3" "a" "b" [] [SrcPrefix "" "::" 0 0 (replicate 16 3) [NodeSeg 1; NodeSeg 2] (Some [VEdge 1 1 2 4 3])] 1 2 0 0 0 0 1000 FLOW_STATUS_ACTIVE "p" "q" 1.
Definition two_and_moved : ctrl :=
  Ctrl fdemo_ns [] None [internal_provider] [(replicate 16 1, 1); (replicate 16 3, 3)] {[1 := default moved_flow (c_heap two_flows !! 1); 3 := moved_flow]}.

Lemma two_and_moved_flows p fl : c_heap two_and_moved !! p = Some fl -> f_srcrt fl = 1 /\ f_dstrt fl = 2.
Proof.
  intros Hl. cbn [c_heap two_and_moved] in Hl. apply lookup_insert_Some in Hl as [[_ <-]|[_ Hl]]; [done|]. by apply lookup_singleton_Some in Hl as [_ <-].
Qed.

Lemma two_and_moved_cwf : cwf two_and_moved.
Proof.
  split.
  - split; [|by repeat constructor]. cbn. apply NoDup_cons. split; [|apply NoDup_singleton]. by intros H%list_elem_of_singleton.
  - cbn. apply NoDup_cons. split; [|apply NoDup_singleton]. by intros H%list_elem_of_singleton.
  - intros p. cbn [c_heap two_and_moved c_flows map snd]. rewrite elem_of_cons, list_elem_of_singleton. split.
    + intros [fl Hl]. apply lookup_insert_Some in Hl as [[<- _]|[_ Hl]]; [by left|]. apply lookup_singleton_Some in Hl as [<- _]. by right.
    + intros [-> | ->]; by eexists.
  - intros k p fl [[= -> ->]|Hin]%elem_of_cons Hl; [|apply list_elem_of_singleton in Hin; simplify_eq]; vm_compute in Hl; injection Hl as <-;
      (split_and!; [done|done|]; repeat constructor; by eexists).
Qed.

Lemma recompute_flows_affected_witness :
  (exists c' ops, recompute_flows demo_ntop (fun _ => true) two_and_moved = Some (c', ops) /\ c_flows c' = c_flows two_and_moved /\ cwf c' /\
    forall p fl, c_heap two_and_moved !! p = Some fl -> exists b fl' o, (b = true <-> path_changed (c_ns two_and_moved) fl) /\
      (if b then recompute_flow demo_ntop (fun _ => true) (c_ns two_and_moved) fl = Some (fl', o) else fl' = fl) /\ c_heap c' !! p = Some fl') /\
  flow_affected fdemo_ns (default moved_flow (c_heap two_flows !! 1)) = Some false /\ flow_affected fdemo_ns moved_flow = Some true /\
  (length <$> (snd <$> recompute_flows demo_ntop (fun _ => true) two_and_moved)) = Some 1%nat.
Proof.
  split_and!; [|vm_compute; reflexivity..].
  apply (recompute_flows_affected tree_jansson tree_text demo_ntop (fun _ => true) two_and_moved fdemo_topo 100 two_and_moved_cwf fdemo_refines fdemo_bounds fdemo_addrs).
  - intros p fl Hl. destruct (two_and_moved_flows p fl Hl) as [H1 H2].
    unfold flow_placed. rewrite H1, H2. split; [exists fdemo_r1|exists fdemo_r2]; (split; [vm_compute; reflexivity|]); vm_compute; [by left|right; by left].
  - by intros p fl _ _ segs es addrs.
Defined.

(** C18. Recomputing a flow without bandwidth or delay demands between two
    published routers.  With no path left it keeps its (now dead) segments and
    nothing is sent.  Otherwise its segments become ones that forward along a
    shortest path of the published graph; when some prefix had other segments
    the database is sent the new ones, and if the library refuses that update
    the code uses the NULL it got ([None]).  (For metrics and delays too small
    to overflow.) *)
Theorem recompute_flow_reroutes (J : Jansson) (T : JanssonText J) (inet_ntop : in6_addr -> string) (accepts : dbop -> bool) (ns : netstate) (tp : topo) (M : Z)
    (fl : flow) (r1 r2 : router) :
  refines ns tp -> topo_bounded (tp_pub tp) (length (nodes (ns_view ns))) M -> addrs_known ns ->
  ns_rts ns !! f_srcrt fl = Some r1 -> ns_rts ns !! f_dstrt fl = Some r2 -> f_bw fl = 0 -> f_delay fl = 0 ->
  rt_node_id r1 ∈ nodes (ns_view ns) -> rt_node_id r2 ∈ nodes (ns_view ns) ->
  (recompute_flow inet_ntop accepts ns fl = Some (fl, []) /\ forall q c, ~ walk (ns_view ns) (rt_node_id r1) (rt_node_id r2) q c) \/
  (exists segs es addrs q c, let op := segments_op fl (segs_json inet_ntop addrs (length (f_prefixes fl))) in
    recompute_flow inet_ntop accepts ns fl =
      (if stale fl segs then if accepts op then Some (rerouted fl segs (Some es), [op]) else None else Some (rerouted fl segs (Some es), [])) /\
    mapM (segment_addr ns) segs = Some addrs /\ shortest (ns_view ns) (rt_node_id r1) (rt_node_id r2) q c /\
    forwards (ns_view ns) (rt_node_id r1) segs (rev q) (rt_node_id r2)).
Proof.
  intros R B Ha Hr1 Hr2 Hbw Hdl Hn1 Hn2. assert (flow_placed ns fl) as P by (split; eauto).
  assert (flow_path ns fl = flow_segpath ns (rt_node_id r1) (rt_node_id r2) 0 0) as Hp by (unfold flow_path; by rewrite Hr1, Hr2, Hbw, Hdl).
  destruct (flow_segpath_default ns tp M R B _ _ Hn1 Hn2) as [(segs & es & q & c & Hs & Hq & Hf & _)|[Hs Hno]];
    destruct (recompute_flow_ok inet_ntop accepts ns tp M fl R B Ha P) as [[E1 E2]|(segs' & es' & addrs & E1 & Had & E2)]; rewrite Hp, Hs in E1; try discriminate.
  - right. simplify_eq. by exists segs', es', addrs, q, c.
  - left. done.
Qed.

Definition old_flow : flow :=
  Flow "u-1" "a" "b" [] [SrcPrefix "" "::" 0 0 (replicate 16 1) [NodeSeg 1; NodeSeg 2] (Some [VEdge 9 1 2 5 3])] 1 2 0 0 0 0 1000 FLOW_STATUS_ACTIVE "p" "q" 1.

Lemma recompute_flow_reroutes_witness :
  ((recompute_flow demo_ntop (fun _ => true) fdemo_ns old_flow = Some (old_flow, []) /\ forall q c, ~ walk (ns_view fdemo_ns) (rt_node_id fdemo_r1) (rt_node_id fdemo_r2) q c) \/
  (exists segs es addrs q c, let op := segments_op old_flow (segs_json demo_ntop addrs (length (f_prefixes old_flow))) in
    recompute_flow demo_ntop (fun _ => true) fdemo_ns old_flow =
      (if stale old_flow segs then if (fun _ => true) op then Some (rerouted old_flow segs (Some es), [op]) else None else Some (rerouted old_flow segs (Some es), [])) /\
    mapM (segment_addr fdemo_ns) segs = Some addrs /\ shortest (ns_view fdemo_ns) (rt_node_id fdemo_r1) (rt_node_id fdemo_r2) q c /\
    forwards (ns_view fdemo_ns) (rt_node_id fdemo_r1) segs (rev q) (rt_node_id fdemo_r2))) /\
  (length <$> (snd <$> recompute_flow demo_ntop (fun _ => true) fdemo_ns old_flow)) = Some 1%nat /\
  recompute_flow demo_ntop (fun _ => false) fdemo_ns old_flow = None.
Proof.
  split; [|split; vm_compute; reflexivity].
  apply (recompute_flow_reroutes tree_jansson tree_text demo_ntop (fun _ => true) fdemo_ns fdemo_topo 100 old_flow fdemo_r1 fdemo_r2 fdemo_refines fdemo_bounds fdemo_addrs);
    vm_compute; first [reflexivity | by left | right; by left].
Defined.

(** A walk over the links routing uses, with the sum of their delays as the
    link records hold them. *)
Inductive delay_walk (links : gmap Z link) (g : view) (src : Z) : Z -> Z -> Prop :=
| delay_nil : delay_walk links g src src 0
| delay_cons u v e l c : delay_walk links g src u c -> u ∈ nodes g -> is_Some (wt g u v) -> min_edges g !! (u, v) = Some e ->
    links !! v_edata e = Some l -> delay_walk links g src v (c + l_delay l).

Lemma delay_walk_reweigh links g src v c :
  (forall u v e, min_edges g !! (u, v) = Some e -> is_Some (links !! v_edata e)) ->
  delay_walk links g src v c <-> exists p, walk (reweigh (link_delay links) g) src v p c.
Proof.
  intros Hl. split.
  - induction 1 as [|u v e l c _ [p Hp] Hu [w Hw] He Hlk]; [exists []; constructor|]. exists (v :: p). econstructor; [done|done|].
    rewrite wt_reweigh, Hw, He. unfold link_delay. cbn. by rewrite Hlk.
  - intros [p Hp]. induction Hp as [|u v p c w _ IH Hu Hw]; [constructor|]. rewrite wt_reweigh in Hw. destruct (wt g u v) eqn:E; [|done].
    apply fmap_Some in Hw as (e & He & ->). destruct (Hl u v e He) as [l Hlk]. unfold link_delay. rewrite Hlk. by eapply delay_cons; [exact IH|done|eexists|..].
Qed.

(** C37. Dijkstra with the costs of [delay_min_ops], on a finalized graph all
    of whose links have a record and delays too small to overflow, returns,
    and reports for every node the least total delay, as the link records
    give it, of a walk from the source over the links routing uses (the one
    of least metric between two nodes); UINT32_MAX exactly when there is no
    walk. *)
Theorem delay_min_least (links : gmap Z link) (g : view) (src M : Z) :
  WfView g -> src ∈ nodes g -> 0 <= M < UINT32_MAX -> Z.of_nat (length (nodes g)) * M < UINT32_MAX ->
  (forall u v e, min_edges g !! (u, v) = Some e -> exists l, links !! v_edata e = Some l /\ 0 <= l_delay l <= M) ->
  exists s, graph_dijkstra (delay_min_ops links) g src = Some s /\ forall v, v ∈ nodes g ->
    (get_dist (dist s) v < UINT32_MAX /\ delay_walk links g src v (get_dist (dist s) v) /\ forall c, delay_walk links g src v c -> get_dist (dist s) v <= c) \/
    (get_dist (dist s) v = UINT32_MAX /\ forall c, ~ delay_walk links g src v c).
Proof.
  intros W Hs HM Hov Hl. rewrite (dijkstra_reweigh _ (link_delay links)) by done.
  assert (forall u v e, min_edges g !! (u, v) = Some e -> 0 <= link_delay links e <= M) as Hd.
  { intros u v e He. destruct (Hl u v e He) as (l & Hlk & Hb). unfold link_delay. by rewrite Hlk. }
  assert (forall u v e, min_edges g !! (u, v) = Some e -> is_Some (links !! v_edata e)) as Hlk.
  { intros u v e He. destruct (Hl u v e He) as (l & ? & _). by exists l. }
  destruct (dijkstra_distances_ok (reweigh (link_delay links) g) src M) as (s & Hr & Hv).
  - apply reweigh_wf; [done|]. intros a b e He. specialize (Hd a b e He). lia.
  - done.
  - split_and!; [lia|done|]. intros u v w. rewrite wt_reweigh. destruct (wt g u v); [|done]. intros (e & He & ->)%fmap_Some. by eapply Hd.
  - exists s. split; [done|]. intros v Hin. destruct (Hv v Hin) as [(H1 & p & H2 & H3)|[H1 H2]]; [left|right].
    + split_and!; [done|apply delay_walk_reweigh; [done|by exists p]|]. intros c [p' Hp']%delay_walk_reweigh; [|done]. by eapply H3.
    + split; [done|]. intros c [p' Hp']%delay_walk_reweigh; [|done]. by eapply H2.
Qed.

(** Of two ways from 1 to 3 the one of two links is slower by metric, faster
    by delay. *)
Definition delay_view : view := view_of [1; 2; 3; 4] [VEdge 1 1 3 1 10; VEdge 2 1 2 5 11; VEdge 3 2 3 5 12].
Definition delay_links : gmap Z link :=
  let l d := Link [] [] 100 100 d in {[10 := l 50; 11 := l 3; 12 := l 4]}.

Lemma delay_min_least_witness :
  (exists s, graph_dijkstra (delay_min_ops delay_links) delay_view 1 = Some s /\ forall v, v ∈ nodes delay_view ->
    (get_dist (dist s) v < UINT32_MAX /\ delay_walk delay_links delay_view 1 v (get_dist (dist s) v) /\
      forall c, delay_walk delay_links delay_view 1 v c -> get_dist (dist s) v <= c) \/
    (get_dist (dist s) v = UINT32_MAX /\ forall c, ~ delay_walk delay_links delay_view 1 v c)) /\
  option_map (fun s => map (get_dist (dist s)) [1; 2; 3; 4]) (graph_dijkstra (delay_min_ops delay_links) delay_view 1) = Some [0; 3; 7; UINT32_MAX].
Proof.
  split; [|vm_compute; reflexivity]. apply (delay_min_least delay_links delay_view 1 100).
  - apply wf_viewb_spec. vm_compute. reflexivity.
  - by left.
  - done.
  - done.
  - intros u v e He. assert (Forall (fun x => exists l, delay_links !! v_edata x.2 = Some l /\ 0 <= l_delay l <= 100) (map_to_list (min_edges delay_view))) as HF.
    { vm_compute. repeat constructor; eexists; (split; [reflexivity|split; discriminate]). }
    rewrite Forall_forall in HF. apply (HF ((u, v), e)). by apply elem_of_map_to_list.
Defined.

(** [generate_unique_bsid] returns, and does so as soon as a draw gives a
    free address, exactly when some draw does; the address it returns is free
    and lies in the router's prefix. *)
Theorem generate_unique_bsid_spec (flows : list (in6_addr * Z)) (pb : prefix) (rnd : list (list Z)) :
  0 <= p_len pb <= 128 -> length (p_addr pb) = 16%nat ->
  (is_Some (generate_unique_bsid flows pb rnd) <-> exists r, r ∈ rnd /\ aget flows (bsid_of pb r) = None) /\
  (forall b, generate_unique_bsid flows pb rnd = Some b -> aget flows b = None /\
     take (Z.to_nat ((p_len pb + 7) / 8)) b = take (Z.to_nat ((p_len pb + 7) / 8)) (p_addr pb)).
Proof.
  intros Hp Ha. split.
  - split.
    + intros [b Hb]. apply generate_unique_bsid_ok in Hb as (l1 & r & l2 & -> & -> & Hf & _); [|done]. exists r. split; [|done]. apply elem_of_app. right. by left.
    + intros (r & Hr & Hf). induction rnd as [|x rnd IH]; [by apply not_elem_of_nil in Hr|]. cbn [generate_unique_bsid]. rewrite generate_bsid_ok by done.
      cbn [mbind option_bind]. destruct (aget flows (bsid_of pb x)) eqn:E; [|by eexists]. apply elem_of_cons in Hr as [->|Hr]; [congruence|by apply IH].
  - intros b Hb. apply generate_unique_bsid_ok in Hb as (l1 & r & l2 & -> & -> & Hf & _); [|done]. split; [done|]. by apply bsid_of_prefix.
Qed.

Lemma generate_unique_bsid_witness :
  (is_Some (generate_unique_bsid [(replicate 8 0 ++ replicate 8 7, 1)] fdemo_pb [replicate 16 7; replicate 16 9]) <->
     exists r, r ∈ [replicate 16 7; replicate 16 9] /\ aget [(replicate 8 0 ++ replicate 8 7, 1)] (bsid_of fdemo_pb r) = None) /\
  (forall b, generate_unique_bsid [(replicate 8 0 ++ replicate 8 7, 1)] fdemo_pb [replicate 16 7; replicate 16 9] = Some b ->
     aget [(replicate 8 0 ++ replicate 8 7, 1)] b = None /\
     take (Z.to_nat ((p_len fdemo_pb + 7) / 8)) b = take (Z.to_nat ((p_len fdemo_pb + 7) / 8)) (p_addr fdemo_pb)).
Proof. apply generate_unique_bsid_spec; [vm_compute; split; discriminate|reflexivity]. Defined.

(** With a binding prefix that leaves no byte to draw (length 121 to 128)
    there is one binding segment: once a flow has it, the next request draws
    for ever, holding the lock of the flow table. *)
Theorem generate_unique_bsid_livelock (flows : list (in6_addr * Z)) (pb : prefix) (rnd : list (list Z)) (v : Z) :
  120 < p_len pb <= 128 -> length (p_addr pb) = 16%nat -> Forall (fun r => length r = 16%nat) rnd ->
  aget flows (p_addr pb) = Some v -> generate_unique_bsid flows pb rnd = None.
Proof.
  intros Hp Ha Hr Hv. apply eq_None_not_Some. intros [b Hb]. apply generate_unique_bsid_ok in Hb as (l1 & r & l2 & -> & -> & Hf & _); [|lia].
  assert (bsid_of pb r = p_addr pb) as E; [|congruence]. unfold bsid_of. assert (Z.shiftr (128 - p_len pb) 3 = 0) as ->.
  { rewrite Z.shiftr_div_pow2 by lia. change (2 ^ 3) with 8. apply Z.div_small. lia. }
  change (Z.to_nat (16 - 0)) with 16%nat. apply Forall_app in Hr as [_ Hr]. apply Forall_cons in Hr as [Hr _].
  rewrite take_ge, (drop_ge r), app_nil_r; [done|by rewrite Hr|by rewrite Ha].
Qed.

Lemma generate_unique_bsid_livelock_witness :
  generate_unique_bsid [(replicate 16 5, 1)] (Prefix (replicate 16 5) 128) (replicate 3 (replicate 16 9)) = None.
Proof. apply (generate_unique_bsid_livelock _ _ _ 1); [vm_compute; split; (reflexivity || discriminate)|reflexivity|by repeat constructor|reflexivity]. Defined.

(** The source address a flow's row carries for a provider is not the
    provider's address: [pref_srcips_to_json] hands the address TEXT to
    inet_ntop, so the row names the IPv6 address whose 16 bytes are the
    characters of that text. *)
Theorem srcips_are_text_bytes (J : Jansson) (T : JanssonText J) (LT : JanssonTextLaws J T) (inet_pton : string -> option in6_addr)
    (inet_ntop : in6_addr -> string) (fl : flow) (p : src_prefix) (j : json) :
  (forall a, length a = 16%nat -> inet_pton (inet_ntop a) = Some a) -> f_prefixes fl = [p] -> json_string (inet_ntop (addr_bytes (sp_addr p))) = Some j ->
  pref_srcips_to_json inet_ntop fl = json_array [json_array [json_integer (sp_priority p); j; json_integer (sp_prefix_len p)]] /\
  inet_pton (inet_ntop (addr_bytes (sp_addr p))) = Some (addr_bytes (sp_addr p)) /\
  (sp_addr p = "::" -> addr_bytes (sp_addr p) <> replicate 16 0).
Proof.
  intros Hrt Hp Hj. split_and!.
  - unfold pref_srcips_to_json. rewrite Hp. cbn [map]. rewrite Hj. done.
  - apply Hrt. unfold addr_bytes. rewrite length_take, length_app, length_replicate. lia.
  - intros ->. done.
Qed.

(** Addresses as text, byte by byte. *)
Definition text_ntop (a : in6_addr) : string := json_dumps (JArr (map JInt a)).
Definition text_pton (s : string) : option in6_addr :=
  match json_loads s with Some (JArr l) => Some (map (fun j => match j with JInt z => z | _ => 0 end) l) | _ => None end.

Lemma text_roundtrip a : text_pton (text_ntop a) = Some a.
Proof.
  assert (json_loads (text_ntop a) = Some (JArr (map JInt a))) as H by (exact (@jl_loads tree_jansson tree_text tree_text_laws (map JInt a))).
  unfold text_pton. rewrite H. by rewrite map_map, map_id.
Qed.

Lemma srcips_are_text_bytes_witness :
  let fl := Flow "u-1" "a" "b" [] (select_providers [internal_provider]) 1 2 0 0 0 0 0 0 "p" "q" 1 in
  let p := SrcPrefix "" "::" 0 0 (replicate 16 0) [] None in
  pref_srcips_to_json text_ntop fl = json_array [json_array [json_integer 0; JStr (text_ntop (addr_bytes "::")); json_integer 0]] /\
  text_pton (text_ntop (addr_bytes "::")) = Some (addr_bytes "::") /\ ("::" = "::" -> addr_bytes "::" <> replicate 16 0).
Proof.
  exact (srcips_are_text_bytes tree_jansson tree_text tree_text_laws text_pton text_ntop
    (Flow "u-1" "a" "b" [] (select_providers [internal_provider]) 1 2 0 0 0 0 0 0 "p" "q" 1) (SrcPrefix "" "::" 0 0 (replicate 16 0) [] None) _
    (fun a _ => text_roundtrip a) eq_refl eq_refl).
Defined.

(** The staging graph has changed, and has been quiet for more than 5 ms or
    has been waiting for more than 50. *)
Definition sync_due (now : timeval) (ns : netstate) : Prop :=
  dirty (ns_staging ns) = true /\ (5 < getmsdiff now (gs_mod ns) \/ 50 < getmsdiff now (gs_dirty ns)).

Lemma must_sync_spec now ns : must_sync now ns = true <-> sync_due now ns.
Proof.
  unfold must_sync, sync_due, GSYNC_SOFT_TIMEOUT, GSYNC_HARD_TIMEOUT. by rewrite andb_true_iff, orb_true_iff, !Z.ltb_lt.
Qed.

(** The loop body up to the test of the staging graph. *)
Lemma netmon_gc (J : Jansson) now time_ c (gc_time : timeval) :
  cwf c -> let due := GC_FLOWS_TIMEOUT <? getmsdiff now gc_time in
  exists c1, (if due then '(c, ops) ← gc_flows time_ c; Some (c, now, ops) else Some (c, gc_time, [])) =
    Some (c1, if due then now else gc_time, if due then map (fun x => status_op "FlowState" (strncpy SLEN (default "" (f_uuid <$> c_heap c !! x.2))) FLOW_STATUS_EXPIRED)
      (List.filter (fun x => negb (live time_ (c_heap c) x)) (c_flows c)) else []) /\ cwf c1 /\ c_ns c1 = c_ns c /\
    c_flows c1 = (if due then List.filter (live time_ (c_heap c)) (c_flows c) else c_flows c) /\
    forall p fl, c_heap c1 !! p = Some fl -> c_heap c !! p = Some fl.
Proof.
  intros W due. destruct due; [|by exists c]. destruct (gc_flows_ok time_ c W) as (c1 & -> & Hfl & Hns & Hh & W1). cbn [mbind option_bind].
  exists c1. split_and!; try done. intros p fl Hp. assert (p ∈ map snd (c_flows c1)) as Hin by (apply (cw_heap _ W1); by eexists). rewrite Hfl in Hin.
  apply list_elem_of_fmap in Hin as (x & -> & Hin). apply list_elem_of_In, filter_In in Hin as [Hin%list_elem_of_In E]. by rewrite (Hh x Hin), E in Hp.
Qed.

Lemma graph_sync_zero ns r ns' : netstate_graph_sync ns = Some (r, ns') -> r = 0.
Proof.
  unfold netstate_graph_sync. destruct (negb _); [by intros [= <-]|]. destruct (graph_deepcopy _ _ _) as [[st g]|]; cbn [mbind option_bind]; [|done].
  destruct (graph_finalize _ _); cbn [mbind option_bind]; [|done]. destruct (graph_build_cache _ _); cbn [mbind option_bind]; [|done].
  destruct (graph_destroy _ _ _ _); cbn [mbind option_bind]; [|done]. by intros [= <-].
Qed.

Lemma cwf_member c x : cwf c -> x ∈ c_flows c -> is_Some (c_heap c !! x.2).
Proof. intros W Hx. apply (cw_heap _ W). by apply list_elem_of_fmap_2. Qed.

(** C20. One turn of the monitoring thread, when the routers of every flow are
    in the new graph and the library takes the updates of the changed flows.
    More than a second after the last collection exactly the dead flows leave
    the table, each reported EXPIRED; otherwise the table is kept.  When the
    staging graph is dirty and a timeout has passed, its topology becomes the
    published one, and of the flows left exactly those whose path it changed
    are recomputed on it; otherwise the published graph and the flows are left
    alone.  The controller stays well formed.  (For metrics and delays too
    small to overflow.) *)
Theorem netmon_publishes (J : Jansson) (T : JanssonText J) (inet_ntop : in6_addr -> string) (accepts : dbop -> bool) (now : timeval) (time_ : Z) (c : ctrl)
    (gc_time : timeval) (tp : topo) (M : Z) :
  cwf c -> refines (c_ns c) tp ->
  (forall r ns, netstate_graph_sync (c_ns c) = Some (r, ns) -> topo_bounded (tp_links tp) (length (nodes (ns_view ns))) M /\ addrs_known ns /\
     forall p fl, c_heap c !! p = Some fl -> flow_placed ns fl /\ (path_changed ns fl -> update_accepted inet_ntop accepts ns fl)) ->
  let due := 1000 <? getmsdiff now gc_time in
  exists c' ops, netmon_turn inet_ntop accepts now time_ c gc_time = Some (c', if due then now else gc_time,
      (if due then map (fun x => status_op "FlowState" (strncpy SLEN (default "" (f_uuid <$> c_heap c !! x.2))) FLOW_STATUS_EXPIRED)
         (List.filter (fun x => negb (live time_ (c_heap c) x)) (c_flows c)) else []) ++ ops) /\ cwf c' /\
    c_flows c' = (if due then List.filter (live time_ (c_heap c)) (c_flows c) else c_flows c) /\
    (sync_due now (c_ns c) -> refines (c_ns c') (Topo (tp_routers tp) (tp_last tp) (tp_links tp) (tp_links tp) (tp_prefixes tp))) /\
    (~ sync_due now (c_ns c) -> c_ns c' = c_ns c /\ ops = []) /\
    forall x, x ∈ c_flows c' -> exists b fl fl' o, c_heap c !! x.2 = Some fl /\ (b = true <-> sync_due now (c_ns c) /\ path_changed (c_ns c') fl) /\
      (if b then recompute_flow inet_ntop accepts (c_ns c') fl = Some (fl', o) else fl' = fl) /\ c_heap c' !! x.2 = Some fl'.
Proof.
  intros W R HS due. pose proof (must_sync_spec now (c_ns c)) as Hdue. unfold netmon_turn.
  destruct (netmon_gc J now time_ c gc_time W) as (c1 & Hgc & W1 & Hns & Hfl & Hheap). change (GC_FLOWS_TIMEOUT <? getmsdiff now gc_time) with due in *.
  rewrite Hgc. cbn [mbind option_bind]. rewrite Hns. destruct (must_sync now (c_ns c)).
  - destruct (graph_sync_refines _ _ R) as (r & ns & Hsync & Rn). rewrite Hsync. cbn [mbind option_bind]. destruct (HS r ns Hsync) as (B & Ha & P).
    rewrite (graph_sync_zero _ _ _ Hsync). assert (cwf (set_ns c1 ns)) as W2 by (destruct W1; by split). cbn [Z.ltb Z.compare].
    destruct (recompute_flows_ok inet_ntop accepts (set_ns c1 ns) _ M W2 Rn B Ha) as (c2 & ops & -> & Hfl2 & Hns2 & W3 & Hrec).
    { intros p fl Hp. eapply P, Hheap. exact Hp. } { intros p fl Hp. eapply P, Hheap. exact Hp. }
    cbn [mbind option_bind]. exists c2, ops. rewrite Hns2. split_and!; [done|done|by rewrite Hfl2|done| |]; [intros []; by apply Hdue|].
    intros x Hx. rewrite Hfl2 in Hx. destruct (cwf_member _ _ W1 Hx) as [fl Hp]. destruct (Hrec x.2 fl Hp) as (b & fl' & o & Hb & Hr & Hh).
    exists b, fl, fl', o. split_and!; [by apply Hheap| |done|done]. rewrite Hb. split; [|by intros []]. split; [by apply Hdue|done].
  - exists c1, []. rewrite app_nil_r. assert (~ sync_due now (c_ns c)) as Hno by (by intros Hd%Hdue).
    split_and!; [done|done|done|by intros Hd|done|]. intros x Hx. destruct (cwf_member _ _ W1 Hx) as [fl Hp].
    exists false, fl, fl, []. split_and!; [by apply Hheap| |done|done]. split; [done|]. by intros [Hd _].
Qed.

(** The two flows when the metric of their link has gone from 5 to 7. *)
Definition changed : ctrl :=
  Ctrl (default init_netstate (run demo_pton init_netstate (fdemo_events ++ [(at_ms 5, EvUpdate (demo_link 7 10) (2 ^ LS_METRIC))])))
    [] None [internal_provider] (c_flows two_flows) (c_heap two_flows).
Definition changed_topo : topo := default topo_new (spec_run demo_pton topo_new (fdemo_events ++ [(at_ms 5, EvUpdate (demo_link 7 10) (2 ^ LS_METRIC))])).

Lemma changed_refines : refines (c_ns changed) changed_topo.
Proof.
  destruct (run_refines demo_pton (fdemo_events ++ [(at_ms 5, EvUpdate (demo_link 7 10) (2 ^ LS_METRIC))]) init_netstate topo_new changed_topo init_refines)
    as (ns & Hr & R); [vm_compute; reflexivity|]. cbn [c_ns changed]. by rewrite Hr.
Qed.

Definition changed_synced : netstate := match netstate_graph_sync (c_ns changed) with Some (_, ns) => ns | None => c_ns changed end.

Lemma changed_synced_ok :
  topo_bounded (tp_links changed_topo) (length (nodes (ns_view changed_synced))) 100 /\ addrs_known changed_synced /\
  forall p fl, c_heap changed !! p = Some fl -> flow_placed changed_synced fl.
Proof.
  split; [split_and!; [vm_compute; done|vm_compute; done|vm_compute; done|]|split].
  - intros t Ht. assert (Forall (fun t => (tl_metric t = UINT32_MAX \/ 1 <= tl_metric t <= 100) /\ 1 <= tl_delay t <= 100) (tp_links changed_topo)) as HF.
    { vm_compute. repeat constructor; (right; split; discriminate) || discriminate. }
    rewrite Forall_forall in HF. by apply HF.
  - intros id Hin. assert (id = 1 \/ id = 2) as [-> | ->].
    { change (nodes (ns_view changed_synced)) with [1; 2] in Hin. apply elem_of_cons in Hin as [->|Hin]; [by left|]. apply list_elem_of_singleton in Hin as ->. by right. }
    all: vm_compute; by eexists.
  - intros p fl Hl. assert (f_srcrt fl = 1 /\ f_dstrt fl = 2) as [H1 H2].
    { cbn [c_heap changed two_flows] in Hl. apply lookup_insert_Some in Hl as [[_ <-]|[_ Hl]]; [done|]. by apply lookup_singleton_Some in Hl as [_ <-]. }
    unfold flow_placed. rewrite H1, H2. split; [exists fdemo_r1|exists fdemo_r2]; (split; [vm_compute; reflexivity|]); vm_compute; [by left|right; by left].
Qed.

Lemma netmon_publishes_witness :
  let c := changed in let now := Timeval 2 0 in
  (exists c' ops, netmon_turn demo_ntop (fun _ => true) now 1061 c (at_ms 0) = Some (c', now,
      map (fun x => status_op "FlowState" (strncpy SLEN (default "" (f_uuid <$> c_heap c !! x.2))) FLOW_STATUS_EXPIRED)
         (List.filter (fun x => negb (live 1061 (c_heap c) x)) (c_flows c)) ++ ops) /\ cwf c' /\
    c_flows c' = List.filter (live 1061 (c_heap c)) (c_flows c) /\
    (sync_due now (c_ns c) ->
       refines (c_ns c') (Topo (tp_routers changed_topo) (tp_last changed_topo) (tp_links changed_topo) (tp_links changed_topo) (tp_prefixes changed_topo))) /\
    (~ sync_due now (c_ns c) -> c_ns c' = c_ns c /\ ops = []) /\
    forall x, x ∈ c_flows c' -> exists b fl fl' o, c_heap c !! x.2 = Some fl /\ (b = true <-> sync_due now (c_ns c) /\ path_changed (c_ns c') fl) /\
      (if b then recompute_flow demo_ntop (fun _ => true) (c_ns c') fl = Some (fl', o) else fl' = fl) /\ c_heap c' !! x.2 = Some fl') /\
  sync_due now (c_ns c) /\ length (List.filter (live 1061 (c_heap c)) (c_flows c)) = 1%nat.
Proof.
  split_and!; [|vm_compute; split; [reflexivity|by left]|vm_compute; reflexivity].
  apply (netmon_publishes tree_jansson tree_text demo_ntop (fun _ => true) (Timeval 2 0) 1061 changed (at_ms 0) changed_topo 100); [|apply changed_refines|].
  - destruct two_flows_cwf. by split.
  - intros r ns Hs. assert (ns = changed_synced) as -> by (unfold changed_synced; by rewrite Hs). destruct changed_synced_ok as (H1 & H2 & H3).
    split_and!; [done|done|]. intros p fl Hp. split; [by apply (H3 p)|]. by intros _ segs es addrs.
Defined.
