(* ===== verification/Segrefs.v ===== *)
(** * Who holds the objects of a path (sr-ctrl/graph.c: copy_segments,
    free_segments, nodes_to_edges, copy_edgepath, destroy_edgepath and the
    references of build_segpath, its pruned clone included;
    sr-ctrl.h: flow_release)

    A segment list and an edge path hold references to nodes and edges of the
    published graph.  Segpath.v computes them over views; here are the
    references they take and give back, on the store of Graph.v, through the
    life of a flow: [process_request] gives every source prefix a copy,
    [recompute_flow] replaces them, [flow_release] ends it.  [None] is a use
    after free or a NULL list. *)

From S2P Require Import Prelude Dijkstra Graph Netstate Flows.

(** struct segment *)
Inductive pseg := PNode (n : ptr) | PAdj (e : ptr).

Definition release_seg (st : store) (s : pseg) : option store := match s with PNode n => node_release st n | PAdj e => edge_release st e end.

Fixpoint release_segs (st : store) (segs : list pseg) : option store :=
  match segs with [] => Some st | s :: segs => st ← release_seg st s; release_segs st segs end.

(** A list is NULL or its elements; the walk over NULL reads its first field. *)
Definition free_segments (st : store) (segs : option (list pseg)) : option store := segs ← segs; release_segs st segs.







(** ** The prefixes of a flow *)

Record owned := Owned { o_segs : option (list pseg); o_epath : option (list ptr) }.






(** [flow_release] of the last reference: the segments of every prefix, not
    its edge path. *)
Fixpoint release_flow (st : store) (ps : list owned) : option store :=
  match ps with [] => Some st | p :: ps => st ← free_segments st (o_segs p); release_flow st ps end.

(** ** The life of a flow *)

(** A run of [build_segpath] with [pre_prune] on the published graph [b_graph]
    for a flow that asks for [b_bw]: the segments inserted, whether a path was
    found for every leg ([b_ok]), and the node path the edges are looked up
    for. *)
Record built_path := Built { b_graph : graph; b_links : gmap Z link; b_bw : Z; b_ok : bool; b_segs : list pseg; b_path : list Z }.




(** ** Holders *)

Definition seg_nodes (segs : list pseg) : list ptr := omap (fun s => match s with PNode n => Some n | PAdj _ => None end) segs.
Definition seg_edges (segs : list pseg) : list ptr := omap (fun s => match s with PAdj e => Some e | PNode _ => None end) segs.
Definition path_of (p : owned) : list ptr := default [] (o_epath p).
Definition own_nodes (ps : list owned) : list ptr := ps ≫= fun p => seg_nodes (default [] (o_segs p)).
Definition own_edges (ps : list owned) : list ptr := ps ≫= fun p => seg_edges (default [] (o_segs p)).
Definition own_paths (ps : list owned) : list ptr := ps ≫= path_of.














(** The edges looked up for a node path, up to the first pair without edge. *)
Fixpoint found (g : graph) (path : list Z) : list ptr :=
  match path with
  | a :: ((b :: _) as rest) => match g_min_edges g !! (a, b) with Some e => e :: found g rest | None => [] end
  | _ => []
  end.
Fixpoint complete (g : graph) (path : list Z) : bool :=
  match path with
  | a :: ((b :: _) as rest) => match g_min_edges g !! (a, b) with Some e => complete g rest | None => false end
  | _ => true
  end.



Definition epath_of (r : built_path) : option (list ptr) := if complete (b_graph r) (b_path r) then Some (found (b_graph r) (b_path r)) else None.

(** The links of the graph with too little bandwidth left for the flow. *)
Definition pruned_of (st : store) (r : built_path) : list ptr :=
  if b_bw r =? 0 then [] else pruned st (prune_bw (b_links r) (b_bw r)) (g_edges (b_graph r)).

(** References that are taken and that no list has. *)
Definition lost (st : store) (r : built_path) : list ptr :=
  (pruned_of st r ++ if b_ok r then if complete (b_graph r) (b_path r) then [] else found (b_graph r) (b_path r) else [])%list.











(** *** Prefixes *)


Lemma own_cons p ps : own_nodes (p :: ps) = (seg_nodes (default [] (o_segs p)) ++ own_nodes ps)%list /\
  own_edges (p :: ps) = (seg_edges (default [] (o_segs p)) ++ own_edges ps)%list /\ own_paths (p :: ps) = (path_of p ++ own_paths ps)%list.
Proof. done. Qed.


























(** The demonstration graph of Graph.v, three of whose links have 10 of
    bandwidth left: a path from node 1 to node 3, the same path with its middle
    node twice, as a waypoint makes it, and a request for more bandwidth, which
    finds no path. *)
Definition demo_graph : graph := default graph_new (graph_finalize (gs_store demo) (gs_graph demo)).
Definition demo_links : gmap Z link := {[0 := Link [] [] 100 10 1; 1 := Link [] [] 100 100 1]}.
Definition direct : built_path := Built demo_graph demo_links 0 true [PNode 3%positive] [1; 2; 3].
Definition waypoint : built_path := Built demo_graph demo_links 0 true [PNode 2%positive; PNode 3%positive] [1; 2; 2; 3].
Definition too_wide : built_path := Built demo_graph demo_links 50 false [] [].



(** What is lost: two references to each link of the path, one to the first
    link of the path with the waypoint, one to each link that is too narrow. *)
Example demo_lost :
  map (fun r => length (lost (gs_store demo) r)) [direct; waypoint; too_wide] = [0; 1; 3]%nat /\ length (default [] (epath_of direct)) = 2%nat.
Proof. split; vm_compute; reflexivity. Qed.

(** A copy that failed for want of memory is NULL, and NULL is not freed. *)
Lemma null_segments_crash st e : release_flow st [Owned None e] = None.
Proof. reflexivity. Qed.
