(* ===== verification/Workers.v ===== *)
(** * The worker threads of the controller (sr-ctrl.c: flowreq_read,
    thread_worker, main)

    The monitor of the table FlowReq pushes every request row into the buffer,
    a number of workers pop them, and main, when the monitors have ended,
    pushes one NULL per worker and joins them.  A step is a call of [sbuf_push]
    or [sbuf_pop] (Sbuf.v has what happens inside) or the processing of a
    request (Flows.v); the steps of all threads are interleaved in any
    order.  The buffer is any [Buffer] of Sbuf.v: the ring of [struct sbuf] in
    the theorems, the bounded list that it refines in their proofs. *)

From S2P Require Import Prelude Sync Sbuf.

Inductive wthread := WIdle | WBusy (r : Z) | WGone.

(** main: in [srdb_monitor_join_all]; before the push of NULL number [i];
    before pthread_join of worker [i]; before the end of the monitoring
    thread; at the frees. *)
Inductive mpc := MJoinMonitors | MPush (i : nat) | MJoin (i : nat) | MNetmon | MFrees.

(** [r_coming]: rows the monitor has still to deliver before it ends;
    [r_started], [r_done]: requests in the order in which workers have taken
    and finished them. *)
Record rsys {Q : Type} := RSys {
  r_queue : Q; r_coming : list Z; r_workers : list wthread; r_pc : mpc; r_started : list Z; r_done : list Z
}.
Arguments rsys : clear implicits.
Arguments RSys {Q}.

Section turns.
Context {Q : Type} {B : Buffer Q (option Z)}.

(** sbuf_push of the monitor: waits while the buffer is full. *)
Definition flowreq_push (s : rsys Q) : option (rsys Q) :=
  match r_coming s with
  | [] => None
  | r :: coming =>
      q ← b_push (r_queue s) (Some r); Some (RSys q coming (r_workers s) (r_pc s) (r_started s) (r_done s))
  end.

Definition set_worker (s : rsys Q) (k : nat) (w : wthread) (q : Q) (started done : list Z) : rsys Q :=
  RSys q (r_coming s) (<[k := w]> (r_workers s)) (r_pc s) started done.

(** A turn of worker [k]. *)
Definition worker_turn (s : rsys Q) (k : nat) : option (rsys Q) :=
  w ← r_workers s !! k;
  match w with
  | WIdle =>
      '(entry, q) ← b_pop (r_queue s);
      match entry with
      | None => Some (set_worker s k WGone q (r_started s) (r_done s))
      | Some r => Some (set_worker s k (WBusy r) q (r_started s ++ [r]) (r_done s))
      end
  | WBusy r => Some (set_worker s k WIdle (r_queue s) (r_started s) (r_done s ++ [r]))
  | WGone => None
  end.

Definition set_main (s : rsys Q) (pc : mpc) (q : Q) : rsys Q :=
  RSys q (r_coming s) (r_workers s) pc (r_started s) (r_done s).

Definition main_turn (s : rsys Q) : option (rsys Q) :=
  match r_pc s with
  | MJoinMonitors => match r_coming s with [] => Some (set_main s (MPush 0) (r_queue s)) | _ => None end
  | MPush i =>
      if (i <? length (r_workers s))%nat then
        q ← b_push (r_queue s) None; Some (set_main s (MPush (S i)) q)
      else Some (set_main s (MJoin 0) (r_queue s))
  | MJoin i =>
      match r_workers s !! i with
      | Some WGone => Some (set_main s (MJoin (S i)) (r_queue s))
      | Some _ => None
      | None => Some (set_main s MNetmon (r_queue s))
      end
  | MNetmon => Some (set_main s MFrees (r_queue s))
  | MFrees => None
  end.

Inductive rlabel := RFeed | RWorker (k : nat) | RMain.

Definition rstep (l : rlabel) (s : rsys Q) : option (rsys Q) :=
  match l with RFeed => flowreq_push s | RWorker k => worker_turn s k | RMain => main_turn s end.

Fixpoint rrun (ls : list rlabel) (s : rsys Q) : option (rsys Q) := match ls with [] => Some s | l :: ls => s ← rstep l s; rrun ls s end.

Definition rstart (q : Q) (nworkers : nat) (reqs : list Z) : rsys Q := RSys q reqs (replicate nworkers WIdle) MJoinMonitors [] [].

(** No thread can move. *)
Definition no_step (s : rsys Q) : Prop := forall l, rstep l s = None.

End turns.

(** The buffer of [req_buffer_size] slots. *)
Definition ctrl_start (req_buffer_size : Z) (nworkers : nat) (reqs : list Z) : rsys (sbuf (option Z)) := rstart (sbuf_new req_buffer_size) nworkers reqs.

(** ** Invariant, with the list as the buffer *)


Section on_list.
Context (cap : nat).
Local Abbreviation rsys := (rsys (list (option Z))).













(** ** Progress *)









End on_list.

(** ** The ring *)






(** Two workers, a buffer of one place and three requests. *)
Definition three : list rlabel :=
  [RFeed; RWorker 0; RFeed; RWorker 1; RFeed; RWorker 1; RMain; RWorker 1; RMain; RWorker 0; RWorker 0; RMain; RWorker 1; RWorker 1; RMain; RMain; RMain; RMain; RMain].

Definition three_end : rsys (sbuf (option Z)) := default (ctrl_start 1 2 []) (rrun three (ctrl_start 1 2 [10; 20; 30])).


Example three_done : r_done three_end = [20; 10; 30] /\ no_step three_end.
Proof. split; [vm_compute; reflexivity|]. intros [|[|[|k]]|]; vm_compute; reflexivity. Qed.

(** With the ten slots of the README the counters 0 and 2 share a slot: of
    three requests that wait for a worker the first is lost and the third is
    processed twice. *)
Theorem ten_slots_lose :
  exists s, rrun ([RFeed; RFeed; RFeed] ++ replicate 6 (RWorker 0)) (ctrl_start 10 1 [10; 20; 30]) = Some s /\ r_done s = [30; 20; 30].
Proof. eexists. split; [vm_compute; reflexivity|]. reflexivity. Qed.
