(* ===== verification/Netlink.v ===== *)
(** * Netlink attributes (sr-routed/libnetlink.c, sr-routed/libnetlink.h)

    The routines that append attributes to a message or to a nested
    attribute, and those that read them back, over the bytes of the buffer:
    a write outside of it is [None].  The theory relates a buffer to the list
    of attributes it holds, [holds], and shows that reading gives back what
    was appended.  The conversation with the kernel is in Rtnl.v. *)

From S2P Require Import Prelude.

(** Little-endian integers of [n] bytes. *)
Fixpoint le (n : nat) (z : Z) : list Z :=
  match n with O => [] | S n => z mod 256 :: le n (z / 256) end.
Fixpoint of_le (l : list Z) : Z :=
  match l with [] => 0 | b :: l => b + 256 * of_le l end.

(** RTA_ALIGN and NLMSG_ALIGN are the same rounding to 4 bytes. *)
Definition RTA_ALIGN (n : Z) : Z := Z.land (n + 3) (Z.lnot 3).
Definition RTA_LENGTH (n : Z) : Z := RTA_ALIGN 4 + n.
Definition RTA_SPACE (n : Z) : Z := RTA_ALIGN (RTA_LENGTH n).

(** ** Buffers *)

(** A message or an attribute: its length field and the bytes of the object
    from its start. *)
Record nlbuf := NlBuf { nb_len : Z; nb_mem : list Z }.

Definition bwrite (mem : list Z) (o : Z) (bs : list Z) : option (list Z) :=
  if (0 <=? o) && (o + Z.of_nat (length bs) <=? Z.of_nat (length mem))
  then Some (take (Z.to_nat o) mem ++ bs ++ drop (Z.to_nat o + length bs) mem) else None.

(** An attribute written at the tail, [grow] the new length. *)
Definition put_attr (b : nlbuf) (type : Z) (data : list Z) (grow : Z) : option nlbuf :=
  mem ← bwrite (nb_mem b) (RTA_ALIGN (nb_len b)) (le 2 (RTA_LENGTH (Z.of_nat (length data))) ++ le 2 type ++ data);
  Some (NlBuf grow mem).

(** Return code and buffer. *)
Definition addattr_l (n : nlbuf) (maxlen type : Z) (data : list Z) : option (Z * nlbuf) :=
  let len := RTA_LENGTH (Z.of_nat (length data)) in
  let grow := RTA_ALIGN (nb_len n) + RTA_ALIGN len in
  if maxlen <? grow then Some (-1, n) else n ← put_attr n type data grow; Some (0, n).

Definition addattr (n : nlbuf) (maxlen type : Z) : option (Z * nlbuf) := addattr_l n maxlen type [].
Definition addattr8 (n : nlbuf) (maxlen type data : Z) : option (Z * nlbuf) := addattr_l n maxlen type (le 1 data).
Definition addattr16 (n : nlbuf) (maxlen type data : Z) : option (Z * nlbuf) := addattr_l n maxlen type (le 2 data).
Definition addattr32 (n : nlbuf) (maxlen type data : Z) : option (Z * nlbuf) := addattr_l n maxlen type (le 4 data).
Definition addattr64 (n : nlbuf) (maxlen type data : Z) : option (Z * nlbuf) := addattr_l n maxlen type (le 8 data).

Definition addraw_l (n : nlbuf) (maxlen : Z) (data : list Z) : option (Z * nlbuf) :=
  let len := Z.of_nat (length data) in
  let tail := RTA_ALIGN (nb_len n) in
  if maxlen <? tail + RTA_ALIGN len then Some (-1, n)
  else
    mem ← bwrite (nb_mem n) tail data;
    mem ← bwrite mem (tail + len) (replicate (Z.to_nat (RTA_ALIGN len - len)) 0);
    Some (0, NlBuf (tail + RTA_ALIGN len) mem).

(** The nested attribute is its offset in the message. *)
Definition addattr_nest (n : nlbuf) (maxlen type : Z) : option (Z * nlbuf) :=
  let nest := RTA_ALIGN (nb_len n) in
  '(_, n) ← addattr_l n maxlen type []; Some (nest, n).

(** nest->rta_len = tail - nest *)
Definition set_rta_len (b : nlbuf) (nest : Z) : option nlbuf :=
  mem ← bwrite (nb_mem b) nest (le 2 (RTA_ALIGN (nb_len b) - nest)); Some (NlBuf (nb_len b) mem).

Definition addattr_nest_end (n : nlbuf) (nest : Z) : option (Z * nlbuf) :=
  n ← set_rta_len n nest; Some (nb_len n, n).

(** The length of a struct rtattr is an unsigned short. *)
Definition rta_addattr32 (rta : nlbuf) (maxlen type data : Z) : option (Z * nlbuf) :=
  let len := RTA_LENGTH 4 in
  let grow := RTA_ALIGN (nb_len rta) + len in
  if maxlen <? grow then Some (-1, rta) else rta ← put_attr rta type (le 4 data) (grow mod 2 ^ 16); Some (0, rta).

Definition rta_addattr_l (rta : nlbuf) (maxlen type : Z) (data : list Z) : option (Z * nlbuf) :=
  let len := RTA_LENGTH (Z.of_nat (length data)) in
  let grow := RTA_ALIGN (nb_len rta) + RTA_ALIGN len in
  if maxlen <? grow then Some (-1, rta) else rta ← put_attr rta type data (grow mod 2 ^ 16); Some (0, rta).

Definition rta_addattr8 (rta : nlbuf) (maxlen type data : Z) : option (Z * nlbuf) := rta_addattr_l rta maxlen type (le 1 data).
Definition rta_addattr16 (rta : nlbuf) (maxlen type data : Z) : option (Z * nlbuf) := rta_addattr_l rta maxlen type (le 2 data).
Definition rta_addattr64 (rta : nlbuf) (maxlen type data : Z) : option (Z * nlbuf) := rta_addattr_l rta maxlen type (le 8 data).

Definition rta_nest (rta : nlbuf) (maxlen type : Z) : option (Z * nlbuf) :=
  let nest := RTA_ALIGN (nb_len rta) in
  '(_, rta) ← rta_addattr_l rta maxlen type []; Some (nest, rta).

Definition rta_nest_end (rta : nlbuf) (nest : Z) : option (Z * nlbuf) :=
  rta ← set_rta_len rta nest; Some (nb_len rta, rta).

(** ** Reading attributes *)

Definition rta_len (bs : list Z) : Z := of_le (take 2 bs).
Definition rta_type (bs : list Z) : Z := of_le (take 2 (drop 2 bs)).
Definition RTA_DATA (bs : list Z) : list Z := take (Z.to_nat (rta_len bs - 4)) (drop 4 bs).

(** [len] bytes are left from [bs] on. *)
Definition RTA_OK (bs : list Z) (len : Z) : bool := (4 <=? len) && (4 <=? rta_len bs) && (rta_len bs <=? len).

(** while (RTA_OK(rta, len)) f(rta); a step is at least 4 bytes, [fuel] the
    length. *)
Fixpoint rta_foreach {A} (f : list Z -> A -> A) (fuel : nat) (bs : list Z) (len : Z) (acc : A) : A :=
  match fuel with
  | O => acc
  | S fuel =>
      if RTA_OK bs len
      then let step := RTA_ALIGN (rta_len bs) in rta_foreach f fuel (drop (Z.to_nat step) bs) (len - step) (f bs acc)
      else acc
  end.

(** tb as a map from the type to the data of the attribute *)
Definition parse_rtattr_flags (max : Z) (bs : list Z) (flags : Z) : gmap Z (list Z) :=
  rta_foreach (fun rta tb =>
      let type := Z.land (rta_type rta) (Z.lnot flags) in
      if (type <=? max) && negb (bool_decide (is_Some (tb !! type))) then <[type := RTA_DATA rta]> tb else tb)
    (length bs) bs (Z.of_nat (length bs)) ∅.

Definition parse_rtattr (max : Z) (bs : list Z) : gmap Z (list Z) := parse_rtattr_flags max bs 0.

(** tb as the list of its entries; the return value is its length. *)
Definition parse_rtattr_byindex (max : Z) (bs : list Z) : list (list Z) :=
  rta_foreach (fun rta tb => if (rta_type rta <=? max) && (Z.of_nat (length tb) <? max) then tb ++ [RTA_DATA rta] else tb)
    (length bs) bs (Z.of_nat (length bs)) [].

Definition parse_rtattr_one (type : Z) (bs : list Z) : option (list Z) :=
  rta_foreach (fun rta r => match r with Some _ => r | None => if rta_type rta =? type then Some (RTA_DATA rta) else None end)
    (length bs) bs (Z.of_nat (length bs)) None.

(** ** Alignment and integers *)

Lemma RTA_ALIGN_eq n : RTA_ALIGN n = (n + 3) / 4 * 4.
Proof.
  unfold RTA_ALIGN. change 3 with (Z.ones 2) at 2. rewrite <- Z.ldiff_land, Z.ldiff_ones_r, Z.shiftl_mul_pow2, Z.shiftr_div_pow2 by lia. done.
Qed.

Lemma RTA_ALIGN_bounds n : n <= RTA_ALIGN n < n + 4.
Proof. rewrite RTA_ALIGN_eq. pose proof (Z.div_mod (n + 3) 4). pose proof (Z.mod_pos_bound (n + 3) 4). lia. Qed.

Lemma RTA_ALIGN_id n : n mod 4 = 0 -> RTA_ALIGN n = n.
Proof. intros H. rewrite RTA_ALIGN_eq. Z.to_euclidean_division_equations; lia. Qed.

Lemma RTA_ALIGN_mod n : RTA_ALIGN n mod 4 = 0.
Proof. rewrite RTA_ALIGN_eq. apply Z.mod_mul. lia. Qed.

Lemma le_length n z : length (le n z) = n.
Proof. revert z. induction n; intros z; simpl; auto. Qed.

Lemma of_le_le n z : 0 <= z < 256 ^ Z.of_nat n -> of_le (le n z) = z.
Proof.
  revert z. induction n as [|n IH]; intros z Hz; cbn [le of_le]; [cbn in Hz; lia|].
  rewrite Nat2Z.inj_succ, Z.pow_succ_r in Hz by lia. rewrite IH; [pose proof (Z.div_mod z 256); lia|].
  split; [apply Z.div_pos; lia|apply Z.div_lt_upper_bound; lia].
Qed.

(** ** Attributes of a buffer *)

(** [pad] is what the buffer held behind the data, up to the alignment. *)
Record attr := Attr { a_type : Z; a_data : list Z; a_pad : list Z }.

Definition enc (a : attr) : list Z := le 2 (4 + Z.of_nat (length (a_data a))) ++ le 2 (a_type a) ++ a_data a ++ a_pad a.
Definition encs (l : list attr) : list Z := flat_map enc l.

Definition attr_ok (a : attr) : Prop :=
  0 <= a_type a < 2 ^ 16 /\ 4 + Z.of_nat (length (a_data a)) < 2 ^ 16 /\
  Z.of_nat (length (a_data a) + length (a_pad a)) = RTA_ALIGN (Z.of_nat (length (a_data a))).

Lemma enc_length a : length (enc a) = (4 + length (a_data a) + length (a_pad a))%nat.
Proof. unfold enc. rewrite !length_app, !le_length. lia. Qed.

Lemma RTA_LENGTH_align n : RTA_ALIGN (RTA_LENGTH n) = 4 + RTA_ALIGN n.
Proof. unfold RTA_LENGTH. change (RTA_ALIGN 4) with 4. rewrite !RTA_ALIGN_eq. Z.to_euclidean_division_equations; lia. Qed.

Lemma enc_size a : attr_ok a -> Z.of_nat (length (enc a)) = RTA_SPACE (Z.of_nat (length (a_data a))).
Proof. intros (_ & _ & H). unfold RTA_SPACE. rewrite RTA_LENGTH_align, enc_length. lia. Qed.

Lemma encs_app l l' : encs (l ++ l') = encs l ++ encs l'.
Proof. apply flat_map_app. Qed.

Lemma encs_one a : encs [a] = enc a.
Proof. apply app_nil_r. Qed.

Lemma encs_aligned l : Forall attr_ok l -> Z.of_nat (length (encs l)) mod 4 = 0.
Proof.
  induction 1 as [|a l Ha _ IH]; [done|]. change (encs (a :: l)) with (enc a ++ encs l).
  rewrite length_app, Nat2Z.inj_add, enc_size by done. unfold RTA_SPACE.
  rewrite <- Zplus_mod_idemp_l, RTA_ALIGN_mod. done.
Qed.

(** The buffer begins with [hdr] and the attributes [l], its length counts
    them. *)
Record holds (b : nlbuf) (hdr : list Z) (l : list attr) : Prop := {
  ho_ok : Forall attr_ok l;
  ho_len : nb_len b = Z.of_nat (length (hdr ++ encs l));
  ho_hdr : Z.of_nat (length hdr) mod 4 = 0;
  ho_mem : exists rest, nb_mem b = hdr ++ encs l ++ rest
}.

Lemma holds_aligned b hdr l : holds b hdr l -> RTA_ALIGN (nb_len b) = nb_len b.
Proof.
  intros [Hok Hl Hh _]. apply RTA_ALIGN_id. rewrite Hl, length_app, Nat2Z.inj_add, Z.add_mod, Hh, encs_aligned by (done || lia). done.
Qed.

Lemma holds_bytes b hdr l : holds b hdr l -> take (Z.to_nat (nb_len b)) (nb_mem b) = hdr ++ encs l.
Proof.
  intros [_ Hl _ [rest Hm]]. rewrite Hl, Nat2Z.id, Hm, (assoc_L (++)). apply take_app_length.
Qed.

Lemma bwrite_app pre old bs rest : length old = length bs ->
  bwrite (pre ++ old ++ rest) (Z.of_nat (length pre)) bs = Some (pre ++ bs ++ rest).
Proof.
  intros Hl. unfold bwrite. rewrite Nat2Z.id, !length_app, Hl.
  replace (0 <=? Z.of_nat (length pre)) with true by (symmetry; apply Z.leb_le; lia).
  replace (Z.of_nat (length pre) + Z.of_nat (length bs) <=? Z.of_nat (length pre + (length bs + length rest))) with true by (symmetry; apply Z.leb_le; lia).
  cbn [andb]. rewrite take_app_length, <- Hl, <- length_app, (assoc_L (++) pre old rest), drop_app_length. done.
Qed.

(** One attribute behind the others. *)
Lemma put_attr_ok b hdr l type data :
  holds b hdr l -> 0 <= type < 2 ^ 16 -> 4 + Z.of_nat (length data) < 2 ^ 16 ->
  nb_len b + RTA_SPACE (Z.of_nat (length data)) <= Z.of_nat (length (nb_mem b)) ->
  exists pad mem, put_attr b type data (nb_len b + RTA_SPACE (Z.of_nat (length data)))
      = Some (NlBuf (nb_len b + RTA_SPACE (Z.of_nat (length data))) mem) /\
    holds (NlBuf (nb_len b + RTA_SPACE (Z.of_nat (length data))) mem) hdr (l ++ [Attr type data pad]) /\
    length mem = length (nb_mem b).
Proof.
  intros Hb Ht Hd Hfit. pose proof (holds_aligned b hdr l Hb) as Hal. destruct Hb as [Hok Hl Hh [rest Hm]].
  unfold put_attr. rewrite Hal. set (d := Z.of_nat (length data)) in *. set (n := (4 + length data)%nat).
  set (p := Z.to_nat (RTA_ALIGN d - d)). pose proof (RTA_ALIGN_bounds d) as Hp.
  assert (Hr : (n + p <= length rest)%nat).
  { rewrite Hm, Hl, !length_app in Hfit. unfold RTA_SPACE in Hfit. rewrite RTA_LENGTH_align in Hfit. unfold n, p. lia. }
  set (pad := take p (drop n rest)). exists pad.
  set (bs := le 2 (RTA_LENGTH d) ++ le 2 type ++ data). assert (Hbs : length bs = n) by (unfold bs; rewrite !length_app, !le_length; done).
  assert (Hmem : nb_mem b = (hdr ++ encs l) ++ take n rest ++ drop n rest) by (rewrite take_drop, Hm; by rewrite (assoc_L (++))).
  rewrite Hmem, Hl, bwrite_app by (rewrite length_take; lia). eexists. split; [reflexivity|].
  assert (Ha : attr_ok (Attr type data pad)).
  { split_and!; cbn; [lia..|]. unfold pad. rewrite length_take, length_drop. fold d. lia. }
  split; [|rewrite !length_app, length_drop, length_take, Hbs; lia].
  split; cbn [nb_len nb_mem]; [apply Forall_app; auto| |done|].
  - rewrite encs_app, encs_one, (assoc_L (++)), (length_app _ (enc _)), Nat2Z.inj_add, enc_size by done. done.
  - exists (drop p (drop n rest)). rewrite encs_app, encs_one. unfold enc, bs. cbn [a_data a_type a_pad]. rewrite <- !(assoc_L (++)).
    unfold pad. rewrite take_drop. done.
Qed.

Lemma addattr_l_ok b hdr l maxlen type data :
  holds b hdr l -> 0 <= type < 2 ^ 16 -> 4 + Z.of_nat (length data) < 2 ^ 16 ->
  nb_len b + RTA_SPACE (Z.of_nat (length data)) <= maxlen <= Z.of_nat (length (nb_mem b)) ->
  exists pad mem, addattr_l b maxlen type data = Some (0, NlBuf (nb_len b + RTA_SPACE (Z.of_nat (length data))) mem) /\
    holds (NlBuf (nb_len b + RTA_SPACE (Z.of_nat (length data))) mem) hdr (l ++ [Attr type data pad]) /\
    length mem = length (nb_mem b).
Proof.
  intros Hb Ht Hd Hfit. unfold addattr_l. fold (RTA_SPACE (Z.of_nat (length data))). rewrite (holds_aligned b hdr l Hb).
  replace (maxlen <? _) with false by (symmetry; apply Z.ltb_ge; lia).
  destruct (put_attr_ok b hdr l type data Hb Ht Hd) as (pad & mem & -> & ?); [lia|]. exists pad, mem. done.
Qed.

Lemma rta_addattr_l_ok b hdr l maxlen type data :
  holds b hdr l -> 0 <= type < 2 ^ 16 -> 4 + Z.of_nat (length data) < 2 ^ 16 ->
  nb_len b + RTA_SPACE (Z.of_nat (length data)) <= maxlen <= Z.of_nat (length (nb_mem b)) -> maxlen < 2 ^ 16 ->
  exists pad mem, rta_addattr_l b maxlen type data = Some (0, NlBuf (nb_len b + RTA_SPACE (Z.of_nat (length data))) mem) /\
    holds (NlBuf (nb_len b + RTA_SPACE (Z.of_nat (length data))) mem) hdr (l ++ [Attr type data pad]) /\
    length mem = length (nb_mem b).
Proof.
  intros Hb Ht Hd Hfit Hm. unfold rta_addattr_l. fold (RTA_SPACE (Z.of_nat (length data))). rewrite (holds_aligned b hdr l Hb).
  replace (maxlen <? _) with false by (symmetry; apply Z.ltb_ge; lia).
  rewrite Z.mod_small.
  - destruct (put_attr_ok b hdr l type data Hb Ht Hd) as (pad & mem & -> & ?); [lia|]. exists pad, mem. done.
  - destruct Hb as [_ Hl _ _]. unfold RTA_SPACE in *. rewrite RTA_LENGTH_align in *. pose proof (RTA_ALIGN_bounds (Z.of_nat (length data))). lia.
Qed.

Lemma rta_addattr32_l b maxlen type z : rta_addattr32 b maxlen type z = rta_addattr_l b maxlen type (le 4 z).
Proof. done. Qed.

Lemma pad_nil a : attr_ok a -> a_data a = [] -> a_pad a = [].
Proof. intros (_ & _ & H) Hd. rewrite Hd in H. change (RTA_ALIGN (Z.of_nat (length []))) with 0 in H. cbn [length] in H. apply nil_length_inv. lia. Qed.

(** Closing a nested attribute: what was appended since becomes its data. *)
Lemma set_rta_len_ok b hdr l type pad inner :
  holds b hdr (l ++ Attr type [] pad :: inner) -> 4 + Z.of_nat (length (encs inner)) < 2 ^ 16 ->
  exists mem, set_rta_len b (Z.of_nat (length (hdr ++ encs l))) = Some (NlBuf (nb_len b) mem) /\
    holds (NlBuf (nb_len b) mem) hdr (l ++ [Attr type (encs inner) []]) /\ length mem = length (nb_mem b).
Proof.
  intros Hb Hs. pose proof (holds_aligned _ _ _ Hb) as Hal. destruct Hb as [Hok Hl Hh [rest Hm]].
  apply Forall_app in Hok as [Hok1 Hok2]. apply Forall_cons in Hok2 as [Ha Hin].
  pose proof (pad_nil _ Ha eq_refl) as Hpad. cbn in Hpad. subst pad.
  rewrite encs_app in Hl, Hm. change (encs (Attr type [] [] :: inner)) with (enc (Attr type [] []) ++ encs inner) in Hl, Hm.
  unfold set_rta_len. rewrite Hal.
  assert (Hd : nb_len b - Z.of_nat (length (hdr ++ encs l)) = 4 + Z.of_nat (length (encs inner))).
  { rewrite Hl, !length_app, enc_length. cbn [a_data a_pad length]. lia. }
  rewrite Hd. unfold enc in Hm. cbn [a_data a_type a_pad app] in Hm. rewrite app_nil_r in Hm.
  rewrite Hm. replace (hdr ++ (encs l ++ (le 2 (4 + Z.of_nat (length (@nil Z))) ++ le 2 type) ++ encs inner) ++ rest)
    with ((hdr ++ encs l) ++ le 2 (4 + Z.of_nat (length (@nil Z))) ++ (le 2 type ++ encs inner ++ rest)) by (rewrite <- !(assoc_L (++)); done).
  rewrite bwrite_app by (rewrite !le_length; done). cbn [mbind option_bind].
  eexists. split; [reflexivity|]. split; [split; cbn [nb_len nb_mem]|rewrite !length_app, !le_length; lia].
  - apply Forall_app; split; [done|]. constructor; [|done]. destruct Ha as (Ht & _ & _). cbn [a_type] in Ht. split_and!; cbn [a_type a_data a_pad]; [lia..|].
    rewrite RTA_ALIGN_id by by apply encs_aligned. cbn. lia.
  - rewrite encs_app, encs_one, Hl. rewrite !length_app, !enc_length. cbn [a_data a_pad length]. lia.
  - done.
  - exists rest. rewrite encs_app, encs_one. unfold enc. cbn [a_data a_type a_pad]. rewrite app_nil_r, <- !(assoc_L (++)). done.
Qed.

(** Attributes built elsewhere, copied into the message. *)
Lemma addraw_l_ok b hdr l maxlen l2 :
  holds b hdr l -> Forall attr_ok l2 ->
  nb_len b + Z.of_nat (length (encs l2)) <= maxlen <= Z.of_nat (length (nb_mem b)) ->
  exists mem, addraw_l b maxlen (encs l2) = Some (0, NlBuf (nb_len b + Z.of_nat (length (encs l2))) mem) /\
    holds (NlBuf (nb_len b + Z.of_nat (length (encs l2))) mem) hdr (l ++ l2) /\ length mem = length (nb_mem b).
Proof.
  intros Hb H2 Hfit. unfold addraw_l. rewrite (holds_aligned b hdr l Hb), (RTA_ALIGN_id (Z.of_nat (length (encs l2)))) by by apply encs_aligned.
  destruct Hb as [Hok Hl Hh [rest Hm]]. replace (maxlen <? _) with false by (symmetry; apply Z.ltb_ge; lia).
  set (n := length (encs l2)) in *. assert (Hr : (n <= length rest)%nat) by (rewrite Hl, Hm, !length_app in Hfit; lia).
  rewrite Z.sub_diag.
  replace (nb_mem b) with ((hdr ++ encs l) ++ take n rest ++ drop n rest) by (rewrite take_drop, Hm; by rewrite (assoc_L (++))).
  rewrite Hl, bwrite_app by (rewrite length_take; lia). cbn [mbind option_bind].
  replace (Z.of_nat (length (hdr ++ encs l)) + Z.of_nat n) with (Z.of_nat (length ((hdr ++ encs l) ++ encs l2))) by (rewrite (length_app _ (encs l2)); lia).
  rewrite (assoc_L (++) _ (encs l2)). pose proof (bwrite_app ((hdr ++ encs l) ++ encs l2) [] [] (drop n rest) eq_refl) as Hw. cbn [app] in Hw. change (replicate (Z.to_nat 0) 0) with (@nil Z). rewrite Hw. cbn [mbind option_bind].
  eexists. split; [reflexivity|]. split; [split; cbn [nb_len nb_mem]|].
  - apply Forall_app; auto.
  - by rewrite encs_app, (assoc_L (++)).
  - done.
  - exists (drop n rest). rewrite encs_app, <- !(assoc_L (++)). done.
  - rewrite !length_app, length_drop, length_take. lia.
Qed.

(** ** Reading back *)

Section reading.
Context {A : Type} (f : list Z -> A -> A) (g : attr -> A -> A).
(** [f] sees only type and data. *)
Context (Hfg : forall a rest acc, attr_ok a -> f (enc a ++ rest) acc = g a acc).

Lemma enc_fields a rest : attr_ok a ->
  rta_len (enc a ++ rest) = 4 + Z.of_nat (length (a_data a)) /\ rta_type (enc a ++ rest) = a_type a /\ RTA_DATA (enc a ++ rest) = a_data a.
Proof.
  intros (Ht & Hd & _). unfold RTA_DATA.
  assert (Hlen : rta_len (enc a ++ rest) = 4 + Z.of_nat (length (a_data a))).
  { unfold rta_len, enc. rewrite <- !(assoc_L (++)), take_app_le, take_ge by (rewrite le_length; lia). apply of_le_le. cbn. lia. }
  split_and!; [done| |].
  - unfold rta_type, enc. rewrite <- !(assoc_L (++)), drop_app_ge by (rewrite le_length; lia). rewrite le_length, Nat.sub_diag, drop_0.
    rewrite take_app_le, take_ge by (rewrite le_length; lia). apply of_le_le. cbn. lia.
  - rewrite Hlen. replace (Z.to_nat _) with (length (a_data a)) by lia. unfold enc.
    rewrite <- !(assoc_L (++)), (assoc_L (++) (le 2 _)). rewrite drop_app_ge by (rewrite length_app, !le_length; lia).
    rewrite length_app, !le_length, Nat.sub_diag, drop_0. apply take_app_length.
Qed.

Lemma rta_foreach_encs l : forall fuel acc, Forall attr_ok l -> (length (encs l) <= fuel)%nat ->
  rta_foreach f fuel (encs l) (Z.of_nat (length (encs l))) acc = foldl (fun acc a => g a acc) acc l.
Proof.
  induction l as [|a l IH]; intros fuel acc Hok Hf; [by destruct fuel|]. apply Forall_cons in Hok as [Ha Hok].
  change (encs (a :: l)) with (enc a ++ encs l) in *. pose proof (enc_length a) as Hl. rewrite length_app in Hf.
  destruct fuel as [|fuel]; [lia|]. cbn [rta_foreach foldl]. destruct (enc_fields a (encs l) Ha) as (H1 & _ & _).
  pose proof (enc_size a Ha) as Hsz. unfold RTA_SPACE, RTA_LENGTH in Hsz. change (RTA_ALIGN 4) with 4 in Hsz.
  unfold RTA_OK. rewrite H1, length_app, <- Hsz, Nat2Z.id, drop_app_length, Hfg by done.
  replace (4 <=? Z.of_nat (length (enc a) + length (encs l))) with true by (symmetry; apply Z.leb_le; lia).
  replace (4 <=? 4 + Z.of_nat (length (a_data a))) with true by (symmetry; apply Z.leb_le; lia).
  replace (4 + Z.of_nat (length (a_data a)) <=? Z.of_nat (length (enc a) + length (encs l))) with true by (symmetry; apply Z.leb_le; lia).
  cbn [andb]. replace (Z.of_nat (length (enc a) + length (encs l)) - Z.of_nat (length (enc a))) with (Z.of_nat (length (encs l))) by lia.
  apply IH; [done|lia].
Qed.
End reading.

(** The first attribute of a type. *)
Fixpoint first_attr (l : list attr) (t : Z) : option (list Z) :=
  match l with [] => None | a :: l => if a_type a =? t then Some (a_data a) else first_attr l t end.

Lemma parse_rtattr_encs max l t : Forall attr_ok l ->
  parse_rtattr max (encs l) !! t = if t <=? max then first_attr l t else None.
Proof.
  intros Hok. unfold parse_rtattr, parse_rtattr_flags.
  set (g := fun a (tb : gmap Z (list Z)) =>
    if (a_type a <=? max) && negb (bool_decide (is_Some (tb !! a_type a))) then <[a_type a := a_data a]> tb else tb).
  rewrite (rta_foreach_encs _ g); [|intros a rest acc Ha; destruct (enc_fields a rest Ha) as (_ & -> & ->); change (Z.lnot 0) with (-1); by rewrite Z.land_m1_r|done|lia].
  assert (H : forall l (tb : gmap Z (list Z)), foldl (fun acc a => g a acc) tb l !! t =
    match tb !! t with Some d => Some d | None => if t <=? max then first_attr l t else None end).
  { clear. induction l as [|a l IH]; intros tb; cbn [foldl first_attr]; [by destruct (tb !! t), (t <=? max)|].
    rewrite IH. unfold g. case_bool_decide as Hs; cbn [negb]; rewrite ?andb_false_r, ?andb_true_r.
    - destruct (tb !! t) eqn:E; [done|]. destruct (Z.eqb_spec (a_type a) t); [|done]. subst. rewrite E in Hs. by destruct Hs.
    - apply eq_None_not_Some in Hs. destruct (Z.eqb_spec (a_type a) t) as [<-|Hn].
      + rewrite Hs. destruct (a_type a <=? max); [by rewrite lookup_insert_eq|by rewrite Hs].
      + destruct (a_type a <=? max); [rewrite lookup_insert_ne by done|]; done. }
  rewrite H, lookup_empty. done.
Qed.

Lemma parse_rtattr_one_encs t l : Forall attr_ok l -> parse_rtattr_one t (encs l) = first_attr l t.
Proof.
  intros Hok. unfold parse_rtattr_one.
  set (g := fun a (r : option (list Z)) => match r with Some _ => r | None => if a_type a =? t then Some (a_data a) else None end).
  rewrite (rta_foreach_encs _ g); [|intros a rest acc Ha; by destruct (enc_fields a rest Ha) as (_ & -> & ->)|done|lia].
  clear Hok. assert (H : forall l d, foldl (fun acc a => g a acc) (Some d) l = Some d) by (clear; induction l; intros d; cbn; auto).
  induction l as [|a l IH]; cbn [foldl first_attr]; [done|]. unfold g at 2. destruct (a_type a =? t); [apply H|done].
Qed.
