(* ===== verification/Arraylist.v ===== *)
(** * Array lists (lib/arraylist.h, lib/arraylist.c)

    A growable array over the bytes of one block; a read or write outside of
    the block is [None].  The theory relates a block to the list of its
    elements. *)

From S2P Require Import Prelude Rules Netlink.

Definition ARRAYLIST_INIT_BUF : Z := 32.

Record arraylist := ArrayList { al_data : list Z; elem_size : Z; elem_count : Z; buffer_size : Z }.

(** The offset of ALIST_ELEM(a, i); [i] is an unsigned int, the product a
    size_t. *)
Definition ALIST_ELEM (a : arraylist) (i : Z) : Z := wrap64 (wrap32 i * elem_size a).

Definition byte_read (mem : list Z) (o n : Z) : option (list Z) :=
  if o + n <=? Z.of_nat (length mem) then Some (take (Z.to_nat n) (drop (Z.to_nat o) mem)) else None.

(** The struct and the block are two calls of malloc(); [junk] gives what the
    block holds. *)
Definition alist_new (alloc1 alloc2 : bool) (junk : nat -> list Z) (size : Z) : option arraylist :=
  if negb alloc1 then None else if negb alloc2 then None
  else Some (ArrayList (junk (Z.to_nat (wrap64 (ARRAYLIST_INIT_BUF * size)))) size 0 ARRAYLIST_INIT_BUF).

(** memmove(), then memcpy() of the element. *)
Definition put_elem (al : arraylist) (elem : list Z) (idx : Z) : option arraylist :=
  let n := wrap64 (wrap32 (elem_count al - idx) * elem_size al) in
  tail ← byte_read (al_data al) (ALIST_ELEM al idx) n;
  mem ← bwrite (al_data al) (ALIST_ELEM al (idx + 1)) tail;
  mem ← bwrite mem (ALIST_ELEM al idx) elem;
  Some (ArrayList mem (elem_size al) (wrap32 (elem_count al + 1)) (buffer_size al)).

(** What a new block of some size holds. *)
Definition fresh := nat -> list Z.

(** The return value and the list; [grown] gives the bytes that realloc()
    adds, [None] when it fails. *)
Definition alist_insert_at (grown : option fresh) (al : arraylist) (elem : list Z) (idx : Z) : option (Z * arraylist) :=
  if elem_count al =? buffer_size al then
    match grown with
    | None => Some (-1, al)
    | Some junk =>
        let size := wrap64 (wrap64 (buffer_size al * elem_size al) * 2) in
        let data2 := take (Z.to_nat size) (al_data al) ++ junk (Z.to_nat size - length (al_data al))%nat in
        al ← put_elem (ArrayList data2 (elem_size al) (elem_count al) (wrap32 (buffer_size al * 2))) elem idx;
        Some (to_int idx, al)
    end
  else al ← put_elem al elem idx; Some (to_int idx, al).

Definition alist_insert (grown : option fresh) (al : arraylist) (elem : list Z) : option (Z * arraylist) :=
  alist_insert_at grown al elem (elem_count al).

(** The assertion that fails ends the program. *)
Definition alist_remove (al : arraylist) (idx : Z) : option arraylist :=
  if idx <? elem_count al then
    let n := wrap64 (wrap32 (elem_count al - idx - 1) * elem_size al) in
    tail ← byte_read (al_data al) (ALIST_ELEM al (idx + 1)) n;
    mem ← bwrite (al_data al) (ALIST_ELEM al idx) tail;
    Some (ArrayList mem (elem_size al) (elem_count al - 1) (buffer_size al))
  else None.

(** A pointer to the element, as its offset; NULL is the inner [None]. *)
Definition alist_elem (al : arraylist) (idx : Z) : option Z := if elem_count al <=? idx then None else Some (wrap64 (idx * elem_size al)).

(** The return value and [buf]. *)
Definition alist_get (al : arraylist) (idx : Z) : option (Z * option (list Z)) :=
  if elem_count al <=? idx then Some (-1, None)
  else bs ← byte_read (al_data al) (wrap64 (idx * elem_size al)) (elem_size al); Some (0, Some bs).

(** The bytes a pointer from [alist_elem] leads to. *)
Definition elem_bytes (al : arraylist) (idx : Z) : option (list Z) := o ← alist_elem al idx; byte_read (al_data al) o (elem_size al).

(** for (i = 0; i < src->elem_count; i++) alist_insert(dst, alist_elem(src, i));
    the result of alist_insert is not looked at.  [grown i] is for the call
    number [i]; the two lists are different objects. *)
Fixpoint append_loop (grown : Z -> option fresh) (n : nat) (i : Z) (dst src : arraylist) (at_ : Z -> Z) : option arraylist :=
  match n with
  | O => Some dst
  | S n =>
      bs ← elem_bytes src (at_ i);
      '(_, dst) ← alist_insert (grown i) dst bs;
      append_loop grown n (i + 1) dst src at_
  end.

Definition alist_append (grown : Z -> option fresh) (dst src : arraylist) : option arraylist :=
  append_loop grown (Z.to_nat (elem_count src)) 0 dst src (fun i => i).

(** The inner [None] is NULL. *)
Definition alist_copy (alloc1 alloc2 : bool) (junk : fresh) (grown : Z -> option fresh) (al : arraylist) : option (option arraylist) :=
  match alist_new alloc1 alloc2 junk (elem_size al) with
  | None => Some None
  | Some acopy => acopy ← alist_append grown acopy al; Some (Some acopy)
  end.

Definition alist_copy_reverse (alloc1 alloc2 : bool) (junk : fresh) (grown : Z -> option fresh) (al : arraylist) : option (option arraylist) :=
  match alist_new alloc1 alloc2 junk (elem_size al) with
  | None => Some None
  | Some acopy => acopy ← append_loop grown (Z.to_nat (elem_count al)) 0 acopy al (fun i => elem_count al - 1 - i); Some (Some acopy)
  end.

Fixpoint exist_loop (n : nat) (i : Z) (al : arraylist) (elem : list Z) : option bool :=
  match n with
  | O => Some false
  | S n => bs ← elem_bytes al i; if bool_decide (bs = elem) then Some true else exist_loop n (i + 1) al elem
  end.

Definition alist_exist (al : arraylist) (elem : list Z) : option bool := exist_loop (Z.to_nat (elem_count al)) 0 al elem.

(** while (al->elem_count): the count is the fuel. *)
Fixpoint flush_loop (fuel : nat) (al : arraylist) : option arraylist :=
  if elem_count al =? 0 then Some al
  else match fuel with O => None | S fuel => al ← alist_remove al (elem_count al - 1); flush_loop fuel al end.

Definition alist_flush (al : arraylist) : option arraylist := flush_loop (Z.to_nat (elem_count al)) al.

(** ** The list of elements *)

(** [al] holds [xs]: elements of [size] bytes, then the free part of the
    block; the sizes are far from the limits of the machine. *)
Record holds_list (al : arraylist) (size : nat) (xs : list (list Z)) : Prop := {
  hl_size : elem_size al = Z.of_nat size;
  hl_count : elem_count al = Z.of_nat (length xs);
  hl_elems : Forall (fun x => length x = size) xs;
  hl_data : exists free, al_data al = concat xs ++ free;
  hl_block : Z.of_nat (length (al_data al)) = buffer_size al * elem_size al;
  hl_room : Z.of_nat (length xs) <= buffer_size al;
  hl_buf : 1 <= buffer_size al < 2 ^ 31;
  hl_small : 0 < elem_size al < 2 ^ 31
}.

Lemma concat_size size (xs : list (list Z)) : Forall (fun x => length x = size) xs -> length (concat xs) = (length xs * size)%nat.
Proof. induction 1 as [|x xs Hx _ IH]; [done|]. cbn [concat length]. rewrite length_app, IH, Hx. lia. Qed.

Lemma byte_read_at pre bs post o n : o = Z.of_nat (length pre) -> n = Z.of_nat (length bs) -> byte_read (pre ++ bs ++ post) o n = Some bs.
Proof.
  intros -> ->. unfold byte_read. rewrite (proj2 (Z.leb_le _ _)) by (rewrite !length_app; lia). by rewrite !Nat2Z.id, drop_app_length, take_app_length.
Qed.

Lemma small_mul x y : 0 <= x < 2 ^ 32 -> 0 <= y < 2 ^ 31 -> 0 <= x * y < 2 ^ 63.
Proof. intros Hx Hy. split; [lia|]. apply (Z.lt_le_trans _ (2 ^ 32 * 2 ^ 31)); [apply Z.mul_lt_mono_nonneg; lia|done]. Qed.

(** Offsets of elements do not wrap. *)
Lemma elem_offset al size xs i : holds_list al size xs -> 0 <= i <= Z.of_nat (length xs) + 1 -> ALIST_ELEM al i = Z.of_nat (Z.to_nat i * size) /\ wrap64 (i * elem_size al) = Z.of_nat (Z.to_nat i * size).
Proof.
  intros [H1 H2 H3 H4 H5 H6 H7 H8] Hi. unfold ALIST_ELEM. rewrite wrap32_small by lia.
  pose proof (small_mul i (elem_size al) ltac:(lia) ltac:(lia)) as Hm. rewrite wrap64_small by lia. rewrite H1, Nat2Z.inj_mul, Z2Nat.id by lia. done.
Qed.

Lemma put_elem_ok al size a b x : holds_list al size (a ++ b) -> length x = size -> Z.of_nat (length (a ++ b)) < buffer_size al ->
  exists al', put_elem al x (Z.of_nat (length a)) = Some al' /\ holds_list al' size (a ++ x :: b) /\ buffer_size al' = buffer_size al.
Proof.
  intros H Hx Hroom. pose proof (elem_offset _ _ _ (Z.of_nat (length a)) H ltac:(rewrite length_app; lia)) as [O1 _].
  pose proof (elem_offset _ _ _ (Z.of_nat (length a) + 1) H ltac:(rewrite length_app; lia)) as [O2 _]. destruct H as [H1 H2 H3 [free H4] H5 H6 H7 H8].
  apply Forall_app in H3 as [Ha Hb]. pose proof (concat_size _ _ Ha) as La. pose proof (concat_size _ _ Hb) as Lb. rewrite concat_app, <- (assoc_L (++)) in H4.
  rewrite length_app in *. set (ca := concat a) in *. set (cb := concat b) in *.
  assert (size <= length free)%nat as Hfree by (rewrite H4, !length_app, La, Lb in H5; nia).
  set (rest := cb ++ free) in *. set (mid := take size rest). set (old := take (length cb) (drop size rest)). set (post := drop (length cb) (drop size rest)).
  assert (length rest = length cb + length free)%nat as Lr by (unfold rest; by rewrite length_app).
  assert (length mid = size) as Lm by (unfold mid; rewrite length_take; lia). assert (length old = length cb) as Lo by (unfold old; rewrite length_take, length_drop; lia).
  assert (rest = mid ++ old ++ post) as Er by (unfold mid, old, post; by rewrite !take_drop).
  unfold put_elem. rewrite H2, !wrap32_small by lia.
  pose proof (small_mul (Z.of_nat (length a + length b) - Z.of_nat (length a)) (elem_size al) ltac:(lia) ltac:(lia)) as Hm. rewrite wrap64_small by lia. rewrite O1, O2, H4. change (byte_read (ca ++ rest)) with (byte_read (ca ++ cb ++ free)).
  rewrite byte_read_at by (rewrite ?La, ?Lb, ?H1; nia). cbn [mbind option_bind]. rewrite Er. replace (ca ++ mid ++ old ++ post) with ((ca ++ mid) ++ old ++ post) by (by rewrite <- (assoc_L (++))).
  replace (Z.of_nat (Z.to_nat (Z.of_nat (length a) + 1) * size)) with (Z.of_nat (length (ca ++ mid))) by (rewrite length_app, La, Lm; lia).
  rewrite bwrite_app by done. cbn [mbind option_bind]. replace ((ca ++ mid) ++ cb ++ post) with (ca ++ mid ++ (cb ++ post)) by (by rewrite <- (assoc_L (++))).
  replace (Z.of_nat (Z.to_nat (Z.of_nat (length a)) * size)) with (Z.of_nat (length ca)) by (rewrite La; lia).
  rewrite bwrite_app by (by rewrite Lm). cbn [mbind option_bind]. eexists. split; [reflexivity|]. split; [|done].
  split; cbn [elem_size elem_count buffer_size al_data]; [done| | | | | |done|done].
  - rewrite length_app. simpl. lia.
  - apply Forall_app. split; [done|by apply Forall_cons].
  - exists post. rewrite concat_app. cbn [concat]. by rewrite <- !(assoc_L (++)).
  - rewrite <- H5, H4, Er, !length_app. lia.
  - rewrite length_app. simpl. lia.
Qed.

Lemma alist_insert_at_ok (grown : fresh) al size a b x : holds_list al size (a ++ b) -> length x = size -> (forall n, length (grown n) = n) -> buffer_size al * 2 < 2 ^ 31 ->
  exists al', alist_insert_at (Some grown) al x (Z.of_nat (length a)) = Some (Z.of_nat (length a), al') /\ holds_list al' size (a ++ x :: b) /\
    buffer_size al' = if Z.of_nat (length (a ++ b)) =? buffer_size al then buffer_size al * 2 else buffer_size al.
Proof.
  intros H Hx Hg Hs. pose proof H as [H1 H2 H3 [free H4] H5 H6 H7 H8]. unfold alist_insert_at. rewrite H2.
  assert (to_int (Z.of_nat (length a)) = Z.of_nat (length a)) as Ei by (apply to_int_id; rewrite length_app in H6; lia). rewrite Ei.
  destruct (Z.eqb_spec (Z.of_nat (length (a ++ b))) (buffer_size al)) as [E|E].
  - pose proof (small_mul (buffer_size al) (elem_size al) ltac:(lia) ltac:(lia)) as Hm. rewrite (wrap64_small (buffer_size al * _)) by lia. rewrite wrap64_small by lia. rewrite wrap32_small by lia. rewrite take_ge by lia.
    destruct (put_elem_ok (ArrayList (al_data al ++ grown (Z.to_nat (buffer_size al * elem_size al * 2) - length (al_data al))%nat) (elem_size al) (elem_count al) (buffer_size al * 2)) size a b x)
      as (al' & Hp & Hh & Hb); [|done|cbn [buffer_size]; lia|].
    + split; cbn [elem_size elem_count buffer_size al_data]; [done|done|done|rewrite H4, <- (assoc_L (++)); by eexists|rewrite length_app, Hg; nia|lia|lia|done].
    + rewrite H2 in Hp. rewrite Hp. cbn [mbind option_bind]. exists al'. by split_and!.
  - destruct (put_elem_ok al size a b x H Hx) as (al' & -> & Hh & Hb); [lia|]. cbn [mbind option_bind]. exists al'. by split_and!.
Qed.

(** A failed realloc() changes nothing. *)
Lemma alist_insert_full al size xs x idx : holds_list al size xs -> Z.of_nat (length xs) = buffer_size al -> alist_insert_at None al x idx = Some (-1, al).
Proof. intros [_ H2 _ _ _ _ _ _] E. unfold alist_insert_at. by rewrite H2, E, Z.eqb_refl. Qed.

Lemma alist_remove_ok al size a x b : holds_list al size (a ++ x :: b) ->
  exists al', alist_remove al (Z.of_nat (length a)) = Some al' /\ holds_list al' size (a ++ b) /\ buffer_size al' = buffer_size al.
Proof.
  intros H. pose proof (elem_offset _ _ _ (Z.of_nat (length a)) H ltac:(rewrite length_app; lia)) as [O1 _].
  pose proof (elem_offset _ _ _ (Z.of_nat (length a) + 1) H ltac:(rewrite length_app; simpl; lia)) as [O2 _]. destruct H as [H1 H2 H3 [free H4] H5 H6 H7 H8].
  apply Forall_app in H3 as [Ha Hb]. apply Forall_cons in Hb as [Hx Hb]. pose proof (concat_size _ _ Ha) as La. pose proof (concat_size _ _ Hb) as Lb.
  rewrite concat_app in H4. cbn [concat] in H4. rewrite length_app in *. cbn [length] in *. set (ca := concat a) in *. set (cb := concat b) in *.
  unfold alist_remove. rewrite H2, (proj2 (Z.ltb_lt _ _)) by lia. rewrite wrap32_small by lia.
  pose proof (small_mul (Z.of_nat (length a + S (length b)) - Z.of_nat (length a) - 1) (elem_size al) ltac:(lia) ltac:(lia)) as Hm. rewrite wrap64_small by lia. rewrite O1, O2, H4.
  replace ((ca ++ x ++ cb) ++ free) with ((ca ++ x) ++ cb ++ free) by (by rewrite <- !(assoc_L (++))).
  rewrite byte_read_at by (rewrite ?length_app, ?La, ?Lb, ?H1, ?Hx; nia). cbn [mbind option_bind].
  set (rest := x ++ cb ++ free). set (old := take (length cb) rest). set (post := drop (length cb) rest).
  assert (length old = length cb) as Lo by (unfold old, rest; rewrite length_take, !length_app; lia).
  replace ((ca ++ x) ++ cb ++ free) with (ca ++ old ++ post) by (unfold old, post, rest; rewrite take_drop; by rewrite <- !(assoc_L (++))).
  replace (Z.of_nat (Z.to_nat (Z.of_nat (length a)) * size)) with (Z.of_nat (length ca)) by (rewrite La; lia).
  rewrite bwrite_app by done. cbn [mbind option_bind]. eexists. split; [reflexivity|]. split; [|done].
  split; cbn [elem_size elem_count buffer_size al_data]; [done| | | | | |done|done].
  - rewrite length_app. lia.
  - by apply Forall_app.
  - exists post. rewrite concat_app. by rewrite <- !(assoc_L (++)).
  - rewrite <- H5, H4. unfold post, rest. rewrite !length_app, length_drop, !length_app. lia.
  - rewrite length_app. lia.
Qed.

Lemma elem_bytes_ok al size xs (i : nat) : holds_list al size xs -> elem_bytes al (Z.of_nat i) = xs !! i.
Proof.
  intros H. unfold elem_bytes, alist_elem. rewrite (hl_count _ _ _ H). destruct (xs !! i) as [x|] eqn:E.
  - pose proof (lookup_lt_Some _ _ _ E) as Hi. rewrite (proj2 (Z.leb_gt _ _)) by lia. cbn [mbind option_bind].
    destruct (elem_offset _ _ _ (Z.of_nat i) H ltac:(lia)) as [_ ->]. apply list_elem_of_split_length in E as (a & b & -> & ->).
    destruct H as [H1 _ H3 [free ->] _ _ _ _]. apply Forall_app in H3 as [Ha Hb]. apply Forall_cons in Hb as [Hx _]. rewrite concat_app. cbn [concat]. rewrite <- !(assoc_L (++)).
    apply byte_read_at; [rewrite (concat_size _ _ Ha); lia|by rewrite H1, Hx].
  - apply lookup_ge_None in E. by rewrite (proj2 (Z.leb_le _ _)) by lia.
Qed.

Lemma exist_loop_ok al size xs elem : holds_list al size xs -> forall (n : nat) (i : nat), (i + n = length xs)%nat ->
  exist_loop n (Z.of_nat i) al elem = Some (bool_decide (elem ∈ drop i xs)).
Proof.
  intros H. induction n as [|n IH]; intros i Hi; cbn [exist_loop].
  - rewrite drop_ge by lia. by rewrite bool_decide_eq_false_2 by apply not_elem_of_nil.
  - rewrite (elem_bytes_ok al size xs i H). destruct (xs !! i) as [x|] eqn:E; [|apply lookup_ge_None in E; lia]. cbn [mbind option_bind].
    rewrite (drop_S _ _ _ E). case_bool_decide as Hx; [by rewrite bool_decide_eq_true_2 by (subst; left)|].
    replace (Z.of_nat i + 1) with (Z.of_nat (S i)) by lia. rewrite IH by lia. f_equal. apply bool_decide_ext. rewrite elem_of_cons. naive_solver.
Qed.

Lemma flush_ok fuel : forall al size xs, holds_list al size xs -> (length xs <= fuel)%nat -> exists al', flush_loop fuel al = Some al' /\ holds_list al' size [] /\ buffer_size al' = buffer_size al.
Proof.
  induction fuel as [|fuel IH]; intros al size xs H Hf; cbn [flush_loop]; rewrite (hl_count _ _ _ H).
  - destruct xs; [|simpl in Hf; lia]. by exists al.
  - destruct xs as [|x xs _] using rev_ind; [by exists al|]. rewrite length_app in *. cbn [length] in *. rewrite (proj2 (Z.eqb_neq _ _)) by lia.
    replace (Z.of_nat (length xs + 1) - 1) with (Z.of_nat (length xs)) by lia. destruct (alist_remove_ok al size xs x [] H) as (al1 & -> & H1 & Hb). cbn [mbind option_bind]. rewrite app_nil_r in H1.
    destruct (IH al1 size xs H1 ltac:(lia)) as (al' & -> & H' & Hb'). exists al'. split_and!; [done|done|congruence].
Qed.

(** ** Operations on lists *)

Inductive aop := AInsert (idx : nat) (x : list Z) | AAppend (x : list Z) | ARemove (idx : nat) | AFlush.

Definition alist_op (grown : fresh) (op : aop) (al : arraylist) : option arraylist :=
  match op with
  | AInsert idx x => '(_, al) ← alist_insert_at (Some grown) al x (Z.of_nat idx); Some al
  | AAppend x => '(_, al) ← alist_insert (Some grown) al x; Some al
  | ARemove idx => alist_remove al (Z.of_nat idx)
  | AFlush => alist_flush al
  end.

Definition list_op (op : aop) (xs : list (list Z)) : list (list Z) :=
  match op with
  | AInsert idx x => take idx xs ++ x :: drop idx xs
  | AAppend x => xs ++ [x]
  | ARemove idx => delete idx xs
  | AFlush => []
  end.

(** Indices in range, elements of the right size. *)
Definition op_ok (size : nat) (op : aop) (xs : list (list Z)) : Prop :=
  match op with
  | AInsert idx x => (idx <= length xs)%nat /\ length x = size
  | AAppend x => length x = size
  | ARemove idx => (idx < length xs)%nat
  | AFlush => True
  end.

Fixpoint ops_ok (size : nat) (ops : list aop) (xs : list (list Z)) : Prop :=
  match ops with [] => True | op :: ops => op_ok size op xs /\ ops_ok size ops (list_op op xs) end.

Fixpoint run_ops (grown : fresh) (ops : list aop) (al : arraylist) : option arraylist :=
  match ops with [] => Some al | op :: ops => al ← alist_op grown op al; run_ops grown ops al end.

Definition fresh_ok (f : fresh) : Prop := forall n, length (f n) = n.

(** At most [k] elements so far: the block is no larger than needed. *)
Definition block_le (k : nat) (al : arraylist) : Prop := buffer_size al <= Z.max 32 (2 * Z.of_nat k).

Lemma alist_op_ok grown size op al xs k : fresh_ok grown -> holds_list al size xs -> op_ok size op xs -> (length xs <= k)%nat -> block_le k al -> Z.of_nat k < 2 ^ 29 ->
  exists al', alist_op grown op al = Some al' /\ holds_list al' size (list_op op xs) /\ (length (list_op op xs) <= S k)%nat /\ block_le (S k) al'.
Proof.
  intros Hg H Hop Hk Hb Hs. unfold block_le in *. destruct op as [idx x|x|idx|]; cbn [alist_op list_op op_ok] in *.
  - destruct Hop as [Hi Hx]. rewrite <- (take_drop idx xs) in H. destruct (alist_insert_at_ok grown al size (take idx xs) (drop idx xs) x H Hx Hg ltac:(lia)) as (al' & E & H' & Hb').
    rewrite length_take, Nat.min_l in E by done. rewrite E. cbn [mbind option_bind]. exists al'. split_and!; [done|done|rewrite length_app, length_take; cbn [length]; rewrite length_drop; lia|].
    rewrite Hb', take_drop. destruct (Z.eqb_spec (Z.of_nat (length xs)) (buffer_size al)); lia.
  - rewrite <- (app_nil_r xs) in H. destruct (alist_insert_at_ok grown al size xs [] x H Hop Hg ltac:(lia)) as (al' & E & H' & Hb'). unfold alist_insert.
    rewrite app_nil_r in *. rewrite (hl_count _ _ _ H), E. cbn [mbind option_bind]. exists al'. split_and!; [done|done|rewrite length_app; simpl; lia|].
    rewrite Hb'. destruct (Z.eqb_spec (Z.of_nat (length xs)) (buffer_size al)); lia.
  - apply lookup_lt_is_Some in Hop as [x Hx]. pose proof Hx as (a & b & -> & ->)%list_elem_of_split_length. destruct (alist_remove_ok al size a x b H) as (al' & -> & H' & Hb').
    exists al'. rewrite delete_middle. split_and!; [done|done|rewrite length_app in *; cbn [length] in Hk; lia|lia].
  - unfold alist_flush. destruct (flush_ok (Z.to_nat (elem_count al)) al size xs H) as (al' & -> & H' & Hb'); [rewrite (hl_count _ _ _ H); lia|].
    exists al'. split_and!; [done|done|simpl; lia|lia].
Qed.

Lemma run_ops_ok grown size ops : fresh_ok grown -> forall al xs k, holds_list al size xs -> ops_ok size ops xs -> (length xs <= k)%nat -> block_le k al ->
  Z.of_nat (k + length ops) < 2 ^ 29 -> exists al', run_ops grown ops al = Some al' /\ holds_list al' size (foldl (fun xs op => list_op op xs) xs ops).
Proof.
  intros Hg. induction ops as [|op ops IH]; intros al xs k H Hok Hk Hb Hs; [by exists al|]. destruct Hok as [Hop Hok]. cbn [length] in Hs.
  destruct (alist_op_ok grown size op al xs k Hg H Hop Hk Hb ltac:(lia)) as (al1 & E & H1 & Hk1 & Hb1). cbn [run_ops foldl]. rewrite E. cbn [mbind option_bind].
  apply (IH al1 (list_op op xs) (S k)); [done|done|done|done|lia].
Qed.

Lemma alist_new_ok junk size : fresh_ok junk -> (0 < size)%nat -> Z.of_nat size < 2 ^ 31 ->
  exists al, alist_new true true junk (Z.of_nat size) = Some al /\ holds_list al size [] /\ block_le 0 al.
Proof.
  intros Hj H0 Hs. unfold alist_new. cbn [negb]. rewrite wrap64_small by (unfold ARRAYLIST_INIT_BUF; lia). eexists. split; [reflexivity|]. split; [|done].
  split; cbn [elem_size elem_count buffer_size al_data]; [done|done|apply Forall_nil_2|by eexists|rewrite Hj; unfold ARRAYLIST_INIT_BUF; lia|done|done|lia].
Qed.

(** ** Copies *)

Lemma append_ok grown src size ys : (forall i, exists f, grown i = Some f /\ fresh_ok f) -> holds_list src size ys -> forall (n : nat) (i : Z) (at_ : Z -> Z) (zs : list (list Z)) dst xs k,
  length zs = n -> (forall j z, zs !! j = Some z -> exists m : nat, at_ (i + Z.of_nat j) = Z.of_nat m /\ ys !! m = Some z) ->
  holds_list dst size xs -> (length xs <= k)%nat -> block_le k dst -> Z.of_nat (k + n) < 2 ^ 29 ->
  exists dst', append_loop grown n i dst src at_ = Some dst' /\ holds_list dst' size (xs ++ zs).
Proof.
  intros Hg Hsrc. induction n as [|n IH]; intros i at_ zs dst xs k Hn Hz Hd Hk Hb Hs; (destruct zs as [|z zs]; [|try done]); [by exists dst; rewrite app_nil_r|done|].
  cbn [append_loop]. destruct (Hz 0%nat z eq_refl) as (m & Em & Hm). rewrite Z.add_0_r in Em. rewrite Em, (elem_bytes_ok src size ys m Hsrc), Hm. cbn [mbind option_bind].
  destruct (Hg i) as (f & -> & Hf). assert (length z = size) as Hzl by exact (Forall_lookup_1 _ _ _ _ (hl_elems _ _ _ Hsrc) Hm).
  destruct (alist_op_ok f size (AAppend z) dst xs k Hf Hd Hzl Hk Hb ltac:(lia)) as (dst1 & E & H1 & Hk1 & Hb1). cbn [alist_op list_op] in *.
  destruct (alist_insert (Some f) dst z) as [[r d1]|]; [|done]. cbn [mbind option_bind] in *. injection E as ->.
  destruct (IH (i + 1) at_ zs dst1 (xs ++ [z]) (S k)) as (dst' & E' & H'); [simpl in Hn; lia| |done|done|done|lia|].
  - intros j y Hj. destruct (Hz (S j) y Hj) as (m' & Em' & Hm'). exists m'. split; [|done]. rewrite <- Em'. f_equal. lia.
  - exists dst'. split; [done|]. by rewrite <- (assoc_L (++)) in H'.
Qed.

(** ** Theorems *)

(** An array list is a list.  After any sequence of insertions at indices in
    range, removals and flushes, fewer than 2^29 of them, on a new array list
    whose allocations succeed, every element is where the same operations
    on a list put it: [alist_get] and [alist_elem] give it and fail beyond
    the end, [alist_exist] finds it, [alist_copy] and [alist_copy_reverse]
    give the list and its reverse; nothing is read or written outside of the
    block. *)
Theorem alist_refines_list (junk grown : fresh) (cgrown : Z -> option fresh) (size : nat) (ops : list aop) :
  fresh_ok junk -> fresh_ok grown -> (forall i, exists f, cgrown i = Some f /\ fresh_ok f) -> (0 < size)%nat -> Z.of_nat size < 2 ^ 31 ->
  ops_ok size ops [] -> Z.of_nat (length ops) < 2 ^ 29 ->
  let xs := foldl (fun xs op => list_op op xs) [] ops in
  exists al, (al ← alist_new true true junk (Z.of_nat size); run_ops grown ops al) = Some al /\ elem_count al = Z.of_nat (length xs) /\
    (forall i : nat, alist_get al (Z.of_nat i) = match xs !! i with Some x => Some (0, Some x) | None => Some (-1, None) end) /\
    (forall i : nat, elem_bytes al (Z.of_nat i) = xs !! i) /\
    (forall x, alist_exist al x = Some (bool_decide (x ∈ xs))) /\
    (exists al1 al2, alist_copy true true junk cgrown al = Some (Some al1) /\ holds_list al1 size xs /\
       alist_copy_reverse true true junk cgrown al = Some (Some al2) /\ holds_list al2 size (reverse xs)).
Proof.
  intros Hj Hg Hc H0 Hs Hok Hn xs. destruct (alist_new_ok junk size Hj H0 Hs) as (al0 & E0 & H1 & Hb). rewrite E0. cbn [mbind option_bind].
  destruct (run_ops_ok grown size ops Hg al0 [] 0 H1 Hok ltac:(simpl; lia) Hb ltac:(simpl; lia)) as (al & -> & H). fold xs in H.
  assert (length xs <= length ops)%nat as Hlen.
  { assert (forall ops ys, (length (foldl (fun xs op => list_op op xs) ys ops) <= length ys + length ops)%nat) as Hl; [|exact (Hl ops [])].
    clear. induction ops as [|op ops IH]; intros ys; cbn [foldl length]; [lia|]. specialize (IH (list_op op ys)). enough (length (list_op op ys) <= S (length ys))%nat by lia.
    destruct op as [i x|x|i|]; cbn [list_op length]; rewrite ?length_app; cbn [length]; rewrite ?length_take, ?length_drop; try lia.
    destruct (decide (i < length ys)%nat) as [Hi|Hi]; [apply lookup_lt_is_Some in Hi; rewrite length_delete by done; lia|].
    enough (delete i ys = ys) as -> by lia. clear -Hi. revert i Hi. induction ys as [|y ys IH]; intros [|i] Hi; simpl in *; [done|done|lia|]. by rewrite IH by lia. }
  exists al. split; [done|]. split; [apply H|]. split_and!.
  - intros i. pose proof (elem_bytes_ok al size xs i H) as E. unfold elem_bytes, alist_elem, alist_get in *. rewrite (hl_count _ _ _ H) in *.
    destruct (Z.leb_spec (Z.of_nat (length xs)) (Z.of_nat i)); cbn [mbind option_bind] in E; [by rewrite <- E|].
    destruct (xs !! i) as [x|] eqn:Ex; [by rewrite E|apply lookup_ge_None in Ex; lia].
  - intros i. by eapply elem_bytes_ok.
  - intros x. unfold alist_exist. rewrite (hl_count _ _ _ H), Nat2Z.id. exact (exist_loop_ok al size xs x H (length xs) 0 eq_refl).
  - unfold alist_copy, alist_copy_reverse, alist_append. rewrite (hl_size _ _ _ H), E0, (hl_count _ _ _ H), Nat2Z.id.
    destruct (append_ok cgrown al size xs Hc H (length xs) 0 (fun i => i) xs al0 [] 0) as (al1 & -> & Hc1); [done| |done|simpl; lia|done|simpl; lia|].
    { intros j z Hz. exists j. split; [lia|done]. }
    destruct (append_ok cgrown al size xs Hc H (length xs) 0 (fun i => Z.of_nat (length xs) - 1 - i) (reverse xs) al0 [] 0) as (al2 & -> & Hc2); [apply length_reverse| |done|simpl; lia|done|simpl; lia|].
    { intros j z Hz. pose proof (lookup_lt_Some _ _ _ Hz) as Hlt. rewrite length_reverse in Hlt. exists (length xs - 1 - j)%nat. split; [lia|].
      rewrite reverse_lookup in Hz by done. rewrite <- Hz. f_equal. lia. }
    cbn [mbind option_bind]. exists al1, al2. by split_and!.
Qed.

(** The result of [alist_insert] is not looked at by [alist_append]: when
    memory runs out the elements from there on are dropped and nothing is
    reported. *)
Theorem alist_append_drops (dst src : arraylist) (size : nat) (xs ys : list (list Z)) :
  holds_list dst size xs -> holds_list src size ys -> Z.of_nat (length xs) = buffer_size dst -> alist_append (fun _ => None) dst src = Some dst.
Proof.
  intros Hd Hs Hfull. unfold alist_append. rewrite (hl_count _ _ _ Hs), Nat2Z.id.
  assert (forall n i, (i + n = length ys)%nat -> append_loop (fun _ => None) n (Z.of_nat i) dst src (fun i => i) = Some dst) as H; [|exact (H (length ys) 0%nat eq_refl)].
  induction n as [|n IH]; intros i Hi; [done|]. cbn [append_loop]. rewrite (elem_bytes_ok src size ys i Hs). destruct (ys !! i) as [y|] eqn:E; [|apply lookup_ge_None in E; lia].
  cbn [mbind option_bind]. unfold alist_insert. rewrite (alist_insert_full dst size xs) by done. cbn [mbind option_bind]. replace (Z.of_nat i + 1) with (Z.of_nat (S i)) by lia. apply IH. lia.
Qed.

(** ** Words of two bytes *)

Definition zeros : fresh := fun n => replicate n 0.
Lemma zeros_ok : fresh_ok zeros.
Proof. intros n. apply length_replicate. Qed.

Definition word_ops : list aop := [AAppend [1; 2]; AInsert 0 [3; 4]; AAppend [5; 6]; ARemove 1].

Lemma alist_refines_list_witness :
  exists al, (al ← alist_new true true zeros 2; run_ops zeros word_ops al) = Some al /\ elem_count al = 2 /\
    (forall i : nat, alist_get al (Z.of_nat i) = match [[3; 4]; [5; 6]] !! i with Some x => Some (0, Some x) | None => Some (-1, None) end) /\
    (forall i : nat, elem_bytes al (Z.of_nat i) = [[3; 4]; [5; 6]] !! i) /\
    (forall x, alist_exist al x = Some (bool_decide (x ∈ [[3; 4]; [5; 6]]))) /\
    (exists al1 al2, alist_copy true true zeros (fun _ => Some zeros) al = Some (Some al1) /\ holds_list al1 2 [[3; 4]; [5; 6]] /\
       alist_copy_reverse true true zeros (fun _ => Some zeros) al = Some (Some al2) /\ holds_list al2 2 [[5; 6]; [3; 4]]).
Proof.
  apply (alist_refines_list zeros zeros (fun _ => Some zeros) 2 word_ops zeros_ok zeros_ok); [|lia|done|vm_compute; lia|done].
  intros i. exists zeros. split; [done|apply zeros_ok].
Defined.
