(* ===== verification/Routed.v ===== *)
(** * The route daemon (sr-routed/sr-routed.c, sr-routed/seg6_netlink.c)

    How a router turns the flows it reads from the database into routes: the
    JSON lists of segments and binding segments, the comma-separated text in
    a fixed buffer, the segment routing header parsed from that text, and the
    route request handed to netlink.

    [inet_pton], [inet_ntop] and [if_nametoindex] are arguments, as are the
    kernel's answer and the contents of uninitialised buffers.  A route
    request is the bytes of its netlink message.  [None] is undefined
    behaviour. *)

From S2P Require Import Prelude Misc Hashmap Rules Srdb Dijkstra Segpath Netstate Flows Netlink.
From Stdlib Require Import Ascii.

Record config := Config { router_name : string; ingress_iface : string; localsid : Z }.
Record route := Route { rt_bsid : in6_addr; rt_segs : string }.

(** ** The segment routing header *)

(** [struct ipv6_sr_hdr] without HMAC *)
Record srh := Srh { hdrlen : Z; sr_type : Z; segments_left : Z; first_segment : Z; sr_segments : list in6_addr }.

Definition COMMA : ascii := ",".

(** strtok(segbuf, ","): the non-empty fields *)
Fixpoint strtok_all (s cur : string) : list string :=
  match s with
  | EmptyString => if nonempty cur then [cur] else []
  | String a s =>
      if Ascii.eqb a COMMA then (if nonempty cur then cur :: strtok_all s "" else strtok_all s "")
      else strtok_all s (cur ++ String a "")%string
  end.

Section netlink.
Context (inet_pton : string -> option in6_addr).

(** The loop that stores the segments from [i] downwards; an address that does
    not parse is uninitialised memory, a negative index is outside. *)
Fixpoint store_segments (toks : list string) (i : Z) (segs : list in6_addr) : option (list in6_addr) :=
  match toks with
  | [] => Some segs
  | s :: toks =>
      addr ← inet_pton s;
      if (0 <=? i) && (i <? Z.of_nat (length segs)) then store_segments toks (i - 1) (<[Z.to_nat i := addr]> segs) else None
  end.

(** [parse_srh(segs, 0, encap)] *)
Definition parse_srh (segs : string) (encap : bool) : option srh :=
  let nsegs := Z.of_nat (count_char COMMA (cut_at NUL segs)) + 1 + (if encap then 0 else 1) in
  let srhlen := 8 + 16 * nsegs in
  let first := (nsegs - 1) mod 256 in
  l ← store_segments (strtok_all (cut_at NUL segs) "") first (replicate (Z.to_nat nsegs) (replicate 16 0));
  Some (Srh ((Z.shiftr srhlen 3 - 1) mod 256) 4 first first l).

(** ** Route requests *)

Definition NLM_F_REQUEST := 0x1.
Definition NLM_F_REPLACE := 0x100.
Definition NLM_F_EXCL := 0x200.
Definition NLM_F_CREATE := 0x400.
Definition RTM_NEWROUTE := 24.
Definition AF_INET6 := 10.
Definition RT_TABLE_UNSPEC := 0.
Definition RT_TABLE_MAIN := 254.
Definition RT_SCOPE_UNIVERSE := 0.
Definition RTPROT_BOOT := 3.
Definition RTN_UNICAST := 1.
Definition RTA_DST := 1.
Definition RTA_OIF := 4.
Definition RTA_TABLE := 15.
Definition RTA_ENCAP_TYPE := 21.
Definition RTA_ENCAP := 22.
Definition SEG6_LOCAL_ACTION := 1.
Definition SEG6_LOCAL_SRH := 2.
Definition SEG6_LOCAL_ACTION_END_B6_ENCAP := 10.
Definition LWTUNNEL_ENCAP_SEG6_LOCAL := 7.

(** nexthdr, hdrlen, type, segments_left, first_segment, flags, tag, segments *)
Definition srh_bytes (h : srh) : list Z :=
  [0; hdrlen h; sr_type h; segments_left h; first_segment h; 0; 0; 0] ++ concat (sr_segments h).

Definition encap_seg6local (rta : nlbuf) (len : Z) (segs : string) : option (Z * nlbuf) :=
  '(_, rta) ← rta_addattr32 rta len SEG6_LOCAL_ACTION SEG6_LOCAL_ACTION_END_B6_ENCAP;
  h ← parse_srh segs true;
  let srhlen := Z.shiftl (hdrlen h + 1) 3 in
  '(_, rta) ← rta_addattr_l rta len SEG6_LOCAL_SRH (take (Z.to_nat srhlen) (srh_bytes h));
  Some (0, rta).

Definition lwt_encap (rta : nlbuf) (len : Z) (segs : string) : option (Z * nlbuf) :=
  '(nest, rta) ← rta_nest rta 1024 RTA_ENCAP;
  '(ret, rta) ← encap_seg6local rta len segs;
  if negb (ret =? 0) then Some (-1, rta)
  else
    '(_, rta) ← rta_nest_end rta nest;
    '(_, rta) ← rta_addattr16 rta 1024 RTA_ENCAP_TYPE LWTUNNEL_ENCAP_SEG6_LOCAL;
    Some (0, rta).

(** struct nlmsghdr (whose length is kept apart) and struct rtmsg *)
Definition req_header (flags dst_len table : Z) : list Z :=
  le 4 28 ++ le 2 RTM_NEWROUTE ++ le 2 flags ++ le 4 0 ++ le 4 0 ++
  [AF_INET6; dst_len; 0; 0; table; RTPROT_BOOT; RT_SCOPE_UNIVERSE; RTN_UNICAST] ++ le 4 0.

(** The bytes handed to the socket: nlmsg_len first. *)
Definition nl_message (n : nlbuf) : list Z := le 4 (nb_len n) ++ drop 4 (take (Z.to_nat (nb_len n)) (nb_mem n)).

Context (if_nametoindex : string -> Z).

(** Return code and the message sent, if any; [talk] is what rtnl_talk
    returns, [stack] the 1024 bytes of the uninitialised [buf]. *)
Definition modify_route (talk : Z) (stack : list Z) (dst_str dev : string) (tid : Z) (segs : string) (new : bool)
    : option (Z * option (list Z)) :=
  let size := 16 + 12 + 1024 in
  let flags := Z.lor NLM_F_REQUEST (if new then Z.lor NLM_F_CREATE NLM_F_EXCL else NLM_F_REPLACE) in
  let mem := req_header flags 0 RT_TABLE_MAIN ++ replicate 1024 0 in
  match inet_pton dst_str with
  | None => Some (-1, None)
  | Some dst =>
      mem ← bwrite mem 17 [128];
      '(_, n) ← addattr_l (NlBuf 28 mem) size RTA_DST dst;
      let idx := if_nametoindex dev in
      if idx =? 0 then Some (-1, None)
      else
        '(_, n) ← addattr32 n size RTA_OIF idx;
        n ← (if tid <? 256 then mem ← bwrite (nb_mem n) 20 [tid]; Some (NlBuf (nb_len n) mem)
             else
               mem ← bwrite (nb_mem n) 20 [RT_TABLE_UNSPEC];
               '(_, n) ← addattr32 (NlBuf (nb_len n) mem) size RTA_TABLE tid; Some n);
        '(ret, rta) ← lwt_encap (NlBuf (RTA_LENGTH 0) stack) 1024 segs;
        if negb (ret =? 0) then Some (-1, None)
        else
          '(_, n) ← (if RTA_LENGTH 0 <? nb_len rta
                     then addraw_l n 1024 (drop 4 (take (Z.to_nat (nb_len rta)) (nb_mem rta))) else Some (0, n));
          Some (if talk <? 0 then -1 else 0, Some (nl_message n))
  end.

Definition add_route (talk : Z) (stack : list Z) (dst_str dev : string) (tid : Z) (segs : string) : option (Z * option (list Z)) :=
  modify_route talk stack dst_str dev tid segs true.
Definition change_route (talk : Z) (stack : list Z) (dst_str dev : string) (tid : Z) (segs : string) : option (Z * option (list Z)) :=
  modify_route talk stack dst_str dev tid segs false.

(** ** The FIB *)

Context (inet_ntop : in6_addr -> string) (cfg : config) (talk : Z) (stack : list Z).

Definition exec_route_add_encap (route segments : string) : option (Z * option (list Z)) :=
  add_route talk stack route (ingress_iface cfg) (localsid cfg) segments.
Definition exec_route_change_encap (route segments : string) : option (Z * option (list Z)) :=
  change_route talk stack route (ingress_iface cfg) (localsid cfg) segments.

Definition add_fib_entry (rt : route) : option (option (list Z)) :=
  '(_, r) ← exec_route_add_encap (inet_ntop (rt_bsid rt)) (rt_segs rt); Some r.
Definition update_fib_entry (rt : route) : option (option (list Z)) :=
  '(_, r) ← exec_route_change_encap (inet_ntop (rt_bsid rt)) (rt_segs rt); Some r.

(** ** Flows *)

Context {J : Jansson} {T : JanssonText J}.

(** What the daemon reads of a [srdb_flow_entry]. *)
Record flowentry := FlowEntry { fe_row : string; fe_router : string; fe_segments : option string; fe_bsid : option string }.

Definition cell_str (e : entry) (f : string) : option string :=
  match e !! offsetof srdb_flow_entry f with Some (CBuf _ s) => Some s | _ => None end.
Definition cell_ptr (e : entry) (f : string) : option (option string) :=
  match e !! offsetof srdb_flow_entry f with Some (CPtr p) => Some p | _ => None end.

Definition flowentry_of (e : entry) : option flowentry :=
  row ← cell_str e "row"; router ← cell_str e "router"; segs ← cell_ptr e "segments"; bsid ← cell_ptr e "bsid";
  Some (FlowEntry row router segs bsid).

(** json_array_foreach *)
Definition array_elems (j : json) : list json := omap (json_array_get j) (seq 0 (json_array_size j)).

(** The first [n] bytes. *)
Fixpoint stake (n : nat) (s : string) : string :=
  match n, s with S n, String a s => String a (stake n s) | _, _ => "" end.

(** snprintf(segs_str + k, SLEN + 1 - k, "%s", s): the buffer holds the first
    [SLEN] bytes; beyond its end the size wraps around and the write is
    outside. *)
Definition buf_print (buf : string) (k : nat) (s : string) : option (string * nat) :=
  if (S SLEN <? k)%nat then None
  else
    let n := (S SLEN - k)%nat in
    Some (if (n =? 0)%nat then buf else (stake k buf ++ stake (n - 1) s)%string, (k + String.length s)%nat).

(** The inner loop over the segments of a list; [buf] is uninitialised
    ([None]) before the first write. *)
Fixpoint print_segs (segs : list json) (buf : option string) (k : nat) : option (option string) :=
  match segs with
  | [] => Some buf
  | s :: segs =>
      s ← json_string_value s;
      let sep := if (length segs =? 0)%nat then "" else "," in
      '(b, k) ← buf_print (default "" buf) k (s ++ sep)%string;
      print_segs segs (Some b) k
  end.

Definition routes := list (in6_addr * route).

(** The loop over the segment lists: routes, requests, the buffer. *)
Fixpoint read_lists (bsids : json) (i : nat) (lists : list json) (buf : option string) (rts : routes)
    : option (routes * list (option (list Z))) :=
  match lists with
  | [] => Some (rts, [])
  | segs :: lists =>
      b ← json_array_get bsids i;
      b ← json_string_value b;
      bsid ← inet_pton b;
      buf ← print_segs (array_elems segs) buf 0;
      s ← buf;
      let rt := Route bsid s in
      nl ← add_fib_entry rt;
      '(rts, nls) ← read_lists bsids (S i) lists (Some s) (aset rts bsid rt);
      Some (rts, nl :: nls)
  end.

(** Routes, netlink requests, the status update sent. *)
Definition read_flowstate (e : flowentry) (rts : routes) : option (routes * list (option (list Z)) * list dbop) :=
  if negb (streq (fe_router e) (router_name cfg)) then Some (rts, [], [])
  else
    match s ← fe_segments e; json_loads s with
    | None => Some (rts, [], [])
    | Some segment_lists =>
        match s ← fe_bsid e; json_loads s with
        | None => Some (rts, [], [])
        | Some bsids =>
            '(rts, nls) ← read_lists bsids 0 (array_elems segment_lists) None rts;
            Some (rts, nls, [status_op "FlowState" (fe_row e) FLOW_STATUS_RUNNING])
        end
    end.

Fixpoint update_lists (bsids : option json) (i : nat) (lists : list json) (buf : option string) (rts : routes)
    : option (routes * list (option (list Z))) :=
  match lists with
  | [] => Some (rts, [])
  | segs :: lists =>
      bsids_ ← bsids;
      b ← json_array_get bsids_ i;
      b ← json_string_value b;
      addr ← inet_pton b;
      match aget rts addr with
      | None => update_lists bsids (S i) lists buf rts
      | Some rt =>
          buf ← print_segs (array_elems segs) buf 0;
          s ← buf;
          let rt := Route (rt_bsid rt) s in
          nl ← update_fib_entry rt;
          '(rts, nls) ← update_lists bsids (S i) lists (Some s) (aset rts addr rt);
          Some (rts, nl :: nls)
      end
  end.

Definition update_flowstate (e : flowentry) (fmask : Z) (rts : routes) : option (routes * list (option (list Z))) :=
  if negb (streq (fe_router e) (router_name cfg)) then Some (rts, [])
  else if Z.land fmask (ENTRY_MASK FE_SEGMENTS) =? 0 then Some (rts, [])
  else
    let segment_lists := s ← fe_segments e; json_loads s in
    let bsids := s ← fe_bsid e; json_loads s in
    update_lists bsids 0 (match segment_lists with Some j => array_elems j | None => [] end) None rts.
End netlink.

(** ** Texts *)

Lemma sapp_assoc (s t u : string) : (s ++ (t ++ u) = (s ++ t) ++ u)%string.
Proof. induction s as [|a s IH]; [done|]. exact (f_equal _ IH). Qed.

Lemma sapp_nil (s : string) : (s ++ "" = s)%string.
Proof. induction s as [|a s IH]; [done|]. exact (f_equal _ IH). Qed.

Lemma slength_app (s t : string) : String.length (s ++ t) = (String.length s + String.length t)%nat.
Proof. induction s as [|a s IH]; [done|]. exact (f_equal _ IH). Qed.

Lemma stake_all n s : (String.length s <= n)%nat -> stake n s = s.
Proof. revert n. induction s as [|a s IH]; intros [|n] H; cbn in *; [done..|lia|rewrite IH by lia; done]. Qed.

Lemma stake_app n s t : stake n (s ++ t) = (stake n s ++ stake (n - String.length s) t)%string.
Proof.
  revert n. induction s as [|a s IH]; intros [|n]; [by destruct t|by cbn; rewrite ?Nat.sub_0_r|by destruct t|]. exact (f_equal (String a) (IH n)).
Qed.

Lemma stake_length n s : String.length (stake n s) = (n `min` String.length s)%nat.
Proof. revert n. induction s as [|a s IH]; intros [|n]; [done..|]. exact (f_equal S (IH n)). Qed.

(** The texts separated by commas. *)
Fixpoint join (l : list string) : string :=
  match l with [] => "" | [s] => s | s :: l => (s ++ String COMMA (join l))%string end.

(** What is printed before the last text. *)
Definition join_before (l : list string) : nat := (String.length (join l) - String.length (default "" (last l)))%nat.

Lemma join_cons s t l : join (s :: t :: l) = (s ++ String COMMA (join (t :: l)))%string.
Proof. done. Qed.

Lemma join_last_le l : (String.length (default "" (last l)) <= String.length (join l))%nat.
Proof.
  induction l as [|s [|t l] IH]; [done|done|]. rewrite join_cons, slength_app. change (last (s :: t :: l)) with (last (t :: l)). cbn [String.length]. lia.
Qed.

(** *** The fixed buffer *)

(** The buffer holds the first [SLEN] characters of the text printed so far. *)
Lemma buf_print_ok acc s : (String.length acc <= S SLEN)%nat ->
  buf_print (stake SLEN acc) (String.length acc) s = Some (stake SLEN (acc ++ s), String.length (acc ++ s)).
Proof.
  intros H. unfold buf_print. replace (S SLEN <? String.length acc)%nat with false by (symmetry; apply Nat.ltb_ge; lia).
  rewrite slength_app. f_equal. f_equal. destruct (Nat.eqb_spec (S SLEN - String.length acc) 0) as [He|He].
  - rewrite stake_app. replace (SLEN - String.length acc)%nat with O by lia. by destruct s; cbn; rewrite sapp_nil.
  - rewrite (stake_all SLEN acc), (stake_all (String.length acc)), stake_app, (stake_all SLEN acc) by lia. do 2 f_equal. lia.
Qed.

Lemma buf_print_start buf s : buf_print buf 0 s = Some (stake SLEN s, String.length s).
Proof. reflexivity. Qed.

Lemma buf_print_over acc k s : (S SLEN < k)%nat -> buf_print acc k s = None.
Proof. intros H. unfold buf_print. by replace (S SLEN <? k)%nat with true by (symmetry; apply Nat.ltb_lt; lia). Qed.

Section printing.
Context {J : Jansson}.

Lemma print_segs_over js ss buf k : Forall2 (fun j s => json_string_value j = Some s) js ss -> js <> [] -> (S SLEN < k)%nat -> print_segs js buf k = None.
Proof.
  intros Hjs Hne Hk. destruct Hjs as [|j s js ss Hj Hjs]; [done|]. cbn [print_segs]. rewrite Hj. cbn [mbind option_bind]. by rewrite buf_print_over.
Qed.

Lemma print_segs_ok js ss acc : Forall2 (fun j s => json_string_value j = Some s) js ss -> js <> [] -> (String.length acc <= S SLEN)%nat ->
  print_segs js (Some (stake SLEN acc)) (String.length acc) =
    if (String.length acc + join_before ss <=? S SLEN)%nat then Some (Some (stake SLEN (acc ++ join ss))) else None.
Proof.
  intros Hjs. revert acc. induction Hjs as [|j s js ss Hj Hjs IH]; intros acc Hne Hacc; [done|].
  cbn [print_segs]. rewrite Hj. cbn [mbind option_bind from_option id]. rewrite buf_print_ok by done. cbn [mbind option_bind].
  destruct Hjs as [|j' s' js ss Hj' Hjs].
  - cbn [length Nat.eqb print_segs]. unfold join_before. cbn [join last default]. rewrite sapp_nil, Nat.sub_diag.
    replace (String.length acc + 0 <=? S SLEN)%nat with true by (symmetry; apply Nat.leb_le; lia). done.
  - change (length (j' :: js) =? 0)%nat with false. cbn match.
    assert (Hb : join_before (s :: s' :: ss) = (String.length s + 1 + join_before (s' :: ss))%nat).
    { unfold join_before. rewrite join_cons, slength_app. change (last (s :: s' :: ss)) with (last (s' :: ss)).
      pose proof (join_last_le (s' :: ss)). cbn [String.length]. lia. }
    assert (Hl : String.length (acc ++ (s ++ ",")) = (String.length acc + String.length s + 1)%nat) by (rewrite !slength_app; cbn [String.length]; lia).
    destruct (le_gt_dec (String.length (acc ++ (s ++ ","))) (S SLEN)) as [Hle|Hgt].
    + rewrite IH by done. rewrite Hl, Hb. replace (String.length acc + String.length s + 1 + join_before (s' :: ss))%nat
        with (String.length acc + (String.length s + 1 + join_before (s' :: ss)))%nat by lia.
      rewrite join_cons, <- !sapp_assoc. done.
    + rewrite (print_segs_over (j' :: js) (s' :: ss)) by (done || by constructor).
      rewrite Hb. replace (_ <=? _)%nat with false by (symmetry; apply Nat.leb_gt; lia). done.
Qed.

(** One list of segments, whatever the buffer held before. *)
Lemma print_segs_text js ss buf : Forall2 (fun j s => json_string_value j = Some s) js ss -> js <> [] ->
  print_segs js buf 0 = if (join_before ss <=? S SLEN)%nat then Some (Some (stake SLEN (join ss))) else None.
Proof.
  intros Hjs Hne. pose proof (print_segs_ok js ss "" Hjs Hne ltac:(cbn; lia)) as H. change ("" ++ join ss)%string with (join ss) in H. cbn [String.length Nat.add] in H. rewrite <- H. clear H.
  destruct Hjs as [|j s js ss Hj Hjs]; [done|]. cbn [print_segs]. rewrite Hj. cbn [mbind option_bind]. by rewrite !buf_print_start.
Qed.
End printing.

(** ** Addresses as text *)

Definition is_addr (a : in6_addr) : Prop := length a = 16%nat /\ Forall (fun b => 0 <= b < 256) a.

(** What the daemons rely on of [inet_ntop] and [inet_pton]: the text of an
    address is read back, fits INET6_ADDRSTRLEN, is at least :: and has no
    comma. *)
Class InetLaws (pton : string -> option in6_addr) (ntop : in6_addr -> string) : Prop := {
  il_roundtrip : forall a, is_addr a -> pton (ntop a) = Some a;
  il_comma : forall a, is_addr a -> count_char COMMA (ntop a) = O;
  il_nul : forall a, is_addr a -> count_char NUL (ntop a) = O;
  il_length : forall a, is_addr a -> (2 <= String.length (ntop a) <= 45)%nat
}.

(** *** Splitting *)

Definition field_ok (s : string) : Prop := count_char COMMA s = O /\ count_char NUL s = O /\ nonempty s = true.

Lemma strtok_text s : forall rest cur, count_char COMMA s = O -> strtok_all (s ++ rest) cur = strtok_all rest (cur ++ s)%string.
Proof.
  induction s as [|a s IH]; intros rest cur H; [by rewrite sapp_nil|]. change (String a s ++ rest)%string with (String a (s ++ rest)).
  cbn [count_char] in H. cbn [strtok_all]. destruct (Ascii.eqb a COMMA); [done|].
  rewrite IH by done. by rewrite <- sapp_assoc.
Qed.

Lemma strtok_join ss : Forall field_ok ss -> strtok_all (join ss) "" = ss.
Proof.
  induction 1 as [|s ss (Hc & _ & Hn) Hss IH]; [done|]. destruct ss as [|t ss].
  - cbn [join]. rewrite <- (sapp_nil s) at 1. rewrite strtok_text by done. change ("" ++ s)%string with s. cbn [strtok_all]. by rewrite Hn.
  - rewrite join_cons, strtok_text by done. change ("" ++ s)%string with s. cbn [strtok_all]. change (Ascii.eqb COMMA COMMA) with true. cbn match.
    by rewrite Hn, IH.
Qed.

Lemma join_commas s ss : Forall field_ok (s :: ss) -> count_char COMMA (join (s :: ss)) = length ss /\ count_char NUL (join (s :: ss)) = O.
Proof.
  revert s. induction ss as [|t ss IH]; intros s H; apply Forall_cons in H as [(Hc & Hz & _) Hss]; [done|].
  rewrite join_cons, !count_char_app, Hc, Hz. cbn [count_char]. change (Ascii.eqb COMMA COMMA) with true. change (Ascii.eqb COMMA NUL) with false. cbn match.
  destruct (IH t Hss) as [-> ->]. by split.
Qed.

(** ** The segment routing header *)

Section header.
Context (pton : string -> option in6_addr) (ntop : in6_addr -> string) `{!InetLaws pton ntop}.

Lemma text_field_ok a : is_addr a -> field_ok (ntop a).
Proof. intros Ha. split_and!; [by eapply il_comma|by eapply il_nul|]. pose proof (il_length a Ha) as Hl. pose proof (il_nul a Ha) as Hz. destruct (ntop a) as [|c s]; cbn in *; [lia|by destruct (Ascii.eqb c NUL)]. Qed.

Lemma texts_ok addrs : Forall is_addr addrs -> Forall field_ok (map ntop addrs).
Proof. intros H. apply Forall_map. eapply Forall_impl; [exact H|]. intros a Ha. by apply text_field_ok. Qed.

Lemma store_segments_ok addrs : forall segs, Forall is_addr addrs -> (length addrs <= length segs)%nat ->
  store_segments pton (map ntop addrs) (Z.of_nat (length addrs) - 1) segs = Some (rev addrs ++ drop (length addrs) segs).
Proof.
  induction addrs as [|a addrs IH]; intros segs Ha Hl; [done|]. apply Forall_cons in Ha as [Ha Has]. cbn [map store_segments length] in *.
  rewrite il_roundtrip by done. cbn [mbind option_bind].
  replace (Z.of_nat (S (length addrs)) - 1) with (Z.of_nat (length addrs)) by lia. rewrite Nat2Z.id.
  replace ((0 <=? Z.of_nat (length addrs)) && (Z.of_nat (length addrs) <? Z.of_nat (length segs))) with true
    by (symmetry; apply andb_true_iff; split; [apply Z.leb_le|apply Z.ltb_lt]; lia).
  rewrite IH; [|done|rewrite length_insert; lia]. cbn [rev]. rewrite <- (assoc_L (++)). cbn [app].
  rewrite insert_take_drop by lia. rewrite drop_app_ge by (rewrite length_take; lia). rewrite length_take, Nat.min_l, Nat.sub_diag by lia. done.
Qed.

(** The header built from the text of 1 to 127 addresses: the last hop is
    segment 0, the first one is active. *)
Lemma parse_srh_ok addrs : Forall is_addr addrs -> (0 < length addrs < 128)%nat ->
  let n := Z.of_nat (length addrs) in
  parse_srh pton (join (map ntop addrs)) true = Some (Srh (2 * n) 4 (n - 1) (n - 1) (rev addrs)).
Proof.
  intros Ha Hn n. pose proof (texts_ok addrs Ha) as Hf. unfold parse_srh.
  destruct addrs as [|a addrs]; [cbn in Hn; lia|]. destruct (join_commas (ntop a) (map ntop addrs) Hf) as [Hc Hz].
  change (map ntop (a :: addrs)) with (ntop a :: map ntop addrs) in *.
  rewrite cut_at_id, Hc, length_map by done. rewrite (strtok_join (ntop a :: map ntop addrs)) by done. cbn zeta.
  replace (Z.of_nat (length addrs) + 1 + 0) with n by (unfold n; cbn [length]; lia).
  assert (n < 128) by (unfold n; lia). assert (0 < n) by (unfold n; cbn; lia).
  rewrite Z.shiftr_div_pow2 by lia. change (2 ^ 3) with 8. replace ((8 + 16 * n) / 8) with (1 + 2 * n) by (apply (Z.div_unique _ _ _ 0); lia).
  rewrite !Z.mod_small by lia. change (ntop a :: map ntop addrs) with (map ntop (a :: addrs)).
  unfold n at 1. rewrite store_segments_ok; [|done|rewrite length_replicate; unfold n; lia]. cbn [mbind option_bind].
  rewrite drop_ge, app_nil_r by (rewrite length_replicate; unfold n; lia). done.
Qed.
End header.

(** ** The message *)

(** What the kernel reads of the encapsulation attribute. *)
Definition srh_of (addrs : list in6_addr) : list Z :=
  let n := Z.of_nat (length addrs) in [0; 2 * n; 4; n - 1; n - 1; 0; 0; 0] ++ concat (rev addrs).
Definition encap_attrs (addrs : list in6_addr) : list attr :=
  [Attr SEG6_LOCAL_ACTION (le 4 SEG6_LOCAL_ACTION_END_B6_ENCAP) []; Attr SEG6_LOCAL_SRH (srh_of addrs) []].

Lemma concat_addrs addrs : Forall is_addr addrs -> length (concat addrs) = (16 * length addrs)%nat.
Proof. induction 1 as [|a l [Ha _] _ IH]; [done|]. cbn [concat]. rewrite length_app, IH, Ha. cbn [length]. lia. Qed.

Lemma srh_of_length addrs : Forall is_addr addrs -> Z.of_nat (length (srh_of addrs)) = 8 + 16 * Z.of_nat (length addrs).
Proof.
  intros Ha. unfold srh_of. rewrite length_app, concat_addrs by by apply Forall_rev. rewrite length_rev. cbn [length]. lia.
Qed.

Lemma RTA_SPACE_id n : n mod 4 = 0 -> RTA_SPACE n = 4 + n.
Proof. intros H. unfold RTA_SPACE. by rewrite RTA_LENGTH_align, RTA_ALIGN_id. Qed.

Lemma aligned_pad a : attr_ok a -> Z.of_nat (length (a_data a)) mod 4 = 0 -> a_pad a = [].
Proof. intros (_ & _ & H) Hd. rewrite RTA_ALIGN_id in H by done. apply nil_length_inv. lia. Qed.

Section message.
Context (pton : string -> option in6_addr) (ntop : in6_addr -> string) `{!InetLaws pton ntop}.
Context (addrs : list in6_addr) (Haddrs : Forall is_addr addrs) (Hn : (0 < length addrs <= 57)%nat).

Lemma srh_mod : Z.of_nat (length (srh_of addrs)) mod 4 = 0.
Proof. rewrite srh_of_length by done. Z.to_euclidean_division_equations; lia. Qed.

(** Appending with the padding known to be empty. *)
Lemma rta_append b hdr l type data :
  holds b hdr l -> length (nb_mem b) = 1024%nat -> 0 <= type < 2 ^ 16 -> Z.of_nat (length data) mod 4 = 0 ->
  nb_len b + (4 + Z.of_nat (length data)) <= 1024 ->
  exists mem, rta_addattr_l b 1024 type data = Some (0, NlBuf (nb_len b + (4 + Z.of_nat (length data))) mem) /\
    holds (NlBuf (nb_len b + (4 + Z.of_nat (length data))) mem) hdr (l ++ [Attr type data []]) /\ length mem = 1024%nat.
Proof.
  intros Hb Hm Ht Hd Hf. pose proof (ho_len _ _ _ Hb) as Hl.
  destruct (rta_addattr_l_ok b hdr l 1024 type data Hb Ht) as (pad & mem & E & H & HL); rewrite ?Hm, ?RTA_SPACE_id in * by done; [lia..|].
  exists mem. split_and!; [done| |done]. enough (pad = []) as -> by done.
  pose proof (ho_ok _ _ _ H) as Hok. apply Forall_app in Hok as [_ Hok]. apply Forall_cons in Hok as [Ha _]. exact (aligned_pad _ Ha Hd).
Qed.

Lemma encap_ok b hdr l : holds b hdr l -> length (nb_mem b) = 1024%nat -> nb_len b <= 8 ->
  exists mem, encap_seg6local pton b 1024 (join (map ntop addrs)) = Some (0, NlBuf (nb_len b + (20 + 16 * Z.of_nat (length addrs))) mem) /\
    holds (NlBuf (nb_len b + (20 + 16 * Z.of_nat (length addrs))) mem) hdr (l ++ encap_attrs addrs) /\ length mem = 1024%nat.
Proof.
  intros Hb Hm Hl. unfold encap_seg6local. rewrite rta_addattr32_l.
  destruct (rta_append b hdr l SEG6_LOCAL_ACTION (le 4 SEG6_LOCAL_ACTION_END_B6_ENCAP) Hb Hm) as (mem & -> & Hb1 & Hm1); [done|done|cbn; lia|].
  cbn [mbind option_bind]. rewrite (parse_srh_ok pton ntop) by (done || lia). cbn [mbind option_bind].
  set (n := Z.of_nat (length addrs)) in *. cbn [hdrlen]. rewrite Z.shiftl_mul_pow2 by lia.
  change (srh_bytes _) with (srh_of addrs). rewrite take_ge by (pose proof (srh_of_length addrs Haddrs); unfold n; lia).
  destruct (rta_append _ _ _ SEG6_LOCAL_SRH (srh_of addrs) Hb1 Hm1) as (mem2 & E2 & Hb2 & Hm2); [done|by apply srh_mod| |].
  { rewrite srh_of_length by done. cbn [nb_len]. rewrite le_length. lia. }
  rewrite E2. cbn [mbind option_bind nb_len] in *. rewrite srh_of_length, le_length in * by done. fold n in Hb2 |- *.
  replace (nb_len b + (4 + Z.of_nat 4) + (4 + (8 + 16 * n))) with (nb_len b + (20 + 16 * n)) in * by lia.
  exists mem2. split_and!; [done| |done]. unfold encap_attrs. by rewrite <- (assoc_L (++)) in Hb2.
Qed.

Lemma lwt_encap_ok stack : length stack = 1024%nat ->
  exists mem pad, lwt_encap pton (NlBuf (RTA_LENGTH 0) stack) 1024 (join (map ntop addrs)) = Some (0, NlBuf (36 + 16 * Z.of_nat (length addrs)) mem) /\
    holds (NlBuf (36 + 16 * Z.of_nat (length addrs)) mem) (take 4 stack)
      [Attr RTA_ENCAP (encs (encap_attrs addrs)) []; Attr RTA_ENCAP_TYPE (le 2 LWTUNNEL_ENCAP_SEG6_LOCAL) pad].
Proof.
  intros Hs. unfold lwt_encap, rta_nest. change (RTA_LENGTH 0) with 4.
  assert (H0 : holds (NlBuf 4 stack) (take 4 stack) []).
  { split; [done|by rewrite length_app, length_take, Hs|by rewrite length_take, Hs|]. exists (drop 4 stack). cbn [encs flat_map app nb_mem]. by rewrite take_drop. }
  destruct (rta_append _ _ _ RTA_ENCAP [] H0 Hs) as (m1 & -> & H1 & Hm1); [done|done|cbn; lia|]. cbn [mbind option_bind nb_len] in *.
  destruct (encap_ok _ _ _ H1 Hm1) as (m2 & -> & H2 & Hm2); [cbn; lia|]. cbn [mbind option_bind]. change (negb (0 =? 0)) with false. cbn match.
  set (n := Z.of_nat (length addrs)) in *. cbn [nb_len length] in H2 |- *. replace (4 + (4 + Z.of_nat 0) + (20 + 16 * n)) with (28 + 16 * n) in * by lia.
  change (([] ++ [Attr RTA_ENCAP [] []]) ++ encap_attrs addrs) with ([] ++ Attr RTA_ENCAP [] [] :: encap_attrs addrs) in H2.
  assert (Hin : Z.of_nat (length (encs (encap_attrs addrs))) = 20 + 16 * n).
  { unfold encap_attrs. cbn [encs flat_map]. rewrite app_nil_r, length_app, !enc_length. cbn [a_data a_pad]. pose proof (srh_of_length addrs Haddrs). rewrite le_length. cbn [length]. unfold n. lia. }
  unfold rta_nest_end. destruct (set_rta_len_ok _ _ _ _ _ _ H2) as (m3 & E3 & H3 & Hm3); [rewrite Hin; unfold n; lia|].
  change (RTA_ALIGN 4) with 4. replace (Z.of_nat (length (take 4 stack ++ encs []))) with 4 in E3 by (rewrite length_app, length_take, Hs; done).
  rewrite E3. cbn [mbind option_bind nb_len nb_mem app] in *. unfold rta_addattr16.
  destruct (rta_addattr_l_ok _ _ _ 1024 RTA_ENCAP_TYPE (le 2 LWTUNNEL_ENCAP_SEG6_LOCAL) H3) as (pad & m4 & E4 & H4 & _); [done|done| |done|].
  { cbn [nb_len nb_mem]. rewrite Hm3, Hm2. change (RTA_SPACE _) with 8. unfold n. lia. }
  rewrite E4. cbn [mbind option_bind nb_len] in *. change (RTA_SPACE (Z.of_nat (length (le 2 LWTUNNEL_ENCAP_SEG6_LOCAL)))) with 8 in *.
  replace (28 + 16 * n + 8) with (36 + 16 * n) in * by lia. exists m4, pad. split; [done|exact H4].
Qed.
End message.

Definition route_attrs (dst : in6_addr) (idx tid : Z) (addrs : list in6_addr) (pad : list Z) : list attr :=
  [Attr RTA_DST dst []; Attr RTA_OIF (le 4 idx) []] ++ (if tid <? 256 then [] else [Attr RTA_TABLE (le 4 tid) []]) ++
  [Attr RTA_ENCAP (encs (encap_attrs addrs)) []; Attr RTA_ENCAP_TYPE (le 2 LWTUNNEL_ENCAP_SEG6_LOCAL) pad].

Lemma header_dst_len f d t x rest : bwrite (req_header f d t ++ rest) 17 [x] = Some (req_header f x t ++ rest).
Proof.
  exact (bwrite_app (le 4 28 ++ le 2 RTM_NEWROUTE ++ le 2 f ++ le 4 0 ++ le 4 0 ++ [AF_INET6]) [d] [x]
    ([0; 0; t; RTPROT_BOOT; RT_SCOPE_UNIVERSE; RTN_UNICAST] ++ le 4 0 ++ rest) eq_refl).
Qed.

Lemma header_table f d t x rest : bwrite (req_header f d t ++ rest) 20 [x] = Some (req_header f d x ++ rest).
Proof.
  exact (bwrite_app (le 4 28 ++ le 2 RTM_NEWROUTE ++ le 2 f ++ le 4 0 ++ le 4 0 ++ [AF_INET6; d; 0; 0]) [t] [x]
    ([RTPROT_BOOT; RT_SCOPE_UNIVERSE; RTN_UNICAST] ++ le 4 0 ++ rest) eq_refl).
Qed.

Lemma holds_table b f d t x l : holds b (req_header f d t) l ->
  exists mem, bwrite (nb_mem b) 20 [x] = Some mem /\ holds (NlBuf (nb_len b) mem) (req_header f d x) l /\ length mem = length (nb_mem b).
Proof.
  intros [Hok Hl Hh [rest Hm]]. rewrite Hm, header_table. eexists. split; [done|]. split; [|by rewrite !length_app].
  split; [done|exact Hl|done|by exists rest].
Qed.

Section route.
Context (pton : string -> option in6_addr) (ntop : in6_addr -> string) `{!InetLaws pton ntop} (if_nametoindex : string -> Z).

Definition route_flags (new : bool) : Z := Z.lor NLM_F_REQUEST (if new then Z.lor NLM_F_CREATE NLM_F_EXCL else NLM_F_REPLACE).
Definition route_table (tid : Z) : Z := if tid <? 256 then tid else RT_TABLE_UNSPEC.

(** Appending to the request, padding empty. *)
Lemma req_append b hdr l type data :
  holds b hdr l -> length (nb_mem b) = 1052%nat -> 0 <= type < 2 ^ 16 -> Z.of_nat (length data) mod 4 = 0 ->
  nb_len b + (4 + Z.of_nat (length data)) <= 1052 ->
  exists mem, addattr_l b 1052 type data = Some (0, NlBuf (nb_len b + (4 + Z.of_nat (length data))) mem) /\
    holds (NlBuf (nb_len b + (4 + Z.of_nat (length data))) mem) hdr (l ++ [Attr type data []]) /\ length mem = 1052%nat.
Proof.
  intros Hb Hm Ht Hd Hf. pose proof (ho_len _ _ _ Hb) as Hl.
  destruct (addattr_l_ok b hdr l 1052 type data Hb Ht) as (pad & mem & E & H & HL); rewrite ?Hm, ?RTA_SPACE_id in * by done; [lia..|].
  exists mem. split_and!; [done| |done]. enough (pad = []) as -> by done.
  pose proof (ho_ok _ _ _ H) as Hok. apply Forall_app in Hok as [_ Hok]. apply Forall_cons in Hok as [Ha _]. exact (aligned_pad _ Ha Hd).
Qed.

(** The table of the route, in the header or as an attribute. *)
Lemma table_ok b f l tid : holds b (req_header f 128 RT_TABLE_MAIN) l -> length (nb_mem b) = 1052%nat -> nb_len b = 56 ->
  exists n, (if tid <? 256 then mem ← bwrite (nb_mem b) 20 [tid]; Some (NlBuf (nb_len b) mem)
             else mem ← bwrite (nb_mem b) 20 [RT_TABLE_UNSPEC]; '(_, n) ← addattr32 (NlBuf (nb_len b) mem) 1052 RTA_TABLE tid; Some n) = Some n /\
    holds n (req_header f 128 (route_table tid)) (l ++ if tid <? 256 then [] else [Attr RTA_TABLE (le 4 tid) []]) /\
    length (nb_mem n) = 1052%nat /\ nb_len n <= 64.
Proof.
  intros Hb Hm Hl. destruct (holds_table b f 128 RT_TABLE_MAIN (route_table tid) l Hb) as (mem & E & Hb' & Hm').
  unfold route_table in *. destruct (tid <? 256); rewrite E; cbn [mbind option_bind].
  - eexists. split; [done|]. rewrite app_nil_r. cbn [nb_mem nb_len]. split_and!; [done|lia|lia].
  - unfold addattr32. destruct (req_append _ _ _ RTA_TABLE (le 4 tid) Hb') as (m2 & -> & H2 & Hm2); [cbn; lia|done|by rewrite le_length|rewrite le_length; cbn; lia|].
    cbn [mbind option_bind]. eexists. split; [done|]. cbn [nb_mem nb_len]. rewrite le_length in *. split_and!; [done|done|lia].
Qed.

Lemma modify_route_ok talk stack dst_str dst dev tid addrs new :
  pton dst_str = Some dst -> is_addr dst -> if_nametoindex dev <> 0 -> Forall is_addr addrs -> (0 < length addrs <= 57)%nat -> length stack = 1024%nat ->
  exists pad, let l := route_attrs dst (if_nametoindex dev) tid addrs pad in let len := Z.of_nat (28 + length (encs l)) in Forall attr_ok l /\ len <= 1024 /\
    modify_route pton if_nametoindex talk stack dst_str dev tid (join (map ntop addrs)) new =
      Some (if talk <? 0 then -1 else 0, Some (le 4 len ++ drop 4 (req_header (route_flags new) 128 (route_table tid)) ++ encs l)).
Proof.
  intros Hd Hda Hidx Ha Hn Hs. unfold modify_route. rewrite Hd, header_dst_len. cbn [mbind option_bind].
  fold (route_flags new). change (16 + 12 + 1024) with 1052. set (f := route_flags new). destruct Hda as [Hda _].
  assert (H0 : holds (NlBuf 28 (req_header f 128 RT_TABLE_MAIN ++ replicate 1024 0)) (req_header f 128 RT_TABLE_MAIN) []) by (split; [done|done|done|by exists (replicate 1024 0)]).
  destruct (req_append _ _ _ RTA_DST dst H0) as (m1 & -> & H1 & Hm1); [cbn [nb_mem]; by rewrite length_app, length_replicate|done|by rewrite Hda|rewrite Hda; cbn; lia|].
  cbn [mbind option_bind]. destruct (Z.eqb_spec (if_nametoindex dev) 0) as [|_]; [done|]. unfold addattr32.
  destruct (req_append _ _ _ RTA_OIF (le 4 (if_nametoindex dev)) H1 Hm1) as (m2 & -> & H2 & Hm2); [done|by rewrite le_length|rewrite le_length, Hda; cbn; lia|].
  cbn [mbind option_bind nb_len] in *. rewrite le_length, Hda in *. change (28 + (4 + Z.of_nat 16) + (4 + Z.of_nat 4)) with 56 in *.
  destruct (table_ok _ _ _ tid H2 Hm2 eq_refl) as (b3 & E3 & H3 & Hm3 & Hl3). unfold addattr32 in E3. cbn [nb_mem nb_len] in E3 |- *. rewrite E3. cbn [mbind option_bind].
  destruct (lwt_encap_ok pton ntop addrs Ha Hn stack Hs) as (m4 & pad & -> & H4). cbn [mbind option_bind]. change (negb (0 =? 0)) with false. cbn match.
  pose proof (holds_bytes _ _ _ H4) as HB4. cbn [nb_len nb_mem] in *. rewrite HB4. pose proof (ho_len _ _ _ H4) as HL4. cbn [nb_len] in HL4.
  replace (RTA_LENGTH 0 <? 36 + _) with true by (symmetry; apply Z.ltb_lt; change (RTA_LENGTH 0) with 4; lia).
  assert (Ht4 : length (take 4 stack) = 4%nat) by (rewrite length_take; lia).
  rewrite drop_app_ge, Ht4, Nat.sub_diag, drop_0 by lia.
  destruct (addraw_l_ok _ _ _ 1024 _ H3 (ho_ok _ _ _ H4)) as (m5 & -> & H5 & _); [rewrite length_app, Ht4 in HL4; lia|].
  cbn [mbind option_bind]. exists pad.
  cbn zeta. unfold route_attrs. rewrite <- (assoc_L (++)) in H5. cbn [app] in H5 |- *. pose proof (ho_len _ _ _ H5) as HL5. cbn [nb_len] in HL5. rewrite length_app in HL5.
  change (length (req_header f 128 (route_table tid))) with 28%nat in HL5. split; [apply H5|]. rewrite <- HL5.
  split; [rewrite length_app, Ht4 in HL4; lia|]. unfold nl_message. cbn [nb_len nb_mem].
  pose proof (holds_bytes _ _ _ H5) as HB5. cbn [nb_len nb_mem] in HB5. rewrite HB5, drop_app_le by (cbn; lia). done.
Qed.
End route.

(** ** What the kernel is asked *)

Definition RTA_MAX := 30.
Definition SEG6_LOCAL_MAX := 8.

(** The message read with the routines of libnetlink: a new (or replaced)
    route to the host [dst] through device [idx] in table [tid] whose action
    is to encapsulate with a header that visits [addrs] in order. *)
Record route_request (msg : list Z) (new : bool) (dst : in6_addr) (idx tid : Z) (addrs : list in6_addr) : Prop := {
  kr_len : of_le (take 4 msg) = Z.of_nat (length msg);
  kr_header : take 24 (drop 4 msg) = drop 4 (req_header (route_flags new) 128 (route_table tid));
  kr_dst : parse_rtattr RTA_MAX (drop 28 msg) !! RTA_DST = Some dst;
  kr_oif : parse_rtattr RTA_MAX (drop 28 msg) !! RTA_OIF = Some (le 4 idx);
  kr_table : parse_rtattr RTA_MAX (drop 28 msg) !! RTA_TABLE = if tid <? 256 then None else Some (le 4 tid);
  kr_type : parse_rtattr RTA_MAX (drop 28 msg) !! RTA_ENCAP_TYPE = Some (le 2 LWTUNNEL_ENCAP_SEG6_LOCAL);
  kr_encap : exists e, parse_rtattr RTA_MAX (drop 28 msg) !! RTA_ENCAP = Some e /\
    parse_rtattr SEG6_LOCAL_MAX e !! SEG6_LOCAL_ACTION = Some (le 4 SEG6_LOCAL_ACTION_END_B6_ENCAP) /\
    parse_rtattr SEG6_LOCAL_MAX e !! SEG6_LOCAL_SRH = Some (srh_of addrs)
}.

Lemma encap_attrs_ok addrs : Forall is_addr addrs -> (length addrs <= 57)%nat -> Forall attr_ok (encap_attrs addrs).
Proof.
  intros Ha Hn. pose proof (srh_of_length addrs Ha) as Hl. unfold encap_attrs. repeat constructor; cbn [a_type a_data a_pad length]; try done; rewrite ?Hl; try lia.
  rewrite Nat.add_0_r, Hl, RTA_ALIGN_id; [done|]. Z.to_euclidean_division_equations; lia.
Qed.

Section requests.
Context (pton : string -> option in6_addr) (ntop : in6_addr -> string) `{!InetLaws pton ntop} (if_nametoindex : string -> Z).

Lemma modify_route_request talk stack dst_str dst dev tid addrs new :
  pton dst_str = Some dst -> is_addr dst -> if_nametoindex dev <> 0 -> Forall is_addr addrs -> (0 < length addrs <= 57)%nat -> length stack = 1024%nat ->
  exists msg, modify_route pton if_nametoindex talk stack dst_str dev tid (join (map ntop addrs)) new = Some (if talk <? 0 then -1 else 0, Some msg) /\
    route_request msg new dst (if_nametoindex dev) tid addrs.
Proof.
  intros Hd Hda Hidx Ha Hn Hs. destruct (modify_route_ok pton ntop if_nametoindex talk stack dst_str dst dev tid addrs new) as (pad & Hok & Hlen & ->); [done..|].
  eexists. split; [done|]. set (l := route_attrs _ _ _ _ _) in *. set (len := Z.of_nat (28 + length (encs l))) in *.
  set (hdr := drop 4 (req_header (route_flags new) 128 (route_table tid))). assert (Hh : length hdr = 24%nat) by done.
  assert (Hb : drop 28 (le 4 len ++ hdr ++ encs l) = encs l).
  { rewrite (assoc_L (++)), drop_app_ge by (rewrite length_app, le_length, Hh; lia). by rewrite length_app, le_length, Hh, Nat.sub_diag, drop_0. }
  assert (Ht : forall t, t <= RTA_MAX -> parse_rtattr RTA_MAX (encs l) !! t = first_attr l t).
  { intros t H. rewrite parse_rtattr_encs by done. by replace (t <=? RTA_MAX) with true by (symmetry; apply Z.leb_le; lia). }
  split; rewrite ?Hb, ?Ht by done.
  - rewrite take_app_le, take_ge by (rewrite le_length; lia). rewrite !length_app, le_length, Hh. apply of_le_le. unfold len in *. change (256 ^ Z.of_nat 4) with (2 ^ 32). lia.
  - rewrite drop_app_ge by (rewrite le_length; lia). rewrite le_length, Nat.sub_diag, drop_0, <- Hh. apply take_app_length.
  - done.
  - done.
  - unfold l, route_attrs. by destruct (tid <? 256).
  - unfold l, route_attrs. by destruct (tid <? 256).
  - exists (encs (encap_attrs addrs)). split; [unfold l, route_attrs; by destruct (tid <? 256)|].
    rewrite !parse_rtattr_encs by (apply encap_attrs_ok; [done|lia]). done.
Qed.
End requests.

(** ** Installing the segment lists of a flow *)

Section install.
Context {J : Jansson} {T : JanssonText J} `{!JanssonLaws J} `{!JanssonTextLaws J T}.
Context (pton : string -> option in6_addr) (ntop : in6_addr -> string) `{!InetLaws pton ntop}.
Context (if_nametoindex : string -> Z) (cfg : config) (talk : Z) (stack : list Z).

(** The daemon runs with an existing device; address texts are UTF-8. *)
Record routed_ok : Prop := {
  ro_stack : length stack = 1024%nat;
  ro_dev : if_nametoindex (ingress_iface cfg) <> 0;
  ro_utf8 : forall a, is_addr a -> is_Some (json_string (ntop a))
}.
Context (R : routed_ok).

Definition texts_json (addrs : list in6_addr) : json := json_array_of (map (fun a => json_string (ntop a)) addrs).

(** The text of the list fits the buffer. *)
Definition seglist_ok (addrs : list in6_addr) : Prop :=
  Forall is_addr addrs /\ addrs <> [] /\ (String.length (join (map ntop addrs)) <= SLEN)%nat.

Lemma join_length addrs : Forall is_addr addrs -> (3 * length addrs <= String.length (join (map ntop addrs)) + 1)%nat.
Proof.
  induction addrs as [|a l IH]; intros H; [cbn; lia|]. apply Forall_cons in H as [Ha Hl]. specialize (IH Hl). pose proof (il_length a Ha) as H2.
  destruct l as [|b l]; [cbn [map join length]; lia|]. change (map ntop (a :: b :: l)) with (ntop a :: ntop b :: map ntop l). rewrite join_cons, slength_app.
  change (ntop b :: map ntop l) with (map ntop (b :: l)). cbn [length String.length] in *. lia.
Qed.

Lemma seglist_length addrs : seglist_ok addrs -> (0 < length addrs <= 57)%nat.
Proof. intros (Ha & Hne & Hl). pose proof (join_length addrs Ha). unfold SLEN in Hl. destruct addrs; [done|]. cbn [length] in *. lia. Qed.

Lemma array_elems_array l : array_elems (json_array l) = l.
Proof.
  unfold array_elems. rewrite jl_array_size. rewrite (list_omap_ext _ (fun i => l !! i) _ (seq 0 (length l))).
  - induction l as [|x l IH] using rev_ind; [done|]. rewrite length_app. cbn [length]. rewrite seq_app, omap_app. cbn [seq omap list_omap].
    rewrite Nat.add_0_l, lookup_app_r, Nat.sub_diag by lia. cbn [lookup list_lookup]. f_equal. etransitivity; [|exact IH].
    apply list_omap_ext, Forall_Forall2_diag, Forall_seq. intros i Hi. apply lookup_app_l. lia.
  - apply Forall_Forall2_diag, Forall_seq. intros i _. apply jl_array_get.
Qed.

Lemma texts_json_elems addrs : Forall is_addr addrs ->
  exists js, texts_json addrs = json_array js /\ Forall2 (fun j s => json_string_value j = Some s) js (map ntop addrs).
Proof.
  intros Ha. unfold texts_json, json_array_of. eexists. split; [done|]. induction Ha as [|a l Ha _ IH]; [constructor|].
  destruct (ro_utf8 R a Ha) as [j Hj]. cbn [map omap list_omap id]. rewrite Hj. constructor; [by apply jl_string|exact IH].
Qed.

Lemma add_fib_entry_ok b addrs : is_addr b -> seglist_ok addrs ->
  exists msg, add_fib_entry pton if_nametoindex ntop cfg talk stack (Route b (join (map ntop addrs))) = Some (Some msg) /\
    route_request msg true b (if_nametoindex (ingress_iface cfg)) (localsid cfg) addrs.
Proof.
  intros Hb Hl. pose proof (seglist_length _ Hl) as Hn. destruct Hl as (Ha & _ & _). unfold add_fib_entry, exec_route_add_encap, add_route. cbn [rt_bsid rt_segs].
  destruct (modify_route_request pton ntop if_nametoindex talk stack (ntop b) b (ingress_iface cfg) (localsid cfg) addrs true) as (msg & -> & H);
    [by apply il_roundtrip|done|apply R|done|done|apply R|]. by exists msg.
Qed.

(** The routes and the requests of the lists [lls] under the binding segments [bs]. *)
Definition install_routes (rts : routes) (bls : list (in6_addr * list in6_addr)) : routes :=
  foldl (fun r bl => aset r bl.1 (Route bl.1 (join (map ntop bl.2)))) rts bls.
Definition requested (msg : list Z) (bl : in6_addr * list in6_addr) : Prop :=
  route_request msg true bl.1 (if_nametoindex (ingress_iface cfg)) (localsid cfg) bl.2.

Lemma print_texts addrs buf : seglist_ok addrs -> print_segs (array_elems (texts_json addrs)) buf 0 = Some (Some (join (map ntop addrs))).
Proof.
  intros (Ha & Hne & Hl). destruct (texts_json_elems addrs Ha) as (js & -> & Hjs). rewrite array_elems_array.
  rewrite (print_segs_text js (map ntop addrs)); [|done|by intros ->; apply Forall2_nil_inv_l in Hjs; destruct addrs].
  unfold join_before. replace (_ <=? _)%nat with true by (symmetry; apply Nat.leb_le; lia). by rewrite stake_all.
Qed.

Lemma read_lists_ok bsids bls : forall i buf rts,
  Forall (fun bl => is_addr bl.1 /\ seglist_ok bl.2) bls ->
  (forall k bl, bls !! k = Some bl -> exists j, json_array_get bsids (i + k) = Some j /\ json_string_value j = Some (ntop bl.1)) ->
  exists msgs, read_lists pton if_nametoindex ntop cfg talk stack bsids i (map (fun bl => texts_json bl.2) bls) buf rts =
    Some (install_routes rts bls, map Some msgs) /\ Forall2 requested msgs bls.
Proof.
  induction bls as [|[b l] bls IH]; intros i buf rts Hok Hb; [by exists []|]. apply Forall_cons in Hok as [[Hba Hl] Hok]. cbn [fst snd] in *.
  destruct (Hb O (b, l) eq_refl) as (j & Hj & Hv). rewrite Nat.add_0_r in Hj. cbn [fst] in Hv. cbn [map read_lists snd].
  rewrite Hj. cbn [mbind option_bind]. rewrite Hv. cbn [mbind option_bind]. rewrite il_roundtrip by done. cbn [mbind option_bind].
  rewrite print_texts by done. cbn [mbind option_bind]. destruct (add_fib_entry_ok b l Hba Hl) as (msg & -> & Hm). cbn [mbind option_bind].
  destruct (IH (S i) (Some (join (map ntop l))) (aset rts b (Route b (join (map ntop l)))) Hok) as (msgs & -> & Hms).
  { intros k bl Hk. destruct (Hb (S k) bl Hk) as (j' & Hj' & Hv'). exists j'. by rewrite Nat.add_succ_comm. }
  exists (msg :: msgs). split; [done|by constructor].
Qed.

Lemma bsids_elems (bls : list (in6_addr * list in6_addr)) : Forall (fun bl => is_addr bl.1 /\ seglist_ok bl.2) bls ->
  exists js, texts_json (map fst bls) = json_array js /\
    forall k bl, bls !! k = Some bl -> exists j, json_array_get (json_array js) (0 + k) = Some j /\ json_string_value j = Some (ntop bl.1).
Proof.
  intros Hok. destruct (texts_json_elems (map fst bls)) as (js & Hjs & Hv); [apply Forall_map; eapply Forall_impl; [exact Hok|]; by intros bl [? _]|].
  exists js. split; [done|]. intros k bl Hk. assert (map ntop (map fst bls) !! k = Some (ntop bl.1)) as Hk' by (by rewrite !list_lookup_fmap, Hk).
  destruct (Forall2_lookup_r _ _ _ _ _ Hv Hk') as (j & Hj & Hvj). exists j. by rewrite jl_array_get.
Qed.

Lemma update_fib_entry_ok b addrs : is_addr b -> seglist_ok addrs ->
  exists msg, update_fib_entry pton if_nametoindex ntop cfg talk stack (Route b (join (map ntop addrs))) = Some (Some msg) /\
    route_request msg false b (if_nametoindex (ingress_iface cfg)) (localsid cfg) addrs.
Proof.
  intros Hb Hl. pose proof (seglist_length _ Hl) as Hn. destruct Hl as (Ha & _ & _). unfold update_fib_entry, exec_route_change_encap, change_route. cbn [rt_bsid rt_segs].
  destruct (modify_route_request pton ntop if_nametoindex talk stack (ntop b) b (ingress_iface cfg) (localsid cfg) addrs false) as (msg & -> & H);
    [by apply il_roundtrip|done|apply R|done|done|apply R|]. by exists msg.
Qed.

Definition replaced (msg : list Z) (bl : in6_addr * list in6_addr) : Prop :=
  route_request msg false bl.1 (if_nametoindex (ingress_iface cfg)) (localsid cfg) bl.2.

(** Every route of the table goes to the key it is stored under. *)
Definition routes_keyed (rts : routes) : Prop := forall b rt, is_addr b -> aget rts b = Some rt -> rt_bsid rt = b.
Definition known (rts : routes) (bl : in6_addr * list in6_addr) : bool := match aget rts bl.1 with Some _ => true | None => false end.

Lemma aget_aset_addr (rts : routes) a b rt : is_addr a -> is_addr b -> aget (aset rts a rt) b = if bool_decide (a = b) then Some rt else aget rts b.
Proof.
  intros [Ha _] [Hb _]. rewrite aget_aset. change (Hashmap.compare a b) with (compare_in6 a b).
  destruct (Z.eqb_spec (compare_in6 a b) 0) as [E|E]; case_bool_decide as E'; [done|by destruct E'; apply compare_in6_eq|subst b; destruct E; by apply memcmp_0|done].
Qed.

Lemma update_lists_ok bsids bls : forall i buf rts,
  Forall (fun bl => is_addr bl.1 /\ seglist_ok bl.2) bls -> routes_keyed rts ->
  (forall k bl, bls !! k = Some bl -> exists j, json_array_get bsids (i + k) = Some j /\ json_string_value j = Some (ntop bl.1)) ->
  exists msgs, update_lists pton if_nametoindex ntop cfg talk stack (Some bsids) i (map (fun bl => texts_json bl.2) bls) buf rts =
    Some (install_routes rts (List.filter (known rts) bls), map Some msgs) /\ Forall2 replaced msgs (List.filter (known rts) bls).
Proof.
  induction bls as [|[b l] bls IH]; intros i buf rts Hok Hk Hb; [by exists []|]. apply Forall_cons in Hok as [[Hba Hl] Hok]. cbn [fst snd] in *.
  destruct (Hb O (b, l) eq_refl) as (j & Hj & Hv). rewrite Nat.add_0_r in Hj. cbn [fst] in Hv. cbn [map update_lists snd mbind option_bind List.filter].
  rewrite Hj. cbn [mbind option_bind]. rewrite Hv. cbn [mbind option_bind]. rewrite il_roundtrip by done. cbn [mbind option_bind].
  assert (Hnext : forall k bl, bls !! k = Some bl -> exists j, json_array_get bsids (S i + k) = Some j /\ json_string_value j = Some (ntop bl.1)).
  { intros k bl Hk'. destruct (Hb (S k) bl Hk') as (j' & Hj' & Hv'). exists j'. by rewrite Nat.add_succ_comm. }
  assert (Hkn : known rts (b, l) = match aget rts b with Some _ => true | None => false end) by done.
  destruct (aget rts b) as [rt|] eqn:Hg; rewrite !Hkn; [|by apply IH].
  rewrite print_texts by done. cbn [mbind option_bind]. rewrite (Hk b rt Hba Hg).
  destruct (update_fib_entry_ok b l Hba Hl) as (msg & -> & Hm). cbn [mbind option_bind]. set (rt' := Route b (join (map ntop l))).
  assert (Hsame : List.filter (known (aset rts b rt')) bls = List.filter (known rts) bls).
  { apply List.filter_ext_in. intros bl Hin. unfold known. apply list_elem_of_In in Hin. rewrite Forall_forall in Hok. destruct (Hok bl Hin) as [Hbl _].
    rewrite aget_aset_addr by done. case_bool_decide; [subst; by rewrite Hg|done]. }
  destruct (IH (S i) (Some (join (map ntop l))) (aset rts b rt') Hok) as (msgs & -> & Hms); [|done|].
  - intros b' r Hb' Hg'. rewrite aget_aset_addr in Hg' by done. case_bool_decide; [by simplify_eq|by eapply Hk].
  - rewrite Hsame in *. exists (msg :: msgs). split; [done|by constructor].
Qed.

Lemma update_flowstate_ok fe fmask bls rts :
  streq (fe_router fe) (router_name cfg) = true -> Z.testbit fmask FE_SEGMENTS = true -> routes_keyed rts ->
  Forall (fun bl => is_addr bl.1 /\ seglist_ok bl.2) bls ->
  fe_segments fe = Some (json_dumps (json_array (map (fun bl => texts_json bl.2) bls))) -> fe_bsid fe = Some (json_dumps (texts_json (map fst bls))) ->
  exists msgs, update_flowstate pton if_nametoindex ntop cfg talk stack fe fmask rts =
    Some (install_routes rts (List.filter (known rts) bls), map Some msgs) /\ Forall2 replaced msgs (List.filter (known rts) bls).
Proof.
  intros Hr Hmask Hk Hok Hs Hb. unfold update_flowstate. rewrite Hr, Hs, Hb. cbn [negb mbind option_bind]. rewrite jl_loads.
  rewrite <- mask_test in Hmask by done. apply negb_true_iff in Hmask. rewrite Hmask.
  destruct (bsids_elems bls Hok) as (js & Hjs & Hv). rewrite Hjs, jl_loads, array_elems_array. by apply update_lists_ok.
Qed.

Lemma read_flowstate_ok fe bls rts :
  streq (fe_router fe) (router_name cfg) = true -> Forall (fun bl => is_addr bl.1 /\ seglist_ok bl.2) bls ->
  fe_segments fe = Some (json_dumps (json_array (map (fun bl => texts_json bl.2) bls))) -> fe_bsid fe = Some (json_dumps (texts_json (map fst bls))) ->
  exists msgs, read_flowstate pton if_nametoindex ntop cfg talk stack fe rts =
    Some (install_routes rts bls, map Some msgs, [status_op "FlowState" (fe_row fe) FLOW_STATUS_RUNNING]) /\ Forall2 requested msgs bls.
Proof.
  intros Hr Hok Hs Hb. unfold read_flowstate. rewrite Hr, Hs, Hb. cbn [negb mbind option_bind]. rewrite jl_loads.
  destruct (bsids_elems bls Hok) as (js & Hjs & Hv). rewrite Hjs, jl_loads, array_elems_array.
  destruct (read_lists_ok (json_array js) bls 0 None rts Hok Hv) as (msgs & -> & Hm). by exists msgs.
Qed.

(** The columns of a row of FlowState that the daemon reads. *)
Lemma fill_flow_row uuid line name segs bsid jn js jb :
  json_object_get line "router" = Some jn -> json_string_value jn = Some name ->
  json_object_get line "segments" = Some js -> json_string_value js = Some segs ->
  json_object_get line "bsid" = Some jb -> json_string_value jb = Some bsid ->
  exists e mask, fill_srdb_entry flowstate_desc_tmpl (calloc_entry srdb_flow_entry) uuid line = Some (e, mask) /\
    flowentry_of e = Some (FlowEntry (strncpy SLEN uuid) (strncpy SLEN name) (Some (strncpy BUFLEN segs)) (Some (strncpy BUFLEN bsid))).
Proof.
  intros Hn Hn' Hs Hs' Hb Hb'.
  destruct (fill_entry_ok flow_table uuid line ltac:(apply list_elem_of_In; simpl; auto)) as (e & mask & Hf & Hrow & Hcol & _). exists e, mask. split; [exact Hf|].
  assert (Hget : forall d j s, d ∈ drop 2 flowstate_desc_tmpl -> json_object_get line (d_name d) = Some j -> json_string_value j = Some s ->
    e !! d_offset d = match d_type d with SRDB_STR => Some (CBuf (S (d_maxlen d)) (strncpy (d_maxlen d) s))
      | SRDB_VARSTR => Some (CPtr (Some (strncpy (d_maxlen d) s))) | SRDB_INT => e !! d_offset d end).
  { intros d j s Hd Hj Hv. destruct (Hcol d Hd) as (c & _ & _ & Hc). unfold filled, str_value in Hc. rewrite Hj in Hc. cbn [mbind option_bind] in Hc. rewrite Hv in Hc.
    destruct (d_type d); [done|done|done]. }
  unfold flowentry_of, cell_str, cell_ptr.
  change (offsetof srdb_flow_entry "row") with (d_offset row_desc). rewrite Hrow. cbn [mbind option_bind].
  pose proof (Hget (Desc "router" SRDB_STR 10 SLEN false (offsetof srdb_flow_entry "router")) jn name ltac:(apply list_elem_of_In; simpl; auto 20) Hn Hn') as H1.
  pose proof (Hget (Desc "segments" SRDB_VARSTR 4 BUFLEN false (offsetof srdb_flow_entry "segments")) js segs ltac:(apply list_elem_of_In; simpl; auto 20) Hs Hs') as H2.
  pose proof (Hget (Desc "bsid" SRDB_VARSTR 3 BUFLEN false (offsetof srdb_flow_entry "bsid")) jb bsid ltac:(apply list_elem_of_In; simpl; auto 20) Hb Hb') as H3.
  cbn [d_offset d_type d_maxlen] in H1, H2, H3. rewrite H1, H2, H3. done.
Qed.
End install.

(** ** A concrete address text: 32 hexadecimal digits *)

Definition hexd (n : Z) : ascii := ascii_of_nat (Z.to_nat (if n <? 10 then 48 + n else 87 + n)).
Definition unhex (a : ascii) : Z := let n := Z.of_nat (nat_of_ascii a) in if n <? 58 then n - 48 else n - 87.

Fixpoint hex_text (l : list Z) : string :=
  match l with [] => "" | b :: l => String (hexd (b / 16)) (String (hexd (b mod 16)) (hex_text l)) end.
Fixpoint text_hex (s : string) : list Z :=
  match s with String a (String b s) => 16 * unhex a + unhex b :: text_hex s | _ => [] end.

(** One-letter texts are the addresses of the small network of [Netstate]. *)
Definition hex_pton (s : string) : option in6_addr := if (String.length s =? 32)%nat then Some (text_hex s) else demo_pton s.

Lemma hexd_ok n : 0 <= n < 16 -> unhex (hexd n) = n /\ Ascii.eqb (hexd n) COMMA = false /\ Ascii.eqb (hexd n) NUL = false.
Proof.
  intros H. assert (n ∈ seqZ 0 16) as Hin by (apply elem_of_seqZ; lia).
  assert (Forall (fun n => unhex (hexd n) = n /\ Ascii.eqb (hexd n) COMMA = false /\ Ascii.eqb (hexd n) NUL = false) (seqZ 0 16)) as HF by by vm_compute; repeat constructor.
  exact (proj1 (Forall_forall _ _) HF n Hin).
Qed.

Lemma hex_text_ok l : Forall (fun b => 0 <= b < 256) l ->
  text_hex (hex_text l) = l /\ count_char COMMA (hex_text l) = O /\ count_char NUL (hex_text l) = O /\ String.length (hex_text l) = (2 * length l)%nat.
Proof.
  induction 1 as [|b l Hb _ (IH1 & IH2 & IH3 & IH4)]; [done|]. cbn [hex_text text_hex count_char String.length length].
  assert (0 <= b / 16 < 16) as H1 by (split; [apply Z.div_pos; lia|apply Z.div_lt_upper_bound; lia]).
  assert (0 <= b mod 16 < 16) as H2 by (apply Z.mod_pos_bound; lia).
  destruct (hexd_ok _ H1) as (-> & -> & ->), (hexd_ok _ H2) as (-> & -> & ->). rewrite IH1, IH2, IH3, IH4. split_and!; [|done|done|lia].
  f_equal. pose proof (Z.div_mod b 16). lia.
Qed.

#[global] Instance hex_inet : InetLaws hex_pton hex_text.
Proof.
  split; intros a [Hl Hb]; destruct (hex_text_ok a Hb) as (H1 & H2 & H3 & H4); [|done|done|rewrite H4, Hl; lia].
  unfold hex_pton. rewrite H4, Hl, H1. done.
Qed.

(** ** Main results *)

(** What [modify_route] sends for a binding segment and the text of 1 to
    57 segments is a well-formed message: read back with [parse_rtattr] it
    asks for a new (or replaced) host route through the device in the table,
    whose End.B6.Encaps action carries a segment routing header that lists
    the segments last to first with the first one active.  Neither the
    request nor the scratch buffer is written out of bounds. *)
Theorem route_message_decodes (pton : string -> option in6_addr) (ntop : in6_addr -> string) (L : InetLaws pton ntop) (if_nametoindex : string -> Z)
    (talk : Z) (stack : list Z) (dst : in6_addr) (dev : string) (tid : Z) (addrs : list in6_addr) (new : bool) :
  is_addr dst -> if_nametoindex dev <> 0 -> Forall is_addr addrs -> (0 < length addrs <= 57)%nat -> length stack = 1024%nat ->
  exists msg, modify_route pton if_nametoindex talk stack (ntop dst) dev tid (join (map ntop addrs)) new = Some (if talk <? 0 then -1 else 0, Some msg) /\
    route_request msg new dst (if_nametoindex dev) tid addrs.
Proof. intros Hd. apply modify_route_request; [done| |done]. by apply il_roundtrip. Qed.

Definition addr_n (n : Z) : in6_addr := replicate 15 0 ++ [n].
Definition one_dev (dev : string) : Z := if streq dev "eth0" then 2 else 0.

Lemma route_message_witness :
  exists msg, modify_route hex_pton one_dev 0 (replicate 1024 170) (hex_text (addr_n 80)) "eth0" 1000 (join (map hex_text [addr_n 66; addr_n 67])) true =
      Some (if 0 <? 0 then -1 else 0, Some msg) /\
    route_request msg true (addr_n 80) (one_dev "eth0") 1000 [addr_n 66; addr_n 67].
Proof.
  apply (route_message_decodes hex_pton hex_text hex_inet one_dev 0 (replicate 1024 170) (addr_n 80) "eth0" 1000 [addr_n 66; addr_n 67] true);
    [split; [done|by repeat constructor]|done|repeat constructor; done|cbn; lia|apply length_replicate].
Defined.

(** The daemon prints a segment list into a buffer of 128 bytes.  As long
    as what precedes the last segment has at most 128 characters the buffer
    holds the first 127 characters of the text; beyond, the size argument of
    snprintf wraps around and the last segment is written past the end. *)
Theorem segs_buffer_bounds (J : Jansson) (js : list json) (ss : list string) (buf : option string) :
  Forall2 (fun j s => json_string_value j = Some s) js ss -> js <> [] ->
  print_segs js buf 0 = if (join_before ss <=? S SLEN)%nat then Some (Some (stake SLEN (join ss))) else None.
Proof. apply print_segs_text. Qed.

(** Five addresses of 32 characters. *)
Definition five_texts : list string := map hex_text (map addr_n [1; 2; 3; 4; 5]).

Lemma segs_buffer_witness : print_segs (map JStr five_texts) None 0 = None.
Proof.
  rewrite (segs_buffer_bounds tree_jansson (map JStr five_texts) five_texts None); [|repeat constructor|done]. reflexivity.
Defined.

(** *** From the request to the kernel *)

Lemma is_addr_bsid pb r : 0 <= p_len pb <= 128 -> is_addr (p_addr pb) -> is_addr r -> is_addr (bsid_of pb r).
Proof.
  intros Hp [Ha Ha'] [Hr Hr']. split; [by apply bsid_of_length|]. unfold bsid_of. apply Forall_app. by split; [apply Forall_take|repeat first [apply Forall_drop|apply Forall_take]].
Qed.

(** The published addresses and the random bytes are addresses; the source's
    router has a printable name. *)
Record published_ok {J : Jansson} (c : ctrl) (r1 : router) (pb : prefix) (rnd : list (list Z)) : Prop := {
  po_addrs : forall s a, segment_addr (c_ns c) s = Some a -> is_addr a;
  po_pbsid : is_addr (p_addr pb);
  po_rnd : Forall is_addr rnd;
  po_name : count_char NUL (rt_name r1) = O /\ (String.length (rt_name r1) <= SLEN)%nat /\ is_Some (json_string (rt_name r1))
}.

(** A list of segments short enough for the database column and for the
    daemon's buffer, for [n] providers. *)
Definition fits {J : Jansson} {T : JanssonText J} (ntop : in6_addr -> string) (addrs : list in6_addr) (bsid : in6_addr) (n : nat) : Prop :=
  seglist_ok ntop addrs /\ (String.length (json_dumps (segs_json ntop addrs n)) <= BUFLEN)%nat /\
  (String.length (json_dumps (bsids_json ntop bsid n)) <= BUFLEN)%nat.

Lemma cut_at_count c s : count_char c (cut_at c s) = O.
Proof. induction s as [|a s IH]; cbn [cut_at]; [done|]. destruct (Ascii.eqb a c) eqn:E; [done|]. cbn [count_char]. by rewrite E. Qed.

Section end_to_end.
Context {J : Jansson} {T : JanssonText J} `{!JanssonLaws J} `{!JanssonTextLaws J T}.
Context (pton : string -> option in6_addr) (ntop : in6_addr -> string) `{!InetLaws pton ntop}.
Context (if_nametoindex : string -> Z) (cfg : config) (talk : Z) (stack : list Z).

(** The row of a flow, reported to the daemon of its router. *)
Lemma flow_row_installs row line name addrs bsid n uuid rts :
  routed_ok ntop if_nametoindex cfg stack -> flow_row row name (segs_json ntop addrs n) (bsids_json ntop bsid n) ->
  (forall k, k ∈ ["router"; "segments"; "bsid"] -> json_object_get line k = json_object_get row k) ->
  count_char NUL name = O -> (String.length name <= SLEN)%nat -> is_Some (json_string name) -> router_name cfg = name ->
  is_addr bsid -> fits ntop addrs bsid n ->
  exists e mask fe msgs, fill_srdb_entry flowstate_desc_tmpl (calloc_entry srdb_flow_entry) uuid line = Some (e, mask) /\ flowentry_of e = Some fe /\
    read_flowstate pton if_nametoindex ntop cfg talk stack fe rts =
      Some (install_routes ntop rts (replicate n (bsid, addrs)), map Some msgs, [status_op "FlowState" (strncpy SLEN uuid) FLOW_STATUS_RUNNING]) /\
    Forall2 (requested if_nametoindex cfg) msgs (replicate n (bsid, addrs)).
Proof.
  intros R (Hs & Hb & Hr) Hline Hz Hl [jn Hn] Hcfg Hba (Hok & Hls & Hlb).
  assert (Hin : forall k, In k ["router"; "segments"; "bsid"] -> json_object_get line k = json_object_get row k) by (intros k Hk; by apply Hline, list_elem_of_In).
  rewrite <- Hin in Hs, Hb, Hr by (simpl; auto). rewrite strncpy_full, Hn in Hr by done.
  assert (Htext : forall l, (String.length (json_dumps (json_array l)) <= BUFLEN)%nat -> strncpy BUFLEN (json_dumps (json_array l)) = json_dumps (json_array l)).
  { intros l H. apply strncpy_full; [|done]. rewrite <- jl_dumps_nul. apply cut_at_count. }
  destruct (jl_dumps_utf8 (replicate n (texts_json ntop addrs))) as [vs Hvs].
  destruct (jl_dumps_utf8 (omap id (map (fun a => json_string (ntop a)) (replicate n bsid)))) as [vb Hvb].
  destruct (fill_flow_row uuid line name (json_dumps (segs_json ntop addrs n)) (json_dumps (bsids_json ntop bsid n)) jn vs vb) as (e & mask & Hf & He);
    [exact Hr|by apply jl_string|rewrite Hs; exact Hvs|by apply jl_string|rewrite Hb; exact Hvb|by apply jl_string|].
  rewrite (strncpy_full SLEN name) in He by done. unfold segs_json, bsids_json in He. rewrite (Htext (replicate n _)) in He by exact Hls.
  unfold json_array_of at 2 in He. rewrite Htext in He by exact Hlb.
  eexists e, mask, _. edestruct (read_flowstate_ok pton ntop if_nametoindex cfg talk stack R) as (msgs & Hread & Hm);
    [| | | |exists msgs; split_and!; [exact Hf|exact He|exact Hread|exact Hm]]; cbn [fe_router fe_segments fe_bsid].
  - rewrite Hcfg. by rewrite streq_eq, bool_decide_eq_true by done.
  - apply Forall_replicate. split; [exact Hba|exact Hok].
  - by rewrite fmap_replicate.
  - replace (map fst (replicate n (bsid, addrs))) with (replicate n bsid) by (by rewrite (fmap_replicate fst)). done.
Qed.
End end_to_end.

(** The answer of the controller to a request without demands: the row of the
    flow, and the addresses of segments that forward along a shortest path. *)
Lemma request_published (J : Jansson) (T : JanssonText J) (L : JanssonLaws J) (pton : string -> option in6_addr) (ntop : in6_addr -> string)
    c tp M req rule rt dstrt r1 r2 pb rnd now reply uuid q0 cost0 :
  ready pton c tp M req rule rt dstrt r1 r2 -> draws_ok c r1 pb rnd -> addrs_known (c_ns c) -> srdb_insert_result reply = Some (0, Some uuid) ->
  published_ok c r1 pb rnd ->
  let fl := new_flow pton c req rule rt dstrt in let g := ns_view (c_ns c) in let n := length (c_providers c) in
  f_bw fl = 0 -> f_delay fl = 0 -> walk g (rt_node_id r1) (rt_node_id r2) q0 cost0 ->
  exists c' row r segs q cost addrs, let bsid := bsid_of pb r in
    process_request pton ntop rnd now reply c req =
      Some (c', [DbInsert "FlowState" row; status_op "FlowReq" (rq_row req) REQ_STATUS_ALLOWED]) /\
    shortest g (rt_node_id r1) (rt_node_id r2) q cost /\ forwards g (rt_node_id r1) segs (rev q) (rt_node_id r2) /\
    mapM (segment_addr (c_ns c)) segs = Some addrs /\ Forall is_addr addrs /\ is_addr bsid /\
    flow_row row (rt_name r1) (segs_json ntop addrs n) (bsids_json ntop bsid n) /\ answer_row row (srcips_json ntop (c_providers c)) (strncpy SLEN (rq_reqid req)).
Proof.
  intros Hr D Ha Hrep [Po1 Po2 Po3 _] fl g n Hbw Hdelay Hw.
  pose proof (rd_rt _ _ _ _ _ _ _ _ _ _ Hr) as (_ & _ & Hn1). pose proof (rd_dstrt _ _ _ _ _ _ _ _ _ _ Hr) as (_ & _ & Hn2).
  destruct (flow_segpath_default (c_ns c) tp M (rd_ns _ _ _ _ _ _ _ _ _ _ Hr) (rd_bounds _ _ _ _ _ _ _ _ _ _ Hr) _ _ Hn1 Hn2)
    as [(segs & es & q & cst & Hs & Hq & Hf & Hin & _)|[_ Hno]]; [|by destruct (Hno q0 cost0)].
  destruct (request_installs pton ntop c tp M req rule rt dstrt r1 r2 pb rnd now reply uuid segs es Hr D Ha Hrep) as (c' & row & r & p & addrs & H);
    [fold fl; by rewrite Hbw, Hdelay|done|]. destruct H as (H1 & _ & _ & _ & _ & _ & Hrin & _ & Haddr & Hrow & Hans).
  assert (Forall is_addr addrs) as Hia.
  { apply Forall_forall. intros a Hin'. apply list_elem_of_lookup in Hin' as [i Hi]. apply mapM_Some in Haddr.
    destruct (Forall2_lookup_r _ _ _ _ _ Haddr Hi) as (s & _ & Hsa). by eapply Po1. }
  assert (is_addr (bsid_of pb r)) as Hib.
  { pose proof (dw_pb _ _ _ _ D) as (_ & Hp & _). apply is_addr_bsid; [done|done|]. rewrite Forall_forall in Po3. by apply Po3. }
  exists c', row, r, segs, q, cst, addrs. cbn zeta. by repeat (split; [done|]).
Qed.

(** C2. From the request to the kernel: a pending request that a rule allows,
    between published routers with a path and without bandwidth or delay
    demands, is answered ALLOWED with a row for the FlowState table; when the
    database reports that row to the daemon of the source's router, and its
    texts fit, the daemon asks the kernel, for each provider, to encapsulate
    what is sent to the flow's binding segment with the addresses of
    segments that make the network forward along a shortest path, records the
    routes and sets the flow RUNNING. *)
Theorem request_reaches_kernel (J : Jansson) (T : JanssonText J) (L : JanssonLaws J) (LT : JanssonTextLaws J T)
    (pton : string -> option in6_addr) (ntop : in6_addr -> string) (LI : InetLaws pton ntop)
    (c : ctrl) (tp : topo) (M : Z) (req : flowreq) (rule : rule) (rt dstrt : Z) (r1 r2 : router)
    (pb : prefix) (rnd : list (list Z)) (now : Z) (reply : option json) (uuid : string)
    (if_nametoindex : string -> Z) (cfg : config) (talk : Z) (stack : list Z) (q0 : list Z) (cost0 : Z) :
  ready pton c tp M req rule rt dstrt r1 r2 -> draws_ok c r1 pb rnd -> addrs_known (c_ns c) -> srdb_insert_result reply = Some (0, Some uuid) ->
  published_ok c r1 pb rnd -> routed_ok ntop if_nametoindex cfg stack -> router_name cfg = rt_name r1 ->
  let fl := new_flow pton c req rule rt dstrt in let g := ns_view (c_ns c) in let n := length (c_providers c) in
  f_bw fl = 0 -> f_delay fl = 0 -> walk g (rt_node_id r1) (rt_node_id r2) q0 cost0 ->
  exists c' row r segs q cost addrs, let bsid := bsid_of pb r in
    process_request pton ntop rnd now reply c req =
      Some (c', [DbInsert "FlowState" row; status_op "FlowReq" (rq_row req) REQ_STATUS_ALLOWED]) /\
    shortest g (rt_node_id r1) (rt_node_id r2) q cost /\ forwards g (rt_node_id r1) segs (rev q) (rt_node_id r2) /\
    mapM (segment_addr (c_ns c)) segs = Some addrs /\ Forall is_addr addrs /\ is_addr bsid /\
    (fits ntop addrs bsid n -> forall line rts, (forall k, k ∈ ["router"; "segments"; "bsid"] -> json_object_get line k = json_object_get row k) ->
     exists e mask fe msgs, fill_srdb_entry flowstate_desc_tmpl (calloc_entry srdb_flow_entry) uuid line = Some (e, mask) /\ flowentry_of e = Some fe /\
       read_flowstate pton if_nametoindex ntop cfg talk stack fe rts =
         Some (install_routes ntop rts (replicate n (bsid, addrs)), map Some msgs, [status_op "FlowState" (strncpy SLEN uuid) FLOW_STATUS_RUNNING]) /\
       Forall2 (requested if_nametoindex cfg) msgs (replicate n (bsid, addrs))).
Proof.
  intros Hr D Ha Hrep Po R Hcfg fl g n Hbw Hdelay Hw.
  destruct (request_published J T L pton ntop c tp M req rule rt dstrt r1 r2 pb rnd now reply uuid q0 cost0 Hr D Ha Hrep Po Hbw Hdelay Hw)
    as (c' & row & r & segs & q & cst & addrs & H1 & H2 & H3 & H4 & H5 & H6 & Hrow & _). destruct Po as [_ _ _ (Pz & Pl & Pu)].
  exists c', row, r, segs, q, cst, addrs. cbn zeta. split_and!; [done..|]. intros Hfits line rts Hline. by eapply flow_row_installs.
Qed.

Definition fdemo_cfg : config := Config (rt_name fdemo_r1) "eth0" 254.
Definition scratch : list Z := replicate 1024 170.

Lemma hex_routed cfg : ingress_iface cfg = "eth0" -> routed_ok (J := tree_jansson) hex_text one_dev cfg scratch.
Proof. intros Hc. split; [apply length_replicate|by rewrite Hc|by eexists]. Qed.

Lemma fdemo_links_addr : map_Forall (fun _ l => is_addr (l_remote l)) (ns_links (c_ns fdemo)).
Proof. apply map_Forall_to_list; vm_compute; repeat constructor; discriminate. Qed.

Lemma fdemo_rts_addr : map_Forall (fun _ r => forall a, rt_addr r = Some a -> is_addr a) (ns_rts (c_ns fdemo)).
Proof. apply map_Forall_to_list. vm_compute. repeat constructor; simplify_eq; repeat constructor; discriminate. Qed.

Lemma segment_addr_ok ns s a :
  map_Forall (fun _ l => is_addr (l_remote l)) (ns_links ns) -> map_Forall (fun _ r => forall a, rt_addr r = Some a -> is_addr a) (ns_rts ns) ->
  segment_addr ns s = Some a -> is_addr a.
Proof.
  intros Hl Hrt Hs. destruct s as [id|e]; cbn [segment_addr] in Hs.
  - repeat (match type of Hs with (?x ≫= _) = _ => destruct x eqn:?; [cbn [mbind option_bind] in Hs|done] end). by eapply Hrt.
  - destruct (ns_links ns !! v_edata e) as [l|] eqn:E; [|done]. injection Hs as <-. by eapply Hl.
Qed.

Lemma fdemo_published : published_ok (J := tree_jansson) fdemo fdemo_r1 fdemo_pb fdemo_rnd.
Proof.
  split.
  - intros s a. apply (segment_addr_ok _ _ _ fdemo_links_addr fdemo_rts_addr).
  - split; [done|by repeat constructor].
  - repeat constructor; discriminate.
  - split_and!; [vm_compute; reflexivity|apply Nat.leb_le; vm_compute; reflexivity|by eexists].
Qed.

Lemma fdemo_walk : walk (ns_view (c_ns fdemo)) (rt_node_id fdemo_r1) (rt_node_id fdemo_r2) [2] (0 + 5).
Proof. apply (walk_cons _ _ 1); [apply walk_nil|vm_compute; by left|vm_compute; reflexivity]. Qed.

Lemma request_reaches_kernel_witness :
  let n := length (c_providers fdemo) in let g := ns_view (c_ns fdemo) in
  exists c' row r segs q cost addrs, let bsid := bsid_of fdemo_pb r in
    process_request hex_pton hex_text fdemo_rnd 1000 (Some (ok_reply "u-1")) fdemo (fdemo_req 0 0) =
      Some (c', [DbInsert "FlowState" row; status_op "FlowReq" (rq_row (fdemo_req 0 0)) REQ_STATUS_ALLOWED]) /\
    shortest g (rt_node_id fdemo_r1) (rt_node_id fdemo_r2) q cost /\ forwards g (rt_node_id fdemo_r1) segs (rev q) (rt_node_id fdemo_r2) /\
    mapM (segment_addr (c_ns fdemo)) segs = Some addrs /\ Forall is_addr addrs /\ is_addr bsid /\
    (fits hex_text addrs bsid n -> forall line rts, (forall k, k ∈ ["router"; "segments"; "bsid"] -> json_object_get line k = json_object_get row k) ->
     exists e mask fe msgs, fill_srdb_entry flowstate_desc_tmpl (calloc_entry srdb_flow_entry) "u-1" line = Some (e, mask) /\ flowentry_of e = Some fe /\
       read_flowstate hex_pton one_dev hex_text fdemo_cfg 0 scratch fe rts =
         Some (install_routes hex_text rts (replicate n (bsid, addrs)), map Some msgs, [status_op "FlowState" (strncpy SLEN "u-1") FLOW_STATUS_RUNNING]) /\
       Forall2 (requested one_dev fdemo_cfg) msgs (replicate n (bsid, addrs))).
Proof.
  refine (request_reaches_kernel tree_jansson tree_text tree_jansson_laws tree_text_laws hex_pton hex_text hex_inet fdemo fdemo_topo 100 (fdemo_req 0 0)
    fdemo_rule 1 2 fdemo_r1 fdemo_r2 fdemo_pb fdemo_rnd 1000 (Some (ok_reply "u-1")) "u-1" one_dev fdemo_cfg 0 scratch [2] (0 + 5)
    (fdemo_ready_with hex_pton 0 0 _ _) fdemo_draws fdemo_addrs _ fdemo_published (hex_routed fdemo_cfg _) _ _ _ fdemo_walk); vm_compute; reflexivity.
Defined.

(** The same run evaluated: the texts of this network fit, the row the
    controller inserts makes the daemon of router [a] send one message for
    the binding segment, towards the address of [b]. *)
Definition fdemo_row : jtree :=
  match process_request hex_pton hex_text fdemo_rnd 1000 (Some (ok_reply "u-1")) fdemo (fdemo_req 0 0) with
  | Some (_, [DbInsert _ row; _]) => row | _ => JNull
  end.
Definition fdemo_read : option (routes * nat * list in6_addr) :=
  '(e, _) ← fill_srdb_entry flowstate_desc_tmpl (calloc_entry srdb_flow_entry) "u-1" fdemo_row;
  fe ← flowentry_of e;
  '(rts, msgs, _) ← read_flowstate hex_pton one_dev hex_text fdemo_cfg 0 scratch fe [];
  Some (rts, length msgs, omap (fun m => m ← m; parse_rtattr RTA_MAX (drop 28 m) !! RTA_DST) msgs).

Lemma fdemo_run :
  let bsid := replicate 8 0 ++ replicate 8 7 in
  fdemo_read = Some ([(bsid, Route bsid (hex_text (replicate 15 0 ++ [57])))], 1%nat, [bsid]).
Proof. vm_compute. reflexivity. Qed.

(** An update of a flow's segments reaches the kernel: for every list of
    the row whose binding segment the daemon has a route for, the route is
    replaced by one through the new segments; binding segments it does not
    know are skipped. *)
Theorem update_flowstate_replaces (J : Jansson) (T : JanssonText J) (L : JanssonLaws J) (LT : JanssonTextLaws J T)
    (pton : string -> option in6_addr) (ntop : in6_addr -> string) (LI : InetLaws pton ntop)
    (if_nametoindex : string -> Z) (cfg : config) (talk : Z) (stack : list Z) (fe : flowentry) (fmask : Z)
    (bls : list (in6_addr * list in6_addr)) (rts : routes) :
  routed_ok ntop if_nametoindex cfg stack -> streq (fe_router fe) (router_name cfg) = true -> Z.testbit fmask FE_SEGMENTS = true ->
  routes_keyed rts -> Forall (fun bl => is_addr bl.1 /\ seglist_ok ntop bl.2) bls ->
  fe_segments fe = Some (json_dumps (json_array (map (fun bl => texts_json ntop bl.2) bls))) ->
  fe_bsid fe = Some (json_dumps (texts_json ntop (map fst bls))) ->
  exists msgs, update_flowstate pton if_nametoindex ntop cfg talk stack fe fmask rts =
    Some (install_routes ntop rts (List.filter (known rts) bls), map Some msgs) /\
    Forall2 (replaced if_nametoindex cfg) msgs (List.filter (known rts) bls).
Proof. intros R. by apply update_flowstate_ok. Qed.

Definition upd_lists : list (in6_addr * list in6_addr) := [(addr_n 80, [addr_n 67; addr_n 66]); (addr_n 81, [addr_n 66])].
Definition upd_entry : flowentry :=
  FlowEntry "u-1" "a" (Some (json_dumps (json_array (map (fun bl => texts_json hex_text bl.2) upd_lists)))) (Some (json_dumps (texts_json hex_text (map fst upd_lists)))).
Definition upd_cfg : config := Config "a" "eth0" 254.
Definition upd_routes : routes := [(addr_n 80, Route (addr_n 80) "")].

Lemma update_flowstate_witness :
  exists msgs, update_flowstate hex_pton one_dev hex_text upd_cfg 0 scratch upd_entry (2 ^ FE_SEGMENTS) upd_routes =
    Some (install_routes hex_text upd_routes (List.filter (known upd_routes) upd_lists), map Some msgs) /\
    Forall2 (replaced one_dev upd_cfg) msgs (List.filter (known upd_routes) upd_lists).
Proof.
  apply (update_flowstate_replaces tree_jansson tree_text tree_jansson_laws tree_text_laws hex_pton hex_text hex_inet one_dev upd_cfg 0 scratch upd_entry (2 ^ FE_SEGMENTS)
    upd_lists upd_routes); [by apply hex_routed|reflexivity|reflexivity| | |reflexivity|reflexivity].
  - intros b rt [Hb _] Hg. unfold upd_routes in Hg. cbn [aget] in Hg. change (Hashmap.compare (addr_n 80) b) with (compare_in6 (addr_n 80) b) in Hg.
    destruct (Z.eqb_spec (compare_in6 (addr_n 80) b) 0) as [E|]; [|done]. injection Hg as <-. by apply compare_in6_eq in E.
  - repeat constructor; cbn; try done; try (vm_compute; lia); discriminate.
Defined.
