(* ===== verification/Rtnl.v ===== *)
(** * Netlink sockets (sr-routed/libnetlink.c: rtnl_open, rtnl_talk)

    The conversation of [modify_route] with the kernel: one request is sent,
    datagrams are received until one of their messages answers it.  The
    results of the system calls are arguments: [sendmsg] a number, [recvmsg]
    a list of outcomes that successive calls meet.  exit() and a call that
    never returns are results of their own. *)

From S2P Require Import Prelude Misc Rules Netlink Routed.

(** ** Results *)

(** [Fault] is undefined behaviour, [Blocked] a system call without an answer. *)
Inductive result (A : Type) := Ret (v : A) | Exit | Blocked | Fault.
Arguments Ret {A} v.
Arguments Exit {A}.
Arguments Blocked {A}.
Arguments Fault {A}.

#[global] Instance result_bind : MBind result := fun A B f m =>
  match m with Ret v => f v | Exit => Exit | Blocked => Blocked | Fault => Fault end.

Definition of_option {A} (m : option A) : result A := match m with Some v => Ret v | None => Fault end.

Definition EINTR := 4.
Definition EAGAIN := 11.
Definition ENOMEM := 12.
Definition ENODATA := 61.
Definition NLMSG_ERROR := 2.
Definition NLM_F_ACK := 4.
Definition NETLINK_ROUTE := 0.
Definition NETLINK_SOCK_DIAG := 4.
Definition AF_NETLINK := 16.
Definition sizeof_nlmsghdr := 16.
Definition sizeof_nlmsgerr := 20.
Definition sizeof_sockaddr_nl := 12.

(** [n] bytes at offset [o]. *)
Definition bread (mem : list Z) (o n : Z) : option (list Z) :=
  if (0 <=? o) && (o + n <=? Z.of_nat (length mem)) then Some (take (Z.to_nat n) (drop (Z.to_nat o) mem)) else None.

(** *** struct nlmsghdr *)

Definition read32 (mem : list Z) (o : Z) : option Z := bs ← bread mem o 4; Some (of_le bs).
Definition read16 (mem : list Z) (o : Z) : option Z := bs ← bread mem o 2; Some (of_le bs).
Definition nlmsg_len (mem : list Z) (h : Z) : option Z := read32 mem h.
Definition nlmsg_type (mem : list Z) (h : Z) : option Z := read16 mem (h + 4).
Definition nlmsg_flags (mem : list Z) (h : Z) : option Z := read16 mem (h + 6).
Definition nlmsg_seq (mem : list Z) (h : Z) : option Z := read32 mem (h + 8).
Definition nlmsg_pid (mem : list Z) (h : Z) : option Z := read32 mem (h + 12).

(** ** The handle *)

Record rtnl_handle := RtnlHandle { rh_fd : Z; rh_proto : Z; rh_pid : Z; rh_seq : Z }.

(** What the system calls of [rtnl_open_byproto] return; getsockname fills the
    address: its length, family and port id. *)
Record open_calls := OpenCalls {
  oc_socket : Z; oc_sndbuf : Z; oc_rcvbuf : Z; oc_bind : Z; oc_getsockname : Z; oc_addrlen : Z; oc_family : Z; oc_pid : Z; oc_time : Z
}.

Definition rtnl_open_byproto (c : open_calls) (protocol : Z) : Z * rtnl_handle :=
  let rth := RtnlHandle (oc_socket c) protocol 0 0 in
  if oc_socket c <? 0 then (-1, rth)
  else if oc_sndbuf c <? 0 then (-1, rth)
  else if oc_rcvbuf c <? 0 then (-1, rth)
  else if oc_bind c <? 0 then (-1, rth)
  else if oc_getsockname c <? 0 then (-1, rth)
  else
    let rth := RtnlHandle (oc_socket c) protocol (oc_pid c) 0 in
    if negb (oc_addrlen c =? sizeof_sockaddr_nl) then (-1, rth)
    else if negb (oc_family c =? AF_NETLINK) then (-1, rth)
    else (0, RtnlHandle (oc_socket c) protocol (oc_pid c) (wrap32 (oc_time c))).

Definition rtnl_open (c : open_calls) : Z * rtnl_handle := rtnl_open_byproto c NETLINK_ROUTE.

(** The handle, and the descriptor that is closed. *)
Definition rtnl_close (rth : rtnl_handle) : rtnl_handle * option Z :=
  if 0 <=? rh_fd rth then (RtnlHandle (-1) (rh_proto rth) (rh_pid rth) (rh_seq rth), Some (rh_fd rth)) else (rth, None).

(** ** Receiving *)

(** A datagram with the address of its sender. *)
Record dgram := Dgram { dg_namelen : Z; dg_pid : Z; dg_data : list Z }.
Inductive recv := RFail (errno : Z) | RGot (d : dgram).

(** do recvmsg() while interrupted: a negative error or the datagram, and what
    the next calls meet. *)
Fixpoint __rtnl_recvmsg (rs : list recv) : result ((Z + dgram) * list recv) :=
  match rs with
  | [] => Blocked
  | RFail e :: rs => if (e =? EINTR) || (e =? EAGAIN) then __rtnl_recvmsg rs else Ret (inl (- e), rs)
  | RGot d :: rs => if (length (dg_data d) =? 0)%nat then Ret (inl (- ENODATA), rs) else Ret (inr d, rs)
  end.

(** What [rtnl_recvmsg] leaves: the bytes of the new buffer, the sender, and
    MSG_TRUNC. *)
Record received := Received { rc_buf : list Z; rc_namelen : Z; rc_pid : Z; rc_trunc : bool }.

(** The length is peeked at (MSG_TRUNC gives the whole), then as many bytes
    are received; [alloc] tells whether malloc() succeeds. *)
Definition rtnl_recvmsg (alloc : bool) (rs : list recv) : result ((Z + received) * list recv) :=
  '(p, rs) ← __rtnl_recvmsg rs;
  match p with
  | inl e => Ret (inl e, rs)
  | inr d0 =>
      if negb alloc then Ret (inl (- ENOMEM), rs)
      else
        let len := length (dg_data d0) in
        '(p, rs) ← __rtnl_recvmsg rs;
        match p with
        | inl e => Ret (inl e, rs)
        | inr d => Ret (inr (Received (take len (dg_data d)) (dg_namelen d) (dg_pid d) (len <? length (dg_data d))%nat), rs)
        end
  end.

(** ** The conversation *)

(** The return value, errno when it is set, and *answer. *)
Record talked := Talked { tk_ret : Z; tk_errno : option Z; tk_answer : option (list Z) }.

(** The loop over the messages of a datagram: return, receive another
    datagram, or the number of bytes that are left. *)
Inductive turn := TReturn (t : talked) | TNext (answer : option (list Z)) | TEnd (status : Z).

Section talk.
Context (rtnl : rtnl_handle) (seq iovlen : Z) (answer : bool) (stale : option Z).

Definition NLMSG_ALIGN (n : Z) : Z := RTA_ALIGN n.

(** h->nlmsg_seq == seq, where [h] points into [buf] that has been freed
    unless it was given to the caller.  That read is undefined behaviour in C;
    here it yields [stale], an arbitrary value, or [None], a fault that ends
    the program.  A compiler may do worse: theorems with [Some stale] hold of
    implementations in which the read yields some value. *)
Definition seq_read_back (buf : list Z) (h : Z) : option Z := if answer then nlmsg_seq buf h else stale.

(** A message of type NLMSG_ERROR at [h]; [l] is the length of its payload. *)
Definition talk_error (buf : list Z) (h l i : Z) : option turn :=
  err ← read32 buf (h + sizeof_nlmsghdr);
  if negb (l <? sizeof_nlmsgerr) && (err =? 0) then
    let ans := if answer then Some buf else None in
    s ← seq_read_back buf h;
    if s =? seq then Some (TReturn (Talked 0 None ans))
    else if i <? iovlen then Some (TNext ans)
    else Some (TReturn (Talked 0 None ans))
  else Some (TReturn (Talked (- i) (Some (- to_int err)) None)).

(** A message for another port, or outside the sequence numbers of the
    request; seq - iovlen is computed in size_t. *)
Definition not_ours (pid mpid mseq : Z) : bool :=
  negb (pid =? 0) || negb (mpid =? rh_pid rtnl) || (seq <? mseq) || (mseq <? wrap64 (seq - iovlen)).

(** for (h = buf; status >= sizeof( *h); ): every turn but the last advances
    by a header at least; the length of the buffer is enough fuel. *)
Fixpoint talk_msgs (fuel : nat) (rc : received) (i h status : Z) : result turn :=
  if sizeof_nlmsghdr <=? status then
    match fuel with
    | O => Fault
    | S fuel =>
        len ← of_option (nlmsg_len (rc_buf rc) h);
        let len := to_int len in
        let l := to_int (len - sizeof_nlmsghdr) in
        let step := wrap32 (NLMSG_ALIGN len) in
        if (l <? 0) || (status <? len) then if rc_trunc rc then Ret (TReturn (Talked (-1) None None)) else Exit
        else
          mpid ← of_option (nlmsg_pid (rc_buf rc) h);
          mseq ← of_option (nlmsg_seq (rc_buf rc) h);
          if not_ours (rc_pid rc) mpid mseq
          then talk_msgs fuel rc i (h + step) (to_int (status - step))
          else
            type ← of_option (nlmsg_type (rc_buf rc) h);
            if type =? NLMSG_ERROR then of_option (talk_error (rc_buf rc) h l i)
            else if answer then Ret (TReturn (Talked 0 None (Some (rc_buf rc))))
            else talk_msgs fuel rc i (h + step) (to_int (status - step))
    end
  else Ret (TEnd status).

(** while (1): every turn receives, [fuel] is the number of outcomes. *)
Fixpoint talk_loop (fuel : nat) (alloc : bool) (i : Z) (ans : option (list Z)) (rs : list recv) : result talked :=
  match fuel with
  | O => Blocked
  | S fuel =>
      '(p, rs) ← rtnl_recvmsg alloc rs;
      let i := i + 1 in
      match p with
      | inl e => Ret (Talked e None ans)
      | inr rc =>
          if negb (rc_namelen rc =? sizeof_sockaddr_nl) then Exit
          else
            t ← talk_msgs (length (rc_buf rc)) rc i 0 (Z.of_nat (length (rc_buf rc)));
            match t with
            | TReturn t => Ret (Talked (tk_ret t) (tk_errno t) (match tk_answer t with Some a => Some a | None => ans end))
            | TNext a => talk_loop fuel alloc i (match a with Some _ => a | None => ans end) rs
            | TEnd status => if rc_trunc rc then talk_loop fuel alloc i ans rs else if negb (status =? 0) then Exit else talk_loop fuel alloc i ans rs
            end
      end
  end.
End talk.

(** The headers of the request: consecutive sequence numbers, and the demand
    for an acknowledgement when no answer is wanted. *)
Definition number_msg (seq : Z) (answer : bool) (msg : list Z) : option (list Z) :=
  msg ← bwrite msg 8 (le 4 seq);
  if answer then Some msg
  else flags ← nlmsg_flags msg 0; bwrite msg 6 (le 2 (Z.lor flags NLM_F_ACK)).

Fixpoint number_msgs (seq last : Z) (answer : bool) (iov : list (list Z)) : option (Z * Z * list (list Z)) :=
  match iov with
  | [] => Some (seq, last, [])
  | msg :: iov =>
      let seq := wrap32 (seq + 1) in
      msg ← number_msg seq answer msg;
      '(s, last, iov) ← number_msgs seq seq answer iov;
      Some (s, last, msg :: iov)
  end.

Definition set_seq (rtnl : rtnl_handle) (s : Z) : rtnl_handle := RtnlHandle (rh_fd rtnl) (rh_proto rtnl) (rh_pid rtnl) s.

(** The handle, the messages that are sent, and the result. *)
Definition __rtnl_talk_iov (rtnl : rtnl_handle) (iov : list (list Z)) (answer : bool) (sendmsg : Z) (alloc : bool) (stale : option Z) (rs : list recv)
    : result (rtnl_handle * list (list Z) * talked) :=
  '(s, seq, iov) ← of_option (number_msgs (rh_seq rtnl) 0 answer iov);
  let rtnl := set_seq rtnl s in
  if sendmsg <? 0 then Ret (rtnl, iov, Talked (-1) None None)
  else t ← talk_loop rtnl seq (Z.of_nat (length iov)) answer stale (length rs) alloc 0 None rs; Ret (rtnl, iov, t).

Definition rtnl_talk (rtnl : rtnl_handle) (n : list Z) (answer : bool) (sendmsg : Z) (alloc : bool) (stale : option Z) (rs : list recv)
    : result (rtnl_handle * list (list Z) * talked) :=
  __rtnl_talk_iov rtnl [n] answer sendmsg alloc stale rs.

Definition rtnl_talk_iov := __rtnl_talk_iov.

(** ** Messages *)

Record nlmsg := NlMsg { nm_type : Z; nm_flags : Z; nm_seq : Z; nm_pid : Z; nm_data : list Z; nm_pad : list Z }.

Definition nlmsg_header (m : nlmsg) : list Z :=
  le 4 (16 + Z.of_nat (length (nm_data m))) ++ le 2 (nm_type m) ++ le 2 (nm_flags m) ++ le 4 (nm_seq m) ++ le 4 (nm_pid m).
Definition enc_msg (m : nlmsg) : list Z := nlmsg_header m ++ nm_data m ++ nm_pad m.
Definition enc_msgs (ms : list nlmsg) : list Z := flat_map enc_msg ms.

Record msg_ok (m : nlmsg) : Prop := {
  mo_type : 0 <= nm_type m < 2 ^ 16;
  mo_flags : 0 <= nm_flags m < 2 ^ 16;
  mo_seq : 0 <= nm_seq m < 2 ^ 32;
  mo_pid : 0 <= nm_pid m < 2 ^ 32;
  mo_pad : Z.of_nat (length (nm_pad m)) = NLMSG_ALIGN (Z.of_nat (length (nm_data m))) - Z.of_nat (length (nm_data m))
}.

Lemma header_length m : length (nlmsg_header m) = 16%nat.
Proof. unfold nlmsg_header. by rewrite !length_app, !le_length. Qed.

Lemma enc_msg_length m : length (enc_msg m) = (16 + length (nm_data m) + length (nm_pad m))%nat.
Proof. unfold enc_msg. rewrite !length_app, header_length. lia. Qed.

Lemma enc_msgs_app ms ms' : enc_msgs (ms ++ ms') = enc_msgs ms ++ enc_msgs ms'.
Proof. apply flat_map_app. Qed.

Lemma enc_msgs_length ms : (16 * length ms <= length (enc_msgs ms))%nat.
Proof. induction ms as [|m ms IH]; [done|]. cbn [enc_msgs flat_map length]. rewrite length_app, enc_msg_length. fold (enc_msgs ms). lia. Qed.

Lemma bread_at pre bs post o n : o = Z.of_nat (length pre) -> n = Z.of_nat (length bs) -> bread (pre ++ bs ++ post) o n = Some bs.
Proof.
  intros -> ->. unfold bread. rewrite (proj2 (Z.leb_le _ _)), (proj2 (Z.leb_le _ _)) by (rewrite ?length_app; lia). cbn [andb].
  by rewrite !Nat2Z.id, drop_app_length, take_app_length.
Qed.

(** A field of [n] bytes behind [k] bytes of a message. *)
Lemma read_field pre a n z b post o : o = Z.of_nat (length pre + length a) -> 0 <= z < 256 ^ Z.of_nat n ->
  (bs ← bread (pre ++ (a ++ le n z ++ b) ++ post) o (Z.of_nat n); Some (of_le bs)) = Some z.
Proof.
  intros -> Hz. replace (pre ++ (a ++ le n z ++ b) ++ post) with ((pre ++ a) ++ le n z ++ (b ++ post)) by (by rewrite <- !(assoc_L (++))).
  rewrite bread_at by (rewrite ?length_app, ?le_length; lia). cbn [mbind option_bind]. by rewrite of_le_le.
Qed.

Definition fits_int (m : nlmsg) : Prop := Z.of_nat (length (enc_msg m)) < 2 ^ 31.

(** The header at the start of a message. *)
Lemma header_fields pre m post : msg_ok m -> fits_int m ->
  let buf := pre ++ enc_msg m ++ post in let h := Z.of_nat (length pre) in
  nlmsg_len buf h = Some (16 + Z.of_nat (length (nm_data m))) /\ nlmsg_type buf h = Some (nm_type m) /\
  nlmsg_seq buf h = Some (nm_seq m) /\ nlmsg_pid buf h = Some (nm_pid m).
Proof.
  intros [H1 H2 H3 H4 H5] Hf buf h. unfold fits_int in Hf. rewrite enc_msg_length in Hf. unfold nlmsg_len, nlmsg_type, nlmsg_seq, nlmsg_pid, read32, read16, buf, h.
  set (d := nm_data m ++ nm_pad m).
  assert (enc_msg m = [] ++ le 4 (16 + Z.of_nat (length (nm_data m))) ++ (le 2 (nm_type m) ++ le 2 (nm_flags m) ++ le 4 (nm_seq m) ++ le 4 (nm_pid m) ++ d)) as E0
    by (unfold enc_msg, nlmsg_header; by rewrite <- !(assoc_L (++))).
  assert (enc_msg m = le 4 (16 + Z.of_nat (length (nm_data m))) ++ le 2 (nm_type m) ++ (le 2 (nm_flags m) ++ le 4 (nm_seq m) ++ le 4 (nm_pid m) ++ d)) as E1 by (by rewrite E0).
  assert (enc_msg m = (le 4 (16 + Z.of_nat (length (nm_data m))) ++ le 2 (nm_type m) ++ le 2 (nm_flags m)) ++ le 4 (nm_seq m) ++ (le 4 (nm_pid m) ++ d)) as E2
    by (rewrite E0; by rewrite <- !(assoc_L (++))).
  assert (enc_msg m = (le 4 (16 + Z.of_nat (length (nm_data m))) ++ le 2 (nm_type m) ++ le 2 (nm_flags m) ++ le 4 (nm_seq m)) ++ le 4 (nm_pid m) ++ d) as E3
    by (rewrite E0; by rewrite <- !(assoc_L (++))).
  split_and!.
  - rewrite E0. apply (read_field pre [] 4); [simpl; lia|lia].
  - rewrite E1. apply (read_field pre _ 2); [rewrite le_length; lia|exact H1].
  - rewrite E2. apply (read_field pre _ 4); [rewrite !length_app, !le_length; lia|exact H3].
  - rewrite E3. apply (read_field pre _ 4); [rewrite !length_app, !le_length; lia|exact H4].
Qed.

(** ** The loops *)

Section loops.
Context (rtnl : rtnl_handle) (seq iovlen : Z) (stale : option Z).

(** What a conversation without answer passes over. *)
Definition skipped (pid : Z) (m : nlmsg) : Prop := not_ours rtnl seq iovlen pid (nm_pid m) (nm_seq m) = true \/ nm_type m <> NLMSG_ERROR.

Lemma enc_msg_size m : msg_ok m -> Z.of_nat (length (enc_msg m)) = NLMSG_ALIGN (16 + Z.of_nat (length (nm_data m))).
Proof.
  intros [_ _ _ _ Hp]. rewrite enc_msg_length. unfold NLMSG_ALIGN in *. rewrite RTA_ALIGN_eq in *.
  replace (16 + Z.of_nat (length (nm_data m)) + 3) with (Z.of_nat (length (nm_data m)) + 3 + 4 * 4) by lia. rewrite Z.div_add by lia. lia.
Qed.

(** One message at the head of what is left. *)
Lemma talk_msgs_head fuel rc i pre m post :
  rc_buf rc = pre ++ enc_msg m ++ post -> msg_ok m -> Z.of_nat (length (rc_buf rc)) < 2 ^ 31 ->
  talk_msgs rtnl seq iovlen false stale (S fuel) rc i (Z.of_nat (length pre)) (Z.of_nat (length (enc_msg m ++ post))) =
    if not_ours rtnl seq iovlen (rc_pid rc) (nm_pid m) (nm_seq m) || negb (nm_type m =? NLMSG_ERROR)
    then talk_msgs rtnl seq iovlen false stale fuel rc i (Z.of_nat (length (pre ++ enc_msg m))) (Z.of_nat (length post))
    else of_option (talk_error seq iovlen false stale (rc_buf rc) (Z.of_nat (length pre)) (Z.of_nat (length (nm_data m))) i).
Proof.
  intros Hb Hm Hs. pose proof (enc_msg_size m Hm) as He. pose proof (RTA_ALIGN_bounds (16 + Z.of_nat (length (nm_data m)))) as Hal. change (RTA_ALIGN (16 + Z.of_nat (length (nm_data m)))) with (NLMSG_ALIGN (16 + Z.of_nat (length (nm_data m)))) in Hal.
  rewrite Hb, !length_app in Hs.
  destruct (header_fields pre m post Hm) as (H1 & H2 & H3 & H4); [unfold fits_int; lia|]. cbn [talk_msgs]. rewrite Hb, H1, H2, H3, H4. cbn [of_option mbind result_bind].
  rewrite length_app. rewrite (proj2 (Z.leb_le _ _)) by (unfold sizeof_nlmsghdr; lia). unfold sizeof_nlmsghdr.
  rewrite (to_int_id (16 + _)) by lia. replace (16 + Z.of_nat (length (nm_data m)) - 16) with (Z.of_nat (length (nm_data m))) by lia. rewrite (to_int_id (Z.of_nat (length (nm_data m)))) by lia.
  rewrite (proj2 (Z.ltb_ge _ _)), (proj2 (Z.ltb_ge _ _)) by lia. cbn [orb]. rewrite <- He. rewrite wrap32_small by lia.
  replace (Z.of_nat (length (enc_msg m) + length post) - Z.of_nat (length (enc_msg m))) with (Z.of_nat (length post)) by lia. rewrite to_int_id by lia.
  replace (Z.of_nat (length pre) + Z.of_nat (length (enc_msg m))) with (Z.of_nat (length (pre ++ enc_msg m))) by (rewrite length_app; lia).
  destruct (not_ours _ _ _ _ _ _); [done|]. cbn [orb]. by destruct (nm_type m =? NLMSG_ERROR).
Qed.

Lemma talk_msgs_skip ms : forall fuel rc i pre post,
  rc_buf rc = pre ++ enc_msgs ms ++ post -> Forall msg_ok ms -> Forall (skipped (rc_pid rc)) ms -> Z.of_nat (length (rc_buf rc)) < 2 ^ 31 ->
  talk_msgs rtnl seq iovlen false stale (length ms + fuel) rc i (Z.of_nat (length pre)) (Z.of_nat (length (enc_msgs ms ++ post))) =
    talk_msgs rtnl seq iovlen false stale fuel rc i (Z.of_nat (length (pre ++ enc_msgs ms))) (Z.of_nat (length post)).
Proof.
  induction ms as [|m ms IH]; intros fuel rc i pre post Hb Hok Hsk Hs; [by rewrite app_nil_r|].
  apply Forall_cons in Hok as [Hm Hok]. apply Forall_cons in Hsk as [Hk Hsk].
  cbn [enc_msgs flat_map length Nat.add] in *. fold (enc_msgs ms) in *. rewrite <- (assoc_L (++)) in Hb |- *. rewrite (talk_msgs_head _ _ _ pre m (enc_msgs ms ++ post) Hb Hm Hs).
  assert (not_ours rtnl seq iovlen (rc_pid rc) (nm_pid m) (nm_seq m) || negb (nm_type m =? NLMSG_ERROR) = true) as ->.
  { destruct Hk as [->|Hne]; [done|]. apply orb_true_iff. right. by apply negb_true_iff, Z.eqb_neq. }
  rewrite (IH fuel rc i (pre ++ enc_msg m) post); [by rewrite <- (assoc_L (++))|by rewrite <- (assoc_L (++))|done|done|done].
Qed.

(** *** What arrives *)

(** A datagram of the kernel, and the interruptions of the two calls that
    receive it. *)
Record arrival := Arrival { ar_peek : list Z; ar_recv : list Z; ar_msgs : list nlmsg }.
Definition ar_dgram (a : arrival) : dgram := Dgram sizeof_sockaddr_nl 0 (enc_msgs (ar_msgs a)).
Definition outcomes (a : arrival) : list recv :=
  map RFail (ar_peek a) ++ RGot (ar_dgram a) :: map RFail (ar_recv a) ++ [RGot (ar_dgram a)].

Definition retried (l : list Z) : Prop := Forall (fun e => e = EINTR \/ e = EAGAIN) l.
Record arrival_ok (a : arrival) : Prop := {
  ao_peek : retried (ar_peek a);
  ao_recv : retried (ar_recv a);
  ao_some : ar_msgs a <> [];
  ao_msgs : Forall msg_ok (ar_msgs a);
  ao_int : Z.of_nat (length (enc_msgs (ar_msgs a))) < 2 ^ 31
}.

Lemma recvmsg_retried l d rs : retried l -> dg_data d <> [] -> __rtnl_recvmsg (map RFail l ++ RGot d :: rs) = Ret (inr d, rs).
Proof.
  intros Hl Hd. induction Hl as [|e l He _ IH]; cbn [map app __rtnl_recvmsg].
  - destruct (Nat.eqb_spec (length (dg_data d)) 0) as [E|]; [|done]. by apply nil_length_inv in E.
  - by destruct He as [-> | ->].
Qed.

Lemma msgs_nonempty a : ar_msgs a <> [] -> enc_msgs (ar_msgs a) <> [].
Proof. intros H E. pose proof (enc_msgs_length (ar_msgs a)) as Hl. rewrite E in Hl. destruct (ar_msgs a); [done|]. simpl in Hl. lia. Qed.

Lemma rtnl_recvmsg_ok a rs : arrival_ok a ->
  rtnl_recvmsg true (outcomes a ++ rs) = Ret (inr (Received (enc_msgs (ar_msgs a)) sizeof_sockaddr_nl 0 false), rs).
Proof.
  intros [H1 H2 H3 _ _]. pose proof (msgs_nonempty a H3) as Hne. unfold rtnl_recvmsg, outcomes. rewrite <- (assoc_L (++)). cbn [app].
  rewrite recvmsg_retried by done. cbn [mbind result_bind negb]. rewrite <- (assoc_L (++)). cbn [app]. rewrite recvmsg_retried by done. cbn [mbind result_bind ar_dgram dg_data dg_namelen dg_pid].
  by rewrite take_ge, Nat.ltb_irrefl.
Qed.

(** A datagram without an answer. *)
Lemma talk_msgs_all a i : arrival_ok a -> Forall (skipped 0) (ar_msgs a) ->
  talk_msgs rtnl seq iovlen false stale (length (enc_msgs (ar_msgs a))) (Received (enc_msgs (ar_msgs a)) sizeof_sockaddr_nl 0 false) i 0 (Z.of_nat (length (enc_msgs (ar_msgs a)))) = Ret (TEnd 0).
Proof.
  intros [_ _ _ Hok Hs] Hsk. set (ms := ar_msgs a) in *. pose proof (enc_msgs_length ms) as Hl. set (rc := Received _ _ _ _).
  pose proof (talk_msgs_skip ms (length (enc_msgs ms) - length ms) rc i [] []) as H. rewrite app_nil_r in H. cbn [app length] in H.
  replace (length ms + (length (enc_msgs ms) - length ms))%nat with (length (enc_msgs ms)) in H by lia. change (Z.of_nat 0) with 0 in H. rewrite H by (done || by rewrite ?app_nil_r).
  by destruct (length (enc_msgs ms) - length ms)%nat.
Qed.

(** ... and one with an acknowledgement. *)
Lemma talk_msgs_ack a i ms ack post : arrival_ok a -> ar_msgs a = ms ++ ack :: post -> Forall (skipped 0) ms ->
  not_ours rtnl seq iovlen 0 (nm_pid ack) (nm_seq ack) = false -> nm_type ack = NLMSG_ERROR ->
  talk_msgs rtnl seq iovlen false stale (length (enc_msgs (ar_msgs a))) (Received (enc_msgs (ar_msgs a)) sizeof_sockaddr_nl 0 false) i 0 (Z.of_nat (length (enc_msgs (ar_msgs a)))) =
    of_option (talk_error seq iovlen false stale (enc_msgs ms ++ enc_msg ack ++ enc_msgs post) (Z.of_nat (length (enc_msgs ms))) (Z.of_nat (length (nm_data ack))) i).
Proof.
  intros [_ _ _ Hok Hs] Ha Hsk Hours Hty. rewrite Ha in *. apply Forall_app in Hok as [Hok1 Hok2]. apply Forall_cons in Hok2 as [Hack _].
  pose proof (enc_msgs_length (ms ++ ack :: post)) as Hl. rewrite length_app in Hl. cbn [length] in Hl.
  assert (enc_msgs (ms ++ ack :: post) = enc_msgs ms ++ enc_msg ack ++ enc_msgs post) as E by (by rewrite enc_msgs_app).
  rewrite E in *. set (rc := Received _ _ _ _).
  pose proof (talk_msgs_skip ms (S (length (enc_msgs ms ++ enc_msg ack ++ enc_msgs post) - S (length ms))) rc i [] (enc_msg ack ++ enc_msgs post) eq_refl Hok1 Hsk Hs) as H.
  replace (length ms + S (length (enc_msgs ms ++ enc_msg ack ++ enc_msgs post) - S (length ms)))%nat with (length (enc_msgs ms ++ enc_msg ack ++ enc_msgs post)) in H by lia.
  cbn [app length] in H. change (Z.of_nat 0) with 0 in H. rewrite H. rewrite (talk_msgs_head _ rc i (enc_msgs ms) ack (enc_msgs post)) by done. change (rc_pid rc) with 0. by rewrite Hours, Hty.
Qed.

(** The acknowledgement of the kernel: an error number and a copy of the
    header of the request at least. *)
Definition acknowledges (ack : nlmsg) (err : Z) : Prop :=
  nm_type ack = NLMSG_ERROR /\ - 2 ^ 31 <= err < 2 ^ 31 /\ exists copy, nm_data ack = le 4 (wrap32 err) ++ copy /\ (16 <= length copy)%nat.

Lemma wrap32_int e : - 2 ^ 31 <= e < 2 ^ 31 -> to_int (wrap32 e) = e /\ (wrap32 e =? 0) = (e =? 0).
Proof.
  intros He. split.
  - rewrite <- (to_int_id e) at 2 by done. unfold to_int, wrap32. by rewrite Zplus_mod_idemp_l.
  - apply eq_true_iff_eq. rewrite !Z.eqb_eq. unfold wrap32. split; [|by intros ->]. intros H. destruct (decide (0 <= e)).
    + rewrite Z.mod_small in H by lia. done.
    + rewrite <- (Z.mod_add e 1 (2 ^ 32)), Z.mod_small in H by lia. lia.
Qed.

Lemma talk_error_ack pre ack post err i : acknowledges ack err -> iovlen <= i ->
  talk_error seq iovlen false stale (pre ++ enc_msg ack ++ post) (Z.of_nat (length pre)) (Z.of_nat (length (nm_data ack))) i =
    if err =? 0 then s ← stale; Some (TReturn (Talked 0 None None)) else Some (TReturn (Talked (- i) (Some (- err)) None)).
Proof.
  intros (Hty & He & copy & Hd & Hc) Hi. destruct (wrap32_int err He) as [E1 E2]. unfold talk_error, read32.
  assert (enc_msg ack = nlmsg_header ack ++ le 4 (wrap32 err) ++ (copy ++ nm_pad ack)) as -> by (unfold enc_msg; rewrite Hd; by rewrite <- !(assoc_L (++))).
  rewrite (read_field pre (nlmsg_header ack) 4 (wrap32 err)) by (rewrite ?header_length; unfold sizeof_nlmsghdr; pose proof (wrap32_range err); lia).
  cbn [mbind option_bind]. rewrite E1, E2, Hd, length_app, le_length. rewrite (proj2 (Z.ltb_ge _ _)) by (unfold sizeof_nlmsgerr; lia). cbn [negb andb].
  destruct (err =? 0); [|done]. unfold seq_read_back. destruct stale as [v|]; [|done]. cbn [mbind option_bind]. rewrite (proj2 (Z.ltb_ge _ _)) by lia. by destruct (v =? seq).
Qed.

Lemma outcomes_length a : (1 <= length (outcomes a))%nat.
Proof. unfold outcomes. rewrite length_app. simpl. lia. Qed.

(** The answer of the kernel behind any number of datagrams that are passed
    over. *)
Lemma talk_loop_ack fore : forall fuel i a ms ack post err rs,
  Forall arrival_ok fore -> Forall (fun a => Forall (skipped 0) (ar_msgs a)) fore -> arrival_ok a -> ar_msgs a = ms ++ ack :: post -> Forall (skipped 0) ms ->
  not_ours rtnl seq iovlen 0 (nm_pid ack) (nm_seq ack) = false -> acknowledges ack err -> iovlen <= i + 1 -> (length fore < fuel)%nat ->
  talk_loop rtnl seq iovlen false stale fuel true i None (flat_map outcomes fore ++ outcomes a ++ rs) =
    if err =? 0 then of_option (s ← stale; Some (Talked 0 None None)) else Ret (Talked (- (i + 1 + Z.of_nat (length fore))) (Some (- err)) None).
Proof.
  induction fore as [|b fore IH]; intros fuel i a ms ack post err rs Hf Hfs Ha Hms Hsk Hours Hack Hi Hfuel; (destruct fuel as [|fuel]; [simpl in Hfuel; lia|]); cbn [flat_map app].
  - cbn [talk_loop]. rewrite rtnl_recvmsg_ok by done. cbn [mbind result_bind rc_namelen rc_buf].
    change (negb (sizeof_sockaddr_nl =? sizeof_sockaddr_nl)) with false. cbn match. rewrite (talk_msgs_ack a (i + 1) ms ack post) by (done || apply Hack).
    rewrite (talk_error_ack (enc_msgs ms) ack (enc_msgs post) err) by done. destruct (err =? 0); [by destruct stale|].
    cbn [of_option mbind result_bind option_bind tk_ret tk_errno tk_answer]. do 2 f_equal. simpl. lia.
  - apply Forall_cons in Hf as [Hb Hf]. apply Forall_cons in Hfs as [Hbs Hfs]. cbn [talk_loop]. rewrite <- (assoc_L (++)). rewrite rtnl_recvmsg_ok by done.
    cbn [mbind result_bind rc_namelen rc_buf rc_trunc]. change (negb (sizeof_sockaddr_nl =? sizeof_sockaddr_nl)) with false. cbn match.
    rewrite talk_msgs_all by done. cbn [mbind result_bind]. change (negb (0 =? 0)) with false. cbn match.
    rewrite (IH fuel (i + 1) a ms ack post err rs) by (done || lia || (simpl in Hfuel; lia)). destruct (err =? 0); [done|]. do 2 f_equal. simpl. lia.
Qed.
End loops.

(** ** The request *)

(** The request with its number and the demand for an acknowledgement. *)
Definition numbered_request (seq : Z) (n : list Z) : list Z :=
  take 6 n ++ le 2 (Z.lor (of_le (take 2 (drop 6 n))) NLM_F_ACK) ++ le 4 seq ++ drop 12 n.

Lemma number_msg_ok seq n : (12 <= length n)%nat -> number_msg seq false n = Some (numbered_request seq n).
Proof.
  intros Hl. set (a := take 6 n). set (f := take 2 (drop 6 n)). set (s := take 4 (drop 8 n)). set (rest := drop 12 n).
  assert (length a = 6%nat /\ length f = 2%nat /\ length s = 4%nat) as (La & Lf & Ls) by (unfold a, f, s; rewrite !length_take, !length_drop; lia).
  assert (n = a ++ f ++ s ++ rest) as En.
  { unfold a, f, s, rest. rewrite <- (take_drop 6 n) at 1. f_equal. rewrite <- (take_drop 2 (drop 6 n)) at 1. f_equal. rewrite drop_drop.
    rewrite <- (take_drop 4 (drop (6 + 2) n)) at 1. by rewrite drop_drop. }
  unfold number_msg, numbered_request. fold a f rest. rewrite En at 1.
  replace (a ++ f ++ s ++ rest) with ((a ++ f) ++ s ++ rest) by (by rewrite <- (assoc_L (++))).
  replace 8 with (Z.of_nat (length (a ++ f))) by (rewrite length_app; lia).
  rewrite bwrite_app by (by rewrite le_length). cbn [mbind option_bind]. unfold nlmsg_flags, read16.
  replace ((a ++ f) ++ le 4 seq ++ rest) with (a ++ f ++ (le 4 seq ++ rest)) by (by rewrite <- (assoc_L (++))).
  rewrite bread_at by lia. cbn [mbind option_bind]. replace 6 with (Z.of_nat (length a)) at 1 by lia. by rewrite bwrite_app by (rewrite le_length; lia).
Qed.

Lemma modify_route_talk pton if_nametoindex talk stack dst_str dev tid segs new :
  modify_route pton if_nametoindex talk stack dst_str dev tid segs new =
    (x ← modify_route pton if_nametoindex 0 stack dst_str dev tid segs new; Some (match x.2 with Some _ => if talk <? 0 then -1 else 0 | None => x.1 end, x.2)).
Proof.
  unfold modify_route. destruct (pton dst_str) as [dst|]; [|done].
  repeat (match goal with
    | |- (?x ≫= _) = _ => destruct x as [?|]; [cbn [mbind option_bind]|done]
    | |- context [let '(_, _) := ?p in _] => destruct p
    | |- (if ?b then _ else _) = _ => destruct b; [done|]
    | |- ((if ?b then _ else _) ≫= _) = _ => destruct b
    end; try done).
Qed.

(** *** What the kernel answers to one request *)

(** Any number of datagrams without an answer, then one that acknowledges the
    request numbered [seq] with the error [err]. *)
Record answered (rtnl : rtnl_handle) (seq err : Z) (fore : list arrival) (a : arrival) (ms : list nlmsg) (ack : nlmsg) (post : list nlmsg) : Prop := {
  an_fore : Forall arrival_ok fore;
  an_skip : Forall (fun b => Forall (skipped rtnl seq 1 0) (ar_msgs b)) fore;
  an_ok : arrival_ok a;
  an_msgs : ar_msgs a = ms ++ ack :: post;
  an_before : Forall (skipped rtnl seq 1 0) ms;
  an_pid : nm_pid ack = rh_pid rtnl;
  an_ack : acknowledges ack err
}.

Lemma not_ours_window rtnl seq mpid mseq : mpid = rh_pid rtnl -> 1 <= seq < 2 ^ 32 -> seq - 1 <= mseq <= seq -> not_ours rtnl seq 1 0 mpid mseq = false.
Proof.
  intros -> Hs Hm. unfold not_ours. rewrite !Z.eqb_refl, wrap64_small by lia. cbn [negb orb Z.eqb].
  rewrite (proj2 (Z.ltb_ge _ _)), (proj2 (Z.ltb_ge _ _)) by lia. done.
Qed.

Lemma flat_outcomes_length fore : (length fore <= length (flat_map outcomes fore))%nat.
Proof. induction fore as [|a fore IH]; [done|]. cbn [flat_map length]. rewrite length_app. pose proof (outcomes_length a). lia. Qed.

Lemma rtnl_talk_answered rtnl n sendmsg stale err fore a ms ack post rs :
  let seq := rh_seq rtnl + 1 in
  0 <= rh_seq rtnl -> seq < 2 ^ 32 -> 0 <= sendmsg -> (12 <= length n)%nat -> answered rtnl seq err fore a ms ack post -> seq - 1 <= nm_seq ack <= seq ->
  rtnl_talk rtnl n false sendmsg true stale (flat_map outcomes fore ++ outcomes a ++ rs) =
    (t ← (if err =? 0 then of_option (s ← stale; Some (Talked 0 None None)) else Ret (Talked (- (1 + Z.of_nat (length fore))) (Some (- err)) None));
     Ret (set_seq rtnl seq, [numbered_request seq n], t)).
Proof.
  intros seq H0 Hs Hsend Hn [H1 H2 H3 H4 H5 H6 H7] Hack. unfold rtnl_talk, __rtnl_talk_iov. cbn [number_msgs]. rewrite wrap32_small by lia. fold seq.
  rewrite number_msg_ok by done. cbn [mbind option_bind of_option result_bind number_msgs]. rewrite (proj2 (Z.ltb_ge _ _)) by lia. cbn [length].
  erewrite (talk_loop_ack (set_seq rtnl seq) seq (Z.of_nat 1) stale fore _ 0 a ms ack post err rs); [done|done|exact H2|done|done|exact H5| |done|lia|].
  - apply not_ours_window; [done|lia|done].
  - rewrite !length_app. pose proof (flat_outcomes_length fore). pose proof (outcomes_length a). lia.
Qed.

(** ** Theorems *)

(** C26. The conversation about a route, while the sequence numbers have not
    wrapped around (seq + 1 < 2^32).  The message of [modify_route] leaves with
    the next sequence number and the demand for an acknowledgement; whatever
    interruptions, messages of other conversations and messages that are no
    acknowledgement come first, the daemon goes on until the kernel's
    acknowledgement and reports success exactly when its error number is 0.
    Excluded are a late acknowledgement numbered seq - 1, which the code takes
    for the answer ([rtnl_talk_takes_previous]); and the read of the freed
    buffer on success, undefined in C, is taken to yield a value, any value,
    and not to fault ([rtnl_talk_reads_freed]). *)
Theorem route_acknowledged (pton : string -> option in6_addr) (ntop : in6_addr -> string) (L : InetLaws pton ntop) (if_nametoindex : string -> Z)
    (stack : list Z) (dst : in6_addr) (dev : string) (tid : Z) (addrs : list in6_addr) (new : bool)
    (rtnl : rtnl_handle) (sendmsg stale err : Z) (fore : list arrival) (a : arrival) (ms : list nlmsg) (ack : nlmsg) (post : list nlmsg) (rs : list recv) :
  is_addr dst -> if_nametoindex dev <> 0 -> Forall is_addr addrs -> (0 < length addrs <= 57)%nat -> length stack = 1024%nat ->
  0 <= rh_seq rtnl -> rh_seq rtnl + 1 < 2 ^ 32 -> 0 <= sendmsg ->
  answered rtnl (rh_seq rtnl + 1) err fore a ms ack post -> nm_seq ack = rh_seq rtnl + 1 ->
  exists msg t, route_request msg new dst (if_nametoindex dev) tid addrs /\
    rtnl_talk rtnl msg false sendmsg true (Some stale) (flat_map outcomes fore ++ outcomes a ++ rs) =
      Ret (set_seq rtnl (rh_seq rtnl + 1), [numbered_request (rh_seq rtnl + 1) msg], t) /\
    modify_route pton if_nametoindex (tk_ret t) stack (ntop dst) dev tid (join (map ntop addrs)) new = Some (if err =? 0 then 0 else -1, Some msg) /\
    (err <> 0 -> tk_errno t = Some (- err)).
Proof.
  intros Hd Hdev Ha Hn Hst H0 Hs Hsend Hans Hseq.
  destruct (modify_route_request pton ntop if_nametoindex 0 stack (ntop dst) dst dev tid addrs new) as (msg & Hm & Hreq); [by apply il_roundtrip|done..|].
  assert (12 <= length msg)%nat as Hl.
  { pose proof (f_equal length (kr_header _ _ _ _ _ _ Hreq)) as H. rewrite length_take, length_drop in H. change (length (drop 4 (req_header (route_flags new) 128 (route_table tid)))) with 24%nat in H. lia. }
  exists msg. rewrite (rtnl_talk_answered rtnl msg sendmsg (Some stale) err fore a ms ack post rs) by (done || lia).
  destruct (Z.eqb_spec err 0) as [->|Hne]; cbn [mbind option_bind of_option result_bind]; eexists; (split; [done|]); rewrite modify_route_talk, Hm; cbn [mbind option_bind snd].
  - split; [reflexivity|]. split; [reflexivity|]. intros Hne. by destruct Hne.
  - split; [reflexivity|]. split; [|reflexivity]. cbn [tk_ret]. by rewrite (proj2 (Z.ltb_lt _ _)) by lia.
Qed.

(** The read of the freed buffer happens on every success: the sequence number
    of the acknowledgement is compared after the buffer has been freed. *)
Theorem rtnl_talk_reads_freed (rtnl : rtnl_handle) (n : list Z) (sendmsg : Z) (fore : list arrival) (a : arrival) (ms : list nlmsg) (ack : nlmsg) (post : list nlmsg) (rs : list recv) :
  0 <= rh_seq rtnl -> rh_seq rtnl + 1 < 2 ^ 32 -> 0 <= sendmsg -> (12 <= length n)%nat ->
  answered rtnl (rh_seq rtnl + 1) 0 fore a ms ack post -> nm_seq ack = rh_seq rtnl + 1 ->
  rtnl_talk rtnl n false sendmsg true None (flat_map outcomes fore ++ outcomes a ++ rs) = Fault.
Proof. intros H0 Hs Hsend Hn Hans Hseq. by rewrite (rtnl_talk_answered rtnl n sendmsg None 0 fore a ms ack post rs) by (done || lia). Qed.

(** The lower end of the window is one too low: a late acknowledgement of the
    request before is taken for that of this one. *)
Theorem rtnl_talk_takes_previous (rtnl : rtnl_handle) (n : list Z) (sendmsg stale : Z) (fore : list arrival) (a : arrival) (ms : list nlmsg) (ack : nlmsg) (post : list nlmsg) (rs : list recv) :
  0 <= rh_seq rtnl -> rh_seq rtnl + 1 < 2 ^ 32 -> 0 <= sendmsg -> (12 <= length n)%nat ->
  answered rtnl (rh_seq rtnl + 1) 0 fore a ms ack post -> nm_seq ack = rh_seq rtnl ->
  rtnl_talk rtnl n false sendmsg true (Some stale) (flat_map outcomes fore ++ outcomes a ++ rs) =
    Ret (set_seq rtnl (rh_seq rtnl + 1), [numbered_request (rh_seq rtnl + 1) n], Talked 0 None None).
Proof. intros H0 Hs Hsend Hn Hans Hseq. by rewrite (rtnl_talk_answered rtnl n sendmsg (Some stale) 0 fore a ms ack post rs) by (done || lia). Qed.

(** When the number of the request wraps to 0 the window is empty: no message
    is taken for the answer. *)
Lemma wrapped_window rtnl pid mpid mseq : 0 <= mseq < 2 ^ 32 -> not_ours rtnl 0 1 pid mpid mseq = true.
Proof.
  intros Hm. unfold not_ours. change (wrap64 (0 - 1)) with (2 ^ 64 - 1). rewrite (proj2 (Z.ltb_lt mseq (2 ^ 64 - 1))) by lia. apply orb_true_r.
Qed.

(** [rtnl_close] closes a descriptor once. *)
Lemma rtnl_close_once rth : (rtnl_close (rtnl_close rth).1).2 = None.
Proof. unfold rtnl_close. destruct (Z.leb_spec 0 (rh_fd rth)); [done|]. cbn [fst]. by rewrite (proj2 (Z.leb_gt _ _)). Qed.

(** ** A kernel that answers *)

Definition talk_handle : rtnl_handle := RtnlHandle 5 NETLINK_ROUTE 77 1000.
Definition kernel_msg (type seq pid : Z) (data : list Z) : nlmsg := NlMsg type 0 seq pid data [].
Definition kernel_ack (seq err : Z) : nlmsg := kernel_msg NLMSG_ERROR seq 77 (le 4 (wrap32 err) ++ replicate 16 0).
(** A notification for another port, then the answer behind an unexpected message. *)
Definition kernel_fore : list arrival := [Arrival [EINTR; EAGAIN] [] [kernel_msg 24 1001 78 [1; 2; 3; 4]]].
Definition kernel_arrival (seq err : Z) : arrival := Arrival [] [EINTR] [kernel_msg 3 1001 77 [0; 0; 0; 0]; kernel_ack seq err].

Lemma kernel_answered seq err : 0 <= seq < 2 ^ 32 -> - 2 ^ 31 <= err < 2 ^ 31 ->
  answered talk_handle 1001 err kernel_fore (kernel_arrival seq err) [kernel_msg 3 1001 77 [0; 0; 0; 0]] (kernel_ack seq err) [].
Proof.
  intros Hseq Herr. assert (msg_ok (kernel_ack seq err)) as Hk by (split; cbn; try lia; done).
  assert (forall t s p, 0 <= t < 2 ^ 16 -> 0 <= s < 2 ^ 32 -> 0 <= p < 2 ^ 32 -> forall x y z w, msg_ok (kernel_msg t s p [x; y; z; w])) as Hm by (intros; split; cbn; try lia; done).
  split.
  - apply Forall_singleton. split; cbn [ar_peek ar_recv ar_msgs]; [|constructor|done| |cbn; lia].
    + apply Forall_cons. split; [by left|]. apply Forall_singleton. by right.
    + apply Forall_singleton. apply Hm; lia.
  - apply Forall_singleton, Forall_singleton. left. by vm_compute.
  - split; cbn [kernel_arrival ar_peek ar_recv ar_msgs]; [constructor|apply Forall_singleton; by left|done| |cbn; lia].
    apply Forall_cons. split; [apply Hm; lia|]. by apply Forall_singleton.
  - done.
  - apply Forall_singleton. by right.
  - done.
  - split_and!; [done|lia|lia|]. exists (replicate 16 0). split; [done|]. rewrite length_replicate. lia.
Qed.

Lemma route_acknowledged_witness :
  exists msg t, route_request msg true (addr_n 80) 2 254 [addr_n 66] /\
    rtnl_talk talk_handle msg false 0 true (Some 9) (flat_map outcomes kernel_fore ++ outcomes (kernel_arrival 1001 (-17)) ++ []) =
      Ret (set_seq talk_handle 1001, [numbered_request 1001 msg], t) /\
    modify_route hex_pton one_dev (tk_ret t) scratch (hex_text (addr_n 80)) "eth0" 254 (join (map hex_text [addr_n 66])) true = Some (-1, Some msg) /\
    (-17 <> 0 -> tk_errno t = Some 17).
Proof.
  apply (route_acknowledged hex_pton hex_text hex_inet one_dev scratch (addr_n 80) "eth0" 254 [addr_n 66] true talk_handle 0 9 (-17)
    kernel_fore (kernel_arrival 1001 (-17)) [kernel_msg 3 1001 77 [0; 0; 0; 0]] (kernel_ack 1001 (-17)) []); try done; try (cbn; lia).
  - split; [done|by repeat constructor].
  - apply Forall_singleton. split; [done|by repeat constructor].
  - by apply kernel_answered.
Defined.

Lemma rtnl_talk_reads_freed_witness :
  rtnl_talk talk_handle (replicate 16 0) false 0 true None (flat_map outcomes kernel_fore ++ outcomes (kernel_arrival 1001 0) ++ []) = Fault.
Proof.
  apply (rtnl_talk_reads_freed talk_handle (replicate 16 0) 0 kernel_fore (kernel_arrival 1001 0) [kernel_msg 3 1001 77 [0; 0; 0; 0]] (kernel_ack 1001 0) []);
    [done|done|done|simpl; lia|by apply kernel_answered|done].
Defined.

Lemma rtnl_talk_takes_previous_witness :
  rtnl_talk talk_handle (replicate 16 0) false 0 true (Some 9) (flat_map outcomes kernel_fore ++ outcomes (kernel_arrival 1000 0) ++ []) =
    Ret (set_seq talk_handle 1001, [numbered_request 1001 (replicate 16 0)], Talked 0 None None).
Proof.
  apply (rtnl_talk_takes_previous talk_handle (replicate 16 0) 0 9 kernel_fore (kernel_arrival 1000 0) [kernel_msg 3 1001 77 [0; 0; 0; 0]] (kernel_ack 1000 0) []);
    [done|done|done|simpl; lia|by apply kernel_answered|done].
Defined.
