(* ===== verification/Client.v ===== *)
(** * The command-line client (sr-client/argc.c, util.c, client.c)

    The options, the directories of the log file and which requests are
    measured.  getopt is a parameter by its results, the options it finds with
    their arguments and the words that are left; strtod is one too. *)

From S2P Require Import Prelude Misc Rules Routed.
From Stdlib Require Import Ascii.

Definition STR_LEN : nat := 255.

(** strtol(s, &ptr, 10): the value and the text at [ptr]. *)
Fixpoint skip_digits (s : string) : string :=
  match s with String a s' => if isdigit a then skip_digits s' else s | EmptyString => "" end.
Definition starts_digit (s : string) : bool := match s with String a _ => isdigit a | EmptyString => false end.
Definition strtol_end (s : string) : Z * string :=
  let t := match skip_space s with String a t => if Ascii.eqb a "-" || Ascii.eqb a "+" then t else String a t | EmptyString => "" end in
  (strtol s, if starts_digit t then skip_digits t else s).

(** *ptr == '\0' *)
Definition at_end (s : string) : bool := match s with EmptyString => true | _ => false end.

Definition to_short (x : Z) : Z := (x + 2 ^ 15) mod 2 ^ 16 - 2 ^ 15.

Section client.
Context {D : Type} (strtod : string -> D * string) (negative : D -> bool) (one : D).

(** The char arrays hold the first [STR_LEN + 1] bytes of the argument. *)
Record client_conf := Conf {
  only_requests : bool; number_req : Z; probe_rate : Z; request_rate : D; dns_servername : option string;
  destination : string; destination_port : Z; regular_dns : bool; no_cache : bool; file_suffix : option string
}.

Definition conf_defaults : client_conf := Conf false 1 100 one None "" 0 false false None.
Definition copied (s : string) : string := stake (S STR_LEN) s.

Inductive opt := OptArg (c : ascii) (optarg : string) | OptFlag (c : ascii) | OptBad.

(** The body of the switch; [None]: return -1. *)
Definition parse_opt (conf : client_conf) (o : opt) : option client_conf :=
  match conf with
  | Conf only n p rate dns dst port reg nc suffix =>
      match o with
      | OptArg c optarg =>
          if Ascii.eqb c "S" then Some (Conf only n p rate dns dst port reg nc (Some (copied optarg)))
          else if Ascii.eqb c "s" then Some (Conf only n p rate (Some (copied optarg)) dst port reg nc suffix)
          else if Ascii.eqb c "R" then
            let '(v, ptr) := strtod optarg in if negb (at_end ptr) || negative v then None else Some (Conf only n p v dns dst port reg nc suffix)
          else if Ascii.eqb c "n" then
            let '(v, ptr) := strtol_end optarg in if negb (at_end ptr) || (v <? 0) then None else Some (Conf only v p rate dns dst port reg nc suffix)
          else if Ascii.eqb c "p" then
            let '(v, ptr) := strtol_end optarg in
            if negb (at_end ptr) || (v <? 0) || (100 <? v) then None else Some (Conf only n v rate dns dst port reg nc suffix)
          else None
      | OptFlag c =>
          if Ascii.eqb c "r" then Some (Conf true n p rate dns dst port reg nc suffix)
          else if Ascii.eqb c "D" then Some (Conf only n p rate dns dst port true nc suffix)
          else if Ascii.eqb c "C" then Some (Conf only n p rate dns dst port reg true suffix)
          else None
      | OptBad => None
      end
  end.

Fixpoint parse_opts (conf : client_conf) (opts : list opt) : option client_conf :=
  match opts with [] => Some conf | o :: opts => conf ← parse_opt conf o; parse_opts conf opts end.

Definition parse_args (opts : list opt) (args : list string) : option client_conf :=
  conf ← parse_opts conf_defaults opts;
  match args with
  | dst :: port :: _ =>
      let '(v, ptr) := strtol_end port in
      if negb (at_end ptr) || (to_short v <? 0) then None
      else Some (Conf (only_requests conf) (number_req conf) (probe_rate conf) (request_rate conf) (dns_servername conf) (copied dst) (to_short v)
        (regular_dns conf) (no_cache conf) (file_suffix conf))
  | _ => None
  end.

(** ** What is requested and what is measured *)

(** The requests of the three modes: the resolver library and the sockets are
    arguments, so is the result of malloc(). *)
Context (sr_socket : string -> Z -> option string -> string -> Z -> Z -> Z) (send : Z -> Z) (malloc : bool)
  (make_srdns_request : string -> option string -> string -> Z -> Z -> Z) (make_dns_request : string -> option string -> Z).

Definition test_srdns (dst : string) (port : Z) (dns : option string) : Z :=
  let fd := sr_socket dst port dns "accessA" 5 5 in
  if fd <? 0 then -1 else if send fd <? 0 then -1 else 0.

Definition test_dns_only (dst : string) (dns : option string) : Z := if malloc then make_srdns_request dst dns "accessA" 5 5 else -1.

Definition test_regular_dns_only (dst : string) (dns : option string) : Z := if malloc then make_dns_request dst dns else -1.

Definition client_request (conf : client_conf) : Z :=
  if regular_dns conf then test_regular_dns_only (destination conf) (dns_servername conf)
  else if only_requests conf then test_dns_only (destination conf) (dns_servername conf)
  else test_srdns (destination conf) (destination_port conf) (dns_servername conf).

(** What a thread does: whether the request is made, and the line of the log:
    whether it starts with FAILURE, and the times.  [start] and [finish]: the
    results of clock_gettime(). *)
Definition main_client_thread (conf : client_conf) (probe : bool) (start finish : option Z) : bool * option (bool * Z * Z) :=
  if probe then
    match start with
    | None => (false, None)
    | Some t0 => let err := client_request conf in match finish with None => (true, None) | Some t1 => (true, Some (err <? 0, t0, t1)) end
    end
  else (true, None).

(** Whether request [i] is measured; [None]: division by zero. *)
Definition probe_at (conf : client_conf) (i : Z) : option bool :=
  if probe_rate conf =? 0 then None
  else
    let every := Z.quot 100 (probe_rate conf) in
    if every =? 0 then None else Some (Z.rem (i - 1 + every) every =? 0).

(** The loop of main() over the requests: their measured flags. *)
Fixpoint requests (conf : client_conf) (i : Z) (n : nat) : option (list bool) :=
  match n with O => Some [] | S n => b ← probe_at conf i; l ← requests conf (i + 1) n; Some (b :: l) end.

(** ** Options and configurations *)

Definition options_of (conf : client_conf) (rate : string) : list opt :=
  match file_suffix conf with Some s => [OptArg "S" s] | None => [] end ++
  match dns_servername conf with Some s => [OptArg "s" s] | None => [] end ++
  (if only_requests conf then [OptFlag "r"] else []) ++ (if regular_dns conf then [OptFlag "D"] else []) ++ (if no_cache conf then [OptFlag "C"] else []) ++
  [OptArg "R" rate; OptArg "n" (dec (number_req conf)); OptArg "p" (dec (probe_rate conf))].

End client.

(** ** Directories *)

(** What is at a path: a directory or something else. *)
Inductive inode := Dir | Other.
#[export] Instance inode_eq_dec : EqDecision inode.
Proof. solve_decision. Defined.

Section directories.
(** The error number of a mkdir() that fails although stat() found nothing. *)
Context (EEXIST : Z) (mkdir_errno : string -> option Z).

Definition mkdir (fs : gmap string inode) (path : string) : option Z * gmap string inode :=
  match fs !! path with
  | Some _ => (Some EEXIST, fs)
  | None => match mkdir_errno path with None => (None, <[path := Dir]> fs) | Some e => (Some e, fs) end
  end.

(** Status and files. *)
Definition do_mkdir (fs : gmap string inode) (path : string) : Z * gmap string inode :=
  match fs !! path with
  | None => match mkdir fs path with (None, fs) => (0, fs) | (Some e, fs) => (if e =? EEXIST then 0 else -1, fs) end
  | Some Dir => (0, fs)
  | Some Other => (-1, fs)
  end.

(** [seen]: the path before [pp], with its slashes; [seg]: from [pp] on. *)
Fixpoint mkpath_loop (fs : gmap string inode) (seen seg rest : string) : Z * gmap string inode :=
  match rest with
  | EmptyString => (0, fs)
  | String a rest =>
      if Ascii.eqb a "/" then
        let sp := (seen ++ seg)%string in
        let '(status, fs) := match seg with EmptyString => (0, fs) | _ => do_mkdir fs sp end in
        if status =? 0 then mkpath_loop fs (sp ++ "/")%string "" rest else (status, fs)
      else mkpath_loop fs seen (seg ++ String a "")%string rest
  end.

Definition mkpath (fs : gmap string inode) (path : string) : Z * gmap string inode :=
  let '(status, fs) := mkpath_loop fs "" "" path in
  if status =? 0 then do_mkdir fs path else (status, fs).

(** snprintf(parent_directory, STR_LEN + 1, "%s/launch_%d", directories, i) *)
Definition launch_name (directories : string) (i : Z) : string := stake STR_LEN (directories ++ "/launch_" ++ dec i)%string.

(** The loop of main() that makes the directory of this run: [None]: it goes
    on; [Some None]: return -1. *)
Fixpoint launch_loop (fuel : nat) (fs : gmap string inode) (directories : string) (i : Z) : option (option string * gmap string inode) :=
  match fuel with
  | O => None
  | S fuel =>
      match mkdir fs (launch_name directories i) with
      | (None, fs) => Some (Some (launch_name directories i), fs)
      | (Some e, fs) => if e =? EEXIST then launch_loop fuel fs directories (i + 1) else Some (None, fs)
      end
  end.

(** A path of the segments, and the directories on the way. *)
Fixpoint slashed (segs : list string) : string :=
  match segs with [] => "" | [s] => s | s :: segs => (s ++ String "/" (slashed segs))%string end.
Fixpoint ancestors (seen : string) (segs : list string) : list string :=
  match segs with [] => [] | s :: segs => (seen ++ s)%string :: ancestors ((seen ++ s) ++ "/")%string segs end.
Definition seg_ok (s : string) : bool := negb (bool_decide (s = "")) && chars_in (fun a => negb (Ascii.eqb a "/")) s.

End directories.

(** ** Options *)

Lemma skip_digits_all s : chars_in isdigit s = true -> skip_digits s = "".
Proof. induction s as [|a s IH]; [done|]. cbn [chars_in skip_digits]. intros [-> Hs]%andb_true_iff. by apply IH. Qed.

Lemma digit_of_isdigit d : 0 <= d < 10 -> isdigit (digit_of d) = true.
Proof. intros Hd. unfold isdigit. rewrite digit_of_byte by done. apply andb_true_iff. lia. Qed.

(** A number that is not negative is read to its end. *)
Lemma strtol_end_dec n : 0 <= n < 2 ^ 31 -> strtol_end (dec n) = (n, "").
Proof.
  intros Hn. assert (chars_in isdigit (dec n) = true) as Hc.
  { unfold dec. replace (n <? 0) with false by lia. apply dec_loop_chars; [lia|apply digit_of_isdigit|done]. }
  assert (dec n <> "") as Hne.
  { unfold dec. replace (n <? 0) with false by lia. destruct (dec_loop_head 10 n "") as (d & s & _ & ->); [lia|done]. }
  destruct (dec n) as [|a s] eqn:E; [done|]. pose proof Hc as [Ha Hs]%andb_true_iff.
  assert (isspace a = false /\ Ascii.eqb a "-" = false /\ Ascii.eqb a "+" = false) as (Hsp & Hm & Hp).
  { revert Ha. clear. destruct a as [[] [] [] [] [] [] [] []]; by vm_compute. }
  unfold strtol_end, strtol. cbn [skip_space]. rewrite Hsp, Hm, Hp. cbn [orb]. unfold starts_digit. rewrite Ha, skip_digits_all by done.
  f_equal. rewrite <- E. unfold dec. replace (n <? 0) with false by lia. rewrite digits_dec by (simpl; lia). cbn [digits]. unfold clamp_long. lia.
Qed.

Lemma to_short_id n : 0 <= n < 2 ^ 15 -> to_short n = n.
Proof. intros Hn. unfold to_short. rewrite Z.mod_small by lia. lia. Qed.

Lemma copied_id s : (String.length s <= STR_LEN)%nat -> copied s = s.
Proof. intros Hs. apply stake_all. lia. Qed.

Section options.
Context {D : Type} (strtod : string -> D * string) (negative : D -> bool) (one : D).

(** What the options of a configuration can say. *)
Definition conf_ok (conf : client_conf (D := D)) : Prop :=
  0 <= number_req conf < 2 ^ 31 /\ 0 <= probe_rate conf <= 100 /\ 0 <= destination_port conf < 2 ^ 15 /\
  (String.length (destination conf) <= STR_LEN)%nat /\ negative (request_rate conf) = false /\
  (forall s, file_suffix conf = Some s \/ dns_servername conf = Some s -> (String.length s <= STR_LEN)%nat).

Ltac read_option Hrate Hneg :=
  progress (cbn [parse_opts parse_opt Ascii.eqb Bool.eqb mbind option_bind at_end negb orb]);
  rewrite ?Hrate, ?Hneg, ?strtol_end_dec by lia;
  repeat match goal with |- context [?a <? ?b] => replace (a <? b) with false by lia end.

(** The options of a configuration, followed by the destination and the port,
    are read back as the configuration. *)
Theorem parse_args_options (conf : client_conf (D := D)) (rate : string) (args : list string) :
  conf_ok conf -> strtod rate = (request_rate conf, "") ->
  parse_args strtod negative one (options_of conf rate) (destination conf :: dec (destination_port conf) :: args) = Some conf.
Proof.
  intros (Hn & Hp & Hport & Hdst & Hneg & Htxt) Hrate.
  destruct conf as [only n p r dns dst port reg nc suffix]. cbn [number_req probe_rate destination_port destination request_rate file_suffix dns_servername] in *.
  assert (parse_opts strtod negative (conf_defaults one) (options_of (Conf only n p r dns dst port reg nc suffix) rate) =
    Some (Conf only n p r dns "" 0 reg nc suffix)) as H.
  { assert (Hdef : suffix = option_map copied suffix /\ dns = option_map copied dns).
    { destruct suffix, dns; cbn [option_map]; rewrite ?copied_id; auto. }
    destruct Hdef as [Hsu Hdn]. unfold conf_defaults, options_of. cbn [number_req probe_rate destination_port destination request_rate file_suffix dns_servername only_requests regular_dns no_cache].
    destruct suffix as [su|], dns as [dn|], only, reg, nc; cbn [app]; repeat read_option Hrate Hneg; cbn [option_map] in *; by rewrite <- ?Hsu, <- ?Hdn. }
  unfold parse_args. rewrite H. cbn [mbind option_bind]. rewrite strtol_end_dec by lia. cbn [at_end negb orb]. rewrite to_short_id by done.
  replace (port <? 0) with false by lia. cbn [only_requests number_req probe_rate request_rate dns_servername regular_dns no_cache file_suffix]. by rewrite copied_id.
Qed.

(** The cast to a short comes before the test: of the ports a number can name,
    the upper half is refused, and larger numbers are taken modulo 2^16. *)
Lemma port_cast v : 0 <= v < 2 ^ 31 -> forall dst args,
  parse_args strtod negative one [] (dst :: dec v :: args) =
  if v mod 2 ^ 16 <? 2 ^ 15 then Some (Conf false 1 100 one None (copied dst) (v mod 2 ^ 16) false false None) else None.
Proof.
  intros Hv dst args. unfold parse_args. cbn [parse_opts mbind option_bind]. rewrite strtol_end_dec by done. cbn [at_end negb orb].
  assert (to_short v = if v mod 2 ^ 16 <? 2 ^ 15 then v mod 2 ^ 16 else v mod 2 ^ 16 - 2 ^ 16) as E.
  { unfold to_short. pose proof (Z.mod_pos_bound v (2 ^ 16) ltac:(lia)) as Hm. rewrite <- Zplus_mod_idemp_l.
    destruct (Z.ltb_spec (v mod 2 ^ 16) (2 ^ 15)); [rewrite Z.mod_small by lia; lia|].
    replace (v mod 2 ^ 16 + 2 ^ 15) with (v mod 2 ^ 16 - 2 ^ 15 + 1 * 2 ^ 16) by lia. rewrite Z_mod_plus_full, Z.mod_small by lia. lia. }
  rewrite E. pose proof (Z.mod_pos_bound v (2 ^ 16) ltac:(lia)). destruct (Z.ltb_spec (v mod 2 ^ 16) (2 ^ 15)).
  - by replace (v mod 2 ^ 16 <? 0) with false by lia.
  - by replace (v mod 2 ^ 16 - 2 ^ 16 <? 0) with true by lia.
Qed.

(** An option without digits is a number: 0. *)
Lemma empty_number_accepted conf : number_req <$> parse_opt strtod negative conf (OptArg "n" "") = Some 0.
Proof. by destruct conf. Qed.

(** ** Measures *)

(** With a rate of [p] percent, one request of [100 / p] is measured: those
    whose number is 1 modulo [100 / p]. *)
Theorem probe_schedule (conf : client_conf (D := D)) (i : Z) :
  0 < probe_rate conf <= 100 -> 0 <= i -> probe_at conf i = Some ((i - 1) mod (100 / probe_rate conf) =? 0).
Proof.
  intros Hp Hi. unfold probe_at. replace (probe_rate conf =? 0) with false by lia. rewrite Z.quot_div_nonneg by lia.
  assert (1 <= 100 / probe_rate conf) by (apply Z.div_le_lower_bound; lia). set (k := 100 / probe_rate conf) in *.
  replace (k =? 0) with false by lia. rewrite Z.rem_mod_nonneg by lia. do 2 f_equal. replace (i - 1 + k) with (i - 1 + 1 * k) by lia. apply Z_mod_plus_full.
Qed.

(** The first request is not measured, unless all are. *)
Lemma first_not_measured (conf : client_conf (D := D)) : 0 < probe_rate conf <= 50 -> probe_at conf 0 = Some false.
Proof.
  intros Hp. rewrite probe_schedule by lia. assert (2 <= 100 / probe_rate conf) by (apply Z.div_le_lower_bound; lia). set (k := 100 / probe_rate conf) in *.
  f_equal. apply Z.eqb_neq. rewrite <- (Z_mod_plus_full _ 1), Z.mod_small by lia. lia.
Qed.

(** The requests are all sent, unless the rate is 0, which the options allow. *)
Lemma requests_length (conf : client_conf (D := D)) n : 0 < probe_rate conf <= 100 -> forall i, 0 <= i -> length <$> requests conf i n = Some n.
Proof.
  intros Hp. induction n as [|n IH]; intros i Hi; [done|]. cbn [requests]. rewrite probe_schedule by done. cbn [mbind option_bind].
  specialize (IH (i + 1) ltac:(lia)). destruct (requests conf (i + 1) n); [|done]. cbn in *. by injection IH as ->.
Qed.

Lemma rate_zero_crashes (conf : client_conf (D := D)) n i : probe_rate conf = 0 -> requests conf i (S n) = None.
Proof. intros Hp. cbn [requests]. unfold probe_at. by rewrite Hp. Qed.

End options.

(** ** Directories *)

Section paths.
Context (EEXIST : Z) (mkdir_errno : string -> option Z).
Local Abbreviation do_mkdir := (do_mkdir EEXIST mkdir_errno).
Local Abbreviation mkpath := (mkpath EEXIST mkdir_errno).

(** do_mkdir() on each path until one fails. *)
Fixpoint mkdirs (fs : gmap string inode) (ps : list string) : Z * gmap string inode :=
  match ps with [] => (0, fs) | p :: ps => let '(status, fs) := do_mkdir fs p in if status =? 0 then mkdirs fs ps else (status, fs) end.

Lemma mkpath_segment s : chars_in (fun a => negb (Ascii.eqb a "/")) s = true -> forall fs seen seg rest,
  mkpath_loop EEXIST mkdir_errno fs seen seg (s ++ rest) = mkpath_loop EEXIST mkdir_errno fs seen (seg ++ s) rest.
Proof.
  induction s as [|a s IH]; intros Hs fs seen seg rest; [by rewrite sapp_nil|]. cbn [chars_in] in Hs. apply andb_true_iff in Hs as [Ha%negb_true_iff Hs].
  change (String a s ++ rest)%string with (String a (s ++ rest)). cbn [mkpath_loop]. rewrite Ha, IH by done. by rewrite <- sapp_assoc.
Qed.

Lemma mkpath_loop_mkdirs segs : segs <> [] -> forallb seg_ok segs = true -> forall fs seen,
  (let '(status, fs') := mkpath_loop EEXIST mkdir_errno fs seen "" (slashed segs) in if status =? 0 then do_mkdir fs' (seen ++ slashed segs) else (status, fs')) =
  mkdirs fs (ancestors seen segs).
Proof.
  induction segs as [|s segs IH]; intros Hne Hok fs seen; [done|]. cbn [forallb] in Hok. apply andb_true_iff in Hok as [[Hs1 Hs2]%andb_true_iff Hok].
  apply negb_true_iff, bool_decide_eq_false in Hs1. destruct segs as [|t segs].
  - cbn [slashed ancestors mkdirs]. rewrite <- (sapp_nil s) at 1. rewrite mkpath_segment by done. cbn [String.append mkpath_loop]. cbn [Z.eqb].
    destruct (do_mkdir fs (seen ++ s)) as [st fs'] eqn:E. by destruct (Z.eqb_spec st 0) as [->|].
  - change (slashed (s :: t :: segs)) with (s ++ String "/" (slashed (t :: segs)))%string. rewrite mkpath_segment by done.
    change (ancestors seen (s :: t :: segs)) with ((seen ++ s)%string :: ancestors ((seen ++ s) ++ "/")%string (t :: segs)).
    cbn [mkpath_loop mkdirs Ascii.eqb Bool.eqb String.append]. destruct s as [|c s]; [done|]. change ("" ++ String c s)%string with (String c s). cbv beta iota. destruct (do_mkdir fs (seen ++ String c s)) as [st fs'] eqn:E.
    destruct (Z.eqb_spec st 0) as [->|Hst].
    + cbn [Z.eqb]. rewrite <- IH by done. destruct (mkpath_loop _ _ _ _ _ _) as [st' fs'']. destruct (st' =? 0); [|done].
      f_equal. by rewrite (sapp_assoc seen (String c s)), <- (sapp_assoc (seen ++ String c s) "/").
    + by destruct (Z.eqb_spec st 0).
Qed.

(** mkpath() makes the directories of a path one after the other. *)
Lemma mkpath_mkdirs segs fs : segs <> [] -> forallb seg_ok segs = true -> mkpath fs (slashed segs) = mkdirs fs (ancestors "" segs).
Proof. intros Hne Hok. rewrite <- (mkpath_loop_mkdirs segs Hne Hok fs ""). done. Qed.

(** Where mkdir() only fails because of what is there. *)
Context (Hmkdir : forall p, mkdir_errno p = None).

Lemma do_mkdir_spec fs p : do_mkdir fs p = if bool_decide (fs !! p = Some Other) then (-1, fs) else (0, <[p := Dir]> fs).
Proof.
  unfold Client.do_mkdir, mkdir. destruct (fs !! p) as [[]|] eqn:E.
  - rewrite bool_decide_false by done. by rewrite insert_id.
  - by rewrite bool_decide_true.
  - rewrite bool_decide_false by done. by rewrite Hmkdir.
Qed.

Lemma mkdirs_ok ps : forall fs, (forall p, p ∈ ps -> fs !! p <> Some Other) ->
  exists fs', mkdirs fs ps = (0, fs') /\ forall p, fs' !! p = if bool_decide (p ∈ ps) then Some Dir else fs !! p.
Proof.
  induction ps as [|q ps IH]; intros fs Hfs; [by exists fs|]. cbn [mkdirs]. rewrite do_mkdir_spec, bool_decide_false by (apply Hfs; by left). cbn [Z.eqb].
  destruct (IH (<[q := Dir]> fs)) as (fs' & -> & Hfs'). { intros p Hp. destruct (decide (p = q)) as [->|]; simplify_map_eq; [done|]. apply Hfs. by right. }
  exists fs'. split; [done|]. intros p. rewrite Hfs'. destruct (decide (p ∈ ps)).
  - by rewrite !bool_decide_true by (done || by right).
  - rewrite bool_decide_false by done. destruct (decide (p = q)) as [->|Hne]; [rewrite bool_decide_true by (by left)|rewrite bool_decide_false by set_solver]; by simplify_map_eq.
Qed.

Lemma mkdirs_blocked ps : forall fs p, p ∈ ps -> fs !! p = Some Other -> exists fs', mkdirs fs ps = (-1, fs').
Proof.
  induction ps as [|q ps IH]; intros fs p Hp Hfs; [by apply elem_of_nil in Hp|]. cbn [mkdirs]. rewrite do_mkdir_spec. case_bool_decide as Hq; [by eexists|]. cbn [Z.eqb].
  apply elem_of_cons in Hp as [->|Hp]; [done|]. apply (IH _ p); [done|]. rewrite lookup_insert_ne; [done|]. by intros ->.
Qed.

(** mkpath() on a path without empty names succeeds if no file is in the way;
    then the path and all the directories it goes through exist, and nothing
    else has changed.  Otherwise it fails. *)
Theorem mkpath_spec (fs : gmap string inode) (segs : list string) :
  segs <> [] -> forallb seg_ok segs = true ->
  if forallb (fun p => negb (bool_decide (fs !! p = Some Other))) (ancestors "" segs)
  then exists fs', mkpath fs (slashed segs) = (0, fs') /\ forall p, fs' !! p = if bool_decide (p ∈ ancestors "" segs) then Some Dir else fs !! p
  else exists fs', mkpath fs (slashed segs) = (-1, fs').
Proof.
  intros Hne Hok. rewrite mkpath_mkdirs by done. destruct (forallb (fun _ => _) _) eqn:E.
  - rewrite forallb_forall in E. apply mkdirs_ok. intros p Hp%list_elem_of_In%E. by apply negb_true_iff, bool_decide_eq_false in Hp.
  - assert (exists p, p ∈ ancestors "" segs /\ fs !! p = Some Other) as (p & Hp & Hfs); [|by eapply mkdirs_blocked].
    revert E. induction (ancestors "" segs) as [|q ps IH]; [done|]. cbn [forallb]. case_bool_decide as Hq; [intros _; exists q; by split; [left|]|].
    cbn [negb andb]. intros (p & Hp & Hfs)%IH. exists p. by split; [right|].
Qed.

(** *** The directory of a run *)

Definition room (directories : string) : Prop := (String.length directories + 18 <= STR_LEN)%nat.

Lemma dec_loop_digits fuel : forall n acc k, 0 <= n < 10 ^ Z.of_nat k -> (0 < k)%nat -> (String.length (dec_loop fuel n acc) <= k + String.length acc)%nat.
Proof.
  induction fuel as [|fuel IH]; intros n acc k Hn Hk; [cbn; lia|]. cbn [dec_loop]. destruct (Z.eqb_spec (n / 10) 0) as [|Hd]; [cbn [String.length]; lia|].
  destruct k as [|[|k]]; [lia| |].
  - exfalso. apply Hd, Z.div_small. change (10 ^ Z.of_nat 1) with 10 in Hn. lia.
  - specialize (IH (n / 10) (String (digit_of (n mod 10)) acc) (S k)). cbn [String.length] in IH. rewrite Nat2Z.inj_succ, Z.pow_succ_r in Hn by lia.
    assert (0 <= n / 10 < 10 ^ Z.of_nat (S k)) by (split; [apply Z.div_pos|apply Z.div_lt_upper_bound]; lia). specialize (IH ltac:(done) ltac:(lia)). lia.
Qed.

Lemma launch_name_full d i : room d -> 0 <= i < 2 ^ 31 -> launch_name d i = (d ++ "/launch_" ++ dec i)%string.
Proof.
  intros Hd Hi. apply stake_all. rewrite !slength_app. assert (String.length (dec i) <= 10)%nat; [|unfold room in Hd; cbn [String.length]; lia].
  unfold dec. replace (i <? 0) with false by lia. pose proof (dec_loop_digits 11 i "" 10). cbn [String.length] in *. lia.
Qed.

Lemma launch_name_inj d i j : room d -> 0 <= i < 2 ^ 31 -> 0 <= j < 2 ^ 31 -> launch_name d i = launch_name d j -> i = j.
Proof.
  intros Hd Hi Hj. rewrite !launch_name_full by done. intros H. assert (dec i = dec j) as E.
  { revert H. clear. induction d as [|a d IH]; [by intros [=]|]. cbn [String.append]. intros [= H]. by apply IH. }
  pose proof (strtol_end_dec i Hi) as Ei. rewrite E, strtol_end_dec in Ei by done. by injection Ei.
Qed.

(** While the first [i] names are taken, [i] is at most the number of files. *)
Lemma launches_bounded (fs : gmap string inode) d (i : nat) : room d -> Z.of_nat i <= 2 ^ 31 ->
  (forall j, (j < i)%nat -> is_Some (fs !! launch_name d (Z.of_nat j))) -> (i <= size fs)%nat.
Proof.
  intros Hd Hi Hfs. rewrite <- size_dom. set (l := (fun j : nat => launch_name d (Z.of_nat j)) <$> seq 0 i).
  assert (NoDup l) as Hl.
  { apply NoDup_fmap_2_strong; [|apply NoDup_seq]. intros x y Hx%elem_of_seq Hy%elem_of_seq H. apply Nat2Z.inj. eapply launch_name_inj; [done|lia..|done]. }
  replace i with (length l) by (unfold l; by rewrite length_fmap, length_seq). rewrite <- (size_list_to_set (C := gset string)) by done. apply subseteq_size.
  intros x Hx%elem_of_list_to_set. apply list_elem_of_fmap in Hx as (j & -> & Hj%elem_of_seq). apply elem_of_dom, Hfs. lia.
Qed.

(** The run gets the first number that is not taken; there are no more steps
    than files. *)
Theorem launch_first (fs : gmap string inode) (d : string) :
  room d -> Z.of_nat (size fs) < 2 ^ 31 -> exists k : nat,
  launch_loop EEXIST mkdir_errno (S (size fs)) fs d 0 = Some (Some (launch_name d (Z.of_nat k)), <[launch_name d (Z.of_nat k) := Dir]> fs) /\
  fs !! launch_name d (Z.of_nat k) = None /\ forall j : nat, (j < k)%nat -> is_Some (fs !! launch_name d (Z.of_nat j)).
Proof.
  intros Hd Hs. enough (forall fuel (i : nat), (size fs < i + fuel)%nat -> Z.of_nat i < 2 ^ 31 -> (forall j, (j < i)%nat -> is_Some (fs !! launch_name d (Z.of_nat j))) ->
    exists k : nat, launch_loop EEXIST mkdir_errno fuel fs d (Z.of_nat i) = Some (Some (launch_name d (Z.of_nat k)), <[launch_name d (Z.of_nat k) := Dir]> fs) /\
      fs !! launch_name d (Z.of_nat k) = None /\ forall j : nat, (j < k)%nat -> is_Some (fs !! launch_name d (Z.of_nat j))) as H.
  { apply (H (S (size fs)) O); [lia|lia|intros j Hj; lia]. }
  induction fuel as [|fuel IH]; intros i Hf Hi Hj; pose proof (launches_bounded fs d i Hd ltac:(lia) Hj) as Hb; [lia|].
  cbn [launch_loop]. unfold mkdir. destruct (fs !! launch_name d (Z.of_nat i)) as [x|] eqn:E.
  - rewrite Z.eqb_refl. assert (Hj' : forall j, (j < S i)%nat -> is_Some (fs !! launch_name d (Z.of_nat j))).
    { intros j Hlt. destruct (decide (j = i)) as [->|]; [by eexists|]. apply Hj. lia. }
    pose proof (launches_bounded fs d (S i) Hd ltac:(lia) Hj'). replace (Z.of_nat i + 1) with (Z.of_nat (S i)) by lia. apply IH; [lia|lia|done].
  - rewrite Hmkdir. by exists i.
Qed.

(** A path that fills the buffer leaves no room for the number: the loop asks
    for the same directory for ever. *)
Lemma launch_stuck (fs : gmap string inode) d : String.length d = STR_LEN -> is_Some (fs !! d) -> forall fuel i, launch_loop EEXIST mkdir_errno fuel fs d i = None.
Proof.
  intros Hd [x Hx] fuel. induction fuel as [|fuel IH]; intros i; [done|]. cbn [launch_loop].
  assert (launch_name d i = d) as ->. { unfold launch_name. rewrite stake_app, <- Hd, Nat.sub_diag, stake_all by lia. apply sapp_nil. }
  unfold mkdir. rewrite Hx, Z.eqb_refl. apply IH.
Qed.

End paths.
