(* ===== verification/Transport.v ===== *)
(** * Transactions and monitors of the database library (lib/srdb.c)

    The threads that talk to the database server.  The first part is
    [transaction_worker] with the clients that queue transactions, wake the
    workers and wait for results, and the server at the other end of each
    worker's socket, interleaved in any order.  The queue is any [Buffer] of
    Sbuf.v: the ring of [struct sbuf] in the theorems, the bounded list that it
    refines in their proofs.  The second part is the receive loop of
    [ovsdb_monitor], which cuts a byte stream into JSON messages.

    A transaction is a number; [None] in the queue is the NULL that
    [srdb_destroy] pushes. *)

From S2P Require Import Prelude Sync Sbuf Rules Srdb.

(** ** Workers *)

(** What the server sends on a worker's socket. *)
Inductive msg := MEcho | MResult (t : Z) | MOther.

(** The program points of [transaction_worker]: in poll; poll returned with
    the two revents; before the read of the event; before the test of
    [pending]; thread ended. *)
Inductive wpc := WPoll | WReady (r0 r1 : bool) | WEvent (r1 : bool) | WTry | WExit.

(** [wk_reqs]: what the server has received and not answered. *)
Record worker := Worker { wk_pc : wpc; wk_event : Z; wk_sock : list msg; wk_reqs : list Z; wk_pending : option Z }.

Definition new_worker : worker := Worker WPoll 0 [] [] None.

(** One recv gives [got]; only the first JSON text of it is parsed. *)
Definition fetch_transaction_result (got : list msg) : option Z :=
  match got with MResult t :: _ => Some t | _ => None end.

(** One step of [transaction_worker]: queue, results, worker.  [n] is how many
    messages recv finds, [sent] whether [send_transaction] succeeds. *)
Definition worker_step {Q} {B : Buffer Q (option Z)} (n : nat) (sent : bool) (q : Q) (res : gmap Z Z) (w : worker) : option (Q * gmap Z Z * worker) :=
  match wk_pc w with
  | WPoll =>
      let r0 := negb (length (wk_sock w) =? 0)%nat in
      let r1 := 0 <? wk_event w in
      if r0 || r1 then Some (q, res, Worker (WReady r0 r1) (wk_event w) (wk_sock w) (wk_reqs w) (wk_pending w)) else None
  | WReady r0 r1 =>
      if r0 then
        let rest := drop n (wk_sock w) in
        match fetch_transaction_result (take n (wk_sock w)), wk_pending w with
        | Some r, Some t => Some (q, <[t := r]> res, Worker (WEvent r1) (wk_event w) rest (wk_reqs w) None)
        | _, p => Some (q, res, Worker (WEvent r1) (wk_event w) rest (wk_reqs w) p)
        end
      else Some (q, res, Worker (WEvent r1) (wk_event w) (wk_sock w) (wk_reqs w) (wk_pending w))
  | WEvent r1 => Some (q, res, Worker WTry (if r1 then 0 else wk_event w) (wk_sock w) (wk_reqs w) (wk_pending w))
  | WTry =>
      match wk_pending w with
      | Some _ => Some (q, res, Worker WPoll (wk_event w) (wk_sock w) (wk_reqs w) (wk_pending w))
      | None =>
          match b_pop q with
          | None => Some (q, res, Worker WPoll (wk_event w) (wk_sock w) (wk_reqs w) (wk_pending w))
          | Some (None, q) => Some (q, res, Worker WExit (wk_event w) (wk_sock w) (wk_reqs w) None)
          | Some (Some t, q) =>
              if sent then Some (q, res, Worker WPoll (wk_event w) (wk_sock w) (wk_reqs w ++ [t]) (Some t))
              else Some (q, res, Worker WExit (wk_event w) (wk_sock w) (wk_reqs w) None)
          end
      end
  | WExit => None
  end.

(** ** Clients *)

(** [srdb_update_sync], [srdb_insert_sync], [srdb_delete_sync]: before
    sbuf_push; in [wakeup_tr_workers] before the write to worker [i]; before
    sbuf_pop of the result; done. *)
Inductive client := CPush | CWake (i : nat) | CWait | CDone (r : Z).

Record sys {Q : Type} := Sys { s_queue : Q; s_results : gmap Z Z; s_workers : list worker; s_clients : gmap Z client; s_sent : list Z }.
Arguments sys : clear implicits.
Arguments Sys {Q}.

Section steps.
Context {Q : Type} {B : Buffer Q (option Z)}.

(** write(event_fd, 1) *)
Definition add_event (w : worker) : worker := Worker (wk_pc w) (wk_event w + 1) (wk_sock w) (wk_reqs w) (wk_pending w).

Definition client_step (t : Z) (s : sys Q) : option (sys Q) :=
  c ← s_clients s !! t;
  match c with
  | CPush =>
      q ← b_push (s_queue s) (Some t); Some (Sys q (s_results s) (s_workers s) (<[t := CWake 0]> (s_clients s)) (s_sent s))
  | CWake i =>
      match s_workers s !! i with
      | Some w => Some (Sys (s_queue s) (s_results s) (<[i := add_event w]> (s_workers s)) (<[t := CWake (S i)]> (s_clients s)) (s_sent s))
      | None => Some (Sys (s_queue s) (s_results s) (s_workers s) (<[t := CWait]> (s_clients s)) (s_sent s))
      end
  | CWait => r ← s_results s !! t; Some (Sys (s_queue s) (s_results s) (s_workers s) (<[t := CDone r]> (s_clients s)) (s_sent s))
  | CDone _ => None
  end.

(** ** The system *)

(** A worker's step, a client's step, the server answering a request or
    sending a keep-alive. *)
Inductive label := LWorker (k n : nat) (sent : bool) | LClient (t : Z) | LReply (k : nat) | LEcho (k : nat).

Definition sys_step (l : label) (s : sys Q) : option (sys Q) :=
  match l with
  | LWorker k n sent =>
      w ← s_workers s !! k;
      '(q, res, w') ← worker_step n sent (s_queue s) (s_results s) w;
      Some (Sys q res (<[k := w']> (s_workers s)) (s_clients s)
        (s_sent s ++ drop (length (wk_reqs w)) (wk_reqs w')))
  | LClient t => client_step t s
  | LReply k =>
      w ← s_workers s !! k;
      match wk_reqs w with
      | t :: reqs => Some (Sys (s_queue s) (s_results s)
          (<[k := Worker (wk_pc w) (wk_event w) (wk_sock w ++ [MResult t]) reqs (wk_pending w)]> (s_workers s)) (s_clients s) (s_sent s))
      | [] => None
      end
  | LEcho k =>
      w ← s_workers s !! k;
      Some (Sys (s_queue s) (s_results s)
        (<[k := Worker (wk_pc w) (wk_event w) (wk_sock w ++ [MEcho]) (wk_reqs w) (wk_pending w)]> (s_workers s)) (s_clients s) (s_sent s))
  end.

Fixpoint run (ls : list label) (s : sys Q) : option (sys Q) :=
  match ls with [] => Some s | l :: ls => s ← sys_step l s; run ls s end.

(** [n] workers and an empty queue; each of [ts] will be submitted. *)
Definition sys_start (q : Q) (n : nat) (ts : list Z) : sys Q := Sys q ∅ (replicate n new_worker) (list_to_map (map (fun t => (t, CPush)) ts)) [].

(** Every recv finds one message and every send succeeds. *)
Definition smooth (l : label) : Prop := match l with LWorker _ n sent => n = 1%nat /\ sent = true | _ => True end.

(** Nothing moves but keep-alives. *)
Definition quiet (s : sys Q) : Prop := forall l s', smooth l -> sys_step l s = Some s' -> exists k, l = LEcho k.

End steps.

(** [srdb_new]: the queue is a buffer of 2n slots. *)
Definition srdb_start (n : nat) (ts : list Z) : sys (sbuf (option Z)) := sys_start (sbuf_new (Z.of_nat (2 * n))) n ts.

(** ** Invariant, with the list as the queue *)

Definition results_of (ms : list msg) : list Z := omap (fun m => match m with MResult t => Some t | _ => None end) ms.

Record worker_ok (w : worker) : Prop := {
  wo_alive : wk_pc w <> WExit;
  wo_event : 0 <= wk_event w;
  wo_conn : results_of (wk_sock w) ++ wk_reqs w = match wk_pending w with Some t => [t] | None => [] end
}.

Section on_list.
Context (cap : nat).
#[local] Instance list_buffer : Buffer (list (option Z)) (option Z) := fifo cap.
Local Abbreviation sys := (sys (list (option Z))).

(** An idle worker sees the queue as empty, has been woken, or is about to be. *)
Definition will_look (s : sys) (k : nat) (w : worker) : Prop :=
  wk_pc w = WPoll -> wk_pending w = None -> s_queue s <> [] ->
  0 < wk_event w \/ exists t i, s_clients s !! t = Some (CWake i) /\ (i <= k)%nat.

(** Where the transaction of a client is. *)
Definition client_ok (s : sys) (t : Z) (c : client) : Prop :=
  let placed := Some t ∈ s_queue s \/ (exists k w, s_workers s !! k = Some w /\ wk_pending w = Some t) \/ is_Some (s_results s !! t) in
  match c with
  | CPush => (Some t ∉ s_queue s) /\ (t ∉ s_sent s)
  | CWake _ | CWait => placed
  | CDone r => r = t /\ (t ∈ s_sent s)
  end.

Record inv (s : sys) : Prop := {
  iv_workers : Forall worker_ok (s_workers s);
  iv_look : forall k w, s_workers s !! k = Some w -> will_look s k w;
  iv_queue : Forall is_Some (s_queue s);
  iv_clients : map_Forall (client_ok s) (s_clients s);
  iv_results : map_Forall (fun t r => r = t /\ t ∈ s_sent s) (s_results s);
  iv_pending : forall k w t, s_workers s !! k = Some w -> wk_pending w = Some t -> t ∈ s_sent s;
  iv_once : NoDup (omap id (s_queue s) ++ s_sent s)
}.

Definition with_worker (s : sys) (k : nat) (w : worker) : sys :=
  Sys (s_queue s) (s_results s) (<[k := w]> (s_workers s)) (s_clients s) (s_sent s).

Lemma worker_in s k w : inv s -> s_workers s !! k = Some w -> worker_ok w.
Proof. intros I Hk. eapply Forall_lookup_1; [apply I|done]. Qed.

(** A transaction that is somewhere stays there when one worker changes but
    not its pending transaction. *)
Lemma client_ok_mono s s' t c :
  s_queue s' = s_queue s -> s_sent s' = s_sent s -> s_results s' = s_results s ->
  (forall k w, s_workers s !! k = Some w -> exists k' w', s_workers s' !! k' = Some w' /\ wk_pending w' = wk_pending w) ->
  client_ok s t c -> client_ok s' t c.
Proof.
  intros Hq Hs Hr Hw. unfold client_ok. rewrite Hq, Hs, Hr. destruct c; [done| | |done];
    (intros [H|[(k & w & Hk & Hp)|H]]; [by left| |by right; right]; right; left; destruct (Hw k w Hk) as (k' & w' & Hk' & Hp'); exists k', w'; by rewrite Hp').
Qed.

Lemma upd_pending (ws : list worker) k w w' : ws !! k = Some w -> wk_pending w' = wk_pending w ->
  forall i x, ws !! i = Some x -> exists j y, <[k := w']> ws !! j = Some y /\ wk_pending y = wk_pending x.
Proof.
  intros Hk Hp i x Hi. destruct (decide (i = k)) as [->|Hne].
  - exists k, w'. rewrite list_lookup_insert_eq by (by eapply lookup_lt_Some). split; [done|congruence].
  - exists i, x. by rewrite list_lookup_insert_ne.
Qed.

Lemma inv_with_worker s k w w' :
  inv s -> s_workers s !! k = Some w -> worker_ok w' -> wk_pending w' = wk_pending w -> will_look s k w' -> inv (with_worker s k w').
Proof.
  intros I Hk Hok Hp Hl. pose proof (upd_pending (s_workers s) k w w' Hk Hp) as Hu. destruct I as [I1 I2 I3 I4 I5 I6 I7].
  split; cbn [with_worker s_workers s_queue s_clients s_results s_sent]; [by apply Forall_insert| |done| |done| |done].
  - intros i x Hi. apply list_lookup_insert_Some in Hi as [(-> & -> & _)|[_ Hi]]; [exact Hl|exact (I2 i x Hi)].
  - intros t c Hc. eapply client_ok_mono; [| | | |exact (I4 t c Hc)]; [done|done|done|exact Hu].
  - intros i x t Hi Hx. apply list_lookup_insert_Some in Hi as [(-> & -> & _)|[_ Hi]]; [|by eapply I6]. rewrite Hp in Hx. by eapply I6.
Qed.

(** *** One lemma per kind of step *)

(** The result of its transaction reaches a worker. *)
Lemma inv_deliver s k w t rest pc :
  inv s -> s_workers s !! k = Some w -> wk_pending w = Some t -> pc <> WExit -> pc <> WPoll ->
  results_of rest = [] -> wk_reqs w = [] ->
  inv (Sys (s_queue s) (<[t := t]> (s_results s)) (<[k := Worker pc (wk_event w) rest (wk_reqs w) None]> (s_workers s)) (s_clients s) (s_sent s)).
Proof.
  intros I Hk Hp Hpc Hpoll Hrest Hreqs. pose proof (worker_in s k w I Hk) as Hw. destruct I as [I1 I2 I3 I4 I5 I6 I7].
  split; cbn [s_workers s_queue s_clients s_results s_sent]; [| |done| | | |done].
  - apply Forall_insert; [done|]. split; cbn [wk_pc wk_event wk_sock wk_reqs wk_pending]; [done|apply Hw|by rewrite Hrest, Hreqs].
  - intros i x Hi. apply list_lookup_insert_Some in Hi as [(-> & <- & _)|[_ Hi]]; [by intros H|exact (I2 i x Hi)].
  - intros t' c Hc. specialize (I4 t' c Hc). unfold client_ok in *. cbn [s_queue s_workers s_results s_sent].
    destruct c as [|j| |r]; [done| | |done]; (destruct I4 as [H|[(i & x & Hi & Hx)|H]]; [by left| |right; right; apply lookup_insert_is_Some; destruct (decide (t = t')); auto]);
      (destruct (decide (i = k)) as [->|Hne]; [right; right; replace x with w in * by congruence; replace t' with t by congruence; rewrite lookup_insert_eq; by eexists|];
       right; left; exists i, x; by rewrite list_lookup_insert_ne).
  - apply map_Forall_insert_2; [|done]. split; [done|]. by eapply I6.
  - intros i x t' Hi Hx. apply list_lookup_insert_Some in Hi as [(-> & <- & _)|[_ Hi]]; [done|by eapply I6].
Qed.

(** A worker takes a transaction from the queue and sends it. *)
Lemma inv_take s k w t q pc :
  inv s -> s_workers s !! k = Some w -> wk_pending w = None -> s_queue s = Some t :: q -> pc <> WExit ->
  inv (Sys q (s_results s) (<[k := Worker pc (wk_event w) (wk_sock w) (wk_reqs w ++ [t]) (Some t)]> (s_workers s)) (s_clients s) (s_sent s ++ [t])).
Proof.
  intros I Hk Hp Hq Hpc. pose proof (worker_in s k w I Hk) as [_ He Hc]. rewrite Hp in Hc. apply app_eq_nil in Hc as [Hc1 Hc2].
  destruct I as [I1 I2 I3 I4 I5 I6 I7]. rewrite Hq in *. apply Forall_cons in I3 as [_ I3].
  split; cbn [s_workers s_queue s_clients s_results s_sent].
  - apply Forall_insert; [done|]. split; cbn [wk_pc wk_event wk_sock wk_reqs wk_pending]; [done|done|by rewrite Hc1, Hc2].
  - intros i x Hi. apply list_lookup_insert_Some in Hi as [(-> & <- & _)|[_ Hi]]; [by intros ? H|].
    intros H1 H2 H3. destruct (I2 i x Hi H1 H2) as [?|?]; [by rewrite Hq|by left|by right].
  - done.
  - intros t' c Hc. specialize (I4 t' c Hc). unfold client_ok in *. cbn [s_queue s_workers s_results s_sent]. rewrite Hq in I4.
    assert (Hpl : (Some t' ∈ Some t :: q) \/ (exists k w, s_workers s !! k = Some w /\ wk_pending w = Some t') \/ is_Some (s_results s !! t') ->
      (Some t' ∈ q) \/ (exists i x, <[k := Worker pc (wk_event w) (wk_sock w) (wk_reqs w ++ [t]) (Some t)]> (s_workers s) !! i = Some x /\ wk_pending x = Some t') \/ is_Some (s_results s !! t')).
    { intros [H|[(i & x & Hi & Hx)|H]]; [|right; left; exists i, x; rewrite list_lookup_insert_ne by congruence; done|by right; right].
      apply elem_of_cons in H as [[= ->]|H]; [|by left]. right; left. exists k. eexists. split; [apply list_lookup_insert_eq; by eapply lookup_lt_Some|done]. }
    destruct c as [|j| |r]; [|by apply Hpl|by apply Hpl|split; [apply I4|apply elem_of_app; left; apply I4]]. destruct I4 as [H1 H2]. split; [set_solver|]. apply not_elem_of_app. split; [done|]. set_solver.
  - intros t' r Hr. destruct (I5 t' r Hr) as [? ?]. split; [done|]. apply elem_of_app. by left.
  - intros i x t' Hi Hx. apply elem_of_app. apply list_lookup_insert_Some in Hi as [(-> & <- & _)|[_ Hi]]; [cbn in Hx; right; set_solver|left; by eapply I6].
  - cbn [omap list_omap id] in I7. rewrite (assoc_L (++)), (comm (++) _ [t]). exact I7.
Qed.

Lemma results_cons m ms : results_of (m :: ms) = match m with MResult t => t :: results_of ms | _ => results_of ms end.
Proof. by destruct m. Qed.

Lemma results_app ms ms' : results_of (ms ++ ms') = results_of ms ++ results_of ms'.
Proof. apply omap_app. Qed.

Lemma not_poll s k w : wk_pc w <> WPoll -> will_look s k w.
Proof. by intros H ?. Qed.

(** The worker a step leaves behind, given to [H]. *)
Ltac by_same H := match goal with |- inv (Sys _ _ (<[_ := ?w']> _) _ _) => apply (H w') end.

Lemma inv_worker s k s' : inv s -> sys_step (LWorker k 1 true) s = Some s' -> inv s'.
Proof.
  intros I. cbn [sys_step]. destruct (s_workers s !! k) as [w|] eqn:Hk; [|done]. cbn [mbind option_bind]. pose proof (worker_in s k w I Hk) as [Ha He Hc].
  assert (Hsame : forall w', worker_ok w' -> wk_pending w' = wk_pending w -> will_look s k w' -> wk_reqs w' = wk_reqs w ->
    inv (Sys (s_queue s) (s_results s) (<[k := w']> (s_workers s)) (s_clients s) (s_sent s ++ drop (length (wk_reqs w)) (wk_reqs w')))).
  { intros w' H1 H2 H3 H4. rewrite H4, drop_all, app_nil_r. by apply (inv_with_worker s k w w'). }
  unfold worker_step. destruct (wk_pc w) eqn:Hpc.
  - destruct (_ || _); [|done]. cbn [mbind option_bind]. intros [= <-]. by_same Hsame; [by split|done|by apply not_poll|done].
  - destruct r0; [|cbn [mbind option_bind]; intros [= <-]; by_same Hsame; [by split|done|by apply not_poll|done]].
    destruct (wk_sock w) as [|m ms] eqn:Hs; [destruct (wk_pending w) eqn:Hp; cbn; intros [= <-]; (by_same Hsame; [by split|done|by apply not_poll|done])|].
    rewrite results_cons in Hc. change (take 1 (m :: ms)) with [m]. change (drop 1 (m :: ms)) with ms. cbn [fetch_transaction_result].
    destruct m as [|r|]; [| |];
      [destruct (wk_pending w) eqn:Hp; cbn [mbind option_bind]; intros [= <-]; (by_same Hsame; [by split|done|by apply not_poll|done])| |
       destruct (wk_pending w) eqn:Hp; cbn [mbind option_bind]; intros [= <-]; (by_same Hsame; [by split|done|by apply not_poll|done])].
    destruct (wk_pending w) as [t|] eqn:Hp; [|done]. cbn [app] in Hc. injection Hc as -> Hc. apply app_eq_nil in Hc as [Hc1 Hc2].
    cbn [mbind option_bind fetch_transaction_result]. intros [= <-]. cbn [wk_reqs]. rewrite drop_all, app_nil_r. by apply inv_deliver.
  - cbn [mbind option_bind]. intros [= <-]. by_same Hsame; [split; cbn; [done|by destruct r1|done]|done|by apply not_poll|done].
  - destruct (wk_pending w) as [t|] eqn:Hp; [cbn [mbind option_bind]; intros [= <-]; by_same Hsame; [by split|done|by intros ? H|done]|].
    destruct (s_queue s) as [|[t|] q] eqn:Hq; cbn [b_pop list_buffer fifo mbind option_bind]; intros [= <-].
    + pose proof (Hsame (Worker WPoll (wk_event w) (wk_sock w) (wk_reqs w) None)) as H. apply H; [by split|done| |done]. intros _ _ H'. by rewrite Hq in H'.
    + cbn [wk_reqs]. rewrite drop_app_length. by apply inv_take.
    + destruct I as [_ _ I3 _ _ _ _]. rewrite Hq in I3. apply Forall_cons in I3 as [[? ?] _]. done.
  - done.
Qed.

Lemma inv_client s t s' : inv s -> client_step t s = Some s' -> inv s'.
Proof.
  intros I. unfold client_step. destruct (s_clients s !! t) as [c|] eqn:Ht; [|done]. cbn [mbind option_bind].
  destruct I as [I1 I2 I3 I4 I5 I6 I7]. pose proof (I4 t c Ht) as Hc. destruct c as [|i| |r]; cbn [client_ok] in Hc.
  - cbn [b_push list_buffer fifo]. destruct (_ <? _)%nat; [|done]. cbn [mbind option_bind]. intros [= <-]. destruct Hc as [Hc1 Hc2]. split; cbn [s_workers s_queue s_clients s_results s_sent].
    + done.
    + intros k w Hk. unfold will_look. cbn [s_queue s_clients]. intros Hp Hn _. right. exists t, O. rewrite lookup_insert_eq. split; [done|lia].
    + apply Forall_app. split; [done|by repeat constructor].
    + intros t' c' [[<- <-]|[Hne Hc']]%lookup_insert_Some; [left; cbn [s_queue]; apply elem_of_app; right; by left|].
      specialize (I4 t' c' Hc'). unfold client_ok in *. cbn [s_queue s_workers s_results s_sent].
      destruct c' as [|j| |r]; rewrite ?elem_of_app; [|by destruct I4; auto|by destruct I4; auto|done].
      destruct I4 as [? ?]. split; [|done]. rewrite list_elem_of_singleton. intros [?|[= ->]]; done.
    + done.
    + done.
    + rewrite omap_app. cbn [omap list_omap id]. rewrite <- (assoc_L (++)). cbn [app]. apply NoDup_mid. split_and!; [|done|done].
      intros Hin. apply list_elem_of_omap in Hin as (x & Hx & Hxt). unfold id in Hxt. subst x. done.
  - destruct (s_workers s !! i) as [w|] eqn:Hi; intros [= <-].
    + pose proof (Forall_lookup_1 _ _ _ _ I1 Hi) as [Ha He Hcn]. pose proof (upd_pending (s_workers s) i w (add_event w) Hi eq_refl) as Hu.
      split; cbn [s_workers s_queue s_clients s_results s_sent]; [apply Forall_insert; [done|]; split; cbn [add_event wk_pc wk_event wk_sock wk_reqs wk_pending]; [done|lia|done]| |done| |done| |done].
      * intros k x Hk. apply list_lookup_insert_Some in Hk as [(-> & <- & _)|[Hne Hk]]; [intros _ _ _; left; cbn [add_event wk_event]; lia|].
        unfold will_look. cbn [s_queue s_clients]. intros H1 H2 H3. destruct (I2 k x Hk H1 H2 H3) as [?|(t' & j & Hj & Hle)]; [by left|]. right.
        destruct (decide (t' = t)) as [->|Hnt]; [exists t, (S i); rewrite lookup_insert_eq; split; [done|]; replace j with i in * by congruence; lia|].
        exists t', j. by rewrite lookup_insert_ne.
      * apply map_Forall_insert_2; [|intros t' c' Hc'; eapply client_ok_mono; [| | | |exact (I4 t' c' Hc')]; [done|done|done|exact Hu]].
        apply (client_ok_mono s _ t (CWake i)); [done|done|done|exact Hu|exact Hc].
      * intros k x t' Hk Hx. apply list_lookup_insert_Some in Hk as [(-> & <- & _)|[_ Hk]]; [by eapply I6|by eapply I6].
    + split; cbn [s_workers s_queue s_clients s_results s_sent]; [done| |done| |done|done|done].
      * intros k x Hk. unfold will_look. cbn [s_queue s_clients]. intros H1 H2 H3. destruct (I2 k x Hk H1 H2 H3) as [?|(t' & j & Hj & Hle)]; [by left|]. right.
        destruct (decide (t' = t)) as [->|Hnt]; [|exists t', j; by rewrite lookup_insert_ne].
        replace j with i in * by congruence. apply lookup_lt_Some in Hk. apply lookup_ge_None in Hi. lia.
      * apply map_Forall_insert_2; [exact Hc|exact I4].
  - destruct (s_results s !! t) as [r|] eqn:Hr; [|done]. cbn [mbind option_bind]. intros [= <-].
    split; cbn [s_workers s_queue s_clients s_results s_sent]; [done| |done| |done|done|done].
    + intros k x Hk. unfold will_look. cbn [s_queue s_clients]. intros H1 H2 H3. destruct (I2 k x Hk H1 H2 H3) as [?|(t' & j & Hj & Hle)]; [by left|]. right.
      exists t', j. rewrite lookup_insert_ne by congruence. done.
    + apply map_Forall_insert_2; [by apply (I5 t r)|exact I4].
  - done.
Qed.

Lemma inv_server s k w ms reqs : inv s -> s_workers s !! k = Some w -> results_of ms ++ reqs = results_of (wk_sock w) ++ wk_reqs w ->
  inv (with_worker s k (Worker (wk_pc w) (wk_event w) ms reqs (wk_pending w))).
Proof.
  intros I Hk Hr. pose proof (worker_in s k w I Hk) as [Ha He Hc]. pose proof (iv_look s I k w Hk) as Hl.
  apply (inv_with_worker s k w); [done|done|split; cbn [wk_pc wk_event wk_sock wk_reqs wk_pending]; [done|done|by rewrite Hr]|done|exact Hl].
Qed.

Lemma inv_step l s s' : smooth l -> inv s -> sys_step l s = Some s' -> inv s'.
Proof.
  intros Hl I. destruct l as [k n sent|t|k|k].
  - destruct Hl as [-> ->]. by apply inv_worker.
  - by apply inv_client.
  - cbn [sys_step]. destruct (s_workers s !! k) as [w|] eqn:Hk; [|done]. cbn [mbind option_bind].
    destruct (wk_reqs w) as [|t reqs] eqn:Hr; [done|]. intros [= <-]. apply (inv_server s k w); [done|done|]. rewrite results_app, Hr, <- (assoc_L (++)). done.
  - cbn [sys_step]. destruct (s_workers s !! k) as [w|] eqn:Hk; [|done]. cbn [mbind option_bind]. intros [= <-].
    apply (inv_server s k w); [done|done|]. by rewrite results_app, app_nil_r.
Qed.

Lemma inv_start n ts : inv (sys_start [] n ts).
Proof.
  split; cbn [sys_start s_workers s_queue s_clients s_results s_sent].
  - apply Forall_replicate. by split.
  - by intros k w Hk H1 H2 H3.
  - constructor.
  - intros t c Hc. apply elem_of_list_to_map_2 in Hc. apply list_elem_of_fmap in Hc as (x & [= -> ->] & _). cbn. set_solver.
  - apply map_Forall_empty.
  - intros k w t Hk Hp. apply lookup_replicate in Hk as [-> _]. done.
  - constructor.
Qed.

Lemma inv_run ls : forall s s', Forall smooth ls -> inv s -> run ls s = Some s' -> inv s'.
Proof.
  induction ls as [|l ls IH]; intros s s' Hl I; cbn [run]; [by intros [= <-]|]. apply Forall_cons in Hl as [Hl Hls].
  destruct (sys_step l s) as [s1|] eqn:Hs; [|done]. cbn [mbind option_bind]. apply IH; [done|by eapply inv_step].
Qed.

(** ** Progress *)

(** What no step changes. *)
Lemma step_frame l s s' : sys_step l s = Some s' ->
  length (s_workers s') = length (s_workers s) /\ (forall t, is_Some (s_clients s !! t) -> is_Some (s_clients s' !! t)).
Proof.
  destruct l as [k n sent|t|k|k]; cbn [sys_step].
  - destruct (s_workers s !! k) as [w|]; [|done]. cbn [mbind option_bind]. destruct (worker_step _ _ _ _ _) as [[[q res] w']|]; [|done]. cbn [mbind option_bind].
    intros [= <-]. cbn. by rewrite length_insert.
  - unfold client_step. destruct (s_clients s !! t) as [c|] eqn:Hc; [|done]. cbn [mbind option_bind].
    assert (Hin : forall c' t', is_Some (s_clients s !! t') -> is_Some (<[t := c']> (s_clients s) !! t')).
    { intros c' t' H. apply lookup_insert_is_Some. destruct (decide (t = t')); auto. }
    destruct c as [|i| |r]; [cbn [b_push list_buffer fifo]; destruct (_ <? _)%nat; [|done]; cbn [mbind option_bind]|destruct (s_workers s !! i)|destruct (s_results s !! t); [cbn [mbind option_bind]|done]|done];
      intros [= <-]; cbn [s_workers s_clients]; rewrite ?length_insert; auto.
  - destruct (s_workers s !! k) as [w|]; [|done]. cbn [mbind option_bind]. destruct (wk_reqs w); [done|]. intros [= <-]. cbn. by rewrite length_insert.
  - destruct (s_workers s !! k) as [w|]; [|done]. cbn [mbind option_bind]. intros [= <-]. cbn. by rewrite length_insert.
Qed.

Lemma run_frame ls : forall s s', run ls s = Some s' ->
  length (s_workers s') = length (s_workers s) /\ (forall t, is_Some (s_clients s !! t) -> is_Some (s_clients s' !! t)).
Proof.
  induction ls as [|l ls IH]; intros s s'; cbn [run]; [by intros [= <-]|]. destruct (sys_step l s) as [s1|] eqn:Hs; [|done]. cbn [mbind option_bind].
  intros Hr. destruct (step_frame _ _ _ Hs) as (H2 & H3), (IH _ _ Hr) as (H5 & H6). split_and!; [congruence|auto].
Qed.

Lemma quiet_worker s k w : inv s -> quiet s -> s_workers s !! k = Some w ->
  wk_pc w = WPoll /\ wk_event w = 0 /\ wk_pending w = None.
Proof.
  intros I Q Hk. pose proof (worker_in s k w I Hk) as [Ha He Hc].
  assert (Hno : worker_step 1 true (s_queue s) (s_results s) w = None).
  { destruct (worker_step 1 true (s_queue s) (s_results s) w) as [[[q res] w']|] eqn:E; [|done]. exfalso.
    destruct (Q (LWorker k 1 true) (Sys q res (<[k := w']> (s_workers s)) (s_clients s) (s_sent s ++ drop (length (wk_reqs w)) (wk_reqs w')))) as (? & ?);
      [done|cbn [sys_step]; rewrite Hk; cbn [mbind option_bind]; by rewrite E|done]. }
  assert (Hreq : wk_reqs w = []).
  { destruct (wk_reqs w) as [|t reqs] eqn:Hr; [done|]. exfalso. edestruct (Q (LReply k)) as (? & ?); [done|cbn [sys_step]; rewrite Hk; cbn [mbind option_bind]; by rewrite Hr|done]. }
  unfold worker_step in Hno. destruct (wk_pc w) as [|r0 r1|r1| |] eqn:Hpc; [| |done| |done].
  - destruct (wk_sock w) as [|m ms] eqn:Hs; cbn in Hno; [|done]. destruct (Z.ltb_spec 0 (wk_event w)); [done|].
    rewrite Hreq in Hc. cbn in Hc. destruct (wk_pending w); [done|]. split_and!; [done|lia|done].
  - destruct r0; [|done]. destruct (fetch_transaction_result _), (wk_pending w); done.
  - destruct (wk_pending w); [done|]. destruct (s_queue s) as [|[t|] q]; done.
Qed.

Lemma quiet_done s : inv s -> quiet s -> (0 < length (s_workers s))%nat -> (0 < cap)%nat ->
  forall t c, s_clients s !! t = Some c -> c = CDone t.
Proof.
  intros I Q Hn Hcap t c Hc.
  assert (Hcl : forall t, client_step t s = None).
  { intros t'. destruct (client_step t' s) as [s'|] eqn:E; [|done]. by destruct (Q (LClient t') s' Logic.I E). }
  assert (Hnw : forall t i, s_clients s !! t <> Some (CWake i)).
  { intros t' i Ht. specialize (Hcl t'). unfold client_step in Hcl. rewrite Ht in Hcl. cbn [mbind option_bind] in Hcl. by destruct (s_workers s !! i). }
  assert (Hq : s_queue s = []).
  { destruct (s_workers s) as [|w ws] eqn:Hw; [cbn in Hn; lia|]. assert (Hk : s_workers s !! O = Some w) by (by rewrite Hw).
    destruct (quiet_worker s 0 w I Q Hk) as (H1 & H2 & H3). destruct (s_queue s) eqn:E; [done|].
    destruct (iv_look s I 0 w Hk H1 H3) as [?|(t' & i & Ht & _)]; [by rewrite E|lia|by destruct (Hnw t' i)]. }
  pose proof (iv_clients s I t c Hc) as Hok. specialize (Hcl t). unfold client_step in Hcl. rewrite Hc in Hcl. cbn [mbind option_bind] in Hcl.
  destruct c as [|i| |r].
  - rewrite Hq in Hcl. cbn [b_push list_buffer fifo length] in Hcl. by rewrite (proj2 (Nat.ltb_lt _ _)) in Hcl.
  - by destruct (Hnw t i).
  - destruct Hok as [H|[(k & w & Hk & Hp)|[r Hr]]]; [by rewrite Hq in H; apply elem_of_nil in H| |by rewrite Hr in Hcl].
    destruct (quiet_worker s k w I Q Hk) as (_ & _ & ?). congruence.
  - by destruct Hok as [-> _].
Qed.

Lemma complete_on_list n ts ls s : (0 < n)%nat -> (0 < cap)%nat -> Forall smooth ls -> run ls (sys_start [] n ts) = Some s ->
  NoDup (s_sent s) /\ (forall t r, s_clients s !! t = Some (CDone r) -> r = t /\ (t ∈ s_sent s)) /\
  (quiet s -> forall t, t ∈ ts -> s_clients s !! t = Some (CDone t)).
Proof.
  intros Hn Hcap Hl Hr. pose proof (inv_run ls _ _ Hl (inv_start n ts) Hr) as I. destruct (run_frame ls _ _ Hr) as (Hlen & Hdom). split_and!.
  - destruct I as [_ _ _ _ _ _ I]. by apply NoDup_app in I as (_ & _ & I).
  - intros t r Hc. exact (iv_clients s I t _ Hc).
  - intros Q t Ht. destruct (Hdom t) as [c Hc].
    { cbn [sys_start s_clients]. exists CPush. apply elem_of_list_to_map_1'; [|apply list_elem_of_fmap; by exists t].
      intros c (x & [= -> ->] & _)%list_elem_of_fmap. done. }
    rewrite Hc. f_equal. apply (quiet_done s I Q); [rewrite Hlen; cbn; rewrite length_replicate; lia|done|done].
Qed.

End on_list.

(** ** Losses *)

Section losses.
Context {Q : Type} {B : Buffer Q (option Z)}.

(** The only worker waits for a result that will not come, or has ended. *)
Definition hung (s : sys Q) (t : Z) : Prop :=
  exists w, s_workers s = [w] /\ s_results s !! t = None /\ (forall r, s_clients s !! t <> Some (CDone r)) /\
    (wk_pc w = WExit \/ (wk_pending w = Some t /\ wk_reqs w = [] /\ results_of (wk_sock w) = [])).

Lemma fetch_none n ms : results_of ms = [] -> fetch_transaction_result (take n ms) = None.
Proof. intros H. destruct n, ms as [|[|t|] ms]; done. Qed.

Lemma results_drop n ms : results_of ms = [] -> results_of (drop n ms) = [].
Proof.
  intros H. rewrite <- (take_drop n ms), results_app in H. by apply app_eq_nil in H as [_ H].
Qed.

Lemma hung_worker n sent q res w t q' res' w' :
  wk_pc w = WExit \/ (wk_pending w = Some t /\ wk_reqs w = [] /\ results_of (wk_sock w) = []) ->
  worker_step n sent q res w = Some (q', res', w') ->
  res' = res /\ q' = q /\ wk_reqs w' = wk_reqs w /\ wk_pending w' = Some t /\ wk_reqs w' = [] /\ results_of (wk_sock w') = [].
Proof.
  intros [Hx|(Hp & Hr & Hs)]; unfold worker_step; [by rewrite Hx|]. rewrite Hp, (fetch_none n _ Hs).
  destruct (wk_pc w) as [|r0 r1|r1| |]; [destruct (_ || _); [|done]|destruct r0| | |done]; intros [= <- <- <-]; cbn [wk_reqs wk_pending wk_sock];
    split_and!; try done. by apply results_drop.
Qed.

Lemma hung_step l s s' t : hung s t -> sys_step l s = Some s' -> hung s' t /\ s_sent s' = s_sent s.
Proof.
  intros (w & Hw & Hres & Hcl & Hdead). destruct l as [k n sent|t'|k|k]; cbn [sys_step].
  - destruct k as [|k]; rewrite Hw; [|done]. cbn [lookup list_lookup mbind option_bind].
    destruct (worker_step _ _ _ _ _) as [[[q res] w']|] eqn:E; [|done]. cbn [mbind option_bind]. intros [= <-].
    destruct (hung_worker _ _ _ _ _ t _ _ _ Hdead E) as (-> & -> & Hrq & Hd). cbn [s_sent]. rewrite Hrq, drop_all, app_nil_r. split; [|done].
    exists w'. split_and!; [done|done|done|by right].
  - unfold client_step. destruct (s_clients s !! t') as [c|] eqn:Hc; [|done]. cbn [mbind option_bind].
    assert (Hn : forall c', (forall r, c' <> CDone r) \/ t' <> t -> forall r, <[t' := c']> (s_clients s) !! t <> Some (CDone r)).
    { intros c' H r. destruct (decide (t' = t)) as [->|Hne]; [rewrite lookup_insert_eq; destruct H as [H|H]; [|done]; intros [= E]; by destruct (H r)|rewrite lookup_insert_ne by done; apply Hcl]. }
    destruct c as [|i| |r]; [destruct (b_push _ _); [cbn [mbind option_bind]|done]|destruct (s_workers s !! i) as [x|] eqn:Hi|destruct (s_results s !! t') as [r|] eqn:Hr; [cbn [mbind option_bind]|done]|done];
      intros [= <-]; (split; [|done]).
    + exists w. split_and!; [done|done|apply Hn; by left|done].
    + rewrite Hw in Hi |- *. destruct i as [|i]; [|done]. injection Hi as <-. exists (add_event w). split_and!; [done|done|apply Hn; by left|exact Hdead].
    + exists w. split_and!; [done|done|apply Hn; by left|done].
    + exists w. split_and!; [done|done|apply Hn; right; congruence|done].
  - destruct k as [|k]; rewrite Hw; [|done]. cbn [lookup list_lookup mbind option_bind]. destruct (wk_reqs w) as [|r reqs] eqn:Hr; [done|]. intros [= <-].
    split; [|done]. eexists. split_and!; [done|done|done|]. destruct Hdead as [?|(_ & ? & _)]; [by left|done].
  - destruct k as [|k]; rewrite Hw; [|done]. cbn [lookup list_lookup mbind option_bind]. intros [= <-].
    split; [|done]. eexists. split_and!; [done|done|done|]. destruct Hdead as [?|(H1 & H2 & H3)]; [by left|right]. split_and!; [done|done|]. cbn [wk_sock]. by rewrite results_app, H3.
Qed.

Lemma hung_run ls : forall s s' t, hung s t -> run ls s = Some s' -> hung s' t /\ s_sent s' = s_sent s.
Proof.
  induction ls as [|l ls IH]; intros s s' t H; cbn [run]; [by intros [= <-]|]. destruct (sys_step l s) as [s1|] eqn:E; [|done]. cbn [mbind option_bind].
  intros Hr. destruct (hung_step _ _ _ _ H E) as [H1 H2], (IH _ _ _ (proj1 (hung_step _ _ _ _ H E)) Hr) as [H3 H4]. split; [done|congruence].
Qed.

Lemma hung_forever s t sent : hung s t -> s_sent s = sent ->
  forall ls' s', run ls' s = Some s' -> s_sent s' = sent /\ forall r, s_clients s' !! t <> Some (CDone r).
Proof. intros H <- ls' s' Hr. destruct (hung_run _ _ _ _ H Hr) as [(w & _ & _ & Hc & _) Hs]. by split. Qed.

End losses.

(** ** The ring *)

(** A system over the ring and one over the list it implements. *)
Record same_state (cap : nat) (c : sys (sbuf (option Z))) (a : sys (list (option Z))) : Prop := {
  ss_queue : implements cap (s_queue c) (s_queue a);
  ss_results : s_results c = s_results a;
  ss_workers : s_workers c = s_workers a;
  ss_clients : s_clients c = s_clients a;
  ss_sent : s_sent c = s_sent a
}.

Lemma worker_step_same cap n sent qc qa res w : implements cap qc qa ->
  match worker_step (B := fifo cap) n sent qa res w with
  | Some (qa', res', w') => exists qc', worker_step n sent qc res w = Some (qc', res', w') /\ implements cap qc' qa'
  | None => worker_step n sent qc res w = None
  end.
Proof.
  intros Hi. unfold worker_step. destruct (wk_pc w) as [|r0 r1|r1| |].
  - destruct (_ || _); [by eexists|done].
  - destruct r0; [|by eexists]. destruct (fetch_transaction_result _), (wk_pending w); by eexists.
  - by eexists.
  - destruct (wk_pending w); [by eexists|]. pose proof (implements_pop cap qc qa Hi) as Hp. destruct (b_pop qa) as [[[t|] qa']|].
    + destruct Hp as (qc' & -> & Hi'). destruct sent; by eexists.
    + destruct Hp as (qc' & -> & Hi'). by eexists.
    + rewrite Hp. by eexists.
  - done.
Qed.

(** Every step of one is a step of the other. *)
Lemma sys_step_same cap l c a : same_state cap c a ->
  match sys_step (B := fifo cap) l a with
  | Some a' => exists c', sys_step l c = Some c' /\ same_state cap c' a'
  | None => sys_step l c = None
  end.
Proof.
  intros [Hq Hr Hw Hc Hs]. destruct l as [k n sent|t|k|k]; cbn [sys_step].
  - rewrite Hw, Hr, Hs, Hc. destruct (s_workers a !! k) as [w|]; [|done]. cbn [mbind option_bind].
    pose proof (worker_step_same cap n sent _ _ (s_results a) w Hq) as Hst. destruct (worker_step n sent (s_queue a) _ _) as [[[qa' res'] w']|]; cbn [mbind option_bind].
    + destruct Hst as (qc' & -> & Hi). cbn [mbind option_bind]. eexists. split; [done|]. by split.
    + by rewrite Hst.
  - unfold client_step. rewrite Hc. destruct (s_clients a !! t) as [cl|]; [|done]. cbn [mbind option_bind]. destruct cl as [|i| |r].
    + pose proof (implements_push cap _ _ (Some t) Hq) as Hp. destruct (b_push (s_queue a) (Some t)) as [qa'|]; cbn [mbind option_bind].
      * destruct Hp as (qc' & -> & Hi). cbn [mbind option_bind]. eexists. split; [done|]. by split; cbn; try congruence.
      * by rewrite Hp.
    + rewrite Hw. destruct (s_workers a !! i) as [w|]; (eexists; split; [done|]; split; cbn; congruence || done).
    + rewrite Hr. destruct (s_results a !! t); [|done]. cbn [mbind option_bind]. eexists. split; [done|]. split; cbn; congruence || done.
    + done.
  - rewrite Hw. destruct (s_workers a !! k) as [w|]; [|done]. cbn [mbind option_bind]. destruct (wk_reqs w); [done|]. eexists. split; [done|]. split; cbn; congruence || done.
  - rewrite Hw. destruct (s_workers a !! k) as [w|]; [|done]. cbn [mbind option_bind]. eexists. split; [done|]. split; cbn; congruence || done.
Qed.

Lemma run_same cap ls : forall c a c', same_state cap c a -> run ls c = Some c' -> exists a', run (B := fifo cap) ls a = Some a' /\ same_state cap c' a'.
Proof.
  induction ls as [|l ls IH]; intros c a c' Hs; cbn [run]; [intros [= <-]; by exists a|]. pose proof (sys_step_same cap l c a Hs) as Hst.
  destruct (sys_step l a) as [a1|]; [destruct Hst as (c1 & -> & H1); cbn [mbind option_bind]; by apply IH|by rewrite Hst].
Qed.

Lemma quiet_same cap c a : same_state cap c a -> quiet c -> quiet (B := fifo cap) a.
Proof.
  intros Hs Q l a' Hl Ha. pose proof (sys_step_same cap l c a Hs) as Hst. rewrite Ha in Hst. destruct Hst as (c' & Hc & _). by apply (Q l c').
Qed.

Lemma start_same k ts : 0 <= k <= 29 -> same_state (Z.to_nat (2 ^ (k + 1))) (srdb_start (Z.to_nat (2 ^ k)) ts) (sys_start [] (Z.to_nat (2 ^ k)) ts).
Proof.
  intros Hk. split; try done. cbn. replace (Z.of_nat _) with (2 ^ (k + 1)); [apply implements_new; lia|]. pose proof (Z.pow_pos_nonneg 2 k ltac:(lia) ltac:(lia)).
  rewrite Z.pow_add_r by lia. change (2 ^ 1) with 2. lia.
Qed.

(** ** Main results on transactions *)

(** C10. No transaction is lost, repeated or left waiting when the number of
    workers is a power of two, so that the buffer of twice as many slots is a
    queue: as long as poll and the reads of the event descriptors succeed,
    every recv finds one message and every send succeeds, under any
    interleaving of clients, workers and server (keep-alives included) each
    transaction is sent to the server at most once, a client gets the reply to
    its own transaction, and when nothing but keep-alives can happen any more
    every client has its reply: a worker about to sleep in poll has seen the
    queue empty or will be woken. *)
Theorem transactions_complete (k : Z) (ts : list Z) (ls : list label) (s : sys (sbuf (option Z))) :
  0 <= k <= 29 -> Forall smooth ls -> run ls (srdb_start (Z.to_nat (2 ^ k)) ts) = Some s ->
  NoDup (s_sent s) /\ (forall t r, s_clients s !! t = Some (CDone r) -> r = t /\ (t ∈ s_sent s)) /\
  (quiet s -> forall t, t ∈ ts -> s_clients s !! t = Some (CDone t)).
Proof.
  intros Hk Hl Hr. pose proof (start_same k ts Hk) as H0. destruct (run_same _ ls _ _ s H0 Hr) as (a & Ha & Hs).
  pose proof (Z.pow_pos_nonneg 2 k ltac:(lia) ltac:(lia)). pose proof (Z.pow_pos_nonneg 2 (k + 1) ltac:(lia) ltac:(lia)).
  destruct (complete_on_list (Z.to_nat (2 ^ (k + 1))) (Z.to_nat (2 ^ k)) ts ls a ltac:(lia) ltac:(lia) Hl Ha) as (E1 & E2 & E3). pose proof Hs as [_ _ _ Hc Hse]. rewrite Hse, Hc.
  split_and!; [done|done|]. intros Q. by apply E3, (quiet_same _ s a Hs Q).
Qed.

(** One transaction from submission to reply. *)
Definition turn (k : nat) : list label := [LWorker k 1 true; LWorker k 1 true; LWorker k 1 true; LWorker k 1 true].
Definition one_trip : list label :=
  [LClient 7; LClient 7] ++ turn 0 ++ [LEcho 0; LReply 0; LClient 7] ++ turn 0 ++ turn 0 ++ [LClient 7].

Lemma transactions_complete_witness :
  exists s, run one_trip (srdb_start 1 [7]) = Some s /\ s_clients s !! 7 = Some (CDone 7) /\
  NoDup (s_sent s) /\ (forall t r, s_clients s !! t = Some (CDone r) -> r = t /\ (t ∈ s_sent s)) /\
  (quiet s -> forall t, t ∈ [7] -> s_clients s !! t = Some (CDone t)).
Proof.
  eexists. split; [vm_compute; reflexivity|]. split; [vm_compute; reflexivity|].
  apply (transactions_complete 0 [7] one_trip); [lia|repeat constructor|vm_compute; reflexivity].
Defined.

(** Three workers share a buffer of six slots, and the mask of 5 takes the
    counters 0 and 2 to the same slot: of three transactions the first is never
    sent and the third is sent twice. *)
Theorem three_workers_lose :
  exists ls s, Forall smooth ls /\ run ls (srdb_start 3 [7; 8; 9]) = Some s /\ s_sent s = [9; 8; 9].
Proof.
  exists ([LClient 7; LClient 8; LClient 9] ++ replicate 4 (LClient 7) ++ turn 0 ++ turn 1 ++ turn 2). eexists.
  split; [repeat constructor|]. split; [vm_compute; reflexivity|]. vm_compute. reflexivity.
Qed.

(** A reply that arrives together with a keep-alive is lost: one recv
    returns both, only the first JSON text is parsed.  The client then waits
    for ever and, since the worker keeps waiting too, no later transaction is
    sent; the same happens when [send_transaction] fails, which ends the
    worker without an answer for the transaction it took. *)
Theorem transaction_reply_lost :
  (exists ls s, run ls (srdb_start 1 [7; 8]) = Some s /\ Forall (fun l => match l with LWorker _ _ sent => sent = true | _ => True end) ls /\
     forall ls' s', run ls' s = Some s' -> s_sent s' = [7] /\ forall r, s_clients s' !! 7 <> Some (CDone r)) /\
  (exists ls s, run ls (srdb_start 1 [7; 8]) = Some s /\ Forall (fun l => match l with LWorker _ n _ => n = 1%nat | _ => True end) ls /\
     forall ls' s', run ls' s = Some s' -> s_sent s' = [] /\ forall r, s_clients s' !! 7 <> Some (CDone r)).
Proof.
  split.
  - exists ([LClient 7; LClient 7] ++ turn 0 ++ [LEcho 0; LReply 0; LClient 7; LWorker 0 1 true; LWorker 0 2 true]). eexists.
    split; [vm_compute; reflexivity|]. split; [repeat constructor|]. apply hung_forever; [|reflexivity].
    eexists. split; [reflexivity|]. split; [reflexivity|]. split; [by intros r|]. right. split_and!; reflexivity.
  - exists ([LClient 7; LClient 7; LWorker 0 1 true; LWorker 0 1 true; LWorker 0 1 true; LWorker 0 1 false]). eexists.
    split; [vm_compute; reflexivity|]. split; [repeat constructor|]. apply hung_forever; [|reflexivity].
    eexists. split; [reflexivity|]. split; [reflexivity|]. split; [by intros r|]. by left.
Qed.

(** ** The monitor's receive loop *)

Definition JSON_BUFLEN : nat := 4096.
Definition JSON_BUFLEN_MONMAX : Z := 8 * 1024 * 1024.
Definition MON_STATUS_RUNNING := 1.
Definition MON_STATUS_NOMEM := -3.

Section monitor.
Context {M St : Type}.

(** json_loadb with JSON_DISABLE_EOF_CHECK: the value and how many bytes it took. *)
Context (json_loadb : list Z -> option (M * nat)).
(** What the loop does with a value: [monitor_message]. *)
Context (handle : M -> St -> option St).

(** The do loop: the state, [jpos], and whether the last [json] is non-null. *)
Fixpoint drain (fuel : nat) (buf : list Z) (jpos : nat) (st : St) : option (St * nat * bool) :=
  match fuel with
  | O => None
  | S fuel =>
      match json_loadb (drop jpos buf) with
      | None => Some (st, jpos, false)
      | Some (m, pos) =>
          st ← handle m st;
          let jpos := (jpos + pos)%nat in
          if (jpos <? length buf - 1)%nat then drain fuel buf jpos st else Some (st, jpos, true)
      end
  end.

(** [mn_in]: what the server has sent and recv has not returned; [mn_buf]: the
    [len] bytes of [buf]; [mn_cap]: [cur_buflen]. *)
Record mon := Mon { mn_in : list Z; mn_buf : list Z; mn_cap : nat; mn_status : Z; mn_st : St }.

Definition mon_start (stream : list Z) (st : St) : mon := Mon stream [] JSON_BUFLEN MON_STATUS_RUNNING st.

(** One turn of the outer loop, recv returning up to [n] bytes; without data
    poll times out, after an error the thread has ended. *)
Definition ovsdb_monitor (n : nat) (m : mon) : option mon :=
  if negb (mn_status m =? MON_STATUS_RUNNING) || (length (mn_in m) =? 0)%nat then Some m
  else
    let k := Nat.min n (mn_cap m - length (mn_buf m)) in
    let buf := mn_buf m ++ take k (mn_in m) in
    '(st, jpos, json) ← drain (length buf) buf 0 (mn_st m);
    let buf := if negb json && (0 <? jpos)%nat then drop jpos buf else if json then [] else buf in
    let len := length buf in
    if Z.of_nat len =? JSON_BUFLEN_MONMAX then Some (Mon (drop k (mn_in m)) buf (mn_cap m) MON_STATUS_NOMEM st)
    else if (len =? mn_cap m)%nat then Some (Mon (drop k (mn_in m)) buf (2 * mn_cap m) (mn_status m) st)
    else Some (Mon (drop k (mn_in m)) buf (mn_cap m) (mn_status m) st).

Fixpoint monitor_run (ns : list nat) (m : mon) : option mon :=
  match ns with [] => Some m | n :: ns => m ← ovsdb_monitor n m; monitor_run ns m end.

(** The messages in order. *)
Fixpoint feed (ms : list M) (st : St) : option St :=
  match ms with [] => Some st | m :: ms => st ← handle m st; feed ms st end.

(** *** Self-delimiting texts *)

(** What the loop relies on of the JSON texts of the server, which are objects:
    a text is recognised whatever follows, a proper prefix of one is not. *)
Context (is_msg : M -> Prop) (text : M -> list Z).
Record loadb_ok : Prop := {
  lb_full : forall m rest, is_msg m -> json_loadb (text m ++ rest) = Some (m, length (text m));
  lb_part : forall m k, is_msg m -> (k < length (text m))%nat -> json_loadb (take k (text m)) = None;
  lb_size : forall m, is_msg m -> (2 <= length (text m))%nat /\ Z.of_nat (length (text m)) <= JSON_BUFLEN_MONMAX
}.
Context (L : loadb_ok).

(** [p] is what is there of the first of the messages [ms]. *)
Definition partial (p : list Z) (ms : list M) : Prop :=
  p = [] \/ exists m ms' k, ms = m :: ms' /\ (k < length (text m))%nat /\ p = take k (text m).

Lemma partial_none p ms : Forall is_msg ms -> ms <> [] -> partial p ms -> json_loadb p = None.
Proof.
  intros Hms Hne [->|(m & ms' & k & -> & Hk & ->)].
  - destruct ms as [|m ms]; [done|]. apply Forall_cons in Hms as [Hm _]. pose proof (lb_size L m Hm). rewrite <- (take_0 (text m)). apply (lb_part L); [done|lia].
  - apply Forall_cons in Hms as [Hm _]. by apply (lb_part L).
Qed.

Definition texts (ms : list M) : list Z := flat_map text ms.

Lemma texts_length l : Forall is_msg l -> (2 * length l <= length (texts l))%nat.
Proof.
  induction 1 as [|m l Hm _ IH]; [done|]. change (texts (m :: l)) with (text m ++ texts l). rewrite length_app. pose proof (lb_size L m Hm). cbn [length]. lia.
Qed.

(** The loop handles the complete messages; a last incomplete one stops it,
    unless no more than one byte of it is there. *)
Lemma drain_ok ms : forall fuel pre p rest st st',
  Forall is_msg ms -> json_loadb p = None -> feed ms st = Some st' -> (length ms < fuel)%nat -> rest = pre ++ texts ms ++ p ->
  drain fuel rest (length pre) st = Some (st', (length pre + length (texts ms))%nat, match ms with [] => false | _ => (length p <=? 1)%nat end).
Proof.
  induction ms as [|m ms IH]; intros fuel pre p rest st st' Hms Hp Hf Hfuel ->; (destruct fuel as [|fuel]; [cbn in Hfuel; lia|]); cbn [drain].
  - change (texts [] ++ p) with p. rewrite drop_app_length, Hp. injection Hf as <-. cbn. by rewrite Nat.add_0_r.
  - apply Forall_cons in Hms as [Hm Hms]. cbn [feed] in Hf. destruct (handle m st) as [st1|] eqn:Hh; [|done]. cbn [mbind option_bind] in Hf.
    rewrite drop_app_length. change (texts (m :: ms)) with (text m ++ texts ms). rewrite <- (assoc_L (++)), (lb_full L) by done. rewrite Hh. cbn [mbind option_bind].
    pose proof (lb_size L m Hm) as Hsz. pose proof (texts_length ms Hms) as Htl. rewrite !length_app.
    destruct (Nat.ltb_spec (length pre + length (text m)) (length pre + (length (text m) + (length (texts ms) + length p)) - 1)) as [Hlt|Hge].
    + rewrite <- length_app. rewrite (IH fuel (pre ++ text m) p _ st1 st'); [|done|done|done|cbn in Hfuel; lia|by rewrite <- (assoc_L (++))].
      rewrite length_app. f_equal. f_equal; [f_equal; lia|]. destruct ms; [|done]. cbn in Hlt. symmetry. apply Nat.leb_gt. lia.
    + assert (ms = []) as -> by (destruct ms; [done|cbn [length] in *; lia]).
      cbn in Hge. cbn [feed] in Hf. injection Hf as <-. replace (length p <=? 1)%nat with true by (symmetry; apply Nat.leb_le; lia).
      cbn [texts flat_map length]. do 3 f_equal. lia.
Qed.

(** What has been received of a stream: whole messages and part of the next. *)
Lemma split_stream rest : forall x y, Forall is_msg rest -> x ++ y = texts rest ->
  exists got more p, rest = got ++ more /\ x = texts got ++ p /\ partial p more /\ p ++ y = texts more.
Proof.
  induction rest as [|m rest IH]; intros x y Hms Hx.
  - apply app_eq_nil in Hx as [-> ->]. exists [], [], []. split_and!; [done|done|by left|done].
  - apply Forall_cons in Hms as [Hm Hms]. change (texts (m :: rest)) with (text m ++ texts rest) in Hx.
    destruct (le_lt_dec (length (text m)) (length x)) as [Hle|Hlt].
    + assert (exists x', x = text m ++ x' /\ x' ++ y = texts rest) as (x' & -> & Hx').
      { exists (drop (length (text m)) x). assert (take (length (text m)) x = text m) as Ht.
        { rewrite <- (take_app_le x y) by done. rewrite Hx. apply take_app_length. }
        split; [rewrite <- (take_drop (length (text m)) x) at 1; by rewrite Ht|]. rewrite <- (drop_app_le x y) by done. rewrite Hx. apply drop_app_length. }
      destruct (IH x' y Hms Hx') as (got & more & p & -> & -> & Hp & Hy). exists (m :: got), more, p.
      split_and!; [done|by rewrite (assoc_L (++))|done|done].
    + exists [], (m :: rest), x. split_and!; [done|done| |done]. right. exists m, rest, (length x). split_and!; [done|done|].
      rewrite <- (take_app_le (text m) (texts rest)) by lia. rewrite <- Hx. symmetry. apply take_app_length.
Qed.

Lemma partial_length p more : Forall is_msg more -> partial p more -> Z.of_nat (length p) < JSON_BUFLEN_MONMAX /\ (p ++ [] = texts more -> more = []).
Proof.
  intros Hms [->|(m & ms' & k & -> & Hk & ->)]; [split; [done|]|].
  - intros Ht. destruct more as [|m more]; [done|]. apply Forall_cons in Hms as [Hm _]. pose proof (lb_size L m Hm) as Hs.
    assert (length (texts (m :: more)) = O) as H0 by (by rewrite <- Ht). change (texts (m :: more)) with (text m ++ texts more) in H0. rewrite length_app in H0. lia.
  - apply Forall_cons in Hms as [Hm _]. pose proof (lb_size L m Hm) as Hs. rewrite length_take. split; [lia|]. intros Ht. exfalso.
    assert (length (texts (m :: ms')) = Nat.min k (length (text m))) as H0 by (rewrite <- Ht, length_app, length_take; cbn; lia).
    change (texts (m :: ms')) with (text m ++ texts ms') in H0. rewrite length_app in H0. lia.
Qed.

Section stream.
Context (ms : list M) (st0 st' : St) (Hms : Forall is_msg ms) (Hfeed : feed ms st0 = Some st').

Record mon_inv (m : mon) (got more : list M) : Prop := {
  mi_split : ms = got ++ more;
  mi_state : feed got st0 = Some (mn_st m);
  mi_stream : mn_buf m ++ mn_in m = texts more;
  mi_part : partial (mn_buf m) more;
  mi_room : (length (mn_buf m) < mn_cap m)%nat;
  mi_run : mn_status m = MON_STATUS_RUNNING
}.

Lemma feed_app a b st : feed (a ++ b) st = (s ← feed a st; feed b s).
Proof. revert st. induction a as [|x a IH]; intros st; cbn [app feed]; [done|]. destruct (handle x st); [|done]. cbn [mbind option_bind]. apply IH. Qed.

(** The received part ends one byte into a message, others being complete. *)
Definition one_byte (m : mon) : Prop :=
  exists j, (0 < j <= length ms)%nat /\ (length (texts ms) - length (mn_in m))%nat = S (length (texts (take j ms))).

Lemma texts_app a b : texts (a ++ b) = texts a ++ texts b.
Proof. apply flat_map_app. Qed.

Lemma monitor_step n m got more : mon_inv m got more -> (0 < n)%nat -> mn_in m <> [] ->
  exists m', ovsdb_monitor n m = Some m' /\ (length (mn_in m') < length (mn_in m))%nat /\ (~ one_byte m' -> exists got' more', mon_inv m' got' more').
Proof.
  intros [Hsp Hst Hstr Hpart Hroom Hrun] Hn Hin. assert (Hin0 : length (mn_in m) <> O) by (intros ?; by apply Hin, nil_length_inv).
  unfold ovsdb_monitor. rewrite Hrun. change (MON_STATUS_RUNNING =? MON_STATUS_RUNNING) with true.
  destruct (Nat.eqb_spec (length (mn_in m)) 0) as [H0|_]; [done|]. cbn [negb orb].
  set (k := Nat.min n (mn_cap m - length (mn_buf m))). assert (Hk : (0 < k)%nat) by lia.
  assert (Hmm : Forall is_msg got /\ Forall is_msg more) by (apply Forall_app; by rewrite <- Hsp). destruct Hmm as [Hg Hm].
  destruct (split_stream more (mn_buf m ++ take k (mn_in m)) (drop k (mn_in m)) Hm) as (got1 & more1 & p & Hmore & Hx & Hp & Hy); [by rewrite <- (assoc_L (++)), take_drop|].
  assert (Hmne : more <> []) by (intros E; rewrite E in Hstr; by apply app_eq_nil in Hstr as [_ ?]).
  assert (Hpn : json_loadb p = None).
  { destruct more1 as [|m1 ms1]; [destruct Hp as [->|(? & ? & ? & ? & _)]; [|done]; by apply (partial_none [] more); [..|left]|].
    apply (partial_none p (m1 :: ms1)); [|done|done]. rewrite Hmore in Hm. by apply Forall_app in Hm as [_ ?]. }
  rewrite Hmore in Hm. apply Forall_app in Hm as [Hm1 Hm2]. pose proof (texts_length got1 Hm1) as Htl.
  assert (exists st1, feed (got ++ got1) st0 = Some st1 /\ feed got1 (mn_st m) = Some st1) as (st1 & Hst0 & Hst1).
  { rewrite Hsp, Hmore, (assoc_L (++)), feed_app in Hfeed. destruct (feed (got ++ got1) st0) as [s1|] eqn:E; [|done].
    exists s1. split; [done|]. by rewrite feed_app, Hst in E. }
  assert (Hbl : (0 < length (texts got1 ++ p) <= mn_cap m)%nat) by (rewrite <- Hx, length_app, length_take; lia).
  rewrite Hx, (drain_ok got1 _ [] p _ (mn_st m) st1); [|done|done|done|rewrite length_app in Hbl |- *; destruct got1; cbn [length] in *; lia|done].
  cbn [mbind option_bind length Nat.add]. set (json := match got1 with [] => false | _ => (length p <=? 1)%nat end).
  set (buf := if negb json && (0 <? length (texts got1))%nat then drop (length (texts got1)) (texts got1 ++ p) else if json then [] else texts got1 ++ p).
  assert (Hbuf : buf = p \/ (got1 <> [] /\ length p = 1%nat /\ buf = [])).
  { unfold buf, json. destruct got1 as [|g gs]; [by left|]. pose proof (texts_length _ Hm1) as H2. cbn [length] in H2.
    replace (0 <? length (texts (g :: gs)))%nat with true by (symmetry; apply Nat.ltb_lt; lia).
    destruct (Nat.leb_spec (length p) 1); cbn [negb andb]; [|left; apply drop_app_length].
    destruct p as [|x [|y p]]; [by left|right; by split_and!|cbn in *; lia]. }
  destruct (partial_length p more1 Hm2 Hp) as [Hpl _].
  assert (Hb : (length buf <= length p)%nat) by (destruct Hbuf as [->|(_ & -> & ->)]; cbn; lia).
  replace (Z.of_nat (length buf) =? JSON_BUFLEN_MONMAX) with false by (symmetry; apply Z.eqb_neq; lia).
  assert (Hcap : (length p <= mn_cap m)%nat) by (rewrite length_app in Hbl; lia).
  set (m' cap := Mon (drop k (mn_in m)) buf cap MON_STATUS_RUNNING st1).
  assert (Hm' : forall cap, (length buf < cap)%nat -> ~ one_byte (m' cap) -> exists got' more', mon_inv (m' cap) got' more').
  { intros cap Hc Hone. destruct Hbuf as [->|(Hne & Hl & _)].
    - exists (got ++ got1), more1. split; cbn [m' mn_st mn_buf mn_in mn_cap mn_status]; [by rewrite <- (assoc_L (++)), <- Hmore|done|done|done|done|done].
    - destruct Hone. exists (length (got ++ got1)). cbn [m' mn_in]. rewrite Hsp, Hmore, (assoc_L (++)). rewrite take_app_length, !texts_app.
      assert (length (texts more1) = S (length (drop k (mn_in m)))) as E by (rewrite <- Hy, length_app; lia).
      rewrite !length_app, E. split; [destruct got1; [done|cbn [length]; lia]|lia]. }
  destruct (Nat.eqb_spec (length buf) (mn_cap m)) as [He|He]; eexists; (split; [reflexivity|]); (split; [cbn [mn_in]; rewrite length_drop; lia|]); apply Hm'; lia.
Qed.

Lemma monitor_idle n m : mn_in m = [] -> ovsdb_monitor n m = Some m.
Proof. intros H. unfold ovsdb_monitor. rewrite H. by rewrite orb_true_r. Qed.

Lemma monitor_runs ns : forall m got more, mon_inv m got more -> Forall (fun n => 0 < n)%nat ns ->
  (forall i m', monitor_run (take i ns) m = Some m' -> ~ one_byte m') ->
  exists m' got' more', monitor_run ns m = Some m' /\ mon_inv m' got' more' /\ ((length (mn_in m) <= length ns)%nat -> mn_in m' = []).
Proof.
  induction ns as [|n ns IH]; intros m got more I Hns Hone; cbn [monitor_run].
  - exists m, got, more. split_and!; [done|done|]. intros H. apply nil_length_inv. cbn in H. lia.
  - apply Forall_cons in Hns as [Hn Hns].
    assert (exists m1 got1 more1, ovsdb_monitor n m = Some m1 /\ mon_inv m1 got1 more1 /\ ((length (mn_in m) <= S (length ns))%nat -> (length (mn_in m1) <= length ns)%nat))
      as (m1 & got1 & more1 & Hs & I1 & Hl).
    { destruct (decide (mn_in m = [])) as [E|E]; [exists m, got, more; rewrite E; split_and!; [by apply monitor_idle|done|cbn; lia]|].
      destruct (monitor_step n m got more I Hn E) as (m1 & Hs & Hlt & HI). destruct HI as (g1 & r1 & HI); [apply (Hone 1%nat); cbn [take monitor_run]; rewrite Hs; done|].
      exists m1, g1, r1. split_and!; [done|done|lia]. }
    rewrite Hs. cbn [mbind option_bind].
    destruct (IH m1 got1 more1 I1 Hns) as (m' & got' & more' & Hr & I' & Hlen).
    { intros i m' Hr. apply (Hone (S i)). cbn [take monitor_run]. rewrite Hs. exact Hr. }
    exists m', got', more'. split_and!; [done|done|]. cbn [length]. auto.
Qed.

Lemma mon_inv_start : mon_inv (mon_start (texts ms) st0) [] ms.
Proof. split; [done|done|done|by left|cbn [mon_start mn_buf mn_cap length]; unfold JSON_BUFLEN; lia|done]. Qed.

Lemma mon_inv_end m got more : mon_inv m got more -> mn_in m = [] -> mn_st m = st' /\ mn_buf m = [].
Proof.
  intros [Hsp Hst Hstr Hpart _ _] Hin. rewrite Hin in Hstr. assert (Hm : Forall is_msg more) by (rewrite Hsp in Hms; by apply Forall_app in Hms as [_ ?]).
  destruct (partial_length _ _ Hm Hpart) as [_ Hn]. specialize (Hn Hstr). subst more. rewrite app_nil_r in Hsp. subst got.
  split; [congruence|]. by apply app_eq_nil in Hstr as [? _].
Qed.
End stream.
End monitor.

(** What [ovsdb_monitor] does with a value it has read. *)
Definition on_message {J : Jansson} {St : Type} (tbl : srdb_table) (cbs : callbacks (St := St)) (m : json) (st : St) : option St :=
  '(st, _) ← monitor_message tbl cbs m st; Some st.

(** *** A small self-delimiting format *)

Fixpoint upto (c : Z) (l : list Z) : option (list Z) :=
  match l with [] => None | x :: l => if x =? c then Some [] else cons x <$> upto c l end.
Definition brace_loadb (bs : list Z) : option (list Z * nat) :=
  match bs with x :: bs => if x =? 123 then (fun m => (m, S (S (length m)))) <$> upto 125 bs else None | [] => None end.
Definition brace_text (m : list Z) : list Z := 123 :: m ++ [125].
Definition brace_msg (m : list Z) : Prop := (125 ∉ m) /\ (length m < 4000)%nat.
Definition collect (m : list Z) (st : list (list Z)) : option (list (list Z)) := Some (st ++ [m]).

Lemma cut_upto_app c m rest : c ∉ m -> upto c (m ++ c :: rest) = Some m.
Proof.
  induction m as [|x m IH]; intros H; cbn [app upto]; [by rewrite Z.eqb_refl|]. apply not_elem_of_cons in H as [Hx H].
  destruct (Z.eqb_spec x c); [done|]. by rewrite IH.
Qed.

Lemma cut_upto_none c m : c ∉ m -> upto c m = None.
Proof. induction m as [|x m IH]; intros H; cbn [upto]; [done|]. apply not_elem_of_cons in H as [Hx H]. destruct (Z.eqb_spec x c); [done|]. by rewrite IH. Qed.

Lemma brace_ok : loadb_ok brace_loadb brace_msg brace_text.
Proof.
  split.
  - intros m rest [Hm _]. unfold brace_text. cbn [app brace_loadb]. rewrite <- (assoc_L (++)). cbn [app]. rewrite cut_upto_app by done. cbn. rewrite length_app. cbn. do 2 f_equal. lia.
  - intros m k [Hm _] Hk. unfold brace_text in *. destruct k as [|k]; [done|]. cbn [take brace_loadb]. cbn [length] in Hk. rewrite length_app in Hk. cbn [length] in Hk.
    rewrite take_app_le by lia. rewrite cut_upto_none; [done|]. intros H. by apply elem_of_take in H as (i & H%list_elem_of_lookup_2 & _).
  - intros m [_ Hm]. unfold brace_text, JSON_BUFLEN_MONMAX. cbn [length]. rewrite length_app. cbn [length]. lia.
Qed.

(** ** Main results on monitors *)

(** C30. The messages of the server reach the handler, each once and in order,
    however recv cuts the stream, as long as no recv ends exactly one byte
    into a message with others complete before it: the buffer always has
    room, only the received part of one message waits in it, and after as
    many turns as there are bytes every message has been handled. *)
Theorem monitor_delivers (M St : Type) (json_loadb : list Z -> option (M * nat)) (handle : M -> St -> option St)
    (is_msg : M -> Prop) (text : M -> list Z) (ms : list M) (st0 st' : St) (ns : list nat) :
  loadb_ok json_loadb is_msg text -> Forall is_msg ms -> feed handle ms st0 = Some st' -> Forall (fun n => 0 < n)%nat ns ->
  (forall i m, monitor_run json_loadb handle (take i ns) (mon_start (texts text ms) st0) = Some m -> ~ one_byte text ms m) ->
  exists m, monitor_run json_loadb handle ns (mon_start (texts text ms) st0) = Some m /\ mn_status m = MON_STATUS_RUNNING /\
    (length (mn_buf m) < mn_cap m)%nat /\
    (exists k, feed handle (take k ms) st0 = Some (mn_st m) /\ mn_buf m ++ mn_in m = texts text (drop k ms)) /\
    ((length (texts text ms) <= length ns)%nat -> mn_st m = st' /\ mn_in m = [] /\ mn_buf m = []).
Proof.
  intros L Hms Hf Hns Hone. pose proof (mon_inv_start handle text ms st0) as I0.
  destruct (monitor_runs json_loadb handle is_msg text L ms st0 st' Hms Hf ns _ _ _ I0 Hns Hone) as (m & got & more & Hr & I & Hin).
  exists m. pose proof I as [Hsp Hst Hstr _ Hroom Hrun]. split_and!; [done|done|done| |].
  - exists (length got). rewrite Hsp, take_app_length, drop_app_length. by split.
  - intros Hl. specialize (Hin Hl). destruct (mon_inv_end json_loadb handle is_msg text L ms st0 st' Hms Hf m got more I Hin) as [H1 H2]. by split_and!.
Qed.

Definition two_msgs : list (list Z) := [[1; 2]; [3]].

Lemma monitor_delivers_witness :
  exists m, monitor_run brace_loadb collect [3; 5; 9]%nat (mon_start (texts brace_text two_msgs) []) = Some m /\ mn_status m = MON_STATUS_RUNNING /\
    (length (mn_buf m) < mn_cap m)%nat /\
    (exists k, feed collect (take k two_msgs) [] = Some (mn_st m) /\ mn_buf m ++ mn_in m = texts brace_text (drop k two_msgs)) /\
    ((length (texts brace_text two_msgs) <= length [3; 5; 9])%nat -> mn_st m = two_msgs /\ mn_in m = [] /\ mn_buf m = []).
Proof.
  apply (monitor_delivers _ _ brace_loadb collect brace_msg brace_text two_msgs [] two_msgs [3; 5; 9]%nat brace_ok).
  - repeat constructor; cbn; try lia; set_solver.
  - reflexivity.
  - repeat constructor.
  - intros i m Hr (j & Hj & Hb). destruct i as [|[|[|[|i]]]]; vm_compute in Hr; injection Hr as <-; destruct j as [|[|[|j]]]; vm_compute in Hb; cbn in Hj; lia.
Defined.

(** A buffer that does not begin with a message never will. *)
Lemma dead_buffer ns : forall m m', (exists x l, mn_buf m = x :: l /\ x <> 123) ->
  monitor_run brace_loadb collect ns m = Some m' -> mn_st m' = mn_st m.
Proof.
  induction ns as [|n ns IH]; intros m m' (x & l & Hb & Hx); cbn [monitor_run]; [by intros [= <-]|].
  assert (exists m1, ovsdb_monitor brace_loadb collect n m = Some m1 /\ mn_st m1 = mn_st m /\ exists l1, mn_buf m1 = x :: l1) as (m1 & -> & Hst & l1 & Hb1).
  { unfold ovsdb_monitor. destruct (_ || _); [exists m; split_and!; [done|done|by exists l]|]. rewrite Hb. cbn [app length drain]. rewrite drop_0. cbn [brace_loadb].
    destruct (Z.eqb_spec x 123); [done|]. cbn [mbind option_bind negb andb]. change (0 <? 0)%nat with false. cbn match.
    destruct (_ =? _); [|destruct (_ =? _)%nat]; (eexists; split; [reflexivity|]; split; [done|by eexists]). }
  cbn [mbind option_bind]. intros Hr. rewrite <- Hst. eapply IH; [|exact Hr]. exists x, l1. by split.
Qed.

(** When a recv ends one byte into a message, that byte is thrown away
    with the buffer: no later message is recognised, whatever the server
    sends and however it is cut. *)
Theorem monitor_loses_byte (more : list (list Z)) (ns : list nat) (m : mon) :
  monitor_run brace_loadb collect ([4; 1]%nat ++ ns) (mon_start (texts brace_text ([1] :: [2] :: more)) []) = Some m -> mn_st m = [[1]].
Proof.
  cbn [app monitor_run]. set (s := texts brace_text more).
  assert (H1 : ovsdb_monitor brace_loadb collect 4 (mon_start (texts brace_text ([1] :: [2] :: more)) []) = Some (Mon (2 :: 125 :: s) [] JSON_BUFLEN MON_STATUS_RUNNING [[1]])) by reflexivity.
  assert (H2 : ovsdb_monitor brace_loadb collect 1 (Mon (2 :: 125 :: s) [] JSON_BUFLEN MON_STATUS_RUNNING [[1]]) = Some (Mon (125 :: s) [2] JSON_BUFLEN MON_STATUS_RUNNING [[1]])) by reflexivity.
  rewrite H1. cbn [mbind option_bind]. rewrite H2. cbn [mbind option_bind]. intros Hr. apply dead_buffer in Hr; [done|]. by exists 2, [].
Qed.

Lemma monitor_loses_byte_witness :
  exists m, monitor_run brace_loadb collect [4; 1; 50]%nat (mon_start (texts brace_text [[1]; [2]; [3]]) []) = Some m /\ mn_in m = [] /\ mn_st m = [[1]].
Proof.
  eexists. split; [vm_compute; reflexivity|]. split; [reflexivity|].
  apply (monitor_loses_byte [[3]] [50]%nat). vm_compute. reflexivity.
Defined.
