(* ===== verification/Shutdown.v ===== *)
(** * The end of the database library (lib/srdb.c: srdb_destroy)

    [srdb_destroy] queues one NULL per transaction worker, wakes the workers,
    joins them, and stops and joins the monitors one by one.  The workers are
    those of Transport.v, over the bounded list: the queue holds nothing but
    NULLs here, so that it does not matter which slots the ring uses.  Of a
    monitor the model keeps what its stop depends
    on, the messages on its socket and the semaphore.  The steps of the
    destroying thread, of the workers, of the monitors and of the server are
    interleaved in any order. *)

From S2P Require Import Prelude Sync Sbuf Srdb Transport.

(** ** Monitors *)

(** [ms_sock]: messages that the server has sent and that are not read. *)
Record mstate := MState { ms_stop : Z; ms_sock : nat; ms_running : bool }.

(** A turn of the loop of [ovsdb_monitor] in which poll() finds something; a
    turn in which it does not ends at its [continue], before the semaphore is
    looked at. *)
Definition monitor_turn (m : mstate) : option mstate :=
  if ms_running m then
    match ms_sock m with
    | O => None
    | S k => if 0 <? ms_stop m then Some (MState (ms_stop m - 1) (S k) false) else Some (MState (ms_stop m) k true)
    end
  else None.

(** ** The destroying thread *)

(** Before sbuf_push number [i]; in [wakeup_tr_workers] before the write to
    worker [i]; before pthread_join of worker [i]; before sem_post for monitor
    [i]; before its pthread_join; at the frees. *)
Inductive dpc := DPush (i : nat) | DWake (i : nat) | DJoin (i : nat) | DStop (i : nat) | DJoinMon (i : nat) | DDone.

Record dsys := DSys { x_cap : nat; x_queue : list (option Z); x_results : gmap Z Z; x_workers : list worker; x_mons : list mstate; x_pc : dpc }.

Definition set_pc (s : dsys) (pc : dpc) : dsys := DSys (x_cap s) (x_queue s) (x_results s) (x_workers s) (x_mons s) pc.
Definition set_mons (s : dsys) (ms : list mstate) (pc : dpc) : dsys := DSys (x_cap s) (x_queue s) (x_results s) (x_workers s) ms pc.

Definition exited (w : worker) : bool := match wk_pc w with WExit => true | _ => false end.

Definition srdb_destroy_step (s : dsys) : option dsys :=
  match x_pc s with
  | DPush i =>
      if (i <? length (x_workers s))%nat then
        if (length (x_queue s) <? x_cap s)%nat
        then Some (DSys (x_cap s) (x_queue s ++ [None]) (x_results s) (x_workers s) (x_mons s) (DPush (S i))) else None
      else Some (set_pc s (DWake 0))
  | DWake i =>
      match x_workers s !! i with
      | Some w => Some (DSys (x_cap s) (x_queue s) (x_results s) (<[i := add_event w]> (x_workers s)) (x_mons s) (DWake (S i)))
      | None => Some (set_pc s (DJoin 0))
      end
  | DJoin i =>
      match x_workers s !! i with
      | Some w => if exited w then Some (set_pc s (DJoin (S i))) else None
      | None => Some (set_pc s (DStop 0))
      end
  | DStop i =>
      match x_mons s !! i with
      | Some m => Some (set_mons s (<[i := MState (ms_stop m + 1) (ms_sock m) (ms_running m)]> (x_mons s)) (DJoinMon i))
      | None => Some (set_pc s DDone)
      end
  | DJoinMon i =>
      m ← x_mons s !! i;
      if ms_running m then None else Some (set_pc s (DStop (S i)))
  | DDone => None
  end.

(** ** The system *)

(** The steps of the threads, and the server that sends a keep-alive to a
    worker or a message to a monitor. *)
Inductive dlabel := XDestroy | XWorker (k n : nat) (sent : bool) | XMonitor (k : nat) | XEcho (k : nat) | XNotify (k : nat).

Definition dsys_step (l : dlabel) (s : dsys) : option dsys :=
  match l with
  | XDestroy => srdb_destroy_step s
  | XWorker k n sent =>
      w ← x_workers s !! k;
      '(q, res, w') ← worker_step (B := fifo (x_cap s)) n sent (x_queue s) (x_results s) w;
      Some (DSys (x_cap s) q res (<[k := w']> (x_workers s)) (x_mons s) (x_pc s))
  | XMonitor k => m ← x_mons s !! k; m' ← monitor_turn m; Some (set_mons s (<[k := m']> (x_mons s)) (x_pc s))
  | XEcho k =>
      w ← x_workers s !! k;
      Some (DSys (x_cap s) (x_queue s) (x_results s)
        (<[k := Worker (wk_pc w) (wk_event w) (wk_sock w ++ [MEcho]) (wk_reqs w) (wk_pending w)]> (x_workers s)) (x_mons s) (x_pc s))
  | XNotify k => m ← x_mons s !! k; Some (set_mons s (<[k := MState (ms_stop m) (S (ms_sock m)) (ms_running m)]> (x_mons s)) (x_pc s))
  end.

Fixpoint drun (ls : list dlabel) (s : dsys) : option dsys :=
  match ls with [] => Some s | l :: ls => s ← dsys_step l s; drun ls s end.

(** The library when its users are gone: nothing queued, no transaction under
    way. *)
Definition destroy_start (ws : list worker) (ms : list mstate) : dsys := DSys (2 * length ws) [] ∅ ws ms (DPush 0).


(** ** Invariant *)


















(** ** No thread waits for ever, but for a silent server *)




(** ** Termination *)















(** ** What the library owns (srdb_new, srdb_destroy) *)

Module Resources.

(** Blocks and descriptors: the struct, the tables, the array of workers, the
    event of worker [i], the list of monitors, the queue. *)
Inductive resource := Srdb | Tables | Workers | Event (i : nat) | Monitors | Transactions.
#[global] Instance resource_eq_dec : EqDecision resource.
Proof. solve_decision. Defined.

Inductive rop := Get (r : resource) | Put (r : resource).

(** Which of the calls succeed. *)
Record calls := Calls { c_srdb : bool; c_tables : bool; c_workers : bool; c_event : nat -> bool; c_monitors : bool; c_transactions : bool }.

(** The loop over eventfd(): how many succeed before the first failure. *)
Fixpoint event_inits (c : calls) (n i : nat) : nat :=
  match n with
  | O => i
  | S n => if c_event c i then event_inits c n (S i) else i
  end.

(** NULL or not, and what is acquired and released. *)
Definition srdb_new (c : calls) (ntransacts : nat) : bool * list rop :=
  if negb (c_srdb c) then (false, [])
  else if negb (c_tables c) then (false, [Get Srdb; Put Srdb])
  else if negb (c_workers c) then (false, [Get Srdb; Get Tables; Put Tables; Put Srdb])
  else
    let envent_inits := event_inits c ntransacts 0 in
    let start := [Get Srdb; Get Tables; Get Workers] ++ map (fun i => Get (Event i)) (seq 0 envent_inits) in
    let out_close_events := map (fun i => Put (Event i)) (seq 0 envent_inits) ++ [Put Workers; Put Tables; Put Srdb] in
    if (envent_inits <? ntransacts)%nat then (false, start ++ out_close_events)
    else if negb (c_monitors c) then (false, start ++ out_close_events)
    else if negb (c_transactions c) then (false, start ++ [Get Monitors; Put Monitors] ++ out_close_events)
    else (true, start ++ [Get Monitors; Get Transactions]).

(** The releases of [srdb_destroy], in its order. *)
Definition srdb_destroy (ntransacts : nat) : list rop :=
  map (fun i => Put (Event i)) (seq 0 ntransacts) ++ [Put Monitors; Put Workers; Put Transactions; Put Tables; Put Srdb].

(** What is held after a trace; releasing what is not held is an error. *)
Definition apply_rop (o : option (list resource)) (op : rop) : option (list resource) :=
  held ← o;
  match op with
  | Get r => Some (r :: held)
  | Put r => if decide (r ∈ held) then Some (List.remove resource_eq_dec r held) else None
  end.
Definition held (tr : list rop) (h : list resource) : option (list resource) := foldl apply_rop (Some h) tr.

Lemma held_app tr tr' h : held (tr ++ tr') h = (h ← held tr h; held tr' h).
Proof.
  unfold held. rewrite foldl_app. destruct (foldl apply_rop (Some h) tr) as [x|]; [done|]. cbn [mbind option_bind].
  induction tr' as [|op tr' IH]; [done|exact IH].
Qed.

Definition events (n : nat) : list resource := map Event (seq 0 n).

Lemma held_gets l h : held (map Get l) h = Some (rev l ++ h).
Proof.
  revert h. induction l as [|r l IH]; intros h; [done|]. change (held (map Get (r :: l)) h) with (held (map Get l) (r :: h)).
  rewrite IH. cbn [rev]. by rewrite <- (assoc_L (++)).
Qed.

Lemma remove_notin r (l : list resource) : r ∉ l -> List.remove resource_eq_dec r l = l.
Proof. intros H. apply notin_remove. by rewrite <- list_elem_of_In. Qed.

(** Everything that is held is released once, in any order. *)
Lemma held_puts l : forall h, NoDup l -> NoDup h -> (forall r, r ∈ h <-> r ∈ l) -> held (map Put l) h = Some [].
Proof.
  induction l as [|r l IH]; intros h Hl Hh Hi.
  - destruct h as [|x h]; [done|]. destruct (not_elem_of_nil x). apply Hi. by left.
  - apply NoDup_cons in Hl as [Hr Hl]. change (held (map Put (r :: l)) h) with (foldl apply_rop (apply_rop (Some h) (Put r)) (map Put l)).
    cbn [apply_rop mbind option_bind]. rewrite decide_True by (apply Hi; by left). apply IH; [done| |].
    + clear -Hh. induction Hh as [|x h Hx _ IHh]; cbn; [constructor|]. destruct (resource_eq_dec r x); [done|]. constructor; [|done].
      rewrite list_elem_of_In in *. contradict Hx. by apply in_remove in Hx as [? _].
    + intros x. rewrite list_elem_of_In. split.
      * intros [Hx Hne]%in_remove. apply list_elem_of_In, Hi, elem_of_cons in Hx as [->|]; done.
      * intros Hx. apply in_in_remove; [by intros ->|]. apply list_elem_of_In, Hi. by right.
Qed.

Lemma events_nodup n : NoDup (events n).
Proof. unfold events. apply NoDup_fmap; [by intros ? ? [= ->]|apply NoDup_seq]. Qed.

Lemma elem_events r n : r ∈ events n -> exists i, r = Event i.
Proof. intros (i & -> & _)%list_elem_of_fmap. by eexists. Qed.

Lemma event_inits_bound c n i : (event_inits c n i <= i + n)%nat.
Proof. revert i. induction n as [|n IH]; intros i; cbn [event_inits]; [lia|]. destruct (c_event c i); [specialize (IH (S i)); lia|lia]. Qed.

(** The order of acquisition against the order of release: the same set. *)
Lemma release_all got put : NoDup got -> NoDup put -> (forall r, r ∈ got <-> r ∈ put) -> held (map Get got ++ map Put put) [] = Some [].
Proof.
  intros Hg Hp H. rewrite held_app, held_gets. cbn [mbind option_bind]. rewrite app_nil_r. apply held_puts; [done|by apply NoDup_ListNoDup, List.NoDup_rev, NoDup_ListNoDup|].
  intros r. by rewrite <- H, !list_elem_of_In, <- in_rev.
Qed.

Lemma nodup_with_events l n : NoDup l -> (forall i, Event i ∉ l) -> NoDup (l ++ events n) /\ NoDup (events n ++ l).
Proof.
  intros Hl He. assert (NoDup (l ++ events n)) as H.
  { apply NoDup_app. split_and!; [done| |apply events_nodup]. intros r H1 (i & ->)%elem_events. by destruct (He i). }
  split; [done|]. by rewrite (comm (++)).
Qed.

Lemma map_events (f : resource -> rop) n : map (fun i => f (Event i)) (seq 0 n) = map f (events n).
Proof. unfold events. by rewrite map_map. Qed.

(** A failure that releases [put] of what has been acquired. *)
Lemma failure_releases l n put : NoDup l -> (forall i, Event i ∉ l) -> NoDup put -> (forall r, r ∈ put <-> r ∈ l) ->
  held ((map Get l ++ map Get (events n)) ++ map Put (events n) ++ map Put put) [] = Some [].
Proof.
  intros Hl He Hp Hi. rewrite <- !map_app. apply release_all; [by apply nodup_with_events| |].
  - apply nodup_with_events; [done|]. intros i Hx. by apply (He i), Hi.
  - intros r. rewrite !elem_of_app, Hi. tauto.
Qed.

(** ... and one between an acquisition and its release. *)
Lemma held_get_put r tr h : r ∉ h -> held ([Get r; Put r] ++ tr) h = held tr h.
Proof.
  intros Hr. unfold held. cbn [app foldl apply_rop mbind option_bind]. rewrite decide_True by (by left). cbn [List.remove]. destruct (resource_eq_dec r r); [|done].
  by rewrite remove_notin.
Qed.

Ltac nodup_base := repeat (apply NoDup_cons; split; [set_solver|]); apply NoDup_nil_2.
End Resources.


(** ** Theorems *)


(** Nothing waits for ever when the server writes to every monitor after it
    has been told to stop. *)
Lemma stopped_monitor_ends m : ms_running m = true -> 0 < ms_stop m -> (0 < ms_sock m)%nat -> exists m', monitor_turn m = Some m' /\ ms_running m' = false.
Proof.
  intros Hr Hs Hk. unfold monitor_turn. rewrite Hr. destruct (ms_sock m) as [|j]; [lia|]. rewrite (proj2 (Z.ltb_lt _ _)) by done. by eexists.
Qed.

(** The stop of a monitor is looked at behind the [continue] of a poll without
    event: as long as the server is silent the destroying thread waits for
    it, whatever the others do. *)
Theorem destroy_waits_for_server (s s' : dsys) (i : nat) (m : mstate) (ls : list dlabel) :
  x_pc s = DJoinMon i -> x_mons s !! i = Some m -> ms_running m = true -> ms_sock m = O -> Forall (fun l => l <> XNotify i) ls -> drun ls s = Some s' ->
  x_pc s' = DJoinMon i.
Proof.
  intros Hpc Hm Hr Hs Hl. revert s m Hpc Hm Hr Hs. induction Hl as [|l ls Hne _ IH]; intros s m Hpc Hm Hr Hs; cbn [drun]; [by intros [= <-]|].
  destruct (dsys_step l s) as [s1|] eqn:E; [|done]. cbn [mbind option_bind]. destruct l as [|k n sent|k|k|k]; cbn [dsys_step] in E.
  - unfold srdb_destroy_step in E. rewrite Hpc, Hm in E. cbn [mbind option_bind] in E. by rewrite Hr in E.
  - destruct (x_workers s !! k) as [w|]; [|done]. cbn [mbind option_bind] in E. destruct (worker_step _ _ _ _ _) as [[[q res] w']|]; [|done]. cbn [mbind option_bind] in E. injection E as <-. by eapply IH.
  - destruct (decide (k = i)) as [->|Hk].
    + rewrite Hm in E. cbn [mbind option_bind] in E. unfold monitor_turn in E. by rewrite Hr, Hs in E.
    + destruct (x_mons s !! k) as [x|]; [|done]. cbn [mbind option_bind] in E. destruct (monitor_turn x) as [x'|]; [|done]. cbn [mbind option_bind] in E. injection E as <-.
      apply (IH _ m); [done|cbn [set_mons x_mons]; by rewrite list_lookup_insert_ne|done|done].
  - destruct (x_workers s !! k) as [w|]; [|done]. cbn [mbind option_bind] in E. injection E as <-. by eapply IH.
  - destruct (decide (k = i)) as [->|Hk]; [done|]. destruct (x_mons s !! k) as [x|]; [|done]. cbn [mbind option_bind] in E. injection E as <-.
    apply (IH _ m); [done|cbn [set_mons x_mons]; by rewrite list_lookup_insert_ne|done|done].
Qed.

(** [srdb_new] and [srdb_destroy] release what they have acquired: when a call
    fails, NULL is returned and everything acquired before is released once;
    otherwise [srdb_destroy] releases it. *)
Theorem srdb_new_releases (c : Resources.calls) (n : nat) :
  (fst (Resources.srdb_new c n) = false -> Resources.held (snd (Resources.srdb_new c n)) [] = Some []) /\
  (fst (Resources.srdb_new c n) = true -> Resources.held (snd (Resources.srdb_new c n) ++ Resources.srdb_destroy n) [] = Some []).
Proof.
  unfold Resources.srdb_new. destruct (Resources.c_srdb c), (Resources.c_tables c), (Resources.c_workers c); cbn [negb]; try (by split).
  set (k := Resources.event_inits c n 0). cbn zeta. rewrite !Resources.map_events.
  assert (Resources.held ((map Resources.Get [Resources.Srdb; Resources.Tables; Resources.Workers] ++ map Resources.Get (Resources.events k)) ++
    map Resources.Put (Resources.events k) ++ map Resources.Put [Resources.Workers; Resources.Tables; Resources.Srdb]) [] = Some []) as Hf.
  { apply Resources.failure_releases; [Resources.nodup_base|set_solver|Resources.nodup_base|set_solver]. }
  destruct (Nat.ltb_spec k n) as [Hk|Hk]; [by split|]. destruct (Resources.c_monitors c); cbn [negb]; [|by split].
  pose proof (Resources.event_inits_bound c n 0) as Hb. fold k in Hb. replace n with k by lia.
  destruct (Resources.c_transactions c); cbn [negb fst snd]; (split; [try done|try done]); intros _.
  - unfold Resources.srdb_destroy. rewrite Resources.map_events.
    change ([Resources.Get Resources.Srdb; Resources.Get Resources.Tables; Resources.Get Resources.Workers]) with (map Resources.Get [Resources.Srdb; Resources.Tables; Resources.Workers]).
    change ([Resources.Get Resources.Monitors; Resources.Get Resources.Transactions]) with (map Resources.Get [Resources.Monitors; Resources.Transactions]).
    change ([Resources.Put Resources.Monitors; Resources.Put Resources.Workers; Resources.Put Resources.Transactions; Resources.Put Resources.Tables; Resources.Put Resources.Srdb])
      with (map Resources.Put [Resources.Monitors; Resources.Workers; Resources.Transactions; Resources.Tables; Resources.Srdb]).
    rewrite <- !map_app. apply Resources.release_all; [|apply Resources.nodup_with_events; [Resources.nodup_base|set_solver]|intros r; rewrite !elem_of_app; set_solver].
    rewrite (comm (++)), (assoc_L (++)). apply Resources.nodup_with_events; [cbn [app]; Resources.nodup_base|set_solver].
  - rewrite Resources.held_app in *. destruct (Resources.held _ []) as [h|] eqn:E; [|done]. cbn [mbind option_bind] in *. rewrite Resources.held_get_put; [exact Hf|].
    pose proof (Resources.held_gets ([Resources.Srdb; Resources.Tables; Resources.Workers] ++ Resources.events k) []) as E'. rewrite map_app in E'. cbn [map] in E, E'. rewrite E' in E.
    assert (forall r, r ∈ h -> r ∈ [Resources.Srdb; Resources.Tables; Resources.Workers] \/ r ∈ Resources.events k) as Hh.
    { intros r Hr. apply elem_of_app. apply list_elem_of_In, in_rev. assert (forall x, Some x = Some h -> x = h) as Hsome by congruence. rewrite app_nil_r in E. apply Hsome in E. rewrite E. by apply list_elem_of_In. }
    intros [H|(i & [=])%Resources.elem_events]%Hh. set_solver.
Qed.

(** ** Two workers, one of them with a keep-alive unread, and a monitor *)

Definition end_workers : list worker := [Worker WPoll 0 [MEcho] [] None; new_worker].
Definition end_monitors : list mstate := [MState 0 0 true].
Definition wturn (k : nat) : list dlabel := replicate 4 (XWorker k 1 true).
Definition end_run : list dlabel :=
  [XDestroy; XWorker 0 1 true; XDestroy; XWorker 0 1 true; XDestroy; XDestroy; XDestroy; XDestroy] ++ wturn 1 ++ [XWorker 0 1 true; XWorker 0 1 true; XDestroy; XDestroy; XDestroy; XDestroy].

Definition end_state : dsys := default (destroy_start [] []) (drun end_run (destroy_start end_workers end_monitors)).



(** The run ends with both workers gone and the monitor not; a notification
    then lets it end. *)
Lemma end_state_waits : map exited (x_workers end_state) = [true; true] /\ x_pc end_state = DJoinMon 0 /\
  exists s, drun [XNotify 0; XMonitor 0; XDestroy; XDestroy] end_state = Some s /\ x_pc s = DDone.
Proof. split_and!; [vm_compute; reflexivity|vm_compute; reflexivity|]. eexists. split; vm_compute; reflexivity. Qed.

Lemma destroy_waits_for_server_witness : x_pc (default end_state (drun [XEcho 0] end_state)) = DJoinMon 0.
Proof.
  apply (destroy_waits_for_server end_state _ 0 (MState 1 0 true) [XEcho 0]); [vm_compute; reflexivity|vm_compute; reflexivity|done|done|by apply Forall_singleton|vm_compute; reflexivity].
Defined.
