(* ===== verification/Jsontext.v ===== *)
(** * JSON texts (jansson's json_loads, json_dumps and json_dumpb)

    jansson is not part of the sources: the interface [JanssonWire] has what
    its documentation and the JSON grammar say of texts.  Texts of the grammar
    are read to what they denote, texts cut short are refused, printed values
    are read back.  The second half of the file is a printer and a parser of
    JSON that have these laws. *)

From S2P Require Import Prelude Misc Srdb Routed.
From Stdlib Require Import Ascii Decimal DecimalPos DecimalZ.

Open Scope string_scope.
Open Scope Z_scope.

Lemma sapp_cons c (s t : string) : String c s ++ t = String c (s ++ t).
Proof. reflexivity. Qed.
Lemma sapp_empty (t : string) : "" ++ t = t.
Proof. reflexivity. Qed.
Ltac sapp_norm := repeat (rewrite <- sapp_assoc || rewrite sapp_cons || rewrite sapp_empty).

(** ** JSON texts *)

Definition DQ : ascii := "034".
Definition BS : ascii := "092".
Definition quoted (s : string) : string := String DQ (s ++ String DQ "").

(** Characters that stand for themselves in a string of a text. *)
Definition plain_char (c : ascii) : bool := (32 <=? byte_of c) && (byte_of c <=? 126) && negb (Ascii.eqb c DQ) && negb (Ascii.eqb c BS).
Fixpoint plain (s : string) : bool := match s with EmptyString => true | String c s => plain_char c && plain s end.

(** Nesting up to which jansson reads (JSON_PARSER_MAX_DEPTH). *)
Definition MAX_DEPTH : nat := 2048.

Section grammar.
Context {J : Jansson} {T : JanssonText J}.

(** Values made by the constructors, of nesting at most [n]. *)
Inductive built : nat -> json -> Prop :=
  | built_str n s j : json_string s = Some j -> built n j
  | built_int n z : - 2 ^ 63 <= z < 2 ^ 63 -> built n (json_integer z)
  | built_arr n js : (forall j, j ∈ js -> built n j) -> built (S n) (json_array js)
  | built_obj n : built (S n) json_object
  | built_set n o k v : built (S n) o -> json_is_object o = true -> is_Some (json_string k) -> built n v -> built (S n) (json_object_set o k v).

Definition json_fields (ms : list (string * json)) : json := foldl (fun o kv => json_object_set o kv.1 kv.2) json_object ms.

(** [json_text n s j]: [s] is a text of [j] without insignificant spaces, but
    for what [json_dumps] has printed. *)
Inductive json_text : nat -> string -> json -> Prop :=
  | text_dumps n j : built n j -> json_is_object j = true -> json_text n (json_dumps j) j
  | text_str n s j : plain s = true -> json_string s = Some j -> json_text n (quoted s) j
  | text_arr n s js : json_elems n s js -> json_text (S n) ("[" ++ s ++ "]") (json_array js)
  | text_obj n s ms : json_members n s ms -> NoDup ms.*1 -> json_text (S n) ("{" ++ s ++ "}") (json_fields ms)
with json_elems : nat -> string -> list json -> Prop :=
  | elems_one n s j : json_text n s j -> json_elems n s [j]
  | elems_cons n s j s' js : json_text n s j -> json_elems n s' js -> json_elems n (s ++ "," ++ s') (j :: js)
with json_members : nat -> string -> list (string * json) -> Prop :=
  | members_one n k s j : plain k = true -> json_text n s j -> json_members n (quoted k ++ ":" ++ s) [(k, j)]
  | members_cons n k s j s' ms : plain k = true -> json_text n s j -> json_members n s' ms ->
      json_members n (quoted k ++ ":" ++ s ++ "," ++ s') ((k, j) :: ms).

Scheme json_text_mut := Minimality for json_text Sort Prop
  with json_elems_mut := Minimality for json_elems Sort Prop
  with json_members_mut := Minimality for json_members Sort Prop.
Combined Scheme json_text_ind3 from json_text_mut, json_elems_mut, json_members_mut.

End grammar.

(** [json_compact] is what json_dumpb prints with JSON_COMPACT. *)
Class JanssonWire (J : Jansson) (T : JanssonText J) := {
  json_compact : json -> string;
  jw_plain : forall s, plain s = true -> is_Some (json_string s);
  jw_array_get : forall l i, json_array_get (json_array l) i = l !! i;
  jw_loads : forall n s ms, json_members n s ms -> NoDup ms.*1 -> (n < MAX_DEPTH)%nat ->
    json_loads ("{" ++ s ++ "}") = Some (json_fields ms);
  jw_cut : forall n s ms p q, json_members n s ms -> NoDup ms.*1 -> (n < MAX_DEPTH)%nat -> "{" ++ s ++ "}" = p ++ q -> q <> "" ->
    json_loads p = None;
  jw_compact : forall n j, built n j -> json_is_object j = true -> (n <= MAX_DEPTH)%nat -> json_loads (json_compact j) = Some j
}.

(** ** A printer and a parser *)

Definition TAB : ascii := "009".
Definition is_ws (c : ascii) : bool := Ascii.eqb c " " || Ascii.eqb c LF || Ascii.eqb c CR || Ascii.eqb c TAB.

Fixpoint skip_ws (s : string) : string :=
  match s with String c s' => if is_ws c then skip_ws s' else s | EmptyString => "" end.

(** *** Strings *)

Definition hex_digit (n : nat) : ascii := default NUL (String.get n "0123456789abcdef").
Definition hex_value (c : ascii) : option nat := String.index 0 (String c "") "0123456789abcdef".

Definition escape (c : ascii) : string :=
  if Ascii.eqb c DQ || Ascii.eqb c BS then String BS (String c "")
  else if byte_of c <? 32 then String BS ("u00" ++ String (hex_digit (nat_of_ascii c / 16)) (String (hex_digit (nat_of_ascii c mod 16)) ""))
  else String c "".

Fixpoint escape_all (s : string) : string := match s with EmptyString => "" | String c s => escape c ++ escape_all s end.

Definition print_str (s : string) : string := String DQ (escape_all s ++ String DQ "").

(** Behind the opening quote: the string and the rest of the text. *)
Fixpoint read_str (s : string) : option (string * string) :=
  match s with
  | EmptyString => None
  | String c s =>
      if Ascii.eqb c DQ then Some ("", s)
      else if Ascii.eqb c BS then
        match s with
        | String e s =>
            if Ascii.eqb e "u" then
              match s with
              | String z1 (String z2 (String h (String l s))) =>
                  if Ascii.eqb z1 "0" && Ascii.eqb z2 "0" then
                    h ← hex_value h; l ← hex_value l; '(t, r) ← read_str s; Some (String (ascii_of_nat (h * 16 + l)) t, r)
                  else None
              | _ => None
              end
            else if Ascii.eqb e DQ || Ascii.eqb e BS then '(t, r) ← read_str s; Some (String e t, r) else None
        | EmptyString => None
        end
      else if byte_of c <? 32 then None
      else '(t, r) ← read_str s; Some (String c t, r)
  end.

(** *** Integers *)

Fixpoint print_uint (u : Decimal.uint) : string :=
  match u with
  | Nil => ""
  | D0 u => String "0" (print_uint u) | D1 u => String "1" (print_uint u) | D2 u => String "2" (print_uint u)
  | D3 u => String "3" (print_uint u) | D4 u => String "4" (print_uint u) | D5 u => String "5" (print_uint u)
  | D6 u => String "6" (print_uint u) | D7 u => String "7" (print_uint u) | D8 u => String "8" (print_uint u)
  | D9 u => String "9" (print_uint u)
  end.

Definition digit (c : ascii) : option (Decimal.uint -> Decimal.uint) :=
  match String.index 0 (String c "") "0123456789" with
  | Some 0 => Some D0 | Some 1 => Some D1 | Some 2 => Some D2 | Some 3 => Some D3 | Some 4 => Some D4
  | Some 5 => Some D5 | Some 6 => Some D6 | Some 7 => Some D7 | Some 8 => Some D8 | Some _ => Some D9
  | None => None
  end%nat.

Fixpoint read_uint (s : string) : Decimal.uint * string :=
  match s with
  | String c s' => match digit c with Some d => let '(u, r) := read_uint s' in (d u, r) | None => (Nil, s) end
  | EmptyString => (Nil, "")
  end.

Definition print_int (z : Z) : string := match Z.to_int z with Decimal.Pos u => print_uint u | Decimal.Neg u => String "-" (print_uint u) end.

Definition read_nat (s : string) : option (Decimal.uint * string) := match read_uint s with (Nil, _) => None | x => Some x end.

Definition read_int (s : string) : option (Z * string) :=
  match s with
  | String c s' =>
      if Ascii.eqb c "-" then '(u, r) ← read_nat s'; Some (Z.of_int (Decimal.Neg u), r)
      else '(u, r) ← read_nat s; Some (Z.of_int (Decimal.Pos u), r)
  | EmptyString => None
  end.

(** *** Values *)

(** [sp] follows every comma and colon. *)
Fixpoint sep_join (sp : string) (l : list string) : string :=
  match l with [] => "" | [s] => s | s :: l => s ++ String "," (sp ++ sep_join sp l) end.

Fixpoint print (sp : string) (j : jtree) : string :=
  match j with
  | JNull => "null"
  | JStr s => print_str s
  | JInt z => print_int z
  | JArr l => String "[" (sep_join sp (map (print sp) l) ++ "]")
  | JObj l => String "{" (sep_join sp (map (fun kv => print_str kv.1 ++ String ":" (sp ++ print sp kv.2)) l) ++ "}")
  end.

Definition add_members (ms : list (string * jtree)) : list (string * jtree) := foldl (fun l kv => assoc_set l kv.1 kv.2) [] ms.

Definition read_null (s : string) : option string :=
  match s with String a (String b (String c s)) => if String.eqb (String a (String b (String c ""))) "ull" then Some s else None | _ => None end.

Fixpoint parse_value (fuel : nat) (s : string) : option (jtree * string) :=
  match fuel with
  | O => None
  | S fuel =>
      match skip_ws s with
      | EmptyString => None
      | String c r =>
          if Ascii.eqb c DQ then '(t, r) ← read_str r; Some (JStr t, r)
          else if Ascii.eqb c "[" then
            match skip_ws r with
            | String e r' => if Ascii.eqb e "]" then Some (JArr [], r') else '(l, r) ← parse_elems fuel r; Some (JArr l, r)
            | EmptyString => None
            end
          else if Ascii.eqb c "{" then
            match skip_ws r with
            | String e r' => if Ascii.eqb e "}" then Some (JObj [], r') else '(ms, r) ← parse_members fuel r; Some (JObj (add_members ms), r)
            | EmptyString => None
            end
          else if Ascii.eqb c "n" then r ← read_null r; Some (JNull, r)
          else '(z, r) ← read_int (String c r); Some (JInt z, r)
      end
  end
with parse_elems (fuel : nat) (s : string) : option (list jtree * string) :=
  match fuel with
  | O => None
  | S fuel =>
      '(v, r) ← parse_value fuel s;
      match skip_ws r with
      | String c r => if Ascii.eqb c "," then '(l, r) ← parse_elems fuel r; Some (v :: l, r) else if Ascii.eqb c "]" then Some ([v], r) else None
      | EmptyString => None
      end
  end
with parse_members (fuel : nat) (s : string) : option (list (string * jtree) * string) :=
  match fuel with
  | O => None
  | S fuel =>
      match skip_ws s with
      | String q r =>
          if Ascii.eqb q DQ then
            '(k, r) ← read_str r;
            match skip_ws r with
            | String c r =>
                if Ascii.eqb c ":" then
                  '(v, r) ← parse_value fuel r;
                  match skip_ws r with
                  | String c r =>
                      if Ascii.eqb c "," then '(ms, r) ← parse_members fuel r; Some ((k, v) :: ms, r) else if Ascii.eqb c "}" then Some ([(k, v)], r) else None
                  | EmptyString => None
                  end
                else None
            | EmptyString => None
            end
          else None
      | EmptyString => None
      end
  end.

Definition is_container (j : jtree) : bool := match j with JArr _ | JObj _ => true | _ => false end.

(** Without JSON_DECODE_ANY a text is an array or an object; nothing but space
    may follow it. *)
Definition parse_text (s : string) : option jtree :=
  match parse_value (2 * String.length s + 2) s with
  | Some (j, r) => if is_container j && String.eqb (skip_ws r) "" then Some j else None
  | None => None
  end.

Definition json_lib : JanssonText tree_jansson := {| json_array := JArr; json_dumps := print " "; json_loads := parse_text |}.

Example parse_printed_tree : parse_text (print " " (JObj [("a", JArr [JInt (-20); JStr (String DQ "x"); JNull]); ("b", JObj [])])) =
  Some (JObj [("a", JArr [JInt (-20); JStr (String DQ "x"); JNull]); ("b", JObj [])]).
Proof. vm_compute. reflexivity. Qed.

(** ** Printed texts are read back *)

Lemma read_escape c s : read_str (escape c ++ s) = ('(t, r) ← read_str s; Some (String c t, r)).
Proof. destruct c as [[] [] [] [] [] [] [] []]; reflexivity. Qed.

Lemma read_escaped t rest : read_str (escape_all t ++ String DQ rest) = Some (t, rest).
Proof. induction t as [|c t IH]; [done|]. cbn [escape_all]. rewrite <- sapp_assoc, read_escape, IH. done. Qed.

Lemma escape_plain t : plain t = true -> escape_all t = t.
Proof.
  induction t as [|c t IH]; [done|]. cbn [plain escape_all]. intros [Hc Ht]%andb_true_iff. rewrite IH by done.
  unfold plain_char in Hc. bool_prop. unfold escape. destruct (Ascii.eqb c DQ), (Ascii.eqb c BS); try done. cbn [orb].
  replace (byte_of c <? 32) with false by (symmetry; apply Z.ltb_ge; lia). done.
Qed.

Lemma quoted_print k : plain k = true -> quoted k = print_str k.
Proof. intros Hk. unfold quoted, print_str. by rewrite escape_plain. Qed.

(** What follows a number must not continue it. *)
Definition stops (s : string) : Prop := match s with String c _ => digit c = None | EmptyString => True end.

Lemma read_printed_uint u rest : stops rest -> read_uint (print_uint u ++ rest) = (u, rest).
Proof.
  intros Hs. induction u as [|u IH|u IH|u IH|u IH|u IH|u IH|u IH|u IH|u IH|u IH]; cbn [print_uint];
    rewrite ?sapp_cons; cbn [read_uint]; [|cbn; rewrite IH; reflexivity..].
  rewrite sapp_empty. destruct rest as [|c rest]; [done|]. cbn [read_uint]. by rewrite Hs.
Qed.

Lemma read_printed_nat u rest : u <> Nil -> stops rest -> read_nat (print_uint u ++ rest) = Some (u, rest).
Proof. intros Hu Hs. unfold read_nat. rewrite read_printed_uint by done. by destruct u. Qed.

Lemma to_int_digits z : match Z.to_int z with Decimal.Pos u | Decimal.Neg u => u <> Nil end.
Proof. destruct z; cbn; [done|apply Unsigned.to_uint_nonnil..]. Qed.

Lemma print_uint_head u rest : u <> Nil -> exists c s, print_uint u ++ rest = String c s /\ is_Some (digit c).
Proof. intros Hu. destruct u; try done; cbn [print_uint]; rewrite sapp_cons; eexists _, _; (split; [reflexivity|]); cbn; eauto. Qed.

Lemma digit_char c : is_Some (digit c) -> is_ws c = false /\ Ascii.eqb c DQ = false /\ Ascii.eqb c "[" = false /\ Ascii.eqb c "{" = false /\
  Ascii.eqb c "n" = false /\ Ascii.eqb c "-" = false /\ Ascii.eqb c "]" = false.
Proof. destruct c as [[] [] [] [] [] [] [] []]; (intros [? [=]] || intros _; vm_compute; auto 10). Qed.

Lemma read_printed_int z rest : stops rest -> read_int (print_int z ++ rest) = Some (z, rest).
Proof.
  intros Hs. unfold print_int. pose proof (to_int_digits z) as Hd. pose proof (DecimalZ.of_to z) as Hz. destruct (Z.to_int z) as [u|u].
  - destruct (print_uint_head u rest Hd) as (c & s & Hc & Hdig). unfold read_int. rewrite Hc. apply digit_char in Hdig as (_ & _ & _ & _ & _ & -> & _).
    rewrite <- Hc, read_printed_nat by done. cbn [mbind option_bind]. congruence.
  - rewrite sapp_cons. cbn [read_int Ascii.eqb Bool.eqb]. rewrite read_printed_nat by done. cbn [mbind option_bind]. congruence.
Qed.

(** [reads s j]: wherever the text [s] stands, [j] is read from it. *)
Definition starts (s : string) : Prop := exists c s', s = String c s' /\ is_ws c = false /\ Ascii.eqb c "]" = false.
Definition reads (s : string) (j : jtree) : Prop :=
  starts s /\ forall fuel rest, (2 * String.length s <= fuel)%nat -> stops rest -> parse_value fuel (s ++ rest) = Some (j, rest).
Definition reads_elems (s : string) (l : list jtree) : Prop :=
  starts s /\ forall fuel rest, (2 * String.length s + 1 <= fuel)%nat -> parse_elems fuel (s ++ String "]" rest) = Some (l, rest).
Definition reads_members (s : string) (ms : list (string * jtree)) : Prop :=
  (exists s', s = String DQ s') /\
  forall fuel rest, (2 * String.length s + 1 <= fuel)%nat -> parse_members fuel (s ++ String "}" rest) = Some (ms, rest).

Lemma skip_start c s : is_ws c = false -> skip_ws (String c s) = String c s.
Proof. intros Hc. cbn. by rewrite Hc. Qed.

Lemma reads_null : reads "null" JNull.
Proof. split; [by exists "n"%char, "ull"|]. intros [|f] rest Hf _; [cbn in Hf; lia|]. reflexivity. Qed.

Lemma reads_str t : reads (print_str t) (JStr t).
Proof.
  split; [by exists DQ, (escape_all t ++ String DQ "")|]. intros [|f] rest Hf _; [cbn in Hf; lia|].
  unfold print_str. rewrite sapp_cons, <- sapp_assoc, sapp_cons, sapp_empty. cbn [parse_value]. rewrite skip_start by done.
  change (Ascii.eqb DQ DQ) with true. cbn match. by rewrite read_escaped.
Qed.

Lemma reads_int z : reads (print_int z) (JInt z).
Proof.
  assert (Hh : exists c s, print_int z = String c s /\ is_ws c = false /\ Ascii.eqb c "]" = false /\
    Ascii.eqb c DQ = false /\ Ascii.eqb c "[" = false /\ Ascii.eqb c "{" = false /\ Ascii.eqb c "n" = false).
  { unfold print_int. pose proof (to_int_digits z) as Hd. destruct (Z.to_int z) as [u|u]; [|by eexists _, _].
    destruct (print_uint_head u "" Hd) as (c & s & Hc & Hdig). rewrite sapp_nil in Hc. exists c, s. rewrite Hc. apply digit_char in Hdig. tauto. }
  destruct Hh as (c & s & Hc & Hw & Hb & H1 & H2 & H3 & H4). split; [by exists c, s|].
  intros [|f] rest Hf Hs; [rewrite Hc in Hf; cbn in Hf; lia|]. pose proof (read_printed_int z rest Hs) as Hr. rewrite Hc in *. rewrite sapp_cons in *.
  cbn [parse_value]. rewrite skip_start, H1, H2, H3, H4, Hr by done. done.
Qed.

Lemma parse_value_sp sp fuel s : sp = "" \/ sp = " " -> parse_value fuel (sp ++ s) = parse_value fuel s.
Proof. by intros [-> | ->]; destruct fuel. Qed.
Lemma parse_elems_sp sp fuel s : sp = "" \/ sp = " " -> parse_elems fuel (sp ++ s) = parse_elems fuel s.
Proof. intros Hsp. destruct fuel; [done|]. cbn [parse_elems]. by rewrite parse_value_sp. Qed.
Lemma parse_members_sp sp fuel s : sp = "" \/ sp = " " -> parse_members fuel (sp ++ s) = parse_members fuel s.
Proof. by intros [-> | ->]; destruct fuel. Qed.

Lemma starts_app s t : starts s -> starts (s ++ t).
Proof. intros (c & s' & -> & H). exists c, (s' ++ t). by rewrite sapp_cons. Qed.

Lemma elems_reads_one s j : reads s j -> reads_elems s [j].
Proof.
  intros [Hs Hr]. split; [done|]. intros [|f] rest Hf; [lia|]. cbn [parse_elems]. rewrite Hr by (done || lia). reflexivity.
Qed.

Lemma elems_reads_cons sp s j s' l : sp = "" \/ sp = " " -> reads s j -> reads_elems s' l -> reads_elems (s ++ String "," (sp ++ s')) (j :: l).
Proof.
  intros Hsp [Hs Hr] [_ He]. split; [by apply starts_app|]. intros [|f] rest Hf; [lia|]. rewrite slength_app in Hf. cbn [String.length] in Hf.
  rewrite slength_app in Hf. rewrite <- sapp_assoc, sapp_cons, <- sapp_assoc. cbn [parse_elems]. rewrite Hr by (done || lia). cbn [mbind option_bind].
  rewrite skip_start by done. cbn [Ascii.eqb Bool.eqb]. rewrite parse_elems_sp, He by (done || lia). done.
Qed.

Lemma members_reads_one sp k s j : sp = "" \/ sp = " " -> reads s j -> reads_members (print_str k ++ String ":" (sp ++ s)) [(k, j)].
Proof.
  intros Hsp [Hs Hr]. split; [by eexists|]. intros [|f] rest Hf; [lia|]. rewrite slength_app in Hf. cbn [String.length] in Hf. rewrite slength_app in Hf.
  unfold print_str in *. sapp_norm. cbn [parse_members]. rewrite skip_start by done. change (Ascii.eqb DQ DQ) with true. cbn match.
  rewrite read_escaped. cbn [mbind option_bind]. rewrite skip_start by done. cbn [Ascii.eqb Bool.eqb]. rewrite parse_value_sp, Hr by (done || lia). done.
Qed.

Lemma members_reads_cons sp k s j s' ms : sp = "" \/ sp = " " -> reads s j -> reads_members s' ms ->
  reads_members (print_str k ++ String ":" (sp ++ s ++ String "," (sp ++ s'))) ((k, j) :: ms).
Proof.
  intros Hsp [Hs Hr] [_ Hm]. split; [by eexists|]. intros [|f] rest Hf; [lia|]. rewrite slength_app in Hf. cbn [String.length] in Hf.
  rewrite slength_app, slength_app in Hf. cbn [String.length] in Hf. rewrite slength_app in Hf.
  unfold print_str in *. sapp_norm. cbn [parse_members]. rewrite skip_start by done. change (Ascii.eqb DQ DQ) with true. cbn match.
  rewrite read_escaped. cbn [mbind option_bind]. rewrite skip_start by done. cbn [Ascii.eqb Bool.eqb]. rewrite parse_value_sp, Hr by (done || lia).
  cbn [mbind option_bind]. rewrite skip_start by done. cbn [Ascii.eqb Bool.eqb]. rewrite parse_members_sp, Hm by (done || lia). done.
Qed.

Lemma reads_arr s l : reads_elems s l -> reads (String "[" (s ++ "]")) (JArr l).
Proof.
  intros [(c & s' & Hc & Hw & Hb) He]. split; [by eexists _, _|]. intros [|f] rest Hf _; [cbn in Hf; lia|].
  cbn [String.length] in Hf. rewrite slength_app in Hf. cbn [String.length] in Hf. specialize (He f rest ltac:(lia)).
  sapp_norm. rewrite Hc in *. rewrite sapp_cons in *. cbn [parse_value]. rewrite skip_start by done. cbn [Ascii.eqb Bool.eqb].
  change (Ascii.eqb "[" DQ) with false. cbn match. rewrite skip_start, Hb, He by done. done.
Qed.

Lemma reads_obj s ms : reads_members s ms -> reads (String "{" (s ++ "}")) (JObj (add_members ms)).
Proof.
  intros [(s' & Hc) He]. split; [by eexists _, _|]. intros [|f] rest Hf _; [cbn in Hf; lia|].
  cbn [String.length] in Hf. rewrite slength_app in Hf. cbn [String.length] in Hf. specialize (He f rest ltac:(lia)).
  sapp_norm. rewrite Hc in *. rewrite sapp_cons in *. cbn [parse_value]. rewrite skip_start by done.
  change (Ascii.eqb "{" DQ) with false. change (Ascii.eqb "{" "[") with false. change (Ascii.eqb "{" "{") with true. cbn match.
  rewrite skip_start by done. change (Ascii.eqb DQ "}") with false. cbn match. by rewrite He.
Qed.

(** *** Objects without repeated keys *)

Fixpoint wf (j : jtree) : bool :=
  match j with
  | JArr l => forallb wf l
  | JObj l => bool_decide (NoDup l.*1) && forallb (fun kv => wf kv.2) l
  | _ => true
  end.

Lemma assoc_set_new l k v : k ∉ l.*1 -> assoc_set l k v = (l ++ [(k, v)])%list.
Proof.
  induction l as [|[k' v'] l IH]; [done|]. cbn [assoc_set fmap list_fmap fst]. intros [Hne Hk]%not_elem_of_cons.
  rewrite bool_decide_false by done. by rewrite IH.
Qed.

Lemma add_members_nodup ms : NoDup ms.*1 -> add_members ms = ms.
Proof.
  unfold add_members. change ms with ([] ++ ms)%list at 1 3. generalize (@nil (string * jtree)) as l.
  induction ms as [|[k v] ms IH]; intros l Hnd; cbn [foldl]; [by rewrite app_nil_r|].
  rewrite assoc_set_new; [rewrite IH; by rewrite <- app_assoc|]. rewrite fmap_app in Hnd. cbn in Hnd.
  apply NoDup_app in Hnd as (_ & Hd & _). intros Hk. apply (Hd k Hk). set_solver.
Qed.

Lemma assoc_set_keys l k v k' : k' ∈ (assoc_set l k v).*1 -> k' = k \/ k' ∈ l.*1.
Proof. induction l as [|[k1 v1] l IH]; cbn [assoc_set]; [set_solver|]. case_bool_decide; cbn [fmap list_fmap fst]; set_solver. Qed.

Lemma assoc_set_wf l k v : wf (JObj l) = true -> wf v = true -> wf (JObj (assoc_set l k v)) = true.
Proof.
  intros Hl Hv. cbn [wf] in *. apply andb_true_iff in Hl as [Hn%bool_decide_eq_true Hf]. apply andb_true_iff. split.
  - apply bool_decide_eq_true. revert Hn. clear. induction l as [|[k1 v1] l IH]; cbn [assoc_set fmap list_fmap fst]; [intros _; apply NoDup_singleton|].
    intros [Hk Hnd]%NoDup_cons. case_bool_decide as E; cbn [fmap list_fmap fst]; [subst k1; by apply NoDup_cons|]. apply NoDup_cons. split; [|by apply IH].
    intros [->|Hin]%assoc_set_keys; done.
  - revert Hf. clear -Hv. induction l as [|[k1 v1] l IH]; cbn [assoc_set forallb snd]; [by rewrite Hv|]. intros [H1 H2]%andb_true_iff.
    case_bool_decide; cbn [forallb snd]; [by rewrite Hv, H2|]. by rewrite H1, IH.
Qed.

Lemma elems_reads sp l : sp = "" \/ sp = " " -> l <> [] -> Forall (fun j => reads (print sp j) j) l -> reads_elems (sep_join sp (map (print sp) l)) l.
Proof.
  intros Hsp Hl Hall. induction Hall as [|j l Hj Hall IH]; [done|]. destruct l as [|j' l]; [by apply elems_reads_one|].
  cbn [map sep_join]. apply elems_reads_cons; [done|done|]. by apply IH.
Qed.

Definition print_member (sp : string) (kv : string * jtree) : string := print_str kv.1 ++ String ":" (sp ++ print sp kv.2).

Lemma members_reads sp l : sp = "" \/ sp = " " -> l <> [] -> Forall (fun kv => reads (print sp kv.2) kv.2) l ->
  reads_members (sep_join sp (map (print_member sp) l)) l.
Proof.
  intros Hsp Hl Hall. induction Hall as [|[k j] l Hj Hall IH]; [done|]. destruct l as [|kv' l]; [by apply members_reads_one|].
  cbn [map sep_join]. unfold print_member at 1. cbn [fst snd]. sapp_norm. apply members_reads_cons; [done|done|]. by apply IH.
Qed.

Lemma print_reads sp : sp = "" \/ sp = " " -> forall j, wf j = true -> reads (print sp j) j.
Proof.
  intros Hsp. fix IH 1. intros [|s|z|l|l] Hwf.
  - apply reads_null.
  - apply reads_str.
  - apply reads_int.
  - cbn [wf] in Hwf. assert (Hall : Forall (fun j => reads (print sp j) j) l).
    { induction l as [|j l IHl]; [constructor|]. cbn [forallb] in Hwf. apply andb_true_iff in Hwf as [H1 H2]. constructor; [by apply IH|by apply IHl]. }
    destruct l as [|j l]; [|by apply reads_arr, elems_reads]. split; [by eexists _, _|]. intros [|f] rest Hf _; [cbn in Hf; lia|]. reflexivity.
  - cbn [wf] in Hwf. apply andb_true_iff in Hwf as [Hn%bool_decide_eq_true Hwf]. assert (Hall : Forall (fun kv => reads (print sp kv.2) kv.2) l).
    { clear Hn. induction l as [|[k j] l IHl]; [constructor|]. cbn [forallb snd] in Hwf. apply andb_true_iff in Hwf as [H1 H2]. constructor; [by apply IH|by apply IHl]. }
    destruct l as [|kv l]; [|rewrite <- (add_members_nodup (kv :: l)) at 2 by done; by apply reads_obj, members_reads].
    split; [by eexists _, _|]. intros [|f] rest Hf _; [cbn in Hf; lia|]. reflexivity.
Qed.

Lemma built_wf n (j : jtree) : built (T := json_lib) (J := tree_jansson) n j -> wf j = true.
Proof.
  induction 1 as [n s j Hs|n z Hz|n js _ IH|n|n o k v _ IHo Ho _ _ IHv].
  - by injection Hs as <-.
  - done.
  - cbn. apply forallb_forall. intros j Hj. apply IH. by apply list_elem_of_In.
  - done.
  - destruct o; try done. by apply assoc_set_wf.
Qed.

Lemma tree_fields ms : NoDup ms.*1 -> json_fields (J := tree_jansson) ms = JObj ms.
Proof.
  intros Hnd. rewrite <- (add_members_nodup ms) at 2 by done. unfold json_fields, add_members. cbn [json_object tree_jansson].
  generalize (@nil (string * jtree)) as l. clear. induction ms as [|kv ms IH]; intros l; [done|]. cbn [foldl]. apply IH.
Qed.

Lemma text_reads_all :
  (forall n s j, json_text (T := json_lib) n s j -> reads s j) /\
  (forall n s js, json_elems (T := json_lib) n s js -> reads_elems s js) /\
  (forall n s ms, json_members (T := json_lib) n s ms -> reads_members s ms).
Proof.
  apply json_text_ind3.
  - intros n j Hb _. apply print_reads; [by right|]. by apply (built_wf n).
  - intros n s j Hs [= <-]. rewrite quoted_print by done. apply reads_str.
  - intros n s js _ IH. by apply reads_arr.
  - intros n s ms _ IH Hnd. rewrite tree_fields, <- (add_members_nodup ms) by done. by apply reads_obj.
  - intros n s j _ IH. by apply elems_reads_one.
  - intros n s j s' js _ IH _ IHs. apply (elems_reads_cons ""); [by left|done|done].
  - intros n k s j Hk _ IH. rewrite quoted_print by done. apply (members_reads_one ""); [by left|done].
  - intros n k s j s' ms Hk _ IH _ IHs. rewrite quoted_print by done. apply (members_reads_cons ""); [by left|done|done].
Qed.

Lemma parse_reads s j : reads s j -> is_container j = true -> parse_text s = Some j.
Proof.
  intros [_ Hr] Hc. unfold parse_text. rewrite <- (sapp_nil s) at 2. rewrite Hr by (done || lia). by rewrite Hc.
Qed.

(** ** More text does not change what was read *)

Lemma skip_app s c r t : skip_ws s = String c r -> skip_ws (s ++ t) = String c (r ++ t).
Proof.
  induction s as [|a s IH]; [done|]. rewrite sapp_cons. cbn [skip_ws]. destruct (is_ws a); [done|]. intros [= -> ->]. done.
Qed.

Lemma read_str_app t : forall n s u r, (String.length s <= n)%nat -> read_str s = Some (u, r) -> read_str (s ++ t) = Some (u, r ++ t).
Proof.
  induction n as [|n IH]; intros s u r Hn; (destruct s as [|c s]; [done|]); cbn [String.length] in Hn; [lia|].
  assert (Hgo : forall (s' : string) (f : string -> string) , (String.length s' <= n)%nat -> ('(t', r) ← read_str s'; Some (f t', r)) = Some (u, r) ->
    ('(t', r) ← read_str (s' ++ t); Some (f t', r)) = Some (u, r ++ t)).
  { intros s' f Hl. destruct (read_str s') as [[t' r']|] eqn:E; [|done]. cbn [mbind option_bind]. intros [= <- <-]. by rewrite (IH _ _ _ Hl E). }
  rewrite sapp_cons. cbn [read_str]. destruct (Ascii.eqb c DQ); [by intros [= <- <-]|]. destruct (Ascii.eqb c BS).
  - destruct s as [|e s]; [done|]. rewrite sapp_cons. cbn [String.length] in Hn. destruct (Ascii.eqb e "u").
    + destruct s as [|z1 [|z2 [|h [|l s]]]]; try done. rewrite !sapp_cons. cbn [String.length] in Hn. destruct (_ && _); [|done].
      destruct (hex_value h) as [x|]; [|done]. destruct (hex_value l) as [y|]; [|done]. cbn [mbind option_bind]. apply (Hgo s (String _)). lia.
    + destruct (_ || _); [|done]. apply (Hgo s (String e)). lia.
  - destruct (_ <? _); [done|]. apply (Hgo s (String c)). lia.
Qed.

Lemma read_uint_app t s : forall u r, read_uint s = (u, r) -> r <> "" -> read_uint (s ++ t) = (u, r ++ t).
Proof.
  induction s as [|c s IH]; intros u r; [by intros [= <- <-]|]. rewrite sapp_cons. cbn [read_uint]. destruct (digit c) as [d|]; [|by intros [= <- <-]].
  destruct (read_uint s) as [u' r'] eqn:E. intros [= <- <-] Hr. by rewrite (IH _ _ eq_refl Hr).
Qed.

Lemma read_nat_app t s u r : read_nat s = Some (u, r) -> r <> "" -> read_nat (s ++ t) = Some (u, r ++ t).
Proof. unfold read_nat. destruct (read_uint s) as [u' r'] eqn:E. intros Hu Hr. assert (u' = u /\ r' = r) as [-> ->] by (by destruct u'; simplify_eq).
  rewrite (read_uint_app t _ _ _ E Hr). by destruct u. Qed.

Lemma read_int_app t s z r : read_int s = Some (z, r) -> r <> "" -> read_int (s ++ t) = Some (z, r ++ t).
Proof.
  destruct s as [|c s]; [done|]. rewrite sapp_cons. cbn [read_int]. destruct (Ascii.eqb c "-").
  - destruct (read_nat s) as [[u r']|] eqn:E; [|done]. cbn [mbind option_bind]. intros [= <- <-] Hr. by rewrite (read_nat_app t _ _ _ E Hr).
  - destruct (read_nat (String c s)) as [[u r']|] eqn:E; [|done]. cbn [mbind option_bind]. intros [= <- <-] Hr.
    rewrite <- sapp_cons. by rewrite (read_nat_app t _ _ _ E Hr).
Qed.

Lemma read_null_app t s r : read_null s = Some r -> read_null (s ++ t) = Some (r ++ t).
Proof. destruct s as [|a [|b [|c s]]]; try done. rewrite !sapp_cons. cbn [read_null]. destruct (String.eqb _ _); [|done]. by intros [= <-]. Qed.

Definition whole (v : jtree) (r : string) : Prop := r <> "" \/ is_container v = true.

Definition extends_value (fuel : nat) : Prop := forall s v r fuel' t, parse_value fuel s = Some (v, r) -> whole v r -> (fuel <= fuel')%nat ->
  parse_value fuel' (s ++ t) = Some (v, r ++ t).
Definition extends_elems (fuel : nat) : Prop := forall s l r fuel' t, parse_elems fuel s = Some (l, r) -> (fuel <= fuel')%nat ->
  parse_elems fuel' (s ++ t) = Some (l, r ++ t).
Definition extends_members (fuel : nat) : Prop := forall s ms r fuel' t, parse_members fuel s = Some (ms, r) -> (fuel <= fuel')%nat ->
  parse_members fuel' (s ++ t) = Some (ms, r ++ t).

Lemma value_step fuel : extends_elems fuel -> extends_members fuel -> extends_value (S fuel).
Proof.
  intros He Hm s v r [|f'] t Hp Hw Hf; [lia|]. cbn [parse_value] in *. destruct (skip_ws s) as [|c s1] eqn:Hs; [done|]. rewrite (skip_app _ _ _ t Hs).
  destruct (Ascii.eqb c DQ).
  { destruct (read_str s1) as [[u r']|] eqn:Hr; [|done]. cbn [mbind option_bind] in Hp. simplify_eq.
    by rewrite (read_str_app t _ _ _ _ (Nat.le_refl _) Hr). }
  destruct (Ascii.eqb c "[").
  { destruct (skip_ws s1) as [|e s2] eqn:Hs1; [done|]. rewrite (skip_app _ _ _ t Hs1). destruct (Ascii.eqb e "]"); [by simplify_eq|].
    destruct (parse_elems fuel s1) as [[l r']|] eqn:Hl; [|done]. cbn [mbind option_bind] in Hp. simplify_eq. by rewrite (He _ _ _ f' t Hl ltac:(lia)). }
  destruct (Ascii.eqb c "{").
  { destruct (skip_ws s1) as [|e s2] eqn:Hs1; [done|]. rewrite (skip_app _ _ _ t Hs1). destruct (Ascii.eqb e "}"); [by simplify_eq|].
    destruct (parse_members fuel s1) as [[l r']|] eqn:Hl; [|done]. cbn [mbind option_bind] in Hp. simplify_eq. by rewrite (Hm _ _ _ f' t Hl ltac:(lia)). }
  destruct (Ascii.eqb c "n").
  { destruct (read_null s1) as [r'|] eqn:Hr; [|done]. cbn [mbind option_bind] in Hp. simplify_eq. by rewrite (read_null_app t _ _ Hr). }
  destruct (read_int (String c s1)) as [[z r']|] eqn:Hr; [|done]. cbn [mbind option_bind] in Hp. simplify_eq. destruct Hw as [Hw|]; [|done].
  rewrite <- sapp_cons. by rewrite (read_int_app t _ _ _ Hr Hw).
Qed.

Lemma elems_step fuel : extends_value fuel -> extends_elems fuel -> extends_elems (S fuel).
Proof.
  intros Hv He s l r [|f'] t Hp Hf; [lia|]. cbn [parse_elems] in *. destruct (parse_value fuel s) as [[v r1]|] eqn:H1; [|done]. cbn [mbind option_bind] in Hp.
  destruct (skip_ws r1) as [|c r2] eqn:Hs; [done|]. rewrite (Hv _ _ _ f' t H1) by (lia || left; by intros ->). cbn [mbind option_bind].
  rewrite (skip_app _ _ _ t Hs). destruct (Ascii.eqb c ",").
  - destruct (parse_elems fuel r2) as [[l' r']|] eqn:Hl; [|done]. cbn [mbind option_bind] in Hp. simplify_eq. by rewrite (He _ _ _ f' t Hl ltac:(lia)).
  - destruct (Ascii.eqb c "]"); [by simplify_eq|done].
Qed.

Lemma members_step fuel : extends_value fuel -> extends_members fuel -> extends_members (S fuel).
Proof.
  intros Hv Hm s ms r [|f'] t Hp Hf; [lia|]. cbn [parse_members] in *. destruct (skip_ws s) as [|q s1] eqn:Hs; [done|]. rewrite (skip_app _ _ _ t Hs).
  destruct (Ascii.eqb q DQ); [|done]. destruct (read_str s1) as [[k r1]|] eqn:Hk; [|done]. cbn [mbind option_bind] in Hp.
  rewrite (read_str_app t _ _ _ _ (Nat.le_refl _) Hk). cbn [mbind option_bind]. destruct (skip_ws r1) as [|c r2] eqn:Hs1; [done|].
  rewrite (skip_app _ _ _ t Hs1). destruct (Ascii.eqb c ":"); [|done]. destruct (parse_value fuel r2) as [[v r3]|] eqn:H1; [|done]. cbn [mbind option_bind] in Hp.
  destruct (skip_ws r3) as [|d r4] eqn:Hs3; [done|]. rewrite (Hv _ _ _ f' t H1) by (lia || left; by intros ->). cbn [mbind option_bind].
  rewrite (skip_app _ _ _ t Hs3). destruct (Ascii.eqb d ",").
  - destruct (parse_members fuel r4) as [[l' r']|] eqn:Hl; [|done]. cbn [mbind option_bind] in Hp. simplify_eq. by rewrite (Hm _ _ _ f' t Hl ltac:(lia)).
  - destruct (Ascii.eqb d "}"); [by simplify_eq|done].
Qed.

Lemma parse_extends fuel : extends_value fuel /\ extends_elems fuel /\ extends_members fuel.
Proof. induction fuel as [|fuel (Hv & He & Hm)]; [done|]. split; [by apply value_step|]. split; [by apply elems_step|by apply members_step]. Qed.

(** A text cut short is refused. *)
Lemma parse_cut s j p q : reads s j -> s = p ++ q -> q <> "" -> parse_text p = None.
Proof.
  intros [_ Hr] -> Hq. unfold parse_text. destruct (parse_value _ p) as [[v r]|] eqn:Hp; [|done]. destruct (is_container v) eqn:Hc; [|done].
  pose proof (proj1 (parse_extends _) _ _ _ (2 * String.length (p ++ q) + 2)%nat q Hp (or_intror Hc)) as He.
  rewrite slength_app in He. specialize (He ltac:(lia)). specialize (Hr (2 * (String.length p + String.length q) + 2)%nat "").
  rewrite slength_app, sapp_nil, He in Hr. specialize (Hr ltac:(lia) I). simplify_eq. destruct r; [|done]. by destruct q.
Qed.

#[global] Instance json_lib_wire : JanssonWire tree_jansson json_lib.
Proof.
  refine (@Build_JanssonWire tree_jansson json_lib (print "") _ _ _ _ _).
  - intros s _. by exists (JStr s).
  - done.
  - intros n s ms Hm Hnd _. rewrite tree_fields, <- (add_members_nodup ms) by done. apply parse_reads; [|done].
    apply (reads_obj s). by apply (proj2 (proj2 text_reads_all) n).
  - intros n s ms p q Hm Hnd _ Hs Hq. apply (parse_cut (String "{" (s ++ "}")) (JObj (add_members ms)) p q); [|done|done].
    apply reads_obj. by apply (proj2 (proj2 text_reads_all) n).
  - intros n j Hb Ho _. apply parse_reads; [|by destruct j]. apply print_reads; [by left|]. by apply (built_wf n).
Defined.
