(* ===== verification/Request.v ===== *)
(** * Requests to the database server (lib/srdb.c: ovsdb_insert, ovsdb_update,
    ovsdb_delete, send_transaction)

    A request is printed with snprintf into a block of JSON_BUFLEN bytes, read
    back with json_loads, put into a transaction and queued; the worker that
    takes it adds the id and sends its compact text.  Transport.v has the
    threads, with transactions named by numbers; here are their contents.

    jansson's reading and printing of texts is the interface [JanssonWire] of
    Jsontext.v. *)

From S2P Require Import Prelude Misc Rules Srdb Sbuf Flows Transport Routed Jsontext.
From Stdlib Require Import Ascii.

Open Scope string_scope.
Open Scope Z_scope.

(** ** Formats of requests *)

Definition OVSDB_UPDATE_FORMAT (db row table uuid : string) : string :=
  "{" ++ quoted "method" ++ ":" ++ quoted "transact" ++ "," ++ quoted "params" ++ ":[" ++ quoted db ++ ",{" ++ quoted "row" ++ ":" ++ row ++ ","
  ++ quoted "table" ++ ":" ++ quoted table ++ "," ++ quoted "op" ++ ":" ++ quoted "update" ++ ","
  ++ quoted "where" ++ ":[[" ++ quoted "_uuid" ++ "," ++ quoted "==" ++ ",[" ++ quoted "uuid" ++ "," ++ quoted uuid ++ "]]]}]}".

Definition OVSDB_INSERT_FORMAT (db row table : string) : string :=
  "{" ++ quoted "method" ++ ":" ++ quoted "transact" ++ "," ++ quoted "params" ++ ":[" ++ quoted db ++ ",{" ++ quoted "row" ++ ":" ++ row ++ ","
  ++ quoted "table" ++ ":" ++ quoted table ++ "," ++ quoted "op" ++ ":" ++ quoted "insert" ++ "}]}".

Definition OVSDB_MONITOR_FORMAT (db table modify initial insert delete : string) : string :=
  "{" ++ quoted "id" ++ ":0," ++ quoted "method" ++ ":" ++ quoted "monitor" ++ "," ++ quoted "params" ++ ":[" ++ quoted db ++ ",null,"
  ++ "{" ++ quoted table ++ ":[{" ++ quoted "select" ++ ":{" ++ quoted "modify" ++ ":" ++ modify ++ "," ++ quoted "initial" ++ ":" ++ initial ++ ","
  ++ quoted "insert" ++ ":" ++ insert ++ "," ++ quoted "delete" ++ ":" ++ delete ++ "}}]}]}".

Definition OVSDB_DELETE_FORMAT (db table uuid : string) : string :=
  "{" ++ quoted "method" ++ ":" ++ quoted "transact" ++ "," ++ quoted "params" ++ ":[" ++ quoted db ++ ",{"
  ++ quoted "table" ++ ":" ++ quoted table ++ "," ++ quoted "op" ++ ":" ++ quoted "delete" ++ ","
  ++ quoted "where" ++ ":[[" ++ quoted "_uuid" ++ "," ++ quoted "==" ++ ",[" ++ quoted "uuid" ++ "," ++ quoted uuid ++ "]]]}]}".

Definition MON_INITIAL : Z := Z.shiftl 1 0.
Definition MON_INSERT : Z := Z.shiftl 1 1.
Definition MON_UPDATE : Z := Z.shiftl 1 2.
Definition MON_DELETE : Z := Z.shiftl 1 3.
Definition BOOL_TO_STR (z : Z) : string := if negb (z =? 0) then "true" else "false".

(** The bytes that a monitor hands to send(): snprintf returns the length of
    the whole text, which send() is given as the length of the block; [None]
    when the block is shorter. *)
Definition monitor_request (db table : string) (mon_flags : Z) : option string :=
  let text := OVSDB_MONITOR_FORMAT db table (BOOL_TO_STR (Z.land mon_flags MON_UPDATE)) (BOOL_TO_STR (Z.land mon_flags MON_INITIAL))
    (BOOL_TO_STR (Z.land mon_flags MON_INSERT)) (BOOL_TO_STR (Z.land mon_flags MON_DELETE)) in
  if (String.length text <? JSON_BUFLEN)%nat then Some text else None.

(** ** Transactions *)

(** The state of the library that requests change: the database of the
    configuration, the buffer of the transactions, which is any [Buffer] of
    Sbuf.v, and the workers' event counters. *)
Record srdb {Q : Type} := Db { db_name : string; db_transactions : Q; db_events : list Z }.
Arguments srdb : clear implicits.
Arguments Db {Q}.

Section requests.
Context {J : Jansson} {T : JanssonText J}.

Record transaction := Tr { tr_json : json; tr_result : sbuf json }.

Context {Q : Type} {B : Buffer Q transaction}.

(** Which of the allocations succeed: struct srdb_update_transact, the block
    of the text, the text of the row, struct transaction, its buffer. *)
Record mem := Mem { m_utr : bool; m_buf : bool; m_dump : bool; m_tr : bool; m_sbuf : bool }.

Definition create_transaction (m : mem) (j : json) : option transaction :=
  if m_tr m then if m_sbuf m then Some (Tr j (sbuf_new 1)) else None else None.

Definition wakeup_tr_workers (s : srdb Q) : srdb Q := Db (db_name s) (db_transactions s) (map Z.succ (db_events s)).

(** sbuf_push; [None]: it waits for room. *)
Definition push_transaction (s : srdb Q) (tr : transaction) : option (srdb Q) := q ← b_push (db_transactions s) tr; Some (Db (db_name s) q (db_events s)).

(** From snprintf to the return; [None]: the call waits. *)
Definition submit (m : mem) (s : srdb Q) (text : string) : option (option transaction * srdb Q) :=
  let json_buf := stake (JSON_BUFLEN - 1) text in
  match json_loads json_buf with
  | None => Some (None, s)
  | Some j =>
      match create_transaction m j with
      | None => Some (None, s)
      | Some tr => s ← push_transaction s tr; Some (Some tr, wakeup_tr_workers s)
      end
  end.

Definition ovsdb_delete (m : mem) (s : srdb Q) (table uuid : string) : option (option transaction * srdb Q) :=
  if m_buf m then submit m s (OVSDB_DELETE_FORMAT (db_name s) table uuid) else Some (None, s).

Definition ovsdb_update (m : mem) (s : srdb Q) (table uuid : string) (fields : json) : option (option transaction * srdb Q) :=
  if m_buf m then if m_dump m then submit m s (OVSDB_UPDATE_FORMAT (db_name s) (json_dumps fields) table uuid) else Some (None, s) else Some (None, s).

Definition ovsdb_insert (m : mem) (s : srdb Q) (table : string) (fields : json) : option (option transaction * srdb Q) :=
  if m_buf m then if m_dump m then submit m s (OVSDB_INSERT_FORMAT (db_name s) (json_dumps fields) table) else Some (None, s) else Some (None, s).

(** The transaction of an operation of the controller or the proxy. *)
Definition ovsdb_commit (m : mem) (s : srdb Q) (op : dbop) : option (option transaction * srdb Q) :=
  match op with
  | DbUpdate table uuid fields => ovsdb_update m s table uuid fields
  | DbInsert table row => ovsdb_insert m s table row
  end.

Definition srdb_delete (m : mem) (s : srdb Q) (tbl : srdb_table) (e : entry) : option (option transaction * srdb Q) :=
  match e !! offsetof srdb_entry "row" with
  | Some (CBuf _ row) => ovsdb_delete m s (t_name tbl) row
  | _ => None
  end.

Definition srdb_update (m : mem) (s : srdb Q) (tbl : srdb_table) (e : entry) (index : Z) : option (option transaction * srdb Q) :=
  if negb (m_utr m) then Some (None, s) else op ← Flows.srdb_update tbl e index; ovsdb_commit m s op.

Definition srdb_insert (m : mem) (s : srdb Q) (tbl : srdb_table) (e : entry) : option (option transaction * srdb Q) :=
  op ← Flows.srdb_insert tbl e; ovsdb_commit m s op.




Context {W : JanssonWire J T}.

(** [alloc] and [dumped]: whether malloc and json_dumpb succeed; [sent]: what
    send() returns.  The answer is the return value, the transaction's json
    afterwards and the bytes send() is given; [None]: strcmp of NULL, or send()
    reads behind the block, since json_dumpb answers the length of the whole
    text also when the block is too short for it. *)
Definition send_transaction (alloc dumped : bool) (sent : Z) (j : json) (id : Z) : option (Z * json * option string) :=
  match json_object_get j "method" with
  | None => Some (-1, j, None)
  | Some method =>
      name ← json_string_value method;
      if negb (streq name "transact") then Some (-1, j, None)
      else if negb alloc then Some (-1, j, None)
      else
        let j := json_object_set j "id" (json_integer id) in
        if negb dumped then Some (-1, j, None)
        else
          let text := json_compact j in
          let len := String.length text in
          if (JSON_BUFLEN <? len)%nat then None
          else if sent <? 0 then Some (-1, j, Some text)
          else if negb (sent =? Z.of_nat len) then Some (-1, j, Some text)
          else Some (0, j, Some text)
  end.

End requests.

(** ** What a request asks *)

Section asks.
Context {J : Jansson} {T : JanssonText J} {Q : Type} {B : Buffer Q transaction}.

Inductive request := RInsert (table : string) (row : json) | RUpdate (table uuid : string) (row : json) | RDelete (table uuid : string).

Definition request_of (op : dbop) : request :=
  match op with DbInsert table row => RInsert table row | DbUpdate table uuid row => RUpdate table uuid row end.

(** The call for a request, and the text it prints. *)
Definition call_request (m : mem) (s : srdb Q) (r : request) : option (option transaction * srdb Q) :=
  match r with
  | RInsert table row => ovsdb_insert m s table row
  | RUpdate table uuid row => ovsdb_update m s table uuid row
  | RDelete table uuid => ovsdb_delete m s table uuid
  end.

Definition request_text (db : string) (r : request) : string :=
  match r with
  | RInsert table row => OVSDB_INSERT_FORMAT db (json_dumps row) table
  | RUpdate table uuid row => OVSDB_UPDATE_FORMAT db (json_dumps row) table uuid
  | RDelete table uuid => OVSDB_DELETE_FORMAT db table uuid
  end.

(** How the server reads a request: the transact method of RFC 7047 with one
    operation, whose condition names a row. *)
Definition where_uuid (op : json) : option string :=
  let cond := arr_get (json_object_get op "where") 0 in
  column ← str_value (arr_get cond 0); test ← str_value (arr_get cond 1);
  let value := arr_get cond 2 in
  kind ← str_value (arr_get value 0); uuid ← str_value (arr_get value 1);
  if bool_decide (column = "_uuid") && bool_decide (test = "==") && bool_decide (kind = "uuid") then Some uuid else None.

Definition server_operation (op : json) : option request :=
  table ← str_value (json_object_get op "table");
  kind ← str_value (json_object_get op "op");
  if bool_decide (kind = "insert") then row ← json_object_get op "row"; Some (RInsert table row)
  else if bool_decide (kind = "update") then row ← json_object_get op "row"; uuid ← where_uuid op; Some (RUpdate table uuid row)
  else if bool_decide (kind = "delete") then uuid ← where_uuid op; Some (RDelete table uuid)
  else None.

Definition server_request (j : json) : option (Z * string * request) :=
  id ← int_value (json_object_get j "id");
  method ← str_value (json_object_get j "method");
  if negb (bool_decide (method = "transact")) then None
  else
    let params := json_object_get j "params" in
    db ← str_value (arr_get params 0);
    op ← arr_get params 1;
    r ← server_operation op;
    Some (id, db, r).

(** Names go into the formats as they are, so they must be plain. *)
Definition names_ok (r : request) : bool :=
  match r with
  | RInsert table _ => plain table
  | RUpdate table uuid _ => plain table && plain uuid
  | RDelete table uuid => plain table && plain uuid
  end.
Definition row_of (r : request) : option json := match r with RInsert _ row | RUpdate _ _ row => Some row | RDelete _ _ => None end.
Definition row_ok (r : request) : Prop := forall row, row_of r = Some row -> built 1 row /\ json_is_object row = true.

Lemma built_mono n j : built n j -> forall k, (n <= k)%nat -> built k j.
Proof.
  induction 1 as [n s j Hs|n z Hz|n js _ IH|n|n o k v _ IHo Ho Hk _ IHv]; intros m Hm.
  - by apply (built_str _ s).
  - by apply built_int.
  - destruct m as [|m]; [lia|]. apply built_arr. intros j Hj. apply IH; [done|lia].
  - destruct m as [|m]; [lia|]. apply built_obj.
  - destruct m as [|m]; [lia|]. apply built_set; [apply IHo; lia|done|done|apply IHv; lia].
Qed.

Context {W : JanssonWire J T} `{!JanssonLaws J}.

Lemma fields_built n ms : Forall (fun kv => plain kv.1 = true /\ built n kv.2) ms -> built (S n) (json_fields ms) /\ json_is_object (json_fields ms) = true.
Proof.
  unfold json_fields. assert (Ho : built (S n) json_object /\ json_is_object json_object = true) by (split; [apply built_obj|apply jl_object]).
  revert Ho. generalize json_object as o. induction ms as [|[k v] ms IH]; intros o [Hb Ho] Hall; [done|]. cbn [foldl].
  apply Forall_cons in Hall as [[Hk Hv] Hall]. apply IH; [|done]. split; [|by apply jl_set_object].
  apply built_set; [done|done|by apply jw_plain|done].
Qed.

Lemma text_built_all :
  (forall n s j, json_text n s j -> built n j) /\
  (forall n s js, json_elems n s js -> forall j, j ∈ js -> built n j) /\
  (forall n s ms, json_members n s ms -> Forall (fun kv => plain kv.1 = true /\ built n kv.2) ms).
Proof.
  apply json_text_ind3.
  - done.
  - intros n s j _ Hj. by apply (built_str _ s).
  - intros n s js _ IH. by apply built_arr.
  - intros n s ms _ IH _. by apply fields_built.
  - intros n s j _ IH j' ->%list_elem_of_singleton. done.
  - intros n s j s' js _ IH _ IHs j' [->|Hj]%elem_of_cons; [done|by apply IHs].
  - intros n k s j Hk _ IH. by repeat constructor.
  - intros n k s j s' ms Hk _ IH _ IHs. by constructor.
Qed.

(** *** The formats are texts of the grammar *)

Definition jstr (s : string) : json := default json_object (json_string s).

Lemma jstr_ok s : plain s = true -> json_string s = Some (jstr s).
Proof. intros [j Hj]%jw_plain. unfold jstr. by rewrite Hj. Qed.

Lemma jstr_value s : plain s = true -> json_string_value (jstr s) = Some s.
Proof. intros Hs. by apply jl_string, jstr_ok. Qed.

Lemma jstr_text n s : plain s = true -> json_text n (quoted s) (jstr s).
Proof. intros Hs. by apply text_str; [|apply jstr_ok]. Qed.

Lemma is_object_fields ms o : json_is_object o = true -> json_is_object (foldl (fun o kv => json_object_set o kv.1 kv.2) o ms) = true.
Proof. revert o. induction ms as [|kv ms IH]; intros o Ho; [done|]. cbn [foldl]. by apply IH, jl_set_object. Qed.

Lemma get_fields_other ms k : forall o, json_is_object o = true -> k ∉ ms.*1 ->
  json_object_get (foldl (fun o kv => json_object_set o kv.1 kv.2) o ms) k = json_object_get o k.
Proof.
  induction ms as [|[k' v] ms IH]; intros o Ho Hk; [done|]. cbn [foldl fst snd fmap list_fmap] in *. apply not_elem_of_cons in Hk as [Hne Hk].
  rewrite IH by (done || by apply jl_set_object). by apply jl_get_set_ne.
Qed.

Lemma get_fields ms k v : NoDup ms.*1 -> (k, v) ∈ ms -> json_object_get (json_fields ms) k = Some v.
Proof.
  unfold json_fields. generalize jl_object. generalize json_object as o.
  induction ms as [|[k' v'] ms IH]; intros o Ho Hnd Hin; [by apply elem_of_nil in Hin|]. cbn [foldl fst snd fmap list_fmap] in *.
  apply NoDup_cons in Hnd as [Hk Hnd]. apply elem_of_cons in Hin as [[= -> ->]|Hin].
  - rewrite get_fields_other by (done || by apply jl_set_object). by apply jl_get_set.
  - apply IH; [by apply jl_set_object|done|done].
Qed.

Definition where_json (uuid : string) : json := json_array [json_array [jstr "_uuid"; jstr "=="; json_array [jstr "uuid"; jstr uuid]]].
Definition where_text (uuid : string) : string :=
  "[" ++ ("[" ++ (quoted "_uuid" ++ "," ++ quoted "==" ++ "," ++ ("[" ++ (quoted "uuid" ++ "," ++ quoted uuid) ++ "]")) ++ "]") ++ "]".

Lemma where_text_ok uuid : plain uuid = true -> json_text 3 (where_text uuid) (where_json uuid).
Proof.
  intros Hu. unfold where_text, where_json. apply text_arr, elems_one, text_arr. apply elems_cons; [by apply jstr_text|].
  apply elems_cons; [by apply jstr_text|]. apply elems_one, text_arr. apply elems_cons; [by apply jstr_text|by apply elems_one, jstr_text].
Qed.

(** The members of the operation. *)
Definition op_members (r : request) : list (string * json) :=
  match r with
  | RInsert table row => [("row", row); ("table", jstr table); ("op", jstr "insert")]
  | RUpdate table uuid row => [("row", row); ("table", jstr table); ("op", jstr "update"); ("where", where_json uuid)]
  | RDelete table uuid => [("table", jstr table); ("op", jstr "delete"); ("where", where_json uuid)]
  end.

Definition member (k s : string) : string := quoted k ++ ":" ++ s.

Definition op_text (r : request) : string :=
  match r with
  | RInsert table row => member "row" (json_dumps row ++ "," ++ member "table" (quoted table ++ "," ++ member "op" (quoted "insert")))
  | RUpdate table uuid row =>
      member "row" (json_dumps row ++ "," ++ member "table" (quoted table ++ "," ++ member "op" (quoted "update" ++ "," ++ member "where" (where_text uuid))))
  | RDelete table uuid => member "table" (quoted table ++ "," ++ member "op" (quoted "delete" ++ "," ++ member "where" (where_text uuid)))
  end.

Lemma op_members_nodup r : NoDup (op_members r).*1.
Proof. destruct r; cbn [op_members fmap list_fmap fst]; apply (bool_decide_unpack _); vm_compute; exact I. Qed.

Lemma op_text_ok r : names_ok r = true -> row_ok r -> json_members 3 (op_text r) (op_members r).
Proof.
  intros Hn Hr. assert (Hrow : forall row, row_of r = Some row -> json_text 3 (json_dumps row) row).
  { intros row H. destruct (Hr _ H) as [Hb Ho]. apply text_dumps; [|done]. by apply (built_mono 1); [|lia]. }
  destruct r as [table row|table uuid row|table uuid]; cbn [names_ok row_of] in *; bool_prop; unfold op_text, op_members, member;
    repeat (first [apply members_cons; [reflexivity|first [by apply Hrow|by apply jstr_text]|]|apply members_one; [reflexivity|]]);
    first [by apply jstr_text|by apply where_text_ok].
Qed.

(** The members of the whole request. *)
Definition top_members (db : string) (r : request) : list (string * json) :=
  [("method", jstr "transact"); ("params", json_array [jstr db; json_fields (op_members r)])].
Definition top_text (db : string) (r : request) : string :=
  member "method" (quoted "transact" ++ "," ++ member "params" ("[" ++ (quoted db ++ "," ++ ("{" ++ op_text r ++ "}")) ++ "]")).

Lemma top_members_nodup db r : NoDup (top_members db r).*1.
Proof. cbn [top_members fmap list_fmap fst]. apply (bool_decide_unpack _). vm_compute. exact I. Qed.

Lemma top_text_ok db r : plain db = true -> names_ok r = true -> row_ok r -> json_members 5 (top_text db r) (top_members db r).
Proof.
  intros Hd Hn Hr. unfold top_text, top_members, member. apply members_cons; [done|by apply jstr_text|]. apply members_one; [done|].
  apply text_arr, elems_cons; [by apply jstr_text|]. apply elems_one, text_obj; [by apply op_text_ok|apply op_members_nodup].
Qed.

Lemma request_text_members db r : request_text db r = "{" ++ top_text db r ++ "}".
Proof.
  destruct r; cbn [request_text]; unfold OVSDB_INSERT_FORMAT, OVSDB_UPDATE_FORMAT, OVSDB_DELETE_FORMAT, top_text, op_text, where_text, member, quoted;
    sapp_norm; reflexivity.
Qed.

Definition mem_ok (m : mem) (r : request) : bool :=
  m_buf m && (match row_of r with Some _ => m_dump m | None => true end) && m_tr m && m_sbuf m.

(** ... and the allocation of [srdb_update_prepare]. *)
Definition api_mem_ok (m : mem) (r : request) : bool := match r with RUpdate _ _ _ => m_utr m | _ => true end && mem_ok m r.

Definition fits (db : string) (r : request) : bool := (String.length (request_text db r) <? JSON_BUFLEN)%nat.

Definition request_json (db : string) (r : request) : json := json_fields (top_members db r).

Lemma stake_split n s : (n < String.length s)%nat -> exists q, s = stake n s ++ q /\ q <> "".
Proof.
  revert n. induction s as [|c s IH]; intros n Hn; [cbn in Hn; lia|]. destruct n as [|n]; [by exists (String c s)|].
  cbn [String.length] in Hn. destruct (IH n) as (q & Hq & Hne); [lia|]. exists q. split; [|done]. cbn [stake]. rewrite sapp_cons. congruence.
Qed.

Lemma loads_request db r : plain db = true -> names_ok r = true -> row_ok r ->
  json_loads (stake (JSON_BUFLEN - 1) (request_text db r)) = if fits db r then Some (request_json db r) else None.
Proof.
  intros Hd Hn Hr. pose proof (top_text_ok db r Hd Hn Hr) as Ht. pose proof (top_members_nodup db r) as Hnd.
  assert (H5 : (5 < MAX_DEPTH)%nat) by (apply Nat.ltb_lt; vm_compute; reflexivity). unfold fits.
  destruct (Nat.ltb_spec (String.length (request_text db r)) JSON_BUFLEN) as [Hl|Hl].
  - rewrite stake_all by lia. rewrite request_text_members. by apply (jw_loads 5).
  - assert (0 < JSON_BUFLEN)%nat by (unfold JSON_BUFLEN; lia).
    destruct (stake_split (JSON_BUFLEN - 1) (request_text db r)) as (q & Hq & Hne); [lia|].
    apply (jw_cut 5 _ _ _ q Ht Hnd H5); [|done]. by rewrite <- request_text_members.
Qed.

(** Every branch of the three calls. *)
Lemma call_request_spec m s r : plain (db_name s) = true -> names_ok r = true -> row_ok r ->
  call_request m s r =
    if fits (db_name s) r && mem_ok m r then
      let tr := Tr (request_json (db_name s) r) (sbuf_new 1) in q ← b_push (db_transactions s) tr; Some (Some tr, Db (db_name s) q (map Z.succ (db_events s)))
    else Some (None, s).
Proof.
  intros Hd Hn Hr. pose proof (loads_request _ r Hd Hn Hr) as Hl.
  assert (Hs : submit m s (request_text (db_name s) r) = if fits (db_name s) r && (m_tr m && m_sbuf m) then
      let tr := Tr (request_json (db_name s) r) (sbuf_new 1) in q ← b_push (db_transactions s) tr; Some (Some tr, Db (db_name s) q (map Z.succ (db_events s))) else Some (None, s)).
  { unfold submit. rewrite Hl. destruct (fits _ _); [|done]. unfold create_transaction. destruct (m_tr m), (m_sbuf m); [|done..]. cbn [andb]. unfold push_transaction. by destruct (b_push _ _). }
  unfold mem_ok. destruct r; cbn [call_request row_of] in *; unfold ovsdb_insert, ovsdb_update, ovsdb_delete;
    destruct (m_buf m); [destruct (m_dump m)| |destruct (m_dump m)| | |]; cbn [andb]; rewrite ?andb_false_r; done || exact Hs.
Qed.

Lemma where_uuid_read o uuid : json_object_get o "where" = Some (where_json uuid) -> plain uuid = true -> where_uuid o = Some uuid.
Proof.
  intros Ho Hu. unfold where_uuid. rewrite Ho. unfold where_json, arr_get, str_value. cbn [mbind option_bind].
  repeat (rewrite jw_array_get; cbn [lookup list_lookup mbind option_bind]). rewrite !jstr_value by done. cbn [mbind option_bind].
  by rewrite !bool_decide_true.
Qed.

Lemma operation_read r : names_ok r = true -> server_operation (json_fields (op_members r)) = Some r.
Proof.
  intros Hn. pose proof (op_members_nodup r) as Hnd.
  assert (Hget : forall k v, (k, v) ∈ op_members r -> json_object_get (json_fields (op_members r)) k = Some v) by (intros; by apply get_fields).
  unfold server_operation, str_value. destruct r as [table row|table uuid row|table uuid]; cbn [names_ok] in Hn; bool_prop.
  - rewrite (Hget "table" (jstr table)), (Hget "op" (jstr "insert")), (Hget "row" row) by set_solver. cbn [mbind option_bind].
    rewrite !jstr_value by done. done.
  - rewrite (Hget "table" (jstr table)), (Hget "op" (jstr "update")), (Hget "row" row) by set_solver. cbn [mbind option_bind].
    rewrite !jstr_value by done. cbn [mbind option_bind]. rewrite bool_decide_false, bool_decide_true by done.
    rewrite (where_uuid_read _ uuid); [done|apply Hget; set_solver|done].
  - rewrite (Hget "table" (jstr table)), (Hget "op" (jstr "delete")) by set_solver. cbn [mbind option_bind].
    rewrite !jstr_value by done. cbn [mbind option_bind]. rewrite !bool_decide_false, bool_decide_true by done.
    rewrite (where_uuid_read _ uuid); [done|apply Hget; set_solver|done].
Qed.

Definition with_id (j : json) (id : Z) : json := json_object_set j "id" (json_integer id).

Lemma request_read db r id : plain db = true -> names_ok r = true -> 0 <= id < 2 ^ 32 ->
  server_request (with_id (request_json db r) id) = Some (id, db, r).
Proof.
  intros Hd Hn Hid. pose proof (top_members_nodup db r) as Hnd. assert (Ho : json_is_object (request_json db r) = true) by apply is_object_fields, jl_object.
  unfold server_request, with_id, str_value, int_value. rewrite jl_get_set by done. rewrite !jl_get_set_ne by done. unfold request_json.
  rewrite (get_fields _ "method" (jstr "transact")), (get_fields _ "params" (json_array [jstr db; json_fields (op_members r)])) by (done || set_solver).
  cbn [mbind option_bind arr_get]. rewrite jl_integer by lia. cbn [mbind option_bind]. rewrite jstr_value by done. cbn [mbind option_bind].
  rewrite !jw_array_get. cbn [lookup list_lookup mbind option_bind]. rewrite jstr_value by done. cbn [mbind option_bind].
  by rewrite operation_read.
Qed.

Lemma request_built db r id : plain db = true -> names_ok r = true -> row_ok r -> 0 <= id < 2 ^ 32 ->
  built 6 (with_id (request_json db r) id) /\ json_is_object (with_id (request_json db r) id) = true.
Proof.
  intros Hd Hn Hr Hid. destruct (fields_built 5 (top_members db r)) as [Hb Ho].
  { by apply (proj2 (proj2 text_built_all) _ _ _ (top_text_ok db r Hd Hn Hr)). }
  split; [|by apply jl_set_object]. apply built_set; [done|done|by apply jw_plain|apply built_int; lia].
Qed.

(** The worker's part, for a text that the block can hold. *)
Lemma send_request db r id sent : plain db = true -> names_ok r = true ->
  let j := with_id (request_json db r) id in let text := json_compact j in
  send_transaction true true sent (request_json db r) id =
    if (JSON_BUFLEN <? String.length text)%nat then None else Some (if sent =? Z.of_nat (String.length text) then 0 else -1, j, Some text).
Proof.
  intros Hd Hn j text. unfold send_transaction. unfold request_json at 1.
  rewrite (get_fields _ "method" (jstr "transact")) by (apply top_members_nodup || set_solver). rewrite jstr_value by done. cbn [mbind option_bind].
  replace (streq "transact" "transact") with true by (vm_compute; reflexivity). cbn [negb]. fold (with_id (request_json db r) id). fold j. fold text.
  destruct (_ <? _)%nat; [done|]. destruct (Z.ltb_spec sent 0), (Z.eqb_spec sent (Z.of_nat (String.length text))); try done; lia.
Qed.

(** *** Requests made from entries of the tables *)

(** [srdb_insert], [srdb_update] of one field, [srdb_delete]. *)
Inductive api := AInsert | AUpdate (index : Z) | ADelete.

Definition entry_row (e : entry) : option string := match e !! offsetof srdb_entry "row" with Some (CBuf _ row) => Some row | _ => None end.

Definition api_request (tbl : srdb_table) (e : entry) (a : api) : option request :=
  match a with
  | AInsert => op ← Flows.srdb_insert tbl e; Some (request_of op)
  | AUpdate index => op ← Flows.srdb_update tbl e index; Some (request_of op)
  | ADelete => uuid ← entry_row e; Some (RDelete (t_name tbl) uuid)
  end.

(** Integers of an entry are ints; the uuid of its row is plain. *)
Definition entry_sendable (a : api) (e : entry) : Prop :=
  (forall o z, e !! o = Some (CInt z) -> - 2 ^ 31 <= z < 2 ^ 31) /\ (a <> AInsert -> forall uuid, entry_row e = Some uuid -> plain uuid = true).

Definition row_built (row : json) : Prop := built 1 row /\ json_is_object row = true.

Lemma set_new_built row k v : row_built row -> plain k = true -> (forall j, v = Some j -> built 0 j) -> row_built (set_new row k v).
Proof.
  intros [Hb Ho] Hk Hv. destruct v as [j|]; [|done]. cbn [set_new]. split; [|by apply jl_set_object].
  apply built_set; [done|done|by apply jw_plain|by apply Hv].
Qed.

Lemma write_built row d e row' a : entry_sendable a e -> plain (d_name d) = true -> row_built row -> write_desc_data row d e = Some row' -> row_built row'.
Proof.
  intros [Hi _] Hn Hb. unfold write_desc_data.
  destruct (d_type d), (e !! d_offset d) as [[cap s|z|p]|] eqn:He; try done; intros H%(inj Some); subst row'; apply set_new_built; try done.
  - intros j Hj. by apply (built_str _ s).
  - intros j [= <-]. apply built_int. apply Hi in He. lia.
  - intros j Hj. destruct p as [s|]; [|done]. by apply (built_str _ s).
Qed.

Lemma insert_row_built a e ds : entry_sendable a e -> Forall (fun d => plain (d_name d) = true) ds ->
  forall row row', row_built row -> insert_row_loop row ds e = Some row' -> row_built row'.
Proof.
  intros He Hds. induction Hds as [|d ds Hd _ IH]; intros row row' Hb; cbn [insert_row_loop]; [by intros [= <-]|].
  destruct (negb (d_builtin d)); [|by apply IH]. destruct (write_desc_data row d e) as [r|] eqn:Hw; [|done]. apply IH. by apply (write_built row d e _ a).
Qed.

Definition names_plain (tbl : srdb_table) : bool := plain (t_name tbl) && forallb (fun d => plain (d_name d)) (t_desc tbl).

Lemma tables_plain tbl : tbl ∈ srdb_tables -> plain (t_name tbl) = true /\ Forall (fun d => plain (d_name d) = true) (t_desc tbl).
Proof.
  intros Ht. assert (Ha : forallb names_plain srdb_tables = true) by (vm_compute; reflexivity). rewrite forallb_forall in Ha.
  specialize (Ha tbl). rewrite <- list_elem_of_In in Ha. specialize (Ha Ht). apply andb_true_iff in Ha as [Hn Hd]. split; [done|].
  rewrite forallb_forall in Hd. apply Forall_forall. intros d Hin. apply Hd. by apply list_elem_of_In.
Qed.

Lemma find_desc_in ds index d : find_desc_fromindex ds index = Some d -> d ∈ ds.
Proof. induction ds as [|d' ds IH]; cbn; [done|]. case_match; [intros [= ->]; set_solver|set_solver]. Qed.

Lemma empty_built : row_built json_object.
Proof. split; [apply built_obj|apply jl_object]. Qed.

Lemma commit_request utr :
  (op ← srdb_update_commit utr; Some (request_of op)) = (uuid ← entry_row (utr_entry utr); Some (RUpdate (t_name (utr_tbl utr)) uuid (utr_fields utr))).
Proof. unfold srdb_update_commit, entry_row. by destruct (utr_entry utr !! _) as [[]|]. Qed.

Lemma api_request_ok tbl e a r : tbl ∈ srdb_tables -> entry_sendable a e -> api_request tbl e a = Some r -> names_ok r = true /\ row_ok r.
Proof.
  intros Ht He Hr. destruct (tables_plain tbl Ht) as [Hn Hd]. unfold row_ok. destruct a as [|index|]; cbn [api_request] in Hr.
  - unfold Flows.srdb_insert in Hr. destruct (srdb_insert_row tbl e) as [row|] eqn:Hrow; [|done]. cbn [mbind option_bind] in Hr. simplify_eq.
    split; [done|]. intros row' [= <-]. by apply (insert_row_built AInsert e (t_desc tbl) He Hd json_object); [apply empty_built|].
  - unfold Flows.srdb_update, srdb_update_append in Hr. cbn [srdb_update_prepare utr_tbl utr_entry utr_fields utr_mask] in Hr.
    assert (exists row, row_built row /\ (uuid ← entry_row e; Some (RUpdate (t_name tbl) uuid row)) = Some r) as (row & Hb & Hu).
    { destruct (find_desc_fromindex _ _) as [d|] eqn:Hf.
      - destruct (write_desc_data json_object d e) as [row|] eqn:Hw; [|done]. cbn [mbind option_bind] in Hr. exists row. split.
        + apply (write_built json_object d e row (AUpdate index)); [done| |apply empty_built|done]. apply (proj1 (Forall_forall _ _) Hd). by apply find_desc_in in Hf.
        + by rewrite commit_request in Hr.
      - cbn [mbind option_bind] in Hr. exists json_object. split; [apply empty_built|]. by rewrite commit_request in Hr. }
    destruct (entry_row e) as [uuid|] eqn:Hrow; [|done]. cbn [mbind option_bind] in Hu. simplify_eq. cbn [names_ok row_of].
    split; [|by intros ? [= <-]]. rewrite Hn. by rewrite (proj2 He ltac:(done) uuid Hrow).
  - destruct (entry_row e) as [uuid|] eqn:Hrow; [|done]. cbn [mbind option_bind] in Hr. simplify_eq. cbn [names_ok row_of].
    split; [|done]. rewrite Hn. by rewrite (proj2 He ltac:(done) uuid Hrow).
Qed.

(** The calls of the code for an entry, up to the queue. *)
Definition api_call (m : mem) (s : srdb Q) (tbl : srdb_table) (e : entry) (a : api) : option (option transaction * srdb Q) :=
  match a with
  | AInsert => srdb_insert m s tbl e
  | AUpdate index => srdb_update m s tbl e index
  | ADelete => srdb_delete m s tbl e
  end.

Lemma commit_call m s op : ovsdb_commit m s op = call_request m s (request_of op).
Proof. by destruct op. Qed.

Lemma update_op tbl e index op : Flows.srdb_update tbl e index = Some op -> exists table uuid row, request_of op = RUpdate table uuid row.
Proof.
  unfold Flows.srdb_update. destruct (srdb_update_append _ _) as [[ret utr]|]; [|done]. cbn [mbind option_bind]. unfold srdb_update_commit.
  destruct (_ !! _) as [[]|]; [|done..]. intros [= <-]. by eexists _, _, _.
Qed.

Lemma insert_op tbl e op : Flows.srdb_insert tbl e = Some op -> exists table row, request_of op = RInsert table row.
Proof. unfold Flows.srdb_insert. destruct (srdb_insert_row tbl e); [|done]. cbn [mbind option_bind]. intros [= <-]. by eexists _, _. Qed.

Lemma api_call_request m s tbl e a r : api_request tbl e a = Some r ->
  api_call m s tbl e a = if match r with RUpdate _ _ _ => m_utr m | _ => true end then call_request m s r else Some (None, s).
Proof.
  destruct a as [|index|]; cbn [api_call api_request].
  - unfold srdb_insert. destruct (Flows.srdb_insert tbl e) as [op|] eqn:Ho; [|done]. cbn [mbind option_bind]. intros [= <-]. rewrite commit_call.
    by destruct (insert_op _ _ _ Ho) as (? & ? & ->).
  - unfold srdb_update. destruct (Flows.srdb_update tbl e index) as [op|] eqn:Ho; [|done]. cbn [mbind option_bind]. intros [= <-]. rewrite commit_call.
    destruct (update_op _ _ _ _ Ho) as (? & ? & ? & ->). by destruct (m_utr m).
  - unfold srdb_delete, entry_row. destruct (e !! _) as [[]|]; [|done..]. cbn [mbind option_bind]. by intros [= <-].
Qed.



End asks.

(** *** The request of a monitor *)

Lemma monitor_request_fits db tbl mon_flags : (String.length db <= SLEN)%nat -> tbl ∈ srdb_tables ->
  exists text, monitor_request db (t_name tbl) mon_flags = Some text.
Proof.
  intros Hdb Ht. assert (Hn : forallb (fun tbl => String.length (t_name tbl) <=? 100)%nat srdb_tables = true) by (vm_compute; reflexivity).
  rewrite forallb_forall in Hn. specialize (Hn tbl). rewrite <- list_elem_of_In in Hn. apply Nat.leb_le in Hn; [|done].
  assert (Hb : forall z, (String.length (BOOL_TO_STR z) <= 5)%nat) by (intros z; unfold BOOL_TO_STR; destruct (negb _); cbn; lia).
  unfold monitor_request. eexists. rewrite (proj2 (Nat.ltb_lt _ _)); [done|]. unfold OVSDB_MONITOR_FORMAT, quoted.
  repeat (rewrite slength_app || cbn [String.length]). pose proof (Hb (Z.land mon_flags MON_UPDATE)). pose proof (Hb (Z.land mon_flags MON_INITIAL)).
  pose proof (Hb (Z.land mon_flags MON_INSERT)). pose proof (Hb (Z.land mon_flags MON_DELETE)). unfold SLEN, JSON_BUFLEN in *. lia.
Qed.

(** ** Claims *)

(** C11. A request of the library, the insertion of an entry, the update of a
    field or the deletion of a row of any table, whose text fits the block is
    put into one transaction, which is pushed into the buffer of the library,
    whatever the buffer, and every worker is woken; the worker that takes it sends, if its text with the id fits the block too,
    bytes that the server reads as the same request on the same database,
    under that id. *)
Theorem request_reaches_server (J : Jansson) (T : JanssonText J) (W : JanssonWire J T) (L : JanssonLaws J) (Q : Type) (B : Buffer Q transaction)
    (m : mem) (s : srdb Q) (tbl : srdb_table) (e : entry) (a : api) (r : request) (id : Z) :
  plain (db_name s) = true -> tbl ∈ srdb_tables -> entry_sendable a e -> api_request tbl e a = Some r ->
  fits (db_name s) r = true -> api_mem_ok m r = true -> 0 <= id < 2 ^ 32 ->
  exists tr, api_call m s tbl e a = (q ← b_push (db_transactions s) tr; Some (Some tr, Db (db_name s) q (map Z.succ (db_events s)))) /\
    let text := json_compact (json_object_set (tr_json tr) "id" (json_integer id)) in
    (String.length text <= JSON_BUFLEN)%nat ->
    (exists j, send_transaction true true (Z.of_nat (String.length text)) (tr_json tr) id = Some (0, j, Some text)) /\
    (j ← json_loads text; server_request j) = Some (id, db_name s, r).
Proof.
  intros Hd Ht He Hr Hf Hm Hid. destruct (api_request_ok tbl e a r Ht He Hr) as [Hn Hrow].
  apply andb_true_iff in Hm as [Hu Hm]. exists (Tr (request_json (db_name s) r) (sbuf_new 1)). rewrite (api_call_request m s tbl e a r Hr), Hu.
  rewrite call_request_spec by done. rewrite Hf, Hm. split; [done|]. cbn [tr_json]. fold (with_id (request_json (db_name s) r) id).
  set (text := json_compact _). intros Hl.
  destruct (request_built (db_name s) r id Hd Hn Hrow Hid) as [Hb Ho]. split.
  - rewrite send_request by done. fold text. rewrite (proj2 (Nat.ltb_ge _ _)), Z.eqb_refl by done. by eexists.
  - unfold text. rewrite (jw_compact 6) by (done || apply Nat.leb_le; vm_compute; reflexivity). cbn [mbind option_bind]. by apply request_read.
Qed.

Definition demo_db : srdb (sbuf (transaction (J := tree_jansson))) := Db "SR_test" (sbuf_new 4) [0; 0].
Definition demo_mem : mem := Mem true true true true true.
Definition demo_request : request := default (RDelete "" "") (api_request (J := tree_jansson) flowreq_table demo_flowreq AInsert).

Lemma demo_sendable a : entry_sendable a demo_flowreq.
Proof.
  assert (H : map_Forall (fun _ c => match c with CInt z => (- 2 ^ 31 <=? z) && (z <? 2 ^ 31) | _ => true end = true) demo_flowreq) by (apply (bool_decide_unpack _); vm_compute; exact I).
  split.
  - intros o z Hz. specialize (H o _ Hz). cbn in H. bool_prop. lia.
  - intros _ uuid. vm_compute. intros Hu. by injection Hu as <-.
Qed.

Lemma request_reaches_server_witness :
  exists (tr : transaction) q, api_call (T := json_lib) demo_mem demo_db flowreq_table demo_flowreq AInsert = Some (Some tr, Db "SR_test" q [1; 1]) /\
    fst <$> b_pop q = Some tr /\
    (j ← json_loads (JanssonText := json_lib) (print "" (json_object_set (tr_json tr) "id" (json_integer 7))); server_request j) = Some (7, "SR_test", demo_request).
Proof.
  destruct (request_reaches_server tree_jansson json_lib json_lib_wire tree_jansson_laws _ _ demo_mem demo_db flowreq_table demo_flowreq AInsert demo_request 7)
    as (tr & Hcall & Hsend).
  - reflexivity.
  - vm_compute. repeat constructor.
  - apply demo_sendable.
  - reflexivity.
  - vm_compute. reflexivity.
  - reflexivity.
  - lia.
  - destruct (b_push (db_transactions demo_db) tr) as [q|] eqn:Hq; [|vm_compute in Hq; discriminate]. exists tr, q. split; [exact Hcall|].
    split; [vm_compute in Hq; injection Hq as <-; reflexivity|]. apply Hsend. apply Nat.leb_le. vm_compute in Hcall. injection Hcall as <- _. vm_compute. reflexivity.
Defined.


(** A flow whose segments take [n] bytes. *)
Fixpoint xs (n : nat) : string := match n with O => "" | S n => String "x" (xs n) end.
Definition long_flow (n : nat) : entry :=
  <[offsetof srdb_flow_entry "segments" := CPtr (Some (xs n))]>
  (<[offsetof srdb_flow_entry "row" := CBuf (S SLEN) "5dbbfa04-2f93-4a53-9a5f-0e1f0b1a5a58"]> (calloc_entry srdb_flow_entry)).



(** With the id the text is longer than what was printed and read: a request
    that is accepted is sent from behind the end of the block. *)
Lemma accepted_request_overreads :
  exists tr s, api_call (T := json_lib) demo_mem demo_db flow_table (long_flow 3921) (AUpdate FE_SEGMENTS) = Some (Some tr, s) /\
    forall sent, send_transaction (W := json_lib_wire) true true sent (tr_json tr) 100 = None.
Proof.
  eexists _, _. split; [vm_compute; reflexivity|]. intros sent. cbn [tr_json]. vm_compute. reflexivity.
Qed.
