(* ===== verification/Queue.v ===== *)
(** * Queues (lib/linked_list.h, lib/linked_list.c)

    The intrusive queue of the DNS proxy, over the heap of next and prev
    fields of Llist.v, and its thread-safe version: threads are step machines
    with a program point per synchronisation operation of [mqueue_append],
    [mqueue_dequeue], [mqueue_remove] and [mqueue_close] and one between the
    reads and the writes of their list operations, interleaved in any order.  What they do to the list is recorded as a trace and compared with
    an abstract queue. *)

From S2P Require Import Prelude Llist Sync.

(** A null pointer: never an address of the heap. *)
Definition NULL : ptr := 1%positive.

(** ** The queue

    A [struct queue] is named by the address of its head node, which is its
    first member; [length] is its other one. *)

Definition queue_init (h : heads) (queue : ptr) : option (heads * Z) :=
  h ← store_next h queue queue;
  h ← store_prev h queue queue;
  Some (h, 0).

(** What the three operations read first, and the rest of each with what was
    read ([tmp], [length]): a thread may be stopped between the two. *)
Definition append_at (h : heads) (length : Z) (queue elem tmp : ptr) : option (heads * Z) :=
  h ← store_next h elem queue;
  p ← load_prev h queue;
  h ← store_prev h elem p;
  h ← store_next h tmp elem;
  h ← store_prev h queue elem;
  Some (h, wrap64 (length + 1)).

Definition queue_append (h : heads) (length : Z) (queue elem : ptr) : option (heads * Z) :=
  tmp ← load_prev h queue; append_at h length queue elem tmp.

(** The removed node keeps its pointers. *)
Definition dequeue_at (h : heads) (length : Z) (queue tmp : ptr) : option (ptr * heads * Z) :=
  n ← load_next h tmp;
  h ← store_next h queue n;
  n ← load_next h queue;
  h ← store_prev h n queue;
  Some (tmp, h, wrap64 (length - 1)).

Definition queue_dequeue (h : heads) (length : Z) (queue : ptr) : option (ptr * heads * Z) :=
  tmp ← load_next h queue; dequeue_at h length queue tmp.

Definition remove_at (h : heads) (length : Z) (elem p : ptr) : option (heads * Z) :=
  n ← load_next h elem;
  h ← store_next h p n;
  n ← load_next h elem;
  p ← load_prev h elem;
  h ← store_prev h n p;
  h ← store_next h elem NULL;
  h ← store_prev h elem NULL;
  Some (h, wrap64 (length - 1)).

Definition queue_remove (h : heads) (length : Z) (elem : ptr) : option (heads * Z) :=
  p ← load_prev h elem; remove_at h length elem p.

(** free() of a node: [None] is a double or invalid free. *)
Definition free_node (h : heads) (p : ptr) : option heads :=
  _ ← h_next h !! p;
  _ ← h_prev h !! p;
  Some (Heads (delete p (h_next h)) (delete p (h_prev h))).

(** [queue_destroy]: dequeue and free until the queue itself comes out. *)
Fixpoint queue_destroy (fuel : nat) (h : heads) (length : Z) (queue : ptr) : option (heads * Z) :=
  '(elem, h, length) ← queue_dequeue h length queue;
  if bool_decide (elem = queue) then Some (h, length)
  else match fuel with
       | O => None
       | S fuel => h ← free_node h elem; queue_destroy fuel h length queue
       end.

(** queue_walk_dequeue(queue, elem, type): the elements, in the order in which
    the body gets them. *)
Fixpoint queue_walk_dequeue (fuel : nat) (h : heads) (length : Z) (queue : ptr) : option (list ptr * heads * Z) :=
  '(elem, h, length) ← queue_dequeue h length queue;
  if bool_decide (elem = queue) then Some ([], h, length)
  else match fuel with
       | O => None
       | S fuel => '(rest, h, length) ← queue_walk_dequeue fuel h length queue; Some (elem :: rest, h, length)
       end.

(** mqueue_walk_safe(queue, elem, tmp, type): its first and its next turn. *)
Definition walk_start (h : heads) (queue : ptr) : option (ptr * ptr) :=
  elem ← load_next h queue;
  tmp ← load_next h elem;
  Some (elem, tmp).

Definition walk_next (h : heads) (tmp : ptr) : option (ptr * ptr) :=
  tmp' ← load_next h tmp;
  Some (tmp, tmp').

(** The walk up to the first element that satisfies [P]; the queue itself when
    there is none. *)
Fixpoint walk_find (fuel : nat) (h : heads) (queue : ptr) (P : ptr -> option bool) (elem tmp : ptr) : option ptr :=
  if bool_decide (elem = queue) then Some queue
  else b ← P elem;
       if (b : bool) then Some elem
       else match fuel with
            | O => None
            | S fuel => '(elem, tmp) ← walk_next h tmp; walk_find fuel h queue P elem tmp
            end.

Definition mqueue_walk_find (fuel : nat) (h : heads) (queue : ptr) (P : ptr -> option bool) : option ptr :=
  '(elem, tmp) ← walk_start h queue;
  walk_find fuel h queue P elem tmp.

(** *** The queue is a list *)

Ltac run_queue := unfold queue_append, append_at, queue_dequeue, dequeue_at, queue_remove, remove_at, queue_init, free_node, walk_start, walk_next; run_heads.

Lemma queue_init_dlist h q : allocated h q ->
  exists h', queue_init h q = Some (h', 0) /\ dlist h' q [] /\ same_outside [q] h h'.
Proof.
  intros A. destruct (llist_init_dlist h q A) as (h' & Hi & D). exists h'. split; [|done].
  revert Hi. unfold llist_init, queue_init. destruct (store_next h q q); [|done]. cbn [mbind option_bind]. by intros ->.
Qed.

Lemma queue_append_dlist h len q e xs :
  dlist h q xs -> allocated h e -> e ∉ q :: xs ->
  exists h', queue_append h len q e = Some (h', wrap64 (len + 1)) /\ dlist h' q (xs ++ [e]) /\ same_outside (e :: q :: xs) h h'.
Proof.
  intros D A He. destruct (llist_insert_tail_dlist h q e xs D A He) as (h' & Hi & D' & S). exists h'. split; [|done].
  destruct D as [Hnd Hl]. destruct A as [[en Hen] [ep Hep]].
  destruct (links_last _ _ _ _ Hl) as (l & Hl1 & Hl2 & Hc).
  assert (l ∈ q :: xs) as Hlin by (destruct Hc as [[-> ->]|(? & -> & _)]; set_solver).
  assert (e <> q /\ e <> l) as [Hne Hnl] by set_solver.
  revert Hi. run_queue. by intros [= ->].
Qed.

Lemma queue_dequeue_dlist h len q x xs :
  dlist h q (x :: xs) ->
  exists h', queue_dequeue h len q = Some (x, h', wrap64 (len - 1)) /\ dlist h' q xs /\ allocated h' x /\ same_outside (q :: xs) h h'.
Proof.
  intros [Hnd Hl]. simpl in Hl. destruct Hl as (H1 & H2 & Hl).
  destruct (links_first _ _ _ _ Hl) as (f & Hf1 & Hf2 & Hc).
  apply NoDup_cons in Hnd as [Hq Hnd]. apply NoDup_cons in Hnd as [Hx Hnd].
  assert (f ∈ q :: xs) as Hin by (destruct Hc as [[-> ->]|(? & -> & _)]; set_solver).
  assert (x <> q /\ x <> f) as [Hxq Hxf] by set_solver.
  exists (join h q f). split_and!.
  - run_queue. done.
  - split; [apply NoDup_cons; set_solver|]. eapply links_relink_first; [exact Hf1|exact Hl|apply NoDup_cons; set_solver|set_solver].
  - split; simpl; rewrite lookup_insert_ne by congruence; eauto.
  - intros p Hp. simpl. rewrite !lookup_insert_ne; set_solver.
Qed.

(** An empty queue gives itself, and its length wraps around. *)
Lemma queue_dequeue_empty h len q :
  dlist h q [] -> exists h', queue_dequeue h len q = Some (q, h', wrap64 (len - 1)) /\ dlist h' q [] /\ same_outside [q] h h'.
Proof.
  intros [Hnd [H1 H2]]. exists (join h q q). split_and!.
  - run_queue. done.
  - split; [done|]. apply links_join_nil.
  - intros p Hp. simpl. rewrite !lookup_insert_ne; set_solver.
Qed.

Lemma queue_remove_dlist h len q xs e ys :
  dlist h q (xs ++ e :: ys) ->
  exists h', queue_remove h len e = Some (h', wrap64 (len - 1)) /\ dlist h' q (xs ++ ys) /\ allocated h' e /\
    same_outside (q :: xs ++ e :: ys) h h'.
Proof.
  intros [Hnd Hl]. apply links_app in Hl as [Hx Hy].
  destruct (links_last _ _ _ _ Hx) as (a & Ha1 & Ha2 & Hca).
  destruct (links_first _ _ _ _ Hy) as (b & Hb1 & Hb2 & Hcb).
  assert (a ∈ q :: xs) as Ha by (destruct Hca as [[-> ->]|(? & -> & _)]; set_solver).
  assert (b ∈ q :: ys) as Hb by (destruct Hcb as [[-> ->]|(? & -> & _)]; set_solver).
  rewrite app_comm_cons in Hnd. apply NoDup_mid in Hnd as (He1 & He2 & Hnd).
  assert (e <> a /\ e <> b) as [Hea Heb] by set_solver.
  set (h1 := join h a b). set (h2 := Heads (<[e := NULL]> (h_next h1)) (<[e := NULL]> (h_prev h1))).
  assert (same_outside [e] h1 h2) as S2 by (intros p Hp; subst h2; cbn [h_next h_prev]; rewrite !lookup_insert_ne by set_solver; done).
  exists h2. split_and!.
  - run_queue. done.
  - eapply dlist_frame; [exact S2|set_solver|]. split; [done|]. eapply links_bypass; eauto.
  - split; simpl; rewrite lookup_insert_eq; eauto.
  - intros p Hp. simpl. rewrite !lookup_insert_ne; set_solver.
Qed.

Lemma free_node_ok h p : allocated h p ->
  free_node h p = Some (Heads (delete p (h_next h)) (delete p (h_prev h))).
Proof. intros [[n Hn] [m Hm]]. unfold free_node. by rewrite Hn, Hm. Qed.

Lemma free_same h p : same_outside [p] h (Heads (delete p (h_next h)) (delete p (h_prev h))).
Proof. intros x Hx. simpl. rewrite !lookup_delete_ne; set_solver. Qed.

(** The walk finds the first element of the list that satisfies [P]. *)
Lemma walk_find_ok (P : ptr -> option bool) (f : ptr -> bool) h q xs : dlist h q xs -> (forall x, x ∈ xs -> P x = Some (f x)) ->
  mqueue_walk_find (length xs) h q P = Some (default q (List.find f xs)).
Proof.
  intros [Hnd Hl] HP. unfold mqueue_walk_find.
  assert (forall p, links h p xs q -> exists elem tmp, load_next h p = Some elem /\ load_next h elem = Some tmp /\
    walk_find (length xs) h q P elem tmp = Some (default q (List.find f xs))) as H.
  { apply NoDup_cons in Hnd as [Hq Hnd]. destruct (links_first _ _ _ _ Hl) as (g & Hg & _ & _). clear Hl.
    induction xs as [|x xs IH]; intros p Hl.
    - destruct Hl as [H1 H2]. exists q, g. split_and!; [done|done|]. simpl. by rewrite bool_decide_eq_true_2.
    - destruct Hl as (H1 & H2 & Hl). apply NoDup_cons in Hnd as [Hx Hnd].
      destruct (IH ltac:(set_solver) Hnd ltac:(set_solver) x Hl) as (elem & tmp & He & Ht & Hw).
      exists x, elem. split_and!; [done|done|]. cbn [walk_find length List.find].
      rewrite bool_decide_eq_false_2 by set_solver. rewrite HP by set_solver. cbn [mbind option_bind].
      destruct (f x); [done|]. unfold walk_next. rewrite Ht. cbn [mbind option_bind]. exact Hw. }
  destruct (H q Hl) as (elem & tmp & He & Ht & Hw). unfold walk_start. rewrite He. cbn [mbind option_bind]. rewrite Ht. exact Hw.
Qed.

Lemma wrap64_drain len n : wrap64 (wrap64 (len - 1) - Z.of_nat n - 1) = wrap64 (len - Z.of_nat (S n) - 1).
Proof. rewrite <- Z.sub_add_distr, wrap64_sub_l. f_equal. lia. Qed.

(** Draining a queue terminates and gives its elements in order. *)
Lemma queue_walk_dequeue_ok xs : forall h len q, dlist h q xs ->
  exists h', queue_walk_dequeue (length xs) h len q = Some (xs, h', wrap64 (len - Z.of_nat (length xs) - 1)) /\ dlist h' q [] /\
    same_outside (q :: xs) h h'.
Proof.
  induction xs as [|x xs IH]; intros h len q D.
  - destruct (queue_dequeue_empty h len q D) as (h' & Hd & D' & S). exists h'. simpl. rewrite Hd. cbn [mbind option_bind].
    rewrite bool_decide_eq_true_2 by done. split_and!; [by rewrite Z.sub_0_r|done|done].
  - assert (x <> q) as Hx by (destruct D as [Hnd _]; apply NoDup_cons in Hnd as [Hq _]; set_solver).
    destruct (queue_dequeue_dlist h len q x xs D) as (h1 & Hd & D1 & _ & S1).
    destruct (IH h1 (wrap64 (len - 1)) q D1) as (h2 & Hw & D2 & S2). exists h2. cbn [queue_walk_dequeue length]. rewrite Hd. cbn [mbind option_bind].
    rewrite bool_decide_eq_false_2 by done. rewrite Hw. cbn [mbind option_bind]. split_and!; [by rewrite wrap64_drain|done|].
    intros p Hp. destruct (S2 p ltac:(set_solver)) as [-> ->]. apply S1. set_solver.
Qed.

(** [queue_destroy] terminates and frees every element, once. *)
Lemma queue_destroy_ok xs : forall h len q, dlist h q xs ->
  exists h', queue_destroy (length xs) h len q = Some (h', wrap64 (len - Z.of_nat (length xs) - 1)) /\ dlist h' q [] /\
    same_outside (q :: xs) h h' /\ forall x, x ∈ xs -> h_next h' !! x = None /\ h_prev h' !! x = None.
Proof.
  induction xs as [|x xs IH]; intros h len q D.
  - destruct (queue_dequeue_empty h len q D) as (h' & Hd & D' & S). exists h'. simpl. rewrite Hd. cbn [mbind option_bind].
    rewrite bool_decide_eq_true_2 by done. split_and!; [by rewrite Z.sub_0_r|done|done|set_solver].
  - pose proof D as [Hnd _]. apply NoDup_cons in Hnd as [Hq Hnd]. apply NoDup_cons in Hnd as [Hx Hnd].
    destruct (queue_dequeue_dlist h len q x xs D) as (h1 & Hd & D1 & A & S1).
    set (h2 := Heads (delete x (h_next h1)) (delete x (h_prev h1))). pose proof (free_same h1 x : same_outside [x] h1 h2) as S2.
    assert (dlist h2 q xs) as D2 by (eapply dlist_frame; [exact S2|set_solver|done]).
    destruct (IH h2 (wrap64 (len - 1)) q D2) as (h' & Hw & D' & S' & F). exists h'. cbn [queue_destroy length]. rewrite Hd. cbn [mbind option_bind].
    rewrite bool_decide_eq_false_2 by set_solver. rewrite (free_node_ok _ _ A). cbn [mbind option_bind]. fold h2. rewrite Hw.
    split_and!; [by rewrite wrap64_drain|done| |].
    + intros p Hp. destruct (S' p ltac:(set_solver)) as [-> ->]. destruct (S2 p ltac:(set_solver)) as [-> ->]. apply S1. set_solver.
    + intros y [->|Hy]%elem_of_cons; [|by apply F]. destruct (S' x ltac:(set_solver)) as [-> ->]. simpl. by rewrite !lookup_delete_eq.
Qed.

(** ** The thread-safe queue *)

Record queue_thread := QueueThread {
  mq_heads : heads;
  mq_length : Z;
  closed : bool;
  mutex : option nat;   (* the thread that holds it *)
  sem_empty : Z;
  sem_full : Z
}.

Definition set_list (m : queue_thread) (h : heads) (l : Z) : queue_thread := QueueThread h l (closed m) (mutex m) (sem_empty m) (sem_full m).
Definition set_closed (m : queue_thread) : queue_thread := QueueThread (mq_heads m) (mq_length m) true (mutex m) (sem_empty m) (sem_full m).
Definition set_mutex (m : queue_thread) (t : option nat) : queue_thread := QueueThread (mq_heads m) (mq_length m) (closed m) t (sem_empty m) (sem_full m).
Definition set_sem_empty (m : queue_thread) (v : Z) : queue_thread := QueueThread (mq_heads m) (mq_length m) (closed m) (mutex m) v (sem_full m).
Definition set_sem_full (m : queue_thread) (v : Z) : queue_thread := QueueThread (mq_heads m) (mq_length m) (closed m) (mutex m) (sem_empty m) v.

(** The calls of a thread, and where it is in one: before [sem_wait], the test
    of [closed], [pthread_mutex_lock], the first read of the list operation,
    the rest of it with what was read, [pthread_mutex_unlock], the final [sem_post]; [QUndo] is [out_free_sem]. *)
Inductive qcall := QAppend (elem : ptr) | QDequeue | QRemove (elem : ptr).
Inductive phase := QWait | QCheck | QLock | QList | QStore (tmp : ptr) (len : Z) | QUnlock (r : ptr) | QPost (r : ptr) | QUndo (err : Z).

(** [RPtr] is what [mqueue_dequeue] returns, [RInt] the other calls.  [QClose]
    is at the start of [mqueue_close], [QCloseFull] and [QCloseEmpty] are in
    its loops, with the posts left to do. *)
Inductive qret := RInt (z : Z) | RPtr (p : ptr).
Inductive qpc :=
| QIdle
| QRun (c : qcall) (ph : phase)
| QClose (consumers producers : nat)
| QCloseFull (consumers producers : nat)
| QCloseEmpty (producers : nat)
| QRet (r : qret).

Inductive qevent := Appended (p : ptr) | Dequeued (p : ptr) | Removed (p : ptr) | PostFull | PostEmpty.

Inductive qoutcome := QBlocked | QUndefined | QNext (m : queue_thread) (p : qpc) (e : option qevent).

Section mqueue.
Variable queue : ptr.   (* the [struct queue_thread], at the address of its list head *)

Definition mqueue_init (h : heads) (max_size : Z) : option queue_thread :=
  '(h, l) ← queue_init h queue;
  Some (QueueThread h l false None (sem_init max_size) (sem_init 0)).

Definition lock_mutex (t : nat) (m : queue_thread) (p : qpc) : qoutcome :=
  match mutex m with None => QNext (set_mutex m (Some t)) p None | Some _ => QBlocked end.

(** [fails]: the system call at this point fails ([sem_wait] interrupted by a
    signal, [pthread_mutex_lock] in error, with errno [err]). *)
Definition mqueue_append (t : nat) (fails : option Z) (elem : ptr) (ph : phase) (m : queue_thread) : qoutcome :=
  let next ph m := QNext m (QRun (QAppend elem) ph) None in
  match ph with
  | QWait =>
      match fails with
      | Some _ => QNext m (QRet (RInt (-1))) None
      | None => match sem_try (sem_empty m) with Some v => next QCheck (set_sem_empty m v) | None => QBlocked end
      end
  | QCheck => if closed m then next (QUndo (-1)) m else next QLock m
  | QLock =>
      match fails with
      | Some err => next (QUndo err) m
      | None => lock_mutex t m (QRun (QAppend elem) QList)
      end
  | QList => match load_prev (mq_heads m) queue with Some tmp => next (QStore tmp (mq_length m)) m | None => QUndefined end
  | QStore tmp len =>
      match append_at (mq_heads m) len queue elem tmp with
      | Some (h, l) => QNext (set_list m h l) (QRun (QAppend elem) (QUnlock elem)) (Some (Appended elem))
      | None => QUndefined
      end
  | QUnlock r => next (QPost r) (set_mutex m None)
  | QPost _ => QNext (set_sem_full m (sem_post (sem_full m))) (QRet (RInt 0)) None
  | QUndo err => QNext (set_sem_empty m (sem_post (sem_empty m))) (QRet (RInt err)) None
  end.

Definition mqueue_dequeue (t : nat) (fails : option Z) (ph : phase) (m : queue_thread) : qoutcome :=
  let next ph m := QNext m (QRun QDequeue ph) None in
  match ph with
  | QWait =>
      match fails with
      | Some _ => QNext m (QRet (RPtr queue)) None
      | None => match sem_try (sem_full m) with Some v => next QCheck (set_sem_full m v) | None => QBlocked end
      end
  | QCheck => if closed m then next (QUndo (-1)) m else next QLock m
  | QLock =>
      match fails with
      | Some err => next (QUndo err) m
      | None => lock_mutex t m (QRun QDequeue QList)
      end
  | QList => match load_next (mq_heads m) queue with Some tmp => next (QStore tmp (mq_length m)) m | None => QUndefined end
  | QStore tmp len =>
      match dequeue_at (mq_heads m) len queue tmp with
      | Some (tmp, h, l) => QNext (set_list m h l) (QRun QDequeue (QUnlock tmp)) (Some (Dequeued tmp))
      | None => QUndefined
      end
  | QUnlock tmp => next (QPost tmp) (set_mutex m None)
  | QPost tmp => QNext (set_sem_empty m (sem_post (sem_empty m))) (QRet (RPtr tmp)) None
  | QUndo _ => QNext (set_sem_full m (sem_post (sem_full m))) (QRet (RPtr queue)) None
  end.

Definition mqueue_remove (t : nat) (fails : option Z) (elem : ptr) (ph : phase) (m : queue_thread) : qoutcome :=
  let next ph m := QNext m (QRun (QRemove elem) ph) None in
  match ph with
  | QWait =>
      match fails with
      | Some _ => QNext m (QRet (RInt (-1))) None
      | None => match sem_try (sem_full m) with Some v => next QCheck (set_sem_full m v) | None => QBlocked end
      end
  | QCheck => if closed m then next (QUndo (-1)) m else next QLock m
  | QLock =>
      match fails with
      | Some err => next (QUndo err) m
      | None => lock_mutex t m (QRun (QRemove elem) QList)
      end
  | QList => match load_prev (mq_heads m) elem with Some p => next (QStore p (mq_length m)) m | None => QUndefined end
  | QStore p len =>
      match remove_at (mq_heads m) len elem p with
      | Some (h, l) => QNext (set_list m h l) (QRun (QRemove elem) (QUnlock elem)) (Some (Removed elem))
      | None => QUndefined
      end
  | QUnlock r => next (QPost r) (set_mutex m None)
  | QPost _ => QNext (set_sem_empty m (sem_post (sem_empty m))) (QRet (RInt 0)) None
  | QUndo _ => QNext (set_sem_full m (sem_post (sem_full m))) (QRet (RInt (-1))) None
  end.

Definition mqueue_close (p : qpc) (m : queue_thread) : qoutcome :=
  match p with
  | QClose nc np => QNext (set_closed m) (QCloseFull nc np) None
  | QCloseFull (S nc) np => QNext (set_sem_full m (sem_post (sem_full m))) (QCloseFull nc np) (Some PostFull)
  | QCloseFull O np => QNext m (QCloseEmpty np) None
  | QCloseEmpty (S np) => QNext (set_sem_empty m (sem_post (sem_empty m))) (QCloseEmpty np) (Some PostEmpty)
  | QCloseEmpty O => QNext m (QRet (RInt 0)) None
  | _ => QBlocked
  end.

Definition qstep (t : nat) (fails : option Z) (p : qpc) (m : queue_thread) : qoutcome :=
  match p with
  | QIdle => QBlocked
  | QRun (QAppend e) ph => mqueue_append t fails e ph m
  | QRun QDequeue ph => mqueue_dequeue t fails ph m
  | QRun (QRemove e) ph => mqueue_remove t fails e ph m
  | QClose _ _ | QCloseFull _ _ | QCloseEmpty _ => mqueue_close p m
  | QRet _ => QNext m QIdle None
  end.

(** ** Systems of threads *)

Record qsys := QSys { mq : queue_thread; qpcs : list qpc; trace : list qevent }.

(** What the trace says of the queue. *)
Fixpoint remove_elem (e : ptr) (xs : list ptr) : list ptr :=
  match xs with [] => [] | x :: xs => if decide (x = e) then xs else x :: remove_elem e xs end.

Definition spec_step (xs : list ptr) (e : qevent) : option (list ptr) :=
  match e with
  | Appended e => Some (xs ++ [e])
  | Dequeued e => match xs with x :: xs => if decide (x = e) then Some xs else None | [] => None end
  | Removed e => if decide (e ∈ xs) then Some (remove_elem e xs) else None
  | PostFull | PostEmpty => Some xs
  end.

Definition replay (tr : list qevent) : option (list ptr) := foldl (fun o e => xs ← o; spec_step xs e) (Some []) tr.
Definition contents (s : qsys) : list ptr := default [] (replay (trace s)).

(** The element a thread is about to add ([false]) or remove ([true]). *)
Definition claim (p : qpc) : option (bool * ptr) :=
  match p with
  | QRun (QAppend e) (QWait | QCheck | QLock | QList | QStore _ _) => Some (false, e)
  | QRun (QRemove e) (QWait | QCheck | QLock | QList | QStore _ _) => Some (true, e)
  | _ => None
  end.
Definition claimed (s : qsys) (e : ptr) : Prop := exists t p b, qpcs s !! t = Some p /\ claim p = Some (b, e).

(** How the queues are used: a node to append is its caller's own, and a queue
    is read either by dequeueing ([queries], [replies]) or, [walked], by
    finding elements and removing them ([replies_waiting_controller]). *)
Definition call_ok (walked : bool) (s : qsys) (c : qcall) : Prop :=
  match c with
  | QAppend e => allocated (mq_heads (mq s)) e /\ (e ∉ queue :: contents s) /\ ~ claimed s e
  | QDequeue => walked = false
  | QRemove e => walked = true /\ e ∈ contents s /\ ~ claimed s e
  end.

(** A call, the start of [mqueue_close], a step of a thread, and the rest of
    the program using its memory. *)
Inductive mstep (walked : bool) (s : qsys) : qsys -> Prop :=
| mstep_call t c :
    qpcs s !! t = Some QIdle -> call_ok walked s c ->
    mstep walked s (QSys (mq s) (<[t := QRun c QWait]> (qpcs s)) (trace s))
| mstep_close t nc np :
    qpcs s !! t = Some QIdle -> mstep walked s (QSys (mq s) (<[t := QClose nc np]> (qpcs s)) (trace s))
| mstep_run t fails p m p' e :
    qpcs s !! t = Some p -> qstep t fails p (mq s) = QNext m p' e ->
    mstep walked s (QSys m (<[t := p']> (qpcs s)) (trace s ++ option_list e))
| mstep_env h :
    (forall p, p = queue \/ p ∈ contents s \/ claimed s p ->
       h_next h !! p = h_next (mq_heads (mq s)) !! p /\ h_prev h !! p = h_prev (mq_heads (mq s)) !! p) ->
    mstep walked s (QSys (set_list (mq s) h (mq_length (mq s))) (qpcs s) (trace s)).

(** [s] can be reached from a fresh queue with [nthreads] threads. *)
Definition mreachable (walked : bool) (max_size : Z) (nthreads : nat) (s : qsys) : Prop :=
  exists h m, allocated h queue /\ mqueue_init h max_size = Some m /\ rtc (mstep walked) (QSys m (replicate nthreads QIdle) []) s.

Definition is_post_full (e : qevent) : bool := match e with PostFull => true | _ => false end.
Definition is_post_empty (e : qevent) : bool := match e with PostEmpty => true | _ => false end.
Definition posts_full (s : qsys) : Z := cnt is_post_full (trace s).
Definition posts_empty (s : qsys) : Z := cnt is_post_empty (trace s).

(** ** Invariant *)

Definition app_past (p : qpc) : bool := match p with QRun (QAppend _) (QLock | QList | QStore _ _) => true | _ => false end.
Definition app_res (p : qpc) : bool := match p with QRun (QAppend _) (QCheck | QLock | QList | QStore _ _ | QUndo _) => true | _ => false end.
Definition app_done (p : qpc) : bool := match p with QRun (QAppend _) (QUnlock _ | QPost _) => true | _ => false end.
Definition out_past (p : qpc) : bool := match p with QRun (QDequeue | QRemove _) (QLock | QList | QStore _ _) => true | _ => false end.
Definition out_res (p : qpc) : bool := match p with QRun (QDequeue | QRemove _) (QCheck | QLock | QList | QStore _ _ | QUndo _) => true | _ => false end.
Definition out_done (p : qpc) : bool := match p with QRun (QDequeue | QRemove _) (QUnlock _ | QPost _) => true | _ => false end.
Definition q_in_cs (p : qpc) : bool := match p with QRun _ (QList | QStore _ _ | QUnlock _) => true | _ => false end.
Definition is_dequeue (p : qpc) : bool := match p with QRun QDequeue _ => true | _ => false end.
Definition closing (p : qpc) : bool := match p with QCloseFull _ _ | QCloseEmpty _ => true | _ => false end.

Record claims_ok (walked : bool) (h : heads) (xs : list ptr) (ps : list qpc) : Prop := {
  cl_append : forall t p e, ps !! t = Some p -> claim p = Some (false, e) -> allocated h e /\ e ∉ queue :: xs;
  cl_remove : forall t p e, ps !! t = Some p -> claim p = Some (true, e) -> walked = true /\ e ∈ xs;
  cl_distinct : forall t1 t2 p1 p2 b1 b2 e, t1 <> t2 -> ps !! t1 = Some p1 -> ps !! t2 = Some p2 ->
    claim p1 = Some (b1, e) -> claim p2 = Some (b2, e) -> False;
  cl_mode : forall t p, ps !! t = Some p -> is_dequeue p = true -> walked = false
}.

(** What a thread between the two parts of a list operation has read is still
    there. *)
Definition snapshot (c : qcall) (h : heads) : option ptr :=
  match c with QAppend _ => load_prev h queue | QDequeue => load_next h queue | QRemove e => load_prev h e end.

Definition snaps_ok (h : heads) (l : Z) (ps : list qpc) : Prop :=
  forall t c tmp len, ps !! t = Some (QRun c (QStore tmp len)) -> snapshot c h = Some tmp /\ len = l.

Lemma snaps_move h l ps t p p' : snaps_ok h l ps -> ps !! t = Some p ->
  (forall c tmp len, p' = QRun c (QStore tmp len) -> snapshot c h = Some tmp /\ len = l) -> snaps_ok h l (<[t := p']> ps).
Proof.
  intros Hs Hp H t' c tmp len Ht. destruct (decide (t = t')) as [<-|Hne].
  - rewrite list_lookup_insert_eq in Ht by (by eapply lookup_lt_Some). simplify_eq. by apply H.
  - rewrite list_lookup_insert_ne in Ht by done. by apply (Hs t').
Qed.

(** The thread that changes the list is alone in the critical section. *)
Lemma snaps_alone h' l' lock ps t p p' : lock_ok q_in_cs lock ps -> ps !! t = Some p -> q_in_cs p = true ->
  (forall c tmp len, p' <> QRun c (QStore tmp len)) -> snaps_ok h' l' (<[t := p']> ps).
Proof.
  intros Hlk Hp Hcs H t' c tmp len Ht. destruct (decide (t = t')) as [<-|Hne].
  - rewrite list_lookup_insert_eq in Ht by (by eapply lookup_lt_Some). simplify_eq. by destruct (H c tmp len).
  - rewrite list_lookup_insert_ne in Ht by done. pose proof (proj1 (Hlk t p Hp) Hcs). pose proof (proj1 (Hlk t' _ Ht) eq_refl). congruence.
Qed.

Record minv (walked : bool) (n : Z) (s : qsys) (xs : list ptr) : Prop := {
  mi_replay : replay (trace s) = Some xs;
  mi_list : dlist (mq_heads (mq s)) queue xs;
  mi_length : mq_length (mq s) = Z.of_nat (length xs);
  mi_empty : 0 <= sem_empty (mq s) /\
    sem_empty (mq s) + cnt app_res (qpcs s) + Z.of_nat (length xs) + cnt out_done (qpcs s) = n + posts_empty s;
  mi_full : 0 <= sem_full (mq s) /\
    sem_full (mq s) + cnt out_res (qpcs s) + cnt app_done (qpcs s) = Z.of_nat (length xs) + posts_full s;
  mi_room : cnt app_past (qpcs s) + Z.of_nat (length xs) + cnt out_done (qpcs s) <= n;
  mi_data : cnt out_past (qpcs s) + cnt app_done (qpcs s) <= Z.of_nat (length xs);
  mi_open : closed (mq s) = false -> posts_empty s = 0 /\ posts_full s = 0 /\ cnt closing (qpcs s) = 0;
  mi_lock : lock_ok q_in_cs (mutex (mq s)) (qpcs s);
  mi_holder : holder_exists (mutex (mq s)) (qpcs s);
  mi_claims : claims_ok walked (mq_heads (mq s)) xs (qpcs s);
  mi_snaps : snaps_ok (mq_heads (mq s)) (mq_length (mq s)) (qpcs s)
}.

Lemma replay_snoc tr e xs : replay tr = Some xs -> replay (tr ++ [e]) = spec_step xs e.
Proof. intros H. unfold replay in *. by rewrite foldl_app, H. Qed.

Lemma remove_elem_mid e l r : e ∉ l -> remove_elem e (l ++ e :: r) = l ++ r.
Proof.
  induction l as [|x l IH]; intros He; simpl; [by rewrite decide_True|].
  rewrite decide_False by set_solver. rewrite IH by set_solver. done.
Qed.

Lemma contents_eq s xs : replay (trace s) = Some xs -> contents s = xs.
Proof. unfold contents. by intros ->. Qed.

(** A thread goes on; the list may change under it, the claims of the others
    are kept. *)
Lemma claims_update walked h h' xs xs' ps t p p' :
  claims_ok walked h xs ps -> ps !! t = Some p ->
  (claim p' = None \/ claim p' = claim p /\ h' = h /\ xs' = xs) ->
  (is_dequeue p' = true -> walked = false) ->
  (forall e, allocated h e -> e ∉ queue :: xs -> (forall b, claim p <> Some (b, e)) -> allocated h' e /\ e ∉ queue :: xs') ->
  (forall e, walked = true -> e ∈ xs -> (forall b, claim p <> Some (b, e)) -> e ∈ xs') ->
  claims_ok walked h' xs' (<[t := p']> ps).
Proof.
  intros [Ca Cr Cd Cm] Hp Hc Hm HA HR.
  assert (forall t' x, <[t := p']> ps !! t' = Some x -> t' = t /\ x = p' \/ t' <> t /\ ps !! t' = Some x) as Hl.
  { intros t' x Hx. destruct (decide (t = t')) as [<-|Hne]; [left|right]; [|by rewrite list_lookup_insert_ne in Hx].
    rewrite list_lookup_insert_eq in Hx by (by eapply lookup_lt_Some). by simplify_eq. }
  assert (forall t' x b e b', t' <> t -> ps !! t' = Some x -> claim x = Some (b, e) -> claim p <> Some (b', e)) as Hne.
  { intros t' x b e b' Ht Hx Hcx Hcp. by eapply (Cd t' t x p). }
  split.
  - intros t' x e Hx Hcx. apply Hl in Hx as [[-> ->]|[Ht Hx]].
    + destruct Hc as [Hc|(Hc & -> & ->)]; [congruence|]. apply (Ca t p); [done|congruence].
    + destruct (Ca t' x e Hx Hcx). apply HA; [done|done|]. intros b. by eapply Hne.
  - intros t' x e Hx Hcx. apply Hl in Hx as [[-> ->]|[Ht Hx]].
    + destruct Hc as [Hc|(Hc & -> & ->)]; [congruence|]. apply (Cr t p); [done|congruence].
    + destruct (Cr t' x e Hx Hcx). split; [done|]. apply HR; [done|done|]. intros b. by eapply Hne.
  - intros t1 t2 p1 p2 b1 b2 e Ht H1 H2 C1 C2. apply Hl in H1 as [[-> ->]|[Ht1 H1]], H2 as [[-> ->]|[Ht2 H2]]; [done| | |by eapply (Cd t1 t2)].
    + destruct Hc as [Hc|(Hc & _)]; [congruence|]. rewrite Hc in C1. by eapply (Cd t t2 p p2).
    + destruct Hc as [Hc|(Hc & _)]; [congruence|]. rewrite Hc in C2. by eapply (Cd t1 t p1 p).
  - intros t' x Hx Hd. apply Hl in Hx as [[-> ->]|[Ht Hx]]; [by apply Hm|by eapply Cm].
Qed.

Lemma claims_move walked h xs ps t p p' :
  claims_ok walked h xs ps -> ps !! t = Some p -> claim p' = None \/ claim p' = claim p ->
  (is_dequeue p' = true -> is_dequeue p = true) -> claims_ok walked h xs (<[t := p']> ps).
Proof.
  intros C Hp Hc Hd. eapply claims_update; [done|done| | |done|done].
  - destruct Hc; auto.
  - intros H. by eapply (cl_mode _ _ _ _ C t p), Hd.
Qed.

Lemma claims_call walked s xs t c :
  claims_ok walked (mq_heads (mq s)) xs (qpcs s) -> contents s = xs -> qpcs s !! t = Some QIdle -> call_ok walked s c ->
  claims_ok walked (mq_heads (mq s)) xs (<[t := QRun c QWait]> (qpcs s)).
Proof.
  intros [Ca Cr Cd Cm] <- Hp Hc.
  assert (forall t' x, <[t := QRun c QWait]> (qpcs s) !! t' = Some x -> t' = t /\ x = QRun c QWait \/ t' <> t /\ qpcs s !! t' = Some x) as Hl.
  { intros t' x Hx. destruct (decide (t = t')) as [<-|Hne]; [left|right]; [|by rewrite list_lookup_insert_ne in Hx].
    rewrite list_lookup_insert_eq in Hx by (by eapply lookup_lt_Some). by simplify_eq. }
  split.
  - intros t' x e Hx Hcx. apply Hl in Hx as [[-> ->]|[Ht Hx]]; [|by eapply Ca]. destruct c; simplify_eq/=. naive_solver.
  - intros t' x e Hx Hcx. apply Hl in Hx as [[-> ->]|[Ht Hx]]; [|by eapply Cr]. destruct c; simplify_eq/=. naive_solver.
  - intros t1 t2 p1 p2 b1 b2 e Ht H1 H2 C1 C2.
    apply Hl in H1 as [[-> ->]|[Ht1 H1]], H2 as [[-> ->]|[Ht2 H2]]; [done| | |by eapply (Cd t1 t2)];
      destruct c; simplify_eq/=; destruct_and!; match goal with H : ~ claimed _ _ |- _ => apply H end; by eexists _, _, _.
  - intros t' x Hx Hd. apply Hl in Hx as [[-> ->]|[Ht Hx]]; [|by eapply Cm]. by destruct c.
Qed.
(** *** The list operations, under the invariant *)

Ltac q_counts Hp :=
  unfold posts_empty, posts_full in *; simpl in *;
  rewrite ?app_nil_r, ?(cnt_insert _ _ _ _ _ Hp), ?cnt_app in *; simpl in *.

Lemma q_append_ok walked n s xs t e tmp len : 0 <= n <= 2 ^ 30 ->
  minv walked n s xs -> qpcs s !! t = Some (QRun (QAppend e) (QStore tmp len)) ->
  exists h, append_at (mq_heads (mq s)) len queue e tmp = Some (h, Z.of_nat (length xs) + 1) /\
    minv walked n (QSys (set_list (mq s) h (Z.of_nat (length xs) + 1)) (<[t := QRun (QAppend e) (QUnlock e)]> (qpcs s)) (trace s ++ [Appended e])) (xs ++ [e]).
Proof.
  intros Hn [Hr Hd Hl He Hf Hroom Hdata Ho Hlk Hh Hc Hsn] Hp.
  destruct (cl_append _ _ _ _ Hc t _ e Hp eq_refl) as [A Hin].
  destruct (queue_append_dlist _ (mq_length (mq s)) _ _ _ Hd A Hin) as (h & Hq & D & S). exists h.
  pose proof (cnt_nonneg app_past (qpcs s)). pose proof (cnt_nonneg out_done (qpcs s)).
  destruct (Hsn t _ tmp len Hp) as [Ht ->]. cbn [snapshot] in Ht. unfold queue_append in Hq. rewrite Ht in Hq. cbn [mbind option_bind] in Hq.
  rewrite Hq, Hl, wrap64_small by lia. split; [done|].
  split; simpl; q_counts Hp; rewrite ?length_app; simpl; try lia; try done; try (by eapply snaps_alone).
  - by rewrite (replay_snoc _ _ _ Hr).
  - intros Hcl. specialize (Ho Hcl). lia.
  - by eapply lock_ok_same; [exact Hlk|exact Hp|].
  - by eapply holder_insert.
  - eapply claims_update; [exact Hc|exact Hp|by left|done| |].
    + intros x Ax Hx Hne. assert (x <> e) by (intros ->; by apply (Hne false)).
      destruct (S x ltac:(set_solver)) as [E1 E2]. split; [|set_solver]. unfold allocated. by rewrite E1, E2.
    + set_solver.
Qed.

Lemma q_dequeue_ok walked n s xs t tmp len : 0 <= n <= 2 ^ 30 ->
  minv walked n s xs -> qpcs s !! t = Some (QRun QDequeue (QStore tmp len)) ->
  exists x ys h, xs = x :: ys /\ dequeue_at (mq_heads (mq s)) len queue tmp = Some (x, h, Z.of_nat (length ys)) /\
    minv walked n (QSys (set_list (mq s) h (Z.of_nat (length ys))) (<[t := QRun QDequeue (QUnlock x)]> (qpcs s)) (trace s ++ [Dequeued x])) ys.
Proof.
  intros Hn [Hr Hd Hl He Hf Hroom Hdata Ho Hlk Hh Hc Hsn] Hp.
  pose proof (cnt_pos out_past _ _ _ Hp eq_refl). pose proof (cnt_nonneg app_done (qpcs s)).
  destruct xs as [|x ys]; [simpl in *; lia|].
  destruct (queue_dequeue_dlist _ (mq_length (mq s)) _ _ _ Hd) as (h & Hq & D & A & S). exists x, ys, h. split; [done|].
  pose proof (cnt_nonneg app_past (qpcs s)). pose proof (cnt_nonneg out_done (qpcs s)). simpl length in *.
  destruct (Hsn t _ tmp len Hp) as [Ht ->]. cbn [snapshot] in Ht. unfold queue_dequeue in Hq. rewrite Ht in Hq. cbn [mbind option_bind] in Hq.
  rewrite Hq, Hl, wrap64_small by lia. replace (Z.of_nat (Datatypes.S (length ys)) - 1) with (Z.of_nat (length ys)) by lia. split; [done|].
  pose proof (cl_mode _ _ _ _ Hc t _ Hp eq_refl) as Hw.
  split; simpl; q_counts Hp; try lia; try done; try (by eapply snaps_alone).
  - rewrite (replay_snoc _ _ _ Hr). simpl. by rewrite decide_True.
  - intros Hcl. specialize (Ho Hcl). lia.
  - by eapply lock_ok_same; [exact Hlk|exact Hp|].
  - by eapply holder_insert.
  - eapply claims_update; [exact Hc|exact Hp|by left|done| |congruence].
    intros y Ay Hy _. destruct (S y ltac:(set_solver)) as [E1 E2]. split; [|set_solver]. unfold allocated. by rewrite E1, E2.
Qed.

Lemma q_remove_ok walked n s xs t e p len : 0 <= n <= 2 ^ 30 ->
  minv walked n s xs -> qpcs s !! t = Some (QRun (QRemove e) (QStore p len)) ->
  exists ys h, Z.of_nat (length ys) = Z.of_nat (length xs) - 1 /\
    remove_at (mq_heads (mq s)) len e p = Some (h, Z.of_nat (length ys)) /\
    minv walked n (QSys (set_list (mq s) h (Z.of_nat (length ys))) (<[t := QRun (QRemove e) (QUnlock e)]> (qpcs s)) (trace s ++ [Removed e])) ys.
Proof.
  intros Hn [Hr Hd Hl He Hf Hroom Hdata Ho Hlk Hh Hc Hsn] Hp.
  destruct (cl_remove _ _ _ _ Hc t _ e Hp eq_refl) as [Hw Hin]. apply list_elem_of_split in Hin as (l & r & ->).
  destruct (queue_remove_dlist _ (mq_length (mq s)) _ _ _ _ Hd) as (h & Hq & D & A & S). exists (l ++ r), h.
  pose proof (cnt_nonneg app_past (qpcs s)). pose proof (cnt_nonneg out_done (qpcs s)).
  assert (Z.of_nat (length (l ++ r)) = Z.of_nat (length (l ++ e :: r)) - 1) as Hlen by (rewrite !length_app; simpl; lia).
  destruct (Hsn t _ p len Hp) as [Ht ->]. cbn [snapshot] in Ht. unfold queue_remove in Hq. rewrite Ht in Hq. cbn [mbind option_bind] in Hq.
  split; [done|]. rewrite Hq, Hl, wrap64_small, <- Hlen by lia. split; [done|].
  assert ((e ∉ l) /\ (e ∉ r)) as [Hel Her].
  { destruct Hd as [Hnd _]. rewrite app_comm_cons in Hnd. apply NoDup_mid in Hnd as (? & ? & _). set_solver. }
  split; simpl; q_counts Hp; try lia; try done; try (by eapply snaps_alone).
  - rewrite (replay_snoc _ _ _ Hr). simpl. rewrite decide_True by set_solver. by rewrite remove_elem_mid.
  - intros Hcl. specialize (Ho Hcl). lia.
  - by eapply lock_ok_same; [exact Hlk|exact Hp|].
  - by eapply holder_insert.
  - eapply claims_update; [exact Hc|exact Hp|by left|done| |].
    + intros y Ay Hy _. destruct (S y ltac:(set_solver)) as [E1 E2]. split; [|set_solver]. unfold allocated. by rewrite E1, E2.
    + intros y _ Hy Hne. assert (y <> e) by (intros ->; by apply (Hne true)). set_solver.
Qed.
(** *** The other steps change a semaphore, the mutex or [closed] *)

Ltac q_case Hp Ho Hlk Hh Hc Hsn :=
  split; simpl; q_counts Hp; try lia; try done;
  first [ by eapply lock_ok_same; [exact Hlk|exact Hp|]
        | by eapply lock_ok_take; [exact Hlk|exact Hp|]
        | by eapply lock_ok_release; [exact Hlk|exact Hp| |]
        | by eapply holder_insert
        | by eapply holder_take
        | intros Hcl; specialize (Ho Hcl); lia
        | congruence
        | eapply claims_move; [exact Hc|exact Hp|by (left + right)|done]
        | by eapply snaps_move; [exact Hsn|exact Hp|]
        | idtac ].

Lemma minv_append walked n s xs t fails e ph m p' ev : 0 <= n <= 2 ^ 30 -> posts_empty s <= 2 ^ 29 -> posts_full s <= 2 ^ 29 ->
  minv walked n s xs -> qpcs s !! t = Some (QRun (QAppend e) ph) -> mqueue_append t fails e ph (mq s) = QNext m p' ev ->
  exists ys, minv walked n (QSys m (<[t := p']> (qpcs s)) (trace s ++ option_list ev)) ys.
Proof.
  intros Hn Hpe Hpf Hi Hp Hs. pose proof Hi as [Hr Hd Hl He Hf Hroom Hdata Ho Hlk Hh Hc Hsn].
  pose proof (cnt_nonneg app_res (qpcs s)). pose proof (cnt_nonneg out_done (qpcs s)).
  pose proof (cnt_nonneg out_res (qpcs s)). pose proof (cnt_nonneg app_done (qpcs s)). pose proof (cnt_nonneg app_past (qpcs s)).
  destruct ph; simpl in Hs.
  - destruct fails; simplify_eq; [exists xs; q_case Hp Ho Hlk Hh Hc Hsn|].
    destruct (sem_try (sem_empty (mq s))) as [v|] eqn:E; simplify_eq. apply sem_try_Some in E. exists xs. q_case Hp Ho Hlk Hh Hc Hsn.
  - pose proof (cnt_mono app_past app_res (<[t := QRun (QAppend e) QLock]> (qpcs s)) ltac:(by intros [|[] []| | | |])) as M.
    destruct (closed (mq s)) eqn:E; simplify_eq; exists xs; [q_case Hp Ho Hlk Hh Hc Hsn|]. specialize (Ho eq_refl). q_case Hp Ho Hlk Hh Hc Hsn.
  - destruct fails; simplify_eq; [exists xs; q_case Hp Ho Hlk Hh Hc Hsn|].
    unfold lock_mutex in Hs. destruct (mutex (mq s)) eqn:E; simplify_eq. exists xs. q_case Hp Ho Hlk Hh Hc Hsn.
  - destruct (load_prev (mq_heads (mq s)) queue) as [tmp|] eqn:E; simplify_eq. exists xs. q_case Hp Ho Hlk Hh Hc Hsn.
    eapply snaps_move; [exact Hsn|exact Hp|]. by intros ? ? ? [= <- <- <-].
  - destruct (q_append_ok walked n s xs t e _ _ Hn Hi Hp) as (h & Hq & Hi'). rewrite Hq in Hs. simplify_eq. by exists (xs ++ [e]).
  - simplify_eq. exists xs. q_case Hp Ho Hlk Hh Hc Hsn.
  - simplify_eq. pose proof (cnt_pos app_done _ _ _ Hp eq_refl). exists xs.
    rewrite sem_post_small by (unfold SEM_VALUE_MAX; lia). q_case Hp Ho Hlk Hh Hc Hsn.
  - simplify_eq. pose proof (cnt_pos app_res _ _ _ Hp eq_refl). exists xs.
    rewrite sem_post_small by (unfold SEM_VALUE_MAX; lia). q_case Hp Ho Hlk Hh Hc Hsn.
Qed.
(** [mqueue_dequeue] and [mqueue_remove] differ in their list operation only. *)
Lemma minv_out walked n s xs t fails c ph m p' ev :
  (forall e, c <> QAppend e) ->
  0 <= n <= 2 ^ 30 -> posts_empty s <= 2 ^ 29 -> posts_full s <= 2 ^ 29 ->
  minv walked n s xs -> qpcs s !! t = Some (QRun c ph) -> qstep t fails (QRun c ph) (mq s) = QNext m p' ev ->
  exists ys, minv walked n (QSys m (<[t := p']> (qpcs s)) (trace s ++ option_list ev)) ys.
Proof.
  intros Hna Hn Hpe Hpf Hi Hp Hs. pose proof Hi as [Hr Hd Hl He Hf Hroom Hdata Ho Hlk Hh Hc Hsn].
  pose proof (cnt_nonneg app_res (qpcs s)). pose proof (cnt_nonneg out_done (qpcs s)).
  pose proof (cnt_nonneg out_res (qpcs s)). pose proof (cnt_nonneg app_done (qpcs s)). pose proof (cnt_nonneg app_past (qpcs s)). pose proof (cnt_nonneg out_past (qpcs s)).
  destruct ph.
  - destruct c; [by destruct (Hna elem)|..]; simpl in Hs; (destruct fails; simplify_eq; [exists xs; q_case Hp Ho Hlk Hh Hc Hsn|]);
      (destruct (sem_try (sem_full (mq s))) as [v|] eqn:E; simplify_eq; apply sem_try_Some in E; exists xs; q_case Hp Ho Hlk Hh Hc Hsn).
  - pose proof (cnt_mono out_past out_res (<[t := QRun c QLock]> (qpcs s)) ltac:(by intros [|[] []| | | |])) as M.
    destruct c; [by destruct (Hna elem)|..]; simpl in Hs; (destruct (closed (mq s)) eqn:E; simplify_eq; exists xs; [q_case Hp Ho Hlk Hh Hc Hsn|]);
      specialize (Ho eq_refl); q_case Hp Ho Hlk Hh Hc Hsn.
  - destruct c; [by destruct (Hna elem)|..]; simpl in Hs; (destruct fails; simplify_eq; [exists xs; q_case Hp Ho Hlk Hh Hc Hsn|]);
      unfold lock_mutex in Hs; (destruct (mutex (mq s)) eqn:E; simplify_eq; exists xs; q_case Hp Ho Hlk Hh Hc Hsn).
  - destruct c as [e| |e]; [by destruct (Hna e)|..]; simpl in Hs.
    + destruct (load_next (mq_heads (mq s)) queue) as [tmp|] eqn:E; simplify_eq. exists xs. q_case Hp Ho Hlk Hh Hc Hsn.
      eapply snaps_move; [exact Hsn|exact Hp|]. by intros ? ? ? [= <- <- <-].
    + destruct (load_prev (mq_heads (mq s)) e) as [tmp|] eqn:E; simplify_eq. exists xs. q_case Hp Ho Hlk Hh Hc Hsn.
      eapply snaps_move; [exact Hsn|exact Hp|]. by intros ? ? ? [= <- <- <-].
  - destruct c as [e| |e]; [by destruct (Hna e)|..]; simpl in Hs.
    + destruct (q_dequeue_ok walked n s xs t _ _ Hn Hi Hp) as (x & ys & h & -> & Hq & Hi'). rewrite Hq in Hs. simplify_eq. by exists ys.
    + destruct (q_remove_ok walked n s xs t e _ _ Hn Hi Hp) as (ys & h & _ & Hq & Hi'). rewrite Hq in Hs. simplify_eq. by exists ys.
  - destruct c; [by destruct (Hna elem)|..]; simpl in Hs; simplify_eq; exists xs; q_case Hp Ho Hlk Hh Hc Hsn.
  - destruct c; [by destruct (Hna elem)|..]; simpl in Hs; simplify_eq; pose proof (cnt_pos out_done _ _ _ Hp eq_refl); exists xs;
      (rewrite sem_post_small by (unfold SEM_VALUE_MAX; lia)); q_case Hp Ho Hlk Hh Hc Hsn.
  - destruct c; [by destruct (Hna elem)|..]; simpl in Hs; simplify_eq; pose proof (cnt_pos out_res _ _ _ Hp eq_refl); exists xs;
      (rewrite sem_post_small by (unfold SEM_VALUE_MAX; lia)); q_case Hp Ho Hlk Hh Hc Hsn.
Qed.

Lemma minv_close walked n s xs t p m p' ev : 0 <= n <= 2 ^ 30 -> posts_empty s <= 2 ^ 29 -> posts_full s <= 2 ^ 29 ->
  minv walked n s xs -> qpcs s !! t = Some p -> mqueue_close p (mq s) = QNext m p' ev ->
  minv walked n (QSys m (<[t := p']> (qpcs s)) (trace s ++ option_list ev)) xs.
Proof.
  intros Hn Hpe Hpf Hi Hp Hs. pose proof Hi as [Hr Hd Hl He Hf Hroom Hdata Ho Hlk Hh Hc Hsn].
  pose proof (cnt_nonneg app_res (qpcs s)). pose proof (cnt_nonneg out_done (qpcs s)).
  pose proof (cnt_nonneg out_res (qpcs s)). pose proof (cnt_nonneg app_done (qpcs s)). pose proof (cnt_nonneg app_past (qpcs s)).
  destruct p as [| |nc np|nc np|np|]; simplify_eq/=.
  - q_case Hp Ho Hlk Hh Hc Hsn.
  - pose proof (cnt_pos closing _ _ _ Hp eq_refl).
    destruct nc; simplify_eq/=; [|rewrite sem_post_small by (unfold SEM_VALUE_MAX; lia)]; q_case Hp Ho Hlk Hh Hc Hsn.
    by rewrite (replay_snoc _ _ _ Hr).
  - pose proof (cnt_pos closing _ _ _ Hp eq_refl).
    destruct np; simplify_eq/=; [|rewrite sem_post_small by (unfold SEM_VALUE_MAX; lia)]; q_case Hp Ho Hlk Hh Hc Hsn.
    by rewrite (replay_snoc _ _ _ Hr).
Qed.

Lemma minv_step walked n s s' xs : 0 <= n <= 2 ^ 30 -> posts_empty s <= 2 ^ 29 -> posts_full s <= 2 ^ 29 ->
  minv walked n s xs -> mstep walked s s' -> exists ys, minv walked n s' ys.
Proof.
  intros Hn Hpe Hpf Hi Hs. pose proof Hi as [Hr Hd Hl He Hf Hroom Hdata Ho Hlk Hh Hc Hsn].
  destruct Hs as [t c Hp Hcall|t nc np Hp|t fails p m p' ev Hp Hs|h Hh'].
  - exists xs. pose proof (claims_call walked s xs t c Hc (contents_eq s xs Hr) Hp Hcall) as Hc'.
    split; simpl; try done; try (by eapply lock_ok_same; [exact Hlk|exact Hp|]); try (by eapply holder_insert);
      try (by eapply snaps_move; [exact Hsn|exact Hp|]); destruct c; q_counts Hp; try lia; intros Hcl; specialize (Ho Hcl); lia.
  - exists xs. q_case Hp Ho Hlk Hh Hc Hsn.
  - destruct p as [|c ph|nc np|nc np|np|r].
    + done.
    + destruct c as [e| |e]; [by eapply minv_append|..]; by eapply minv_out; [| | | |exact Hi|exact Hp|exact Hs].
    + exists xs. by eapply minv_close.
    + exists xs. by eapply minv_close.
    + exists xs. by eapply minv_close.
    + exists xs. simplify_eq/=. q_case Hp Ho Hlk Hh Hc Hsn.
  - exists xs. rewrite (contents_eq s xs Hr) in Hh'. split; simpl; try done.
    + destruct Hd as [Hnd Hlinks]. split; [done|]. eapply links_frame; [| |exact Hlinks]; intros p Hp; apply Hh'; set_solver.
    + destruct Hc as [Ca Cr Cd Cm]. split; try done. intros t p e Hp Hcl. destruct (Ca t p e Hp Hcl) as [A Hin]. split; [|done].
      destruct (Hh' e) as [E1 E2]; [right; right; by exists t, p, false|]. unfold allocated. by rewrite E1, E2.
    + intros t c tmp len Hp. destruct (Hsn t c tmp len Hp) as [<- ->]. split; [|done]. unfold snapshot, load_prev, load_next.
      destruct c as [e| |e]; (apply Hh'; (by left) || (right; right; by exists t, (QRun (QRemove e) (QStore tmp (mq_length (mq s)))), true)).
Qed.

Lemma posts_mono walked s s' : mstep walked s s' -> posts_empty s <= posts_empty s' /\ posts_full s <= posts_full s'.
Proof.
  destruct 1; unfold posts_empty, posts_full; simpl; rewrite ?cnt_app; try lia.
  pose proof (cnt_nonneg is_post_empty (option_list e)). pose proof (cnt_nonneg is_post_full (option_list e)). lia.
Qed.

Lemma mreachable_inv walked n k s : 0 <= n <= 2 ^ 30 -> mreachable walked n k s -> posts_empty s <= 2 ^ 29 -> posts_full s <= 2 ^ 29 ->
  exists xs, minv walked n s xs.
Proof.
  intros Hn (h & m & A & Hm & Hr). revert s Hr. apply (rtc_ind_r (fun s => posts_empty s <= 2 ^ 29 -> posts_full s <= 2 ^ 29 -> exists xs, minv walked n s xs)).
  - intros _ _. exists []. unfold mqueue_init in Hm. destruct (queue_init_dlist h queue A) as (h' & Hq & D & _). rewrite Hq in Hm. simplify_eq/=.
    unfold sem_init. rewrite !wrap32_small by lia.
    split; unfold posts_empty, posts_full; simpl; rewrite ?cnt_replicate by done; try done; try lia.
    + intros t p Hp. apply lookup_replicate in Hp as [-> _]. done.
    + split; intros *; rewrite ?lookup_replicate; naive_solver.
    + intros t c tmp len [Hc _]%lookup_replicate. done.
  - intros s1 s _ Hs IH Hpe Hpf. destruct (posts_mono _ _ _ Hs). destruct (IH ltac:(lia) ltac:(lia)) as [xs Hi]. eapply minv_step; [done| | |exact Hi|exact Hs]; lia.
Qed.
(** No thread of [s] can take a step of its own, no call failing. *)
Definition qstuck (s : qsys) : Prop :=
  forall t p, qpcs s !! t = Some p -> forall m p' e, qstep t None p (mq s) <> QNext m p' e.

Lemma list_step_ok walked n s xs t c ph : 0 <= n <= 2 ^ 30 -> minv walked n s xs -> qpcs s !! t = Some (QRun c ph) ->
  ph = QList \/ (exists tmp len, ph = QStore tmp len) -> forall fails, exists m p e, qstep t fails (QRun c ph) (mq s) = QNext m p e.
Proof.
  intros Hn Hi Hp Hph fails. destruct Hph as [->|(tmp & len & ->)].
  - assert (is_Some (snapshot c (mq_heads (mq s)))) as [tmp Ht]; [|destruct c; cbn [snapshot qstep mqueue_append mqueue_dequeue mqueue_remove] in *; rewrite Ht; eauto].
    pose proof (mi_list _ _ _ _ Hi) as [_ Hl]. destruct c as [e| |e]; cbn [snapshot].
    + destruct (links_last _ _ _ _ Hl) as (l & H & _). by exists l.
    + destruct (links_first _ _ _ _ Hl) as (l & H & _). by exists l.
    + destruct (cl_remove _ _ _ _ (mi_claims _ _ _ _ Hi) t _ e Hp eq_refl) as [_ Hin]. apply list_elem_of_split in Hin as (l & r & ->).
      apply links_app in Hl as [Hl _]. destruct (links_last _ _ _ _ Hl) as (x & H & _). by exists x.
  - destruct c as [e| |e]; simpl.
    + destruct (q_append_ok walked n s xs t e _ _ Hn Hi Hp) as (h & -> & _). eauto.
    + destruct (q_dequeue_ok walked n s xs t _ _ Hn Hi Hp) as (x & ys & h & _ & -> & _). eauto.
    + destruct (q_remove_ok walked n s xs t e _ _ Hn Hi Hp) as (ys & h & _ & -> & _). eauto.
Qed.

Lemma qstuck_unlocked walked n s xs : 0 <= n <= 2 ^ 30 -> minv walked n s xs -> qstuck s -> mutex (mq s) = None.
Proof.
  intros Hn Hi Hst. destruct (mutex (mq s)) as [t|] eqn:E; [|done]. exfalso.
  destruct (mi_holder _ _ _ _ Hi t E) as [p Hp]. pose proof (proj2 (mi_lock _ _ _ _ Hi t p Hp) E) as Hcs.
  destruct p as [|c []| | | |]; try done.
  - destruct (list_step_ok walked n s xs t c _ Hn Hi Hp (or_introl eq_refl) None) as (m & p & e & Hs). by eapply Hst.
  - destruct (list_step_ok walked n s xs t c _ Hn Hi Hp ltac:(right; eauto) None) as (m & p & e & Hs). by eapply Hst.
  - by destruct c; eapply Hst.
Qed.

(** In a stuck system every thread is idle or waits on one of the semaphores. *)
Lemma qstuck_threads walked n s xs t p : 0 <= n <= 2 ^ 30 -> minv walked n s xs -> qstuck s -> qpcs s !! t = Some p ->
  p = QIdle \/ exists c, p = QRun c QWait.
Proof.
  intros Hn Hi Hst Hp. pose proof (qstuck_unlocked walked n s xs Hn Hi Hst) as Hl.
  destruct p as [|c ph|nc np|nc np|np|r]; [by left| |exfalso..].
  - right. exists c. destruct ph; [done|exfalso..].
    + destruct c, (closed (mq s)) eqn:E; eapply (Hst _ _ Hp); simpl; rewrite E; reflexivity.
    + destruct c; eapply (Hst _ _ Hp); simpl; unfold lock_mutex; rewrite Hl; reflexivity.
    + destruct (list_step_ok walked n s xs t c _ Hn Hi Hp (or_introl eq_refl) None) as (m & p & e & Hs). by eapply Hst.
    + destruct (list_step_ok walked n s xs t c _ Hn Hi Hp ltac:(right; eauto) None) as (m & p & e & Hs). by eapply Hst.
    + destruct c; by eapply (Hst _ _ Hp).
    + destruct c; by eapply (Hst _ _ Hp).
    + destruct c; by eapply (Hst _ _ Hp).
  - by eapply (Hst _ _ Hp).
  - destruct nc; by eapply (Hst _ _ Hp).
  - destruct np; by eapply (Hst _ _ Hp).
  - by eapply (Hst _ _ Hp).
Qed.

Lemma qstuck_counts walked n s xs : 0 <= n <= 2 ^ 30 -> minv walked n s xs -> qstuck s ->
  sem_empty (mq s) = n + posts_empty s - Z.of_nat (length xs) /\ sem_full (mq s) = Z.of_nat (length xs) + posts_full s /\
  Z.of_nat (length xs) <= n.
Proof.
  intros Hn Hi Hst. pose proof Hi as [Hr Hd Hl [_ He] [_ Hf] Hroom Hdata Ho Hlk Hh Hc Hsn].
  assert (forall P : qpc -> bool, P QIdle = false -> (forall c, P (QRun c QWait) = false) -> cnt P (qpcs s) = 0) as Hz.
  { intros P H1 H2. apply cnt_zero. intros t p Hp. destruct (qstuck_threads walked n s xs t p Hn Hi Hst Hp) as [->|[c ->]]; auto. }
  rewrite !Hz in He, Hf, Hroom; try done; try (by intros []). lia.
Qed.
End mqueue.

(** ** Executions given as lists of actions *)

Inductive maction := ACall (t : nat) (c : qcall) | AClose (t nc np : nat) | ARun (t : nat).

#[global] Instance allocated_dec h p : Decision (allocated h p).
Proof. unfold allocated. apply _. Defined.

Definition claimedb (s : qsys) (e : ptr) : bool := existsb (fun p => match claim p with Some (_, x) => bool_decide (x = e) | None => false end) (qpcs s).

Lemma claimedb_spec s e : claimedb s e = false -> ~ claimed s e.
Proof.
  intros Hb (t & p & b & Hp & Hc). apply not_true_iff_false in Hb. apply Hb, existsb_exists. exists p.
  split; [by apply list_elem_of_In; eapply list_elem_of_lookup_2|]. rewrite Hc. by apply bool_decide_eq_true.
Qed.

Definition call_okb (queue : ptr) (walked : bool) (s : qsys) (c : qcall) : bool :=
  match c with
  | QAppend e => bool_decide (allocated (mq_heads (mq s)) e) && bool_decide (e ∉ queue :: contents s) && negb (claimedb s e)
  | QDequeue => negb walked
  | QRemove e => walked && bool_decide (e ∈ contents s) && negb (claimedb s e)
  end.

Lemma call_okb_spec queue walked s c : call_okb queue walked s c = true -> call_ok queue walked s c.
Proof.
  destruct c as [e| |e]; simpl; intros H; bool_prop; rewrite ?bool_decide_eq_true in *; split_and?; try done; by apply claimedb_spec.
Qed.

Definition mperform (queue : ptr) (walked : bool) (s : qsys) (a : maction) : option qsys :=
  match a with
  | ACall t c =>
      p ← qpcs s !! t;
      match p with QIdle => if call_okb queue walked s c then Some (QSys (mq s) (<[t := QRun c QWait]> (qpcs s)) (trace s)) else None | _ => None end
  | AClose t nc np => p ← qpcs s !! t; match p with QIdle => Some (QSys (mq s) (<[t := QClose nc np]> (qpcs s)) (trace s)) | _ => None end
  | ARun t =>
      p ← qpcs s !! t;
      match qstep queue t None p (mq s) with QNext m p' e => Some (QSys m (<[t := p']> (qpcs s)) (trace s ++ option_list e)) | _ => None end
  end.

Fixpoint mschedule (queue : ptr) (walked : bool) (s : qsys) (l : list maction) : option qsys :=
  match l with [] => Some s | a :: l => s ← mperform queue walked s a; mschedule queue walked s l end.

Lemma mperform_step queue walked s a s' : mperform queue walked s a = Some s' -> mstep queue walked s s'.
Proof.
  destruct a as [t c|t nc np|t]; simpl; destruct (qpcs s !! t) as [p|] eqn:Hp; try done; cbn [mbind option_bind].
  - destruct p; try done. destruct (call_okb queue walked s c) eqn:E; [|done]. intros [= <-]. apply mstep_call; [done|]. by apply call_okb_spec.
  - destruct p; try done. intros [= <-]. by apply mstep_close.
  - destruct (qstep queue t None p (mq s)) eqn:E; try done. intros [= <-]. by eapply mstep_run.
Qed.

Lemma mschedule_reachable queue walked l : forall s s', mschedule queue walked s l = Some s' -> rtc (mstep queue walked) s s'.
Proof.
  induction l as [|a l IH]; simpl; intros s s'; [by intros [= <-]|]. destruct (mperform queue walked s a) as [s1|] eqn:E; [|done].
  intros H. eapply rtc_l; [by eapply mperform_step|by apply IH].
Qed.

(** ** Theorems *)

(** C15. Whatever the interleaving of appends, removals, closes and interrupted
    calls, a thread being stopped between the reads and the writes of a list
    operation included, the thread-safe queue is linearisable: the list in
    memory is the abstract queue after the operations done so far, in their
    order; it holds at most [max_size] elements, [length] counts them, at most
    one thread is between lock and unlock, what a thread there has read is
    still so, and no thread accesses memory it should not.  (For a node
    appended that is the caller's own, a queue that is either dequeued or
    walked and removed from, and at most 2^29 closing posts.) *)
Theorem mqueue_linearizable (queue : ptr) (walked : bool) (max_size : Z) (nthreads : nat) (s : qsys) :
  0 <= max_size <= 2 ^ 30 -> mreachable queue walked max_size nthreads s -> posts_empty s <= 2 ^ 29 -> posts_full s <= 2 ^ 29 ->
  exists xs, replay (trace s) = Some xs /\ dlist (mq_heads (mq s)) queue xs /\ mq_length (mq s) = Z.of_nat (length xs) /\
    Z.of_nat (length xs) <= max_size /\
    (forall t1 t2 p1 p2, qpcs s !! t1 = Some p1 -> qpcs s !! t2 = Some p2 -> q_in_cs p1 = true -> q_in_cs p2 = true -> t1 = t2) /\
    (forall t c tmp len, qpcs s !! t = Some (QRun c (QStore tmp len)) -> snapshot queue c (mq_heads (mq s)) = Some tmp /\ len = mq_length (mq s)) /\
    forall t p fails, qpcs s !! t = Some p -> qstep queue t fails p (mq s) <> QUndefined.
Proof.
  intros Hn Hr He Hf. destruct (mreachable_inv queue walked max_size nthreads s Hn Hr He Hf) as [xs Hi]. exists xs.
  pose proof Hi as [Hrep Hd Hl _ _ Hroom _ _ Hlk _ _ Hsn].
  pose proof (cnt_nonneg app_past (qpcs s)). pose proof (cnt_nonneg out_done (qpcs s)). split_and!; [done|done|done|lia| |exact Hsn|].
  { intros t1 t2 p1 p2 H1 H2 C1%(Hlk t1 p1 H1) C2%(Hlk t2 p2 H2). congruence. }
  intros t p fails Hp Hu. destruct p as [|c ph|nc np|nc np|np|r]; try done; [|by destruct nc|by destruct np].
  destruct ph; [| | |destruct (list_step_ok queue walked max_size s xs t c _ Hn Hi Hp (or_introl eq_refl) fails) as (m & p & e & Hs); congruence
    |destruct (list_step_ok queue walked max_size s xs t c _ Hn Hi Hp ltac:(right; eauto) fails) as (m & p & e & Hs); congruence|..];
    destruct c; simpl in Hu; unfold lock_mutex in Hu; repeat case_match; done.
Qed.

(** What the mutex is for: two appends that both read the list before either
    has written lose the first node, and the length counts one. *)
Theorem unlocked_append_loses (h : heads) (queue x y : ptr) :
  dlist h queue [] -> allocated h x -> allocated h y -> NoDup [queue; x; y] ->
  exists tmp h1 h2, load_prev h queue = Some tmp /\ append_at h 0 queue x tmp = Some (h1, 1) /\ append_at h1 0 queue y tmp = Some (h2, 1) /\
    h_next h2 !! queue = Some y /\ h_next h2 !! y = Some queue.
Proof.
  intros [_ [H1 H2]] [[xn Hxn] [xp Hxp]] [[yn Hyn] [yp Hyp]] Hnd. rewrite !NoDup_cons, !not_elem_of_cons in Hnd. destruct Hnd as ((Hqx & Hqy & _) & (Hxy & _) & _).
  exists queue. eexists _, _. split; [exact H2|]. split; [run_queue; reflexivity|]. split; [run_queue; reflexivity|].
  cbn [h_next h_prev]. split; simplify_map_eq; done.
Qed.

(** C23. [mqueue_close] with at least one consumer and one producer unblocks
    every thread: once it has posted both semaphores, a system in which no
    thread can go on has all its threads idle. *)
Theorem mqueue_close_unblocks (queue : ptr) (walked : bool) (max_size : Z) (nthreads : nat) (s : qsys) (t : nat) (p : qpc) :
  0 <= max_size <= 2 ^ 30 -> mreachable queue walked max_size nthreads s -> 1 <= posts_empty s <= 2 ^ 29 -> 1 <= posts_full s <= 2 ^ 29 ->
  qstuck queue s -> qpcs s !! t = Some p -> p = QIdle.
Proof.
  intros Hn Hr He Hf Hst Hp. destruct (mreachable_inv queue walked max_size nthreads s Hn Hr ltac:(lia) ltac:(lia)) as [xs Hi].
  destruct (qstuck_counts queue walked max_size s xs Hn Hi Hst) as (H1 & H2 & H3).
  destruct (qstuck_threads queue walked max_size s xs t p Hn Hi Hst Hp) as [->|[c ->]]; [done|exfalso].
  destruct c; (eapply (Hst t _ Hp); simpl; unfold sem_try; rewrite (proj2 (Z.ltb_lt 0 _)) by lia; reflexivity).
Qed.

(** Emptying a queue with [queue_walk_dequeue] terminates, gives every
    element once and in order and leaves an empty queue; but the last
    [queue_dequeue], which finds the queue empty, still decrements [length],
    which wraps around to [2^64 - 1]. *)
Theorem queue_drain_underflows (h : heads) (queue : ptr) (xs : list ptr) :
  dlist h queue xs ->
  exists h', queue_walk_dequeue (length xs) h (Z.of_nat (length xs)) queue = Some (xs, h', 2 ^ 64 - 1) /\ dlist h' queue [].
Proof.
  intros D. destruct (queue_walk_dequeue_ok xs h (Z.of_nat (length xs)) queue D) as (h' & Hw & D' & _). exists h'. split; [|done].
  rewrite Hw, Z.sub_diag. reflexivity.
Qed.

(** The walk of [read_flowreq] and [read_flowstate] holds no lock: when
    another thread removes and frees the element after the current one, the
    next turn of the walk reads freed memory. *)
Theorem walk_reads_freed (h : heads) (len : Z) (queue x y : ptr) (xs : list ptr) :
  dlist h queue (x :: y :: xs) ->
  exists h1 len1 h2, walk_start h queue = Some (x, y) /\ queue_remove h len y = Some (h1, len1) /\ free_node h1 y = Some h2 /\
    dlist h2 queue (x :: xs) /\ walk_next h2 y = None.
Proof.
  intros D. pose proof D as [Hnd Hl]. destruct Hl as (H1 & _ & H2 & _).
  destruct (queue_remove_dlist h len queue [x] y xs D) as (h1 & Hr & D1 & A & _).
  eexists h1, _, _. rewrite (free_node_ok _ _ A). split_and!; [by run_queue|exact Hr|done| |].
  - eapply dlist_frame; [apply free_same| |exact D1]. intros p Hp%elem_of_cons. rewrite !NoDup_cons in Hnd. set_solver.
  - unfold walk_next, load_next. simpl. by rewrite lookup_delete_eq.
Qed.

(** ** Executions *)

(** A heap with the queue at 2 and nodes 3, 4, 5. *)
Definition qheap : heads := let m := list_to_map [(2%positive, NULL); (3%positive, NULL); (4%positive, NULL); (5%positive, NULL)] in Heads m m.
Definition qstart (max_size : Z) (n : nat) : qsys :=
  QSys (default (QueueThread qheap 0 false None 0 0) (mqueue_init 2%positive qheap max_size)) (replicate n QIdle) [].
Definition turns (t n : nat) : list maction := replicate n (ARun t).

(** Two nodes are appended by one thread, the first is dequeued by another,
    interleaved. *)
Definition qrun : list maction :=
  ACall 0 (QAppend 3%positive) :: turns 0 8 ++ ACall 0 (QAppend 4%positive) :: turns 0 5 ++ ACall 1 QDequeue :: turns 1 2 ++ turns 0 1 ++ turns 1 3 ++ turns 0 2.
Definition qmid : qsys := default (qstart 2 2) (mschedule 2%positive false (qstart 2 2) qrun).

Lemma qmid_reachable : mreachable 2%positive false 2 2 qmid.
Proof.
  exists qheap, (mq (qstart 2 2)). split_and!; [split; eexists; reflexivity|reflexivity|].
  apply (mschedule_reachable 2%positive false qrun). vm_compute. reflexivity.
Qed.

Lemma mqueue_linearizable_witness :
  exists xs, replay (trace qmid) = Some xs /\ dlist (mq_heads (mq qmid)) 2%positive xs /\ mq_length (mq qmid) = Z.of_nat (length xs) /\
    Z.of_nat (length xs) <= 2 /\
    (forall t1 t2 p1 p2, qpcs qmid !! t1 = Some p1 -> qpcs qmid !! t2 = Some p2 -> q_in_cs p1 = true -> q_in_cs p2 = true -> t1 = t2) /\
    (forall t c tmp len, qpcs qmid !! t = Some (QRun c (QStore tmp len)) -> snapshot 2%positive c (mq_heads (mq qmid)) = Some tmp /\ len = mq_length (mq qmid)) /\
    forall t p fails, qpcs qmid !! t = Some p -> qstep 2%positive t fails p (mq qmid) <> QUndefined.
Proof. apply (mqueue_linearizable 2%positive false 2 2 qmid); [lia|apply qmid_reachable|vm_compute; discriminate|vm_compute; discriminate]. Defined.

(** A consumer waits on an empty queue; another thread closes it. *)
Definition qclose : list maction := ACall 0 QDequeue :: AClose 1 1 1 :: turns 1 6 ++ turns 0 4.
Definition qclosed : qsys := default (qstart 1 2) (mschedule 2%positive false (qstart 1 2) qclose).

Lemma mqueue_close_unblocks_witness : qpcs qclosed = [QIdle; QIdle] /\ forall p, qpcs qclosed !! 0%nat = Some p -> p = QIdle.
Proof.
  split; [vm_compute; reflexivity|]. intros p. apply (mqueue_close_unblocks 2%positive false 1 2 qclosed 0 p); [lia| | | |].
  - exists qheap, (mq (qstart 1 2)). split_and!; [split; eexists; reflexivity|reflexivity|].
    apply (mschedule_reachable 2%positive false qclose). vm_compute. reflexivity.
  - vm_compute. split; discriminate.
  - vm_compute. split; discriminate.
  - intros t q Hq. assert (q = QIdle) as ->; [|done]. assert (qpcs qclosed = [QIdle; QIdle]) as E by (vm_compute; reflexivity). rewrite E in Hq.
    destruct t as [|[|t]]; simplify_eq/=; done.
Defined.

(** The nodes 3 and 4 in the queue 2. *)
Definition qtwo : heads :=
  Heads (list_to_map [(2%positive, 3%positive); (3%positive, 4%positive); (4%positive, 2%positive)])
    (list_to_map [(3%positive, 2%positive); (4%positive, 3%positive); (2%positive, 4%positive)]).
Lemma qtwo_dlist : dlist qtwo 2%positive [3%positive; 4%positive].
Proof. split; [by repeat constructor; set_solver|by vm_compute]. Qed.

Lemma queue_drain_underflows_witness :
  exists h', queue_walk_dequeue 2 qtwo 2 2%positive = Some ([3%positive; 4%positive], h', 2 ^ 64 - 1) /\ dlist h' 2%positive [].
Proof. apply (queue_drain_underflows qtwo 2%positive [3%positive; 4%positive]). apply qtwo_dlist. Defined.

Lemma walk_reads_freed_witness :
  exists h1 len1 h2, walk_start qtwo 2%positive = Some (3%positive, 4%positive) /\ queue_remove qtwo 2 4%positive = Some (h1, len1) /\
    free_node h1 4%positive = Some h2 /\ dlist h2 2%positive [3%positive] /\ walk_next h2 4%positive = None.
Proof. apply (walk_reads_freed qtwo 2 2%positive 3%positive 4%positive []). apply qtwo_dlist. Defined.
