(* ===== verification/Dns.v ===== *)
(** * DNS client library (lib/srdns.h, lib/srdns.c)

    DNS messages are lists of bytes.  The macros and functions of c-ares, a
    library outside the repository, are class [AresDns] and parameters, with
    the wire format of RFC 1035 and RFC 6891 as laws. *)

From S2P Require Import Prelude Misc Netlink.
From Stdlib Require Import Ascii.

(** ** Bytes *)

(** Big-endian integers of [n] bytes. *)
Definition be (n : nat) (z : Z) : list Z := rev (le n z).
Definition of_be (l : list Z) : Z := of_le (rev l).

Definition splice (o : nat) (bs m : list Z) : list Z := take o m ++ bs ++ drop (o + length bs) m.

(** The memory behind a pointer to offset [o] of [m], of which the code
    accesses [n] bytes. *)
Definition view (m : list Z) (o n : nat) : option (list Z) := if decide (o + n <= length m)%nat then Some (drop o m) else None.

(** A change made through such a pointer. *)
Definition modify (m : list Z) (o n : nat) (f : list Z -> list Z) : option (list Z) :=
  if decide (o + n <= length m)%nat then Some (take o m ++ f (drop o m)) else None.

(** The C string in a byte array. *)
Fixpoint cstr (l : list Z) : string :=
  match l with [] => "" | b :: l => if b =? 0 then "" else String (ascii_of_nat (Z.to_nat b)) (cstr l) end.
Definition str_bytes (s : string) : list Z := map byte_of (String.list_ascii_of_string s).

(** ** The macros of ares_dns.h *)

Inductive hfield := QID | QDCOUNT | ANCOUNT | NSCOUNT | ARCOUNT.
Inductive rfield := RR_TYPE | RR_CLASS | RR_TTL | RR_LEN | OPT_CODE | OPT_LEN.

Class AresDns := {
  DNS_HEADER : hfield -> list Z -> Z;               (* DNS_HEADER_QID, DNS_HEADER_QDCOUNT, ... *)
  DNS_HEADER_SET : hfield -> list Z -> Z -> list Z; (* DNS_HEADER_SET_QID, ... *)
  DNS_HEADER_SET_RCODE : list Z -> Z -> list Z;
  DNS_RR : rfield -> list Z -> Z;                   (* DNS_RR_TYPE, DNS_RR_LEN, DNS_OPT_CODE, DNS_OPT_LEN *)
  DNS_RR_SET : rfield -> list Z -> Z -> list Z;
  DNS__32BIT : list Z -> Z;
  DNS__SET16BIT : list Z -> Z -> list Z
}.

(** RFC 1035, 4.1.1: the header; 4.1.3: a record behind its name; RFC 6891,
    6.1.2: an option. *)
Definition hoff (f : hfield) : nat := match f with QID => 0 | QDCOUNT => 4 | ANCOUNT => 6 | NSCOUNT => 8 | ARCOUNT => 10 end.
Definition roff (f : rfield) : nat := match f with RR_TYPE => 0 | RR_CLASS => 2 | RR_TTL => 4 | RR_LEN => 8 | OPT_CODE => 0 | OPT_LEN => 2 end.
Definition rsize (f : rfield) : nat := match f with RR_TTL => 4 | _ => 2 end.

Class AresLaws (A : AresDns) : Prop := {
  al_header : forall f m, (12 <= length m)%nat -> DNS_HEADER f m = of_be (take 2 (drop (hoff f) m));
  al_header_set : forall f m v, (12 <= length m)%nat -> DNS_HEADER_SET f m v = splice (hoff f) (be 2 v) m;
  al_rcode : forall m v, (12 <= length m)%nat -> exists b, DNS_HEADER_SET_RCODE m v = splice 3 [b] m /\
    forall old, m !! 3%nat = Some old -> old mod 16 = 0 -> 0 <= v < 16 -> b mod 16 = v /\ b / 16 = old / 16;
  al_rr : forall f m, (roff f + rsize f <= length m)%nat -> DNS_RR f m = of_be (take (rsize f) (drop (roff f) m));
  al_rr_set : forall f m v, (roff f + rsize f <= length m)%nat -> DNS_RR_SET f m v = splice (roff f) (be (rsize f) v) m;
  al_32bit : forall m, (4 <= length m)%nat -> DNS__32BIT m = of_be (take 4 m);
  al_set16bit : forall m v, (2 <= length m)%nat -> DNS__SET16BIT m v = splice 0 (be 2 v) m
}.

(** The macros as the laws describe them. *)
#[global] Instance wire_ares : AresDns := {|
  DNS_HEADER f m := of_be (take 2 (drop (hoff f) m));
  DNS_HEADER_SET f m v := splice (hoff f) (be 2 v) m;
  DNS_HEADER_SET_RCODE m v := splice 3 [16 * (default 0 (m !! 3%nat) / 16) + v mod 16] m;
  DNS_RR f m := of_be (take (rsize f) (drop (roff f) m));
  DNS_RR_SET f m v := splice (roff f) (be (rsize f) v) m;
  DNS__32BIT m := of_be (take 4 m);
  DNS__SET16BIT m v := splice 0 (be 2 v) m
|}.

#[global] Instance wire_ares_laws : AresLaws wire_ares.
Proof.
  split; try done. intros m v Hm. eexists. split; [reflexivity|]. intros old -> Ho Hv. simpl.
  split; [rewrite Z.add_comm, Z.mul_comm, Z.mod_add, Z.mod_mod by lia; apply Z.mod_small; lia|].
  rewrite Z.add_comm, Z.mul_comm, Z.div_add by lia. rewrite (Z.mod_small v), (Z.div_small v) by lia. lia.
Qed.

Definition C_IN := 1.
Definition T_AAAA := 28.
Definition T_SRH := 65280.
Definition T_OPT := 41.
Definition DNS_HEADER_LENGTH : nat := 12.
Definition DNS_FIXED_HEADER_QUERY : nat := 4.
Definition EDNSFIXEDSZ : nat := 11.
Definition T_OPT_OPCODE_APP_NAME := 65001.
Definition T_OPT_OPCODE_BANDWIDTH := 65002.
Definition T_OPT_OPCODE_LATENCY := 65003.

(** ** Lemmas on bytes *)

Lemma be_length n z : length (be n z) = n.
Proof. unfold be. by rewrite length_rev, le_length. Qed.

Lemma of_be_be n z : 0 <= z < 256 ^ Z.of_nat n -> of_be (be n z) = z.
Proof. intros H. unfold of_be, be. by rewrite rev_involutive, of_le_le. Qed.

Lemma splice_app a b c d : length b = length d -> splice (length a) d (a ++ b ++ c) = a ++ d ++ c.
Proof.
  intros H. unfold splice. rewrite take_app_length. f_equal. f_equal.
  rewrite app_assoc, drop_app_ge by (rewrite length_app; lia). rewrite length_app. by replace (length a + length d - (length a + length b))%nat with 0%nat by lia.
Qed.

Lemma splice_length o bs m : (o + length bs <= length m)%nat -> length (splice o bs m) = length m.
Proof. intros H. unfold splice. rewrite !length_app, length_take, length_drop. lia. Qed.

Lemma view_app a b n : (n <= length b)%nat -> view (a ++ b) (length a) n = Some b.
Proof. intros H. unfold view. rewrite decide_True by (rewrite length_app; lia). by rewrite drop_app_length. Qed.

Lemma modify_app a b n f : (n <= length b)%nat -> modify (a ++ b) (length a) n f = Some (a ++ f b).
Proof. intros H. unfold modify. rewrite decide_True by (rewrite length_app; lia). by rewrite take_app_length, drop_app_length. Qed.

Lemma str_bytes_length s : length (str_bytes s) = String.length s.
Proof. unfold str_bytes. rewrite length_map. induction s as [|a s IH]; [done|]. simpl. by rewrite IH. Qed.

Lemma le_bytes n z : Forall (fun b => 0 <= b < 256) (le n z).
Proof. revert z. induction n as [|n IH]; intros z; simpl; constructor; [apply Z.mod_pos_bound; lia|apply IH]. Qed.

Lemma le_of_le n l : length l = n -> Forall (fun b => 0 <= b < 256) l -> le n (of_le l) = l.
Proof.
  revert n. induction l as [|b l IH]; intros n <- Hb; [done|]. inversion Hb; subst. cbn [length le of_le]. f_equal.
  - rewrite Z.mul_comm, Z_mod_plus_full. by apply Z.mod_small.
  - transitivity (le (length l) (of_le l)); [f_equal|by apply IH]. rewrite Z.mul_comm, Z.div_add, Z.div_small by lia. lia.
Qed.

Lemma cstr_bytes s : cut_at NUL s = s -> cstr (str_bytes s) = s.
Proof.
  induction s as [|a s IH]; [done|]. cbn [cut_at]. destruct (Ascii.eqb_spec a NUL) as [->|Ha]; [done|]. intros [= Hs]. cbn [str_bytes String.list_ascii_of_string map cstr].
  unfold byte_of at 1. destruct (Z.eqb_spec (Z.of_nat (nat_of_ascii a)) 0) as [E|E].
  - destruct Ha. apply (f_equal Z.to_nat) in E. rewrite Nat2Z.id in E. rewrite <- (ascii_nat_embedding a), E. done.
  - unfold byte_of. rewrite Nat2Z.id, ascii_nat_embedding. f_equal. by apply IH.
Qed.

(** ** Requests *)

Definition ARES_SUCCESS := 0.

(** A host with a little-endian memory: the bytes of a variable, and htonl. *)
Definition mem32 (v : Z) : list Z := le 4 v.
Definition htonl (v : Z) : Z := of_le (be 4 v).

Record edns_option := EdnsOption { option_code : Z; option_length : Z; option_data : list Z }.

Lemma mem32_htonl v : mem32 (htonl v) = be 4 v.
Proof. unfold mem32, htonl. rewrite le_of_le; [done|apply be_length|]. unfold be. apply Forall_rev, le_bytes. Qed.

(** The options of [make_srdns_request], when the query is sent: the two
    numbers are read through their addresses, after [htonl]. *)
Definition srdns_options (application_name : string) (bandwidth latency : Z) : list edns_option :=
  [EdnsOption T_OPT_OPCODE_APP_NAME (Z.of_nat (String.length application_name)) (str_bytes application_name);
   EdnsOption T_OPT_OPCODE_BANDWIDTH 4 (mem32 (htonl bandwidth));
   EdnsOption T_OPT_OPCODE_LATENCY 4 (mem32 (htonl latency))].

(** A [struct ares_srh_reply] of the list that [ares_parse_srh_reply] gives. *)
Record srh_reply := SrhReply { srh_priority : Z; srh_prefix : in6_addr; srh_binding : in6_addr }.

(** The memory of [struct callback_args]; [src_prefix] may be NULL. *)
Record client := Client { dest_addr : in6_addr; src_prefix : option in6_addr; binding_segment : in6_addr; stop : bool }.

(** What c-ares does in a turn of the loop: the descriptors it waits on, what
    select() gives, and the callbacks of [ares_process]: status and message. *)
Record turn := Turn { t_nfds : Z; t_select : Z; t_calls : list (Z * list Z) }.
(** The library's answers: [ares_library_init], [ares_init_options],
    [ares_set_servers], the callbacks made by the query itself, the turns;
    [r_alloc]: the allocation of the server's address succeeds. *)
Record resolver := Resolver { r_library : Z; r_alloc : bool; r_init : Z; r_servers : Z; r_query : list (Z * list Z); r_turns : list turn }.

Section srdns.
Context (ares_parse_aaaa_reply : list Z -> option (string * list in6_addr)) (ares_parse_srh_reply : list Z -> option (list srh_reply))
  (ares_inet_pton : string -> bool).   (* an IPv4 or IPv6 address *)

Definition plain_callback (status : Z) (abuf : list Z) (args : client) : option client :=
  if negb (status =? ARES_SUCCESS) then Some args
  else match ares_parse_aaaa_reply abuf with
       | None => Some args
       | Some (_, []) => None
       | Some (_, a :: _) => Some (Client a (src_prefix args) (binding_segment args) true)
       end.

(** for (curr_srh = best_srh; curr_srh->next; curr_srh = curr_srh->next) *)
Fixpoint best_loop (best : srh_reply) (curr : list srh_reply) : srh_reply :=
  match curr with
  | [] | [_] => best
  | c :: next => best_loop (if srh_priority best <? srh_priority c then c else best) next
  end.

Definition callback (status : Z) (abuf : list Z) (args : client) : option client :=
  if negb (status =? ARES_SUCCESS) then Some args
  else match ares_parse_aaaa_reply abuf with
       | None => Some args
       | Some (_, []) => None
       | Some (_, a :: _) =>
           match ares_parse_srh_reply abuf with
           | None => Some (Client a (src_prefix args) (binding_segment args) (stop args))
           | Some [] => None
           | Some (s :: l) =>
               let best := best_loop s (s :: l) in
               Some (Client a (match src_prefix args with Some _ => Some (srh_prefix best) | None => None end) (srh_binding best) true)
           end
       end.

Definition run_calls (cb : Z -> list Z -> client -> option client) (calls : list (Z * list Z)) (args : client) : option client :=
  foldl (fun o c => a ← o; cb c.1 c.2 a) (Some args) calls.

(** for (;!stop;): [None] when the turns run out, the library never being
    done. *)
Fixpoint wait_loop (cb : Z -> list Z -> client -> option client) (turns : list turn) (status : Z) (args : client) : option (Z * client) :=
  if stop args then Some (status, args)
  else match turns with
       | [] => None
       | t :: turns =>
           if t_nfds t =? 0 then Some (-1, args)
           else if t_select t <? 0 then Some (t_select t, args)
           else args ← run_calls cb (t_calls t) args; wait_loop cb turns (t_select t) args
       end.

(** What [make_dns_request] and [make_srdns_request] share: the returned
    status and what the callback has stored. *)
Definition make_request (cb : Z -> list Z -> client -> option client) (r : resolver) (servername : option string) (args : client) : option (Z * client) :=
  if negb (r_library r =? ARES_SUCCESS) then Some (r_library r, args)
  else if match servername with Some s => negb (r_alloc r) || negb (ares_inet_pton s) | None => false end then Some (-1, args)
  else if negb (r_init r =? ARES_SUCCESS) then Some (r_init r, args)
  else if match servername with Some _ => negb (r_servers r =? ARES_SUCCESS) | None => false end then Some (r_servers r, args)
  else args ← run_calls cb (r_query r) args; wait_loop cb (r_turns r) ARES_SUCCESS args.

Definition make_dns_request (r : resolver) (servername : option string) (dest : in6_addr) : option (Z * client) :=
  make_request plain_callback r servername (Client dest None [] false).

(** The answers depend on the options that the query carries. *)
Definition make_srdns_request (r : list edns_option -> resolver) (servername : option string) (application_name : string) (bandwidth latency : Z)
    (dest : in6_addr) (prefix : option in6_addr) (binding : in6_addr) : option (Z * client) :=
  make_request callback (r (srdns_options application_name bandwidth latency)) servername (Client dest prefix binding false).

(** ** Sockets *)

(** The calls made on the socket: the routing header of setsockopt(), the
    address of connect(), close(). *)
Inductive sockop := SetRthdr (srh : list Z) | Connect (addr : in6_addr) (port : Z) | Close.

Definition zero_addr : in6_addr := replicate 16 0.

(** struct ipv6_sr_hdr with two segments, the first all zeroes. *)
Definition sr_hdr (segment1 : in6_addr) : list Z := [0; 4; 4; 1; 1; 0; 0; 0] ++ zero_addr ++ segment1.

(** [alloc]: malloc() succeeds; [fd], [setopt] and [conn] are what socket(),
    setsockopt() and connect() return; the result and the operations. *)
Definition sr_socket (r : list edns_option -> resolver) (alloc : bool) (fd setopt conn : Z) (dest_port : Z) (servername : option string)
    (application_name : string) (bandwidth latency : Z) : option (Z * list sockop) :=
  if negb alloc then Some (-1, [])
  else if fd <? 0 then Some (fd, [])
  else
    '(err, args) ← make_srdns_request r servername application_name bandwidth latency zero_addr None zero_addr;
    if err <? 0 then Some (err, [Close])
    else
      let srh := sr_hdr (binding_segment args) in
      if setopt <? 0 then Some (setopt, [SetRthdr srh; Close])
      else if conn <? 0 then Some (conn, [SetRthdr srh; Connect (dest_addr args) dest_port; Close])
      else Some (fd, [SetRthdr srh; Connect (dest_addr args) dest_port]).

(** ** Theorems *)

Lemma best_loop_spec curr : forall best,
  (best_loop best curr = best \/ best_loop best curr ∈ removelast curr) /\ srh_priority best <= srh_priority (best_loop best curr) /\
  forall x, x ∈ removelast curr -> srh_priority x <= srh_priority (best_loop best curr).
Proof.
  induction curr as [|c curr IH]; intros best; [simpl; split_and!; [by left|lia|set_solver]|].
  destruct curr as [|d curr]; [simpl; split_and!; [by left|lia|set_solver]|].
  change (best_loop best (c :: d :: curr)) with (best_loop (if srh_priority best <? srh_priority c then c else best) (d :: curr)).
  change (removelast (c :: d :: curr)) with (c :: removelast (d :: curr)).
  destruct (IH (if srh_priority best <? srh_priority c then c else best)) as (Hin & Hge & Hall).
  destruct (Z.ltb_spec (srh_priority best) (srh_priority c)); split_and!.
  - right. destruct Hin as [->|Hin]; set_solver.
  - lia.
  - intros x [->|Hx]%elem_of_cons; [lia|by apply Hall].
  - destruct Hin as [->|Hin]; [by left|right; set_solver].
  - lia.
  - intros x [->|Hx]%elem_of_cons; [lia|by apply Hall].
Qed.

(** The record chosen from a list. *)
Definition chosen (l : list srh_reply) (s : srh_reply) : Prop :=
  match l with [x] => s = x | _ => s ∈ removelast l /\ forall x, x ∈ removelast l -> srh_priority x <= srh_priority s end.

Lemma best_chosen s l : chosen (s :: l) (best_loop s (s :: l)).
Proof.
  destruct l as [|d l]; [done|]. destruct (best_loop_spec (s :: d :: l) s) as (Hin & _ & Hall). unfold chosen. split; [|done].
  destruct Hin as [->|Hin]; [|done]. change (s ∈ s :: removelast (d :: l)). set_solver.
Qed.

Lemma callback_success abuf args name a addrs s l :
  ares_parse_aaaa_reply abuf = Some (name, a :: addrs) -> ares_parse_srh_reply abuf = Some (s :: l) ->
  callback ARES_SUCCESS abuf args =
    Some (Client a (match src_prefix args with Some _ => Some (srh_prefix (best_loop s (s :: l))) | None => None end) (srh_binding (best_loop s (s :: l))) true).
Proof. intros Ha Hl. unfold callback. by rewrite Ha, Hl. Qed.

(** A turn in which the library waits, or is told of a failure. *)
Definition idle_turn (t : turn) : Prop := t_nfds t <> 0 /\ 0 <= t_select t /\ Forall (fun c => c.1 <> ARES_SUCCESS) (t_calls t).

Lemma run_calls_fail calls args : Forall (fun c => c.1 <> ARES_SUCCESS) calls -> run_calls callback calls args = Some args.
Proof.
  unfold run_calls. induction 1 as [|c calls Hc _ IH]; [done|]. simpl. cbn [mbind option_bind]. unfold callback at 2.
  destruct (Z.eqb_spec c.1 ARES_SUCCESS); [done|]. apply IH.
Qed.

Lemma wait_idle ts rest : Forall idle_turn ts -> forall status args, stop args = false ->
  exists status', wait_loop callback (ts ++ rest) status args = wait_loop callback rest status' args.
Proof.
  induction 1 as [|t ts (Hn & Hs & Hc) _ IH]; intros status args Hst; [by exists status|].
  destruct (IH (t_select t) args Hst) as [st' Hst']. exists st'. simpl. rewrite Hst.
  destruct (Z.eqb_spec (t_nfds t) 0); [done|]. destruct (Z.ltb_spec (t_select t) 0); [lia|].
  rewrite run_calls_fail by done. cbn [mbind option_bind]. exact Hst'.
Qed.

(** The library and the sockets work. *)
Record resolver_ok (r : resolver) (servername : option string) : Prop := {
  ro_library : r_library r = ARES_SUCCESS;
  ro_init : r_init r = ARES_SUCCESS;
  ro_server : forall s, servername = Some s -> r_alloc r = true /\ ares_inet_pton s = true /\ r_servers r = ARES_SUCCESS;
  ro_query : Forall (fun c => c.1 <> ARES_SUCCESS) (r_query r)
}.

Lemma make_srdns_request_ok r servername app bw lat dest prefix binding : resolver_ok (r (srdns_options app bw lat)) servername ->
  make_srdns_request r servername app bw lat dest prefix binding = wait_loop callback (r_turns (r (srdns_options app bw lat))) ARES_SUCCESS (Client dest prefix binding false).
Proof.
  intros [H1 H2 H3 H4]. unfold make_srdns_request, make_request. rewrite H1, H2. cbn [negb Z.eqb ARES_SUCCESS].
  destruct servername as [s|]; [destruct (H3 s eq_refl) as (-> & -> & ->); cbn [negb orb Z.eqb ARES_SUCCESS]|];
    (rewrite run_calls_fail by done); reflexivity.
Qed.

(** The last record does not alone have the highest priority. *)
Definition last_not_alone (l : list srh_reply) : Prop :=
  l = [] \/ (exists x, l = [x]) \/ exists k y x, l = k ++ [y] /\ x ∈ k /\ srh_priority y <= srh_priority x.

Lemma chosen_best l s : last_not_alone l -> l <> [] -> chosen l s -> s ∈ l /\ forall x, x ∈ l -> srh_priority x <= srh_priority s.
Proof.
  intros [->|[[x ->]|(k & y & x & -> & Hx & Hy)]] Hne Hc; [done|simpl in Hc; subst s; split; [by left|]|].
  - intros y [->|[]%not_elem_of_nil]%elem_of_cons. lia.
  - assert (s ∈ k /\ forall z, z ∈ k -> srh_priority z <= srh_priority s) as [Hs Hall].
    { unfold chosen in Hc. rewrite removelast_last in Hc. by destruct k as [|a [|b k]]; [apply elem_of_nil in Hx|..]. }
    split; [set_solver|]. intros z [Hz|[->|[]%not_elem_of_nil]%elem_of_cons]%elem_of_app; [by apply Hall|]. specialize (Hall x Hx). lia.
Qed.

(** C22. When the last SRH record of the DNS answer does not alone have the
    highest priority, [sr_socket] connects the application to the address of
    the answer through the binding segment of a record of the highest
    priority.  (The loop never looks at the last of several records:
    [srdns_ignores_last].) *)
Theorem sr_socket_connects (r : list edns_option -> resolver) (servername : option string) (app : string) (bw lat fd setopt conn port nfds sel : Z) (before after : list turn)
    (abuf : list Z) (name : string) (addr : in6_addr) (addrs : list in6_addr) (s : srh_reply) (l : list srh_reply) :
  resolver_ok (r (srdns_options app bw lat)) servername -> r_turns (r (srdns_options app bw lat)) = before ++ Turn nfds sel [(ARES_SUCCESS, abuf)] :: after -> Forall idle_turn before ->
  nfds <> 0 -> 0 <= sel -> ares_parse_aaaa_reply abuf = Some (name, addr :: addrs) -> ares_parse_srh_reply abuf = Some (s :: l) ->
  0 <= fd -> 0 <= setopt -> 0 <= conn -> last_not_alone (s :: l) ->
  exists best, best ∈ s :: l /\ (forall x, x ∈ s :: l -> srh_priority x <= srh_priority best) /\
    sr_socket r true fd setopt conn port servername app bw lat = Some (fd, [SetRthdr (sr_hdr (srh_binding best)); Connect addr port]).
Proof.
  intros Hr Ht Hb Hn Hs Ha Hl Hfd Hso Hco Hna. exists (best_loop s (s :: l)).
  destruct (chosen_best (s :: l) _ Hna ltac:(done) (best_chosen s l)) as [H1 H2]. split_and!; [done|done|].
  unfold sr_socket. cbn [negb]. destruct (Z.ltb_spec fd 0); [lia|]. rewrite make_srdns_request_ok, Ht by done.
  destruct (wait_idle before (Turn nfds sel [(ARES_SUCCESS, abuf)] :: after) Hb ARES_SUCCESS (Client zero_addr None zero_addr false) eq_refl) as [st ->].
  cbn [wait_loop stop t_nfds t_select t_calls]. destruct (Z.eqb_spec nfds 0); [done|]. destruct (Z.ltb_spec sel 0); [lia|].
  unfold run_calls. cbn [foldl fst snd mbind option_bind]. rewrite (callback_success _ _ _ _ _ _ _ Ha Hl). cbn [mbind option_bind src_prefix].
  replace (wait_loop callback after sel _) with (Some (sel, Client addr None (srh_binding (best_loop s (s :: l))) true)) by (by destruct after).
  cbn [mbind option_bind]. destruct (Z.ltb_spec sel 0); [lia|]. destruct (Z.ltb_spec setopt 0); [lia|]. by destruct (Z.ltb_spec conn 0); [lia|].
Qed.

(** The last record of the answer is never looked at: when it has the
    highest priority, another one is used. *)
Theorem srdns_ignores_last (abuf : list Z) (name : string) (addr : in6_addr) (addrs : list in6_addr) (l : list srh_reply) (z : srh_reply) (args : client) :
  ares_parse_aaaa_reply abuf = Some (name, addr :: addrs) -> ares_parse_srh_reply abuf = Some (l ++ [z]) -> l <> [] ->
  (forall x, x ∈ l -> srh_priority x < srh_priority z) ->
  exists x, x ∈ l /\ srh_priority x < srh_priority z /\
    binding_segment <$> callback ARES_SUCCESS abuf args = Some (srh_binding x).
Proof.
  intros Ha Hl Hne Hlt. destruct l as [|s l]; [done|]. pose proof (best_chosen s (l ++ [z])) as Hc.
  exists (best_loop s (s :: l ++ [z])). assert (best_loop s (s :: l ++ [z]) ∈ s :: l) as Hin.
  { assert (removelast (s :: l ++ [z]) = s :: l) as E by apply (removelast_last (s :: l) z).
    unfold chosen in Hc. destruct (l ++ [z]) eqn:El; [by destruct l|]. rewrite E in Hc. apply Hc. }
  split_and!; [done|by apply Hlt|]. by rewrite (callback_success _ _ _ _ _ _ _ Ha Hl).
Qed.

(** When c-ares cannot be initialised, [make_srdns_request] returns its
    status, a positive number, which [sr_socket] takes for success: it
    connects to the unspecified address through an all-zero segment. *)
Theorem sr_socket_hides_failure (r : list edns_option -> resolver) (servername : option string) (app : string) (bw lat fd setopt conn port : Z) :
  r_library (r (srdns_options app bw lat)) = ARES_SUCCESS -> 0 < r_init (r (srdns_options app bw lat)) ->
  (forall s, servername = Some s -> r_alloc (r (srdns_options app bw lat)) = true /\ ares_inet_pton s = true) ->
  0 <= fd -> 0 <= setopt -> 0 <= conn ->
  sr_socket r true fd setopt conn port servername app bw lat = Some (fd, [SetRthdr (sr_hdr zero_addr); Connect zero_addr port]).
Proof.
  intros Hl Hi Hs Hfd Hso Hco. set (r' := r (srdns_options app bw lat)) in *. unfold sr_socket, make_srdns_request, make_request. fold r'. rewrite Hl. cbn [negb Z.eqb ARES_SUCCESS].
  destruct (Z.ltb_spec fd 0); [lia|]. destruct (Z.eqb_spec (r_init r') ARES_SUCCESS) as [E|_]; [unfold ARES_SUCCESS in E; lia|].
  destruct servername as [s|]; [destruct (Hs s eq_refl) as [-> ->]|]; cbn [negb orb mbind option_bind];
    (destruct (Z.ltb_spec (r_init r') 0); [lia|]; destruct (Z.ltb_spec setopt 0); [lia|]; by destruct (Z.ltb_spec conn 0); [lia|]).
Qed.
End srdns.

(** ** A resolver *)

(** Messages whose first byte is the number of SRH records, of increasing
    priorities; the address is the rest. *)
Definition demo_aaaa (abuf : list Z) : option (string * list in6_addr) := Some ("server", [drop 1 abuf]).
Definition demo_srh (abuf : list Z) : option (list srh_reply) :=
  Some (map (fun i => SrhReply (Z.of_nat i) zero_addr (replicate 15 0 ++ [Z.of_nat i])) (seq 0 (Z.to_nat (default 0 (head abuf))))).
Definition demo_resolver (n : Z) (opts : list edns_option) : resolver :=
  Resolver 0 true 0 0 [] [Turn 3 0 []; Turn 3 1 [(11, [])]; Turn 3 1 [(0, n :: replicate 16 9)]].

(** The same records, the highest priority first. *)
Definition demo_srh_down (abuf : list Z) : option (list srh_reply) := @rev srh_reply <$> demo_srh abuf.

Lemma sr_socket_connects_witness :
  let l := [SrhReply 2 zero_addr (replicate 15 0 ++ [2]); SrhReply 1 zero_addr (replicate 15 0 ++ [1]); SrhReply 0 zero_addr (replicate 15 0 ++ [0])] in
  exists best, best ∈ l /\ (forall x, x ∈ l -> srh_priority x <= srh_priority best) /\
    sr_socket demo_aaaa demo_srh_down (fun _ => true) (demo_resolver 3) true 5 0 0 80 (Some "::1") "app" 100 20 =
      Some (5, [SetRthdr (sr_hdr (srh_binding best)); Connect (replicate 16 9) 80]).
Proof.
  apply (sr_socket_connects demo_aaaa demo_srh_down (fun _ => true) (demo_resolver 3) (Some "::1") "app" 100 20 5 0 0 80 3 1
    [Turn 3 0 []; Turn 3 1 [(11, [])]] [] (3 :: replicate 16 9) "server" (replicate 16 9) []); try done.
  - repeat constructor; done.
  - right. right. eexists [_; _], _, _. split; [reflexivity|]. split; [by left|done].
Defined.

Lemma srdns_ignores_last_witness :
  exists x, x ∈ default [] (demo_srh [2]) /\ srh_priority x < 2 /\
    binding_segment <$> callback demo_aaaa demo_srh ARES_SUCCESS (3 :: replicate 16 9) (Client [] None [] false) = Some (srh_binding x).
Proof.
  apply (srdns_ignores_last demo_aaaa demo_srh (3 :: replicate 16 9) "server" (replicate 16 9) [] (default [] (demo_srh [2]))
    (SrhReply 2 zero_addr (replicate 15 0 ++ [2])) (Client [] None [] false)); try done.
  intros x Hx. change (x ∈ [SrhReply 0 zero_addr (replicate 15 0 ++ [0]); SrhReply 1 zero_addr (replicate 15 0 ++ [1])]) in Hx.
  rewrite !elem_of_cons in Hx. destruct Hx as [->|[->|Hx%elem_of_nil]]; simpl; done.
Defined.

Lemma sr_socket_hides_failure_witness :
  sr_socket demo_aaaa demo_srh (fun _ => true) (fun _ => Resolver 0 true 15 0 [] []) true 5 0 0 80 None "app" 100 20 = Some (5, [SetRthdr (sr_hdr zero_addr); Connect zero_addr 80]).
Proof. apply (sr_socket_hides_failure demo_aaaa demo_srh (fun _ => true) (fun _ => Resolver 0 true 15 0 [] []) None "app" 100 20 5 0 0 80); done. Defined.
