(* ===== verification/Dnsproxy.v ===== *)
(** * DNS proxy (sr-dnsproxy)

    A query of an application is parsed (server.c), resolved by the real DNS
    server through c-ares (client.c), turned into a flow request for the
    controller, and answered when the edge router has installed the flow or
    the controller has rejected it (monitor.c).  Packets are byte buffers of
    the size the code allocates; a write outside is [None].  c-ares, Jansson
    and the address functions are parameters. *)

From S2P Require Import Prelude Llist Misc Hashmap Rules Srdb Dijkstra Segpath Netstate Flows Netlink Routed Queue Dns.
From Stdlib Require Import Ascii.

Definition MAX_DNS_PACKET_SIZE : nat := 512.
Definition MAX_SRH_RR_SIZE : nat := 100.

(** [data] is the array behind the struct, of [MAX_DNS_PACKET_SIZE] bytes. *)
Record query := Query {
  q_addr : in6_addr;
  q_length : Z;
  bandwidth_req : Z;
  latency_req : Z;
  app_name_req : string;
  q_data : list Z
}.

Definition set_req (q : query) (bw lat : Z) (app : string) : query := Query (q_addr q) (q_length q) bw lat app (q_data q).

Section proxy.
Context {A : AresDns} {J : Jansson} {T : JanssonText J}
  (ares_parse_aaaa_reply : list Z -> option (string * list in6_addr))
  (inet_pton : string -> option in6_addr) (inet_ntop : in6_addr -> string).

(** ** Queries (server.c) *)

Definition header_field (f : hfield) (data : list Z) (o : nat) : option Z := m ← view data o DNS_HEADER_LENGTH; Some (DNS_HEADER f m).
Definition rr_field (f : rfield) (data : list Z) (o : nat) : option Z := m ← view data o (roff f + rsize f); Some (DNS_RR f m).

(** One option: its value is copied to [app_name_req], of [SLEN + 1] bytes, or
    read as a 32-bit number. *)
Definition edns_option_read (code : Z) (len : nat) (data : list Z) (o : nat) (q : query) : option query :=
  if code =? T_OPT_OPCODE_APP_NAME then
    m ← view data o len;
    if (len <=? SLEN)%nat then Some (set_req q (bandwidth_req q) (latency_req q) (cstr (take len m))) else None
  else if code =? T_OPT_OPCODE_BANDWIDTH then m ← view data o 4; Some (set_req q (DNS__32BIT m) (latency_req q) (app_name_req q))
  else if code =? T_OPT_OPCODE_LATENCY then m ← view data o 4; Some (set_req q (bandwidth_req q) (DNS__32BIT m) (app_name_req q))
  else Some q.

(** for (i = 0; i < edns_length; i = i + 4 + option_length) *)
Fixpoint edns_loop (fuel : nat) (data : list Z) (aptr : nat) (edns_length i : Z) (q : query) : option query :=
  if i <? edns_length then
    match fuel with
    | O => None
    | S fuel =>
        let o := (aptr + Z.to_nat i)%nat in
        code ← rr_field OPT_CODE data o;
        len ← rr_field OPT_LEN data o;
        q ← edns_option_read code (Z.to_nat len) data (o + 4) q;
        edns_loop fuel data aptr edns_length (i + 4 + len) q
    end
  else Some q.

(** The return value, the query and the name; [ares_expand_name] takes the
    message, the offset of a name and the length, and gives the name and its
    encoded length. *)
Definition dns_parse_edns (ares_expand_name : list Z -> nat -> Z -> option (string * Z)) (q0 : query) : option (Z * query * option string) :=
  let data := q_data q0 in
  let q := set_req q0 0 0 "" in
  qdcount ← header_field QDCOUNT data 0;
  ancount ← header_field ANCOUNT data 0;
  nscount ← header_field NSCOUNT data 0;
  arcount ← header_field ARCOUNT data 0;
  if negb (qdcount =? 1) || negb (ancount =? 0) || negb (nscount =? 0) || (1 <? arcount) then Some (-1, q, None)
  else match ares_expand_name data DNS_HEADER_LENGTH (q_length q) with
       | None => Some (-1, q, None)
       | Some (name, len) =>
           let aptr := (DNS_HEADER_LENGTH + Z.to_nat len + DNS_FIXED_HEADER_QUERY)%nat in
           if arcount =? 0 then Some (0, set_req q 0 0 (inet_ntop (q_addr q)), Some name)
           else
             let aptr := S aptr in
             _ ← rr_field RR_TYPE data aptr;
             edns_length ← rr_field RR_LEN data aptr;
             let aptr := (aptr + (EDNSFIXEDSZ - 1))%nat in
             q ← edns_loop (Z.to_nat edns_length) data aptr edns_length 0 q;
             Some (0, (if bool_decide (app_name_req q = "") then set_req q (bandwidth_req q) (latency_req q) (inet_ntop (q_addr q)) else q), Some name)
       end.

(** [recvfrom] into a fresh query, for [mqueue_append]; [mem] is what the
    allocation held, or nothing; [packet] is nothing when [recvfrom] fails. *)
Definition server_producer_process (mem packet : option (list Z)) (addr : in6_addr) : option query :=
  mem ← mem;
  packet ← packet;
  let p := take MAX_DNS_PACKET_SIZE packet in
  Some (Query addr (Z.of_nat (length p)) 0 0 "" (p ++ drop (length p) mem)).

Record callback_args := CallbackArgs { ca_qid : Z; ca_addr : in6_addr; ca_bandwidth : Z; ca_latency : Z; ca_app : string }.

(** A turn of [server_consumer_main]: the name given to [ares_query] and the
    arguments of its callback, or nothing for a query that is dropped.
    [args]: the allocation succeeds; [lock] is what [pthread_mutex_lock] returns. *)
Definition server_consumer (ares_expand_name : list Z -> nat -> Z -> option (string * Z)) (args : bool) (lock : Z) (q : query)
    : option (option (string * callback_args)) :=
  '(ret, q, name) ← dns_parse_edns ares_expand_name q;
  if negb (ret =? 0) then Some None
  else if negb args then Some None
  else
    name ← name;
    qid ← header_field QID (q_data q) 0;
    if negb (lock =? 0) then Some None
    else Some (Some (name, CallbackArgs qid (q_addr q) (bandwidth_req q) (latency_req q) (app_name_req q))).

(** ** Replies (client.c) *)

(** [data] is the array of [MAX_DNS_PACKET_SIZE + MAX_SRH_RR_SIZE] bytes. *)
Record reply := Reply {
  rp_addr : in6_addr;
  rp_length : nat;
  rp_bandwidth : Z;
  rp_latency : Z;
  rp_app : string;
  rp_uuid : string;
  rp_destination : string;
  rp_destination_addr : string;
  rp_data : list Z
}.

Definition set_uuid (r : reply) (u : string) : reply :=
  Reply (rp_addr r) (rp_length r) (rp_bandwidth r) (rp_latency r) (rp_app r) u (rp_destination r) (rp_destination_addr r) (rp_data r).
Definition set_destination (r : reply) (d a : string) : reply :=
  Reply (rp_addr r) (rp_length r) (rp_bandwidth r) (rp_latency r) (rp_app r) (rp_uuid r) d a (rp_data r).
Definition set_packet (r : reply) (n : nat) (m : list Z) : reply :=
  Reply (rp_addr r) n (rp_bandwidth r) (rp_latency r) (rp_app r) (rp_uuid r) (rp_destination r) (rp_destination_addr r) m.

(** Sizes and alignments of the members of [struct reply] before [data], on a
    machine with 8-byte pointers: node, addr, addr_len, data_length,
    buffer_size, additional_record_count, bandwidth_req, latency_req and four
    texts. *)
Definition reply_members : list (Z * Z) :=
  let text := (Z.of_nat (SLEN + 1), 1) in [(16, 8); (28, 4); (4, 4); (8, 8); (8, 8); (2, 2); (4, 4); (4, 4); text; text; text; text].
Definition reply_offset_data : Z := foldl (fun o '(size, a) => align_up o a + size) 0 reply_members.
Definition sizeof_reply : Z := align_up reply_offset_data 8.

(** The bytes of a block of [REPLY_ALLOC] from [data] on: the padding at the
    end of the struct belongs to them. *)
Definition reply_capacity : nat :=
  Eval vm_compute in (MAX_DNS_PACKET_SIZE + MAX_SRH_RR_SIZE + Z.to_nat (sizeof_reply - reply_offset_data))%nat.

Lemma reply_layout : reply_offset_data = 588 /\ sizeof_reply = 592 /\ reply_capacity = 616%nat.
Proof. by vm_compute. Qed.

(** The reply for the inner queue, or nothing when the DNS server or the
    allocation failed; [mem] is what the allocation held. *)
Definition client_callback (mem : option (list Z)) (status : Z) (abuf : list Z) (args : callback_args) : option (option reply) :=
  if negb (status =? ARES_SUCCESS) then Some None
  else match mem with
       | None => Some None
       | Some mem =>
           _ ← header_field ARCOUNT abuf 0;
           data ← bwrite mem 0 abuf;
           data ← modify data 0 DNS_HEADER_LENGTH (fun m => DNS_HEADER_SET QID m (ca_qid args));
           Some (Some (Reply (ca_addr args) (length abuf) (ca_bandwidth args) (ca_latency args) (ca_app args) "" "" "" data))
       end.

(** strncpy(dst, s, SLEN + 1) into [SLEN + 1] bytes, then used as a string:
    a longer [s] leaves it without terminator. *)
Definition copy_str (s : string) : option string := if (String.length s <=? SLEN)%nat then Some s else None.

(** The reply with its name and address, or nothing when it has none. *)
Definition parse_aaaa_reply (r : reply) : option (option reply) :=
  match ares_parse_aaaa_reply (take (rp_length r) (rp_data r)) with
  | None => Some None
  | Some (_, []) => None
  | Some (name, a :: _) => name ← copy_str name; Some (Some (set_destination r name (inet_ntop a)))
  end.

(** ** The controller's side (client.c: client_consumer_main, monitor.c) *)

(** The replies in memory, the queue of those that wait for the controller,
    the datagrams sent. *)
Record pstate := PState {
  ps_heads : heads;
  ps_length : Z;
  ps_replies : gmap ptr reply;
  ps_sent : list (in6_addr * list Z)
}.

(** [replies_ret], [append_ret] and [remove_ret] are what [mqueue_append] to
    [replies] and to [replies_waiting_controller] and [mqueue_remove] return
    for a reply: 0, or an error once the queue is closed. *)
Context (waiting : ptr) (router_name : string) (stop_ : Z) (replies_ret append_ret remove_ret : ptr -> Z).

(** free() of a reply. *)
Definition free_reply (st : pstate) (p : ptr) : option pstate :=
  h ← free_node (ps_heads st) p; Some (PState h (ps_length st) (delete p (ps_replies st)) (ps_sent st)).

(** The transfer of [client_producer_main]: the replies that [client_callback]
    left in the inner queue get their name and address and go to [replies],
    in order; the others are freed. *)
Fixpoint client_producer (fuel : nat) (inner : ptr) (len : Z) (st : pstate) : option (pstate * Z * list ptr) :=
  '(p, h, len) ← queue_dequeue (ps_heads st) len inner;
  let st := PState h (ps_length st) (ps_replies st) (ps_sent st) in
  if bool_decide (p = inner) then Some (st, len, [])
  else match fuel with
       | O => None
       | S fuel =>
           r ← ps_replies st !! p;
           r ← parse_aaaa_reply r;
           match r with
           | None => st ← free_reply st p; client_producer fuel inner len st
           | Some r =>
               if replies_ret p =? 0 then
                 '(st, len, out) ← client_producer fuel inner len (PState h (ps_length st) (<[p := r]> (ps_replies st)) (ps_sent st));
                 Some (st, len, p :: out)
               else st ← free_reply st p; client_producer fuel inner len st
           end
       end.

Definition put_full (e : entry) (f : string) (s : string) : option entry :=
  s ← copy_str s; put_str e (offsetof srdb_flowreq_entry f) SLEN s.

(** snprintf(uuid, SLEN + 1, "%s-%ld", thread_id, req_counter) *)
Definition request_id (thread_id : string) (req_counter : Z) : string :=
  let c := if req_counter <? 2 ^ 63 then dec_loop 20 req_counter "" else String "-" (dec_loop 20 (2 ^ 64 - req_counter) "") in
  stake SLEN (thread_id ++ "-" ++ c)%string.

(** A turn of [client_consumer_main] on the reply [p] that [mqueue_append]
    accepts: the state, the insertion in the database, the entry kept for the
    next turn. *)
Definition client_consumer (thread_id : string) (req_counter : Z) (e : entry) (p : ptr) (st : pstate) : option (pstate * dbop * entry * Z) :=
  r ← ps_replies st !! p;
  let r := set_uuid r (request_id thread_id req_counter) in
  '(h, len) ← queue_append (ps_heads st) (ps_length st) waiting p;
  let st := PState h len (<[p := r]> (ps_replies st)) (ps_sent st) in
  e ← put_full e "destination" (rp_destination r);
  e ← put_full e "dstaddr" (rp_destination_addr r);
  e ← put_full e "source" (rp_app r);
  e ← put_full e "srcaddr" (inet_ntop (rp_addr r));
  e ← put_int e (offsetof srdb_flowreq_entry "bandwidth") (to_int (rp_bandwidth r));
  e ← put_int e (offsetof srdb_flowreq_entry "delay") (to_int (rp_latency r));
  e ← put_full e "request_id" (rp_uuid r);
  e ← put_full e "proxy" router_name;
  tbl ← srdb_table_by_name srdb_tables "FlowReq";
  op ← srdb_insert tbl e;
  Some (st, op, e, wrap64 (req_counter + 1)).

(** The loop over the replies of the queue, in order; a reply that cannot be
    appended is freed and ends it. *)
Fixpoint client_consumer_main (thread_id : string) (req_counter : Z) (e : entry) (ps : list ptr) (st : pstate) : option (pstate * list dbop) :=
  match ps with
  | [] => Some (st, [])
  | p :: ps =>
      if append_ret p =? 0 then
        '(st, op, e, req_counter) ← client_consumer thread_id req_counter e p st;
        '(st, ops) ← client_consumer_main thread_id req_counter e ps st;
        Some (st, op :: ops)
      else
        _ ← ps_replies st !! p;
        st ← free_reply st p;
        Some (st, [])
  end.

(** The walk for the reply of a request: its address, [waiting] if none. *)
Definition find_waiting (fuel : nat) (st : pstate) (id : string) : option ptr :=
  mqueue_walk_find fuel (ps_heads st) waiting (fun p => r ← ps_replies st !! p; Some (streq id (rp_uuid r))).

(** mqueue_remove: the reply leaves the queue, unless the queue is closed; the
    callers do not look at what it returns. *)
Definition remove_waiting (st : pstate) (p : ptr) : option pstate :=
  if remove_ret p =? 0 then
    '(h, len) ← queue_remove (ps_heads st) (ps_length st) p;
    Some (PState h len (ps_replies st) (ps_sent st))
  else Some st.

(** sendto() of the reply. *)
Definition send_reply (st : pstate) (r : reply) : pstate := PState (ps_heads st) (ps_length st) (ps_replies st) (ps_sent st ++ [(rp_addr r, take (rp_length r) (rp_data r))]).

(** The first zero byte from offset [o] on: for (i = 0; data[o + i] != 0; i++). *)
Fixpoint name_end (m : list Z) (i : nat) : option nat :=
  match m with [] => None | b :: m => if b =? 0 then Some i else name_end m (S i) end.

Definition DNS_RCODE_REJECT := 5.

(** The answer to a rejected request: the header and the question only. *)
Definition reject_packet (r : reply) : option reply :=
  m ← modify (rp_data r) 0 DNS_HEADER_LENGTH (fun m => DNS_HEADER_SET_RCODE m DNS_RCODE_REJECT);
  m ← modify m 0 DNS_HEADER_LENGTH (fun m => DNS_HEADER_SET ANCOUNT m 0);
  m ← modify m 0 DNS_HEADER_LENGTH (fun m => DNS_HEADER_SET NSCOUNT m 0);
  m ← modify m 0 DNS_HEADER_LENGTH (fun m => DNS_HEADER_SET ARCOUNT m 0);
  i ← name_end (drop DNS_HEADER_LENGTH m) 0;
  let len := (DNS_HEADER_LENGTH + i + 1 + 4)%nat in
  if decide (len <= length m)%nat then Some (set_packet r len m) else None.

(** The callback for FlowReq: [id] and [status] of the row, the changed
    columns; [fuel] bounds the walk. *)
Definition read_flowreq (fuel : nat) (id : string) (status fmask : Z) (st : pstate) : option (Z * pstate) :=
  if negb (mask_has fmask FREQ_STATUS) then Some (-1, st)
  else if negb (status =? REQ_STATUS_PENDING) && negb (status =? REQ_STATUS_ALLOWED) then
    p ← find_waiting fuel st id;
    if bool_decide (p = waiting) then Some (stop_, st)
    else
      st ← remove_waiting st p;
      r ← ps_replies st !! p;
      r ← reject_packet r;
      st ← free_reply (send_reply st r) p;
      Some (stop_, st)
  else Some (stop_, st).

Definition RRFIXEDSZ : nat := 10.

(** for (j = 0; name[j] != 0; j++) dns_fixed_hdr[j] = name[j]; and the final
    zero; both are parts of [m].  The memory and [j]. *)
Fixpoint copy_name (fuel : nat) (m : list Z) (name dst j : nat) : option (list Z * nat) :=
  b ← m !! (name + j)%nat;
  m ← bwrite m (Z.of_nat (dst + j)) [b];
  if b =? 0 then Some (m, j)
  else match fuel with O => None | S fuel => copy_name fuel m name dst (S j) end.

(** One record of the answer: the name of the question, the fixed part, and
    priority, prefix, prefix length, binding segment; [o] is its start.  The
    result is [None] (outer) for a write outside of the buffer, and no reply
    for a text that is not an address. *)
Definition add_srh_rr (r : reply) (priority : Z) (prefix_addr : string) (prefix_length : Z) (bsid : string) : option (option reply) :=
  m ← modify (rp_data r) 0 DNS_HEADER_LENGTH (fun m => DNS_HEADER_SET ARCOUNT m (DNS_HEADER ARCOUNT m + 1));
  '(m, j) ← copy_name (length m) m DNS_HEADER_LENGTH (rp_length r) 0;
  let hdr := (rp_length r + j + 1)%nat in
  m ← modify m hdr RRFIXEDSZ (fun m => DNS_RR_SET RR_TYPE m T_SRH);
  m ← modify m hdr RRFIXEDSZ (fun m => DNS_RR_SET RR_CLASS m C_IN);
  m ← modify m hdr RRFIXEDSZ (fun m => DNS_RR_SET RR_LEN m 35);
  m ← modify m hdr RRFIXEDSZ (fun m => DNS_RR_SET RR_TTL m 0);
  let srh := (hdr + RRFIXEDSZ)%nat in
  m ← modify m srh 2 (fun m => DNS__SET16BIT m (priority mod 2 ^ 16));
  match inet_pton prefix_addr with
  | None => Some None
  | Some a =>
      m ← bwrite m (Z.of_nat (srh + 2)) a;
      m ← bwrite m (Z.of_nat (srh + 18)) [prefix_length mod 2 ^ 8];
      match inet_pton bsid with
      | None => Some None
      | Some b =>
          m ← bwrite m (Z.of_nat (srh + 19)) b;
          rdlen ← rr_field RR_LEN m hdr;
          Some (Some (set_packet r (hdr + RRFIXEDSZ + Z.to_nat rdlen)%nat m))
      end
  end.

(** json_array_foreach(providers, i, provider) *)
Fixpoint add_providers (bsids : option json) (i : nat) (providers : list json) (r : reply) : option (option reply) :=
  match providers with
  | [] => Some (Some r)
  | provider :: providers =>
      match int_value (json_array_get provider 0), str_value (json_array_get provider 1), int_value (json_array_get provider 2),
            str_value (arr_get bsids i) with
      | Some prio, Some prefix, Some plen, Some bsid =>
          r ← add_srh_rr r prio prefix plen bsid;
          match r with Some r => add_providers bsids (S i) providers r | None => Some None end
      | _, _, _, _ => Some None
      end
  end.

(** The columns of a FlowState row that the callback reads. *)
Record flowstate := FlowState { fs_request_id : string; fs_status : Z; fs_sourceIPs : option string; fs_bsid : option string }.

(** The callback for FlowState.  json_loads(NULL) fails; a list that is not
    JSON is empty. *)
Definition read_flowstate (fuel : nat) (fs : flowstate) (fmask : Z) (st : pstate) : option (Z * pstate) :=
  if negb (mask_has fmask FE_STATUS) || negb (fs_status fs =? FLOW_STATUS_RUNNING) then Some (stop_, st)
  else
    p ← find_waiting fuel st (fs_request_id fs);
    if bool_decide (p = waiting) then Some (stop_, st)
    else
      st ← remove_waiting st p;
      r ← ps_replies st !! p;
      let providers := s ← fs_sourceIPs fs; json_loads s in
      let bsids := s ← fs_bsid fs; json_loads s in
      r ← add_providers bsids 0 (match providers with Some j => array_elems j | None => [] end) r;
      match r with
      | Some r =>
          if decide (rp_length r <= length (rp_data r))%nat then st ← free_reply (send_reply st r) p; Some (stop_, st) else None
      | None => st ← free_reply st p; Some (stop_, st)
      end.

(** ** Queries are parsed *)

Context `{!AresLaws A}.

Definition enc_opt (o : Z * list Z) : list Z := be 2 o.1 ++ be 2 (Z.of_nat (length o.2)) ++ o.2.
Definition opt_ok (o : Z * list Z) : Prop :=
  0 <= o.1 < 2 ^ 16 /\ Z.of_nat (length o.2) < 2 ^ 16 /\ (o.1 = T_OPT_OPCODE_APP_NAME -> (length o.2 <= SLEN)%nat) /\
  (o.1 = T_OPT_OPCODE_BANDWIDTH \/ o.1 = T_OPT_OPCODE_LATENCY -> (4 <= length o.2)%nat).

(** What an option asks for. *)
Definition apply_opt (q : query) (o : Z * list Z) : query :=
  if o.1 =? T_OPT_OPCODE_APP_NAME then set_req q (bandwidth_req q) (latency_req q) (cstr o.2)
  else if o.1 =? T_OPT_OPCODE_BANDWIDTH then set_req q (of_be (take 4 o.2)) (latency_req q) (app_name_req q)
  else if o.1 =? T_OPT_OPCODE_LATENCY then set_req q (bandwidth_req q) (of_be (take 4 o.2)) (app_name_req q)
  else q.

Lemma rr_field_app f a m : (roff f + rsize f <= length m)%nat -> rr_field f (a ++ m) (length a) = Some (of_be (take (rsize f) (drop (roff f) m))).
Proof. intros H. unfold rr_field. rewrite view_app by done. cbn [mbind option_bind]. by rewrite al_rr. Qed.

Lemma header_field_app f m : (12 <= length m)%nat -> header_field f m 0 = Some (of_be (take 2 (drop (hoff f) m))).
Proof. intros H. unfold header_field. replace (view m 0 DNS_HEADER_LENGTH) with (Some m) by (symmetry; by apply (view_app [] m)). cbn [mbind option_bind]. by rewrite al_header. Qed.

Lemma enc_opt_length o : length (enc_opt o) = (4 + length o.2)%nat.
Proof. unfold enc_opt. rewrite !length_app, !be_length. lia. Qed.

Lemma enc_opts_length opts : (length opts <= length (flat_map enc_opt opts))%nat.
Proof. induction opts as [|o opts IH]; [done|]. cbn [flat_map length]. rewrite length_app, enc_opt_length. lia. Qed.

Lemma opt_code a o rest : opt_ok o -> rr_field OPT_CODE (a ++ enc_opt o ++ rest) (length a) = Some o.1.
Proof.
  intros (H1 & _). rewrite rr_field_app by (rewrite length_app, enc_opt_length; simpl; lia). unfold enc_opt. cbn [roff rsize]. f_equal.
  rewrite drop_0, <- !app_assoc, take_app_length' by (by rewrite be_length). apply of_be_be. simpl. lia.
Qed.

Lemma opt_len a o rest : opt_ok o -> rr_field OPT_LEN (a ++ enc_opt o ++ rest) (length a) = Some (Z.of_nat (length o.2)).
Proof.
  intros (_ & H1 & _). rewrite rr_field_app by (rewrite length_app, enc_opt_length; simpl; lia). unfold enc_opt. cbn [roff rsize]. f_equal.
  rewrite <- !app_assoc, drop_app_length' by (by rewrite be_length). rewrite take_app_length' by (by rewrite be_length). apply of_be_be. simpl. lia.
Qed.

Lemma option_read_ok a o rest q : opt_ok o ->
  edns_option_read o.1 (length o.2) (a ++ enc_opt o ++ rest) (length a + 4) q = Some (apply_opt q o).
Proof.
  intros (_ & _ & Happ & H32). unfold edns_option_read, apply_opt.
  assert (a ++ enc_opt o ++ rest = (a ++ be 2 o.1 ++ be 2 (Z.of_nat (length o.2))) ++ o.2 ++ rest) as -> by (unfold enc_opt; by rewrite <- !app_assoc).
  replace (length a + 4)%nat with (length (a ++ be 2 o.1 ++ be 2 (Z.of_nat (length o.2)))) by (rewrite !length_app, !be_length; lia).
  destruct (Z.eqb_spec o.1 T_OPT_OPCODE_APP_NAME) as [E|_].
  - rewrite view_app by (rewrite length_app; lia). cbn [mbind option_bind]. rewrite (proj2 (Nat.leb_le _ _)) by auto.
    by rewrite take_app_length.
  - destruct (Z.eqb_spec o.1 T_OPT_OPCODE_BANDWIDTH) as [E|_]; [|destruct (Z.eqb_spec o.1 T_OPT_OPCODE_LATENCY) as [E|_]; [|done]];
      specialize (H32 ltac:(auto)); (rewrite view_app by (rewrite length_app; lia)); cbn [mbind option_bind];
      (rewrite al_32bit by (rewrite length_app; lia)); by rewrite take_app_le by lia.
Qed.

Lemma edns_loop_ok opts : forall fuel a i aptr rest q, Forall opt_ok opts -> (length opts <= fuel)%nat -> 0 <= i -> length a = (aptr + Z.to_nat i)%nat ->
  edns_loop fuel (a ++ flat_map enc_opt opts ++ rest) aptr (i + Z.of_nat (length (flat_map enc_opt opts))) i q = Some (foldl apply_opt q opts).
Proof.
  induction opts as [|o opts IH]; intros fuel a i aptr rest q Ho Hf Hi Ha.
  - cbn [flat_map length foldl]. rewrite Z.add_0_r. by destruct fuel; cbn [edns_loop]; rewrite Z.ltb_irrefl.
  - inversion Ho as [|?? Ho1 Ho2]; subst. destruct fuel as [|fuel]; [simpl in Hf; lia|]. cbn [edns_loop flat_map].
    rewrite (proj2 (Z.ltb_lt _ _)) by (rewrite length_app, enc_opt_length; lia).
    rewrite <- Ha, <- app_assoc, (opt_code a o _ Ho1). cbn [mbind option_bind]. rewrite (opt_len a o _ Ho1). cbn [mbind option_bind].
    rewrite Nat2Z.id, (option_read_ok a o _ q Ho1). cbn [mbind option_bind foldl].
    rewrite (app_assoc a (enc_opt o)). specialize (IH fuel (a ++ enc_opt o) (i + 4 + Z.of_nat (length o.2)) aptr rest (apply_opt q o) Ho2).
    rewrite <- IH; [|simpl in Hf; lia|lia|rewrite length_app, enc_opt_length, Ha; lia]. f_equal. rewrite length_app, enc_opt_length. lia.
Qed.

Lemma edns_loop_over before long after : forall fuel a i aptr rest q,
  Forall opt_ok before -> (SLEN < length long)%nat -> Z.of_nat (length long) < 2 ^ 16 -> (length before < fuel)%nat -> 0 <= i -> length a = (aptr + Z.to_nat i)%nat ->
  edns_loop fuel (a ++ flat_map enc_opt (before ++ (T_OPT_OPCODE_APP_NAME, long) :: after) ++ rest) aptr
    (i + Z.of_nat (length (flat_map enc_opt (before ++ (T_OPT_OPCODE_APP_NAME, long) :: after)))) i q = None.
Proof.
  induction before as [|o before IH]; intros fuel a i aptr rest q Ho Hlong Hl Hf Hi Ha; (destruct fuel as [|fuel]; [simpl in Hf; lia|]); cbn [edns_loop flat_map app].
  - set (o := (T_OPT_OPCODE_APP_NAME, long)). rewrite (proj2 (Z.ltb_lt _ _)) by (rewrite length_app, enc_opt_length; lia).
    rewrite <- Ha, <- app_assoc, rr_field_app by (rewrite length_app, enc_opt_length; simpl; lia). cbn [mbind option_bind].
    rewrite rr_field_app by (rewrite length_app, enc_opt_length; simpl; lia). cbn [mbind option_bind roff rsize]. unfold enc_opt. cbn [fst snd o]. rewrite drop_0, <- !app_assoc.
    rewrite (take_app_length' (be 2 _)), (drop_app_length' (be 2 _)), (take_app_length' (be 2 _)) by (by rewrite be_length). rewrite !of_be_be by (simpl; unfold T_OPT_OPCODE_APP_NAME; lia).
    rewrite Nat2Z.id. unfold edns_option_read. rewrite Z.eqb_refl. destruct (view _ _ _); [|done]. cbn [mbind option_bind]. by rewrite (proj2 (Nat.leb_gt _ _)).
  - inversion Ho as [|?? Ho1 Ho2]; subst. rewrite (proj2 (Z.ltb_lt _ _)) by (rewrite length_app, enc_opt_length; lia).
    rewrite <- Ha, <- app_assoc, (opt_code a o _ Ho1). cbn [mbind option_bind]. rewrite (opt_len a o _ Ho1). cbn [mbind option_bind].
    rewrite Nat2Z.id, (option_read_ok a o _ q Ho1). cbn [mbind option_bind]. rewrite (app_assoc a (enc_opt o)).
    specialize (IH fuel (a ++ enc_opt o) (i + 4 + Z.of_nat (length o.2)) aptr rest (apply_opt q o) Ho2 Hlong Hl).
    rewrite <- IH; [|simpl in Hf; lia|lia|rewrite length_app, enc_opt_length, Ha; lia]. f_equal. rewrite (length_app (enc_opt o)), enc_opt_length. lia.
Qed.

(** A query with an OPT record (RFC 6891): [flags] are the two flag bytes,
    [qname] and [qtail] the question. *)
Definition edns_header (qid : Z) (flags : list Z) : list Z := be 2 qid ++ flags ++ be 2 1 ++ be 2 0 ++ be 2 0 ++ be 2 1.
Definition opt_fixed (size len : Z) : list Z := be 2 T_OPT ++ be 2 size ++ be 4 0 ++ be 2 len.
Definition edns_query (qid : Z) (flags qname qtail : list Z) (size : Z) (opts : list (Z * list Z)) : list Z :=
  edns_header qid flags ++ qname ++ qtail ++ [0] ++ opt_fixed size (Z.of_nat (length (flat_map enc_opt opts))) ++ flat_map enc_opt opts.

Lemma edns_header_length qid flags : length flags = 2%nat -> length (edns_header qid flags) = 12%nat.
Proof. intros H. unfold edns_header. rewrite !length_app, !be_length. lia. Qed.

(** The 16-bit field behind [a]. *)
Lemma field16 a v rest n : length a = n -> 0 <= v < 2 ^ 16 -> of_be (take 2 (drop n (a ++ be 2 v ++ rest))) = v.
Proof. intros <- Hv. rewrite drop_app_length, take_app_length' by (by rewrite be_length). by apply of_be_be. Qed.

Lemma edns_header_fields qid flags rest : length flags = 2%nat -> 0 <= qid < 2 ^ 16 ->
  header_field QDCOUNT (edns_header qid flags ++ rest) 0 = Some 1 /\ header_field ANCOUNT (edns_header qid flags ++ rest) 0 = Some 0 /\
  header_field NSCOUNT (edns_header qid flags ++ rest) 0 = Some 0 /\ header_field ARCOUNT (edns_header qid flags ++ rest) 0 = Some 1 /\
  header_field QID (edns_header qid flags ++ rest) 0 = Some qid.
Proof.
  intros Hf Hq. rewrite !header_field_app by (rewrite length_app, edns_header_length; [lia|done]). unfold edns_header. rewrite <- !app_assoc. cbn [hoff].
  split_and!; f_equal.
  - rewrite (app_assoc (be 2 qid)). apply field16; [rewrite length_app, be_length; lia|lia].
  - rewrite (app_assoc (be 2 qid)), (app_assoc (_ ++ _) (be 2 1)). apply field16; [rewrite !length_app, !be_length; lia|lia].
  - rewrite (app_assoc (be 2 qid)), (app_assoc (_ ++ _) (be 2 1)), (app_assoc (_ ++ _) (be 2 0)). apply field16; [rewrite !length_app, !be_length; lia|lia].
  - rewrite (app_assoc (be 2 qid)), (app_assoc (_ ++ _) (be 2 1)), 2!(app_assoc (_ ++ _) (be 2 0)). apply field16; [rewrite !length_app, !be_length; lia|lia].
  - apply (field16 []); [done|lia].
Qed.

(** The query is parsed up to its options. *)
Lemma dns_parse_header (ares_expand_name : list Z -> nat -> Z -> option (string * Z)) q qid flags qname qtail size opts junk name :
  q_data q = edns_query qid flags qname qtail size opts ++ junk -> length flags = 2%nat -> length qtail = 4%nat -> 0 <= qid < 2 ^ 16 ->
  Z.of_nat (length (flat_map enc_opt opts)) < 2 ^ 16 -> ares_expand_name (q_data q) 12%nat (q_length q) = Some (name, Z.of_nat (length qname)) ->
  exists a aptr, q_data q = a ++ flat_map enc_opt opts ++ junk /\ length a = (aptr + Z.to_nat 0)%nat /\
    dns_parse_edns ares_expand_name q =
      (q ← edns_loop (length (flat_map enc_opt opts)) (q_data q) aptr (0 + Z.of_nat (length (flat_map enc_opt opts))) 0 (set_req q 0 0 "");
       Some (0, (if bool_decide (app_name_req q = "") then set_req q (bandwidth_req q) (latency_req q) (inet_ntop (q_addr q)) else q), Some name)).
Proof.
  intros Hd Hf Hq Hqid Hl Hn.
  set (len := Z.of_nat (length (flat_map enc_opt opts))) in *.
  set (a1 := edns_header qid flags ++ qname ++ qtail ++ [0]).
  assert (length a1 = (12 + Z.to_nat (Z.of_nat (length qname)) + 4 + 1)%nat) as Ha1 by (subst a1; rewrite !length_app, edns_header_length; simpl; lia).
  assert (q_data q = a1 ++ opt_fixed size len ++ flat_map enc_opt opts ++ junk) as Hd1 by (rewrite Hd; subst a1; unfold edns_query; by rewrite <- !app_assoc).
  exists (a1 ++ opt_fixed size len), (length a1 + 10)%nat. split_and!.
  - by rewrite Hd1, <- app_assoc.
  - rewrite length_app. unfold opt_fixed. rewrite !length_app, !be_length. lia.
  - unfold dns_parse_edns. assert (q_data q = edns_header qid flags ++ drop 12 (q_data q)) as Hh.
    { rewrite Hd. unfold edns_query. rewrite <- app_assoc. by rewrite drop_app_length' by (by rewrite edns_header_length). }
    destruct (edns_header_fields qid flags (drop 12 (q_data q)) Hf Hqid) as (E1 & E2 & E3 & E4 & _). rewrite <- Hh in E1, E2, E3, E4.
    rewrite E1, E2, E3, E4. cbn [mbind option_bind negb orb Z.eqb Z.ltb Z.compare q_length set_req Pos.compare Pos.compare_cont Pos.eqb].
    change DNS_HEADER_LENGTH with 12%nat. rewrite Hn. cbn [Z.eqb].
    replace (S (12 + Z.to_nat (Z.of_nat (length qname)) + DNS_FIXED_HEADER_QUERY)) with (length a1) by (rewrite Ha1; unfold DNS_FIXED_HEADER_QUERY; lia).
    assert (length (opt_fixed size len) = 10%nat) as Ho by (unfold opt_fixed; rewrite !length_app, !be_length; done).
    rewrite Hd1 at 1. rewrite rr_field_app by (rewrite !length_app, Ho; simpl; lia). cbn [mbind option_bind].
    rewrite Hd1 at 1. rewrite rr_field_app by (rewrite !length_app, Ho; simpl; lia). cbn [mbind option_bind roff rsize].
    assert (of_be (take 2 (drop 8 (opt_fixed size len ++ flat_map enc_opt opts ++ junk))) = len) as ->.
    { unfold opt_fixed. rewrite <- !app_assoc, (app_assoc (be 2 T_OPT)), (app_assoc (_ ++ _) (be 4 0)).
      apply field16; [by rewrite !length_app, !be_length|lia]. }
    rewrite Z.add_0_l. subst len. rewrite Nat2Z.id. reflexivity.
Qed.
(** ** Replies are extended *)

Lemma bwrite_length m o bs m' : bwrite m o bs = Some m' -> length m' = length m.
Proof.
  unfold bwrite. destruct (_ && _) eqn:E; [|done]. intros [= <-]. bool_prop. rewrite !length_app, length_take, length_drop. lia.
Qed.

Lemma bwrite_none m o bs : (length m < o + length bs)%nat -> bwrite m (Z.of_nat o) bs = None.
Proof.
  intros H. unfold bwrite. replace (Z.of_nat o + Z.of_nat (length bs) <=? Z.of_nat (length m)) with false by (symmetry; apply Z.leb_gt; lia).
  by rewrite andb_false_r.
Qed.

(** Writing at the end of what is used of a buffer. *)
Lemma bwrite_tail a free bs n : n = length a -> (length bs <= length free)%nat ->
  bwrite (a ++ free) (Z.of_nat n) bs = Some (a ++ bs ++ drop (length bs) free).
Proof.
  intros -> H. rewrite <- (take_drop (length bs) free) at 1. apply bwrite_app. rewrite length_take. lia.
Qed.

Lemma bwrite_step m o b bs : bwrite m (Z.of_nat o) (b :: bs) = (m ← bwrite m (Z.of_nat o) [b]; bwrite m (Z.of_nat (S o)) bs).
Proof.
  destruct (decide (S o + length bs <= length m)%nat) as [H|H].
  - assert (exists a x c d, m = a ++ [x] ++ c ++ d /\ length a = o /\ length c = length bs) as (a & x & c & d & -> & Ha & Hc).
    { exists (take o m). destruct (drop o m) as [|x t] eqn:E; [apply (f_equal length) in E; rewrite length_drop in E; simpl in E; lia|].
      exists x, (take (length bs) t), (drop (length bs) t).
      assert (length t = length m - o - 1)%nat by (apply (f_equal length) in E; rewrite length_drop in E; simpl in E; lia).
      rewrite length_take, !length_take. split_and!; [|lia|lia]. rewrite take_drop. change ([x] ++ t) with (x :: t). by rewrite <- E, take_drop. }
    rewrite <- Ha, (bwrite_app a [x] [b] (c ++ d)) by done. cbn [mbind option_bind].
    rewrite (app_assoc a [b]). replace (S (length a)) with (length (a ++ [b])) by (rewrite length_app; simpl; lia).
    rewrite (bwrite_app (a ++ [b]) c bs d) by done. rewrite (app_assoc [x] c), (bwrite_app a ([x] ++ c) (b :: bs) d) by (simpl; lia).
    by rewrite <- app_assoc.
  - rewrite bwrite_none by (simpl; lia). destruct (bwrite m (Z.of_nat o) [b]) as [m'|] eqn:E; [|done]. cbn [mbind option_bind].
    apply bwrite_length in E. rewrite bwrite_none by lia. done.
Qed.

Lemma bwrite_lookup m o b m' i : bwrite m (Z.of_nat o) [b] = Some m' -> i <> o -> m' !! i = m !! i.
Proof.
  unfold bwrite. destruct (_ && _) eqn:E; [|done]. intros [= <-] Hi. bool_prop. cbn [length] in *. rewrite Nat2Z.id.
  destruct (decide (i < o)%nat).
  - rewrite lookup_app_l by (rewrite length_take; lia). by rewrite lookup_take_lt.
  - rewrite lookup_app_r by (rewrite length_take; lia). rewrite length_take.
    destruct (i - o `min` length m)%nat as [|k] eqn:Ek; [lia|].
    transitivity (drop (o + 1) m !! k); [done|]. rewrite lookup_drop. f_equal. lia.
Qed.

Lemma copy_name_ok nm : forall fuel m src dst j, Forall (fun b => b <> 0) nm -> (length nm <= fuel)%nat ->
  (forall i b, (nm ++ [0]) !! i = Some b -> m !! (src + j + i)%nat = Some b) -> (src + length nm < dst)%nat ->
  copy_name fuel m src dst j = (m ← bwrite m (Z.of_nat (dst + j)) (nm ++ [0]); Some (m, (j + length nm)%nat)).
Proof.
  induction nm as [|x nm IH]; intros fuel m src dst j Hnz Hf Hm Hd.
  - specialize (Hm 0%nat 0 eq_refl). rewrite Nat.add_0_r in Hm. destruct fuel; cbn [copy_name]; rewrite Hm; cbn [mbind option_bind app length];
      (destruct (bwrite m (Z.of_nat (dst + j)) [0]); [|done]); cbn [mbind option_bind Z.eqb]; by rewrite Nat.add_0_r.
  - inversion Hnz as [|?? Hx Hnz']; subst. pose proof (Hm 0%nat x eq_refl) as Hx0. rewrite Nat.add_0_r in Hx0.
    destruct fuel as [|fuel]; [simpl in Hf; lia|]. cbn [copy_name]. rewrite Hx0. cbn [mbind option_bind].
    rewrite <- app_comm_cons, (bwrite_step m (dst + j) x (nm ++ [0])). destruct (bwrite m (Z.of_nat (dst + j)) [x]) as [m1|] eqn:E; [|done]. cbn [mbind option_bind].
    destruct (Z.eqb_spec x 0); [done|]. simpl in Hd. rewrite (IH fuel m1 src dst (S j)); [|done|simpl in Hf; lia| |lia].
    + replace (dst + S j)%nat with (S (dst + j)) by lia. simpl length. replace (S j + length nm)%nat with (j + S (length nm))%nat by lia. done.
    + intros i b Hb. rewrite (bwrite_lookup _ _ _ _ _ E).
      * replace (src + S j + i)%nat with (src + j + S i)%nat by lia. by apply Hm.
      * apply lookup_lt_Some in Hb. rewrite length_app in Hb. simpl in Hb. lia.
Qed.

(** A record of the answer: RFC 1035 with the data of the SRH type. *)
Definition srh_rr (nm : list Z) (prio : Z) (prefix : in6_addr) (plen : Z) (bsid : in6_addr) : list Z :=
  (nm ++ [0]) ++ be 2 T_SRH ++ be 2 C_IN ++ be 4 0 ++ be 2 35 ++ be 2 prio ++ prefix ++ [plen] ++ bsid.

(** The message with one more additional record. *)
Definition more_records (n : Z) (hdr : list Z) : list Z := splice 10 (be 2 (of_be (take 2 (drop 10 hdr)) + n)) hdr.

Lemma srh_rr_length nm prio prefix plen bsid : length prefix = 16%nat -> length bsid = 16%nat -> length (srh_rr nm prio prefix plen bsid) = (length nm + 46)%nat.
Proof. intros H1 H2. unfold srh_rr. rewrite !length_app, !be_length. simpl. lia. Qed.

Lemma split_list (n : nat) (l : list Z) : (n <= length l)%nat -> exists a b, l = a ++ b /\ length a = n.
Proof. intros H. exists (take n l), (drop n l). rewrite take_drop, length_take. split; [done|lia]. Qed.
Lemma splice_within o bs a x : (o + length bs <= length a)%nat -> splice o bs (a ++ x) = splice o bs a ++ x.
Proof. intros H. unfold splice. rewrite take_app_le, drop_app_le, <- !app_assoc by lia. done. Qed.

Lemma set_arcount hdr x : length hdr = 12%nat ->
  modify (hdr ++ x) 0 DNS_HEADER_LENGTH (fun m => DNS_HEADER_SET ARCOUNT m (DNS_HEADER ARCOUNT m + 1)) = Some (more_records 1 hdr ++ x).
Proof.
  intros Hh. assert (12 <= length (hdr ++ x))%nat as Hl by (rewrite length_app; lia).
  etransitivity; [exact (modify_app [] (hdr ++ x) 12 _ Hl)|]. cbn [app]. rewrite al_header_set, al_header by done. unfold more_records. cbn [hoff].
  rewrite drop_app_le, take_app_le by (rewrite ?length_drop; lia). by rewrite splice_within by (rewrite be_length; lia).
Qed.

(** A field of the fixed part of the record that starts behind [p]. *)
Lemma set_rr f p x old rest v : length x = roff f -> length old = rsize f -> (10 <= length (x ++ old ++ rest))%nat ->
  modify (p ++ x ++ old ++ rest) (length p) RRFIXEDSZ (fun m => DNS_RR_SET f m v) = Some (p ++ x ++ be (rsize f) v ++ rest).
Proof.
  intros Hx Ho Hl. rewrite modify_app by done. rewrite al_rr_set by (rewrite !length_app; lia). f_equal. f_equal. rewrite <- Hx.
  apply splice_app. by rewrite be_length.
Qed.

Lemma set_rr_type p old rest v : length old = 2%nat -> (10 <= length (old ++ rest))%nat ->
  modify (p ++ old ++ rest) (length p) RRFIXEDSZ (fun m => DNS_RR_SET RR_TYPE m v) = Some (p ++ be 2 v ++ rest).
Proof. intros Ho Hl. exact (set_rr RR_TYPE p [] old rest v eq_refl Ho Hl). Qed.

Lemma splice_head b c d : length b = length d -> splice 0 d (b ++ c) = d ++ c.
Proof. intros H. exact (splice_app [] b c d H). Qed.

Lemma more_records_length n hdr : length hdr = 12%nat -> length (more_records n hdr) = 12%nat.
Proof. intros H. unfold more_records. by rewrite splice_length by (rewrite be_length; lia). Qed.

(** The record is written behind [p], over the free bytes of the buffer. *)
Lemma write_srh p free prio a plen b : length a = 16%nat -> length b = 16%nat -> (45 <= length free)%nat ->
  (m ← modify (p ++ free) (length p) RRFIXEDSZ (fun m => DNS_RR_SET RR_TYPE m T_SRH);
   m ← modify m (length p) RRFIXEDSZ (fun m => DNS_RR_SET RR_CLASS m C_IN);
   m ← modify m (length p) RRFIXEDSZ (fun m => DNS_RR_SET RR_LEN m 35);
   m ← modify m (length p) RRFIXEDSZ (fun m => DNS_RR_SET RR_TTL m 0);
   m ← modify m (length p + RRFIXEDSZ) 2 (fun m => DNS__SET16BIT m prio);
   m ← bwrite m (Z.of_nat (length p + RRFIXEDSZ + 2)) a;
   m ← bwrite m (Z.of_nat (length p + RRFIXEDSZ + 18)) [plen];
   bwrite m (Z.of_nat (length p + RRFIXEDSZ + 19)) b) =
  Some (p ++ (be 2 T_SRH ++ be 2 C_IN ++ be 4 0 ++ be 2 35 ++ be 2 prio ++ a ++ [plen] ++ b) ++ drop 45 free).
Proof.
  intros Ha Hb Hf.
  destruct (split_list 45 free Hf) as (f & tl & -> & Hlf). rewrite drop_app_length' by done. clear Hf.
  destruct (split_list 2 f ltac:(lia)) as (f0 & f0' & -> & L0). rewrite length_app in Hlf.
  destruct (split_list 2 f0' ltac:(lia)) as (f1 & f1' & -> & L1). rewrite length_app in Hlf.
  destruct (split_list 4 f1' ltac:(lia)) as (f2 & f2' & -> & L2). rewrite length_app in Hlf.
  destruct (split_list 2 f2' ltac:(lia)) as (f3 & f3' & -> & L3). rewrite length_app in Hlf.
  destruct (split_list 2 f3' ltac:(lia)) as (f4 & f4' & -> & L4). rewrite length_app in Hlf.
  destruct (split_list 16 f4' ltac:(lia)) as (f5 & f5' & -> & L5). rewrite length_app in Hlf.
  destruct (split_list 1 f5' ltac:(lia)) as (f6 & f7 & -> & L6). rewrite length_app in Hlf. rewrite <- !app_assoc.
  rewrite (set_rr_type p f0) by (rewrite ?length_app; simpl; lia). cbn [mbind option_bind rsize].
  rewrite (set_rr RR_CLASS p (be 2 T_SRH) f1) by (rewrite ?length_app, ?be_length; simpl; lia). cbn [mbind option_bind rsize].
  rewrite (app_assoc (be 2 T_SRH)), (app_assoc (_ ++ _) f2).
  rewrite (set_rr RR_LEN p ((be 2 T_SRH ++ be 2 C_IN) ++ f2) f3) by (rewrite ?length_app, ?be_length; simpl; lia). cbn [mbind option_bind rsize].
  rewrite <- (app_assoc (be 2 T_SRH ++ be 2 C_IN) f2).
  rewrite (set_rr RR_TTL p (be 2 T_SRH ++ be 2 C_IN) f2) by (rewrite ?length_app, ?be_length; simpl; lia). cbn [mbind option_bind rsize].
  set (fx := be 2 T_SRH ++ be 2 C_IN ++ be 4 0 ++ be 2 35). assert (length fx = 10%nat) as Lx by (subst fx; by rewrite !length_app, !be_length).
  replace (p ++ (be 2 T_SRH ++ be 2 C_IN) ++ be 4 0 ++ be 2 35 ++ f4 ++ f5 ++ f6 ++ f7 ++ tl) with ((p ++ fx) ++ f4 ++ f5 ++ f6 ++ f7 ++ tl)
    by (subst fx; by rewrite <- !app_assoc).
  replace (length p + RRFIXEDSZ)%nat with (length (p ++ fx)) by (rewrite length_app; unfold RRFIXEDSZ; lia).
  rewrite modify_app by (rewrite length_app; lia). cbn [mbind option_bind]. rewrite al_set16bit by (rewrite length_app; lia).
  rewrite splice_head by (rewrite be_length; lia).
  replace ((p ++ fx) ++ be 2 prio ++ f5 ++ f6 ++ f7 ++ tl) with ((p ++ fx ++ be 2 prio) ++ f5 ++ f6 ++ f7 ++ tl) by (by rewrite <- !app_assoc).
  replace (length (p ++ fx) + 2)%nat with (length (p ++ fx ++ be 2 prio)) by (rewrite !length_app, be_length; lia).
  rewrite bwrite_app by lia. cbn [mbind option_bind].
  replace ((p ++ fx ++ be 2 prio) ++ a ++ f6 ++ f7 ++ tl) with ((p ++ fx ++ be 2 prio ++ a) ++ f6 ++ f7 ++ tl) by (by rewrite <- !app_assoc).
  replace (length (p ++ fx) + 18)%nat with (length (p ++ fx ++ be 2 prio ++ a)) by (rewrite !length_app, be_length; lia).
  rewrite bwrite_app by (simpl; lia). cbn [mbind option_bind].
  replace ((p ++ fx ++ be 2 prio ++ a) ++ [plen] ++ f7 ++ tl) with ((p ++ fx ++ be 2 prio ++ a ++ [plen]) ++ f7 ++ tl) by (by rewrite <- !app_assoc).
  replace (length (p ++ fx) + 19)%nat with (length (p ++ fx ++ be 2 prio ++ a ++ [plen])) by (rewrite !length_app, be_length; simpl; lia).
  rewrite bwrite_app by lia. subst fx. f_equal. by rewrite <- !app_assoc.
Qed.
Ltac bind_steps := repeat (match goal with |- (_ ← ?x; _) = _ -> _ => destruct x; [|done]; cbn [mbind option_bind] end).

(** A reply whose message is [hdr], a question name and [rest], and whose
    buffer has [free] bytes left. *)
Record packet (r : reply) (hdr nm rest free : list Z) : Prop := {
  pk_data : rp_data r = (hdr ++ (nm ++ [0]) ++ rest) ++ free;
  pk_length : rp_length r = length (hdr ++ (nm ++ [0]) ++ rest);
  pk_hdr : length hdr = 12%nat;
  pk_name : Forall (fun b => b <> 0) nm
}.

(** The name of the question copied behind the message. *)
Lemma copy_question r hdr nm rest free : packet r hdr nm rest free ->
  (m ← modify (rp_data r) 0 DNS_HEADER_LENGTH (fun m => DNS_HEADER_SET ARCOUNT m (DNS_HEADER ARCOUNT m + 1));
   copy_name (length m) m DNS_HEADER_LENGTH (rp_length r) 0) =
  (m ← bwrite ((more_records 1 hdr ++ (nm ++ [0]) ++ rest) ++ free) (Z.of_nat (rp_length r)) (nm ++ [0]); Some (m, length nm)).
Proof.
  intros [Hd Hl Hh Hn]. rewrite Hd, <- app_assoc, set_arcount by done. cbn [mbind option_bind]. rewrite app_assoc.
  pose proof (more_records_length 1 hdr Hh) as Lh. rewrite (copy_name_ok nm _ _ DNS_HEADER_LENGTH); [by rewrite Nat.add_0_r|done| | |].
  - rewrite !length_app. lia.
  - intros i b Hb. rewrite <- app_assoc, lookup_app_r by (rewrite Lh; unfold DNS_HEADER_LENGTH; lia).
    rewrite Lh, <- app_assoc, lookup_app_l; [rewrite <- Hb; f_equal; unfold DNS_HEADER_LENGTH; lia|].
    apply lookup_lt_Some in Hb. unfold DNS_HEADER_LENGTH. lia.
  - rewrite Hl, !length_app, Hh. simpl. unfold DNS_HEADER_LENGTH. lia.
Qed.

Lemma srh_rdlen p prio a plen b rest :
  rr_field RR_LEN (p ++ (be 2 T_SRH ++ be 2 C_IN ++ be 4 0 ++ be 2 35 ++ be 2 prio ++ a ++ [plen] ++ b) ++ rest) (length p) = Some 35.
Proof.
  rewrite rr_field_app by (rewrite !length_app, !be_length; simpl; lia). reflexivity.
Qed.

Lemma add_srh_rr_ok r hdr nm rest free prio prefix plen bsid a b :
  packet r hdr nm rest free -> inet_pton prefix = Some a -> inet_pton bsid = Some b -> length a = 16%nat -> length b = 16%nat ->
  (length nm + 46 <= length free)%nat ->
  let data := (more_records 1 hdr ++ (nm ++ [0]) ++ rest ++ srh_rr nm (prio mod 2 ^ 16) a (plen mod 2 ^ 8) b) ++ drop (length nm + 46) free in
  add_srh_rr r prio prefix plen bsid = Some (Some (set_packet r (rp_length r + (length nm + 46)) data)).
Proof.
  intros Hp Ha Hb La Lb Hf data. unfold add_srh_rr. rewrite Ha, Hb. pose proof (copy_question r hdr nm rest free Hp) as Hc. destruct Hp as [Hd Hl Hh Hn].
  set (p0 := more_records 1 hdr ++ (nm ++ [0]) ++ rest) in *.
  assert (rp_length r = length p0) as Lp by (subst p0; rewrite Hl, !length_app, (more_records_length 1 hdr Hh), Hh; done).
  rewrite (bwrite_tail p0 free (nm ++ [0])) in Hc by (rewrite ?length_app; simpl; lia). cbn [mbind option_bind] in Hc. revert Hc.
  destruct (modify (rp_data r) _ _ _) as [m0|]; [|done]. cbn [mbind option_bind]. intros ->. cbn [mbind option_bind].
  replace (length (nm ++ [0])) with (length nm + 1)%nat by (rewrite length_app; simpl; lia). rewrite (app_assoc p0).
  replace (rp_length r + length nm + 1)%nat with (length (p0 ++ nm ++ [0])) by (rewrite Lp, !length_app; simpl; lia).
  pose proof (write_srh (p0 ++ nm ++ [0]) (drop (length nm + 1) free) (prio mod 2 ^ 16) a (plen mod 2 ^ 8) b La Lb ltac:(rewrite length_drop; lia)) as Hw.
  revert Hw. bind_steps. intros ->. cbn [mbind option_bind]. rewrite srh_rdlen. cbn [mbind option_bind]. do 2 f_equal. f_equal.
  - rewrite Lp, !length_app. unfold RRFIXEDSZ. simpl. lia.
  - subst data p0. unfold srh_rr. rewrite drop_drop, <- !app_assoc. by replace (length nm + 1 + 45)%nat with (length nm + 46)%nat by lia.
Qed.
(** *** The buffer is too small *)

Lemma set_rr_len f m o v m' : modify m o RRFIXEDSZ (fun m => DNS_RR_SET f m v) = Some m' -> length m' = length m.
Proof.
  unfold modify. destruct (decide _) as [H|]; [|done]. intros [= <-]. unfold RRFIXEDSZ in H. rewrite length_app, length_take.
  rewrite al_rr_set, splice_length; rewrite ?be_length, ?length_drop; destruct f; simpl; lia.
Qed.

Lemma set_16_len m o v m' : modify m o 2 (fun m => DNS__SET16BIT m v) = Some m' -> length m' = length m.
Proof.
  unfold modify. destruct (decide _) as [H|]; [|done]. intros [= <-]. rewrite length_app, length_take.
  rewrite al_set16bit, splice_length; rewrite ?be_length, ?length_drop; lia.
Qed.

Lemma add_srh_rr_over r hdr nm rest free prio prefix plen bsid a b :
  packet r hdr nm rest free -> inet_pton prefix = Some a -> inet_pton bsid = Some b -> length b = 16%nat ->
  (length free < length nm + 46)%nat -> add_srh_rr r prio prefix plen bsid = None.
Proof.
  intros Hp Ha Hb Lb Hf. unfold add_srh_rr. rewrite Ha, Hb. pose proof (copy_question r hdr nm rest free Hp) as Hc. destruct Hp as [Hd Hl Hh Hn]. revert Hc.
  destruct (modify (rp_data r) _ _ _) as [m0|]; [|done]. cbn [mbind option_bind]. intros ->.
  destruct (bwrite _ _ (nm ++ [0])) as [m1|] eqn:E1; [|done]. cbn [mbind option_bind]. apply bwrite_length in E1.
  assert (length m1 = (rp_length r + length free)%nat) as L1.
  { rewrite E1, Hl, !length_app, (more_records_length 1 hdr Hh), Hh. lia. }
  repeat (match goal with
    | |- (_ ← modify ?m ?o ?n ?f; _) = None =>
        let E := fresh in destruct (modify m o n f) eqn:E; [|done]; cbn [mbind option_bind];
        first [apply set_rr_len in E | apply set_16_len in E]
    end).
  destruct (bwrite _ _ a) as [m6|] eqn:E6; [|done]. cbn [mbind option_bind]. apply bwrite_length in E6.
  destruct (bwrite _ _ [_]) as [m7|] eqn:E7; [|done]. cbn [mbind option_bind]. apply bwrite_length in E7.
  rewrite bwrite_none; [done|]. unfold RRFIXEDSZ. lia.
Qed.

(** *** All the providers of a flow *)

Record provider_data := Prov { pr_prio : Z; pr_prefix : string; pr_plen : Z; pr_bsid : string }.

Definition json_provider (j : json) (p : provider_data) : Prop :=
  int_value (json_array_get j 0) = Some (pr_prio p) /\ str_value (json_array_get j 1) = Some (pr_prefix p) /\
  int_value (json_array_get j 2) = Some (pr_plen p).

(** Its texts are addresses. *)
Definition prov_ok (p : provider_data) : Prop :=
  (exists a, inet_pton (pr_prefix p) = Some a /\ length a = 16%nat) /\ exists b, inet_pton (pr_bsid p) = Some b /\ length b = 16%nat.

Definition rr_of (nm : list Z) (p : provider_data) : list Z :=
  srh_rr nm (pr_prio p mod 2 ^ 16) (default [] (inet_pton (pr_prefix p))) (pr_plen p mod 2 ^ 8) (default [] (inet_pton (pr_bsid p))).

Lemma le_mod n z : le n (z mod 256 ^ Z.of_nat n) = le n z.
Proof.
  revert z. induction n as [|n IH]; intros z; [done|]. rewrite Nat2Z.inj_succ, Z.pow_succ_r by lia. cbn [le].
  assert (0 < 256 ^ Z.of_nat n) by (apply Z.pow_pos_nonneg; lia). f_equal.
  - apply Z.mod_mod_divide. exists (256 ^ Z.of_nat n). lia.
  - rewrite <- (IH (z / 256)). f_equal. rewrite Z.rem_mul_r by lia. rewrite Z.mul_comm, Z.div_add by lia. rewrite Z.div_small by (apply Z.mod_pos_bound; lia). lia.
Qed.

Lemma be2_mod z : be 2 (z mod 2 ^ 16) = be 2 z.
Proof. unfold be. f_equal. apply (le_mod 2). Qed.

Lemma of_be_be2 z : of_be (be 2 z) = z mod 2 ^ 16.
Proof. rewrite <- be2_mod. apply of_be_be. simpl. apply Z.mod_pos_bound. lia. Qed.

Lemma more_records_field n hdr : length hdr = 12%nat -> more_records n hdr = take 10 hdr ++ be 2 (of_be (drop 10 hdr) + n).
Proof.
  intros H. unfold more_records, splice. rewrite be_length, (drop_ge hdr (10 + 2)) by lia. rewrite app_nil_r. do 3 f_equal. rewrite take_ge; [done|rewrite length_drop; lia].
Qed.

Lemma more_records_add n hdr : length hdr = 12%nat -> more_records n (more_records 1 hdr) = more_records (n + 1) hdr.
Proof.
  intros H. rewrite !more_records_field by (by rewrite ?more_records_length). rewrite take_app_length', drop_app_length' by (rewrite length_take; lia).
  f_equal. rewrite of_be_be2, <- be2_mod, Zplus_mod_idemp_l, be2_mod. f_equal. lia.
Qed.

Definition bytes (l : list Z) : Prop := Forall (fun b => 0 <= b < 256) l.

Lemma more_records_0 hdr : length hdr = 12%nat -> bytes hdr -> more_records 0 hdr = hdr.
Proof.
  intros H Hb. rewrite more_records_field, Z.add_0_r by done.
  destruct (split_list 10 hdr ltac:(lia)) as (a & b & -> & La). rewrite take_app_length', drop_app_length' by done. f_equal.
  rewrite length_app in H. destruct b as [|x [|y [|]]]; simpl in H; try lia. apply Forall_app in Hb as [_ Hb]. rewrite !Forall_cons in Hb.
  unfold of_be, be. cbn [rev app of_le le]. repeat f_equal; Z.to_euclidean_division_equations; lia.
Qed.

Lemma be2_bytes z : bytes (be 2 z).
Proof. unfold be, bytes. cbn [le rev app]. repeat constructor; apply Z.mod_pos_bound; lia. Qed.

Lemma more_records_bytes n hdr : length hdr = 12%nat -> bytes hdr -> bytes (more_records n hdr).
Proof. intros H Hb. rewrite more_records_field by done. apply Forall_app. split; [by apply Forall_take|apply be2_bytes]. Qed.
Lemma add_providers_step bsids i j js p r : json_provider j p -> str_value (arr_get bsids i) = Some (pr_bsid p) ->
  add_providers bsids i (j :: js) r =
    (r ← add_srh_rr r (pr_prio p) (pr_prefix p) (pr_plen p) (pr_bsid p); match r with Some r => add_providers bsids (S i) js r | None => Some None end).
Proof. intros (H1 & H2 & H3) H4. cbn [add_providers]. by rewrite H1, H2, H3, H4. Qed.

Definition bsids_of (bsids : option json) (i : nat) (ps : list provider_data) : Prop :=
  forall k p, ps !! k = Some p -> str_value (arr_get bsids (i + k)) = Some (pr_bsid p).

Lemma bsids_of_cons bsids i p ps : bsids_of bsids i (p :: ps) -> str_value (arr_get bsids i) = Some (pr_bsid p) /\ bsids_of bsids (S i) ps.
Proof.
  intros H. split; [by rewrite <- (H 0%nat p eq_refl), Nat.add_0_r|]. intros k x Hk. rewrite <- (H (S k) x Hk). f_equal. f_equal. lia.
Qed.

Lemma add_providers_ok bsids ps : forall js i r hdr nm rest free, Forall2 json_provider js ps -> bsids_of bsids i ps -> Forall prov_ok ps ->
  packet r hdr nm rest free -> bytes hdr -> (length ps * (length nm + 46) <= length free)%nat ->
  let size := (length ps * (length nm + 46))%nat in
  add_providers bsids i js r = Some (Some (set_packet r (rp_length r + size)
    ((more_records (Z.of_nat (length ps)) hdr ++ (nm ++ [0]) ++ rest ++ flat_map (rr_of nm) ps) ++ drop size free))).
Proof.
  induction ps as [|p ps IH]; intros js i r hdr nm rest free Hjs Hb Hok Hp Hby Hf size.
  - inversion Hjs; subst. destruct Hp as [Hd Hl Hh Hn]. subst size. cbn [add_providers length flat_map Nat.mul Z.of_nat]. rewrite more_records_0 by done.
    rewrite drop_0, app_nil_r, Nat.add_0_r, <- Hd. by destruct r.
  - inversion Hjs as [|j ? js' ? Hj Hjs']; subst. apply bsids_of_cons in Hb as [Hb1 Hb2]. inversion Hok as [|?? Hok1 Hok2]; subst.
    destruct Hok1 as ((a & Ha & La) & b & Hb & Lb). simpl in Hf. pose proof Hp as [Hd Hl Hh Hn].
    rewrite (add_providers_step bsids i j js' p r Hj Hb1), (add_srh_rr_ok r hdr nm rest free _ _ _ _ a b Hp Ha Hb La Lb ltac:(lia)). cbn [mbind option_bind].
    set (rr := srh_rr nm (pr_prio p mod 2 ^ 16) a (pr_plen p mod 2 ^ 8) b).
    assert (rr_of nm p = rr) as Hrr by (unfold rr_of; by rewrite Ha, Hb).
    assert (length rr = (length nm + 46)%nat) as Lrr by (by apply srh_rr_length).
    rewrite (IH js' (S i) _ (more_records 1 hdr) nm (rest ++ rr) (drop (length nm + 46) free) Hjs' Hb2 Hok2);
      [|split; cbn [rp_data rp_length set_packet]|by apply more_records_bytes|rewrite length_drop; lia].
    + subst size. cbn [set_packet rp_addr rp_length rp_bandwidth rp_latency rp_app rp_uuid rp_destination rp_destination_addr rp_data length flat_map].
      rewrite more_records_add, Hrr, drop_drop by done. do 2 f_equal. unfold set_packet. f_equal; [lia|].
      rewrite Nat2Z.inj_succ, <- Z.add_1_r, <- !app_assoc. done.
    + done.
    + rewrite Hl, !length_app, (more_records_length 1 hdr Hh), Lrr, Hh. lia.
    + by apply more_records_length.
    + done.
Qed.

Lemma add_providers_over bsids ps : forall js i r hdr nm rest free, Forall2 json_provider js ps -> bsids_of bsids i ps -> Forall prov_ok ps ->
  packet r hdr nm rest free -> (length free < length ps * (length nm + 46))%nat -> add_providers bsids i js r = None.
Proof.
  induction ps as [|p ps IH]; intros js i r hdr nm rest free Hjs Hb Hok Hp Hf; [simpl in Hf; lia|].
  inversion Hjs as [|j ? js' ? Hj Hjs']; subst. apply bsids_of_cons in Hb as [Hb1 Hb2]. inversion Hok as [|?? Hok1 Hok2]; subst.
  destruct Hok1 as ((a & Ha & La) & b & Hb & Lb). simpl in Hf. pose proof Hp as [Hd Hl Hh Hn]. rewrite (add_providers_step bsids i j js' p r Hj Hb1).
  destruct (decide (length nm + 46 <= length free)%nat) as [Hle|Hgt].
  - rewrite (add_srh_rr_ok r hdr nm rest free _ _ _ _ a b Hp Ha Hb La Lb Hle). cbn [mbind option_bind].
    set (rr := srh_rr nm (pr_prio p mod 2 ^ 16) a (pr_plen p mod 2 ^ 8) b).
    assert (length rr = (length nm + 46)%nat) as Lrr by (by apply srh_rr_length).
    apply (IH js' (S i) _ (more_records 1 hdr) nm (rest ++ rr) (drop (length nm + 46) free) Hjs' Hb2 Hok2);
      [split; cbn [rp_data rp_length set_packet]|rewrite length_drop; lia].
    + done.
    + rewrite Hl, !length_app, (more_records_length 1 hdr Hh), Lrr, Hh. lia.
    + by apply more_records_length.
    + done.
  - by rewrite (add_srh_rr_over r hdr nm rest free _ _ _ _ a b Hp Ha Hb Lb ltac:(lia)).
Qed.
(** ** The queue of waiting replies *)

Record pwf (st : pstate) (ptrs : list ptr) : Prop := {
  pw_list : dlist (ps_heads st) waiting ptrs;
  pw_length : ps_length st = Z.of_nat (length ptrs);
  pw_small : Z.of_nat (length ptrs) < 2 ^ 32;
  pw_replies : forall p, p ∈ ptrs -> is_Some (ps_replies st !! p)
}.

(** [p] is the first waiting reply of the request [id]. *)
Definition first_waiting (st : pstate) (id : string) (l : list ptr) (p : ptr) (r : reply) : Prop :=
  ps_replies st !! p = Some r /\ streq id (rp_uuid r) = true /\
  forall q r', q ∈ l -> ps_replies st !! q = Some r' -> streq id (rp_uuid r') = false.

Lemma find_waiting_ok st l p rest id r : pwf st (l ++ p :: rest) -> first_waiting st id l p r ->
  find_waiting (length (l ++ p :: rest)) st id = Some p.
Proof.
  intros [D _ _ Hr] (Hp & Hs & Hl). set (f := fun p => match ps_replies st !! p with Some r => streq id (rp_uuid r) | None => false end).
  unfold find_waiting. rewrite (walk_find_ok _ f _ _ _ D).
  - assert (List.find f (l ++ p :: rest) = Some p) as ->; [|done]. clear D. induction l as [|q l IH]; cbn [app List.find].
    + subst f. cbn beta. by rewrite Hp, Hs.
    + destruct (Hr q ltac:(set_solver)) as [r' Hq]. assert (f q = false) as -> by (subst f; cbn beta; rewrite Hq; apply (Hl q); [set_solver|done]).
      apply IH; [intros x Hx; apply Hr; set_solver|intros x r'' Hx; apply Hl; set_solver].
  - intros x Hx. destruct (Hr x Hx) as [rx E]. subst f. cbn beta. by rewrite E.
Qed.

Lemma find_waiting_none st ptrs id : pwf st ptrs -> (forall q r, q ∈ ptrs -> ps_replies st !! q = Some r -> streq id (rp_uuid r) = false) ->
  find_waiting (length ptrs) st id = Some waiting.
Proof.
  intros [D _ _ Hr] Hl. set (f := fun p => match ps_replies st !! p with Some r => streq id (rp_uuid r) | None => false end).
  unfold find_waiting. rewrite (walk_find_ok _ f _ _ _ D).
  - assert (List.find f ptrs = None) as ->; [|done]. clear D. induction ptrs as [|q l IH]; [done|]. cbn [List.find].
    destruct (Hr q ltac:(set_solver)) as [r' Hq]. assert (f q = false) as -> by (subst f; cbn beta; rewrite Hq; apply (Hl q); [set_solver|done]).
    apply IH; [intros x Hx; apply Hr; set_solver|intros x r'' Hx; apply Hl; set_solver].
  - intros x Hx. destruct (Hr x Hx) as [rx E]. subst f. cbn beta. by rewrite E.
Qed.

(** A reply leaves the queue, is sent or not, and is freed. *)
Lemma take_waiting st l p rest : pwf st (l ++ p :: rest) -> remove_ret p = 0 ->
  p <> waiting /\ exists st1, remove_waiting st p = Some st1 /\ ps_replies st1 = ps_replies st /\ ps_sent st1 = ps_sent st /\
    forall sent, exists st2, free_reply (PState (ps_heads st1) (ps_length st1) (ps_replies st1) sent) p = Some st2 /\
      pwf st2 (l ++ rest) /\ ps_replies st2 = delete p (ps_replies st) /\ ps_sent st2 = sent.
Proof.
  intros [D Hlen Hsm Hr] Hret. pose proof D as [Hnd _]. rewrite app_comm_cons in Hnd. apply NoDup_mid in Hnd as (Hl & Hrest & _). split; [set_solver|].
  destruct (queue_remove_dlist _ (ps_length st) _ _ _ _ D) as (h & Hq & D' & HA & _). unfold remove_waiting. rewrite Hret, Hq. cbn [Z.eqb mbind option_bind]. cbn [mbind option_bind].
  eexists. split; [done|]. split_and!; [done|done|]. intros sent. unfold free_reply. cbn [ps_heads ps_length ps_replies ps_sent].
  rewrite (free_node_ok _ _ HA). cbn [mbind option_bind]. eexists. split; [done|]. split_and!; [|done|done].
  split; cbn [ps_heads ps_length ps_replies].
  - eapply dlist_frame; [apply free_same| |exact D']. set_solver.
  - rewrite Hlen, !length_app. cbn [length]. rewrite length_app in Hsm. cbn [length] in Hsm. rewrite wrap64_small; lia.
  - rewrite length_app in Hsm |- *. cbn [length] in Hsm. lia.
  - intros q Hq'. rewrite lookup_delete_ne by set_solver. apply Hr. set_solver.
Qed.

(** The queue loses the reply or not, and the replies stay where they are. *)
Lemma remove_waiting_any st l p rest : pwf st (l ++ p :: rest) -> p <> waiting /\ exists st1, remove_waiting st p = Some st1 /\ ps_replies st1 = ps_replies st.
Proof.
  intros W. destruct (Z.eq_dec (remove_ret p) 0) as [E|E]; [destruct (take_waiting _ _ _ _ W E) as (? & st1 & ? & ? & _); eauto|].
  split; [|unfold remove_waiting; destruct (Z.eqb_spec (remove_ret p) 0); [done|by exists st]].
  destruct W as [[Hnd _] _ _ _]. apply NoDup_cons in Hnd as [H _]. set_solver.
Qed.

(** *** What is sent *)

(** The answer to the application: one more record for each provider. *)
Definition answer_of (hdr nm rest : list Z) (ps : list provider_data) : list Z :=
  more_records (Z.of_nat (length ps)) hdr ++ (nm ++ [0]) ++ rest ++ flat_map (rr_of nm) ps.

Lemma rr_of_length nm p : prov_ok p -> length (rr_of nm p) = (length nm + 46)%nat.
Proof. intros ((a & Ha & La) & b & Hb & Lb). unfold rr_of. rewrite Ha, Hb. by apply srh_rr_length. Qed.

Lemma rrs_length nm ps : Forall prov_ok ps -> length (flat_map (rr_of nm) ps) = (length ps * (length nm + 46))%nat.
Proof. induction 1 as [|p ps Hp _ IH]; [done|]. cbn [flat_map]. rewrite length_app, rr_of_length, IH by done. simpl. lia. Qed.

(** The columns of a flow that the controller has committed. *)
Definition flow_columns (fs : flowstate) (ps : list provider_data) : Prop :=
  exists js bs, fs_sourceIPs fs = Some (json_dumps (json_array js)) /\ fs_bsid fs = Some (json_dumps (json_array bs)) /\
    Forall2 json_provider js ps /\ Forall2 (fun j p => json_string_value j = Some (pr_bsid p)) bs ps.

Context `{!JanssonLaws J} `{!JanssonTextLaws J T}.

Lemma flow_bsids bs ps : Forall2 (fun j p => json_string_value j = Some (pr_bsid p)) bs ps -> bsids_of (Some (json_array bs)) 0 ps.
Proof.
  intros H k p Hk. destruct (Forall2_lookup_r _ _ _ _ _ H Hk) as (j & Hj & Hs). cbn [arr_get mbind option_bind Nat.add]. rewrite jl_array_get, Hj. exact Hs.
Qed.

Lemma read_flowstate_sends st l p rest r fs fmask ps hdr nm tail free :
  pwf st (l ++ p :: rest) -> remove_ret p = 0 -> first_waiting st (fs_request_id fs) l p r -> packet r hdr nm tail free -> bytes hdr ->
  mask_has fmask FE_STATUS = true -> fs_status fs = FLOW_STATUS_RUNNING -> flow_columns fs ps -> Forall prov_ok ps ->
  (length ps * (length nm + 46) <= length free)%nat ->
  exists st', read_flowstate (length (l ++ p :: rest)) fs fmask st = Some (stop_, st') /\ pwf st' (l ++ rest) /\
    ps_replies st' = delete p (ps_replies st) /\ ps_sent st' = ps_sent st ++ [(rp_addr r, answer_of hdr nm tail ps)].
Proof.
  intros W Hret F P Hb Hm Hs (js & bs & Hj & Hbs & Hjs & Hbj) Hok Hf. unfold read_flowstate. rewrite Hm, Hs. cbn [negb orb Z.eqb Pos.eqb FLOW_STATUS_RUNNING].
  rewrite (find_waiting_ok _ _ _ _ _ _ W F). cbn [mbind option_bind]. destruct (take_waiting _ _ _ _ W Hret) as (Hne & st1 & Hr & Hrep & Hsent & Hfree).
  rewrite bool_decide_eq_false_2, Hr by done. cbn [mbind option_bind]. destruct F as (Hp & _). rewrite Hrep, Hp. cbn [mbind option_bind].
  rewrite Hj, Hbs. cbn [mbind option_bind]. rewrite !jl_loads, array_elems_array.
  rewrite (add_providers_ok _ ps js 0 r hdr nm tail free Hjs (flow_bsids _ _ Hbj) Hok P Hb Hf). cbn [mbind option_bind set_packet rp_length rp_data].
  pose proof (rrs_length nm ps Hok) as Lr. destruct P as [Hd Hl Hh Hn].
  assert (length (answer_of hdr nm tail ps) = (rp_length r + length ps * (length nm + 46))%nat) as La.
  { unfold answer_of. rewrite Hl, !length_app, more_records_length, Lr by done. lia. }
  rewrite decide_True by (fold (answer_of hdr nm tail ps); rewrite length_app; lia).
  destruct (Hfree (ps_sent st ++ [(rp_addr r, answer_of hdr nm tail ps)])) as (st2 & Hfr & W2 & Hrep2 & Hs2).
  unfold send_reply. fold (answer_of hdr nm tail ps). cbn [set_packet rp_addr rp_length rp_data]. rewrite take_app_length', Hsent by lia. rewrite Hfr. cbn [mbind option_bind].
  by exists st2.
Qed.
Lemma read_flowstate_overflows st l p rest r fs fmask ps hdr nm tail free :
  pwf st (l ++ p :: rest) -> first_waiting st (fs_request_id fs) l p r -> packet r hdr nm tail free ->
  mask_has fmask FE_STATUS = true -> fs_status fs = FLOW_STATUS_RUNNING -> flow_columns fs ps -> Forall prov_ok ps ->
  (length free < length ps * (length nm + 46))%nat ->
  read_flowstate (length (l ++ p :: rest)) fs fmask st = None.
Proof.
  intros W F P Hm Hs (js & bs & Hj & Hbs & Hjs & Hbj) Hok Hf. unfold read_flowstate. rewrite Hm, Hs. cbn [negb orb Z.eqb Pos.eqb FLOW_STATUS_RUNNING].
  rewrite (find_waiting_ok _ _ _ _ _ _ W F). cbn [mbind option_bind]. destruct (remove_waiting_any _ _ _ _ W) as (Hne & st1 & Hr & Hrep).
  rewrite bool_decide_eq_false_2, Hr by done. cbn [mbind option_bind]. destruct F as (Hp & _). rewrite Hrep, Hp. cbn [mbind option_bind].
  rewrite Hj, Hbs. cbn [mbind option_bind]. rewrite !jl_loads, array_elems_array.
  by rewrite (add_providers_over _ ps js 0 r hdr nm tail free Hjs (flow_bsids _ _ Hbj) Hok P Hf).
Qed.

(** *** Rejections *)

(** The header of a rejection: [b] carries the response code, and only the
    question is left. *)
Definition reject_header (hdr : list Z) (b : Z) : list Z := take 3 hdr ++ [b] ++ take 2 (drop 4 hdr) ++ replicate 6 0.

Lemma modify_header hdr x f : length hdr = 12%nat -> modify (hdr ++ x) 0 DNS_HEADER_LENGTH f = Some (f (hdr ++ x)).
Proof. intros H. exact (modify_app [] (hdr ++ x) 12 f ltac:(rewrite length_app; lia)). Qed.

Lemma set_header f hdr x v : length hdr = 12%nat ->
  modify (hdr ++ x) 0 DNS_HEADER_LENGTH (fun m => DNS_HEADER_SET f m v) = Some (splice (hoff f) (be 2 v) hdr ++ x).
Proof.
  intros H. rewrite modify_header, al_header_set by (rewrite ?length_app; lia). rewrite splice_within; [done|]. rewrite be_length. destruct f; simpl; lia.
Qed.

Lemma name_end_ok nm m i : Forall (fun b => b <> 0) nm -> name_end (nm ++ 0 :: m) i = Some (i + length nm)%nat.
Proof.
  revert i. induction nm as [|x nm IH]; intros i H; cbn [app name_end]; [by rewrite Nat.add_0_r|]. inversion H; subst.
  destruct (Z.eqb_spec x 0); [done|]. rewrite IH by done. simpl. f_equal. lia.
Qed.

Lemma reject_packet_ok r hdr nm rest free : packet r hdr nm rest free -> (4 <= length (rest ++ free))%nat ->
  exists b r', reject_packet r = Some r' /\ rp_addr r' = rp_addr r /\
    take (rp_length r') (rp_data r') = reject_header hdr b ++ (nm ++ [0]) ++ take 4 (rest ++ free) /\
    forall old, hdr !! 3%nat = Some old -> old mod 16 = 0 -> b mod 16 = DNS_RCODE_REJECT /\ b / 16 = old / 16.
Proof.
  intros [Hd Hl Hh Hn] H4. destruct (al_rcode (hdr ++ (nm ++ [0]) ++ rest ++ free) DNS_RCODE_REJECT ltac:(rewrite length_app; lia)) as (b & Hb & Hcode).
  set (x := (nm ++ [0]) ++ rest ++ free) in *. assert (rp_data r = hdr ++ x) as Hx by (rewrite Hd; subst x; by rewrite <- !app_assoc).
  assert (length (splice 3 [b] hdr) = 12%nat) as L0 by (by rewrite splice_length by (simpl; lia)).
  exists b. unfold reject_packet. rewrite Hx, modify_header, Hb, splice_within by (simpl; lia). cbn [mbind option_bind].
  rewrite set_header by done. cbn [mbind option_bind]. rewrite set_header by (by rewrite !splice_length by (rewrite ?be_length; simpl; lia)). cbn [mbind option_bind].
  rewrite set_header by (by rewrite !splice_length by (rewrite ?splice_length, ?be_length; simpl; rewrite ?L0; lia)). cbn [mbind option_bind].
  assert (splice (hoff ARCOUNT) (be 2 0) (splice (hoff NSCOUNT) (be 2 0) (splice (hoff ANCOUNT) (be 2 0) (splice 3 [b] hdr))) = reject_header hdr b) as ->.
  { clear -Hh. do 13 (destruct hdr as [|? hdr]; [simpl in Hh; try lia|]); simpl in Hh; try lia. reflexivity. }
  assert (length (reject_header hdr b) = 12%nat) as Lr by (unfold reject_header; rewrite !length_app, !length_take, length_drop, Hh; done).
  rewrite drop_app_length' by done. assert (name_end x 0 = Some (length nm)) as -> by (subst x; rewrite <- app_assoc; exact (name_end_ok nm (rest ++ free) 0 Hn)).
  cbn [mbind option_bind Nat.add]. subst x.
  rewrite decide_True by (rewrite !length_app, Lr in *; simpl; unfold DNS_HEADER_LENGTH; lia). eexists. split; [done|]. split_and!; [done| |].
  - cbn [set_packet rp_length rp_data]. rewrite !(app_assoc (reject_header hdr b) (nm ++ [0])).
    rewrite take_app_ge by (rewrite !length_app, Lr; simpl; unfold DNS_HEADER_LENGTH; lia). do 2 f_equal.
    rewrite !length_app, Lr. simpl. unfold DNS_HEADER_LENGTH. lia.
  - intros old Ho Hz. apply Hcode; [by rewrite lookup_app_l by lia|done|by vm_compute].
Qed.

Lemma read_flowreq_rejects st l p rest r id status fmask hdr nm tail free :
  pwf st (l ++ p :: rest) -> remove_ret p = 0 -> first_waiting st id l p r -> packet r hdr nm tail free -> (4 <= length (tail ++ free))%nat ->
  mask_has fmask FREQ_STATUS = true -> status <> REQ_STATUS_PENDING -> status <> REQ_STATUS_ALLOWED ->
  exists b st', read_flowreq (length (l ++ p :: rest)) id status fmask st = Some (stop_, st') /\ pwf st' (l ++ rest) /\
    ps_replies st' = delete p (ps_replies st) /\
    ps_sent st' = ps_sent st ++ [(rp_addr r, reject_header hdr b ++ (nm ++ [0]) ++ take 4 (tail ++ free))] /\
    forall old, hdr !! 3%nat = Some old -> old mod 16 = 0 -> b mod 16 = DNS_RCODE_REJECT /\ b / 16 = old / 16.
Proof.
  intros W Hret F P H4 Hm Hs1 Hs2. destruct (reject_packet_ok r hdr nm tail free P H4) as (b & r' & Hr' & Ha & Hd & Hcode). exists b.
  unfold read_flowreq. rewrite Hm. cbn [negb]. destruct (Z.eqb_spec status REQ_STATUS_PENDING); [done|]. destruct (Z.eqb_spec status REQ_STATUS_ALLOWED); [done|].
  cbn [negb andb]. rewrite (find_waiting_ok _ _ _ _ _ _ W F). cbn [mbind option_bind]. destruct (take_waiting _ _ _ _ W Hret) as (Hne & st1 & Hr & Hrep & Hsent & Hfree).
  rewrite bool_decide_eq_false_2, Hr by done. cbn [mbind option_bind]. destruct F as (Hp & _). rewrite Hrep, Hp. cbn [mbind option_bind]. rewrite Hr'. cbn [mbind option_bind].
  destruct (Hfree (ps_sent st ++ [(rp_addr r, reject_header hdr b ++ (nm ++ [0]) ++ take 4 (tail ++ free))])) as (st2 & Hfr & W2 & Hrep2 & Hsent2).
  unfold send_reply. rewrite Ha, Hd, Hsent. rewrite Hfr. cbn [mbind option_bind]. by exists st2.
Qed.
(** ** Requests to the controller *)

Definition text_fits (s : string) : Prop := (String.length s <= SLEN)%nat /\ count_char NUL s = O.

(** The texts of a reply fit in the columns of a request. *)
Record reply_ok (r : reply) : Prop := {
  ro_destination : text_fits (rp_destination r);
  ro_dstaddr : text_fits (rp_destination_addr r);
  ro_source : text_fits (rp_app r);
  ro_srcaddr : text_fits (inet_ntop (rp_addr r))
}.

Definition request_shape : gmap Z ctype := shape (calloc_entry srdb_flowreq_entry).

Lemma put_full_ok e f s : shape e = request_shape -> request_shape !! offsetof srdb_flowreq_entry f = Some str -> text_fits s ->
  put_full e f s = Some (<[offsetof srdb_flowreq_entry f := CBuf (S SLEN) s]> e) /\
  shape (<[offsetof srdb_flowreq_entry f := CBuf (S SLEN) s]> e) = request_shape.
Proof.
  intros He Hf [Hl Hn]. split.
  - unfold put_full, copy_str. rewrite (proj2 (Nat.leb_le _ _)) by done. cbn [mbind option_bind].
    rewrite (put_str_shape _ _ _ (S SLEN)); [by rewrite strncpy_full|by rewrite He|done].
  - rewrite shape_put; [done|by rewrite He].
Qed.

Lemma put_number_ok e f z : shape e = request_shape -> request_shape !! offsetof srdb_flowreq_entry f = Some TInt ->
  put_int e (offsetof srdb_flowreq_entry f) z = Some (<[offsetof srdb_flowreq_entry f := CInt z]> e) /\
  shape (<[offsetof srdb_flowreq_entry f := CInt z]> e) = request_shape.
Proof.
  intros He Hf. split; [apply put_int_shape; by rewrite He|]. rewrite shape_put; [done|by rewrite He].
Qed.

(** The row of a request. *)
Record request_row (row : json) (r : reply) (id : string) : Prop := {
  rr_id : json_object_get row "req_id" = json_string id;
  rr_destination : json_object_get row "destination" = json_string (rp_destination r);
  rr_dstaddr : json_object_get row "dstaddr" = json_string (rp_destination_addr r);
  rr_source : json_object_get row "source" = json_string (rp_app r);
  rr_srcaddr : json_object_get row "srcaddr" = json_string (inet_ntop (rp_addr r));
  rr_bandwidth : json_object_get row "bandwidth" = Some (json_integer (to_int (rp_bandwidth r)));
  rr_delay : json_object_get row "delay" = Some (json_integer (to_int (rp_latency r)));
  rr_proxy : json_object_get row "proxy" = json_string router_name;
  rr_status : json_object_get row "status" = Some (json_integer REQ_STATUS_PENDING)
}.

Definition put_request (e : entry) (r : reply) (id : string) : entry :=
  let off := offsetof srdb_flowreq_entry in let buf := CBuf (S SLEN) in
  <[off "proxy" := buf router_name]> (<[off "request_id" := buf id]> (<[off "delay" := CInt (to_int (rp_latency r))]>
  (<[off "bandwidth" := CInt (to_int (rp_bandwidth r))]> (<[off "srcaddr" := buf (inet_ntop (rp_addr r))]> (<[off "source" := buf (rp_app r)]>
  (<[off "dstaddr" := buf (rp_destination_addr r)]> (<[off "destination" := buf (rp_destination r)]> e))))))).

Lemma put_request_ok e r id : shape e = request_shape -> reply_ok r -> text_fits id -> text_fits router_name ->
  (e ← put_full e "destination" (rp_destination r);
   e ← put_full e "dstaddr" (rp_destination_addr r);
   e ← put_full e "source" (rp_app r);
   e ← put_full e "srcaddr" (inet_ntop (rp_addr r));
   e ← put_int e (offsetof srdb_flowreq_entry "bandwidth") (to_int (rp_bandwidth r));
   e ← put_int e (offsetof srdb_flowreq_entry "delay") (to_int (rp_latency r));
   e ← put_full e "request_id" id;
   put_full e "proxy" router_name) = Some (put_request e r id) /\ shape (put_request e r id) = request_shape.
Proof.
  intros He [H1 H2 H3 H4] H5 H6. unfold put_request.
  destruct (put_full_ok e "destination" _ He eq_refl H1) as [-> He1]. cbn [mbind option_bind].
  destruct (put_full_ok _ "dstaddr" _ He1 eq_refl H2) as [-> He2]. cbn [mbind option_bind].
  destruct (put_full_ok _ "source" _ He2 eq_refl H3) as [-> He3]. cbn [mbind option_bind].
  destruct (put_full_ok _ "srcaddr" _ He3 eq_refl H4) as [-> He4]. cbn [mbind option_bind].
  destruct (put_number_ok _ "bandwidth" (to_int (rp_bandwidth r)) He4 eq_refl) as [-> He5]. cbn [mbind option_bind].
  destruct (put_number_ok _ "delay" (to_int (rp_latency r)) He5 eq_refl) as [-> He6]. cbn [mbind option_bind].
  destruct (put_full_ok _ "request_id" _ He6 eq_refl H5) as [-> He7]. cbn [mbind option_bind].
  by apply put_full_ok.
Qed.

(** The entry that a turn of the consumer finds: a struct that was zeroed once. *)
Definition request_entry (e : entry) : Prop := shape e = request_shape /\ e !! offsetof srdb_flowreq_entry "status" = Some (CInt 0).

Lemma put_request_status e r id : put_request e r id !! offsetof srdb_flowreq_entry "status" = e !! offsetof srdb_flowreq_entry "status".
Proof. unfold put_request. by repeat (rewrite lookup_insert_ne by (vm_compute; discriminate)). Qed.

Lemma request_row_ok e r id : request_entry e -> shape (put_request e r id) = request_shape ->
  exists row, srdb_insert flowreq_table (put_request e r id) = Some (DbInsert "FlowReq" row) /\ request_row row r id.
Proof.
  intros [He Hst] Hp. destruct (srdb_insert_shape flowreq_table (put_request e r id)) as (row & Hi & Hcol); [apply list_elem_of_In; simpl; auto|done|].
  exists row. split; [exact Hi|].
  assert (forall n i f x, Desc n SRDB_STR i SLEN false (offsetof srdb_flowreq_entry f) ∈ drop 2 flowreq_desc_tmpl ->
    put_request e r id !! offsetof srdb_flowreq_entry f = Some (CBuf (S SLEN) x) -> json_object_get row n = json_string x) as Hs.
  { intros n i f x Hin Hc. specialize (Hcol _ Hin). unfold column in Hcol. cbn [d_name d_type d_offset] in Hcol. by rewrite Hc in Hcol. }
  assert (forall n i f z, Desc n SRDB_INT i 4 false (offsetof srdb_flowreq_entry f) ∈ drop 2 flowreq_desc_tmpl ->
    put_request e r id !! offsetof srdb_flowreq_entry f = Some (CInt z) -> json_object_get row n = Some (json_integer z)) as Hn.
  { intros n i f z Hin Hc. specialize (Hcol _ Hin). unfold column in Hcol. cbn [d_name d_type d_offset] in Hcol. by rewrite Hc in Hcol. }
  split; [eapply (Hs _ 1 "request_id")|eapply (Hs _ 2 "destination")|eapply (Hs _ 3 "dstaddr")|eapply (Hs _ 4 "source")
    |eapply (Hs _ 5 "srcaddr")|eapply (Hn _ 6 "bandwidth")|eapply (Hn _ 7 "delay")|eapply (Hs _ 8 "proxy")|eapply (Hn _ 9 "status")];
    first [apply list_elem_of_In; simpl; by auto 20
      |by rewrite put_request_status
      |unfold put_request; (repeat (rewrite lookup_insert_ne by (vm_compute; discriminate))); by rewrite lookup_insert_eq].
Qed.
(** *** Request ids are unique *)

Lemma dec_loop_length fuel : forall n acc, (String.length (dec_loop fuel n acc) <= fuel + String.length acc)%nat.
Proof.
  induction fuel as [|fuel IH]; intros n acc; cbn [dec_loop]; [lia|]. destruct (n / 10 =? 0); [simpl; lia|].
  etransitivity; [apply IH|]. simpl. lia.
Qed.

Lemma sapp_inj (s x y : string) : (s ++ x = s ++ y)%string -> x = y.
Proof. induction s as [|a s IH]; [done|]. intros H. apply IH. by injection H. Qed.

Definition thread_ok (thread_id : string) : Prop := (String.length thread_id + 21 <= SLEN)%nat /\ count_char NUL thread_id = O.

Lemma request_id_eq tid c : thread_ok tid -> 0 <= c < 2 ^ 63 -> request_id tid c = (tid ++ "-" ++ dec_loop 20 c "")%string.
Proof.
  intros [Ht _] Hc. unfold request_id. rewrite (proj2 (Z.ltb_lt _ _)) by lia. apply stake_all.
  rewrite !slength_app. pose proof (dec_loop_length 20 c ""). change (String.length "-") with 1%nat. change (String.length "") with 0%nat in *. lia.
Qed.

Lemma request_id_inj tid c d : thread_ok tid -> 0 <= c < 2 ^ 63 -> 0 <= d < 2 ^ 63 -> request_id tid c = request_id tid d -> c = d.
Proof.
  intros Ht Hc Hd H. rewrite !request_id_eq in H by done. apply sapp_inj, sapp_inj in H.
  assert (2 ^ 63 < 10 ^ Z.of_nat 20) as Hp by (vm_compute; done).
  apply (f_equal (digits 0)) in H. rewrite !digits_dec in H by lia. exact H.
Qed.

Lemma request_id_fits tid c : thread_ok tid -> 0 <= c < 2 ^ 63 -> text_fits (request_id tid c).
Proof.
  intros Ht Hc. rewrite request_id_eq by done. destruct Ht as [Ht Hn]. split.
  - rewrite !slength_app. pose proof (dec_loop_length 20 c ""). change (String.length "-") with 1%nat. change (String.length "") with 0%nat in *. lia.
  - rewrite !count_char_app, Hn. change (count_char NUL "-") with 0%nat. cbn [Nat.add].
    apply (chars_count (fun a => negb (Ascii.eqb a NUL))); [done|]. apply dec_loop_chars; [lia| |done].
    intros d Hd. apply negb_true_iff, Ascii.eqb_neq. intros E. apply (f_equal byte_of) in E. rewrite digit_of_byte in E by done. change (byte_of NUL) with 0 in E. lia.
Qed.

Lemma streq_id tid c d : thread_ok tid -> 0 <= c < 2 ^ 63 -> 0 <= d < 2 ^ 63 -> streq (request_id tid c) (request_id tid d) = bool_decide (c = d).
Proof.
  intros Ht Hc Hd. rewrite streq_eq by (by apply request_id_fits). apply bool_decide_ext. split; [by apply request_id_inj|by intros ->].
Qed.

(** *** The requests of a thread *)

Lemma client_consumer_ok tid c e p st ptrs r : thread_ok tid -> text_fits router_name -> 0 <= c < 2 ^ 63 -> request_entry e ->
  pwf st ptrs -> allocated (ps_heads st) p -> p ∉ waiting :: ptrs -> ps_replies st !! p = Some r -> reply_ok r -> Z.of_nat (length ptrs) + 1 < 2 ^ 32 ->
  exists st' e' row, client_consumer tid c e p st = Some (st', DbInsert "FlowReq" row, e', wrap64 (c + 1)) /\ request_entry e' /\
    pwf st' (ptrs ++ [p]) /\ ps_replies st' = <[p := set_uuid r (request_id tid c)]> (ps_replies st) /\ ps_sent st' = ps_sent st /\
    same_outside (p :: waiting :: ptrs) (ps_heads st) (ps_heads st') /\ request_row row r (request_id tid c).
Proof.
  intros Ht Hrn Hc He [D Hl Hsm Hr] HA Hp Hpr Ho Hlen. unfold client_consumer. rewrite Hpr. cbn [mbind option_bind].
  destruct (queue_append_dlist _ (ps_length st) _ _ _ D HA Hp) as (h & -> & D' & S). cbn [mbind option_bind].
  cbn [set_uuid rp_destination rp_destination_addr rp_app rp_addr rp_bandwidth rp_latency rp_uuid].
  destruct (put_request_ok e r (request_id tid c) (proj1 He) Ho (request_id_fits tid c Ht Hc) Hrn) as [Hput Hshape]. revert Hput.
  repeat (match goal with |- (_ ← ?x; _) = _ -> _ => destruct x; [|done]; cbn [mbind option_bind] end). intros ->. cbn [mbind option_bind].
  destruct (request_row_ok e r (request_id tid c) He Hshape) as (row & Hi & Hrow).
  change (srdb_table_by_name srdb_tables "FlowReq") with (Some flowreq_table). cbn [mbind option_bind]. rewrite Hi. cbn [mbind option_bind].
  eexists _, _, row. split_and!; [done|split; [done|by rewrite put_request_status; apply He]| |done|done|done|done].
  split; cbn [ps_heads ps_length ps_replies]; [done|rewrite Hl, length_app, wrap64_small; simpl; lia|rewrite length_app; simpl; lia|].
  intros q [Hq|Hq]%elem_of_app; [rewrite lookup_insert_ne by set_solver; by apply Hr|]. apply list_elem_of_singleton in Hq as ->. rewrite lookup_insert_eq. by eexists.
Qed.
Lemma client_consumer_main_ok tid ps : thread_ok tid -> text_fits router_name -> forall c e st ptrs, 0 <= c -> c + Z.of_nat (length ps) < 2 ^ 63 ->
  request_entry e -> pwf st ptrs -> NoDup ps -> Z.of_nat (length ptrs + length ps) < 2 ^ 32 ->
  (forall p, p ∈ ps -> append_ret p = 0 /\ allocated (ps_heads st) p /\ (p ∉ waiting :: ptrs) /\ exists r, ps_replies st !! p = Some r /\ reply_ok r) ->
  exists st' ops, client_consumer_main tid c e ps st = Some (st', ops) /\ pwf st' (ptrs ++ ps) /\ ps_sent st' = ps_sent st /\
    (forall p, p ∉ ps -> ps_replies st' !! p = ps_replies st !! p) /\
    forall (k : nat) p r, ps !! k = Some p -> ps_replies st !! p = Some r ->
      ps_replies st' !! p = Some (set_uuid r (request_id tid (c + Z.of_nat k))) /\
      exists row, ops !! k = Some (DbInsert "FlowReq" row) /\ request_row row r (request_id tid (c + Z.of_nat k)).
Proof.
  intros Ht Hrn. induction ps as [|p ps IH]; intros c e st ptrs Hc0 Hc He W Hnd Hlen Hps.
  - exists st, []. rewrite app_nil_r. by split_and!.
  - simpl in Hc, Hlen. apply NoDup_cons in Hnd as [Hp Hnd]. destruct (Hps p ltac:(set_solver)) as (Hret & HA & Hin & r & Hr & Ho).
    destruct (client_consumer_ok tid c e p st ptrs r Ht Hrn ltac:(lia) He W HA Hin Hr Ho ltac:(lia)) as (st1 & e1 & row & Hcc & He1 & W1 & Hrep & Hsent & S & Hrow).
    cbn [client_consumer_main]. rewrite Hret. cbn [Z.eqb]. rewrite Hcc. cbn [mbind option_bind]. rewrite wrap64_small by lia.
    destruct (IH (c + 1) e1 st1 (ptrs ++ [p])) as (st2 & ops & Hm & W2 & Hs2 & Hout & Hk); [lia|lia|done|done|done|rewrite length_app; simpl; lia| |].
    { intros q Hq. destruct (Hps q ltac:(set_solver)) as (Hretq & HAq & Hinq & rq & Hrq & Hoq). assert (q <> p) by set_solver.
      destruct (S q ltac:(set_solver)) as [E1 E2]. split_and!; [done|unfold allocated; by rewrite E1, E2|set_solver|].
      exists rq. rewrite Hrep, lookup_insert_ne by done. done. }
    rewrite Hm. cbn [mbind option_bind]. exists st2, (DbInsert "FlowReq" row :: ops). split_and!; [done|by rewrite <- app_assoc in W2|congruence| |].
    + intros q Hq. rewrite Hout, Hrep, lookup_insert_ne by set_solver. done.
    + intros [|k] q rq Hq Hrq; cbn in Hq; simplify_eq.
      * rewrite Z.add_0_r, Hout, Hrep, lookup_insert_eq by done. split; [done|]. by exists row.
      * destruct (Hk k q rq Hq) as [Hr2 Hrows]; [rewrite Hrep, lookup_insert_ne; [done|]; intros ->; apply Hp; by eapply list_elem_of_lookup_2|].
        replace (c + Z.of_nat (Datatypes.S k)) with (c + 1 + Z.of_nat k) by lia. done.
Qed.

(** After the loop, the reply of the [k]-th request is the only one with its id. *)
Lemma requests_first tid ps c st (st' : pstate) (k : nat) p r : thread_ok tid -> 0 <= c -> c + Z.of_nat (length ps) < 2 ^ 63 ->
  (forall p, p ∈ ps -> is_Some (ps_replies st !! p)) ->
  (forall (k : nat) p r, ps !! k = Some p -> ps_replies st !! p = Some r -> ps_replies st' !! p = Some (set_uuid r (request_id tid (c + Z.of_nat k)))) ->
  ps !! k = Some p -> ps_replies st !! p = Some r ->
  first_waiting st' (request_id tid (c + Z.of_nat k)) (take k ps) p (set_uuid r (request_id tid (c + Z.of_nat k))).
Proof.
  intros Ht Hc Hlen Hex Hids Hk Hr. pose proof (lookup_lt_Some _ _ _ Hk) as Hkl. split_and!.
  - by apply Hids.
  - cbn [set_uuid rp_uuid]. rewrite streq_id by (done || lia). by apply bool_decide_eq_true.
  - intros q rq Hq Hrq. apply list_elem_of_lookup in Hq as [i Hi]. pose proof (lookup_lt_Some _ _ _ Hi) as Hil. rewrite length_take in Hil.
    rewrite lookup_take_lt in Hi by lia. destruct (Hex q ltac:(by eapply list_elem_of_lookup_2)) as [r0 Hr0].
    rewrite (Hids i q r0 Hi Hr0) in Hrq. simplify_eq. cbn [set_uuid rp_uuid]. rewrite streq_id by (done || lia). apply bool_decide_eq_false. lia.
Qed.

(** The reply built from the DNS server's message carries the client's
    query id. *)
Lemma client_callback_packet mem abuf args hdr nm rest : abuf = hdr ++ (nm ++ [0]) ++ rest -> length hdr = 12%nat -> Forall (fun b => b <> 0) nm ->
  (length abuf <= length mem)%nat ->
  exists r, client_callback (Some mem) ARES_SUCCESS abuf args = Some (Some r) /\ rp_addr r = ca_addr args /\
    packet r (splice 0 (be 2 (ca_qid args)) hdr) nm rest (drop (length abuf) mem).
Proof.
  intros Habuf Hh Hn Hl. unfold client_callback. cbn [negb Z.eqb ARES_SUCCESS].
  rewrite header_field_app by (rewrite Habuf, length_app; lia). cbn [mbind option_bind].
  rewrite (bwrite_tail [] mem abuf 0 eq_refl Hl : bwrite mem 0 abuf = _). cbn [mbind option_bind app].
  assert (forall x, abuf ++ x = hdr ++ ((nm ++ [0]) ++ rest) ++ x) as E by (intros x; rewrite Habuf; by rewrite <- !app_assoc).
  rewrite E, (set_header QID) by done. cbn [mbind option_bind hoff]. eexists. split_and!; [done|done|].
  split; cbn [rp_data rp_length].
  - rewrite !app_assoc. done.
  - rewrite Habuf, !length_app, splice_length by (rewrite be_length; lia). done.
  - by rewrite splice_length by (rewrite be_length; lia).
  - done.
Qed.

Lemma splice_bytes o bs m : bytes bs -> bytes m -> bytes (splice o bs m).
Proof. intros H1 H2. unfold splice. apply Forall_app; split; [by apply Forall_take|]. apply Forall_app; split; [done|by apply Forall_drop]. Qed.

(** C21. A query that carries the options of [make_srdns_request] is understood
    by the proxy: [ares_query] is asked for the name, and the callback gets the
    client's query id and address, the application name, the bandwidth and the
    latency that the application gave. *)
Theorem srdns_query_understood (ares_expand_name : list Z -> nat -> Z -> option (string * Z)) (q : query) (qid : Z) (flags qname qtail : list Z) (size : Z) (junk : list Z) (name app : string) (bw lat : Z) :
  q_data q = edns_query qid flags qname qtail size
    (map (fun o => (option_code o, take (Z.to_nat (option_length o)) (option_data o))) (srdns_options app bw lat)) ++ junk ->
  length flags = 2%nat -> length qtail = 4%nat -> 0 <= qid < 2 ^ 16 ->
  ares_expand_name (q_data q) 12%nat (q_length q) = Some (name, Z.of_nat (length qname)) ->
  text_fits app -> app <> "" -> 0 <= bw < 2 ^ 32 -> 0 <= lat < 2 ^ 32 ->
  server_consumer ares_expand_name true 0 q = Some (Some (name, CallbackArgs qid (q_addr q) bw lat app)).
Proof.
  intros Hd Hf Hq Hqid Hn [Hal Hnul] Hne Hbw Hlat. unfold server_consumer.
  set (opts := map _ (srdns_options app bw lat)) in *.
  assert (opts = [(T_OPT_OPCODE_APP_NAME, str_bytes app); (T_OPT_OPCODE_BANDWIDTH, be 4 bw); (T_OPT_OPCODE_LATENCY, be 4 lat)]) as Ho.
  { subst opts. unfold srdns_options. cbn [map option_code option_length option_data]. rewrite Nat2Z.id, <- str_bytes_length, take_ge by lia.
    by rewrite !mem32_htonl, !take_ge by (rewrite be_length; simpl; lia). }
  assert (Forall opt_ok opts) as Hok.
  { rewrite Ho, !Forall_cons, Forall_nil. unfold opt_ok, T_OPT_OPCODE_APP_NAME, T_OPT_OPCODE_BANDWIDTH, T_OPT_OPCODE_LATENCY, SLEN in *. cbn [fst snd].
    rewrite !be_length, str_bytes_length. split_and!; try done; try (intros; lia); lia. }
  assert (Z.of_nat (length (flat_map enc_opt opts)) < 2 ^ 16) as Hl.
  { rewrite Ho. cbn [flat_map]. rewrite !length_app, !enc_opt_length. cbn [snd]. rewrite !be_length, str_bytes_length. unfold SLEN in Hal. simpl. lia. }
  destruct (dns_parse_header ares_expand_name q qid flags qname qtail size opts junk name Hd Hf Hq Hqid Hl Hn) as (a & aptr & Ha & La & ->). rewrite Ha.
  rewrite edns_loop_ok; [|done|rewrite Ho; cbn [flat_map]; rewrite !length_app, !enc_opt_length; simpl; lia|lia|done]. cbn [mbind option_bind].
  assert (foldl apply_opt (set_req q 0 0 "") opts = set_req q bw lat app) as ->.
  { rewrite Ho. unfold apply_opt, T_OPT_OPCODE_APP_NAME, T_OPT_OPCODE_BANDWIDTH, T_OPT_OPCODE_LATENCY. cbn [foldl fst snd Z.eqb Pos.eqb].
    rewrite cstr_bytes, !take_ge, !of_be_be by (rewrite ?be_length; by (apply cut_at_id || simpl; lia)). done. }
  cbn [app_name_req set_req]. rewrite bool_decide_eq_false_2 by done. cbn [negb Z.eqb mbind option_bind q_data set_req].
  assert (q_data q = edns_header qid flags ++ drop 12 (q_data q)) as Hh.
  { rewrite Hd. unfold edns_query. rewrite <- app_assoc. by rewrite drop_app_length' by (by rewrite edns_header_length). }
  destruct (edns_header_fields qid flags (drop 12 (q_data q)) Hf Hqid) as (_ & _ & _ & _ & E). rewrite <- Hh in E. rewrite E. reflexivity.
Qed.
(** An application name option longer than [SLEN] bytes is copied behind
    the end of [app_name_req]: nothing compares its length, which comes from the
    packet, with the array. *)
Theorem edns_name_overflows (ares_expand_name : list Z -> nat -> Z -> option (string * Z)) (q : query) (qid : Z) (flags qname qtail : list Z) (size : Z) (before : list (Z * list Z)) (long : list Z)
    (after : list (Z * list Z)) (junk : list Z) (name : string) :
  q_data q = edns_query qid flags qname qtail size (before ++ (T_OPT_OPCODE_APP_NAME, long) :: after) ++ junk ->
  length flags = 2%nat -> length qtail = 4%nat -> 0 <= qid < 2 ^ 16 ->
  ares_expand_name (q_data q) 12%nat (q_length q) = Some (name, Z.of_nat (length qname)) ->
  Forall opt_ok before -> (SLEN < length long)%nat ->
  Z.of_nat (length (flat_map enc_opt (before ++ (T_OPT_OPCODE_APP_NAME, long) :: after))) < 2 ^ 16 ->
  dns_parse_edns ares_expand_name q = None.
Proof.
  intros Hd Hf Hq Hqid Hn Hb Hlong Hl.
  destruct (dns_parse_header ares_expand_name q qid flags qname qtail size _ junk name Hd Hf Hq Hqid Hl Hn) as (a & aptr & Ha & La & ->). rewrite Ha.
  rewrite edns_loop_over; [done|done|done| | |lia|done]; rewrite flat_map_app, length_app in *; cbn [flat_map] in *; rewrite length_app, enc_opt_length in *; simpl in *;
    [lia|]. pose proof (enc_opts_length before). lia.
Qed.

(** The state of the proxy when the replies [ps] are taken from the queue. *)
Record replies_ready (tid : string) (st : pstate) (ps : list ptr) : Prop := {
  rd_thread : thread_ok tid;
  rd_router : text_fits router_name;
  rd_empty : pwf st [];
  rd_nodup : NoDup ps;
  rd_small : Z.of_nat (length ps) < 2 ^ 32;
  rd_open : forall p, p ∈ ps -> append_ret p = 0 /\ remove_ret p = 0;
  rd_replies : forall p, p ∈ ps -> allocated (ps_heads st) p /\ p <> waiting /\ exists r, ps_replies st !! p = Some r /\ reply_ok r
}.

Lemma requests_sent tid st ps : replies_ready tid st ps ->
  exists st' ops, client_consumer_main tid 0 (calloc_entry srdb_flowreq_entry) ps st = Some (st', ops) /\ pwf st' ps /\ ps_sent st' = ps_sent st /\
    forall (k : nat) p r, ps !! k = Some p -> ps_replies st !! p = Some r ->
      (exists row, ops !! k = Some (DbInsert "FlowReq" row) /\ request_row row r (request_id tid (Z.of_nat k))) /\
      first_waiting st' (request_id tid (Z.of_nat k)) (take k ps) p (set_uuid r (request_id tid (Z.of_nat k))) /\ ps = take k ps ++ p :: drop (S k) ps.
Proof.
  intros [Ht Hrn W Hnd Hsm Hop Hps].
  destruct (client_consumer_main_ok tid ps Ht Hrn 0 (calloc_entry srdb_flowreq_entry) st []) as (st' & ops & Hm & W' & Hs & _ & Hk); [lia|lia|done|done|done|simpl; lia| |].
  { intros p Hp. destruct (Hps p Hp) as (HA & Hne & Hr). split_and!; [by apply Hop|done|set_solver|done]. }
  exists st', ops. split_and!; [done|done|done|]. intros k p r Hp Hr. destruct (Hk k p r Hp Hr) as [_ Hrow]. split_and!; [done| |by rewrite take_drop_middle].
  apply (requests_first tid ps 0 st st' k p r); [done|lia|lia| | |done|done].
  - intros q Hq. destruct (Hps q Hq) as (_ & _ & rq & Hrq & _). by eexists.
  - intros i q rq Hq Hrq. by apply Hk.
Qed.

(** *** From the resolver to the queue of replies *)

(** The replies that [client_producer] passes on. *)
Definition passes (st : pstate) (p : ptr) : bool :=
  match ps_replies st !! p with
  | Some r => match parse_aaaa_reply r with Some (Some _) => replies_ret p =? 0 | _ => false end
  | None => false
  end.

Record produced (inner : ptr) (xs : list ptr) (st st' : pstate) : Prop := {
  pd_inner : dlist (ps_heads st') inner [];
  pd_outside : same_outside (inner :: xs) (ps_heads st) (ps_heads st');
  pd_others : forall p, p ∉ xs -> ps_replies st' !! p = ps_replies st !! p;
  pd_passed : forall p r r', p ∈ xs -> ps_replies st !! p = Some r -> parse_aaaa_reply r = Some (Some r') -> replies_ret p = 0 ->
    ps_replies st' !! p = Some r' /\ allocated (ps_heads st') p;
  pd_length : ps_length st' = ps_length st;
  pd_sent : ps_sent st' = ps_sent st
}.

(** The state after a turn differs from the one before in the reply taken. *)
Lemma produced_step inner p xs st st1 st' :
  p ∉ inner :: xs -> same_outside (p :: inner :: xs) (ps_heads st) (ps_heads st1) -> ps_length st1 = ps_length st -> ps_sent st1 = ps_sent st ->
  (forall q, q <> p -> ps_replies st1 !! q = ps_replies st !! q) ->
  (forall r r', ps_replies st !! p = Some r -> parse_aaaa_reply r = Some (Some r') -> replies_ret p = 0 ->
    ps_replies st1 !! p = Some r' /\ allocated (ps_heads st1) p) ->
  produced inner xs st1 st' -> produced inner (p :: xs) st st'.
Proof.
  intros Hp S El Es Hq Hpass [D S' Ho Hpa Hl Hs]. split.
  - done.
  - intros q Hin. destruct (S' q ltac:(set_solver)) as [-> ->]. apply S. set_solver.
  - intros q Hin. rewrite Ho, Hq by set_solver. done.
  - intros q r r' Hin Hr Hpar Ha. destruct (decide (q = p)) as [->|Hne].
    + destruct (Hpass r r' Hr Hpar Ha) as [Hr1 HA]. rewrite Ho by set_solver. split; [done|].
      destruct (S' p ltac:(set_solver)) as [E1 E2]. unfold allocated. by rewrite E1, E2.
    + apply (Hpa q r r'); [set_solver| |done|done]. by rewrite Hq.
  - congruence.
  - congruence.
Qed.

Lemma free_reply_ok st p : allocated (ps_heads st) p ->
  free_reply st p = Some (PState (Heads (delete p (h_next (ps_heads st))) (delete p (h_prev (ps_heads st)))) (ps_length st) (delete p (ps_replies st)) (ps_sent st)).
Proof. intros H. unfold free_reply. by rewrite free_node_ok. Qed.

Definition producer_ok (xs : list ptr) : Prop := forall inner len st, dlist (ps_heads st) inner xs ->
  (forall p, p ∈ xs -> exists r, ps_replies st !! p = Some r /\ is_Some (parse_aaaa_reply r)) ->
  exists st', client_producer (length xs) inner len st = Some (st', wrap64 (len - Z.of_nat (length xs) - 1), List.filter (passes st) xs) /\ produced inner xs st st'.

(** The rest of the loop, from the state [st1] in which [p] has been treated. *)
Lemma producer_rest inner p xs len st st1 : producer_ok xs ->
  p ∉ inner :: xs -> dlist (ps_heads st1) inner xs -> same_outside (p :: inner :: xs) (ps_heads st) (ps_heads st1) ->
  ps_length st1 = ps_length st -> ps_sent st1 = ps_sent st -> (forall q, q <> p -> ps_replies st1 !! q = ps_replies st !! q) ->
  (forall r r', ps_replies st !! p = Some r -> parse_aaaa_reply r = Some (Some r') -> replies_ret p = 0 ->
    ps_replies st1 !! p = Some r' /\ allocated (ps_heads st1) p) ->
  (forall q, q ∈ xs -> exists r, ps_replies st !! q = Some r /\ is_Some (parse_aaaa_reply r)) ->
  exists st', client_producer (length xs) inner (wrap64 (len - 1)) st1 = Some (st', wrap64 (len - Z.of_nat (S (length xs)) - 1), List.filter (passes st) xs) /\
    produced inner (p :: xs) st st'.
Proof.
  intros IH Hp D S El Es Hq Hpass Hr. assert (forall q, q ∈ xs -> ps_replies st1 !! q = ps_replies st !! q) as Hxs by (intros q ?; apply Hq; set_solver).
  destruct (IH inner (wrap64 (len - 1)) st1 D) as (st' & Hc & Hpd); [intros q Hin; rewrite Hxs by done; by apply Hr|].
  exists st'. rewrite Hc, wrap64_drain. split; [|by eapply produced_step].
  do 2 f_equal. apply List.filter_ext_in. intros q Hin. unfold passes. by rewrite Hxs by (by apply list_elem_of_In).
Qed.

Lemma client_producer_ok xs : producer_ok xs.
Proof.
  induction xs as [|p xs IH]; intros inner len st D Hr.
  - destruct (queue_dequeue_empty _ len _ D) as (h & Hd & D' & S). cbn [client_producer length]. rewrite Hd. cbn [mbind option_bind].
    rewrite bool_decide_eq_true_2, Z.sub_0_r by done. eexists. split; [done|]. split; try done. intros q r r' Hq. by apply elem_of_nil in Hq.
  - pose proof D as [Hnd _]. apply NoDup_cons in Hnd as [Hi Hnd]. apply NoDup_cons in Hnd as [Hp Hnd].
    destruct (queue_dequeue_dlist _ len _ _ _ D) as (h & Hd & D1 & HA & S1). cbn [client_producer length]. rewrite Hd. cbn [mbind option_bind ps_heads ps_length ps_replies ps_sent].
    rewrite bool_decide_eq_false_2 by set_solver. destruct (Hr p ltac:(set_solver)) as (r & Hrp & o & Hpar). rewrite Hrp. cbn [mbind option_bind]. rewrite Hpar. cbn [mbind option_bind].
    assert (forall q, q ∈ xs -> exists r, ps_replies st !! q = Some r /\ is_Some (parse_aaaa_reply r)) as Hr' by (intros; apply Hr; set_solver).
    pose proof (free_same h p) as S2. cbn [List.filter].
    assert (passes st p = match o with Some _ => replies_ret p =? 0 | None => false end) as Hpp by (unfold passes; by rewrite Hrp, Hpar).
    assert (passes st p = false -> exists st', (st ← free_reply (PState h (ps_length st) (ps_replies st) (ps_sent st)) p; client_producer (length xs) inner (wrap64 (len - 1)) st) =
      Some (st', wrap64 (len - Z.of_nat (S (length xs)) - 1), List.filter (passes st) xs) /\ produced inner (p :: xs) st st') as Hfree.
    { intros Hno. rewrite free_reply_ok by done. cbn [mbind option_bind ps_heads ps_length ps_replies ps_sent]. apply producer_rest; cbn [ps_heads ps_length ps_replies ps_sent]; try done.
      - set_solver.
      - eapply dlist_frame; [exact S2|set_solver|done].
      - intros q Hq. destruct (S2 q ltac:(set_solver)) as [-> ->]. apply S1. set_solver.
      - intros q Hq. by rewrite lookup_delete_ne.
      - intros r1 r' Hr1 Hp1 Ha. simplify_eq. by rewrite Hpp, Ha in Hno. }
    destruct o as [r'|]; [destruct (Z.eqb_spec (replies_ret p) 0) as [Ha|Ha]|]; rewrite Hpp in *; [|by apply Hfree|by apply Hfree].
    destruct (producer_rest inner p xs len st (PState h (ps_length st) (<[p := r']> (ps_replies st)) (ps_sent st)) IH) as (st' & Hc & Hpd);
      cbn [ps_heads ps_length ps_replies ps_sent]; try done.
    + set_solver.
    + intros q Hq. apply S1. set_solver.
    + intros q Hq. by rewrite lookup_insert_ne.
    + intros r1 r2 Hr1 Hp1 _. simplify_eq. by rewrite lookup_insert_eq.
    + rewrite Hc. cbn [mbind option_bind]. by eexists.
Qed.

(** A reply of the inner queue: what c-ares finds in it, if anything, is a
    name and an address whose texts fit in the request. *)
Definition resolvable (r : reply) : Prop :=
  text_fits (rp_app r) /\ text_fits (inet_ntop (rp_addr r)) /\
  forall name l, ares_parse_aaaa_reply (take (rp_length r) (rp_data r)) = Some (name, l) ->
    text_fits name /\ exists a l', l = a :: l' /\ text_fits (inet_ntop a).

(** The state of the proxy after [ares_process], with the replies [xs] in the
    inner queue. *)
Record inner_ready (tid : string) (inner : ptr) (st : pstate) (xs : list ptr) : Prop := {
  ir_thread : thread_ok tid;
  ir_router : text_fits router_name;
  ir_empty : pwf st [];
  ir_inner : dlist (ps_heads st) inner xs;
  ir_apart : waiting ∉ inner :: xs;
  ir_small : Z.of_nat (length xs) < 2 ^ 32;
  ir_open : forall p, p ∈ xs -> append_ret p = 0 /\ remove_ret p = 0;
  ir_replies : forall p, p ∈ xs -> exists r, ps_replies st !! p = Some r /\ resolvable r
}.

Lemma resolvable_parse r : resolvable r ->
  exists o, parse_aaaa_reply r = Some o /\ forall r', o = Some r' -> reply_ok r' /\ rp_addr r' = rp_addr r /\ rp_length r' = rp_length r /\ rp_data r' = rp_data r.
Proof.
  intros (Ha & Hs & Hn). unfold parse_aaaa_reply. destruct (ares_parse_aaaa_reply _) as [[name l]|]; [|by exists None].
  destruct (Hn name l eq_refl) as (Hname & a & l' & -> & Hfa). unfold copy_str. rewrite (proj2 (Nat.leb_le _ _)) by apply Hname. cbn [mbind option_bind].
  eexists. split; [done|]. intros r' [= <-]. split_and!; [|done|done|done]. by split.
Qed.

Lemma producer_ready tid inner len st xs : inner_ready tid inner st xs ->
  exists st1, client_producer (length xs) inner len st = Some (st1, wrap64 (len - Z.of_nat (length xs) - 1), List.filter (passes st) xs) /\
    produced inner xs st st1 /\ replies_ready tid st1 (List.filter (passes st) xs).
Proof.
  intros [Ht Hrn [D Hl Hsm _] Di Hw Hxs Hop Hr].
  destruct (client_producer_ok xs inner len st Di) as (st1 & Hc & Hpd).
  { intros p Hp. destruct (Hr p Hp) as (r & Hrp & Hres). exists r. split; [done|]. destruct (resolvable_parse r Hres) as (o & -> & _). by eexists. }
  exists st1. split_and!; [done|done|]. assert (forall p, p ∈ List.filter (passes st) xs -> p ∈ xs /\ passes st p = true) as Hf.
  { intros p Hp. apply list_elem_of_In, filter_In in Hp as [Hp1 Hp2]. split; [by apply list_elem_of_In|done]. }
  destruct Hpd as [_ S _ Hpass Hl1 _]. split; [done|done| | | | |].
  - split; [|by rewrite Hl1|done|intros p Hp; by apply elem_of_nil in Hp]. eapply dlist_frame; [exact S|set_solver|done].
  - destruct Di as [Hnd _]. apply NoDup_cons in Hnd as [_ Hnd]. apply NoDup_ListNoDup, List.NoDup_filter. by apply NoDup_ListNoDup.
  - pose proof (List.filter_length_le (passes st) xs). lia.
  - intros p Hp. apply Hop. by apply Hf.
  - intros p Hp. destruct (Hf p Hp) as [Hin Hps]. destruct (Hr p Hin) as (r & Hrp & Hres). unfold passes in Hps. rewrite Hrp in Hps.
    destruct (resolvable_parse r Hres) as (o & Ho & Hok). rewrite Ho in Hps. destruct o as [r'|]; [|done].
    destruct (Hpass p r r' Hin Hrp Ho ltac:(by apply Z.eqb_eq)) as [Hr' HA]. split_and!; [done|set_solver|]. exists r'. split; [done|]. by apply Hok.
Qed.

(** From the resolver's answer to the request: what the reply [p], the [k]-th
    that passes, has become when the threads have done their turn. *)
Record requested_by (tid : string) (st2 : pstate) (ops : list dbop) (ps : list ptr) (k : nat) (p : ptr) (r : reply) (args : callback_args)
    (hdr nm rest free : list Z) (row : json) : Prop := {
  rb_op : ops !! k = Some (DbInsert "FlowReq" row);
  rb_row : request_row row r (request_id tid (Z.of_nat k));
  rb_split : ps = take k ps ++ p :: drop (S k) ps;
  rb_wf : pwf st2 ps;
  rb_first : first_waiting st2 (request_id tid (Z.of_nat k)) (take k ps) p (set_uuid r (request_id tid (Z.of_nat k)));
  rb_packet : packet (set_uuid r (request_id tid (Z.of_nat k))) (splice 0 (be 2 (ca_qid args)) hdr) nm rest free;
  rb_addr : rp_addr r = ca_addr args;
  rb_open : remove_ret p = 0
}.

Lemma proxy_requests tid inner len st xs (k : nat) p r0 r mem abuf args hdr nm rest :
  inner_ready tid inner st xs -> List.filter (passes st) xs !! k = Some p -> ps_replies st !! p = Some r0 ->
  client_callback (Some mem) ARES_SUCCESS abuf args = Some (Some r0) -> parse_aaaa_reply r0 = Some (Some r) -> (length abuf <= length mem)%nat ->
  abuf = hdr ++ (nm ++ [0]) ++ rest -> length hdr = 12%nat -> Forall (fun b => b <> 0) nm ->
  exists st1 st2 ops row,
    client_producer (length xs) inner len st = Some (st1, wrap64 (len - Z.of_nat (length xs) - 1), List.filter (passes st) xs) /\
    client_consumer_main tid 0 (calloc_entry srdb_flowreq_entry) (List.filter (passes st) xs) st1 = Some (st2, ops) /\ ps_sent st2 = ps_sent st /\
    requested_by tid st2 ops (List.filter (passes st) xs) k p r args hdr nm rest (drop (length abuf) mem) row.
Proof.
  intros Hir Hk Hr0 Hcb Hpa Hmem Habuf Hh Hn.
  destruct (producer_ready tid inner len st xs Hir) as (st1 & Hpr & Hpd & Hrd). set (ps := List.filter (passes st) xs) in *.
  assert (p ∈ ps) as Hpin by (by eapply list_elem_of_lookup_2). assert (p ∈ xs /\ passes st p = true) as [Hpx Hpass].
  { apply list_elem_of_In, filter_In in Hpin as [? ?]. split; [by apply list_elem_of_In|done]. }
  assert (replies_ret p = 0) as Hret0 by (unfold passes in Hpass; rewrite Hr0, Hpa in Hpass; by apply Z.eqb_eq).
  destruct (pd_passed _ _ _ _ Hpd p r0 r Hpx Hr0 Hpa Hret0) as [Hr _].
  destruct (client_callback_packet mem abuf args hdr nm rest Habuf Hh Hn Hmem) as (r0' & Hcb' & Haddr & P). rewrite Hcb in Hcb'. simplify_eq.
  destruct (ir_replies _ _ _ _ Hir p Hpx) as (r1 & Hr1 & Hres). simplify_eq. destruct (resolvable_parse _ Hres) as (o & Ho & Hok). rewrite Hpa in Ho. simplify_eq.
  destruct (Hok r eq_refl) as (_ & Ea & El & Ed).
  destruct (requests_sent tid st1 ps Hrd) as (st2 & ops & Hm & W & Hs & Hrows). destruct (Hrows k p r Hk Hr) as ((row & Hop & Hrow) & F & Hsplit).
  exists st1, st2, ops, row. split_and!; [done|done|by rewrite Hs, (pd_sent _ _ _ _ Hpd)|]. split; [done|done|done|done|done| |by rewrite Ea|by apply (rd_open _ _ _ Hrd)].
  destruct P as [P1 P2 P3 P4]. split; cbn [set_uuid rp_data rp_length]; [by rewrite Ed|by rewrite El|done|done].
Qed.

(** C3. The life of the replies in the proxy, when its threads run one after
    another and no reply waits for the controller at the start.  Of the
    replies that the resolver has left in the inner queue, those with an
    address go to the next thread, in order; it registers each under an id of
    its own and requests the flow from the controller with the columns of the
    client's query.  When the flow of the [k]-th request is running, and the
    DNS message with one record per provider of the flow fits the 616 bytes of
    the reply's block, its client, and no other, is sent the DNS server's
    message under its own query id with those SRH records, and the reply
    leaves the queue. *)
Theorem proxy_answers_requester (tid : string) (inner : ptr) (len : Z) (st : pstate) (xs : list ptr) (k : nat) (p : ptr) (r0 r : reply)
    (mem abuf : list Z) (args : callback_args) (hdr nm rest : list Z) (fs : flowstate) (provs : list provider_data) :
  inner_ready tid inner st xs -> List.filter (passes st) xs !! k = Some p -> ps_replies st !! p = Some r0 ->
  client_callback (Some mem) ARES_SUCCESS abuf args = Some (Some r0) -> parse_aaaa_reply r0 = Some (Some r) -> length mem = reply_capacity ->
  abuf = hdr ++ (nm ++ [0]) ++ rest -> length hdr = 12%nat -> bytes hdr -> Forall (fun b => b <> 0) nm ->
  fs_request_id fs = request_id tid (Z.of_nat k) -> fs_status fs = FLOW_STATUS_RUNNING -> flow_columns fs provs -> Forall prov_ok provs ->
  (length abuf + length provs * (length nm + 46) <= reply_capacity)%nat ->
  exists st1 st2 ops row st3,
    client_producer (length xs) inner len st = Some (st1, wrap64 (len - Z.of_nat (length xs) - 1), List.filter (passes st) xs) /\
    client_consumer_main tid 0 (calloc_entry srdb_flowreq_entry) (List.filter (passes st) xs) st1 = Some (st2, ops) /\
    ops !! k = Some (DbInsert "FlowReq" row) /\ request_row row r (fs_request_id fs) /\
    read_flowstate (length (List.filter (passes st) xs)) fs (ENTRY_MASK FE_STATUS) st2 = Some (stop_, st3) /\
    pwf st3 (take k (List.filter (passes st) xs) ++ drop (S k) (List.filter (passes st) xs)) /\
    ps_sent st3 = ps_sent st ++ [(ca_addr args, answer_of (splice 0 (be 2 (ca_qid args)) hdr) nm rest provs)].
Proof.
  intros Hir Hk Hr0 Hcb Hpa Hmem Habuf Hh Hby Hn Hid Hst Hcol Hprov Hfit.
  destruct (proxy_requests tid inner len st xs k p r0 r mem abuf args hdr nm rest Hir Hk Hr0 Hcb Hpa ltac:(lia) Habuf Hh Hn)
    as (st1 & st2 & ops & row & Hpr & Hm & Hs & [Hop Hrow Hsplit W F P Ea Hret]).
  rewrite <- Hid in F, Hrow, P. rewrite Hsplit in W.
  destruct (read_flowstate_sends st2 _ p _ _ fs (ENTRY_MASK FE_STATUS) provs _ nm rest _ W Hret F P) as (st3 & Hread & W2 & _ & Hsent2);
    [by apply splice_bytes; [apply be2_bytes|]|done|done|done|done| |].
  - rewrite length_drop. lia.
  - exists st1, st2, ops, row, st3. rewrite <- Hsplit in Hread. rewrite Hsent2, Hs. cbn [set_uuid rp_addr]. rewrite Ea. by split_and!.
Qed.

(** The proxy with a longer block behind the reply [r] at [p]. *)
Definition with_room (st : pstate) (p : ptr) (r : reply) (more : list Z) : pstate :=
  PState (ps_heads st) (ps_length st) (<[p := set_packet r (rp_length r) (rp_data r ++ more)]> (ps_replies st)) (ps_sent st).

(** C40. When the DNS message and the records of the flow's providers (each the
    name of the question and 46 bytes) exceed the 616 bytes from [data] to the
    end of the reply's block, the proxy writes behind its end ([None]); with a
    block long enough the same notification sends the answer.  (A message of
    512 bytes and two providers are enough, for a name of seven bytes or more.) *)
Theorem answer_overflows (st : pstate) (ps : list ptr) (k : nat) (p : ptr) (r : reply) (fs : flowstate) (provs : list provider_data) (hdr nm rest free : list Z) :
  pwf st ps -> ps !! k = Some p -> first_waiting st (fs_request_id fs) (take k ps) p r -> packet r hdr nm rest free -> length (rp_data r) = reply_capacity ->
  bytes hdr -> remove_ret p = 0 -> fs_status fs = FLOW_STATUS_RUNNING -> flow_columns fs provs -> Forall prov_ok provs ->
  (reply_capacity < rp_length r + length provs * (length nm + 46))%nat ->
  read_flowstate (length ps) fs (ENTRY_MASK FE_STATUS) st = None /\
  forall more, (rp_length r + length provs * (length nm + 46) <= reply_capacity + length more)%nat ->
    exists st', read_flowstate (length ps) fs (ENTRY_MASK FE_STATUS) (with_room st p r more) = Some (stop_, st') /\
      ps_sent st' = ps_sent st ++ [(rp_addr r, answer_of hdr nm rest provs)].
Proof.
  intros W Hk F P Hcap Hb Hret Hst Hcol Hprov Hover. pose proof P as [P1 P2 P3 P4]. rewrite P1, length_app, <- P2 in Hcap.
  pose proof (pw_list _ _ W) as [Hnd _]. rewrite <- (take_drop_middle ps k p Hk) in W, Hnd |- *. split.
  { eapply read_flowstate_overflows; [done|done|done|done|done|done|done|]. lia. }
  intros more Hroom. destruct F as (Fp & Fs & Fl).
  destruct (read_flowstate_sends (with_room st p r more) (take k ps) p (drop (S k) ps) (set_packet r (rp_length r) (rp_data r ++ more)) fs (ENTRY_MASK FE_STATUS)
    provs hdr nm rest (free ++ more)) as (st' & H1 & _ & _ & H2); try done.
  - destruct W as [W1 W2 W3 W4]. split; cbn [with_room ps_heads ps_length ps_replies]; [done|done|done|]. intros q Hq.
    destruct (decide (p = q)) as [<-|Hne]; [rewrite lookup_insert_eq; by eexists|]. rewrite lookup_insert_ne by done. by apply W4.
  - split_and!; [cbn [with_room ps_replies]; by rewrite lookup_insert_eq|done|]. intros q r' Hq. cbn [with_room ps_replies]. rewrite lookup_insert_ne.
    + by apply Fl.
    + intros ->. rewrite app_comm_cons in Hnd. apply NoDup_mid in Hnd as (Hno & _). set_solver.
  - split; cbn [set_packet rp_data rp_length]; [by rewrite P1, <- !app_assoc|done..].
  - rewrite length_app. lia.
  - exists st'. split; [done|]. by rewrite H2.
Qed.

(** C24. When the controller rejects the [k]-th request, its client is sent a
    message with the query's question, no record, and the response code for a
    refusal; the reply leaves the queue. *)
Theorem proxy_rejects (tid : string) (st : pstate) (ps : list ptr) (k : nat) (p : ptr) (r : reply) (status : Z) (hdr nm rest free : list Z) :
  replies_ready tid st ps -> ps !! k = Some p -> ps_replies st !! p = Some r -> packet r hdr nm rest free -> (4 <= length (rest ++ free))%nat ->
  status <> REQ_STATUS_PENDING -> status <> REQ_STATUS_ALLOWED ->
  exists st1 ops b st2, client_consumer_main tid 0 (calloc_entry srdb_flowreq_entry) ps st = Some (st1, ops) /\
    read_flowreq (length ps) (request_id tid (Z.of_nat k)) status (ENTRY_MASK FREQ_STATUS) st1 = Some (stop_, st2) /\ pwf st2 (take k ps ++ drop (S k) ps) /\
    ps_sent st2 = ps_sent st ++ [(rp_addr r, reject_header hdr b ++ (nm ++ [0]) ++ take 4 (rest ++ free))] /\
    forall old, hdr !! 3%nat = Some old -> old mod 16 = 0 -> b mod 16 = DNS_RCODE_REJECT /\ b / 16 = old / 16.
Proof.
  intros Hrd Hk Hr P H4 Hs1 Hs2. destruct (requests_sent tid st ps Hrd) as (st1 & ops & Hm & W & Hs & Hrows).
  destruct (Hrows k p r Hk Hr) as (_ & F & Hsplit). rewrite Hsplit in W.
  assert (remove_ret p = 0) as Hret by (apply (rd_open _ _ _ Hrd); by eapply list_elem_of_lookup_2).
  destruct (read_flowreq_rejects st1 _ p _ (set_uuid r (request_id tid (Z.of_nat k))) (request_id tid (Z.of_nat k)) status (ENTRY_MASK FREQ_STATUS) hdr nm rest free W Hret F)
    as (b & st2 & Hread & W2 & _ & Hsent & Hcode); [destruct P as [P1 P2 P3 P4]; by split|done|done|done|done|].
  exists st1, ops, b, st2. rewrite <- Hsplit in Hread. rewrite Hsent, Hs. by split_and!.
Qed.
End proxy.

(** ** A proxy with one client *)

Definition demo_expand (m : list Z) (o : nat) (len : Z) : option (string * Z) := Some ("a", 3).
Definition demo_resolve (abuf : list Z) : option (string * list in6_addr) := Some ("a", [addr_n 9]).

(** The client at ::5 asks for the address of "a". *)
Definition no_query : query := Query [] 0 0 0 "" [].
Definition demo_query : query :=
  default no_query (server_producer_process (Some (replicate 512 170))
    (Some (edns_query 7 [1; 0] [1; 97; 0] [0; 28; 0; 1] 1280
      (map (fun o => (option_code o, take (Z.to_nat (option_length o)) (option_data o))) (srdns_options "app" 100 20)))) (addr_n 5)).

Lemma srdns_query_understood_witness :
  server_consumer hex_text demo_expand true 0 demo_query = Some (Some ("a", CallbackArgs 7 (addr_n 5) 100 20 "app")).
Proof.
  apply (srdns_query_understood hex_text demo_expand demo_query 7 [1; 0] [1; 97; 0] [0; 28; 0; 1] 1280 (replicate (512 - 53) 170) "a" "app" 100 20);
    try done; try lia; vm_compute; repeat split; lia.
Defined.

(** A query whose application name has 200 bytes. *)
Definition demo_attack : query :=
  default no_query (server_producer_process (Some (replicate 512 170))
    (Some (edns_query 7 [1; 0] [1; 97; 0] [0; 28; 0; 1] 1280 [(T_OPT_OPCODE_APP_NAME, replicate 200 65)])) (addr_n 5)).

Lemma edns_name_overflows_witness : dns_parse_edns hex_text demo_expand demo_attack = None.
Proof.
  apply (edns_name_overflows hex_text demo_expand demo_attack 7 [1; 0] [1; 97; 0] [0; 28; 0; 1] 1280 [] (replicate 200 65) [] (replicate (512 - 234) 170) "a");
    try done; try lia; vm_compute; lia.
Defined.

(** The message of the DNS server, and the reply built from it. *)
Definition demo_hdr : list Z := be 2 99 ++ [129; 128] ++ be 2 1 ++ be 2 1 ++ be 2 0 ++ be 2 0.
Definition demo_rest : list Z := [0; 28; 0; 1] ++ replicate 30 3.
Definition demo_args : callback_args := CallbackArgs 7 (addr_n 5) 100 20 "app".
Definition demo_mem : list Z := replicate reply_capacity 170.
Definition no_reply : reply := Reply [] 0 0 0 "" "" "" "" [].
Definition demo_reply0 : reply := default no_reply (x ← client_callback (Some demo_mem) 0 (demo_hdr ++ ([1; 97] ++ [0]) ++ demo_rest) demo_args; x).
Definition demo_reply : reply := default no_reply (x ← parse_aaaa_reply demo_resolve hex_text demo_reply0; x).
Definition demo_waiting : pstate :=
  PState (mq_heads (mq (qstart 1 0))) 0 {[3%positive := demo_reply]} [].
Definition demo_provs : list provider_data := [Prov 5 (hex_text (addr_n 1)) 64 (hex_text (addr_n 80))].
Definition demo_flowstate (n : nat) : flowstate :=
  FlowState (request_id "t" 0) FLOW_STATUS_RUNNING
    (Some (json_dumps (JArr (replicate n (JArr [JInt 5; JStr (hex_text (addr_n 1)); JInt 64]))))) (Some (json_dumps (JArr (replicate n (JStr (hex_text (addr_n 80))))))).

Definition accepted (p : ptr) : Z := 0.

Lemma demo_ready : replies_ready hex_text 2%positive "A" accepted accepted "t" demo_waiting [3%positive].
Proof.
  split.
  - split; vm_compute; [lia|done].
  - split; vm_compute; [lia|done].
  - split; [|done|done|set_solver]. split; [apply NoDup_singleton|]. by vm_compute.
  - apply NoDup_singleton.
  - done.
  - done.
  - intros p ->%list_elem_of_singleton. split_and!; [split; eexists; vm_compute; reflexivity|done|]. exists demo_reply. split; [done|].
    split; (split; [vm_compute; lia|vm_compute; done]).
Qed.

Lemma demo_columns n : flow_columns (demo_flowstate n) (replicate n (Prov 5 (hex_text (addr_n 1)) 64 (hex_text (addr_n 80)))).
Proof.
  eexists _, _. split_and!; [reflexivity|reflexivity| |]; apply Forall2_replicate; done.
Qed.

Lemma demo_prov_ok : prov_ok hex_pton (Prov 5 (hex_text (addr_n 1)) 64 (hex_text (addr_n 80))).
Proof. split; eexists; (split; [vm_compute; reflexivity|done]). Qed.

(** The inner queue at 4 with the reply at 3. *)
Definition demo_inner : pstate :=
  PState (Heads (list_to_map [(2%positive, 2%positive); (4%positive, 3%positive); (3%positive, 4%positive)])
    (list_to_map [(2%positive, 2%positive); (4%positive, 3%positive); (3%positive, 4%positive)])) 0 {[3%positive := demo_reply0]} [].

Lemma demo_inner_ready : inner_ready demo_resolve hex_text 2%positive "A" accepted accepted "t" 4%positive demo_inner [3%positive].
Proof.
  split; [split; vm_compute; [lia|done]|split; vm_compute; [lia|done]| | |set_solver|done|done|].
  - split; [|done|done|set_solver]. split; [apply NoDup_singleton|]. by vm_compute.
  - split; [repeat constructor; set_solver|]. by vm_compute.
  - intros p ->%list_elem_of_singleton. exists demo_reply0. split; [done|]. split_and!; [split; vm_compute; [lia|done]|split; vm_compute; [lia|done]|].
    intros name l [= <- <-]. split; [split; vm_compute; [lia|done]|]. eexists _, _. split; [done|]. split; vm_compute; [lia|done].
Qed.

Lemma proxy_answers_requester_witness :
  exists st1 st2 ops row st3, client_producer demo_resolve hex_text accepted 1 4%positive 1 demo_inner = Some (st1, wrap64 (-1), [3%positive]) /\
    client_consumer_main hex_text 2%positive "A" accepted "t" 0 (calloc_entry srdb_flowreq_entry) [3%positive] st1 = Some (st2, ops) /\
    ops !! 0%nat = Some (DbInsert "FlowReq" row) /\ request_row hex_text "A" row demo_reply (request_id "t" 0) /\
    read_flowstate hex_pton 2%positive 0 accepted 1 (demo_flowstate 1) (ENTRY_MASK FE_STATUS) st2 = Some (0, st3) /\ pwf 2%positive st3 [] /\
    ps_sent st3 = [(addr_n 5, answer_of hex_pton (splice 0 (be 2 7) demo_hdr) [1; 97] demo_rest demo_provs)].
Proof.
  apply (proxy_answers_requester demo_resolve hex_pton hex_text 2%positive "A" 0 accepted accepted accepted "t" 4%positive 1 demo_inner [3%positive] 0 3%positive demo_reply0 demo_reply demo_mem
    (demo_hdr ++ ([1; 97] ++ [0]) ++ demo_rest) demo_args demo_hdr [1; 97] demo_rest (demo_flowstate 1) demo_provs);
    [apply demo_inner_ready|done|done|vm_compute; reflexivity|vm_compute; reflexivity|done|done|done| |by repeat constructor|done|done|apply (demo_columns 1)| |vm_compute; lia].
  - apply (bool_decide_unpack _). by vm_compute.
  - repeat constructor; apply demo_prov_ok.
Defined.

(** Twelve records do not fit; with 100 bytes more they would. *)
Lemma answer_overflows_witness :
  let r := set_uuid demo_reply (request_id "t" 0) in
  let st := PState (Heads (list_to_map [(2%positive, 3%positive); (3%positive, 2%positive)]) (list_to_map [(2%positive, 3%positive); (3%positive, 2%positive)])) 1
       {[3%positive := r]} [] in
  read_flowstate hex_pton 2%positive 0 accepted 1 (demo_flowstate 12) (ENTRY_MASK FE_STATUS) st = None /\
  exists st', read_flowstate hex_pton 2%positive 0 accepted 1 (demo_flowstate 12) (ENTRY_MASK FE_STATUS) (with_room st 3%positive r (replicate 100 0)) = Some (0, st') /\
    ps_sent st' = [(rp_addr r, answer_of hex_pton (splice 0 (be 2 7) demo_hdr) [1; 97] demo_rest (replicate 12 (Prov 5 (hex_text (addr_n 1)) 64 (hex_text (addr_n 80)))))].
Proof.
  intros r st. assert (H := answer_overflows demo_resolve hex_pton hex_text 2%positive "A" 0 accepted accepted accepted st [3%positive] 0 3%positive r (demo_flowstate 12)
    (replicate 12 (Prov 5 (hex_text (addr_n 1)) 64 (hex_text (addr_n 80)))) (splice 0 (be 2 7) demo_hdr) [1; 97] demo_rest (replicate (616 - 49) 170)).
  destruct H as [H1 H2].
  - split; [|done|done|intros p ->%list_elem_of_singleton; by eexists]. split; [by repeat constructor; set_solver|by vm_compute].
  - done.
  - split_and!; [done|by vm_compute|intros q r' Hq; by apply elem_of_nil in Hq].
  - split; [vm_compute; reflexivity|vm_compute; reflexivity|done|by repeat constructor].
  - vm_compute. reflexivity.
  - by apply splice_bytes; [apply be2_bytes|repeat constructor].
  - done.
  - done.
  - apply (demo_columns 12).
  - apply Forall_replicate, demo_prov_ok.
  - vm_compute. lia.
  - split; [exact H1|]. apply (H2 (replicate 100 0)). vm_compute. lia.
Defined.

Lemma proxy_rejects_witness :
  exists st1 ops b st2, client_consumer_main hex_text 2%positive "A" accepted "t" 0 (calloc_entry srdb_flowreq_entry) [3%positive] demo_waiting = Some (st1, ops) /\
    read_flowreq 2%positive 0 accepted 1 (request_id "t" 0) REQ_STATUS_DENIED (ENTRY_MASK FREQ_STATUS) st1 = Some (0, st2) /\ pwf 2%positive st2 [] /\
    ps_sent st2 = [(rp_addr demo_reply, reject_header (splice 0 (be 2 7) demo_hdr) b ++ ([1; 97] ++ [0]) ++ [0; 28; 0; 1])] /\
    forall old, splice 0 (be 2 7) demo_hdr !! 3%nat = Some old -> old mod 16 = 0 -> b mod 16 = DNS_RCODE_REJECT /\ b / 16 = old / 16.
Proof.
  apply (proxy_rejects hex_pton hex_text 2%positive "A" 0 accepted accepted accepted "t" demo_waiting [3%positive] 0 3%positive demo_reply REQ_STATUS_DENIED (splice 0 (be 2 7) demo_hdr)
    [1; 97] demo_rest (replicate (616 - 49) 170)); [apply demo_ready|done|done| |vm_compute; lia|done|done].
  split; [vm_compute; reflexivity|vm_compute; reflexivity|done|by repeat constructor].
Defined.
