(* ===== verification/Config.v ===== *)
(** * Configuration files (sr-ctrl.c, sr-routed.c, sr-dnsproxy/args.c)

    The defaults and [load_config] of the three daemons.  A line is read with
    fgets() into an array of 128 bytes that keeps what earlier lines left in
    it, and tried against sscanf() formats one after the other.  [None] is an
    access outside of the array or through NULL. *)

From S2P Require Import Prelude Misc Hashmap Rules Srdb Dijkstra Segpath Netstate Flows.
From Stdlib Require Import Ascii.

(** ** sscanf

    EOF, 0 or 1: the input ends before the first conversion, something else
    does not match, or the conversion is done. *)

Inductive scan (A : Type) := ScanEof | ScanNone | ScanVal (v : A).
Arguments ScanEof {A}.
Arguments ScanNone {A}.
Arguments ScanVal {A} v.

Definition scan_bind {A B} (m : scan A) (f : A -> scan B) : scan B :=
  match m with ScanEof => ScanEof | ScanNone => ScanNone | ScanVal v => f v end.

Definition DQ : ascii := ascii_of_nat 34.

(** The ordinary characters of a format; the rest of the input. *)
Fixpoint scan_literal (fmt s : string) : scan string :=
  match fmt, s with
  | EmptyString, _ => ScanVal s
  | String _ _, EmptyString => ScanEof
  | String a fmt, String b s => if Ascii.eqb a b then scan_literal fmt s else ScanNone
  end.

(** The format of READ_STRING: the key, white space, a quoted string that is
    not empty. *)
Definition scan_string (key s : string) : scan string :=
  scan_bind (scan_literal key s) (fun s =>
  scan_bind (scan_literal (String DQ "") (skip_space s)) (fun s =>
  match s with
  | EmptyString => ScanEof
  | _ => match (split_first DQ s).1 with EmptyString => ScanNone | v => ScanVal v end
  end)).

(** The digits of a base. *)
Definition digit_value (a : ascii) : Z :=
  let b := byte_of a in
  if isdigit a then b - 48
  else if (97 <=? b) && (b <=? 102) then b - 87
  else if (65 <=? b) && (b <=? 70) then b - 55
  else 99.

Fixpoint digits_in (base acc : Z) (s : string) : Z :=
  match s with
  | String a s => if digit_value a <? base then digits_in base (base * acc + digit_value a) s else acc
  | EmptyString => acc
  end.

Definition starts_in (base : Z) (s : string) : bool := match s with String a _ => digit_value a <? base | EmptyString => false end.

Definition scan_sign (s : string) : Z * string :=
  match s with
  | String a t => if Ascii.eqb a "-" then (-1, t) else if Ascii.eqb a "+" then (1, t) else (1, s)
  | EmptyString => (1, s)
  end.

(** %i: decimal, octal behind 0, hexadecimal behind 0x. *)
Definition scan_base (s : string) : Z * string :=
  match s with
  | String z (String x t) =>
      if Ascii.eqb z "0" then if Ascii.eqb x "x" || Ascii.eqb x "X" then (16, t) else (8, String x t) else (10, s)
  | _ => (10, s)
  end.

Definition scan_i (s : string) : scan Z :=
  match skip_space s with
  | EmptyString => ScanEof
  | s =>
      let '(sign, s) := scan_sign s in
      let '(base, s) := scan_base s in
      if (base =? 8) || starts_in base s then ScanVal (clamp_long (sign * digits_in base 0 s)) else ScanNone
  end.

(** %u *)
Definition scan_u (s : string) : scan Z :=
  match skip_space s with
  | EmptyString => ScanEof
  | s =>
      let '(sign, s) := scan_sign s in
      if starts_in 10 s then ScanVal (wrap64 (sign * Z.min (2 ^ 64 - 1) (digits_in 10 0 s))) else ScanNone
  end.

(** ** Lines *)

Section lines.
Context {C : Type}.

(** [Some]: sscanf() has not returned 0, the line is dealt with. *)
Definition directive := string -> C -> option C.

Definition READ_STRING (key : string) (set : C -> string -> C) : directive := fun buf cfg =>
  match scan_string key buf with ScanEof => Some cfg | ScanNone => None | ScanVal v => Some (set cfg v) end.

(** READ_INT, followed by the correction of 0 to 1; [conv] is the conversion to
    the type of the field. *)
Definition READ_INT (key : string) (conv : Z -> Z) (get : C -> Z) (set : C -> Z -> C) : directive := fun buf cfg =>
  let at_least_1 cfg := if get cfg =? 0 then set cfg 1 else cfg in
  match scan_bind (scan_literal key buf) scan_i with
  | ScanEof => Some (at_least_1 cfg)
  | ScanNone => None
  | ScanVal v => Some (at_least_1 (set cfg (conv v)))
  end.

Definition READ_UINT (key : string) (set : C -> Z -> C) : directive := fun buf cfg =>
  match scan_bind (scan_literal key buf) scan_u with
  | ScanEof => Some cfg
  | ScanNone => None
  | ScanVal v => Some (set cfg (wrap32 v))
  end.

(** if (READ ...) continue; if (READ ...) continue; ... *)
Fixpoint read_first (ds : list directive) (buf : string) (cfg : C) : option C :=
  match ds with
  | [] => None
  | d :: ds => match d buf cfg with Some cfg => Some cfg | None => read_first ds buf cfg end
  end.
End lines.
Arguments directive : clear implicits.

(** The string at the start of the array. *)
Definition buf_str (buf : list ascii) : string := cut_at NUL (String.string_of_list_ascii buf).

(** fgets() into the array. *)
Definition store_line (buf : list ascii) (line : string) : list ascii :=
  String.list_ascii_of_string line ++ NUL :: drop (S (String.length line)) buf.

(** strip_crlf() in place: the first [c] of the string becomes its end. *)
Fixpoint zap (c : ascii) (buf : list ascii) : list ascii :=
  match buf with
  | [] => []
  | a :: rest => if Ascii.eqb a NUL then buf else if Ascii.eqb a c then NUL :: rest else a :: zap c rest
  end.

Section loop.
Context {C : Type} (line : list ascii -> C -> option (list ascii * option C)).

(** while (fgets(buf, 128, fp)): a turn reads at least one byte, the length
    of the file is enough fuel.  The return value and the configuration. *)
Fixpoint config_loop (fuel : nat) (buf : list ascii) (s : string) (cfg : C) : option (Z * C) :=
  match s with
  | EmptyString => Some (0, cfg)
  | _ =>
      match fuel with
      | O => None
      | S fuel =>
          let '(l, rest) := fgets 127 s in
          '(buf, r) ← line (zap CR (zap LF (store_line buf l))) cfg;
          match r with
          | Some cfg => config_loop fuel buf rest cfg
          | None => Some (-1, cfg)
          end
      end
  end.

(** [file] is [None] when fopen() fails; [buf] is what the array holds at first. *)
Definition config_file (buf : list ascii) (file : option string) (cfg : C) : option (Z * C) :=
  match file with
  | None => Some (-1, cfg)
  | Some s => config_loop (String.length s) buf s cfg
  end.
End loop.

(** ** Database (struct ovsdb_config) *)

Record ovsdb_config := OvsdbConfig { ovsdb_client : string; ovsdb_server : string; ovsdb_database : string; ntransacts : Z }.
Definition set_ovsdb_client (c : ovsdb_config) (s : string) := OvsdbConfig s (ovsdb_server c) (ovsdb_database c) (ntransacts c).
Definition set_ovsdb_server (c : ovsdb_config) (s : string) := OvsdbConfig (ovsdb_client c) s (ovsdb_database c) (ntransacts c).
Definition set_ovsdb_database (c : ovsdb_config) (s : string) := OvsdbConfig (ovsdb_client c) (ovsdb_server c) s (ntransacts c).
Definition set_ntransacts (c : ovsdb_config) (n : Z) := OvsdbConfig (ovsdb_client c) (ovsdb_server c) (ovsdb_database c) n.

(** ** The controller (sr-ctrl.c) *)

Record ctrl_config := CtrlConfig {
  cc_rules_file : string;
  cc_ovsdb : ovsdb_config;
  cc_worker_threads : Z;
  cc_req_buffer_size : Z;
  cc_providers : list provider;   (* [nb_providers] of them *)
  cc_zlog : string
}.

Definition ctrl_defaults : ctrl_config :=
  CtrlConfig "rules.conf" (OvsdbConfig "ovsdb-client" "tcp:[::1]:6640" "SR_test" 1) 1 16 [internal_provider] "".

Definition cc_set_ovsdb (c : ctrl_config) (o : ovsdb_config) := CtrlConfig (cc_rules_file c) o (cc_worker_threads c) (cc_req_buffer_size c) (cc_providers c) (cc_zlog c).
Definition cc_set_rules (c : ctrl_config) (s : string) := CtrlConfig s (cc_ovsdb c) (cc_worker_threads c) (cc_req_buffer_size c) (cc_providers c) (cc_zlog c).
Definition cc_set_workers (c : ctrl_config) (n : Z) := CtrlConfig (cc_rules_file c) (cc_ovsdb c) n (cc_req_buffer_size c) (cc_providers c) (cc_zlog c).
Definition cc_set_buffer (c : ctrl_config) (n : Z) := CtrlConfig (cc_rules_file c) (cc_ovsdb c) (cc_worker_threads c) n (cc_providers c) (cc_zlog c).
Definition cc_set_providers (c : ctrl_config) (l : list provider) := CtrlConfig (cc_rules_file c) (cc_ovsdb c) (cc_worker_threads c) (cc_req_buffer_size c) l (cc_zlog c).
Definition cc_set_zlog (c : ctrl_config) (s : string) := CtrlConfig (cc_rules_file c) (cc_ovsdb c) (cc_worker_threads c) (cc_req_buffer_size c) (cc_providers c) s.

Definition ctrl_directives : list (directive ctrl_config) :=
  [READ_STRING "ovsdb_client" (fun c v => cc_set_ovsdb c (set_ovsdb_client (cc_ovsdb c) v));
   READ_STRING "ovsdb_server" (fun c v => cc_set_ovsdb c (set_ovsdb_server (cc_ovsdb c) v));
   READ_STRING "ovsdb_database" (fun c v => cc_set_ovsdb c (set_ovsdb_database (cc_ovsdb c) v));
   READ_STRING "zlog_conf_file" cc_set_zlog;
   READ_INT "ntransacts" to_int (fun c => ntransacts (cc_ovsdb c)) (fun c v => cc_set_ovsdb c (set_ntransacts (cc_ovsdb c) v));
   READ_STRING "rules_file" cc_set_rules;
   READ_INT "worker_threads" wrap32 cc_worker_threads cc_set_workers;
   READ_INT "req_buffer_size" wrap32 cc_req_buffer_size cc_set_buffer].

(** for (ptr = buf; *ptr; ptr++): spaces and slashes become ends of strings;
    their number and the array. *)
Fixpoint cut_fields (buf : list ascii) : nat * list ascii :=
  match buf with
  | [] => (O, [])
  | a :: rest =>
      if Ascii.eqb a NUL then (O, buf)
      else
        let '(n, rest) := cut_fields rest in
        if Ascii.eqb a SP || Ascii.eqb a "/" then (S n, NUL :: rest) else (n, a :: rest)
  end.

(** The string at [ptr] and ptr + strlen(ptr) + 1; [None] when there is no end
    before the end of the array. *)
Fixpoint next_field (ptr : list ascii) : option (string * list ascii) :=
  match ptr with
  | [] => None
  | a :: rest => if Ascii.eqb a NUL then Some (EmptyString, rest) else '(s, rest) ← next_field rest; Some (String a s, rest)
  end.

Definition to_char (x : Z) : Z := (x + 2 ^ 7) mod 2 ^ 8 - 2 ^ 7.

(** One element of [providers]; [priority] is not written. *)
Definition read_provider (junk : Z) (ptr : list ascii) : option (provider * list ascii) :=
  '(name, ptr) ← next_field ptr;
  '(addr, ptr) ← next_field ptr;
  '(len, ptr) ← next_field ptr;
  '(_, ptr) ← next_field ptr;
  '(router, ptr) ← next_field ptr;
  Some (Provider router name addr (to_char (strtol len)) junk, ptr).

Fixpoint read_providers (junk : nat -> Z) (n i : nat) (ptr : list ascii) : option (list provider) :=
  match n with
  | O => Some []
  | S n => '(p, ptr) ← read_provider (junk i) ptr; ps ← read_providers junk n (S i) ptr; Some (p :: ps)
  end.

(** The test by strncmp(). *)
Definition is_providers (buf : string) : bool := match scan_literal "providers " buf with ScanVal _ => true | _ => false end.

Definition ctrl_line (junk : nat -> Z) (buf : list ascii) (cfg : ctrl_config) : option (list ascii * option ctrl_config) :=
  match read_first ctrl_directives (buf_str buf) cfg with
  | Some cfg => Some (buf, Some cfg)
  | None =>
      if is_providers (buf_str buf) then
        let '(i, buf) := cut_fields buf in
        ps ← read_providers junk (i / 4) 0 (drop 10 buf);
        Some (buf, Some (cc_set_providers cfg ps))
      else Some (buf, None)
  end.

Definition ctrl_load_config (junk : nat -> Z) := config_file (ctrl_line junk).

(** ** The route daemon (sr-routed.c) *)

Record routed_config := RoutedConfig { rc_ovsdb : ovsdb_config; rc_router_name : string; rc_ingress_iface : string; rc_localsid : Z; rc_zlog : string }.

Definition RT_TABLE_MAIN := 254.
Definition routed_defaults : routed_config := RoutedConfig (OvsdbConfig "ovsdb-client" "tcp:[::1]:6640" "SR_test" 1) "access" "eth0" RT_TABLE_MAIN "".

Definition rc_set_ovsdb (c : routed_config) (o : ovsdb_config) := RoutedConfig o (rc_router_name c) (rc_ingress_iface c) (rc_localsid c) (rc_zlog c).
Definition rc_set_router (c : routed_config) (s : string) := RoutedConfig (rc_ovsdb c) s (rc_ingress_iface c) (rc_localsid c) (rc_zlog c).
Definition rc_set_iface (c : routed_config) (s : string) := RoutedConfig (rc_ovsdb c) (rc_router_name c) s (rc_localsid c) (rc_zlog c).
Definition rc_set_localsid (c : routed_config) (n : Z) := RoutedConfig (rc_ovsdb c) (rc_router_name c) (rc_ingress_iface c) n (rc_zlog c).
Definition rc_set_zlog (c : routed_config) (s : string) := RoutedConfig (rc_ovsdb c) (rc_router_name c) (rc_ingress_iface c) (rc_localsid c) s.

Definition routed_directives : list (directive routed_config) :=
  [READ_STRING "ovsdb_client" (fun c v => rc_set_ovsdb c (set_ovsdb_client (rc_ovsdb c) v));
   READ_STRING "ovsdb_server" (fun c v => rc_set_ovsdb c (set_ovsdb_server (rc_ovsdb c) v));
   READ_STRING "ovsdb_database" (fun c v => rc_set_ovsdb c (set_ovsdb_database (rc_ovsdb c) v));
   READ_STRING "router_name" rc_set_router;
   READ_INT "ntransacts" to_int (fun c => ntransacts (rc_ovsdb c)) (fun c v => rc_set_ovsdb c (set_ntransacts (rc_ovsdb c) v));
   READ_UINT "localsid" rc_set_localsid;
   READ_STRING "ingress_iface" rc_set_iface;
   READ_STRING "zlog_conf_file" rc_set_zlog].

Definition routed_line (buf : list ascii) (cfg : routed_config) : option (list ascii * option routed_config) :=
  Some (buf, read_first routed_directives (buf_str buf) cfg).

Definition routed_load_config := config_file routed_line.

(** ** The DNS proxy (sr-dnsproxy/args.c) *)

Record proxy_config := ProxyConfig {
  pc_ovsdb : ovsdb_config;
  pc_fifo : string;
  pc_router_name : string;
  pc_max_queries : Z;
  pc_listen_port : string;
  pc_listen_addr : string;
  pc_dns_port : string;
  pc_zlog : string;
  pc_servers : list (list Z);   (* [servers]: the addresses *)
  pc_optmask : bool             (* ARES_OPT_SERVERS *)
}.

Definition proxy_defaults : proxy_config :=
  ProxyConfig (OvsdbConfig "ovsdb-client" "ovsdb-server" "SR_test" 1) "client_server_fifo" "A" 50 "2000" "::" "53" "" [] false.

Definition pc_set_ovsdb (c : proxy_config) (o : ovsdb_config) := ProxyConfig o (pc_fifo c) (pc_router_name c) (pc_max_queries c) (pc_listen_port c) (pc_listen_addr c) (pc_dns_port c) (pc_zlog c) (pc_servers c) (pc_optmask c).
Definition pc_set_fifo (c : proxy_config) (s : string) := ProxyConfig (pc_ovsdb c) s (pc_router_name c) (pc_max_queries c) (pc_listen_port c) (pc_listen_addr c) (pc_dns_port c) (pc_zlog c) (pc_servers c) (pc_optmask c).
Definition pc_set_router (c : proxy_config) (s : string) := ProxyConfig (pc_ovsdb c) (pc_fifo c) s (pc_max_queries c) (pc_listen_port c) (pc_listen_addr c) (pc_dns_port c) (pc_zlog c) (pc_servers c) (pc_optmask c).
Definition pc_set_queries (c : proxy_config) (n : Z) := ProxyConfig (pc_ovsdb c) (pc_fifo c) (pc_router_name c) n (pc_listen_port c) (pc_listen_addr c) (pc_dns_port c) (pc_zlog c) (pc_servers c) (pc_optmask c).
Definition pc_set_port (c : proxy_config) (s : string) := ProxyConfig (pc_ovsdb c) (pc_fifo c) (pc_router_name c) (pc_max_queries c) s (pc_listen_addr c) (pc_dns_port c) (pc_zlog c) (pc_servers c) (pc_optmask c).
Definition pc_set_addr (c : proxy_config) (s : string) := ProxyConfig (pc_ovsdb c) (pc_fifo c) (pc_router_name c) (pc_max_queries c) (pc_listen_port c) s (pc_dns_port c) (pc_zlog c) (pc_servers c) (pc_optmask c).
Definition pc_set_dns_port (c : proxy_config) (s : string) := ProxyConfig (pc_ovsdb c) (pc_fifo c) (pc_router_name c) (pc_max_queries c) (pc_listen_port c) (pc_listen_addr c) s (pc_zlog c) (pc_servers c) (pc_optmask c).
Definition pc_set_zlog (c : proxy_config) (s : string) := ProxyConfig (pc_ovsdb c) (pc_fifo c) (pc_router_name c) (pc_max_queries c) (pc_listen_port c) (pc_listen_addr c) (pc_dns_port c) s (pc_servers c) (pc_optmask c).
Definition pc_set_servers (c : proxy_config) (l : list (list Z)) (m : bool) := ProxyConfig (pc_ovsdb c) (pc_fifo c) (pc_router_name c) (pc_max_queries c) (pc_listen_port c) (pc_listen_addr c) (pc_dns_port c) (pc_zlog c) l m.

Definition proxy_directives : list (directive proxy_config) :=
  [READ_STRING "ovsdb_client" (fun c v => pc_set_ovsdb c (set_ovsdb_client (pc_ovsdb c) v));
   READ_STRING "ovsdb_server" (fun c v => pc_set_ovsdb c (set_ovsdb_server (pc_ovsdb c) v));
   READ_STRING "ovsdb_database" (fun c v => pc_set_ovsdb c (set_ovsdb_database (pc_ovsdb c) v));
   READ_INT "ntransacts" to_int (fun c => ntransacts (pc_ovsdb c)) (fun c v => pc_set_ovsdb c (set_ntransacts (pc_ovsdb c) v));
   READ_STRING "client_server_fifo" pc_set_fifo;
   READ_STRING "router_name" pc_set_router;
   READ_STRING "dns_server_port" pc_set_dns_port;
   READ_STRING "proxy_listen_port" pc_set_port;
   READ_STRING "proxy_listen_addr" pc_set_addr;
   READ_INT "max_queries" wrap32 pc_max_queries pc_set_queries;
   READ_STRING "zlog_conf_file" pc_set_zlog].

Section proxy_config.
Context (inet_pton_any : string -> option (list Z))   (* ares_inet_pton for IPv4, then for IPv6 *)
  (gethostbyname : string -> option (list Z)) (alloc : bool) (optarg : option string).

(** The dns_server line.  [dns_server] is a variable of [load_config], which a
    line without a value leaves alone; [None] when gethostbyname() is given
    NULL, the inner one for the jump to [out_err]. *)
Definition add_server (dns_server : string) (cfg : proxy_config) : option (option proxy_config) :=
  if negb alloc then Some None
  else match inet_pton_any dns_server with
       | Some a => Some (Some (pc_set_servers cfg (pc_servers cfg ++ [a]) true))
       | None =>
           host ← optarg;
           match gethostbyname host with
           | Some a => Some (Some (pc_set_servers cfg (pc_servers cfg ++ [a]) true))
           | None => Some None
           end
       end.

Definition proxy_line (buf : list ascii) (st : proxy_config * string) : option (list ascii * option (proxy_config * string)) :=
  let '(cfg, dns_server) := st in
  match read_first proxy_directives (buf_str buf) cfg with
  | Some cfg => Some (buf, Some (cfg, dns_server))
  | None =>
      match scan_string "dns_server" (buf_str buf) with
      | ScanNone => Some (buf, None)
      | r =>
          let dns_server := match r with ScanVal v => v | _ => dns_server end in
          cfg ← add_server dns_server cfg;
          Some (buf, match cfg with Some cfg => Some (cfg, dns_server) | None => None end)
      end
  end.

(** An error frees the servers. *)
Definition proxy_load_config (buf : list ascii) (dns_server : string) (file : option string) (cfg : proxy_config) : option (Z * proxy_config) :=
  '(ret, (cfg, _)) ← config_file proxy_line buf file (cfg, dns_server);
  Some (ret, if ret =? 0 then cfg else pc_set_servers cfg [] (pc_optmask cfg)).
End proxy_config.

(** ** Formats and the lines of a file *)

Lemma scan_literal_app key rest : scan_literal key (key ++ rest) = ScanVal rest.
Proof. induction key as [|a key IH]; [done|]. simpl. by rewrite Ascii.eqb_refl. Qed.

(** The two texts differ before one of them ends. *)
Fixpoint differ (k p : string) : bool :=
  match k, p with String a k, String b p => if Ascii.eqb a b then differ k p else true | _, _ => false end.

Lemma scan_literal_differ k p rest : differ k p = true -> scan_literal k (p ++ rest) = ScanNone.
Proof.
  revert p. induction k as [|a k IH]; intros [|b p] H; try done. simpl in H |- *. destruct (Ascii.eqb a b); [by apply IH|done].
Qed.

Definition quoted (key v : string) : string := (key ++ String SP (String DQ (v ++ String DQ "")))%string.
Definition numbered (key : string) (n : Z) : string := (key ++ String SP (dec n))%string.

Lemma scan_string_ok key v : v <> "" -> count_char DQ v = O -> scan_string key (quoted key v) = ScanVal v.
Proof.
  intros Hv Hq. unfold scan_string, quoted. rewrite scan_literal_app. cbn [scan_bind]. change (skip_space (String SP ?x)) with (skip_space x).
  change (skip_space (String DQ ?x)) with (String DQ x). cbn [scan_literal]. rewrite Ascii.eqb_refl. cbn [scan_bind].
  pose proof (split_first_app DQ v "" Hq) as Hs. destruct (v ++ String DQ "")%string; [by destruct v|]. rewrite Hs. cbn [fst]. by destruct v.
Qed.

Lemma digit_value_dec a : (digit_value a <? 10) = isdigit a /\ (isdigit a = true -> digit_value a = byte_of a - 48).
Proof.
  unfold digit_value. destruct (isdigit a) eqn:E.
  - split; [|done]. unfold isdigit in E. apply andb_true_iff in E as [E1%Z.leb_le E2%Z.leb_le]. lia.
  - split; [|done]. destruct (97 <=? byte_of a) eqn:E1, (byte_of a <=? 102), (65 <=? byte_of a) eqn:E2, (byte_of a <=? 70); cbn [andb]; lia.
Qed.

Lemma digits_in_dec s : forall acc, digits_in 10 acc s = digits acc s.
Proof.
  induction s as [|a s IH]; intros acc; [done|]. cbn [digits_in digits]. destruct (digit_value_dec a) as [-> Hv]. destruct (isdigit a); [|done]. by rewrite IH, Hv.
Qed.

(** The first digit of a number. *)
Lemma dec_first fuel : forall n acc, 0 < n < 10 ^ Z.of_nat fuel -> exists d s, 0 < d < 10 /\ dec_loop fuel n acc = String (digit_of d) s.
Proof.
  induction fuel as [|fuel IH]; intros n acc Hn; [simpl in Hn; lia|]. cbn [dec_loop]. pose proof (Z.mod_pos_bound n 10 ltac:(lia)). pose proof (Z.div_mod n 10 ltac:(lia)).
  destruct (Z.eqb_spec (n / 10) 0) as [E|E].
  - exists (n mod 10), acc. split; [lia|done].
  - apply IH. rewrite Nat2Z.inj_succ, Z.pow_succ_r in Hn by lia. split; [pose proof (Z.div_pos n 10); lia|]. apply Z.div_lt_upper_bound; lia.
Qed.

Lemma digit_facts d : 0 <= d < 10 -> isspace (digit_of d) = false /\ Ascii.eqb (digit_of d) "-" = false /\ Ascii.eqb (digit_of d) "+" = false /\
  isdigit (digit_of d) = true /\ (0 < d -> Ascii.eqb (digit_of d) "0" = false).
Proof.
  intros Hd. pose proof (digit_of_byte d Hd) as Hb.
  assert (forall c : ascii, byte_of c <> 48 + d -> Ascii.eqb (digit_of d) c = false) as Hc by (intros c Hc; apply Ascii.eqb_neq; intros E; apply Hc; rewrite <- E; done).
  split_and!; [|apply Hc; change (byte_of "-") with 45; lia|apply Hc; change (byte_of "+") with 43; lia| |intros H; apply Hc; change (byte_of "0") with 48; lia].
  - unfold isspace. rewrite Hb. apply orb_false_iff. split; [lia|]. apply andb_false_iff. right. lia.
  - unfold isdigit. rewrite Hb. apply andb_true_iff. split; lia.
Qed.

(** What is left to convert when a number that is not 0 is met. *)
Lemma scan_number n : 0 < n < 2 ^ 32 -> exists a s, dec n = String a s /\ skip_space (dec n) = dec n /\ scan_sign (dec n) = (1, dec n) /\
  scan_base (dec n) = (10, dec n) /\ starts_in 10 (dec n) = true /\ digits_in 10 0 (dec n) = n.
Proof.
  intros Hn. unfold dec. destruct (Z.ltb_spec n 0); [lia|]. destruct (dec_first 11 n "") as (d & s & Hd & Hs); [lia|].
  pose proof (digits_dec 11 n "" ltac:(lia)) as Hv. cbn [digits] in Hv. destruct (digit_facts d ltac:(lia)) as (H1 & H2 & H3 & H4 & H5). specialize (H5 ltac:(lia)).
  rewrite Hs in Hv |- *. exists (digit_of d), s. split_and!; [done| | | | |].
  - cbn [skip_space]. by rewrite H1.
  - cbn [scan_sign]. by rewrite H2, H3.
  - cbn [scan_base]. destruct s; [done|]. by rewrite H5.
  - cbn [starts_in]. by rewrite (proj1 (digit_value_dec _)).
  - by rewrite digits_in_dec.
Qed.

Lemma scan_i_dec n : 0 <= n < 2 ^ 31 -> scan_i (String SP (dec n)) = ScanVal n.
Proof.
  intros Hn. unfold scan_i. change (skip_space (String SP ?x)) with (skip_space x). destruct (Z.eq_dec n 0) as [->|Hz]; [done|].
  destruct (scan_number n ltac:(lia)) as (a & s & Ha & H1 & H2 & H3 & H4 & H5). rewrite H1, Ha, <- Ha, H2, H3. cbn [Z.eqb Pos.eqb orb].
  rewrite H4, H5. unfold clamp_long. f_equal. lia.
Qed.

Lemma scan_u_dec n : 0 <= n < 2 ^ 32 -> scan_u (String SP (dec n)) = ScanVal n.
Proof.
  intros Hn. unfold scan_u. change (skip_space (String SP ?x)) with (skip_space x). destruct (Z.eq_dec n 0) as [->|Hz]; [done|].
  destruct (scan_number n ltac:(lia)) as (a & s & Ha & H1 & H2 & H3 & H4 & H5). rewrite H1, Ha, <- Ha, H2, H4, H5. f_equal. rewrite wrap64_small; lia.
Qed.

(** *** Directives *)

Section directives.
Context {C : Type}.

Lemma read_string_ok key (set : C -> string -> C) v cfg : v <> "" -> count_char DQ v = O -> READ_STRING key set (quoted key v) cfg = Some (set cfg v).
Proof. intros Hv Hq. unfold READ_STRING. by rewrite scan_string_ok. Qed.

Lemma read_int_ok key conv (get : C -> Z) (set : C -> Z -> C) n cfg : 0 <= n < 2 ^ 31 -> conv n = n -> get (set cfg n) = n -> set (set cfg n) 1 = set cfg 1 ->
  READ_INT key conv get set (numbered key n) cfg = Some (set cfg (Z.max n 1)).
Proof.
  intros Hn Hc Hg Hs. unfold READ_INT, numbered. rewrite scan_literal_app. cbn [scan_bind]. rewrite scan_i_dec, Hc, Hg by done.
  destruct (Z.eqb_spec n 0) as [->|Hz]; [by rewrite Hs|]. by rewrite Z.max_l by lia.
Qed.

Lemma read_uint_ok key (set : C -> Z -> C) n cfg : 0 <= n < 2 ^ 32 -> READ_UINT key set (numbered key n) cfg = Some (set cfg n).
Proof. intros Hn. unfold READ_UINT, numbered. rewrite scan_literal_app. cbn [scan_bind]. by rewrite scan_u_dec, wrap32_small. Qed.

Lemma read_string_skip key (set : C -> string -> C) p rest cfg : differ key p = true -> READ_STRING key set (p ++ rest)%string cfg = None.
Proof. intros H. unfold READ_STRING, scan_string. by rewrite scan_literal_differ. Qed.
Lemma read_int_skip key conv (get : C -> Z) (set : C -> Z -> C) p rest cfg : differ key p = true -> READ_INT key conv get set (p ++ rest)%string cfg = None.
Proof. intros H. unfold READ_INT. by rewrite scan_literal_differ. Qed.
Lemma read_uint_skip key (set : C -> Z -> C) p rest cfg : differ key p = true -> READ_UINT key set (p ++ rest)%string cfg = None.
Proof. intros H. unfold READ_UINT. by rewrite scan_literal_differ. Qed.
End directives.

(** Tries the formats of a line in turn. *)
Ltac read_line :=
  cbn [read_first]; unfold numbered, quoted;
  repeat first [rewrite read_string_skip by reflexivity | rewrite read_int_skip by reflexivity | rewrite read_uint_skip by reflexivity];
  repeat match goal with
  | |- context [(?k ++ String SP (String DQ (?v ++ String DQ "")))%string] => change (k ++ String SP (String DQ (v ++ String DQ "")))%string with (quoted k v)
  | |- context [(?k ++ String SP (dec ?n))%string] => change (k ++ String SP (dec n))%string with (numbered k n)
  end.

(** *** Files *)

Lemma zap_id c l rest : Forall (fun a => a <> NUL /\ a <> c) l -> zap c (l ++ NUL :: rest) = l ++ NUL :: rest.
Proof.
  induction 1 as [|a l [H1 H2] _ IH]; [done|]. cbn [app zap]. apply Ascii.eqb_neq in H1, H2. by rewrite H1, H2, IH.
Qed.

Lemma zap_cut c l rest : Forall (fun a => a <> NUL /\ a <> c) l -> c <> NUL -> zap c (l ++ c :: rest) = l ++ NUL :: rest.
Proof.
  intros H Hc. induction H as [|a l [H1 H2] _ IH]; cbn [app zap].
  - apply Ascii.eqb_neq in Hc. by rewrite Hc, Ascii.eqb_refl.
  - apply Ascii.eqb_neq in H1, H2. by rewrite H1, H2, IH.
Qed.

Lemma chars_list (P : ascii -> bool) s : chars_in P s = true -> Forall (fun a => P a = true) (String.list_ascii_of_string s).
Proof. induction s as [|a s IH]; [constructor|]. intros [Ha Hs]%andb_true_iff. constructor; [done|by apply IH]. Qed.

Lemma buf_str_chars s rest : count_char NUL s = O -> buf_str (String.list_ascii_of_string s ++ NUL :: rest) = s.
Proof.
  unfold buf_str. induction s as [|a s IH]; [done|]. cbn [count_char String.list_ascii_of_string app String.string_of_list_ascii cut_at].
  destruct (Ascii.eqb a NUL); [done|]. intros H. by rewrite IH.
Qed.

(** The array after a line has been read into it and stripped. *)
Lemma read_line_buf buf s : chars_in line_char s = true ->
  exists rest, zap CR (zap LF (store_line buf (s ++ String LF ""))) = String.list_ascii_of_string s ++ NUL :: rest.
Proof.
  intros Hs. apply chars_list in Hs. unfold store_line. rewrite list_ascii_app. cbn [String.list_ascii_of_string]. rewrite <- app_assoc. cbn [app].
  rewrite zap_cut, zap_id; [by eexists| | |done]; (eapply Forall_impl; [exact Hs|]; intros a Ha; unfold line_char in Ha;
    rewrite negb_true_iff, !orb_false_iff in Ha; destruct Ha as [[H1 H2] H3]; split; by apply Ascii.eqb_neq).
Qed.

Section settings.
Context {C S : Type} (line : list ascii -> C -> option (list ascii * option C)) (text : S -> string) (apply : C -> S -> C) (ok : S -> Prop).

(** The file with a line for each setting. *)
Definition print_settings (l : list S) : string := foldr (fun i s => (text i ++ String LF s)%string) "" l.

Hypothesis ok_text : forall s, ok s -> chars_in line_char (text s) = true /\ (String.length (text s) < 127)%nat.
Hypothesis ok_line : forall s cfg rest, ok s ->
  exists buf, line (String.list_ascii_of_string (text s) ++ NUL :: rest) cfg = Some (buf, Some (apply cfg s)).

Lemma config_loop_ok l : forall fuel buf cfg, Forall ok l -> (length l <= fuel)%nat ->
  config_loop line fuel buf (print_settings l) cfg = Some (0, foldl apply cfg l).
Proof.
  induction l as [|s l IH]; intros fuel buf cfg Hl Hf; [by destruct fuel|]. apply Forall_cons in Hl as [Hs Hl]. cbn [length] in Hf.
  destruct fuel as [|fuel]; [lia|]. destruct (ok_text s Hs) as [Hc Hlen]. cbn [print_settings foldr]. fold (print_settings l).
  assert (exists a t, (text s ++ String LF (print_settings l))%string = String a t) as (a & t & Ht) by (destruct (text s); by eexists _, _).
  rewrite Ht. cbn [config_loop]. rewrite <- Ht, fgets_line by done.
  destruct (read_line_buf buf (text s) Hc) as (rest & ->). destruct (ok_line s cfg rest Hs) as (buf' & ->). cbn [mbind option_bind]. apply IH; [done|lia].
Qed.

Lemma print_settings_length l : (length l <= String.length (print_settings l))%nat.
Proof.
  induction l as [|s l IH]; [done|]. cbn [print_settings foldr length]. fold (print_settings l). induction (text s) as [|a t IHt]; simpl; lia.
Qed.

Lemma config_file_ok l buf cfg : Forall ok l -> config_file line buf (Some (print_settings l)) cfg = Some (0, foldl apply cfg l).
Proof. intros Hl. apply config_loop_ok; [done|apply print_settings_length]. Qed.
End settings.

(** *** Settings of the controller *)

Inductive ctrl_setting :=
| CsClient (v : string) | CsServer (v : string) | CsDatabase (v : string) | CsZlog (v : string) | CsTransacts (n : Z)
| CsRules (v : string) | CsWorkers (n : Z) | CsBuffer (n : Z) | CsProviders (ps : list provider).

(** name addr/len via router *)
Definition provider_text (p : provider) : string :=
  (pv_name p ++ String SP (pv_addr p ++ String "/" (dec (pv_prefix_len p) ++ String SP ("via" ++ String SP (pv_router p)))))%string.
Definition providers_text (ps : list provider) : string := ("providers" ++ String SP (join_with SP (map provider_text ps)))%string.

Definition ctrl_text (s : ctrl_setting) : string :=
  match s with
  | CsClient v => quoted "ovsdb_client" v
  | CsServer v => quoted "ovsdb_server" v
  | CsDatabase v => quoted "ovsdb_database" v
  | CsZlog v => quoted "zlog_conf_file" v
  | CsTransacts n => numbered "ntransacts" n
  | CsRules v => quoted "rules_file" v
  | CsWorkers n => numbered "worker_threads" n
  | CsBuffer n => numbered "req_buffer_size" n
  | CsProviders ps => providers_text ps
  end.

(** What the setting means; no priority is read, [junk] is what the memory of
    the providers held. *)
Definition ctrl_apply (junk : nat -> Z) (c : ctrl_config) (s : ctrl_setting) : ctrl_config :=
  match s with
  | CsClient v => cc_set_ovsdb c (set_ovsdb_client (cc_ovsdb c) v)
  | CsServer v => cc_set_ovsdb c (set_ovsdb_server (cc_ovsdb c) v)
  | CsDatabase v => cc_set_ovsdb c (set_ovsdb_database (cc_ovsdb c) v)
  | CsZlog v => cc_set_zlog c v
  | CsTransacts n => cc_set_ovsdb c (set_ntransacts (cc_ovsdb c) (Z.max n 1))
  | CsRules v => cc_set_rules c v
  | CsWorkers n => cc_set_workers c (Z.max n 1)
  | CsBuffer n => cc_set_buffer c (Z.max n 1)
  | CsProviders ps => cc_set_providers c (imap (fun i p => Provider (pv_router p) (pv_name p) (pv_addr p) (pv_prefix_len p) (junk i)) ps)
  end.

(** A text in quotes, a number, and a field of a provider. *)
Definition value_ok (v : string) : Prop := v <> "" /\ count_char DQ v = O /\ chars_in line_char v = true.
Definition number_ok (n : Z) : Prop := 0 <= n < 2 ^ 31.
Definition field_char (a : ascii) : bool := line_char a && negb (Ascii.eqb a SP) && negb (Ascii.eqb a "/").
Definition provider_ok (p : provider) : Prop :=
  chars_in field_char (pv_name p) = true /\ chars_in field_char (pv_addr p) = true /\ chars_in field_char (pv_router p) = true /\ 0 <= pv_prefix_len p < 128.

Definition ctrl_ok (s : ctrl_setting) : Prop :=
  (String.length (ctrl_text s) < 127)%nat /\
  match s with
  | CsClient v | CsServer v | CsDatabase v | CsZlog v | CsRules v => value_ok v
  | CsTransacts n | CsWorkers n | CsBuffer n => number_ok n
  | CsProviders ps => Forall provider_ok ps /\ (1 <= length ps <= 3)%nat
  end.

Lemma quoted_chars key v : chars_in line_char key = true -> value_ok v -> chars_in line_char (quoted key v) = true.
Proof. intros Hk (_ & _ & Hv). unfold quoted. rewrite chars_in_app, Hk. cbn [chars_in]. by rewrite chars_in_app, Hv. Qed.

Lemma field_line s : chars_in field_char s = true -> chars_in line_char s = true.
Proof. apply chars_in_mono. intros a. unfold field_char. by intros [[H _]%andb_true_iff _]%andb_true_iff. Qed.

Lemma dec_field n : 0 <= n -> chars_in field_char (dec n) = true.
Proof.
  intros Hn. unfold dec. destruct (Z.ltb_spec n 0); [lia|]. apply dec_loop_chars; [done| |done].
  intros d Hd. assert (d ∈ seqZ 0 10) as Hin by (apply elem_of_seqZ; lia).
  assert (forallb (fun d => field_char (digit_of d)) (seqZ 0 10) = true) as Hall by (by vm_compute).
  rewrite forallb_forall in Hall. by apply Hall, list_elem_of_In.
Qed.

Lemma numbered_chars key n : chars_in line_char key = true -> 0 <= n -> chars_in line_char (numbered key n) = true.
Proof. intros Hk Hn. unfold numbered. rewrite chars_in_app, Hk. cbn [chars_in]. by rewrite field_line by (by apply dec_field). Qed.

(** A line of fields: every field with the character behind it, the last one
    with the end of the string. *)
Definition weave (l : list (string * ascii)) : list ascii := flat_map (fun f => String.list_ascii_of_string f.1 ++ [f.2]) l.
Definition cut (l : list (string * ascii)) : list ascii := weave (map (fun f => (f.1, NUL)) l).

Definition sep (a : ascii) : Prop := a = SP \/ a = "/"%char.

Lemma cut_field s n rest rest' : chars_in field_char s = true -> cut_fields rest = (n, rest') ->
  cut_fields (String.list_ascii_of_string s ++ rest) = (n, String.list_ascii_of_string s ++ rest').
Proof.
  intros Hs Hr. apply chars_list in Hs. induction Hs as [|a l Ha _ IH]; [done|]. cbn [app cut_fields]. rewrite IH.
  unfold field_char, line_char in Ha. rewrite !andb_true_iff, !negb_true_iff, !orb_false_iff in Ha. destruct Ha as [[[[-> _] _] ->] ->]. done.
Qed.

Lemma cut_fields_weave l s rest : Forall (fun f => chars_in field_char f.1 = true /\ sep f.2) l -> chars_in field_char s = true ->
  cut_fields (weave (l ++ [(s, NUL)]) ++ rest) = (length l, cut (l ++ [(s, NUL)]) ++ rest).
Proof.
  intros Hl Hs. unfold cut, weave. induction Hl as [|[t c] l [Ht Hc] _ IH]; cbn [app flat_map map fst snd length].
  - rewrite app_nil_r, <- !app_assoc. by apply cut_field.
  - rewrite <- !app_assoc. apply cut_field; [done|]. cbn [app cut_fields]. unfold weave in IH. rewrite IH. cbn [snd] in Hc. by destruct Hc as [-> | ->].
Qed.

Lemma next_field_cut s rest : chars_in field_char s = true -> next_field (String.list_ascii_of_string s ++ NUL :: rest) = Some (s, rest).
Proof.
  induction s as [|a s IH]; [done|]. intros [Ha Hs]%andb_true_iff. cbn [String.list_ascii_of_string app next_field].
  unfold field_char, line_char in Ha. rewrite !andb_true_iff, !negb_true_iff, !orb_false_iff in Ha. destruct Ha as [[[[-> _] _] _] _]. by rewrite IH.
Qed.

(** The fields of the providers; [c] is behind the last. *)
Fixpoint provider_fields (ps : list provider) (c : ascii) : list (string * ascii) :=
  match ps with
  | [] => []
  | p :: ps =>
      [(pv_name p, SP); (pv_addr p, "/"%char); (dec (pv_prefix_len p), SP); ("via", SP); (pv_router p, match ps with [] => c | _ => SP end)] ++ provider_fields ps c
  end.

Lemma provider_weave ps c : ps <> [] -> weave (provider_fields ps c) = String.list_ascii_of_string (join_with SP (map provider_text ps)) ++ [c].
Proof.
  induction ps as [|p ps IH]; [done|]. intros _. cbn [provider_fields map]. unfold weave in *. rewrite flat_map_app. cbn [flat_map fst snd].
  destruct ps as [|q ps].
  - cbn [provider_fields flat_map map join_with]. unfold provider_text. rewrite !app_nil_r.
    repeat (rewrite list_ascii_app; cbn [String.list_ascii_of_string]). repeat (rewrite <- !app_assoc; cbn [app]). done.
  - rewrite IH by done. change (join_with SP (provider_text p :: map provider_text (q :: ps))) with (provider_text p ++ String SP (join_with SP (map provider_text (q :: ps))))%string.
    generalize (join_with SP (map provider_text (q :: ps))). intros t. unfold provider_text. rewrite !app_nil_r.
    repeat (rewrite list_ascii_app; cbn [String.list_ascii_of_string]). repeat (rewrite <- !app_assoc; cbn [app]). done.
Qed.

Lemma cut_cons s c l : cut ((s, c) :: l) = String.list_ascii_of_string s ++ NUL :: cut l.
Proof. unfold cut, weave. cbn [map flat_map fst snd]. by rewrite <- app_assoc. Qed.

Lemma strtol_prefix n : 0 <= n < 128 -> to_char (strtol (dec n)) = n.
Proof.
  intros Hn. assert (n ∈ seqZ 0 128) as Hin by (apply elem_of_seqZ; lia).
  assert (forallb (fun n => to_char (strtol (dec n)) =? n) (seqZ 0 128) = true) as Hall by (by vm_compute).
  rewrite forallb_forall in Hall. apply Z.eqb_eq, Hall, list_elem_of_In. done.
Qed.

Lemma read_providers_ok junk ps c : forall i rest, Forall provider_ok ps ->
  read_providers junk (length ps) i (cut (provider_fields ps c) ++ rest) =
    Some (imap (fun k p => Provider (pv_router p) (pv_name p) (pv_addr p) (pv_prefix_len p) (junk (i + k)%nat)) ps).
Proof.
  induction ps as [|p ps IH]; intros i rest Hps; [done|]. apply Forall_cons in Hps as [(H1 & H2 & H3 & H4) Hps].
  cbn [length read_providers provider_fields app]. rewrite !cut_cons. unfold read_provider.
  repeat (rewrite <- app_assoc; cbn [app]; rewrite next_field_cut by (done || apply dec_field; lia); cbn [mbind option_bind]).
  rewrite IH by done. cbn [mbind option_bind imap]. rewrite strtol_prefix, Nat.add_0_r by done. do 2 f_equal. apply imap_ext. intros k q _. simpl. by rewrite Nat.add_succ_r.
Qed.

Lemma provider_fields_ok ps c : Forall provider_ok ps ->
  Forall (fun f => chars_in field_char f.1 = true) (provider_fields ps c) /\ length (provider_fields ps c) = (5 * length ps)%nat.
Proof.
  induction 1 as [|p ps (H1 & H2 & H3 & H4) _ [IH1 IH2]]; [done|]. split; [|cbn [provider_fields app length]; lia].
  cbn [provider_fields app]. repeat (constructor; [first [done|apply dec_field; lia]|]). done.
Qed.

(** All fields but the last are followed by a separator. *)
Lemma provider_fields_last ps : ps <> [] -> exists l s, provider_fields ps NUL = l ++ [(s, NUL)] /\ Forall (fun f => sep f.2) l.
Proof.
  induction ps as [|p ps IH]; [done|]. intros _. destruct ps as [|q ps].
  - eexists [_; _; _; _], _. split; [reflexivity|]. repeat (constructor; [first [by left|by right]|]). constructor.
  - destruct (IH ltac:(done)) as (l & s & Hl & Hs). eexists (_ :: _ :: _ :: _ :: _ :: l), s. split; [cbn [provider_fields app] in Hl |- *; by rewrite Hl|].
    repeat (constructor; [first [by left|by right]|]). done.
Qed.

(** What the loop over the line makes of the providers. *)
Lemma cut_providers ps rest : ps <> [] -> Forall provider_ok ps ->
  cut_fields (String.list_ascii_of_string (providers_text ps) ++ NUL :: rest) =
    ((5 * length ps)%nat, String.list_ascii_of_string "providers" ++ NUL :: cut (provider_fields ps NUL) ++ rest).
Proof.
  intros Hne Hok. destruct (provider_fields_ok ps NUL Hok) as [Hf Hlen]. destruct (provider_fields_last ps Hne) as (l & s & Hl & Hs).
  assert (String.list_ascii_of_string (providers_text ps) ++ NUL :: rest = weave ((("providers", SP) :: l) ++ [(s, NUL)]) ++ rest) as ->.
  { unfold providers_text. rewrite list_ascii_app. change (weave (("providers", SP) :: l ++ [(s, NUL)])) with ((String.list_ascii_of_string "providers" ++ [SP]) ++ weave (l ++ [(s, NUL)])).
    change ((("providers", SP) :: l) ++ [(s, NUL)]) with (("providers", SP) :: l ++ [(s, NUL)]). change (weave (("providers", SP) :: ?x)) with ((String.list_ascii_of_string "providers" ++ [SP]) ++ weave x).
    rewrite <- Hl, provider_weave by done. cbn [String.list_ascii_of_string]. by rewrite <- !app_assoc. }
  rewrite Hl in Hf, Hlen. apply Forall_app in Hf as [Hf1 Hf2]. apply Forall_cons in Hf2 as [Hf2 _]. rewrite length_app in Hlen. cbn [length] in Hlen.
  rewrite cut_fields_weave; [|constructor; [split; [done|by left]|]|done].
  - cbn [length app]. rewrite cut_cons, <- Hl, <- app_assoc. cbn [app]. f_equal. lia.
  - apply Forall_and. done.
Qed.

Lemma provider_text_chars p : provider_ok p -> chars_in line_char (provider_text p) = true.
Proof.
  intros (H1 & H2 & H3 & H4). unfold provider_text. repeat (rewrite chars_in_app; cbn [chars_in]). rewrite !field_line by (done || (apply dec_field; lia)). done.
Qed.

Lemma providers_chars ps : Forall provider_ok ps -> chars_in line_char (providers_text ps) = true.
Proof.
  intros Hps. unfold providers_text. rewrite chars_in_app. cbn [chars_in]. apply andb_true_iff. split; [done|]. apply andb_true_iff. split; [done|].
  apply join_chars; [done|]. apply Forall_map. eapply Forall_impl; [exact Hps|]. apply provider_text_chars.
Qed.

Lemma ctrl_text_chars s : ctrl_ok s -> chars_in line_char (ctrl_text s) = true.
Proof.
  intros [_ H]. destruct s as [v|v|v|v|n|v|n|n|ps]; cbn [ctrl_text]; try (by apply quoted_chars); try (apply numbered_chars; [done|by destruct H]).
  apply providers_chars, H.
Qed.

Lemma read_providers_line junk ps rest : ps <> [] -> Forall provider_ok ps -> (length ps <= 3)%nat ->
  let '(i, buf) := cut_fields (String.list_ascii_of_string (providers_text ps) ++ NUL :: rest) in
  read_providers junk (i / 4) 0 (drop 10 buf) = Some (imap (fun k p => Provider (pv_router p) (pv_name p) (pv_addr p) (pv_prefix_len p) (junk k)) ps).
Proof.
  intros Hne Hok Hlen. rewrite cut_providers by done. replace (5 * length ps / 4)%nat with (length ps); [by apply (read_providers_ok junk ps NUL 0)|].
  destruct ps as [|? [|? [|? [|? ?]]]]; cbn [length] in *; try done; lia.
Qed.

Lemma to_int_small n : 0 <= n < 2 ^ 31 -> to_int n = n.
Proof. intros H. apply to_int_id. lia. Qed.

(** A line that one of the directives takes. *)
Ltac take_directive H :=
  first [destruct H as (? & ? & _); read_line; rewrite read_string_ok by done; by eexists
        |read_line; rewrite read_uint_ok by done; by eexists
        |read_line; rewrite read_int_ok; [by eexists|exact H|first [apply wrap32_small; destruct H; lia|by apply to_int_small]|done|done]].

Lemma ctrl_line_ok junk s cfg rest : ctrl_ok s ->
  exists buf, ctrl_line junk (String.list_ascii_of_string (ctrl_text s) ++ NUL :: rest) cfg = Some (buf, Some (ctrl_apply junk cfg s)).
Proof.
  intros Hs. unfold ctrl_line. rewrite buf_str_chars by (apply (chars_count line_char); [done|by apply ctrl_text_chars]). destruct Hs as [_ Hs].
  destruct s as [v|v|v|v|n|v|n|n|ps]; cbn [ctrl_text ctrl_apply]; unfold ctrl_directives;
    first [take_directive Hs|idtac].
  destruct Hs as [Hok Hlen]. unfold providers_text at 1. read_line. assert (is_providers (providers_text ps) = true) as -> by reflexivity.
  pose proof (read_providers_line junk ps rest ltac:(intros ->; simpl in Hlen; lia) Hok ltac:(lia)) as Hr. destruct (cut_fields _) as [i buf]. rewrite Hr. by eexists.
Qed.

(** *** Settings of the route daemon

    In the forms its [load_config] reads; localsid is a number. *)

Inductive routed_setting :=
| RsClient (v : string) | RsServer (v : string) | RsDatabase (v : string) | RsRouter (v : string) | RsTransacts (n : Z)
| RsLocalsid (n : Z) | RsIface (v : string) | RsZlog (v : string).

Definition routed_text (s : routed_setting) : string :=
  match s with
  | RsClient v => quoted "ovsdb_client" v
  | RsServer v => quoted "ovsdb_server" v
  | RsDatabase v => quoted "ovsdb_database" v
  | RsRouter v => quoted "router_name" v
  | RsTransacts n => numbered "ntransacts" n
  | RsLocalsid n => numbered "localsid" n
  | RsIface v => quoted "ingress_iface" v
  | RsZlog v => quoted "zlog_conf_file" v
  end.

Definition routed_apply (c : routed_config) (s : routed_setting) : routed_config :=
  match s with
  | RsClient v => rc_set_ovsdb c (set_ovsdb_client (rc_ovsdb c) v)
  | RsServer v => rc_set_ovsdb c (set_ovsdb_server (rc_ovsdb c) v)
  | RsDatabase v => rc_set_ovsdb c (set_ovsdb_database (rc_ovsdb c) v)
  | RsRouter v => rc_set_router c v
  | RsTransacts n => rc_set_ovsdb c (set_ntransacts (rc_ovsdb c) (Z.max n 1))
  | RsLocalsid n => rc_set_localsid c n
  | RsIface v => rc_set_iface c v
  | RsZlog v => rc_set_zlog c v
  end.

Definition routed_ok (s : routed_setting) : Prop :=
  (String.length (routed_text s) < 127)%nat /\
  match s with
  | RsClient v | RsServer v | RsDatabase v | RsRouter v | RsIface v | RsZlog v => value_ok v
  | RsTransacts n => number_ok n
  | RsLocalsid n => 0 <= n < 2 ^ 32
  end.

Lemma routed_text_chars s : routed_ok s -> chars_in line_char (routed_text s) = true.
Proof. intros [_ H]. destruct s; cbn [routed_text]; first [by apply quoted_chars|apply numbered_chars; [done|by destruct H]]. Qed.

Lemma routed_line_ok s cfg rest : routed_ok s ->
  exists buf, routed_line (String.list_ascii_of_string (routed_text s) ++ NUL :: rest) cfg = Some (buf, Some (routed_apply cfg s)).
Proof.
  intros Hs. unfold routed_line. rewrite buf_str_chars by (apply (chars_count line_char); [done|by apply routed_text_chars]). destruct Hs as [_ Hs].
  destruct s; cbn [routed_text routed_apply]; unfold routed_directives; take_directive Hs.
Qed.

(** *** Settings of the DNS proxy *)

Inductive proxy_setting :=
| PsClient (v : string) | PsOvsdb (v : string) | PsDatabase (v : string) | PsTransacts (n : Z) | PsFifo (v : string) | PsRouter (v : string)
| PsDnsPort (v : string) | PsPort (v : string) | PsAddr (v : string) | PsQueries (n : Z) | PsZlog (v : string) | PsServer (v : string) (a : list Z).

Definition proxy_text (s : proxy_setting) : string :=
  match s with
  | PsClient v => quoted "ovsdb_client" v
  | PsOvsdb v => quoted "ovsdb_server" v
  | PsDatabase v => quoted "ovsdb_database" v
  | PsTransacts n => numbered "ntransacts" n
  | PsFifo v => quoted "client_server_fifo" v
  | PsRouter v => quoted "router_name" v
  | PsDnsPort v => quoted "dns_server_port" v
  | PsPort v => quoted "proxy_listen_port" v
  | PsAddr v => quoted "proxy_listen_addr" v
  | PsQueries n => numbered "max_queries" n
  | PsZlog v => quoted "zlog_conf_file" v
  | PsServer v _ => quoted "dns_server" v
  end.

Definition proxy_apply (c : proxy_config) (s : proxy_setting) : proxy_config :=
  match s with
  | PsClient v => pc_set_ovsdb c (set_ovsdb_client (pc_ovsdb c) v)
  | PsOvsdb v => pc_set_ovsdb c (set_ovsdb_server (pc_ovsdb c) v)
  | PsDatabase v => pc_set_ovsdb c (set_ovsdb_database (pc_ovsdb c) v)
  | PsTransacts n => pc_set_ovsdb c (set_ntransacts (pc_ovsdb c) (Z.max n 1))
  | PsFifo v => pc_set_fifo c v
  | PsRouter v => pc_set_router c v
  | PsDnsPort v => pc_set_dns_port c v
  | PsPort v => pc_set_port c v
  | PsAddr v => pc_set_addr c v
  | PsQueries n => pc_set_queries c (Z.max n 1)
  | PsZlog v => pc_set_zlog c v
  | PsServer _ a => pc_set_servers c (pc_servers c ++ [a]) true
  end.

(** A server is given by its address [a]. *)
Definition proxy_ok (inet_pton_any : string -> option (list Z)) (s : proxy_setting) : Prop :=
  (String.length (proxy_text s) < 127)%nat /\
  match s with
  | PsClient v | PsOvsdb v | PsDatabase v | PsFifo v | PsRouter v | PsDnsPort v | PsPort v | PsAddr v | PsZlog v => value_ok v
  | PsTransacts n | PsQueries n => number_ok n
  | PsServer v a => value_ok v /\ inet_pton_any v = Some a
  end.

Lemma proxy_text_chars pton s : proxy_ok pton s -> chars_in line_char (proxy_text s) = true.
Proof. intros [_ H]. destruct s; cbn [proxy_text]; first [by apply quoted_chars|apply numbered_chars; [done|by destruct H]|apply quoted_chars; [done|apply H]]. Qed.

(** The value of the variable [dns_server]. *)
Definition last_server (d : string) (s : proxy_setting) : string := match s with PsServer v _ => v | _ => d end.

Lemma proxy_line_ok pton ghbn optarg s cfg d rest : proxy_ok pton s ->
  exists buf, proxy_line pton ghbn true optarg (String.list_ascii_of_string (proxy_text s) ++ NUL :: rest) (cfg, d) =
    Some (buf, Some (proxy_apply cfg s, last_server d s)).
Proof.
  intros Hs. unfold proxy_line. rewrite buf_str_chars by (apply (chars_count line_char); [done|by eapply proxy_text_chars]). destruct Hs as [_ Hs].
  destruct s; cbn [proxy_text proxy_apply last_server]; unfold proxy_directives; first [take_directive Hs|idtac].
  destruct Hs as [(Hv & Hq & _) Ha]. unfold quoted at 1. change ("dns_server" ++ String SP ?x)%string with ("dns_server " ++ x)%string. read_line.
  rewrite scan_string_ok by done. unfold add_server. cbn [negb]. rewrite Ha. by eexists.
Qed.

(** ** Theorems *)

(** C35. A configuration file with any sequence of the settings that a daemon's
    [load_config] has a directive for, one per line and each in the form its
    directive reads (texts in quotes; numbers, the route daemon's localsid
    among them, with at least 1; up to three providers; DNS servers by their
    address), is read to the defaults with these settings made in order, by
    each of the three daemons.  (The route daemon's README gives two lines in
    other forms, which are rejected: [routed_readme_rejected].) *)
Theorem load_config_settings (junk : nat -> Z) (buf : list ascii) (lc : list ctrl_setting) (lr : list routed_setting)
    (inet_pton_any gethostbyname : string -> option (list Z)) (optarg : option string) (dns_server : string) (lp : list proxy_setting) :
  Forall ctrl_ok lc -> Forall routed_ok lr -> Forall (proxy_ok inet_pton_any) lp ->
  ctrl_load_config junk buf (Some (print_settings ctrl_text lc)) ctrl_defaults = Some (0, foldl (ctrl_apply junk) ctrl_defaults lc) /\
  routed_load_config buf (Some (print_settings routed_text lr)) routed_defaults = Some (0, foldl routed_apply routed_defaults lr) /\
  proxy_load_config inet_pton_any gethostbyname true optarg buf dns_server (Some (print_settings proxy_text lp)) proxy_defaults =
    Some (0, foldl proxy_apply proxy_defaults lp).
Proof.
  intros Hc Hr Hp. split_and!.
  - apply (config_file_ok _ ctrl_text (ctrl_apply junk) ctrl_ok); [|intros; by apply ctrl_line_ok|done]. intros s Hs. split; [by apply ctrl_text_chars|apply Hs].
  - apply (config_file_ok _ routed_text routed_apply routed_ok); [|intros; by apply routed_line_ok|done]. intros s Hs. split; [by apply routed_text_chars|apply Hs].
  - unfold proxy_load_config.
    rewrite (config_file_ok _ proxy_text (fun st s => (proxy_apply st.1 s, last_server st.2 s)) (proxy_ok inet_pton_any)); [| | |done].
    + cbn [mbind option_bind]. assert (forall l c d, (foldl (fun st s => (proxy_apply st.1 s, last_server st.2 s)) (c, d) l).1 = foldl proxy_apply c l) as H.
      { induction l as [|s l IH]; intros c d; [done|]. apply IH. }
      specialize (H lp proxy_defaults dns_server). destruct (foldl _ (_, _) _) as [c d]. cbn [fst] in H. by subst.
    + intros s Hs. split; [by eapply proxy_text_chars|apply Hs].
    + intros s [c d] rest Hs. by apply proxy_line_ok.
Qed.

(** The configuration shown in the route daemon's README. *)
Definition readme_head : list routed_setting :=
  [RsClient "ovsdb-client"; RsServer "tcp:[::1]:6640"; RsDatabase "SR_test"; RsRouter "RouterA"].
Definition readme_localsid : string := quoted "localsid" "RouterA.localsid".
Definition readme_fifo : string := quoted "client_server_fifo" "client_server.fifo".
Definition readme_routed : list string :=
  map routed_text readme_head ++
  [readme_localsid; quoted "ingress_iface" "RouterA-eth0"; numbered "ntransacts" 1; readme_fifo; quoted "zlog_conf_file" "output.log"].

(** The route daemon reads localsid as a number and knows no
    client_server_fifo: it rejects both lines, and the whole file at the
    first of them. *)
Theorem routed_readme_rejected :
  routed_load_config [] (Some (print_settings id readme_routed)) routed_defaults = Some (-1, foldl routed_apply routed_defaults readme_head) /\
  routed_load_config [] (Some (print_settings id [readme_localsid])) routed_defaults = Some (-1, routed_defaults) /\
  routed_load_config [] (Some (print_settings id [readme_fifo])) routed_defaults = Some (-1, routed_defaults).
Proof. split_and!; vm_compute; reflexivity. Qed.

Lemma read_providers_length junk n : forall i ptr ps, read_providers junk n i ptr = Some ps -> length ps = n.
Proof.
  induction n as [|n IH]; intros i ptr ps H; cbn [read_providers] in H; [by simplify_eq|].
  destruct (read_provider _ _) as [[p ptr']|]; [|done]. cbn [mbind option_bind] in H. destruct (read_providers _ n _ _) as [ps'|] eqn:E; [|done].
  cbn [mbind option_bind] in H. simplify_eq. cbn [length]. f_equal. by eapply IH.
Qed.

(** The number of providers is computed from all separators of the line, of
    which there are five per provider, divided by four: from four providers
    on, a line that is accepted gives more providers than it has, and the
    others are read from behind the end of the line. *)
Theorem providers_overcounted (junk : nat -> Z) (ps : list provider) (rest buf : list ascii) (cfg cfg' : ctrl_config) :
  Forall provider_ok ps -> (4 <= length ps)%nat ->
  ctrl_line junk (String.list_ascii_of_string (providers_text ps) ++ NUL :: rest) cfg = Some (buf, Some cfg') ->
  (length ps < length (cc_providers cfg'))%nat.
Proof.
  intros Hok Hlen. pose proof (providers_chars ps Hok) as Hc.
  unfold ctrl_line. rewrite buf_str_chars by (by apply (chars_count line_char)). unfold providers_text at 1. unfold ctrl_directives. read_line.
  assert (is_providers (providers_text ps) = true) as -> by reflexivity. rewrite cut_providers by (done || (intros ->; simpl in Hlen; lia)).
  destruct (read_providers _ _ _ _) as [l|] eqn:E; [|done]. cbn [mbind option_bind]. intros [= _ <-]. cbn [cc_set_providers cc_providers].
  rewrite (read_providers_length _ _ _ _ _ E). apply Nat.div_le_lower_bound; lia.
Qed.

(** Lines without effect: the empty line and everything that a key, or a key
    and its quote, starts with. *)
Lemma scan_literal_prefix key s rest : key = (s ++ rest)%string -> rest <> "" -> scan_literal key s = ScanEof.
Proof.
  intros -> Hr. induction s as [|a s IH]; [by destruct rest|]. simpl. rewrite Ascii.eqb_refl. exact IH.
Qed.

Lemma prefix_accepted junk buf s rest cfg : buf_str buf = s -> "ovsdb_client" = (s ++ rest)%string -> rest <> "" ->
  ctrl_line junk buf cfg = Some (buf, Some cfg).
Proof.
  intros Hs Hk Hr. unfold ctrl_line, ctrl_directives. rewrite Hs. cbn [read_first]. unfold READ_STRING at 1, scan_string. by rewrite (scan_literal_prefix _ s rest).
Qed.

(** ** Files *)

Definition demo_ctrl : list ctrl_setting :=
  [CsServer "tcp:[::1]:6640"; CsRules "rules.conf"; CsWorkers 4; CsBuffer 0; CsTransacts 2; CsZlog "output.log";
   CsProviders [Provider "A" "isp1" "2001:db8::" 32 0; Provider "B" "isp2" "2001:db9::" 48 0]].
Definition demo_routed : list routed_setting := [RsRouter "A"; RsLocalsid 100; RsIface "eth1"].
Definition demo_proxy : list proxy_setting := [PsRouter "A"; PsQueries 500; PsDnsPort "2000"; PsServer "::1" [1]; PsPort "53"].

Lemma load_config_settings_witness :
  ctrl_load_config (fun _ => 7) [] (Some (print_settings ctrl_text demo_ctrl)) ctrl_defaults = Some (0, foldl (ctrl_apply (fun _ => 7)) ctrl_defaults demo_ctrl) /\
  routed_load_config [] (Some (print_settings routed_text demo_routed)) routed_defaults = Some (0, foldl routed_apply routed_defaults demo_routed) /\
  proxy_load_config (fun _ => Some [1]) (fun _ => None) true None [] "" (Some (print_settings proxy_text demo_proxy)) proxy_defaults =
    Some (0, foldl proxy_apply proxy_defaults demo_proxy).
Proof.
  apply (load_config_settings (fun _ => 7) [] demo_ctrl demo_routed (fun _ => Some [1]) (fun _ => None) None "" demo_proxy);
    unfold demo_ctrl, demo_routed, demo_proxy, ctrl_ok, routed_ok, proxy_ok, value_ok, number_ok, provider_ok;
    repeat first [apply Forall_cons_2|apply Forall_nil_2|apply conj]; vm_compute; first [done|lia].
Defined.

Definition four_providers : list provider := [Provider "A" "a" "1::" 32 0; Provider "B" "b" "2::" 32 0; Provider "C" "c" "3::" 32 0; Provider "D" "d" "4::" 32 0].

Lemma providers_overcounted_witness :
  let cfg := cc_set_providers ctrl_defaults (map (fun p => Provider (pv_router p) (pv_name p) (pv_addr p) (pv_prefix_len p) 7) four_providers ++ [Provider "" "" "" 0 7]) in
  (length four_providers < length (cc_providers cfg))%nat.
Proof.
  intros cfg. apply (providers_overcounted (fun _ => 7) four_providers (replicate 60 NUL)
    (cut_fields (String.list_ascii_of_string (providers_text four_providers) ++ NUL :: replicate 60 NUL)).2 ctrl_defaults cfg).
  - unfold four_providers, provider_ok. repeat first [apply Forall_cons_2|apply Forall_nil_2|apply conj]; vm_compute; first [done|lia].
  - simpl. lia.
  - vm_compute. reflexivity.
Defined.
