(* ===== verification/Connect.v ===== *)
(** * Connections to the database server (lib/srdb.c: ovsdb_socket, the start
    of ovsdb_monitor, srdb_monitor)

    The server's address is read from the configuration, the connection is
    tried until the network is reachable, and a monitor asks for the rows of
    its table.  What the system calls answer is an argument; inet_pton is a
    parameter. *)

From S2P Require Import Prelude Misc Rules Srdb Transport Routed Jsontext Request Config.
From Stdlib Require Import Ascii.

Definition ENETUNREACH : Z := 101.

(** sscanf with tcp:[%[^]]]:%hu; [None]: the variable is not written. *)
Definition READ_OVSDB_SERVER (b : string) : option string * option Z :=
  match scan_literal "tcp:[" b with
  | ScanVal s =>
      match split_first "]" s with
      | (EmptyString, _) => (None, None)
      | (addr, None) => (Some addr, None)
      | (addr, Some rest) => (Some addr, match scan_bind (scan_literal ":" rest) scan_u with ScanVal v => Some (v mod 2 ^ 16) | _ => None end)
      end
  | _ => (None, None)
  end.

Section connect.
Context (inet_pton : string -> option in6_addr).

(** What connect() returns, with errno, call after call. *)
Record sock_calls := SockCalls { sc_socket : Z; sc_connects : list (Z * Z); sc_setsockopt : Z }.

(** The loop around connect(): [None] when it is still trying. *)
Fixpoint connect_loop (results : list (Z * Z)) : option Z :=
  match results with
  | [] => None
  | (err, errno) :: results => if negb (err =? 0) && (errno =? ENETUNREACH) then connect_loop results else Some err
  end.

(** The address and port of the calls of connect(), and how the call ends. *)
Inductive sock_end := Trying | Ended (fd : Z) (closed : list Z).
Record sock := Sock { sk_addr : in6_addr; sk_port : Z; sk_end : sock_end }.

(** [None]: str_addr or port are read without having been written.  The
    address is :: when inet_pton does not know the text. *)
Definition ovsdb_socket (conf : ovsdb_config) (c : sock_calls) : option sock :=
  let '(str_addr, port) := READ_OVSDB_SERVER (ovsdb_server conf) in
  port ← port;
  str_addr ← str_addr;
  let addr := default (replicate 16 0) (inet_pton str_addr) in
  let fd := sc_socket c in
  Some (Sock addr port
    match connect_loop (sc_connects c) with
    | None => Trying
    | Some err =>
        if err <? 0 then Ended (-1) [fd]
        else if sc_setsockopt c <? 0 then Ended (-1) [fd]
        else Ended fd []
    end).

(** ** Starting a monitor *)

Definition MON_STATUS_STARTING := 0.
Definition MON_STATUS_CONNREFUSED := -1.
Definition MON_STATUS_REQFAIL := -4.

(** [ovsdb_monitor] up to its loop.  [MFailed]: the status at its end, behind
    the sem_post of initial_read; [MRunning]: the descriptor and the bytes the
    server was sent. *)
Inductive started := MTrying | MFailed (status : Z) | MRunning (fd : Z) (request : string).

Definition monitor_start (conf : ovsdb_config) (table : string) (mon_flags : Z) (c : sock_calls) (alloc : bool) (sent : Z) : option started :=
  s ← ovsdb_socket conf c;
  match sk_end s with
  | Trying => Some MTrying
  | Ended fd _ =>
      if fd <? 0 then Some (MFailed MON_STATUS_CONNREFUSED)
      else if negb alloc then Some (MFailed MON_STATUS_NOMEM)
      else
        request ← monitor_request (ovsdb_database conf) table mon_flags;
        if sent <? 0 then Some (MFailed MON_STATUS_REQFAIL) else Some (MRunning fd request)
  end.

Record monitor_desc := MonDesc { md_table : string; md_flags : Z }.

(** Callbacks by table, the monitors in the order of their list. *)
Record mon_state (C : Type) := MonState { ms_callbacks : gmap string C; ms_monitors : list monitor_desc }.
#[global] Arguments MonState {C}.
#[global] Arguments ms_callbacks {C}.
#[global] Arguments ms_monitors {C}.

(** [status]: the mon_status of the thread when srdb_monitor returns, that is,
    when the call is synchronous, behind a post of initial_read. *)
Definition srdb_monitor {C : Type} (ms : mon_state C) (table : string) (mon_flags : Z) (cbs : C) (alloc : bool) (status : Z) : Z * mon_state C :=
  match srdb_table_by_name srdb_tables table with
  | None => (-1, ms)
  | Some tbl =>
      let callbacks := <[t_name tbl := cbs]> (ms_callbacks ms) in
      if negb alloc then (-1, MonState callbacks (ms_monitors ms))
      else (status, MonState callbacks (ms_monitors ms ++ [MonDesc (t_name tbl) mon_flags]))
  end.

(** ** The server of the configuration *)

Definition server_text (addr : string) (port : Z) : string := ("tcp:[" ++ addr ++ "]:" ++ dec port)%string.

Lemma server_read addr port : addr <> "" -> count_char "]" addr = O -> 0 <= port < 2 ^ 16 ->
  READ_OVSDB_SERVER (server_text addr port) = (Some addr, Some port).
Proof.
  intros Ha Hc Hp. unfold READ_OVSDB_SERVER, server_text. rewrite scan_literal_app.
  change ("]:" ++ dec port)%string with (String "]" (String ":" (dec port))). rewrite split_first_app by done. destruct addr as [|a addr]; [done|].
  change (scan_literal ":" (String ":" (dec port))) with (ScanVal (dec port)). cbn [scan_bind].
  change (scan_u (dec port)) with (scan_u (String SP (dec port))). rewrite scan_u_dec by lia. by rewrite Z.mod_small.
Qed.

Lemma connect_retries n err errno more : err = 0 \/ errno <> ENETUNREACH ->
  connect_loop (replicate n (-1, ENETUNREACH) ++ (err, errno) :: more) = Some err.
Proof.
  intros He. induction n as [|n IH]; [|done]. cbn [replicate app connect_loop]. destruct He as [->|He]; [done|].
  rewrite (proj2 (Z.eqb_neq _ _) He). by rewrite andb_false_r.
Qed.

(** Every call of connect() goes to the configured address; while the network
    is unreachable it is repeated; the descriptor is returned when it is
    connected, and closed on every error. *)
Theorem ovsdb_socket_connects (conf : ovsdb_config) (addr : string) (a : in6_addr) (port : Z) (n : nat) (fd err errno so : Z) (more : list (Z * Z)) :
  ovsdb_server conf = server_text addr port -> addr <> "" -> count_char "]" addr = O -> 0 <= port < 2 ^ 16 -> inet_pton addr = Some a ->
  err = 0 \/ (err = -1 /\ errno <> ENETUNREACH) ->
  ovsdb_socket conf (SockCalls fd (replicate n (-1, ENETUNREACH) ++ (err, errno) :: more) so) =
    Some (Sock a port (if (err =? 0) && (0 <=? so) then Ended fd [] else Ended (-1) [fd])).
Proof.
  intros Hs Ha Hc Hp Hi He. unfold ovsdb_socket. rewrite Hs, server_read by done. cbn [mbind option_bind sc_connects sc_socket sc_setsockopt].
  rewrite Hi, connect_retries by tauto. cbn [default]. destruct He as [->|[-> He]]; [|done]. cbn [Z.ltb Z.eqb andb Z.compare].
  destruct (Z.ltb_spec so 0), (Z.leb_spec 0 so); done || lia.
Qed.

(** A monitor of a table runs after one request for its rows, or ends with the
    status of the first step that failed. *)
Theorem monitor_start_spec (conf : ovsdb_config) (tbl : srdb_table) (mon_flags : Z) (c : sock_calls) (alloc : bool) (sent fd : Z) (s : sock) (closed : list Z) :
  tbl ∈ srdb_tables -> (String.length (ovsdb_database conf) <= SLEN)%nat -> ovsdb_socket conf c = Some s -> sk_end s = Ended fd closed ->
  exists request, monitor_request (ovsdb_database conf) (t_name tbl) mon_flags = Some request /\
    monitor_start conf (t_name tbl) mon_flags c alloc sent = Some
      (if fd <? 0 then MFailed MON_STATUS_CONNREFUSED else if negb alloc then MFailed MON_STATUS_NOMEM
       else if sent <? 0 then MFailed MON_STATUS_REQFAIL else MRunning fd request).
Proof.
  intros Ht Hd Hs He. destruct (monitor_request_fits (ovsdb_database conf) tbl mon_flags Hd Ht) as [request Hr]. exists request. split; [done|].
  unfold monitor_start. rewrite Hs. cbn [mbind option_bind]. rewrite He. destruct (fd <? 0); [done|]. destruct alloc; [|done]. cbn [negb].
  rewrite Hr. cbn [mbind option_bind]. by destruct (sent <? 0).
Qed.

End connect.

(** A server that is not written with brackets leaves the address unset, and
    it is read. *)
Lemma server_without_brackets inet_pton c :
  ovsdb_socket inet_pton (OvsdbConfig "ovsdb-client" "tcp:127.0.0.1:6640" "SR_test" 1) c = None.
Proof. reflexivity. Qed.

(** An address that inet_pton does not know is taken for ::. *)
Lemma unknown_address inet_pton c : inet_pton "localhost" = None ->
  exists s, ovsdb_socket inet_pton (OvsdbConfig "ovsdb-client" "tcp:[localhost]:6640" "SR_test" 1) c = Some s /\ sk_addr s = replicate 16 0.
Proof. intros Hi. unfold ovsdb_socket. cbn [ovsdb_server]. change (READ_OVSDB_SERVER "tcp:[localhost]:6640") with (Some "localhost", Some 6640). cbn [mbind option_bind]. rewrite Hi. by eexists. Qed.
