(* ===== verification/Startup.v ===== *)
(** * Start and end of the daemons (main, init_* and close_* of sr-ctrl,
    sr-routed and sr-dnsproxy)

    What the main functions acquire and release and which threads they start
    and join, on every exit, as traces; the results of the calls are arguments.
    A trace is orderly when a thread is started with all it needs, only what is
    held is released, no thread that needs it runs at the time, and only running
    threads are joined.  What the calls do
    is in the other files. *)

From S2P Require Import Prelude.

(** ** Traces *)

Section traces.
Context {R T : Type} `{!EqDecision R} `{!EqDecision T}.

Inductive ev := Get (r : R) | Put (r : R) | Start (t : T) | Join (t : T).

(** What is held and what runs. *)
Record world := World { w_held : list R; w_running : list T }.

Context (needs : T -> list R).

Definition without {A} `{!EqDecision A} (x : A) (l : list A) : list A := List.filter (fun y => negb (bool_decide (y = x))) l.

Definition ev_step (w : world) (e : ev) : option world :=
  match e with
  | Get r => Some (World (r :: w_held w) (w_running w))
  | Put r =>
      if bool_decide (r ∈ w_held w) && negb (existsb (fun t => bool_decide (r ∈ needs t)) (w_running w)) then Some (World (without r (w_held w)) (w_running w)) else None
  | Start t => if forallb (fun r => bool_decide (r ∈ w_held w)) (needs t) then Some (World (w_held w) (t :: w_running w)) else None
  | Join t => if bool_decide (t ∈ w_running w) then Some (World (w_held w) (without t (w_running w))) else None
  end.

Fixpoint play (tr : list ev) (w : world) : option world := match tr with [] => Some w | e :: tr => w ← ev_step w e; play tr w end.

Definition orderly (tr : list ev) (held : list R) : Prop := play tr (World [] []) = Some (World held []).

Lemma play_app tr tr' w : play (tr ++ tr') w = (w ← play tr w; play tr' w).
Proof. revert w. induction tr as [|e tr IH]; intros w; [done|]. cbn [app play]. destruct (ev_step w e); [apply IH|done]. Qed.

Lemma play_starts ts h : Forall (fun t => needs t ⊆ h) ts -> forall l, play (map Start ts) (World h l) = Some (World h (rev ts ++ l)).
Proof.
  induction 1 as [|t ts Ht _ IH]; intros l; [done|]. cbn [map play ev_step w_held w_running rev].
  replace (forallb _ (needs t)) with true; [cbn [mbind option_bind]; rewrite IH; by rewrite <- app_assoc|].
  symmetry. apply forallb_forall. intros r Hr. apply bool_decide_eq_true, Ht. by apply list_elem_of_In.
Qed.

Lemma play_joins ts : forall h l, NoDup ts -> (forall t, t ∈ ts -> t ∈ l) ->
  play (map Join ts) (World h l) = Some (World h (List.filter (fun x => negb (bool_decide (x ∈ ts))) l)).
Proof.
  induction ts as [|t ts IH]; intros h l Hnd Hin.
  - cbn [map play]. do 2 f_equal. induction l as [|x l IHl]; [done|]. cbn [List.filter]. rewrite bool_decide_false by set_solver. cbn [negb]. f_equal. apply IHl. set_solver.
  - apply NoDup_cons in Hnd as [Ht Hnd]. cbn [map play ev_step w_running w_held]. rewrite bool_decide_true by (apply Hin; by left). cbn [mbind option_bind].
    assert (Hmem : forall x, x ∈ without t l <-> x ∈ l /\ x <> t).
    { intros x. unfold without. rewrite !list_elem_of_In, filter_In. rewrite negb_true_iff, bool_decide_eq_false. done. }
    rewrite IH; [|done|intros x Hx; apply Hmem; split; [apply Hin; by right|by intros ->]]. do 2 f_equal. unfold without. clear. induction l as [|x l IHl]; [done|]. cbn [List.filter].
    destruct (decide (x = t)) as [->|Hne].
    + rewrite (bool_decide_true (t = t)), (bool_decide_true (t ∈ t :: ts)) by (done || by left). cbn [negb]. exact IHl.
    + rewrite (bool_decide_false (x = t)) by done. cbn [negb List.filter]. rewrite IHl.
      destruct (decide (x ∈ ts)) as [Hx|Hx]; [rewrite (bool_decide_true (x ∈ ts)), (bool_decide_true (x ∈ t :: ts)) by (done || by right); done|].
      rewrite (bool_decide_false (x ∈ ts)), (bool_decide_false (x ∈ t :: ts)) by (done || by rewrite elem_of_cons; intros [?|?]). done.
Qed.

End traces.
#[global] Arguments ev : clear implicits.
#[global] Arguments world : clear implicits.

(** ** Command lines *)

(** load_args() of the three daemons: what getopt() answers (d, or the question
    mark of anything else), and where it left [optind].  The configuration file
    and whether it is a dry run. *)
Inductive getopt_answer := OptD | OptUnknown.
#[global] Instance getopt_answer_eq_dec : EqDecision getopt_answer.
Proof. solve_decision. Defined.

Fixpoint read_flags (opts : list getopt_answer) (dryrun : bool) : option bool :=
  match opts with [] => Some dryrun | OptD :: opts => read_flags opts true | OptUnknown :: _ => None end.

Definition load_args (opts : list getopt_answer) (argc optind : Z) (argv : Z -> string) (conf : string) (dryrun : bool) : option (string * bool) :=
  dryrun ← read_flags opts dryrun;
  if optind =? argc - 1 then Some (argv optind, dryrun) else if argc <? optind then None else Some (conf, dryrun).

(** getopt() leaves [optind] at most [argc]: the second test never holds, so
    that a command line is refused for its options only, and of two files
    neither is read. *)
Lemma load_args_spec opts argc optind argv conf : 0 < optind <= argc ->
  load_args opts argc optind argv conf false =
  if bool_decide (OptUnknown ∈ opts) then None
  else Some (if argc - optind =? 1 then argv optind else conf, bool_decide (opts <> [])).
Proof.
  intros H. unfold load_args.
  assert (forall d, read_flags opts d = if bool_decide (OptUnknown ∈ opts) then None else Some (d || bool_decide (opts <> []))) as ->.
  { induction opts as [|[] opts IH]; intros d; cbn [read_flags].
    - by rewrite bool_decide_false, bool_decide_false, orb_false_r by (set_solver || auto).
    - rewrite IH. replace (bool_decide (OptUnknown ∈ OptD :: opts)) with (bool_decide (OptUnknown ∈ opts)) by (apply bool_decide_ext; set_solver).
      destruct (bool_decide (OptUnknown ∈ opts)); [done|]. rewrite (bool_decide_true (OptD :: opts <> [])) by done. by rewrite orb_true_r.
    - by rewrite bool_decide_true by (by left). }
  destruct (bool_decide (OptUnknown ∈ opts)); [done|]. cbn [mbind option_bind orb].
  destruct (Z.eqb_spec optind (argc - 1)); [by replace (argc - optind =? 1) with true by lia|].
  replace (argc <? optind) with false by lia. by replace (argc - optind =? 1) with false by lia.
Qed.

(** ** The controller *)

Module Ctrl.

Inductive ctrl_res := Providers | Rules | Logs | Srdb | Graph | Staging | Routers | Prefixes | Flows | ReqBuffer | WorkerIds.
Inductive ctrl_thr := Worker (i : nat) | Netmon.
#[global] Instance res_eq_dec : EqDecision ctrl_res.
Proof. solve_decision. Defined.
#[global] Instance thr_eq_dec : EqDecision ctrl_thr.
Proof. solve_decision. Defined.

(** What the functions of the threads touch. *)
Definition ctrl_needs (t : ctrl_thr) : list ctrl_res :=
  match t with
  | Worker _ => [Rules; Logs; Srdb; Graph; Staging; Routers; Prefixes; Flows; ReqBuffer]
  | Netmon => [Logs; Srdb; Graph; Staging; Routers; Prefixes; Flows]
  end.

(** What the calls of main() answer; [c_providers]: providers were configured. *)
Record ctrl_calls := Calls {
  c_args : bool; c_config : bool; c_providers : bool; c_rules : bool; c_zlog : bool; c_category : bool; c_dryrun : bool; c_srdb : bool;
  c_graph : bool; c_staging : bool; c_routers : bool; c_prefixes : bool; c_flows : bool; c_buffer : bool; c_workers : bool;
  c_monitor : nat -> Z
}.

Definition init_netstate_calls (c : ctrl_calls) : Z * list (ev ctrl_res ctrl_thr) :=
  if negb (c_graph c) then (-1, [])
  else if negb (c_staging c) then (-1, [Get Graph; Put Graph])
  else if negb (c_routers c) then (-1, [Get Graph; Get Staging; Put Staging; Put Graph])
  else if negb (c_prefixes c) then (-1, [Get Graph; Get Staging; Get Routers; Put Routers; Put Staging; Put Graph])
  else (0, [Get Graph; Get Staging; Get Routers; Get Prefixes]).

(** After the flows and routers in the maps have been released. *)
Definition destroy_netstate : list (ev ctrl_res ctrl_thr) := [Put Graph; Put Staging; Put Routers; Put Prefixes].

(** The monitors of NodeState, LinkState and FlowReq. *)
Definition launch_srdb (c : ctrl_calls) : Z :=
  if c_monitor c 0 <? 0 then -1 else if c_monitor c 1 <? 0 then -1 else if c_monitor c 2 <? 0 then -1 else 0.

Definition ctrl_main (c : ctrl_calls) (worker_threads : nat) : list (ev ctrl_res ctrl_thr) * Z :=
  let ids := map Worker (seq 0 worker_threads) in
  let free_conf := if c_providers c then [Put Providers] else [] in
  let free_rules := Put Rules :: free_conf in
  let free_logs := Put Logs :: free_rules in
  let free_srdb := Put Srdb :: free_logs in
  let free_flows := Put Flows :: free_srdb in
  let free_req_buffer := Put ReqBuffer :: free_flows in
  let free_workers := Put WorkerIds :: free_req_buffer in
  if negb (c_args c) then ([], -1)
  else
  let conf := if c_providers c then [Get Providers] else [] in
  if negb (c_config c) then (conf, -1)
  else if negb (c_rules c) then (conf ++ free_conf, -1)
  else
  let rules := conf ++ [Get Rules] in
  if negb (c_zlog c) then (rules ++ free_rules, -1)
  else
  let logs := rules ++ [Get Logs] in
  if negb (c_category c) then (logs ++ free_logs, -1)
  else if c_dryrun c then (logs ++ free_logs, 0)
  else if negb (c_srdb c) then (logs ++ free_logs, -1)
  else
  let '(rc, netstate) := init_netstate_calls c in
  let ns := logs ++ [Get Srdb] ++ netstate in
  if rc <? 0 then (ns ++ free_srdb, -1)
  else if negb (c_flows c) then (ns ++ free_srdb, -1)
  else
  let flows := ns ++ [Get Flows] in
  if negb (c_buffer c) then (flows ++ free_flows, -1)
  else
  let buffer := flows ++ [Get ReqBuffer] in
  if negb (c_workers c) then (buffer ++ free_req_buffer, -1)
  else
  let workers := buffer ++ [Get WorkerIds] ++ map Start ids in
  if launch_srdb c <? 0 then (workers ++ free_workers, 0)
  else (workers ++ [Start Netmon] ++ map Join ids ++ [Join Netmon] ++ destroy_netstate ++ free_workers, 0).

(** main() gets as far as starting the monitors. *)
Definition ctrl_ready (c : ctrl_calls) : bool :=
  c_args c && c_config c && c_rules c && c_zlog c && c_category c && negb (c_dryrun c) && c_srdb c && c_graph c && c_staging c && c_routers c &&
  c_prefixes c && c_flows c && c_buffer c && c_workers c.

(** Left behind when main() ends early: the network state, of which no error
    exit of main() knows, and the providers of a configuration with an error. *)
Definition left (c : ctrl_calls) : list ctrl_res :=
  if negb (c_args c) then []
  else if negb (c_config c) then if c_providers c then [Providers] else []
  else if c_rules c && c_zlog c && c_category c && negb (c_dryrun c) && c_srdb c && c_graph c && c_staging c && c_routers c && c_prefixes c && negb (ctrl_ready c)
  then [Prefixes; Routers; Staging; Graph] else [].

Lemma worker_ids_nodup n : NoDup (map Worker (seq 0 n)).
Proof. apply NoDup_fmap; [by intros ? ? [= ->]|apply NoDup_seq]. Qed.

Lemma joined n : List.filter (fun x => negb (bool_decide (x ∈ map Worker (seq 0 n)))) (Netmon :: rev (map Worker (seq 0 n)) ++ []) = [Netmon].
Proof.
  cbn [List.filter]. rewrite bool_decide_false by (intros (i & ? & _)%list_elem_of_fmap; done). cbn [negb]. f_equal. rewrite app_nil_r.
  assert (H : forall l, (forall x, x ∈ l -> x ∈ map Worker (seq 0 n)) -> List.filter (fun x => negb (bool_decide (x ∈ map Worker (seq 0 n)))) l = []).
  { induction l as [|x l IH]; intros Hl; [done|]. cbn [List.filter]. rewrite bool_decide_true by (apply Hl; by left). apply IH. intros y Hy. apply Hl. by right. }
  apply H. intros x Hx. by apply list_elem_of_In, in_rev, list_elem_of_In.
Qed.

Lemma workers_need n h : ctrl_needs (Worker 0) ⊆ h -> Forall (fun t => ctrl_needs t ⊆ h) (map Worker (seq 0 n)).
Proof. intros Hh. apply Forall_map, Forall_forall. intros i _. exact Hh. Qed.

(** The part of the run between the start of the workers and the frees. *)
Lemma threads_run n h rest : let ids := map Worker (seq 0 n) in
  ctrl_needs (Worker 0) ⊆ h -> play ctrl_needs (map Start ids ++ Start Netmon :: map Join ids ++ Join Netmon :: rest) (World h []) = play ctrl_needs rest (World h []).
Proof.
  intros ids Hh. rewrite play_app, play_starts by (by apply workers_need). cbn [mbind option_bind]. cbn [play ev_step w_held w_running].
  replace (forallb _ (ctrl_needs Netmon)) with true by (symmetry; apply forallb_forall; intros r Hr; apply bool_decide_eq_true, Hh; cbn in *; set_solver).
  cbn [mbind option_bind]. rewrite play_app.
  rewrite play_joins; [|apply worker_ids_nodup|intros t Ht; right; apply elem_of_app; left; by apply list_elem_of_In, in_rev; rewrite rev_involutive; apply list_elem_of_In].
  cbn [mbind option_bind]. unfold ids. rewrite joined. reflexivity.
Qed.

Ltac main_calls H := unfold ctrl_ready in H; repeat (apply andb_true_iff in H as [H ?]); unfold ctrl_main, init_netstate_calls;
  repeat match goal with E : negb _ = true |- _ => apply negb_true_iff in E end;
  repeat match goal with E : ?x = true |- context [?x] => rewrite E | E : ?x = false |- context [?x] => rewrite E end; cbn [negb Z.ltb Z.compare].

Lemma main_ready c n : ctrl_ready c = true -> launch_srdb c = 0 -> orderly ctrl_needs (ctrl_main c n).1 [] /\ (ctrl_main c n).2 = 0.
Proof.
  intros H Hl. main_calls H. rewrite Hl. cbn [Z.ltb Z.compare fst snd]. split; [|done]. unfold orderly.
  destruct (c_providers c); cbn [app]; cbn [play ev_step w_held w_running mbind option_bind]; (rewrite threads_run by (cbn [ctrl_needs]; set_solver)); vm_compute; reflexivity.
Qed.

(** An early exit, where the call [x] fails. *)
Ltac exits c := intros _; destruct (c_providers c); vm_compute; (split; [reflexivity|]); split; done.
Ltac early c x := destruct x; cbn [negb andb]; [|exits c].

Lemma main_early c n : ctrl_ready c = false -> orderly ctrl_needs (ctrl_main c n).1 (left c) /\
  ((ctrl_main c n).2 = 0 <-> c_args c && c_config c && c_rules c && c_zlog c && c_category c && c_dryrun c = true).
Proof.
  unfold left, ctrl_ready, ctrl_main, init_netstate_calls. early c (c_args c). early c (c_config c). early c (c_rules c). early c (c_zlog c). early c (c_category c).
  destruct (c_dryrun c); cbn [negb andb]; [exits c|]. early c (c_srdb c). early c (c_graph c). early c (c_staging c). early c (c_routers c).
  early c (c_prefixes c). early c (c_flows c). early c (c_buffer c). early c (c_workers c). done.
Qed.

(** The exit for monitors that do not start frees the buffer under the
    workers, and main() returns 0. *)
Lemma main_launch_fails c n : ctrl_ready c = true -> launch_srdb c < 0 -> play ctrl_needs (ctrl_main c (S n)).1 (World [] []) = None /\ (ctrl_main c (S n)).2 = 0.
Proof.
  intros H Hl. main_calls H. rewrite (proj2 (Z.ltb_lt _ _) Hl). cbn [fst snd]. split; [|done].
  assert (Hb : forall h rest, ctrl_needs (Worker 0) ⊆ h -> play ctrl_needs (map Start (map Worker (seq 0 (S n))) ++ Put WorkerIds :: Put ReqBuffer :: rest) (World h []) = None).
  { intros h rest Hh. rewrite play_app, play_starts by (by apply workers_need). cbn [mbind option_bind]. cbn [play ev_step w_held w_running].
    destruct (bool_decide (WorkerIds ∈ h) && _); [|done]. cbn [mbind option_bind ev_step w_held w_running].
    replace (existsb (fun t => bool_decide (ReqBuffer ∈ ctrl_needs t)) _) with true; [by rewrite andb_false_r|].
    symmetry. apply existsb_exists. exists (Worker 0). split; [|done]. apply in_or_app. left. apply in_rev. rewrite rev_involutive. by left. }
  destruct (c_providers c); cbn [app]; cbn [play ev_step w_held w_running mbind option_bind]; apply Hb; cbn [ctrl_needs]; set_solver.
Qed.

End Ctrl.

(** ** The daemon of the routers *)

Module Routed.

Inductive routed_res := Logs | Routes | Srdb | Rth.
#[global] Instance res_eq_dec : EqDecision routed_res.
Proof. solve_decision. Defined.

Record routed_calls := Calls { c_args : bool; c_config : bool; c_zlog : bool; c_category : bool; c_dryrun : bool; c_routes : bool; c_srdb : bool; c_rtnl : Z; c_monitor : Z }.

Definition STATUS_RUNNING : Z := 1.

(** The exit status is [None] where [ret] is returned without having been
    set. *)
Definition routed_main (c : routed_calls) : list (ev routed_res Empty_set) * option Z :=
  let out_logs := [Put Logs] in
  let out_srdb := Put Srdb :: out_logs in
  let out_rtnl := Put Rth :: out_srdb in
  if negb (c_args c) then ([], Some (-1))
  else if negb (c_config c) then ([], Some (-1))
  else if negb (c_zlog c) then ([], Some (-1))
  else if negb (c_category c) then ([Get Logs] ++ out_logs, Some (-1))
  else if c_dryrun c then ([Get Logs] ++ out_logs, Some 0)
  else if negb (c_routes c) then ([Get Logs] ++ out_logs, Some (-1))
  else if negb (c_srdb c) then ([Get Logs; Get Routes] ++ out_logs, Some (-1))
  else if c_rtnl c <? 0 then ([Get Logs; Get Routes; Get Srdb] ++ out_srdb, Some (-1))
  else if negb (c_monitor c =? STATUS_RUNNING) then ([Get Logs; Get Routes; Get Srdb; Get Rth] ++ out_rtnl, Some (-1))
  else ([Get Logs; Get Routes; Get Srdb; Get Rth] ++ out_rtnl, None).

Definition routed_started (c : routed_calls) : bool := c_args c && c_config c && c_zlog c && c_category c && negb (c_dryrun c) && c_routes c.

(** Every exit is orderly; only the map of routes is never freed. *)
Lemma main_orderly c : orderly (fun t : Empty_set => match t with end) (routed_main c).1 (if routed_started c then [Routes] else []).
Proof.
  unfold routed_main, routed_started, orderly. destruct (c_args c), (c_config c), (c_zlog c), (c_category c), (c_dryrun c), (c_routes c), (c_srdb c); try (vm_compute; reflexivity).
  cbn [negb andb]. destruct (_ <? _); [vm_compute; reflexivity|]. destruct (negb _); vm_compute; reflexivity.
Qed.

(** The exit status of a run that did what it should is not defined. *)
Lemma main_status c : (routed_main c).2 = None <-> routed_started c && c_srdb c && negb (c_rtnl c <? 0) && (c_monitor c =? STATUS_RUNNING) = true.
Proof.
  unfold routed_main, routed_started. destruct (c_args c), (c_config c), (c_zlog c), (c_category c), (c_dryrun c), (c_routes c), (c_srdb c); try (split; discriminate).
  cbn [negb andb]. destruct (_ <? _); [split; discriminate|]. cbn [negb andb]. destruct (_ =? _); split; done.
Qed.

End Routed.

(** ** The proxy *)

Module Proxy.

Inductive proxy_res := Servers | Logs | Socket | Srdb | Waiting | Cares | Channel | Replies | Mutex | Queries.
Inductive proxy_thr := ClientConsumer | ClientProducer | ServerConsumer | ServerProducer.
#[global] Instance res_eq_dec : EqDecision proxy_res.
Proof. solve_decision. Defined.
#[global] Instance thr_eq_dec : EqDecision proxy_thr.
Proof. solve_decision. Defined.

Definition proxy_needs (t : proxy_thr) : list proxy_res :=
  match t with
  | ClientConsumer => [Logs; Srdb; Replies; Waiting]
  | ClientProducer => [Logs; Channel; Cares; Mutex; Replies]
  | ServerConsumer => [Logs; Channel; Cares; Mutex; Queries]
  | ServerProducer => [Logs; Socket; Queries]
  end.

Record proxy_calls := Calls {
  c_args : bool; c_config : bool; c_servers : bool; c_zlog : bool; c_category : bool; c_dryrun : bool; c_sigmask : bool; c_sigaction : bool;
  c_addrinfo : bool; c_bind : bool; c_srdb : bool; c_monitor : nat -> Z;
  c_mkfifo : bool; c_ares : bool; c_options : bool; c_set_servers : bool; c_client_consumer : bool; c_client_producer : bool;
  c_server_consumer : bool; c_server_producer : bool; c_unblock : bool; c_sigint : bool
}.

Definition init_monitor (c : proxy_calls) : Z * list (ev proxy_res proxy_thr) :=
  if negb (c_addrinfo c) then (-1, [])
  else if negb (c_bind c) then (-1, [])
  else if negb (c_srdb c) then (-1, [Get Socket])
  else if c_monitor c 0 <? 0 then (-1, [Get Socket; Get Srdb])
  else if c_monitor c 1 <? 0 then (-1, [Get Socket; Get Srdb])
  else (0, [Get Socket; Get Srdb; Get Waiting]).

(** [status] of a failed mkfifo() is still ARES_SUCCESS. *)
Definition init_client (c : proxy_calls) : Z * list (ev proxy_res proxy_thr) :=
  let out_err (channel : bool) := if channel then [Put Channel] else [] in
  let out_cleanup_cares channel := Put Cares :: out_err channel in
  let out_cleanup_queue_mutex := Put Replies :: Put Mutex :: out_cleanup_cares true in
  if negb (c_mkfifo c) then (0, out_err false)
  else if negb (c_ares c) then (1, out_err false)
  else if negb (c_options c) then (1, Get Cares :: out_cleanup_cares false)
  else if c_servers c && negb (c_set_servers c) then (1, Get Cares :: Get Channel :: out_cleanup_cares true)
  else
  let init := [Get Cares; Get Channel; Get Replies; Get Mutex] in
  if negb (c_client_consumer c) then (1, init ++ out_cleanup_queue_mutex)
  else if negb (c_client_producer c) then (1, init ++ Start ClientConsumer :: out_cleanup_queue_mutex)
  else (0, init ++ [Start ClientConsumer; Start ClientProducer]).

Definition init_server (c : proxy_calls) : Z * list (ev proxy_res proxy_thr) :=
  if negb (c_server_consumer c) then (1, [Get Queries; Put Queries])
  else if negb (c_server_producer c) then (1, [Get Queries; Start ServerConsumer; Put Queries])
  else (0, [Get Queries; Start ServerConsumer; Start ServerProducer]).

Definition close_server : list (ev proxy_res proxy_thr) := [Put Queries; Put Socket].
(** [channel]: whether the channel is not NULL. *)
Definition close_client (channel : bool) : list (ev proxy_res proxy_thr) :=
  Put Replies :: (if channel then [Put Channel] else []) ++ [Put Mutex; Put Cares].
Definition close_monitor : list (ev proxy_res proxy_thr) := [Put Srdb; Put Waiting].

(** The status given to exit(). *)
Definition proxy_main (c : proxy_calls) : list (ev proxy_res proxy_thr) * Z :=
  let free_servers := if c_servers c then [Put Servers] else [] in
  let out_err_logs := Put Logs :: free_servers in
  if negb (c_args c) then ([], 1)
  else if negb (c_config c) then ([], 1)
  else
  let servers := if c_servers c then [Get Servers] else [] in
  if negb (c_zlog c) then (servers ++ free_servers, 1)
  else
  let logs := servers ++ [Get Logs] in
  if negb (c_category c) then (logs ++ out_err_logs, 1)
  else if c_dryrun c then (logs ++ out_err_logs, 0)
  else if negb (c_sigmask c) then (logs ++ out_err_logs, 1)
  else if negb (c_sigaction c) then (logs ++ out_err_logs, 1)
  else
  let '(err, monitor) := init_monitor c in
  if negb (err =? 0) then (logs ++ monitor ++ out_err_logs, 1)
  else
  let '(err, client) := init_client c in
  if negb (err =? 0) then (logs ++ monitor ++ client ++ out_err_logs, 1)
  else
  let '(err, server) := init_server c in
  if negb (err =? 0) then (logs ++ monitor ++ client ++ server ++ out_err_logs, 1)
  else
  let everything := logs ++ monitor ++ client ++ server ++ free_servers in
  if negb (c_unblock c) then (everything ++ [Put Logs], 1)
  else if negb (c_sigint c) then (everything ++ [Put Logs], 1)
  else (everything ++ [Join ServerConsumer; Join ServerProducer; Join ClientConsumer; Join ClientProducer] ++ close_server ++ close_client (c_mkfifo c) ++ close_monitor ++ [Put Logs], 0).

Definition monitors (c : proxy_calls) : bool := c_addrinfo c && c_bind c && c_srdb c && (0 <=? c_monitor c 0) && (0 <=? c_monitor c 1).
Definition up (c : proxy_calls) : bool :=
  c_args c && c_config c && c_zlog c && c_category c && negb (c_dryrun c) && c_sigmask c && c_sigaction c && monitors c &&
  c_ares c && c_options c && (negb (c_servers c) || c_set_servers c).
Definition threads (c : proxy_calls) : bool := c_client_consumer c && c_client_producer c && c_server_consumer c && c_server_producer c.

Ltac calls_of H := repeat (apply andb_true_iff in H as [H ?]);
  repeat match goal with E : negb _ = true |- _ => apply negb_true_iff in E end;
  repeat match goal with E : (0 <=? ?x) = true |- _ => apply Z.leb_le, Z.ltb_ge in E end;
  repeat match goal with E : ?x = true |- context [?x] => rewrite E | E : ?x = false |- context [?x] => rewrite E end; cbn [negb andb orb Z.eqb].

(** A run without failure is orderly and gives everything back. *)
Lemma main_runs c : up c = true -> c_mkfifo c = true -> threads c = true -> c_unblock c = true -> c_sigint c = true ->
  orderly proxy_needs (proxy_main c).1 [] /\ (proxy_main c).2 = 0.
Proof.
  unfold up, threads, monitors. intros H Hf Ht Hu Hs. apply andb_true_iff in H as [H Hsv]. apply andb_true_iff in H as [H Ho]. apply andb_true_iff in H as [H Ha].
  apply andb_true_iff in H as [H Hm]. unfold proxy_main, init_monitor, init_client, init_server.
  calls_of H. calls_of Hm. calls_of Ht. rewrite ?Hf, ?Ha, ?Ho, ?Hu, ?Hs. cbn [negb andb orb Z.eqb].
  destruct (c_servers c); cbn [negb andb orb] in *; rewrite ?Hsv; cbn [negb andb Z.eqb]; split; vm_compute; reflexivity.
Qed.

(** When the FIFO cannot be made [init_client] has started no thread and
    answers 0: proxy_main goes on to join threads that do not exist. *)
Lemma fifo_failure_hidden c : up c = true -> c_mkfifo c = false -> c_server_consumer c = true -> c_server_producer c = true -> c_unblock c = true -> c_sigint c = true ->
  (init_client c).1 = 0 /\ play proxy_needs (proxy_main c).1 (World [] []) = None.
Proof.
  unfold up, monitors. intros H Hf Hc Hp Hu Hs. apply andb_true_iff in H as [H _]. apply andb_true_iff in H as [H _]. apply andb_true_iff in H as [H _].
  apply andb_true_iff in H as [H Hm]. unfold proxy_main, init_monitor, init_client, init_server. rewrite Hf. split; [done|].
  calls_of H. calls_of Hm. cbn [negb andb orb Z.eqb]. rewrite ?Hc, ?Hp, ?Hu, ?Hs. cbn [negb andb orb Z.eqb]. destruct (c_servers c); vm_compute; reflexivity.
Qed.

(** When the second thread of a pair cannot be created, the queue is destroyed
    under the first. *)
Lemma producer_failure_destroys c : up c = true -> c_mkfifo c = true -> c_client_consumer c = true -> c_client_producer c = false ->
  play proxy_needs (proxy_main c).1 (World [] []) = None.
Proof.
  unfold up, monitors. intros H Hf Hc Hp. apply andb_true_iff in H as [H Hsv]. apply andb_true_iff in H as [H Ho]. apply andb_true_iff in H as [H Ha].
  apply andb_true_iff in H as [H Hm]. unfold proxy_main, init_monitor, init_client.
  calls_of H. calls_of Hm. rewrite ?Hf, ?Ha, ?Ho, ?Hc, ?Hp. cbn [negb andb orb Z.eqb].
  destruct (c_servers c); cbn [negb andb orb] in *; rewrite ?Hsv; cbn [negb andb Z.eqb]; vm_compute; reflexivity.
Qed.

End Proxy.

(** ** The exits of the controller *)

(** The controller starts its threads with all they need and releases nothing
    under them: when a call before the monitors fails main releases what it has
    acquired, but for the network state, and when the monitors have started and
    ended it joins every thread, releases everything and returns 0.  Only when a
    monitor does not start the buffer is freed under the workers, and main
    returns 0 nevertheless. *)
Theorem ctrl_main_exits (c : Ctrl.ctrl_calls) (n : nat) :
  (Ctrl.ctrl_ready c = false -> orderly Ctrl.ctrl_needs (Ctrl.ctrl_main c n).1 (Ctrl.left c)) /\
  (Ctrl.ctrl_ready c = true -> 0 <= Ctrl.launch_srdb c -> orderly Ctrl.ctrl_needs (Ctrl.ctrl_main c n).1 [] /\ (Ctrl.ctrl_main c n).2 = 0) /\
  (Ctrl.ctrl_ready c = true -> Ctrl.launch_srdb c < 0 -> (0 < n)%nat -> play Ctrl.ctrl_needs (Ctrl.ctrl_main c n).1 (World [] []) = None /\ (Ctrl.ctrl_main c n).2 = 0).
Proof.
  split_and!.
  - intros H. by apply Ctrl.main_early.
  - intros H Hl. apply Ctrl.main_ready; [done|]. unfold Ctrl.launch_srdb in *. by repeat (destruct (_ <? 0)).
  - intros H Hl Hn. destruct n as [|n]; [lia|]. by apply Ctrl.main_launch_fails.
Qed.

(** A run in which everything succeeds, and one whose second monitor fails. *)
Definition good_calls (monitor : nat -> Z) : Ctrl.ctrl_calls :=
  Ctrl.Calls true true true true true true false true true true true true true true true monitor.

Example ctrl_runs : orderly Ctrl.ctrl_needs (Ctrl.ctrl_main (good_calls (fun _ => 1)) 3).1 [].
Proof. vm_compute. reflexivity. Qed.

Example ctrl_monitor_fails : play Ctrl.ctrl_needs (Ctrl.ctrl_main (good_calls (fun i => if (i =? 1)%nat then -1 else 1)) 3).1 (World [] []) = None.
Proof. vm_compute. reflexivity. Qed.
