(* ===== verification/Interrupt.v ===== *)
(** * The end of the proxy (sr-dnsproxy/proxy.c: inthand; the thread functions
    of server.c and client.c)

    The four threads of the proxy and the signal handler that ends them, as
    interleaved step machines.  The queues are numbers of elements with a flag
    (Queue.v has them in full: a closed queue refuses appends and ends walks),
    the FIFO is the number of its bytes and whether the ends are taken.  A
    label chooses what the environment answers.  A signal finds a thread inside
    a blocking call, which fails, or outside, where it has no effect: this too
    is chosen.  sem_wait() inside the database library is such a call; its
    result is not tested. *)

From S2P Require Import Prelude.

(** ** The threads *)

Inductive sp_pc := SPCheck | SPSelect | SPProcess | SPEnd.
Inductive sc_pc := SCOpen | SCWait | SCDequeue | SCParse | SCLock | SCQuery | SCWrite | SCEnd.
Inductive cp_pc := CPOpen | CPWait | CPCheck | CPSelect | CPRead | CPLock | CPProcess | CPDequeue | CPAppend | CPEnd.
(** [CCWild]: the result of a transaction is read from a slot never written. *)
Inductive cc_pc := CCId | CCDequeue | CCForward | CCInsert | CCEnd | CCWild.
Inductive h_pc := HIdle | HStop | HCloseQueries | HCloseReplies | HCloseWaiting | HKillSP | HKillSC | HKillCP | HKillCC | HDone.
Inductive holder := HeldSC | HeldCP.

(** [v_rd], [v_wr]: the ends of the FIFO that are open or being opened. *)
Record proxy := Px {
  v_stop : bool; v_nq : nat; v_nr : nat; v_nw : nat; v_cq : bool; v_cr : bool; v_cw : bool;
  v_rd : bool; v_wr : bool; v_bytes : nat; v_mtx : option holder; v_pending : nat; v_inner : nat;
  v_sp : sp_pc; v_sc : sc_pc; v_cp : cp_pc; v_cc : cc_pc; v_h : h_pc
}.

Section proxy.
(** [db_answers]: whether the database answers the transactions of the proxy;
    srdb_insert_sync waits for the answer. *)
Context (max_queries pipe_size : nat) (db_answers : bool).

(** mqueue_append: [None]: waits; [Some None]: an error. *)
Definition q_append (closed : bool) (n : nat) : option (option nat) :=
  if closed then Some None else if (n <? max_queries)%nat then Some (Some (S n)) else None.

(** mqueue_dequeue; [Some None]: the walk ends. *)
Definition q_dequeue (closed : bool) (n : nat) : option (option nat) :=
  if closed then Some None else match n with O => None | S n => Some (Some n) end.

Definition set_sp (s : proxy) (nq : nat) (pc : sp_pc) : proxy :=
  Px (v_stop s) nq (v_nr s) (v_nw s) (v_cq s) (v_cr s) (v_cw s) (v_rd s) (v_wr s) (v_bytes s) (v_mtx s) (v_pending s) (v_inner s) pc (v_sc s) (v_cp s) (v_cc s) (v_h s).
Definition set_sc (s : proxy) (nq : nat) (wr : bool) (bytes : nat) (mtx : option holder) (pending : nat) (pc : sc_pc) : proxy :=
  Px (v_stop s) nq (v_nr s) (v_nw s) (v_cq s) (v_cr s) (v_cw s) (v_rd s) wr bytes mtx pending (v_inner s) (v_sp s) pc (v_cp s) (v_cc s) (v_h s).
Definition set_cp (s : proxy) (nr : nat) (rd : bool) (bytes : nat) (mtx : option holder) (pending inner : nat) (pc : cp_pc) : proxy :=
  Px (v_stop s) (v_nq s) nr (v_nw s) (v_cq s) (v_cr s) (v_cw s) rd (v_wr s) bytes mtx pending inner (v_sp s) (v_sc s) pc (v_cc s) (v_h s).
Definition set_cc (s : proxy) (nr nw : nat) (pc : cc_pc) : proxy :=
  Px (v_stop s) (v_nq s) nr nw (v_cq s) (v_cr s) (v_cw s) (v_rd s) (v_wr s) (v_bytes s) (v_mtx s) (v_pending s) (v_inner s) (v_sp s) (v_sc s) (v_cp s) pc (v_h s).
Definition set_h (s : proxy) (stop cq cr cw : bool) (pc : h_pc) : proxy :=
  Px stop (v_nq s) (v_nr s) (v_nw s) cq cr cw (v_rd s) (v_wr s) (v_bytes s) (v_mtx s) (v_pending s) (v_inner s) (v_sp s) (v_sc s) (v_cp s) (v_cc s) pc.

(** select() answers readable, a timeout or an error; recvfrom() and malloc()
    answer yes or no. *)
Inductive env_answer := Yes | No | Err.

Definition server_producer_main (a : env_answer) (s : proxy) : option proxy :=
  match v_sp s with
  | SPCheck => Some (set_sp s (v_nq s) (if v_stop s then SPEnd else SPSelect))
  | SPSelect => Some (set_sp s (v_nq s) (match a with Yes => SPProcess | No => SPCheck | Err => SPEnd end))
  | SPProcess =>
      match a with
      | Yes => r ← q_append (v_cq s) (v_nq s); Some (set_sp s (default (v_nq s) r) SPCheck)
      | _ => Some (set_sp s (v_nq s) SPCheck)
      end
  | SPEnd => None
  end.

(** [Err] at [SCOpen]: open() fails; [No] at [SCParse]: the query is dropped. *)
Definition server_consumer_main (a : env_answer) (s : proxy) : option proxy :=
  let go pc := Some (set_sc s (v_nq s) (v_wr s) (v_bytes s) (v_mtx s) (v_pending s) pc) in
  match v_sc s with
  | SCOpen => match a with Err => go SCEnd | _ => Some (set_sc s (v_nq s) true (v_bytes s) (v_mtx s) (v_pending s) SCWait) end
  | SCWait => if v_rd s then go SCDequeue else None
  | SCDequeue =>
      r ← q_dequeue (v_cq s) (v_nq s);
      match r with None => go SCEnd | Some nq => Some (set_sc s nq (v_wr s) (v_bytes s) (v_mtx s) (v_pending s) SCParse) end
  | SCParse => match a with Yes => go SCLock | _ => go SCDequeue end
  | SCLock => match v_mtx s with None => Some (set_sc s (v_nq s) (v_wr s) (v_bytes s) (Some HeldSC) (v_pending s) SCQuery) | Some _ => None end
  | SCQuery => Some (set_sc s (v_nq s) (v_wr s) (v_bytes s) None (S (v_pending s)) SCWrite)
  | SCWrite => if (v_bytes s <? pipe_size)%nat then Some (set_sc s (v_nq s) (v_wr s) (S (v_bytes s)) (v_mtx s) (v_pending s) SCDequeue) else None
  | SCEnd => None
  end.

(** [Yes] at [CPRead]: FD_ISSET of the FIFO; [Yes] at [CPDequeue]: the reply is
    an address.  [ok], [failed]: how many queries ares_process() completes with and without
    an answer. *)
Definition client_producer_main (a : env_answer) (ok failed : nat) (s : proxy) : option proxy :=
  let go pc := Some (set_cp s (v_nr s) (v_rd s) (v_bytes s) (v_mtx s) (v_pending s) (v_inner s) pc) in
  match v_cp s with
  | CPOpen => match a with Err => go CPEnd | _ => Some (set_cp s (v_nr s) true (v_bytes s) (v_mtx s) (v_pending s) (v_inner s) CPWait) end
  | CPWait => if v_wr s then go CPCheck else None
  | CPCheck => go (if v_stop s then CPEnd else CPSelect)
  | CPSelect => go (match a with Err => CPEnd | _ => CPRead end)
  | CPRead => Some (set_cp s (v_nr s) (v_rd s) (match a with Yes => v_bytes s - 1000 | _ => v_bytes s end) (v_mtx s) (v_pending s) (v_inner s) CPLock)
  | CPLock => match v_mtx s with None => Some (set_cp s (v_nr s) (v_rd s) (v_bytes s) (Some HeldCP) (v_pending s) (v_inner s) CPProcess) | Some _ => None end
  | CPProcess =>
      if (ok + failed <=? v_pending s)%nat
      then Some (set_cp s (v_nr s) (v_rd s) (v_bytes s) None (v_pending s - (ok + failed)) (v_inner s + ok) CPDequeue) else None
  | CPDequeue =>
      match v_inner s with
      | O => go CPCheck
      | S inner => Some (set_cp s (v_nr s) (v_rd s) (v_bytes s) (v_mtx s) (v_pending s) inner (match a with Yes => CPAppend | _ => CPDequeue end))
      end
  | CPAppend => r ← q_append (v_cr s) (v_nr s); Some (set_cp s (default (v_nr s) r) (v_rd s) (v_bytes s) (v_mtx s) (v_pending s) (v_inner s) CPDequeue)
  | CPEnd => None
  end.

(** At [CCId] and [CCInsert] the thread waits for the answer to a transaction,
    at [CCId] perhaps an error. *)
Definition client_consumer_main (a : env_answer) (s : proxy) : option proxy :=
  match v_cc s with
  | CCId => if db_answers then Some (set_cc s (v_nr s) (v_nw s) (match a with Yes => CCDequeue | _ => CCEnd end)) else None
  | CCDequeue => r ← q_dequeue (v_cr s) (v_nr s); Some (match r with None => set_cc s (v_nr s) (v_nw s) CCEnd | Some nr => set_cc s nr (v_nw s) CCForward end)
  | CCForward => r ← q_append (v_cw s) (v_nw s); Some (match r with None => set_cc s (v_nr s) (v_nw s) CCEnd | Some nw => set_cc s (v_nr s) nw CCInsert end)
  | CCInsert => if db_answers then Some (set_cc s (v_nr s) (v_nw s) CCDequeue) else None
  | CCEnd | CCWild => None
  end.

(** ** The handler *)

(** pthread_kill: [inside]: the thread is inside the call its counter names. *)
Definition kill_sp (inside : bool) (s : proxy) : proxy := if inside then match v_sp s with SPSelect => set_sp s (v_nq s) SPEnd | _ => s end else s.
Definition kill_sc (inside : bool) (s : proxy) : proxy :=
  if inside then
    match v_sc s with
    | SCWait => set_sc s (v_nq s) false (v_bytes s) (v_mtx s) (v_pending s) SCEnd
    | SCWrite => set_sc s (v_nq s) (v_wr s) (v_bytes s) (v_mtx s) (v_pending s) SCDequeue
    | _ => s
    end
  else s.
Definition kill_cp (inside : bool) (s : proxy) : proxy :=
  if inside then
    match v_cp s with
    | CPWait => set_cp s (v_nr s) false (v_bytes s) (v_mtx s) (v_pending s) (v_inner s) CPEnd
    | CPSelect => set_cp s (v_nr s) (v_rd s) (v_bytes s) (v_mtx s) (v_pending s) (v_inner s) CPEnd
    | _ => s
    end
  else s.
Definition kill_cc (inside : bool) (s : proxy) : proxy := if inside then match v_cc s with CCId | CCInsert => set_cc s (v_nr s) (v_nw s) CCWild | _ => s end else s.

(** SIGINT arrives at [HIdle]. *)
Definition inthand (inside : bool) (s : proxy) : option proxy :=
  let to pc s := set_h s (v_stop s) (v_cq s) (v_cr s) (v_cw s) pc in
  match v_h s with
  | HIdle => Some (to HStop s)
  | HStop => Some (set_h s true (v_cq s) (v_cr s) (v_cw s) HCloseQueries)
  | HCloseQueries => Some (set_h s (v_stop s) true (v_cr s) (v_cw s) HCloseReplies)
  | HCloseReplies => Some (set_h s (v_stop s) (v_cq s) true (v_cw s) HCloseWaiting)
  | HCloseWaiting => Some (set_h s (v_stop s) (v_cq s) (v_cr s) true HKillSP)
  | HKillSP => Some (to HKillSC (kill_sp inside s))
  | HKillSC => Some (to HKillCP (kill_sc inside s))
  | HKillCP => Some (to HKillCC (kill_cp inside s))
  | HKillCC => Some (to HDone (kill_cc inside s))
  | HDone => None
  end.

(** The monitors take replies out of the last queue until it is closed. *)
Definition monitor_removes (s : proxy) : option proxy :=
  if v_cw s then None else match v_nw s with O => None | S nw => Some (set_cc s (v_nr s) nw (v_cc s)) end.

Inductive plabel := LSP (a : env_answer) | LSC (a : env_answer) | LCP (a : env_answer) (ok failed : nat) | LCC (a : env_answer) | LInt (inside : bool) | LMon.

Definition pstep (l : plabel) (s : proxy) : option proxy :=
  match l with
  | LSP a => server_producer_main a s
  | LSC a => server_consumer_main a s
  | LCP a ok failed => client_producer_main a ok failed s
  | LCC a => client_consumer_main a s
  | LInt inside => inthand inside s
  | LMon => monitor_removes s
  end.

Fixpoint prun (ls : list plabel) (s : proxy) : option proxy := match ls with [] => Some s | l :: ls => s ← pstep l s; prun ls s end.

Definition pstart : proxy := Px false 0 0 0 false false false false false 0 None 0 0 SPCheck SCOpen CPOpen CCId HIdle.

End proxy.

(** ** Invariants *)

Definition hrank (h : h_pc) : nat :=
  match h with HIdle => 0 | HStop => 1 | HCloseQueries => 2 | HCloseReplies => 3 | HCloseWaiting => 4 | HKillSP => 5 | HKillSC => 6 | HKillCP => 7 | HKillCC => 8 | HDone => 9 end.

(** What the handler has done so far, and who holds the mutex of the channel. *)
Record pinv (s : proxy) : Prop := {
  pi_stop : (2 <= hrank (v_h s))%nat -> v_stop s = true;
  pi_cq : (3 <= hrank (v_h s))%nat -> v_cq s = true;
  pi_cr : (4 <= hrank (v_h s))%nat -> v_cr s = true;
  pi_cw : (5 <= hrank (v_h s))%nat -> v_cw s = true;
  pi_sc : v_mtx s = Some HeldSC <-> v_sc s = SCQuery;
  pi_cp : v_mtx s = Some HeldCP <-> v_cp s = CPProcess
}.

Ltac proxy_step :=
  unfold pstep, server_producer_main, server_consumer_main, client_producer_main, client_consumer_main, inthand, monitor_removes, q_append, q_dequeue,
    kill_sp, kill_sc, kill_cp, kill_cc, set_sp, set_sc, set_cp, set_cc, set_h in *; cbn in *;
  repeat (case_match; cbn in *; try discriminate); simplify_eq/=; try discriminate.

Section runs.
Context (max_queries pipe_size : nat) (db_answers : bool).
Local Abbreviation pstep := (pstep max_queries pipe_size db_answers).
Local Abbreviation prun := (prun max_queries pipe_size db_answers).

Lemma pinv_start : pinv pstart.
Proof. split; cbn; intros; try lia; by split. Qed.

Lemma pinv_step l s s' : pinv s -> pstep l s = Some s' -> pinv s'.
Proof.
  intros [H1 H2 H3 H4 H5 H6] H. destruct s as [stop nq nr nw cq cr cw rd wr bytes mtx pending inner sp sc cp cc h]. cbn in *. destruct l; proxy_step.
  all: split; cbn in *; auto with lia; try (intros; first [done | apply H1; lia | apply H2; lia | apply H3; lia | apply H4; lia]); try (by destruct mtx as [[]|]; intuition).
  all: split; [done|]; intros Hpc; first [by apply H6 in Hpc|by apply H5 in Hpc].
Qed.

Lemma pinv_run ls : forall s s', pinv s -> prun ls s = Some s' -> pinv s'.
Proof.
  induction ls as [|l ls IH]; intros s s' I H; cbn [Interrupt.prun] in H; [by injection H as <-|]. destruct (pstep l s) as [s1|] eqn:E; [|done]. apply (IH s1); [by eapply pinv_step|done].
Qed.

(** After the handler: the flags, the FIFO with room for a byte or no more
    write to come. *)
Record late (s : proxy) : Prop := {
  la_h : v_h s = HDone;
  la_rd : v_rd s = true;
  la_wr : v_wr s = true;
  la_room : (v_bytes s < pipe_size)%nat \/ v_sc s = SCDequeue \/ v_sc s = SCEnd;
  la_cc : v_cc s <> CCWild
}.

Lemma late_step l s s' : pinv s -> late s -> pstep l s = Some s' -> late s'.
Proof.
  intros [H1 H2 H3 H4 H5 H6] [L1 L2 L3 L4 L5] H. destruct s as [stop nq nr nw cq cr cw rd wr bytes mtx pending inner sp sc cp cc h]. cbn in *. subst h rd wr. cbn in *.
  rewrite H1, H2, H3, H4 in H by lia. destruct l; proxy_step.
  all: split; cbn; try done; try lia; try tauto; destruct L4 as [L4|[L4|L4]]; try done; try (left; lia); tauto.
Qed.

(** Steps that are left when the handler has returned. *)
Definition stop_potential (s : proxy) : nat :=
  (match v_sp s with SPEnd => 0 | SPCheck => 1 | SPProcess => 2 | SPSelect => 3 end +
  match v_sc s with SCEnd => 0 | SCDequeue => 1 | SCWrite => 2 | SCQuery => 6 | SCLock => 7 | SCParse => 8 | SCWait => 2 | SCOpen => 3 end +
  match v_cp s with
  | CPEnd => 0 | CPCheck => 1 | CPDequeue => 2 | CPAppend => 3 | CPProcess => 3 | CPLock => 4 | CPRead => 5 | CPSelect => 6 | CPWait => 2 | CPOpen => 3
  end +
  match v_cc s with CCEnd | CCWild => 0 | CCDequeue => 1 | CCForward => 1 | CCId => 2 | CCInsert => 2 end + 3 * (v_pending s + v_inner s))%nat.

#[local] Arguments stop_potential : simpl never.

Lemma late_potential l s s' : pinv s -> late s -> pstep l s = Some s' -> (stop_potential s' < stop_potential s)%nat.
Proof.
  intros [H1 H2 H3 H4 H5 H6] [L1 L2 L3 L4 L5] H. destruct s as [stop nq nr nw cq cr cw rd wr bytes mtx pending inner sp sc cp cc h]. cbn in *. subst h rd wr. cbn in *.
  rewrite H1, H2, H3, H4 in H by lia. destruct l; proxy_step.
  all: repeat match goal with H : (_ <=? _)%nat = true |- _ => apply Nat.leb_le in H end.
  all: unfold stop_potential; cbn [v_sp v_sc v_cp v_cc v_pending v_inner]; lia.
Qed.

Lemma late_run ls : forall s s', pinv s -> late s -> prun ls s = Some s' -> pinv s' /\ late s' /\ (length ls + stop_potential s' <= stop_potential s)%nat.
Proof.
  induction ls as [|l ls IH]; intros s s' I L H; cbn [Interrupt.prun] in H; [injection H as <-; cbn; auto with lia|]. destruct (pstep l s) as [s1|] eqn:E; [|done].
  pose proof (late_potential l s s1 I L E). destruct (IH s1 s' (pinv_step _ _ _ I E) (late_step _ _ _ I L E) H) as (? & ? & ?). cbn [length]. auto with lia.
Qed.

Definition ended (s : proxy) : Prop := v_sp s = SPEnd /\ v_sc s = SCEnd /\ v_cp s = CPEnd /\ v_cc s = CCEnd.
Definition waits_for_db (s : proxy) : Prop := v_sp s = SPEnd /\ v_sc s = SCEnd /\ v_cp s = CPEnd /\ (v_cc s = CCId \/ v_cc s = CCInsert).

Lemma late_stuck s : pinv s -> late s -> (forall l, pstep l s = None) -> ended s \/ db_answers = false /\ waits_for_db s.
Proof.
  intros [H1 H2 H3 H4 H5 H6] [L1 L2 L3 L4 L5] Q. destruct s as [stop nq nr nw cq cr cw rd wr bytes mtx pending inner sp sc cp cc h]. cbn in *. subst h rd wr. cbn in *.
  rewrite H1, H2, H3, H4 in Q by lia. assert (sp = SPEnd) as ->. { pose proof (Q (LSP Yes)) as K. by destruct sp. }
  assert (cc = CCEnd \/ db_answers = false /\ (cc = CCId \/ cc = CCInsert)) as Hcc.
  { pose proof (Q (LCC Yes)) as K. destruct cc; try done; try (by left); destruct db_answers; try done; right; auto. }
  assert (cp <> CPProcess) as Hcp. { intros ->. by pose proof (Q (LCP Yes 0 0)). }
  assert (sc <> SCQuery) as Hsc. { intros ->. by pose proof (Q (LSC Yes)). }
  assert (mtx = None) as ->. { destruct mtx as [[]|]; [by destruct Hsc; apply H5|by destruct Hcp; apply H6|done]. }
  assert (cp = CPEnd) as ->. { pose proof (Q (LCP Yes 0 0)) as K. destruct cp; try done. cbn in K. by destruct inner. }
  assert (sc = SCEnd) as ->; [|unfold ended, waits_for_db; cbn; intuition]. pose proof (Q (LSC Yes)) as K. destruct sc; try done.
  unfold Interrupt.pstep, server_consumer_main in K. cbn [v_sc v_bytes] in K. destruct L4 as [L4|[L4|L4]]; [|done|done]. apply Nat.ltb_lt in L4. by rewrite L4 in K.
Qed.

(** C14. The proxy stops.  When the handler of SIGINT has returned, both ends of
    the FIFO have been opened, it has room for a byte and no thread was
    interrupted inside the database library, then whatever the order in which
    the four threads run only boundedly many steps are left, and when no thread
    can move all four have ended, so that main joins them, if the database
    answers the transactions it was sent; if it does not, the thread that
    inserts the requests may be waiting for it, and the other three have
    ended. *)
Theorem proxy_stops (before after : list plabel) (s s' : proxy) :
  prun before pstart = Some s -> v_h s = HDone -> v_rd s = true -> v_wr s = true -> (v_bytes s < pipe_size)%nat -> v_cc s <> CCWild ->
  prun after s = Some s' -> (length after <= stop_potential s)%nat /\ ((forall l, pstep l s' = None) -> ended s' \/ db_answers = false /\ waits_for_db s').
Proof.
  intros Hb Hh Hrd Hwr Hroom Hcc Ha. pose proof (pinv_run _ _ _ pinv_start Hb) as I.
  destruct (late_run after s s' I) as (I' & L' & Hlen); [by split; auto|done|]. split; [lia|]. by apply late_stuck.
Qed.

End runs.

(** ** Runs *)

(** SIGINT while a query is on its way to the DNS server: all threads end. *)
Definition one_query : list plabel :=
  [LCC Yes; LCP Yes 0 0; LSC Yes; LSC Yes; LCP Yes 0 0; LSP Yes; LSP Yes; LSP Yes; LSC Yes; LSC Yes; LSC Yes; LSC Yes; LCP Yes 0 0; LCP Yes 0 0] ++ replicate 9 (LInt true).
Definition last_steps : list plabel := [LSP Yes; LSC Yes; LCP Yes 0 0; LCP Yes 0 0; LCP Yes 1 0; LCP Yes 0 0; LCP Yes 0 0; LCP Yes 0 0; LCP Yes 0 0; LCC Yes].
Definition interrupted : proxy := default pstart (prun 5 100 true one_query pstart).

Lemma proxy_stops_witness :
  ended (default pstart (prun 5 100 true last_steps interrupted)) \/ true = false /\ waits_for_db (default pstart (prun 5 100 true last_steps interrupted)).
Proof.
  assert (H : prun 5 100 true last_steps interrupted = Some (default pstart (prun 5 100 true last_steps interrupted))) by (vm_compute; reflexivity).
  refine (proj2 (proxy_stops 5 100 true one_query last_steps interrupted _ _ _ _ _ _ _ H) _); try (vm_compute; reflexivity).
  - apply Nat.ltb_lt. vm_compute. reflexivity.
  - vm_compute. discriminate.
  - intros [[]|[]|[] [] []|[]|[]|]; vm_compute; reflexivity.
Defined.

(** A signal before the FIFO is open on both sides ends one thread, and the
    other waits for ever for it: main never returns from pthread_join. *)
Lemma fifo_waits_for_ever : exists s, prun 5 100 true ([LCC Yes; LCP Yes 0 0] ++ replicate 9 (LInt true) ++ [LSP Yes; LSC Yes; LCC Yes]) pstart = Some s /\
  (forall l, pstep 5 100 true l s = None) /\ v_cp s = CPEnd /\ v_sc s = SCWait.
Proof. eexists. split_and!; [vm_compute; reflexivity| |vm_compute; reflexivity..]. intros [[]|[]|[] [] []|[]|[]|]; vm_compute; reflexivity. Qed.

(** A signal while a request waits for the database makes the thread read the
    slot of a reply that has not come. *)
Lemma reply_slot_uninitialised : v_cc <$> prun 5 100 true (replicate 9 (LInt true)) pstart = Some CCWild.
Proof. vm_compute. reflexivity. Qed.

(** A database that does not answer keeps the proxy from ending. *)
Lemma silent_database_hangs : exists s, prun 5 100 false ([LCP Yes 0 0; LSC Yes; LSC Yes; LCP Yes 0 0] ++ replicate 9 (LInt false) ++ [LSP Yes; LSC Yes; LCP Yes 0 0]) pstart = Some s /\
  (forall l, pstep 5 100 false l s = None) /\ waits_for_db s.
Proof.
  eexists. split; [vm_compute; reflexivity|]. split; [intros [[]|[]|[] [] []|[]|[]|]; vm_compute; reflexivity|].
  unfold waits_for_db. cbn. auto.
Qed.
