(* ===== verification/System.v ===== *)
(** * The system: a DNS query steers its traffic

    The components meet in rows of the database.  The proxy inserts a request,
    the controller reads it and inserts a flow, the daemon of the edge router
    reads the flow, installs its routes and sets it running, and the proxy,
    told of the change, answers the client.  This file follows a query through
    all of them. *)

From S2P Require Import Prelude Llist Misc Hashmap Rules Srdb Lpm Dijkstra Segpath Graph Netstate Flows Netlink Routed Queue Dns Dnsproxy.
From Stdlib Require Import Ascii.

(** ** What the readers see of a row *)

Definition field_str (st : list (string * ctype)) (e : entry) (f : string) : option string :=
  match e !! offsetof st f with Some (CBuf _ s) => Some s | _ => None end.
Definition field_int (st : list (string * ctype)) (e : entry) (f : string) : option Z :=
  match e !! offsetof st f with Some (CInt z) => Some z | _ => None end.
Definition field_ptr (st : list (string * ctype)) (e : entry) (f : string) : option (option string) :=
  match e !! offsetof st f with Some (CPtr p) => Some p | _ => None end.

(** The request that [flowreq_read] hands to the workers. *)
Definition flowreq_read (e : entry) : option flowreq :=
  let str := field_str srdb_flowreq_entry e in let int := field_int srdb_flowreq_entry e in
  row ← str "row"; id ← str "request_id"; dst ← str "destination"; dstaddr ← str "dstaddr"; src ← str "source"; srcaddr ← str "srcaddr";
  bw ← int "bandwidth"; delay ← int "delay"; proxy ← str "proxy"; status ← int "status";
  Some (FlowReq row id dst dstaddr src srcaddr bw delay proxy status).

(** The columns that the proxy's [read_flowstate] looks at. *)
Definition flowstate_of (e : entry) : option flowstate :=
  id ← field_str srdb_flow_entry e "request_id";
  status ← field_int srdb_flow_entry e "status";
  sourceIPs ← field_ptr srdb_flow_entry e "sourceIPs";
  bsid ← field_ptr srdb_flow_entry e "bsid";
  Some (FlowState id status sourceIPs bsid).

(** The columns a line brings to a fresh entry. *)
Lemma fill_reads {J : Jansson} `{!JanssonLaws J} tbl uuid line : tbl ∈ srdb_tables ->
  exists e mask, fill_srdb_entry (t_desc tbl) (calloc_entry (t_struct tbl)) uuid line = Some (e, mask) /\
    e !! d_offset row_desc = Some (CBuf (S SLEN) (strncpy SLEN uuid)) /\
    (forall n i m o s, Desc n SRDB_STR i m false o ∈ drop 2 (t_desc tbl) -> str_value (json_object_get line n) = Some s -> e !! o = Some (CBuf (S m) (strncpy m s))) /\
    (forall n i m o z, Desc n SRDB_INT i m false o ∈ drop 2 (t_desc tbl) -> int_value (json_object_get line n) = Some z -> e !! o = Some (CInt (to_int z))) /\
    (forall n i m o s, Desc n SRDB_VARSTR i m false o ∈ drop 2 (t_desc tbl) -> str_value (json_object_get line n) = Some s -> e !! o = Some (CPtr (Some (strncpy m s)))).
Proof.
  intros Ht. destruct (fill_entry_ok tbl uuid line Ht) as (e & mask & Hf & Hrow & Hcol & _). exists e, mask. split_and!; [exact Hf|exact Hrow|..];
    intros n i m o v Hd Hv; destruct (Hcol _ Hd) as (c & _ & _ & Hc); unfold filled in Hc; cbn [d_type d_name d_offset d_maxlen] in Hc; by rewrite Hv in Hc.
Qed.

Section texts.
Context {J : Jansson} {T : JanssonText J} `{!JanssonLaws J} `{!JanssonTextLaws J T}.

(** A text that a string column keeps. *)
Definition column_text (s : string) : Prop := text_fits s /\ is_Some (json_string s).

Lemma text_column line n s : json_object_get line n = json_string s -> is_Some (json_string s) -> str_value (json_object_get line n) = Some s.
Proof. intros -> [j Hj]. rewrite Hj. by apply jl_string. Qed.

Lemma int_column line n z : json_object_get line n = Some (json_integer (to_int z)) -> int_value (json_object_get line n) = Some (to_int z).
Proof. intros ->. apply jl_integer. pose proof (to_int_range z). lia. Qed.

Lemma to_int_to_int z : to_int (to_int z) = to_int z.
Proof. apply to_int_id, to_int_range. Qed.

(** The text of an array that a [SRDB_VARSTR] column keeps. *)
Lemma array_text l : (String.length (json_dumps (json_array l)) <= BUFLEN)%nat -> strncpy BUFLEN (json_dumps (json_array l)) = json_dumps (json_array l).
Proof. intros H. apply strncpy_full; [|done]. rewrite <- jl_dumps_nul. apply cut_at_count. Qed.

(** ** The controller reads what the proxy asks *)

Definition request_columns : list string := ["req_id"; "destination"; "dstaddr"; "source"; "srcaddr"; "bandwidth"; "delay"; "proxy"; "status"].

(** The request as the controller's workers receive it. *)
Definition received_req (ntop : in6_addr -> string) (proxy : string) (uuid : string) (r : reply) (id : string) : flowreq :=
  FlowReq (strncpy SLEN uuid) id (rp_destination r) (rp_destination_addr r) (rp_app r) (ntop (rp_addr r))
    (to_int (rp_bandwidth r)) (to_int (rp_latency r)) proxy REQ_STATUS_PENDING.

(** Its texts are UTF-8 and fit. *)
Record request_texts (ntop : in6_addr -> string) (proxy : string) (r : reply) (id : string) : Prop := {
  rt_id : column_text id;
  rt_destination : column_text (rp_destination r);
  rt_dstaddr : column_text (rp_destination_addr r);
  rt_source : column_text (rp_app r);
  rt_srcaddr : column_text (ntop (rp_addr r));
  rt_proxy : column_text proxy
}.

Lemma flowreq_received ntop proxy row line r id uuid :
  request_row ntop proxy row r id -> request_texts ntop proxy r id -> (forall k, k ∈ request_columns -> json_object_get line k = json_object_get row k) ->
  exists e mask, fill_srdb_entry flowreq_desc_tmpl (calloc_entry srdb_flowreq_entry) uuid line = Some (e, mask) /\ flowreq_read e = Some (received_req ntop proxy uuid r id).
Proof.
  intros [H1 H2 H3 H4 H5 H6 H7 H8 H9] [[T1 U1] [T2 U2] [T3 U3] [T4 U4] [T5 U5] [T6 U6]] Hline.
  rewrite <- Hline in H1, H2, H3, H4, H5, H6, H7, H8, H9 by (apply list_elem_of_In; simpl; auto 20).
  destruct (fill_reads flowreq_table uuid line ltac:(apply list_elem_of_In; simpl; auto)) as (e & mask & Hf & Hrow & Hs & Hi & _).
  exists e, mask. split; [exact Hf|]. unfold flowreq_read, field_str, field_int. change (offsetof srdb_flowreq_entry "row") with (d_offset row_desc). rewrite Hrow.
  assert (Hstr : forall n i f s, Desc n SRDB_STR i SLEN false (offsetof srdb_flowreq_entry f) ∈ drop 2 flowreq_desc_tmpl -> json_object_get line n = json_string s ->
    column_text s -> e !! offsetof srdb_flowreq_entry f = Some (CBuf (S SLEN) s)).
  { intros n i f s Hd Hg [[Hl Hn] Hu]. rewrite (Hs _ _ _ _ s Hd) by (by apply text_column). by rewrite strncpy_full. }
  assert (Hint : forall n i f z, Desc n SRDB_INT i 4 false (offsetof srdb_flowreq_entry f) ∈ drop 2 flowreq_desc_tmpl -> json_object_get line n = Some (json_integer (to_int z)) ->
    e !! offsetof srdb_flowreq_entry f = Some (CInt (to_int z))).
  { intros n i f z Hd Hg. rewrite (Hi _ _ _ _ (to_int z) Hd) by (by apply int_column). by rewrite to_int_to_int. }
  rewrite (Hstr "req_id" 1 "request_id" id), (Hstr "destination" 2 "destination" (rp_destination r)), (Hstr "dstaddr" 3 "dstaddr" (rp_destination_addr r)),
    (Hstr "source" 4 "source" (rp_app r)), (Hstr "srcaddr" 5 "srcaddr" (ntop (rp_addr r))), (Hint "bandwidth" 6 "bandwidth" (rp_bandwidth r)),
    (Hint "delay" 7 "delay" (rp_latency r)), (Hstr "proxy" 8 "proxy" proxy), (Hint "status" 9 "status" REQ_STATUS_PENDING)
    by first [apply list_elem_of_In; simpl; by auto 20|done|by split].
  reflexivity.
Qed.

(** ** The proxy reads what the controller and the daemon have written *)

Context (pton : string -> option in6_addr) (ntop : in6_addr -> string) `{!InetLaws pton ntop}.

(** The providers of a flow as the proxy finds them: no priority, the bytes
    of the configured text as address, one binding segment for all. *)
Definition flow_providers (bsid : in6_addr) (ps : list provider) : list provider_data :=
  map (fun p => Prov 0 (ntop (addr_bytes (strncpy SLEN (pv_addr p)))) (pv_prefix_len p) (ntop bsid)) ps.

Definition answer_columns : list string := ["request"; "sourceIPs"; "bsid"].

Lemma addr_bytes_ok s : is_addr (addr_bytes s).
Proof.
  unfold addr_bytes. split; [rewrite length_take, length_app, length_replicate; lia|]. apply Forall_take, Forall_app. split.
  - apply Forall_forall. intros b (a & -> & _)%list_elem_of_fmap. unfold byte_of. pose proof (nat_ascii_bounded a). lia.
  - apply Forall_replicate. lia.
Qed.

(** The providers' data and the length of their prefixes reach the proxy. *)
Record answer_texts (ps : list provider) (bsid : in6_addr) : Prop := {
  at_utf8 : forall a, is_addr a -> is_Some (json_string (ntop a));
  at_plen : Forall (fun p => - 2 ^ 31 <= pv_prefix_len p < 2 ^ 31) ps;
  at_srcips : (String.length (json_dumps (srcips_json ntop ps)) <= BUFLEN)%nat;
  at_bsids : (String.length (json_dumps (bsids_json ntop bsid (length ps))) <= BUFLEN)%nat
}.

Lemma srcips_providers bsid ps : (forall a, is_addr a -> is_Some (json_string (ntop a))) -> Forall (fun p => - 2 ^ 31 <= pv_prefix_len p < 2 ^ 31) ps ->
  exists js, srcips_json ntop ps = json_array js /\ Forall2 json_provider js (flow_providers bsid ps).
Proof.
  intros Hu H. unfold srcips_json, json_array_of at 1. eexists. split; [reflexivity|]. induction H as [|p ps Hp _ IH]; [constructor|].
  cbn [map omap list_omap id flow_providers]. constructor; [|exact IH]. destruct (Hu _ (addr_bytes_ok (strncpy SLEN (pv_addr p)))) as [j Hj].
  unfold json_array_of. rewrite Hj. cbn [omap list_omap id]. unfold json_provider, int_value, str_value. rewrite !jl_array_get. cbn [lookup list_lookup mbind option_bind].
  split_and!; [by apply jl_integer|by apply jl_string|apply jl_integer; cbn [pr_plen]; lia].
Qed.

Lemma bsids_providers bsid ps : is_addr bsid -> (forall a, is_addr a -> is_Some (json_string (ntop a))) ->
  exists bs, bsids_json ntop bsid (length ps) = json_array bs /\ Forall2 (fun j p => json_string_value j = Some (pr_bsid p)) bs (flow_providers bsid ps).
Proof.
  intros Hb Hu. unfold bsids_json, json_array_of. eexists. split; [reflexivity|]. destruct (Hu bsid Hb) as [j Hj].
  induction ps as [|p ps IH]; [constructor|]. cbn [length replicate map omap list_omap id flow_providers]. rewrite Hj. constructor; [by apply jl_string|exact IH].
Qed.

Lemma flow_providers_ok bsid ps : is_addr bsid -> Forall (prov_ok pton) (flow_providers bsid ps).
Proof.
  intros Hb. apply Forall_forall. intros x (p & -> & _)%list_elem_of_fmap. split; eexists; cbn [pr_prefix pr_bsid]; (split; [apply il_roundtrip|]);
    first [apply addr_bytes_ok|apply Hb|done].
Qed.

Lemma flowstate_received row line jsegs name ps bsid id uuid :
  flow_row row name jsegs (bsids_json ntop bsid (length ps)) -> answer_row row (srcips_json ntop ps) id -> column_text id -> answer_texts ps bsid -> is_addr bsid ->
  (forall k, k ∈ answer_columns -> json_object_get line k = json_object_get row k) -> json_object_get line "status" = Some (json_integer FLOW_STATUS_RUNNING) ->
  exists e mask fs, fill_srdb_entry flowstate_desc_tmpl (calloc_entry srdb_flow_entry) uuid line = Some (e, mask) /\ flowstate_of e = Some fs /\
    fs_request_id fs = id /\ fs_status fs = FLOW_STATUS_RUNNING /\ flow_columns fs (flow_providers bsid ps) /\ Forall (prov_ok pton) (flow_providers bsid ps).
Proof.
  intros (_ & Hb & _) (Hsrc & Hid) [[Tl Tn] Tu] [U P Lsrc Lb] Hba Hline Hst.
  rewrite <- Hline in Hb, Hsrc, Hid by (apply list_elem_of_In; simpl; auto 20). rewrite strncpy_full in Hid by done.
  destruct (srcips_providers bsid ps U P) as (js & Ejs & Hjs), (bsids_providers bsid ps Hba U) as (bs & Ebs & Hbs). rewrite Ejs in *. rewrite Ebs in *.
  destruct (fill_reads flow_table uuid line ltac:(apply list_elem_of_In; simpl; auto)) as (e & mask & Hf & _ & Hs & Hi & Hv).
  eexists e, mask, (FlowState id FLOW_STATUS_RUNNING (Some (json_dumps (json_array js))) (Some (json_dumps (json_array bs)))). split; [exact Hf|]. split.
  - unfold flowstate_of, field_str, field_int, field_ptr.
    rewrite (Hs "request" 14 SLEN (offsetof srdb_flow_entry "request_id") id), (Hi "status" 18 O (offsetof srdb_flow_entry "status") FLOW_STATUS_RUNNING),
      (Hv "sourceIPs" 9 BUFLEN (offsetof srdb_flow_entry "sourceIPs") (json_dumps (json_array js))), (Hv "bsid" 3 BUFLEN (offsetof srdb_flow_entry "bsid") (json_dumps (json_array bs)));
      [|apply list_elem_of_In; simpl; by auto 20|by apply text_column, jl_dumps_utf8|apply list_elem_of_In; simpl; by auto 20|by apply text_column, jl_dumps_utf8
       |apply list_elem_of_In; simpl; by auto 20|rewrite Hst; by apply jl_integer|apply list_elem_of_In; simpl; by auto 20|by apply text_column].
    cbn [mbind option_bind]. by rewrite strncpy_full, !array_text.
  - split_and!; [done|done| |by apply flow_providers_ok]. by exists js, bs.
Qed.
End texts.

(** ** From the resolver's answer to the client's *)

(** The proxy: the resolver has answered the [k]-th of the replies that pass
    with the message [hdr ++ (nm ++ [0]) ++ rest]; [r] is what it has found. *)
Record proxy_side {A : AresDns} (resolve : list Z -> option (string * list in6_addr)) (ntop : in6_addr -> string) (waiting : ptr) (proxy : string)
    (replies_ret append_ret remove_ret : ptr -> Z) (tid : string) (inner : ptr) (st : pstate) (xs : list ptr) (k : nat) (r : reply) (mem : list Z)
    (args : callback_args) (hdr nm rest : list Z) : Prop := {
  px_ready : inner_ready resolve ntop waiting proxy append_ret remove_ret tid inner st xs;
  px_reply : exists p r0, List.filter (passes resolve ntop replies_ret st) xs !! k = Some p /\ ps_replies st !! p = Some r0 /\
    client_callback (Some mem) ARES_SUCCESS (hdr ++ (nm ++ [0]) ++ rest) args = Some (Some r0) /\ parse_aaaa_reply resolve ntop r0 = Some (Some r);
  px_mem : length mem = reply_capacity;
  px_hdr : length hdr = 12%nat /\ bytes hdr;
  px_name : Forall (fun b => b <> 0) nm
}.

(** The controller and the router: [request_reaches_kernel]'s hypotheses, for
    a request without demands. *)
Record network_side {J : Jansson} (pton : string -> option in6_addr) (ntop : in6_addr -> string) (c : ctrl) (req : flowreq) (r1 r2 : router) (pb : prefix) (rnd : list (list Z))
    (if_nametoindex : string -> Z) (cfg : config) (stack : list Z) : Prop := {
  nw_ready : exists tp M rule rt dstrt, ready pton c tp M req rule rt dstrt r1 r2 /\ f_bw (new_flow pton c req rule rt dstrt) = 0 /\ f_delay (new_flow pton c req rule rt dstrt) = 0;
  nw_draws : draws_ok c r1 pb rnd;
  nw_addrs : addrs_known (c_ns c);
  nw_published : published_ok c r1 pb rnd;
  nw_routed : routed_ok ntop if_nametoindex cfg stack;
  nw_router : router_name cfg = rt_name r1;
  nw_path : exists q cost, walk (ns_view (c_ns c)) (rt_node_id r1) (rt_node_id r2) q cost
}.

(** C1. A query without bandwidth or latency demands steers the traffic that
    follows it, when a rule without waypoints allows it, the published network
    has a path between the routers of the client and of the address asked for
    (with metrics and delays too small for the cost of a path to overflow), the
    database takes the flow's row, and what is sent fits: the server's message and the SRH records fit the 616 bytes of the
    reply's block, the text of the segment list the 127 bytes of the daemon's
    buffer, the other texts their columns; the threads of the proxy run one
    after another, and none of its replies waits at the start.  The DNS
    server's answer to the query of a client makes the proxy insert a request;
    the controller reads from that row exactly what the client asked, and
    inserts a flow whose segments forward along a shortest path between those
    routers; the daemon of the client's router reads from that row the routes,
    asks the kernel for them and sets the flow running; and the proxy, told so,
    reads the flow as that of the request and sends its client, under the
    client's query id, the server's message with one SRH record per provider
    that carries the flow's binding segment. *)
Theorem query_steers_traffic (A : AresDns) (LA : AresLaws A) (J : Jansson) (T : JanssonText J) (L : JanssonLaws J) (LT : JanssonTextLaws J T)
    (pton : string -> option in6_addr) (ntop : in6_addr -> string) (LI : InetLaws pton ntop) (resolve : list Z -> option (string * list in6_addr))
    (waiting : ptr) (proxy : string) (stop : Z) (replies_ret append_ret remove_ret : ptr -> Z)
    (tid : string) (inner : ptr) (len : Z) (st : pstate) (xs : list ptr) (k : nat) (r : reply) (mem : list Z) (args : callback_args) (hdr nm rest : list Z)
    (c : ctrl) (r1 r2 : router) (pb : prefix) (rnd : list (list Z)) (now : Z) (ruuid uuid : string) (answer : option json)
    (if_nametoindex : string -> Z) (cfg : config) (talk : Z) (stack : list Z) :
  let id := request_id tid (Z.of_nat k) in let req := received_req ntop proxy ruuid r id in let ps := c_providers c in let n := length ps in
  let g := ns_view (c_ns c) in let replies := List.filter (passes resolve ntop replies_ret st) xs in
  proxy_side resolve ntop waiting proxy replies_ret append_ret remove_ret tid inner st xs k r mem args hdr nm rest ->
  network_side pton ntop c req r1 r2 pb rnd if_nametoindex cfg stack ->
  request_texts ntop proxy r id -> srdb_insert_result answer = Some (0, Some uuid) ->
  (length (hdr ++ (nm ++ [0%Z]) ++ rest) + n * (length nm + 46) <= reply_capacity)%nat ->
  exists st1 st2 ops rrow c' row x segs q cost addrs, let bsid := bsid_of pb x in
    client_producer resolve ntop replies_ret (length xs) inner len st = Some (st1, wrap64 (len - Z.of_nat (length xs) - 1), replies) /\
    client_consumer_main ntop waiting proxy append_ret tid 0 (calloc_entry srdb_flowreq_entry) replies st1 = Some (st2, ops) /\
    ops !! k = Some (DbInsert "FlowReq" rrow) /\
    (forall line, (forall f, f ∈ request_columns -> json_object_get line f = json_object_get rrow f) ->
       exists e mask, fill_srdb_entry flowreq_desc_tmpl (calloc_entry srdb_flowreq_entry) ruuid line = Some (e, mask) /\ flowreq_read e = Some req) /\
    process_request pton ntop rnd now answer c req = Some (c', [DbInsert "FlowState" row; status_op "FlowReq" (rq_row req) REQ_STATUS_ALLOWED]) /\
    shortest g (rt_node_id r1) (rt_node_id r2) q cost /\ forwards g (rt_node_id r1) segs (rev q) (rt_node_id r2) /\ mapM (segment_addr (c_ns c)) segs = Some addrs /\
    (fits ntop addrs bsid n -> forall line rts, (forall f, f ∈ ["router"; "segments"; "bsid"] -> json_object_get line f = json_object_get row f) ->
       exists e mask fe msgs, fill_srdb_entry flowstate_desc_tmpl (calloc_entry srdb_flow_entry) uuid line = Some (e, mask) /\ flowentry_of e = Some fe /\
         Routed.read_flowstate pton if_nametoindex ntop cfg talk stack fe rts =
           Some (install_routes ntop rts (replicate n (bsid, addrs)), map Some msgs, [status_op "FlowState" (strncpy SLEN uuid) FLOW_STATUS_RUNNING]) /\
         Forall2 (requested if_nametoindex cfg) msgs (replicate n (bsid, addrs))) /\
    (answer_texts ntop ps bsid -> forall line, (forall f, f ∈ answer_columns -> json_object_get line f = json_object_get row f) ->
       json_object_get line "status" = Some (json_integer FLOW_STATUS_RUNNING) ->
       exists e mask fs st3, fill_srdb_entry flowstate_desc_tmpl (calloc_entry srdb_flow_entry) uuid line = Some (e, mask) /\ flowstate_of e = Some fs /\
         Dnsproxy.read_flowstate pton waiting stop remove_ret (length replies) fs (ENTRY_MASK FE_STATUS) st2 = Some (stop, st3) /\
         pwf waiting st3 (take k replies ++ drop (S k) replies) /\
         ps_sent st3 = ps_sent st ++ [(ca_addr args, answer_of pton (splice 0 (be 2 (ca_qid args)) hdr) nm rest (flow_providers ntop bsid ps))]).
Proof.
  intros id req ps n g replies [Hir (p & r0 & Hk & Hr0 & Hcb & Hpa) Hmem [Hh Hby] Hn] [(tp & M & rule & rt & dstrt & Hr & Hbw & Hdelay) D Ha Po R Hcfg (q0 & cost0 & Hw)] Ht Hrep Hfit.
  destruct (proxy_requests resolve pton ntop waiting proxy replies_ret append_ret remove_ret tid inner len st xs k p r0 r mem _ args hdr nm rest Hir Hk Hr0 Hcb Hpa ltac:(lia) eq_refl Hh Hn)
    as (st1 & st2 & ops & rrow & Hpr & Hm & Hs & [Hop Hrow Hsplit W F P Ea Hret]).
  destruct (request_published J T L pton ntop c tp M req rule rt dstrt r1 r2 pb rnd now answer uuid q0 cost0 Hr D Ha Hrep Po Hbw Hdelay Hw)
    as (c' & row & x & segs & q & cst & addrs & H1 & H2 & H3 & H4 & H5 & H6 & Hfrow & Hans). destruct Po as [_ _ _ (Pz & Pl & Pu)].
  exists st1, st2, ops, rrow, c', row, x, segs, q, cst, addrs. cbn zeta. split_and!; [done..| |done|done|done|done| |].
  - intros line Hline. by eapply flowreq_received.
  - intros Hfits line rts Hline. by eapply flow_row_installs.
  - intros Hat line Hline Hst. destruct (rt_id _ _ _ _ Ht) as [Tid Uid].
    destruct (flowstate_received pton ntop row line _ _ ps (bsid_of pb x) id uuid Hfrow) as (e & mask & fs & Hfill & Hof & Hid & Hrun & Hcol & Hok); [|by split|done|done|done|done|].
    { cbn [req received_req rq_reqid] in Hans. by rewrite (strncpy_full SLEN id) in Hans by apply Tid. }
    exists e, mask, fs. fold id in F, P. rewrite <- Hid in F, P. rewrite Hsplit in W.
    destruct (read_flowstate_sends resolve pton ntop waiting proxy stop replies_ret append_ret remove_ret st2 _ p _ _ fs (ENTRY_MASK FE_STATUS) (flow_providers ntop (bsid_of pb x) ps) _ nm rest _ W Hret F P)
      as (st3 & Hread & W2 & _ & Hsent2); [by apply splice_bytes; [apply be2_bytes|]|done|done|done|done| |].
    + rewrite length_drop. unfold flow_providers. rewrite length_map. lia.
    + exists st3. rewrite <- Hsplit in Hread. rewrite Hsent2, Hs. cbn [Dnsproxy.set_uuid rp_addr]. rewrite Ea. by split_and!.
Qed.

(** ** The client behind router [A] asks for [b] *)

Definition steer_resolve (abuf : list Z) : option (string * list in6_addr) := Some ("b", [addr_n 66]).
Definition steer_args : callback_args := CallbackArgs 7 (addr_n 65) 0 0 "a".
Definition steer_reply0 : reply := default no_reply (x ← client_callback (Some demo_mem) 0 (demo_hdr ++ ([1; 98] ++ [0]) ++ demo_rest) steer_args; x).
Definition steer_reply : reply := default no_reply (x ← parse_aaaa_reply steer_resolve hex_text steer_reply0; x).
Definition steer_inner : pstate := PState (ps_heads demo_inner) 0 {[3%positive := steer_reply0]} [].
Definition steer_req : flowreq := received_req hex_text "p" "u-0" steer_reply (request_id "t" 0).

Lemma steer_proxy : proxy_side steer_resolve hex_text 2%positive "p" accepted accepted accepted "t" 4%positive steer_inner [3%positive] 0 steer_reply demo_mem
  steer_args demo_hdr [1; 98] demo_rest.
Proof.
  split.
  - split; [split; vm_compute; [lia|done]|split; vm_compute; [lia|done]| | |set_solver|done|done|].
    + split; [|done|done|set_solver]. split; [apply NoDup_singleton|]. by vm_compute.
    + split; [repeat constructor; set_solver|]. by vm_compute.
    + intros p ->%list_elem_of_singleton. exists steer_reply0. split; [done|]. split_and!; [split; vm_compute; [lia|done]|split; vm_compute; [lia|done]|].
      intros name l [= <- <-]. split; [split; vm_compute; [lia|done]|]. eexists _, _. split; [done|]. split; vm_compute; [lia|done].
  - exists 3%positive, steer_reply0. split_and!; vm_compute; reflexivity.
  - done.
  - split; [done|]. apply (bool_decide_unpack _). by vm_compute.
  - by repeat constructor.
Qed.

Lemma steer_ready : ready hex_pton fdemo fdemo_topo 100 steer_req fdemo_rule 1 2 fdemo_r1 fdemo_r2.
Proof.
  destruct (fdemo_ready_with hex_pton 0 0 eq_refl eq_refl) as [H1 H2 H3 _ _ _ _ H8 H9 H10]. split; [done|done|done|reflexivity| | | |done|done|done].
  - split_and!; vm_compute; reflexivity.
  - exists (addr_n 65). split; vm_compute; reflexivity.
  - exists (addr_n 66). split; vm_compute; reflexivity.
Qed.

Lemma steer_network : network_side (J := tree_jansson) hex_pton hex_text fdemo steer_req fdemo_r1 fdemo_r2 fdemo_pb fdemo_rnd one_dev fdemo_cfg scratch.
Proof.
  split; [|apply fdemo_draws|apply fdemo_addrs|apply fdemo_published|by apply hex_routed|done|].
  - exists fdemo_topo, 100, fdemo_rule, 1, 2. split_and!; [apply steer_ready|vm_compute; reflexivity|vm_compute; reflexivity].
  - eexists _, _. apply fdemo_walk.
Qed.

Lemma steer_texts : request_texts (J := tree_jansson) hex_text "p" steer_reply (request_id "t" 0).
Proof. split; (split; [split; vm_compute; [lia|done]|vm_compute; by eexists]). Qed.

Lemma query_steers_traffic_witness :
  let ps := c_providers fdemo in let n := length ps in
  let g := ns_view (c_ns fdemo) in
  exists st1 st2 ops rrow c' row x segs q cost addrs, let bsid := bsid_of fdemo_pb x in
    client_producer steer_resolve hex_text accepted 1 4%positive 1 steer_inner = Some (st1, wrap64 (-1), [3%positive]) /\
    client_consumer_main hex_text 2%positive "p" accepted "t" 0 (calloc_entry srdb_flowreq_entry) [3%positive] st1 = Some (st2, ops) /\
    ops !! O = Some (DbInsert "FlowReq" rrow) /\
    (forall line, (forall f, f ∈ request_columns -> json_object_get line f = json_object_get rrow f) ->
       exists e mask, fill_srdb_entry flowreq_desc_tmpl (calloc_entry srdb_flowreq_entry) "u-0" line = Some (e, mask) /\ flowreq_read e = Some steer_req) /\
    process_request hex_pton hex_text fdemo_rnd 1000 (Some (ok_reply "u-1")) fdemo steer_req = Some (c', [DbInsert "FlowState" row; status_op "FlowReq" "u-0" REQ_STATUS_ALLOWED]) /\
    shortest g 1 2 q cost /\ forwards g 1 segs (rev q) 2 /\ mapM (segment_addr (c_ns fdemo)) segs = Some addrs /\
    (fits hex_text addrs bsid n -> forall line rts, (forall f, f ∈ ["router"; "segments"; "bsid"] -> json_object_get line f = json_object_get row f) ->
       exists e mask fe msgs, fill_srdb_entry flowstate_desc_tmpl (calloc_entry srdb_flow_entry) "u-1" line = Some (e, mask) /\ flowentry_of e = Some fe /\
         Routed.read_flowstate hex_pton one_dev hex_text fdemo_cfg 0 scratch fe rts =
           Some (install_routes hex_text rts (replicate n (bsid, addrs)), map Some msgs, [status_op "FlowState" "u-1" FLOW_STATUS_RUNNING]) /\
         Forall2 (requested one_dev fdemo_cfg) msgs (replicate n (bsid, addrs))) /\
    (answer_texts hex_text ps bsid -> forall line, (forall f, f ∈ answer_columns -> json_object_get line f = json_object_get row f) ->
       json_object_get line "status" = Some (json_integer FLOW_STATUS_RUNNING) ->
       exists e mask fs st3, fill_srdb_entry flowstate_desc_tmpl (calloc_entry srdb_flow_entry) "u-1" line = Some (e, mask) /\ flowstate_of e = Some fs /\
         Dnsproxy.read_flowstate hex_pton 2%positive 0 accepted 1 fs (ENTRY_MASK FE_STATUS) st2 = Some (0, st3) /\ pwf 2%positive st3 [] /\
         ps_sent st3 = [(addr_n 65, answer_of hex_pton (splice 0 (be 2 7) demo_hdr) [1; 98] demo_rest (flow_providers hex_text bsid ps))]).
Proof.
  refine (query_steers_traffic wire_ares wire_ares_laws tree_jansson tree_text tree_jansson_laws tree_text_laws hex_pton hex_text hex_inet steer_resolve
    2%positive "p" 0 accepted accepted accepted "t" 4%positive 1 steer_inner [3%positive] 0 steer_reply demo_mem steer_args demo_hdr [1; 98] demo_rest
    fdemo fdemo_r1 fdemo_r2 fdemo_pb fdemo_rnd 1000 "u-0" "u-1" (Some (ok_reply "u-1")) one_dev fdemo_cfg 0 scratch steer_proxy steer_network steer_texts eq_refl _).
  vm_compute. lia.
Defined.

(** The hypotheses on the texts hold of the run. *)
Lemma steer_fits : fits (J := tree_jansson) hex_text [addr_n 57] (replicate 8 0 ++ replicate 8 7) 1 /\
  answer_texts (J := tree_jansson) hex_text (c_providers fdemo) (replicate 8 0 ++ replicate 8 7).
Proof.
  split; [split_and!; [|vm_compute; lia|vm_compute; lia]|].
  - repeat constructor; vm_compute; (lia || discriminate).
  - split; [by eexists| |vm_compute; lia|vm_compute; lia]. repeat constructor; vm_compute; (done || discriminate).
Qed.
